(* ===== verification/_CoqProject ===== *)
-Q . S2P
Prelude.v
Seq.v
Time.v
Buffers.v
Rtt.v
Isn.v
Checksum.v
Ipv4.v
Icmp.v
TcpWire.v
Sack.v
Reasm.v
Congestion.v
F64.v
Controllers.v
F64Order.v
Synth.v
Bbr.v
BbrModel.v
Cubic.v
Cc.v
Bmc.v
BmcBoard.v
Endpoint.v
Tcb.v
TcbInv.v
TcbRecv.v
TcbSegment.v
TcbDemo.v
TcbInbound.v
TcbStates.v
TcbOut.v
TcbTransmit.v
TcbPoll.v
TcbLife.v
TcbWork.v
TcbEnds.v
TcbPeer.v
TcbStream.v
Transfer.v
Iface.v
IfaceSafe.v
IfaceDrain.v
IfaceProps.v
Executor.v
Socket.v
Reactor.v
ReactorSafe.v
ReactorWake.v
ReactorTurn.v
Http.v
Server.v
ServerSafe.v
ServerProps.v
RuntimeGaps.v
SimLink.v
SimLinkProps.v
SimQueueProps.v
SimCov.v
SimCovProps.v
Sim.v
SimProps.v
SimRuns.v
