(* ===== verification/Prelude.v ===== *)
(** * Ferrumnet: a verification development

    Ferrumnet is a userspace TCP/IP stack in Rust: a sans-IO engine
    ([tcp-core]), a small single-threaded async runtime over it
    ([tcp-core/src/runtime]) and an HTTP server on a TUN device ([tcp-tun]).
    This library models the engine, the runtime and the server as functions on
    explicit state and proves what makes them correct.  File names below are
    relative to [src/]; a theorem that is a property of the manifest has its
    claim number in its comment.

    ** Conventions

    An operation that can panic in Rust (index or slice out of bounds, checked
    arithmetic, [unwrap]) or whose loop might not end is an [option]: [None] is
    the panic or the exhausted fuel, and [let?] sequences.  A theorem that an
    operation is safe therefore says that it returns [Some].  Methods on
    [&mut self] take and return the state; [f <| field := v |>] is a field
    assignment.  Integers are [Z] with the wrap-around, saturation and checks of
    their Rust width written out; octets are [Z] below 256 ([bytes_ok]).
    Floating point is the standard library's binary64 ([SpecFloat]).  The
    iteration order of a [HashMap] is an argument, and theorems hold for every
    order.

    ** Parts

    - Arithmetic and data.  [Seq] (seq.rs, serial numbers), [Time] (time.rs,
      state.rs), [Buffers] (buffers.rs, byte rings), [Rtt] (rtt.rs), [Isn]
      (isn.rs, SipHash).
    - Wire formats.  [Checksum], [Ipv4], [Icmp], [TcpWire] (wire/*.rs); [Endpoint]
      (the segment builders of iface.rs).
    - Sender and receiver bookkeeping.  [Sack] (sack.rs), [Reasm] (reasm.rs).
    - Congestion control (congestion.rs, bbr.rs).  [Congestion] has the trait as
      the class [CongestionControl], its laws [CongestionLaws] and Reno;
      [Controllers] DCTCP, Prague and the learned genome; [Synth] the synthesised
      register machine; [Cubic]; [Bbr] and [BbrModel]; [Cc] the enumeration that
      dispatches to them, with its laws.  [F64] and [F64Order] carry binary64.
    - The connection (tcb.rs).  [Tcb] has one record field per field and one
      definition per method, generic in the controller.  [TcbInv] is the
      invariant [tcb_ok]; [TcbRecv], [TcbSegment], [TcbInbound], [TcbStates] the
      inbound path; [TcbOut], [TcbTransmit], [TcbPoll], [TcbWork], [TcbEnds] the
      outbound path; [TcbLife] constructors, application calls and timers;
      [TcbDemo] a concrete connection.
    - Two connections.  [TcbPeer] is what one says and the other reads,
      [TcbStream] places each end of a connection in the byte streams the two
      applications write, [Transfer] is the pair over a network that holds every
      frame ever said and delivers what it likes.
    - The driver (iface.rs).  [Iface] is [Stack]; [IfaceSafe], [IfaceDrain],
      [IfaceProps] its invariant [stack_ok] and theorems.
    - The runtime (runtime/*.rs).  [Executor] tasks and the woken queue; [Socket]
      the shared [ReactorState] and the futures; [Reactor] a turn of the event
      loop over the class [Device].  [ReactorSafe] is its invariant, [ReactorWake]
      the wake-ups, [ReactorTurn] the turn, against the interfaces [DeviceLaws]
      (discharged for [MockDevice]) and [ClientLaws].
    - The server (tcp-tun/src/http.rs, main.rs).  [Http] parses requests and
      builds responses; [Server] is [serve] and the accept loop as state machines
      of their awaits; [ServerSafe] discharges [ApplicationLaws] and
      [ClientLaws]; [ServerProps] has the theorems and [RuntimeGaps] the places
      where the runtime falls short of its comments.
    - The bounded model checker (bmc.rs).  [Bmc], [BmcBoard].
    - The deterministic simulator (sim.rs), which drives the runtime in virtual
      time.  [SimLink] has the generator, the faulty link, the bottleneck, the
      dual queue and the adversary's link, with [SimLinkProps] and [SimQueueProps]
      their theorems; [SimCov] the observer, its coverage map and the fuzzer, with
      [SimCovProps]; [Sim] the two hosts, their workload and the driver, with
      [SimProps]; [SimRuns] the testbeds.  [Sim.host_turn] is [Reactor.turn] with
      the cells the workload shares with its driver.

    ** Theorems

    - The connection: no segment, in any state of the invariant, panics; what is
      delivered is the peer's stream in order; an acknowledgement frees what it
      acknowledges and nothing else; resets and bad segments do what RFC 5961
      asks; states move as RFC 793 draws them; everything emitted carries the
      stream at its number and fits the peer's segment size; windows never
      shrink; a timeout resends the oldest octet; [poll_at] never oversleeps;
      every interleaving of operations keeps [tcb_ok].
    - Two connections: whatever the network loses, duplicates, delays or
      reorders, each application reads a prefix of what the other wrote, all of
      it at end of file, and nothing leaves a send buffer before it arrived.
    - The driver: every reachable stack is sound, a datagram reaches at most one
      connection, the drain ends and reaps, in every iteration order.
    - The runtime and server: a dispatch wakes exactly the futures that would
      complete; a turn of the server returns and leaves every task asleep on an
      event that has not happened; each connection gets a prefix of one response.
    - The simulator: the faulty link loses, duplicates, delays and flips frames as
      its counters say and does nothing else; the stack drops what it flipped; the
      bottleneck is a FIFO server and the dual queue alternates between its
      classes, both with exact books; a run ends with a verdict, and "completed"
      means the payload arrived intact; the fuzzer keeps what reaches further.
    - Components: reassembly, scoreboard, rings, checksums, codecs and the
      retransmission timer against reference definitions; every controller is
      live under every event, with its characteristic response.
    ** Hypotheses and bounds

    A peer may send anything that parses, inside its window or not, with two
    exceptions ([honest] segments, [polite] datagrams): data must not begin 2^30
    octets or more ahead of the octet expected next, and a SYN must not announce
    a segment size of zero; the findings of the manifest say what happens
    otherwise.  Two connections of this stack never do either ([Transfer], for
    streams below 2^30 octets, where 32-bit numbers name octets without ambiguity
    however old a segment is).  CUBIC's theorem assumes fewer than 2^52 acknowledged octets, below
    which a binary64 counts them exactly; BBR's [u64] counters wrap as the code's
    would; task ids stay below 2^64.

    Loops have fuel, and each fuel is shown to be enough: [walk_fuel] (a turn per
    run edge of the scoreboard), [increase_fuel] and [grow_fuel] (a turn per
    segment of window growth), [loop_fuel] (CUBIC's counters, a turn per whole
    segment), [transmit_fuel] (a turn per unit of [work] of a connection),
    [serve_fuel] (a turn per octet to read and per chunk to write).  The event
    loop's own loops take their fuel as an argument, with theorems that more than
    the device's backlog, and a bound that depends on the wake-ups, are enough.
    A simulated run needs [MAX_STEPS + 1] turns, and a queue's service one turn
    more than it holds frames.  The simulator's theorems take a run whose turns
    return; that they do is the driver's and the runtime's own theorems.

    ** Not modelled

    The training and search loops of tcp-core/src/sim.rs (offline optimisation
    over the simulator's runs).  The TUN device, io_uring ring and system calls of tcp-tun (iou.rs,
    sys.rs, tun.rs), which the reactor reaches through [Device].  Argument and
    environment parsing and the benchmark client of tcp-tun/src/main.rs.  The
    code under [cfg(test)] and the accessors only tests use.  Memory: reference
    counts, [RefCell] borrows and allocation; the code is single-threaded and a
    future borrows the shared state for one [poll].
*)

From stdpp Require Export base option list numbers tactics.
From Stdlib Require Export ZArith Lia Bool.

Global Open Scope Z_scope.

(** ** Panics

    A Rust operation that can panic (an index or a slice out of bounds, an
    arithmetic overflow in a checked build, [unwrap] on [None], a loop that
    does not reach its exit within the fuel its definition gives it) is an
    [option]: [None] is the panic.  [let?] is the sequencing. *)

Notation "'let?' x := m 'in' k" :=
  (match m with Some x => k | None => None end)
  (at level 10, x pattern, m at level 100, k at level 200).

(** ** Machine integers *)

Abbreviation U8_MAX := 255.
Abbreviation U16_MAX := 65535.
Abbreviation U32_MAX := 4294967295.
Abbreviation U64_MAX := 18446744073709551615.

(** [as u8], [as u16], [as u32], [as u64] on a non-negative value, and the
    wrapping operators of the same width. *)
Definition wrap8 (z : Z) : Z := z mod 2 ^ 8.
Definition wrap16 (z : Z) : Z := z mod 2 ^ 16.
Definition wrap32 (z : Z) : Z := z mod 2 ^ 32.
Definition wrap64 (z : Z) : Z := z mod 2 ^ 64.

(** [as i32] on a [u32]. *)
Definition as_i32 (z : Z) : Z := if z <? 2 ^ 31 then z else z - 2 ^ 32.

Definition is_u8 (z : Z) : Prop := 0 <= z < 2 ^ 8.
Definition is_u16 (z : Z) : Prop := 0 <= z < 2 ^ 16.
Definition is_u32 (z : Z) : Prop := 0 <= z < 2 ^ 32.
Definition is_u64 (z : Z) : Prop := 0 <= z < 2 ^ 64.

(** [saturating_add] at the two widths the code uses, [saturating_sub], and
    [saturating_mul] on [u64]. *)
Definition sat_add32 (a b : Z) : Z := Z.min (a + b) U32_MAX.
Definition sat_add64 (a b : Z) : Z := Z.min (a + b) U64_MAX.
Definition sat_mul64 (a b : Z) : Z := Z.min (a * b) U64_MAX.
Definition sat_mul32 (a b : Z) : Z := Z.min (a * b) U32_MAX.
Definition sat_sub (a b : Z) : Z := Z.max (a - b) 0.

(** [u32::div_ceil] and friends. *)
Definition div_ceil (a b : Z) : Z := (a + b - 1) / b.

(** Checked (panicking) arithmetic, for the places where the code relies on
    an operation not overflowing. *)
Definition checked_u32 (z : Z) : option Z :=
  if (0 <=? z) && (z <=? U32_MAX) then Some z else None.
Definition checked_sub (a b : Z) : option Z :=
  if b <=? a then Some (a - b) else None.

(** [Z.b2z] is [u32::from(bool)]. *)

(** [Option::is_some] and [is_none]. *)
Definition is_some {A} (o : option A) : bool := match o with Some _ => true | None => false end.
Definition is_none {A} (o : option A) : bool := negb (is_some o).

(** ** Slices: lists indexed by [usize] values (as [Z]) *)

Definition zlen {A} (l : list A) : Z := Z.of_nat (length l).
Definition ztake {A} (n : Z) (l : list A) : list A := take (Z.to_nat n) l.
Definition zdrop {A} (n : Z) (l : list A) : list A := drop (Z.to_nat n) l.
Definition zrepeat {A} (x : A) (n : Z) : list A := replicate (Z.to_nat n) x.

(** [l[i]] *)
Definition at_ {A} (l : list A) (i : Z) : option A :=
  if 0 <=? i then l !! Z.to_nat i else None.

(** [&l[a..b]] *)
Definition slice {A} (l : list A) (a b : Z) : option (list A) :=
  if (0 <=? a) && (a <=? b) && (b <=? zlen l)
  then Some (ztake (b - a) (zdrop a l)) else None.

(** [l[a..a + data.len()].copy_from_slice(&data)] *)
Definition splice {A} (l : list A) (a : Z) (data : list A) : option (list A) :=
  if (0 <=? a) && (a + zlen data <=? zlen l)
  then Some (ztake a l ++ data ++ zdrop (a + zlen data) l) else None.

(** [l[i] = x] *)
Definition store {A} (l : list A) (i : Z) (x : A) : option (list A) :=
  splice l i [x].

(** [Vec::remove] (panics out of bounds) and [Vec::insert] at a position
    within the length. *)
Definition vec_remove {A} (v : list A) (i : nat) : option (list A) :=
  if Nat.ltb i (length v) then Some (take i v ++ drop (S i) v) else None.
Definition vec_insert {A} (v : list A) (i : nat) (x : A) : list A :=
  take i v ++ x :: drop i v.

Arguments zlen : simpl never.
Arguments ztake : simpl never.
Arguments zdrop : simpl never.
Arguments zrepeat : simpl never.
Arguments at_ : simpl never.
Arguments slice : simpl never.
Arguments splice : simpl never.

(** ** Big-endian codecs: [from_be_bytes] and [to_be_bytes] *)

Definition be16 (a b : Z) : Z := a * 256 + b.
Definition be32 (a b c d : Z) : Z := ((a * 256 + b) * 256 + c) * 256 + d.
Definition to_be16 (v : Z) : list Z := [v / 256 mod 256; v mod 256].
Definition to_be32 (v : Z) : list Z :=
  [v / 16777216 mod 256; v / 65536 mod 256; v / 256 mod 256; v mod 256].

Definition bytes_ok (l : list Z) : Prop := Forall is_u8 l.

(** [std::result::Result] *)
Inductive Result (A E : Type) := Ok (a : A) | Err (e : E).
Arguments Ok {A E} a.
Arguments Err {A E} e.

(** [std::net::Ipv4Addr] *)
Inductive Ipv4Addr := ipv4 (a b c d : Z).
Definition octets (ip : Ipv4Addr) : list Z :=
  match ip with ipv4 a b c d => [a; b; c; d] end.
Definition ip_ok (ip : Ipv4Addr) : Prop := bytes_ok (octets ip).
#[export] Instance Ipv4Addr_eq_dec : EqDecision Ipv4Addr.
Proof. solve_decision. Defined.

(** The low bits of a non-negative integer: [&] with a mask of ones, [>>]. *)
Lemma land_ones_mod z n : 0 <= n -> Z.land z (Z.ones n) = z mod 2 ^ n.
Proof. apply Z.land_ones. Qed.

(** ** Record update

    [r <| f := v |>] is the record [r] with field [f] replaced, the model of
    [self.f = v].  A record opts in with an instance of [Settable], its
    eta-expansion; the setter of each field is computed from it. *)

Class Settable (R : Type) := eta_expand : R -> R.
Class Setter {R T : Type} (proj : R -> T) := set : (T -> T) -> R -> R.
Arguments set {R T} proj {_} _ _.

Ltac solve_setter :=
  match goal with
  | |- @Setter ?R ?T ?proj =>
      let inst := constr:(_ : Settable R) in
      let e := eval hnf in inst in
      match eval pattern proj in e with
      | ?f _ =>
          let s := eval cbv beta in (fun (g : T -> T) (r : R) => f (fun r' => g (proj r')) r) in
          exact s
      end
  end.

#[export] Hint Extern 1 (Setter _) => solve_setter : typeclass_instances.

Notation "r <| f := v |>" := (set f (fun _ => v) r)
  (at level 1, left associativity, f constr, v at level 99,
   format "r  <|  f  :=  v  |>").

(** ** Automation *)

Create HintDb ferrum discriminated.

(** Arithmetic with [mod] and [/] by literals. *)
Ltac zmod := Z.div_mod_to_equations; lia.

(** Unfold the width predicates and the wrappers, then decide. *)
Ltac width :=
  unfold is_u8, is_u16, is_u32, is_u64, wrap8, wrap16, wrap32, wrap64,
    as_i32, sat_add32, sat_add64, sat_mul32, sat_mul64, sat_sub,
    checked_u32, checked_sub in *;
  try lia; try zmod.

(** Case on every boolean test of the goal (or of the hypotheses). *)
Ltac case_ifs :=
  repeat match goal with
  | |- context [if ?b then _ else _] => destruct b eqn:?
  end.
Ltac case_ifs_in H :=
  repeat match type of H with
  | context [if ?b then _ else _] => destruct b eqn:?
  end.

(** [bytes_ok] of a literal list, leaving the byte ranges. *)
Ltac split_bytes :=
  unfold bytes_ok; repeat first [apply List.Forall_nil | apply List.Forall_cons].

(** Invert one bind of the panic monad in a hypothesis. *)
Ltac inv_bind H :=
  repeat match type of H with
  | (match ?m with Some _ => _ | None => None end) = Some _ =>
      destruct m eqn:?; [|discriminate H]
  | (let (_, _) := ?p in _) = Some _ => destruct p eqn:?
  end.

(** ** Generic lemmas: integers *)

Lemma wrap32_range z : is_u32 (wrap32 z).
Proof. apply Z.mod_pos_bound. lia. Qed.
Lemma wrap16_range z : is_u16 (wrap16 z).
Proof. apply Z.mod_pos_bound. lia. Qed.
Lemma wrap8_range z : is_u8 (wrap8 z).
Proof. apply Z.mod_pos_bound. lia. Qed.
Lemma wrap64_range z : is_u64 (wrap64 z).
Proof. apply Z.mod_pos_bound. lia. Qed.

Lemma wrap32_small z : is_u32 z -> wrap32 z = z.
Proof. intros. apply Z.mod_small. exact H. Qed.
Lemma wrap16_small z : is_u16 z -> wrap16 z = z.
Proof. intros. apply Z.mod_small. exact H. Qed.
Lemma wrap8_small z : is_u8 z -> wrap8 z = z.
Proof. intros. apply Z.mod_small. exact H. Qed.
Lemma wrap64_small z : is_u64 z -> wrap64 z = z.
Proof. intros. apply Z.mod_small. exact H. Qed.

#[export] Hint Resolve wrap8_range wrap16_range wrap32_range wrap64_range : ferrum.

(** ** Generic lemmas: slices *)

Section slices.
Context {A : Type}.
Implicit Types l d : list A.

Lemma zlen_nonneg l : 0 <= zlen l.
Proof. unfold zlen; lia. Qed.
Lemma zlen_nil : zlen (@nil A) = 0.
Proof. reflexivity. Qed.
Lemma zlen_cons x l : zlen (x :: l) = 1 + zlen l.
Proof. unfold zlen; cbn [length]; lia. Qed.
Lemma zlen_app l d : zlen (l ++ d) = zlen l + zlen d.
Proof. unfold zlen. rewrite length_app. lia. Qed.
Lemma zlen_ztake n l : zlen (ztake n l) = Z.max 0 (Z.min n (zlen l)).
Proof. unfold zlen, ztake. rewrite length_take. lia. Qed.
Lemma zlen_zdrop n l : zlen (zdrop n l) = Z.max 0 (zlen l - Z.max 0 n).
Proof. unfold zlen, zdrop. rewrite length_drop. lia. Qed.
Lemma zlen_zrepeat (x : A) n : zlen (zrepeat x n) = Z.max 0 n.
Proof. unfold zlen, zrepeat. rewrite length_replicate. lia. Qed.
Lemma zlen_0_nil l : zlen l = 0 -> l = [].
Proof. destruct l; [done|]. rewrite zlen_cons. pose proof (zlen_nonneg l). lia. Qed.

Lemma ztake_all n l : zlen l <= n -> ztake n l = l.
Proof. unfold zlen, ztake. intros. apply take_ge. lia. Qed.
Lemma ztake_0 n l : n <= 0 -> ztake n l = [].
Proof. unfold ztake. intros. replace (Z.to_nat n) with 0%nat by lia. done. Qed.
Lemma zdrop_0 n l : n <= 0 -> zdrop n l = l.
Proof. unfold zdrop. intros. replace (Z.to_nat n) with 0%nat by lia. done. Qed.
Lemma zdrop_all n l : zlen l <= n -> zdrop n l = [].
Proof. unfold zlen, zdrop. intros. apply drop_ge. lia. Qed.
Lemma ztake_zdrop n l : ztake n l ++ zdrop n l = l.
Proof. apply take_drop. Qed.
Lemma zdrop_zdrop a b l : 0 <= a -> 0 <= b -> zdrop a (zdrop b l) = zdrop (a + b) l.
Proof. unfold zdrop. intros. rewrite drop_drop. f_equal. lia. Qed.
Lemma ztake_app_le n l d : n <= zlen l -> ztake n (l ++ d) = ztake n l.
Proof. unfold ztake, zlen. intros. apply take_app_le. lia. Qed.
Lemma ztake_app_exact l d : ztake (zlen l) (l ++ d) = l.
Proof. unfold ztake, zlen. rewrite Nat2Z.id. apply take_app_length. Qed.
Lemma zdrop_app_exact l d : zdrop (zlen l) (l ++ d) = d.
Proof. unfold zdrop, zlen. rewrite Nat2Z.id. apply drop_app_length. Qed.
Lemma ztake_app_ge n l d : zlen l <= n -> ztake n (l ++ d) = l ++ ztake (n - zlen l) d.
Proof.
  unfold ztake, zlen. intros. rewrite take_app_ge by lia. do 2 f_equal. lia.
Qed.
Lemma zdrop_app_le n l d : 0 <= n <= zlen l -> zdrop n (l ++ d) = zdrop n l ++ d.
Proof. unfold zdrop, zlen. intros. apply drop_app_le. lia. Qed.
Lemma zdrop_app_ge n l d : zlen l <= n -> zdrop n (l ++ d) = zdrop (n - zlen l) d.
Proof.
  unfold zdrop, zlen. intros. rewrite drop_app_ge by lia. f_equal. lia.
Qed.

Lemma at_lookup l i : 0 <= i -> at_ l i = l !! Z.to_nat i.
Proof. unfold at_. intros. replace (0 <=? i) with true by lia. done. Qed.
Lemma at_is_Some l i : 0 <= i < zlen l -> is_Some (at_ l i).
Proof.
  unfold zlen. intros. rewrite at_lookup by lia. apply lookup_lt_is_Some. lia.
Qed.
Lemma at_app_l l d i : i < zlen l -> at_ (l ++ d) i = at_ l i.
Proof.
  unfold at_, zlen. intros. destruct (0 <=? i) eqn:?; [|done].
  apply lookup_app_l. lia.
Qed.
Lemma at_app_r l d i : zlen l <= i -> at_ (l ++ d) i = at_ d (i - zlen l).
Proof.
  unfold at_, zlen. intros.
  replace (0 <=? i) with true by lia. replace (0 <=? i - _) with true by lia.
  rewrite lookup_app_r by lia. f_equal. lia.
Qed.
Lemma at_zdrop l n i : 0 <= n -> 0 <= i -> at_ (zdrop n l) i = at_ l (n + i).
Proof.
  intros. rewrite !at_lookup by lia. unfold zdrop. rewrite lookup_drop.
  f_equal. lia.
Qed.
Lemma at_ztake l n i : 0 <= i < n -> at_ (ztake n l) i = at_ l i.
Proof.
  intros. rewrite !at_lookup by lia. unfold ztake. apply lookup_take_lt. lia.
Qed.
Lemma at_range l i x : at_ l i = Some x -> 0 <= i < zlen l.
Proof.
  unfold at_, zlen. destruct (0 <=? i) eqn:?; [|done].
  intros ?%lookup_lt_Some. lia.
Qed.
Lemma at_None l i : i < 0 \/ zlen l <= i -> at_ l i = None.
Proof.
  unfold at_, zlen. intros. destruct (0 <=? i) eqn:?; [|done].
  apply lookup_ge_None. lia.
Qed.
Lemma at_ext l d : (forall i, at_ l i = at_ d i) -> l = d.
Proof.
  intros H. apply list_eq. intros i. specialize (H (Z.of_nat i)).
  rewrite !at_lookup, !Nat2Z.id in H by lia. done.
Qed.

Lemma slice_Some l a b :
  0 <= a <= b -> b <= zlen l -> slice l a b = Some (ztake (b - a) (zdrop a l)).
Proof. unfold slice. intros. case_ifs; [done|lia]. Qed.
Lemma slice_is_Some l a b : is_Some (slice l a b) <-> 0 <= a <= b /\ b <= zlen l.
Proof.
  unfold slice. case_ifs; split; intros H; try lia; try (by eexists).
Qed.
Lemma splice_Some l a d :
  0 <= a -> a + zlen d <= zlen l ->
  splice l a d = Some (ztake a l ++ d ++ zdrop (a + zlen d) l).
Proof. unfold splice. intros. case_ifs; [done|lia]. Qed.
Lemma splice_inv l a d r :
  splice l a d = Some r ->
  0 <= a /\ a + zlen d <= zlen l /\ r = ztake a l ++ d ++ zdrop (a + zlen d) l.
Proof. unfold splice. case_ifs; intros; simplify_eq. split; [|split]; [lia..|done]. Qed.
Lemma zlen_splice l a d r : splice l a d = Some r -> zlen r = zlen l.
Proof.
  intros (? & ? & ->)%splice_inv. pose proof (zlen_nonneg d).
  rewrite !zlen_app, zlen_ztake, zlen_zdrop. lia.
Qed.
Lemma at_splice l a d r i :
  splice l a d = Some r ->
  at_ r i = if (a <=? i) && (i <? a + zlen d) then at_ d (i - a) else at_ l i.
Proof.
  intros (? & ? & ->)%splice_inv. pose proof (zlen_nonneg d).
  assert (Ha : zlen (ztake a l) = a) by (rewrite zlen_ztake; lia).
  destruct (Z.lt_ge_cases i a) as [Hi|Hi].
  { rewrite at_app_l by lia. case_ifs; [lia|].
    destruct (Z.lt_ge_cases i 0); [rewrite !at_None by lia; done|].
    apply at_ztake. lia. }
  rewrite at_app_r by lia. rewrite Ha.
  destruct (Z.lt_ge_cases i (a + zlen d)).
  { rewrite at_app_l by lia. case_ifs; [done|lia]. }
  rewrite at_app_r, at_zdrop by lia. case_ifs; [lia|]. f_equal. lia.
Qed.
Lemma splice_app l d k x :
  0 <= k -> splice (l ++ d) (zlen l + k) x = let? y := splice d k x in Some (l ++ y).
Proof.
  intros Hk. pose proof (zlen_nonneg l). pose proof (zlen_nonneg x). unfold splice.
  rewrite zlen_app. replace (0 <=? zlen l + k) with true by lia.
  replace (0 <=? k) with true by lia. cbn [andb].
  replace (zlen l + k + zlen x <=? zlen l + zlen d) with (k + zlen x <=? zlen d) by lia.
  destruct (k + zlen x <=? zlen d); [|done].
  rewrite ztake_app_ge, zdrop_app_ge by lia. rewrite <- app_assoc.
  do 3 f_equal; [f_equal; lia|]. do 2 f_equal. lia.
Qed.
End slices.

Lemma vec_remove_at {A} (pre : list A) x rest :
  vec_remove (pre ++ x :: rest) (length pre) = Some (pre ++ rest).
Proof.
  unfold vec_remove. rewrite length_app. cbn [length].
  destruct (Nat.ltb_spec (length pre) (length pre + S (length rest))) as [_|Hn]; [|lia].
  rewrite take_app_length. replace (S (length pre)) with (length pre + 1)%nat by lia.
  by rewrite <- drop_drop, drop_app_length.
Qed.
Lemma vec_insert_at {A} (pre rest : list A) x :
  vec_insert (pre ++ rest) (length pre) x = pre ++ x :: rest.
Proof. unfold vec_insert. by rewrite take_app_length, drop_app_length. Qed.

Create Rewrite HintDb zlen.
#[export] Hint Rewrite @zlen_nil @zlen_cons @zlen_app @zlen_ztake @zlen_zdrop
  @zlen_zrepeat : zlen.

(** Compute the sums of literals (indices such as [12 + 1]). *)
Ltac is_zlit z :=
  lazymatch z with Z0 => idtac | Zpos ?p => idtac | Zneg ?p => idtac end.
Ltac eval_offsets :=
  repeat match goal with
  | |- context [?a + ?b] =>
      is_zlit a; is_zlit b; let c := eval vm_compute in (a + b) in change (a + b) with c
  end.

(** Compute closed [Z.to_nat] and [zlen] of literal lists. *)
Ltac eval_to_nat :=
  repeat match goal with
  | |- context [Z.to_nat ?z] =>
      let n := eval vm_compute in (Z.to_nat z) in
      progress change (Z.to_nat z) with n
  end.

(** Run a copy into a buffer whose first cells are explicit. *)
Ltac run_splices :=
  repeat (unfold store; rewrite splice_Some by (autorewrite with zlen in *; lia);
    unfold ztake, zdrop; eval_to_nat; cbn [take drop app]; rewrite ?drop_0).

(** Expose the first [n] cells of a list known to be that long. *)
Ltac expose l n :=
  lazymatch n with
  | O => let t := fresh "tail" in rename l into t
  | S ?m =>
      let x := fresh "x" in let l' := fresh "rest" in
      destruct l as [|x l']; [exfalso; autorewrite with zlen in *; lia|];
      expose l' m
  end.

(** Reason about lengths. *)
Ltac zlens := autorewrite with zlen in *; try lia.

(** *** Big-endian codecs *)

Lemma be16_to_be16 v : is_u16 v -> be16 (v / 256 mod 256) (v mod 256) = v.
Proof. unfold be16, is_u16. zmod. Qed.

Lemma be32_to_be32 v :
  is_u32 v ->
  be32 (v / 16777216 mod 256) (v / 65536 mod 256) (v / 256 mod 256) (v mod 256) = v.
Proof. unfold be32, is_u32. zmod. Qed.
