(* ===== verification/Seq.v ===== *)
(** Serial-number arithmetic: [tcp-core/src/seq.rs].

    A [SeqNumber] is a [u32].  All comparisons go through the signed distance,
    as in the code; [off base s] (the code's [offset_from]) is the coordinate
    the other files reason in: inside a window of less than 2^31 above a base,
    serial order is the order of the offsets ([lt_off], [le_off], ...). *)

From S2P Require Import Prelude.

Abbreviation SeqNumber := Z.
Definition seq_ok (s : SeqNumber) : Prop := is_u32 s.

(** [SeqNumber::distance], [offset_from], [lt] .. [max], [Add<u32>]. *)
Definition distance (self other : SeqNumber) : Z := as_i32 (wrap32 (self - other)).
Definition offset_from (self base : SeqNumber) : Z := wrap32 (self - base).
Definition seq_lt (self other : SeqNumber) : bool := distance self other <? 0.
Definition seq_le (self other : SeqNumber) : bool := distance self other <=? 0.
Definition seq_gt (self other : SeqNumber) : bool := 0 <? distance self other.
Definition seq_ge (self other : SeqNumber) : bool := 0 <=? distance self other.
Definition seq_min (self other : SeqNumber) : SeqNumber :=
  if seq_le self other then self else other.
Definition seq_max (self other : SeqNumber) : SeqNumber :=
  if seq_ge self other then self else other.
Definition seq_add (self : SeqNumber) (rhs : Z) : SeqNumber := wrap32 (self + rhs).

(** The coordinate of [s] in the window above [base]. *)
Definition off (base s : SeqNumber) : Z := offset_from s base.

(** [s] lies less than half the sequence space above [base]. *)
Definition in_half (base s : SeqNumber) : Prop := seq_ok s /\ off base s < 2 ^ 31.

Lemma off_range base s : 0 <= off base s < 2 ^ 32.
Proof. apply wrap32_range. Qed.

Lemma off_self base : off base base = 0.
Proof. unfold off, offset_from. by rewrite Z.sub_diag. Qed.

Lemma off_0 base s : seq_ok base -> seq_ok s -> off base s = 0 -> s = base.
Proof. unfold off, offset_from, seq_ok. width. Qed.

Lemma seq_add_ok s n : seq_ok (seq_add s n).
Proof. apply wrap32_range. Qed.

Lemma seq_add_0 s : seq_ok s -> seq_add s 0 = s.
Proof. unfold seq_add, seq_ok. rewrite Z.add_0_r. apply wrap32_small. Qed.

Lemma seq_add_add s a b : seq_add (seq_add s a) b = seq_add s (a + b).
Proof. unfold seq_add, wrap32. rewrite Zplus_mod_idemp_l. f_equal. lia. Qed.

Lemma seq_add_off base s : seq_ok base -> seq_ok s -> seq_add base (off base s) = s.
Proof. unfold seq_add, off, offset_from, seq_ok. width. Qed.

Lemma off_add base s n :
  seq_ok s -> 0 <= off base s + n < 2 ^ 32 -> off base (seq_add s n) = off base s + n.
Proof. unfold off, offset_from, seq_add, seq_ok. width. Qed.

Lemma off_add_base base n : 0 <= n < 2 ^ 32 -> off base (seq_add base n) = n.
Proof. unfold off, offset_from, seq_add. width. Qed.

(** Changing the base of a window. *)
Lemma off_rebase b b' s :
  seq_ok b' -> off b b' <= off b s -> off b' s = off b s - off b b'.
Proof. unfold off, offset_from, seq_ok. width. Qed.

Lemma off_inj base s t :
  seq_ok s -> seq_ok t -> off base s = off base t -> s = t.
Proof. unfold off, offset_from, seq_ok. width. Qed.

Lemma distance_off base s t :
  in_half base s -> in_half base t -> distance s t = off base s - off base t.
Proof.
  unfold in_half, distance, off, offset_from, seq_ok. intros [??] [??].
  unfold as_i32. case_ifs; width.
Qed.

Lemma offset_from_off base s t :
  in_half base s -> in_half base t -> off base t <= off base s ->
  offset_from s t = off base s - off base t.
Proof.
  unfold in_half, off, offset_from, seq_ok. intros [??] [??] ?. width.
Qed.

Section order.
Context (base s t : SeqNumber).
Context (Hs : in_half base s) (Ht : in_half base t).

Lemma lt_off : seq_lt s t = (off base s <? off base t).
Proof. unfold seq_lt. rewrite (distance_off base) by done. lia. Qed.
Lemma le_off : seq_le s t = (off base s <=? off base t).
Proof. unfold seq_le. rewrite (distance_off base) by done. lia. Qed.
Lemma gt_off : seq_gt s t = (off base t <? off base s).
Proof. unfold seq_gt. rewrite (distance_off base) by done. lia. Qed.
Lemma ge_off : seq_ge s t = (off base t <=? off base s).
Proof. unfold seq_ge. rewrite (distance_off base) by done. lia. Qed.
Lemma off_min : off base (seq_min s t) = Z.min (off base s) (off base t).
Proof. unfold seq_min. rewrite le_off. case_ifs; lia. Qed.
Lemma off_max : off base (seq_max s t) = Z.max (off base s) (off base t).
Proof. unfold seq_max. rewrite ge_off. case_ifs; lia. Qed.
Lemma in_half_min : in_half base (seq_min s t).
Proof. unfold seq_min. by case_ifs. Qed.
Lemma in_half_max : in_half base (seq_max s t).
Proof. unfold seq_max. by case_ifs. Qed.
End order.

Lemma in_half_self base : seq_ok base -> in_half base base.
Proof. split; [done|]. rewrite off_self. lia. Qed.

Lemma in_half_add base s n :
  in_half base s -> 0 <= n -> off base s + n < 2 ^ 31 -> in_half base (seq_add s n).
Proof.
  intros [??] ??. pose proof (off_range base s).
  split; [apply seq_add_ok|]. rewrite off_add; lia || done.
Qed.

#[export] Hint Resolve in_half_self in_half_min in_half_max seq_add_ok : ferrum.

(** The four comparisons against each other. *)
Lemma seq_gt_lt s t : seq_gt s t = negb (seq_le s t).
Proof. unfold seq_gt, seq_le. lia. Qed.
Lemma seq_ge_lt s t : seq_ge s t = negb (seq_lt s t).
Proof. unfold seq_ge, seq_lt. lia. Qed.
Lemma seq_le_refl s : seq_le s s = true.
Proof. unfold seq_le, distance. rewrite Z.sub_diag. done. Qed.
Lemma seq_ge_refl s : seq_ge s s = true.
Proof. unfold seq_ge, distance. rewrite Z.sub_diag. done. Qed.
Lemma seq_lt_irrefl s : seq_lt s s = false.
Proof. unfold seq_lt, distance. rewrite Z.sub_diag. done. Qed.

(** [s <= t] in serial order puts [t] in the half-space above [s]. *)
Lemma seq_le_in_half s t : seq_ok t -> seq_le s t = true -> in_half s t \/ off s t = 2 ^ 31.
Proof.
  unfold seq_le, distance, in_half, off, offset_from, seq_ok, as_i32.
  intros ?. case_ifs; intros; width.
Qed.

Lemma seq_gt_in_half s t : seq_ok t -> seq_gt t s = true -> in_half s t /\ 0 < off s t.
Proof.
  unfold seq_gt, distance, in_half, off, offset_from, seq_ok, as_i32.
  intros ?. case_ifs; intros; width.
Qed.

Lemma seq_ge_in_half s t : seq_ok t -> seq_ge t s = true -> in_half s t.
Proof.
  unfold seq_ge, distance, in_half, off, offset_from, seq_ok, as_i32.
  intros ?. case_ifs; intros; width.
Qed.

(** Inside a window of half the sequence space above any base, the serial
    comparisons and [min]/[max] are the order, minimum and maximum of the
    offsets, whatever the position of the 2^32 wrap. *)
Lemma serial_order_is_window_order base m n :
  seq_ok base -> 0 <= m < 2 ^ 31 -> 0 <= n < 2 ^ 31 ->
  let s := seq_add base m in let t := seq_add base n in
  seq_lt s t = (m <? n) /\ seq_le s t = (m <=? n) /\
  seq_gt s t = (n <? m) /\ seq_ge s t = (n <=? m) /\
  distance s t = m - n /\
  seq_min s t = seq_add base (Z.min m n) /\ seq_max s t = seq_add base (Z.max m n).
Proof.
  intros Hb Hm Hn s t.
  assert (Hs : in_half base s).
  { apply in_half_add; [by apply in_half_self|lia|]. rewrite off_self. lia. }
  assert (Ht : in_half base t).
  { apply in_half_add; [by apply in_half_self|lia|]. rewrite off_self. lia. }
  assert (Es : off base s = m) by (apply off_add_base; lia).
  assert (Et : off base t = n) by (apply off_add_base; lia).
  rewrite (lt_off base), (le_off base), (gt_off base), (ge_off base),
    (distance_off base), Es, Et by done.
  split_and!; try done; apply (off_inj base); try apply seq_add_ok.
  - by apply (in_half_min base).
  - rewrite off_min, off_add_base by (done || lia). lia.
  - by apply (in_half_max base).
  - rewrite off_max, off_add_base by (done || lia). lia.
Qed.

Lemma serial_order_is_window_order_witness :
  seq_ok 4294967290 /\ seq_lt (seq_add 4294967290 3) (seq_add 4294967290 10) = true.
Proof.
  assert (H : seq_ok 4294967290) by (unfold seq_ok, is_u32; lia).
  split; [exact H|].
  refine (eq_trans (proj1 (serial_order_is_window_order 4294967290 3 10 H _ _)) _);
    [lia|lia|reflexivity].
Defined.

(** Outside the half window the order is not antisymmetric: exactly at
    distance 2^31 both numbers precede each other. *)
Lemma serial_order_antipodal s :
  seq_ok s -> seq_lt s (seq_add s (2 ^ 31)) = true /\ seq_lt (seq_add s (2 ^ 31)) s = true.
Proof.
  unfold seq_lt, distance, seq_add, seq_ok, as_i32. intros ?.
  split; case_ifs; width.
Qed.
