(* ===== verification/Time.v ===== *)
(** The injected clock ([tcp-core/src/time.rs]) and the connection states
    ([tcp-core/src/state.rs]). *)

From S2P Require Import Prelude.

(** [Instant]: microseconds, a [u64]. *)
Definition Instant : Type := Z.
Definition instant_ok (t : Instant) : Prop := is_u64 t.

Definition ZERO : Instant := 0.
Definition from_micros (micros : Z) : Instant := micros.
Definition from_millis (millis : Z) : Instant := sat_mul64 millis 1000.
Definition micros (self : Instant) : Z := self.
Definition millis (self : Instant) : Z := self / 1000.
Definition saturating_micros_since (self earlier : Instant) : Z := sat_sub self earlier.
Definition plus_millis (self : Instant) (ms : Z) : Instant :=
  sat_add64 self (sat_mul64 ms 1000).
Definition plus_micros (self : Instant) (us : Z) : Instant := sat_add64 self us.

Lemma plus_micros_mono t us : instant_ok t -> 0 <= us -> t <= plus_micros t us.
Proof. unfold plus_micros, instant_ok. width. Qed.

Lemma plus_micros_ok t us : instant_ok t -> 0 <= us -> instant_ok (plus_micros t us).
Proof. unfold plus_micros, instant_ok. width. Qed.

Lemma plus_millis_ok t ms : instant_ok t -> 0 <= ms -> instant_ok (plus_millis t ms).
Proof. unfold plus_millis, instant_ok. width. Qed.

(** An interval measured after advancing the clock is the interval advanced
    by, as long as the [u64] clock did not saturate. *)
Lemma since_plus_micros t us :
  instant_ok t -> 0 <= us -> t + us <= U64_MAX ->
  saturating_micros_since (plus_micros t us) t = us.
Proof. unfold saturating_micros_since, plus_micros. width. Qed.

(** [State]: the eleven connection states. *)
Inductive State : Set :=
  | Closed | Listen | SynSent | SynReceived | Established | FinWait1
  | FinWait2 | CloseWait | Closing | LastAck | TimeWait.

#[export] Instance State_eq_dec : EqDecision State.
Proof. solve_decision. Defined.

(** The derived [PartialEq]. *)
Definition state_eqb (a b : State) : bool := bool_decide (a = b).
