(* ===== verification/Buffers.v ===== *)
(** The bounded byte ring used for both the send and the receive queue:
    [tcp-core/src/buffers.rs]. *)

From S2P Require Import Prelude.

Module RingBuffer.

Record RingBuffer := mkRing { buf : list Z; capacity : Z }.
#[export] Instance RingBuffer_settable : Settable RingBuffer :=
  fun r => mkRing (buf r) (capacity r).

Definition with_capacity (cap : Z) : RingBuffer := mkRing [] cap.
Definition len (self : RingBuffer) : Z := zlen (buf self).
Definition is_empty (self : RingBuffer) : bool := len self =? 0.
Definition free (self : RingBuffer) : Z := capacity self - len self.

(** Append up to [free()] bytes; the number accepted. *)
Definition write (self : RingBuffer) (data : list Z) : RingBuffer * Z :=
  let n := Z.min (zlen data) (free self) in
  (self <| buf := buf self ++ ztake n data |>, n).

(** Copy up to [dst_len] bytes starting [offset] bytes from the front, without
    removing them: the bytes copied (their number is the code's result).  The
    loop of the code copies while an index is below both bounds. *)
Fixpoint peek_loop (rest : list Z) (i dst_len : Z) : list Z :=
  match rest with
  | [] => []
  | byte :: rest' => if dst_len <=? i then [] else byte :: peek_loop rest' (i + 1) dst_len
  end.
Definition peek (self : RingBuffer) (offset dst_len : Z) : list Z :=
  peek_loop (zdrop offset (buf self)) 0 dst_len.

(** Remove up to [n] bytes from the front; the number removed. *)
Definition consume (self : RingBuffer) (n : Z) : RingBuffer * Z :=
  let n := Z.min n (len self) in
  (self <| buf := zdrop n (buf self) |>, n).

(** Pop up to [dst_len] bytes from the front: the bytes read. *)
Fixpoint pop_loop (q : list Z) (n : nat) {struct n} : option (list Z * list Z) :=
  match n with
  | O => Some ([], q)
  | S n' =>
      match q with
      | [] => None (* pop_front().unwrap() *)
      | byte :: q' => let? (out, q'') := pop_loop q' n' in Some (byte :: out, q'')
      end
  end.
Definition read (self : RingBuffer) (dst_len : Z) : option (RingBuffer * list Z) :=
  let n := Z.min dst_len (len self) in
  let? (out, rest) := pop_loop (buf self) (Z.to_nat n) in
  Some (self <| buf := rest |>, out).

(** The capacity bound: it makes [free] a [usize] (no underflow). *)
Definition wf (self : RingBuffer) : Prop := len self <= capacity self.

(** *** Functional behaviour *)

Lemma peek_loop_spec rest i n : peek_loop rest i n = ztake (n - i) rest.
Proof.
  revert i; induction rest as [|b rest IH]; intros i; cbn.
  { by unfold ztake; rewrite take_nil. }
  destruct (n <=? i) eqn:?; [by rewrite ztake_0 by lia|].
  rewrite IH. unfold ztake.
  replace (Z.to_nat (n - i)) with (S (Z.to_nat (n - (i + 1)))) by lia. done.
Qed.

Lemma peek_spec self offset n :
  peek self offset n = ztake n (zdrop offset (buf self)).
Proof. unfold peek. rewrite peek_loop_spec. f_equal. lia. Qed.

Lemma pop_loop_spec q n :
  (n <= length q)%nat -> pop_loop q n = Some (take n q, drop n q).
Proof.
  revert q; induction n as [|n IH]; intros q Hn; cbn; [done|].
  destruct q as [|b q]; cbn in *; [lia|]. by rewrite IH by lia.
Qed.

(** [read] never panics: the number popped is bounded by the length. *)
Lemma read_spec self n :
  read self n = Some (self <| buf := zdrop (Z.min n (len self)) (buf self) |>,
                      ztake n (buf self)).
Proof.
  unfold read, len. rewrite pop_loop_spec by (unfold zlen; lia). cbn.
  do 2 f_equal. unfold ztake, zlen.
  destruct (Z.le_gt_cases n (Z.of_nat (length (buf self)))).
  - f_equal. lia.
  - rewrite !take_ge by lia. done.
Qed.

Lemma write_n_bounds self data n r :
  wf self -> write self data = (r, n) -> 0 <= n <= zlen data /\ n <= free self.
Proof.
  unfold wf, write, free. intros ? [= <- <-]. pose proof (zlen_nonneg data). lia.
Qed.

Lemma write_wf self data : wf self -> wf (fst (write self data)).
Proof.
  unfold wf, write, len, free. cbn. intros.
  rewrite zlen_app, zlen_ztake. pose proof (zlen_nonneg data).
  unfold len in *. lia.
Qed.

Lemma consume_wf self n : 0 <= n -> wf self -> wf (fst (consume self n)).
Proof.
  unfold wf, consume, len. cbn. intros. rewrite zlen_zdrop.
  pose proof (zlen_nonneg (buf self)). lia.
Qed.

(** *** Refinement: a window of one byte stream

    The abstract queue is the stream of all bytes ever accepted and the number
    of bytes taken off its front; the ring holds exactly what lies between. *)

Record Stream := mkStream { accepted : list Z; taken : Z }.

Inductive Op :=
  | OWrite (data : list Z) | OConsume (n : Z) | ORead (n : Z) | OPeek (offset n : Z).

(** What an operation returns to its caller. *)
Inductive Out := ONum (n : Z) | OBytes (bs : list Z).

Definition op_ok (o : Op) : Prop :=
  match o with
  | OWrite _ => True
  | OConsume n | ORead n => 0 <= n
  | OPeek offset n => 0 <= offset /\ 0 <= n
  end.

Definition step (self : RingBuffer) (o : Op) : option (RingBuffer * Out) :=
  match o with
  | OWrite data => let (r, n) := write self data in Some (r, ONum n)
  | OConsume n => let (r, k) := consume self n in Some (r, ONum k)
  | ORead n => let? (r, bs) := read self n in Some (r, OBytes bs)
  | OPeek offset n => Some (self, OBytes (peek self offset n))
  end.

Definition spec_step (cap : Z) (s : Stream) (o : Op) : Stream * Out :=
  let queued := zlen (accepted s) - taken s in
  match o with
  | OWrite data =>
      let n := Z.min (zlen data) (cap - queued) in
      (mkStream (accepted s ++ ztake n data) (taken s), ONum n)
  | OConsume n =>
      let n := Z.min n queued in (mkStream (accepted s) (taken s + n), ONum n)
  | ORead n =>
      let k := Z.min n queued in
      (mkStream (accepted s) (taken s + k),
       OBytes (ztake k (zdrop (taken s) (accepted s))))
  | OPeek offset n => (s, OBytes (ztake n (zdrop (taken s + offset) (accepted s))))
  end.

Definition refines (cap : Z) (self : RingBuffer) (s : Stream) : Prop :=
  capacity self = cap /\ 0 <= taken s <= zlen (accepted s) /\
  buf self = zdrop (taken s) (accepted s) /\ zlen (accepted s) - taken s <= cap.

Lemma step_refines cap self s o :
  op_ok o -> refines cap self s ->
  exists self' out,
    step self o = Some (self', out) /\ out = snd (spec_step cap s o) /\
    refines cap self' (fst (spec_step cap s o)).
Proof.
  intros Hok (Hcap & Ht & Hbuf & Hle). unfold refines in *.
  assert (Hlen : len self = zlen (accepted s) - taken s)
    by (unfold len; rewrite Hbuf, zlen_zdrop; lia).
  destruct o as [data|n|n|offset n]; cbn in Hok |- *.
  - pose proof (zlen_nonneg data).
    do 2 eexists. split_and!; [done|..]; cbn; unfold free; rewrite ?Hlen, ?Hcap;
      rewrite ?zlen_app, ?zlen_ztake; try done; try lia.
    by rewrite Hbuf, zdrop_app_le by lia.
  - do 2 eexists. split_and!; [done|..]; cbn; rewrite ?Hlen; try done; try lia.
    rewrite Hbuf, zdrop_zdrop by lia. f_equal. lia.
  - rewrite read_spec. do 2 eexists. split_and!; [done|..]; cbn; rewrite ?Hlen; try done; try lia.
    + f_equal. rewrite Hbuf. destruct (Z.le_gt_cases n (zlen (accepted s) - taken s)).
      * f_equal. lia.
      * rewrite !ztake_all; [done|..]; rewrite zlen_zdrop; lia.
    + rewrite Hbuf, zdrop_zdrop by lia. f_equal. lia.
  - do 2 eexists. split_and!; [done|..]; cbn; try done; try lia.
    rewrite peek_spec, Hbuf, zdrop_zdrop by lia. do 3 f_equal. lia.
Qed.

(** Run a list of operations, collecting the outputs. *)
Fixpoint run (self : RingBuffer) (os : list Op) : option (RingBuffer * list Out) :=
  match os with
  | [] => Some (self, [])
  | o :: os =>
      let? (self, out) := step self o in
      let? (self, outs) := run self os in Some (self, out :: outs)
  end.
Fixpoint spec_run (cap : Z) (s : Stream) (os : list Op) : Stream * list Out :=
  match os with
  | [] => (s, [])
  | o :: os =>
      let (s, out) := spec_step cap s o in
      let (s, outs) := spec_run cap s os in (s, out :: outs)
  end.

(** C30 — refinement.  From a fresh ring, every sequence of writes, reads, peeks
    and consumes runs without a panic, returns exactly what the abstract byte
    stream returns (bytes are never lost, reordered or duplicated), and never
    holds more than its capacity. *)
Theorem ring_refines_stream cap os :
  0 <= cap -> Forall op_ok os ->
  exists self,
    run (with_capacity cap) os = Some (self, snd (spec_run cap (mkStream [] 0) os)) /\
    buf self = zdrop (taken (fst (spec_run cap (mkStream [] 0) os)))
                     (accepted (fst (spec_run cap (mkStream [] 0) os))) /\
    len self <= cap.
Proof.
  intros Hcap Hos.
  assert (G : forall self s, refines cap self s ->
    exists self', run self os = Some (self', snd (spec_run cap s os)) /\
      refines cap self' (fst (spec_run cap s os))).
  { clear Hcap. induction Hos as [|o os Ho Hos IH]; intros self s Hr; cbn.
    { eexists. split; done. }
    destruct (step_refines cap self s o Ho Hr) as (self1 & out & -> & -> & Hr1).
    destruct (spec_step cap s o) as [s1 o1]; cbn in *.
    destruct (IH _ _ Hr1) as (self2 & -> & Hr2).
    destruct (spec_run cap s1 os); cbn in *. by eexists. }
  destruct (G (with_capacity cap) (mkStream [] 0)) as (self & Hrun & _ & Ht & Hbuf & Hle).
  { unfold refines; cbn. split_and!; done || lia. }
  exists self. split_and!; [done..|]. unfold len. rewrite Hbuf, zlen_zdrop. lia.
Qed.

Lemma ring_refines_stream_witness :
  exists self,
    run (with_capacity 4) [OWrite [1; 2; 3; 4; 5]; OConsume 2; OWrite [6; 7; 8]; ORead 3]
      = Some (self, [ONum 4; ONum 2; ONum 2; OBytes [3; 4; 6]]) /\ buf self = [7].
Proof.
  destruct (ring_refines_stream 4
    [OWrite [1; 2; 3; 4; 5]; OConsume 2; OWrite [6; 7; 8]; ORead 3]) as (self & H1 & H2 & _).
  - lia.
  - repeat constructor; cbn; lia.
  - exists self. split; [exact H1|exact H2].
Defined.

End RingBuffer.
