(* ===== verification/Rtt.v ===== *)
(** The RFC 6298 retransmission-timeout estimator: [tcp-core/src/rtt.rs].

    All values are microseconds in a [u32].  Every unchecked [+] and [*] of the
    code goes through [checked_u32], so a run that returns [Some] is one where
    no operation overflowed. *)

From S2P Require Import Prelude.

Definition INITIAL_RTO : Z := 1000000.
Definition MIN_RTO : Z := 200000.
Definition MAX_RTO : Z := 60000000.
Definition CLOCK_GRANULARITY : Z := 1000.
Definition K : Z := 4.
Definition REBOOTSTRAP_AFTER : Z := 3.

Record RttEstimator := mkRtt {
  srtt : Z;
  rttvar : Z;
  base_rto : Z;
  rto : Z;
  have_measurement : bool;
  consecutive_timeouts : Z;
}.
#[export] Instance RttEstimator_settable : Settable RttEstimator := fun r =>
  mkRtt (srtt r) (rttvar r) (base_rto r) (rto r) (have_measurement r)
    (consecutive_timeouts r).

Definition rtt_new : RttEstimator := mkRtt 0 0 INITIAL_RTO INITIAL_RTO false 0.

Definition rto_micros (self : RttEstimator) : Z := rto self.
Definition srtt_micros (self : RttEstimator) : option Z :=
  if have_measurement self then Some (srtt self) else None.

Definition clamp (x lo hi : Z) : Z := Z.min (Z.max x lo) hi.

(** [on_sample]: a fresh measurement [r] of a segment never retransmitted. *)
Definition on_sample (self : RttEstimator) (r : Z) : option RttEstimator :=
  let r := Z.min r MAX_RTO in
  let? self :=
    if negb (have_measurement self) then
      Some (self <| srtt := r |> <| rttvar := r / 2 |> <| have_measurement := true |>)
    else
      let delta := Z.abs (srtt self - r) in
      let? v := checked_u32 (3 * rttvar self + delta) in
      let self := self <| rttvar := div_ceil v 4 |> in
      let? s := checked_u32 (7 * srtt self + r) in
      Some (self <| srtt := div_ceil s 8 |>) in
  let? kv := checked_u32 (K * rttvar self) in
  let margin := Z.max kv CLOCK_GRANULARITY in
  let self := self <| base_rto := clamp (sat_add32 (srtt self) margin) MIN_RTO MAX_RTO |> in
  let self := self <| rto := base_rto self |> in
  Some (self <| consecutive_timeouts := 0 |>).

(** [on_clean_ack]: an ACK of never-retransmitted data clears the backoff. *)
Definition on_clean_ack (self : RttEstimator) : RttEstimator :=
  self <| rto := base_rto self |> <| consecutive_timeouts := 0 |>.

(** [on_timeout]: the retransmission timer fired. *)
Definition on_timeout (self : RttEstimator) : option RttEstimator :=
  let? doubled := checked_u32 (rto self * 2) in
  let self := self <| rto := Z.min doubled MAX_RTO |> in
  let? n := checked_u32 (consecutive_timeouts self + 1) in
  let self := self <| consecutive_timeouts := n |> in
  if REBOOTSTRAP_AFTER <=? consecutive_timeouts self
  then Some (self <| have_measurement := false |>) else Some self.

(** ** Invariant *)

Record wf (self : RttEstimator) : Prop := {
  wf_srtt : 0 <= srtt self <= MAX_RTO;
  wf_rttvar : 0 <= rttvar self <= MAX_RTO;
  wf_base : MIN_RTO <= base_rto self <= MAX_RTO;
  wf_rto : base_rto self <= rto self <= MAX_RTO;
  wf_count : 0 <= consecutive_timeouts self;
}.

Ltac rtt_consts :=
  unfold INITIAL_RTO, MIN_RTO, MAX_RTO, CLOCK_GRANULARITY, K, REBOOTSTRAP_AFTER,
    clamp, div_ceil in *.

Lemma rtt_new_wf : wf rtt_new.
Proof. split; cbn; rtt_consts; lia. Qed.

Lemma checked_u32_Some z : 0 <= z <= U32_MAX -> checked_u32 z = Some z.
Proof. unfold checked_u32. intros. case_ifs; [done|lia]. Qed.

Lemma checked_u32_inv z z' : checked_u32 z = Some z' -> z' = z /\ 0 <= z <= U32_MAX.
Proof. unfold checked_u32. case_ifs; intros; simplify_eq. lia. Qed.

(** One smoothing step stays between the old estimate and the sample. *)
Lemma ewma_between s r n :
  0 < n -> Z.min s r <= div_ceil ((n - 1) * s + r) n <= Z.max s r.
Proof.
  intros Hn. unfold div_ceil. split.
  - apply Z.div_le_lower_bound; nia.
  - apply Z.lt_succ_r, Z.div_lt_upper_bound; nia.
Qed.

Lemma on_sample_spec self r :
  wf self -> 0 <= r ->
  exists self', on_sample self r = Some self' /\ wf self' /\
    have_measurement self' = true /\ rto self' = base_rto self' /\
    consecutive_timeouts self' = 0 /\
    srtt self' = (if have_measurement self
                  then div_ceil (7 * srtt self + Z.min r MAX_RTO) 8 else Z.min r MAX_RTO) /\
    rttvar self' = (if have_measurement self
                    then div_ceil (3 * rttvar self + Z.abs (srtt self - Z.min r MAX_RTO)) 4
                    else Z.min r MAX_RTO / 2) /\
    base_rto self' =
      clamp (srtt self' + Z.max (K * rttvar self') CLOCK_GRANULARITY) MIN_RTO MAX_RTO.
Proof.
  intros [Hs Hv Hb Hr Hc] Hr0. unfold on_sample.
  set (r' := Z.min r MAX_RTO). assert (Hr' : 0 <= r' <= MAX_RTO) by (rtt_consts; lia).
  pose proof (ewma_between (srtt self) r' 8 ltac:(lia)) as Es.
  pose proof (ewma_between (rttvar self) (Z.abs (srtt self - r')) 4 ltac:(lia)) as Ev.
  assert (Hhalf : 0 <= r' / 2 <= MAX_RTO) by (rtt_consts; zmod).
  change (8 - 1) with 7 in Es. change (4 - 1) with 3 in Ev.
  destruct (have_measurement self) eqn:Hm; cbn.
  - rewrite !checked_u32_Some; cbn; rewrite ?checked_u32_Some; cbn; [|rtt_consts; lia..].
    eexists; split; [done|]. unfold sat_add32.
    split; [split; cbn; rtt_consts; lia|]. split_and!; cbn; rewrite ?Hm; try done.
    rtt_consts; lia.
  - rewrite checked_u32_Some by (rtt_consts; lia). cbn.
    eexists; split; [done|]. unfold sat_add32.
    split; [split; cbn; rtt_consts; lia|]. split_and!; cbn; rewrite ?Hm; try done.
    rtt_consts; lia.
Qed.

Lemma on_clean_ack_wf self : wf self -> wf (on_clean_ack self).
Proof. intros []. split; cbn; lia. Qed.

Lemma on_timeout_spec self :
  wf self -> consecutive_timeouts self < U32_MAX ->
  exists self', on_timeout self = Some self' /\ wf self' /\
    rto self' = Z.min (rto self * 2) MAX_RTO /\ base_rto self' = base_rto self /\
    consecutive_timeouts self' = consecutive_timeouts self + 1 /\
    have_measurement self' =
      have_measurement self && (consecutive_timeouts self + 1 <? REBOOTSTRAP_AFTER).
Proof.
  intros [Hs Hv Hb Hr Hc] Hlt. unfold on_timeout.
  rewrite checked_u32_Some by (rtt_consts; lia). cbn.
  rewrite checked_u32_Some by lia. cbn.
  case_ifs; (eexists; split; [done|]);
    (split; [split; cbn; rtt_consts; lia|]); split_and!; cbn; try done;
    destruct (have_measurement self); cbn; lia.
Qed.

(** ** Reachable estimators *)

Inductive Event := Sample (r : Z) | CleanAck | Timeout.

Definition event_ok (e : Event) : Prop :=
  match e with Sample r => is_u32 r | _ => True end.

Definition step (self : RttEstimator) (e : Event) : option RttEstimator :=
  match e with
  | Sample r => on_sample self r
  | CleanAck => Some (on_clean_ack self)
  | Timeout => on_timeout self
  end.

Fixpoint run (self : RttEstimator) (es : list Event) : option RttEstimator :=
  match es with
  | [] => Some self
  | e :: es => let? self := step self e in run self es
  end.

(** C31 — bounds.  Whatever the measurements (including pathological ones) and
    however they interleave with timeouts and clean ACKs, the estimator never
    overflows a [u32] (for any run shorter than 2^32 events) and its timeout
    stays within [200 ms, 60 s] and never below the un-backed-off value. *)
Theorem rto_always_in_range es :
  Forall event_ok es -> zlen es <= U32_MAX ->
  exists self, run rtt_new es = Some self /\
    MIN_RTO <= rto_micros self <= MAX_RTO /\ base_rto self <= rto_micros self.
Proof.
  intros Hes Hlen.
  assert (G : forall self, wf self -> consecutive_timeouts self + zlen es <= U32_MAX ->
    exists self', run self es = Some self' /\ wf self').
  { clear Hlen. induction Hes as [|e es He Hes IH]; intros self Hwf Hn; [by eexists|].
    cbn. pose proof (zlen_nonneg es). rewrite zlen_cons in Hn. destruct e as [r| |]; cbn.
    - destruct (on_sample_spec self r Hwf) as (s' & -> & Hwf' & _ & _ & Hc & _).
      { destruct He; lia. }
      apply IH; [done|]. pose proof (wf_count _ Hwf). lia.
    - apply IH; [by apply on_clean_ack_wf|]. pose proof (wf_count _ Hwf). cbn. lia.
    - destruct (on_timeout_spec self Hwf) as (s' & -> & Hwf' & _ & _ & Hc & _); [lia|].
      apply IH; [done|]. lia. }
  destruct (G rtt_new rtt_new_wf) as (self & -> & [? ? Hb Hr ?]); [cbn; lia|].
  exists self. unfold rto_micros. split; [done|]. lia.
Qed.

Lemma rto_always_in_range_witness :
  exists self, run rtt_new [Sample 300; Timeout; Sample 4294967295; Timeout; CleanAck] = Some self /\
    rto_micros self = MAX_RTO.
Proof.
  destruct (rto_always_in_range [Sample 300; Timeout; Sample 4294967295; Timeout; CleanAck])
    as (self & H & _).
  - repeat constructor; cbn; lia.
  - vm_compute; discriminate.
  - exists self. split; [exact H|]. vm_compute in H. injection H as <-. reflexivity.
Defined.

Lemma run_timeouts self k :
  wf self -> rto self = base_rto self -> consecutive_timeouts self = 0 ->
  Z.of_nat k <= U32_MAX ->
  exists self', run self (replicate k Timeout) = Some self' /\ wf self' /\
    rto self' = Z.min (2 ^ Z.of_nat k * base_rto self) MAX_RTO /\
    base_rto self' = base_rto self /\ consecutive_timeouts self' = Z.of_nat k /\
    have_measurement self' = have_measurement self && (Z.of_nat k <? REBOOTSTRAP_AFTER).
Proof.
  intros Hwf Hrto Hc. induction k as [|k IH]; intros Hk.
  { exists self. split_and!; try done.
    - destruct Hwf. cbn. lia.
    - destruct (have_measurement self); done. }
  destruct IH as (s' & Hrun & Hwf' & Hr & Hb & Hn & Hm); [lia|].
  replace (replicate (S k) Timeout) with (replicate k Timeout ++ [Timeout])
    by (rewrite <- replicate_S_end; done).
  assert (Happ : forall es e s, run s (es ++ [e]) = let? s := run s es in step s e).
  { induction es as [|e' es IHes]; intros e s; cbn; [by destruct (step s e)|].
    destruct (step s e'); [apply IHes|done]. }
  rewrite Happ, Hrun. cbn [step].
  destruct (on_timeout_spec s' Hwf') as (s2 & -> & Hwf2 & Hr2 & Hb2 & Hn2 & Hm2); [lia|].
  exists s2. split_and!; try done; try (congruence || lia).
  - rewrite Hr2, Hr, Nat2Z.inj_succ, Z.pow_succ_r by lia. rtt_consts. lia.
  - rewrite Hm2, Hm, Hn, <- andb_assoc. f_equal. unfold REBOOTSTRAP_AFTER. rewrite Nat2Z.inj_succ, <- Z.add_1_r. lia.
Qed.

(** Karn's backoff and its reset: after a measurement, [k]
    timeouts in a row leave the timeout at [min(2^k * base, 60 s)], the
    measurement is discarded exactly from the third timeout on, and the next
    clean ACK restores the base value. *)
Lemma backoff_doubles_and_clears self r k :
  wf self -> is_u32 r -> Z.of_nat k <= U32_MAX ->
  exists s1 s2, on_sample self r = Some s1 /\
    run s1 (replicate k Timeout) = Some s2 /\
    rto_micros s2 = Z.min (2 ^ Z.of_nat k * base_rto s1) MAX_RTO /\
    (srtt_micros s2 = None <-> REBOOTSTRAP_AFTER <= Z.of_nat k) /\
    rto_micros (on_clean_ack s2) = base_rto s1.
Proof.
  intros Hwf Hr Hk.
  destruct (on_sample_spec self r Hwf) as (s1 & Hs1 & Hwf1 & Hm & Hrto & Hc & _).
  { destruct Hr; lia. }
  destruct (run_timeouts s1 k Hwf1 Hrto Hc Hk) as (s2 & Hs2 & _ & Hr2 & Hb2 & _ & Hm2).
  exists s1, s2. unfold rto_micros, srtt_micros. split_and!; try done.
  rewrite Hm2, Hm. cbn. case_ifs; split; intros; done || lia.
Qed.

Lemma backoff_doubles_and_clears_witness :
  exists s1 s2, on_sample rtt_new 40000 = Some s1 /\
    run s1 (replicate 4 Timeout) = Some s2 /\
    rto_micros s2 = 16 * MIN_RTO /\ srtt_micros s2 = None.
Proof.
  destruct (backoff_doubles_and_clears rtt_new 40000 4) as (s1 & s2 & H1 & H2 & H3 & H4 & _).
  - apply rtt_new_wf.
  - unfold is_u32; lia.
  - lia.
  - exists s1, s2. split; [exact H1|]. split; [exact H2|].
    split; [|apply H4; unfold REBOOTSTRAP_AFTER; lia].
    rewrite H3. vm_compute in H1. injection H1 as <-. reflexivity.
Defined.
