(* ===== verification/Isn.v ===== *)
(** Initial sequence numbers (RFC 6528): SipHash-2-4 and the keyed generator
    of [tcp-core/src/isn.rs]. *)

From S2P Require Import Prelude Seq Time.

(** [u64::rotate_left]. *)
Definition rotl64 (x n : Z) : Z :=
  Z.lor (wrap64 (Z.shiftl x n)) (Z.shiftr x (64 - n)).

(** The four working words, and the [round!] macro. *)
Record Sip := mkSip { v0 : Z; v1 : Z; v2 : Z; v3 : Z }.

Definition sip_round (s : Sip) : Sip :=
  let '(mkSip v0 v1 v2 v3) := s in
  let v0 := wrap64 (v0 + v1) in
  let v1 := rotl64 v1 13 in
  let v1 := Z.lxor v1 v0 in
  let v0 := rotl64 v0 32 in
  let v2 := wrap64 (v2 + v3) in
  let v3 := rotl64 v3 16 in
  let v3 := Z.lxor v3 v2 in
  let v0 := wrap64 (v0 + v3) in
  let v3 := rotl64 v3 21 in
  let v3 := Z.lxor v3 v0 in
  let v2 := wrap64 (v2 + v1) in
  let v1 := rotl64 v1 17 in
  let v1 := Z.lxor v1 v2 in
  let v2 := rotl64 v2 32 in
  mkSip v0 v1 v2 v3.

(** [u64::from_le_bytes] *)
Fixpoint le_bytes (bs : list Z) : Z :=
  match bs with [] => 0 | b :: bs => b + 256 * le_bytes bs end.

(** The absorption of one 64-bit word. *)
Definition sip_absorb (s : Sip) (m : Z) : Sip :=
  let s := mkSip (v0 s) (v1 s) (v2 s) (Z.lxor (v3 s) m) in
  let s := sip_round (sip_round s) in
  mkSip (Z.lxor (v0 s) m) (v1 s) (v2 s) (v3 s).

(** [data.chunks_exact(8)]: absorb every full chunk, return the remainder. *)
Fixpoint sip_chunks (s : Sip) (data : list Z) : Sip * list Z :=
  match data with
  | b0 :: b1 :: b2 :: b3 :: b4 :: b5 :: b6 :: b7 :: rest =>
      sip_chunks (sip_absorb s (le_bytes [b0; b1; b2; b3; b4; b5; b6; b7])) rest
  | rest => (s, rest)
  end.

(** The final block: the remainder with the total length in the top byte. *)
Fixpoint sip_tail (b i : Z) (rest : list Z) : Z :=
  match rest with
  | [] => b
  | byte :: rest => sip_tail (Z.lor b (wrap64 (Z.shiftl byte (8 * i)))) (i + 1) rest
  end.

Definition siphash24 (k0 k1 : Z) (data : list Z) : Z :=
  let s := mkSip (Z.lxor k0 0x736f6d6570736575) (Z.lxor k1 0x646f72616e646f6d)
                 (Z.lxor k0 0x6c7967656e657261) (Z.lxor k1 0x7465646279746573) in
  let (s, rest) := sip_chunks s data in
  let b := sip_tail (wrap64 (Z.shiftl (zlen data) 56)) 0 rest in
  let s := sip_absorb s b in
  let s := mkSip (v0 s) (v1 s) (Z.lxor (v2 s) 0xff) (v3 s) in
  let s := sip_round (sip_round (sip_round (sip_round s))) in
  Z.lxor (Z.lxor (Z.lxor (v0 s) (v1 s)) (v2 s)) (v3 s).

Record IsnGenerator := mkIsn { k0 : Z; k1 : Z }.

(** [IsnGenerator::new]: the secret is a [[u8; 16]]; the slices panic on any
    shorter list. *)
Definition isn_new (secret : list Z) : option IsnGenerator :=
  let? lo := slice secret 0 8 in
  let? hi := slice secret 8 16 in
  Some (mkIsn (le_bytes lo) (le_bytes hi)).

Definition generate (self : IsnGenerator) (local_ip : Ipv4Addr) (local_port : Z)
    (remote_ip : Ipv4Addr) (remote_port : Z) (now_micros : Z) : SeqNumber :=
  let tuple := octets local_ip ++ octets remote_ip ++ to_be16 local_port ++ to_be16 remote_port in
  let f := wrap32 (siphash24 (k0 self) (k1 self) tuple) in
  let m := wrap32 (now_micros / 4) in
  wrap32 (m + f).

(** The reference key 00..0f of the SipHash paper (appendix A): the hash of
    the empty input and of 00, and the published 15-byte vector. *)
Definition ref_k0 : Z := 0x0706050403020100.
Definition ref_k1 : Z := 0x0f0e0d0c0b0a0908.

Lemma siphash24_vectors :
  siphash24 ref_k0 ref_k1 [] = 0x726fdb47dd0e0e31 /\
  siphash24 ref_k0 ref_k1 [0] = 0x74f839c593dc67fd /\
  siphash24 ref_k0 ref_k1 [0; 1; 2; 3; 4; 5; 6; 7] = 0x93f5f5799a932462 /\
  siphash24 ref_k0 ref_k1 (map Z.of_nat (seq 0 15)) = 0xa129ca6149be45e5.
Proof. vm_compute. done. Qed.

(** The ISN of a 4-tuple advances by one every 4 us of the
    clock, modulo 2^32, whatever the key: reopening the same 4-tuple [4 d]
    microseconds later starts [d] further on, so a reused 4-tuple gets the
    same number again only after a multiple of 2^32 clock ticks. *)
Lemma isn_advances_with_clock g lip lport rip rport now d :
  0 <= now -> 0 <= d ->
  seq_ok (generate g lip lport rip rport now) /\
  generate g lip lport rip rport (now + 4 * d)
    = seq_add (generate g lip lport rip rport now) d /\
  (generate g lip lport rip rport (now + 4 * d) = generate g lip lport rip rport now
    <-> d mod 2 ^ 32 = 0).
Proof.
  intros Hn Hd. unfold generate.
  set (f := wrap32 (siphash24 _ _ _)).
  replace ((now + 4 * d) / 4) with (now / 4 + d) by (rewrite Z.mul_comm, Z.div_add; lia).
  generalize (now / 4) as m. intros m. split; [apply wrap32_range|].
  assert (E : wrap32 (wrap32 (m + d) + f) = seq_add (wrap32 (wrap32 m + f)) d).
  { clearbody f. unfold seq_add, wrap32. rewrite !Zplus_mod_idemp_l, <- (Z.add_assoc _ f d), Zplus_mod_idemp_l. f_equal. lia. }
  split; [exact E|]. rewrite E. unfold seq_add.
  generalize (wrap32_range (wrap32 m + f)). generalize (wrap32 (wrap32 m + f)).
  clear. intros x. unfold is_u32, wrap32. intros ?. split; intros; zmod.
Qed.

Lemma isn_advances_with_clock_witness :
  generate (mkIsn ref_k0 ref_k1) (ipv4 10 0 0 2) 8080 (ipv4 10 0 0 1) 40000 4000
  = seq_add (generate (mkIsn ref_k0 ref_k1) (ipv4 10 0 0 2) 8080 (ipv4 10 0 0 1) 40000 0) 1000.
Proof.
  refine (proj1 (proj2 (isn_advances_with_clock _ _ _ _ _ 0 1000 _ _))); lia.
Defined.
