(* ===== verification/Checksum.v ===== *)
(** The Internet checksum (RFC 1071): [tcp-core/src/wire/checksum.rs].

    [accumulate] is the code's wide sum (two 32-bit words per 8-byte chunk in
    a 64-bit accumulator, folded back below 2^32).  The reference is the plain
    sum of 16-bit words [wsum] with the one's-complement normal form [oc_norm];
    [fold_accumulate] is the equivalence. *)

From S2P Require Import Prelude.

Definition IPPROTO_ICMP : Z := 1.
Definition IPPROTO_TCP : Z := 6.

(** The 8-byte loop of [accumulate]: the sum and the unread remainder. *)
Fixpoint sum_octets (sum : Z) (data : list Z) : Z * list Z :=
  match data with
  | o0 :: o1 :: o2 :: o3 :: o4 :: o5 :: o6 :: o7 :: rest =>
      let sum := sum + be32 o0 o1 o2 o3 in
      let sum := sum + be32 o4 o5 o6 o7 in
      sum_octets sum rest
  | rest => (sum, rest)
  end.

(** The 2-byte loop over the tail, and the trailing odd byte (high byte). *)
Fixpoint sum_pairs (sum : Z) (data : list Z) : Z :=
  match data with
  | a :: b :: rest => sum_pairs (sum + be16 a b) rest
  | [last] => sum + Z.shiftl last 8
  | [] => sum
  end.

(** [while acc >> w != 0 { acc = (acc & mask) + (acc >> w) }].  The loop makes
    at most two passes on a [u32] ([w = 16]) or a [u64] ([w = 32]); the fuel
    given below is proved enough ([fold_exits], [fold64_exits]). *)
Fixpoint fold_loop (fuel : nat) (w acc : Z) : Z :=
  match fuel with
  | O => acc
  | S fuel =>
      if Z.shiftr acc w =? 0 then acc
      else fold_loop fuel w (Z.land acc (Z.ones w) + Z.shiftr acc w)
  end.

Definition accumulate (acc : Z) (data : list Z) : Z :=
  let (sum, rest) := sum_octets acc data in
  let sum := sum_pairs sum rest in
  wrap32 (fold_loop 4 32 sum).

Definition fold (acc : Z) : Z := wrap16 (fold_loop 4 16 acc).

(** [!x] on a [u16]. *)
Definition not16 (x : Z) : Z := U16_MAX - x.

Definition checksum (data : list Z) : Z := not16 (fold (accumulate 0 data)).

Definition pseudo_header (src dst : Ipv4Addr) (protocol l4_len : Z) : Z :=
  let acc := 0 in
  let acc := accumulate acc (octets src) in
  let acc := accumulate acc (octets dst) in
  accumulate acc [0; protocol; Z.shiftr l4_len 8; wrap8 l4_len].

Definition tcp_checksum (src dst : Ipv4Addr) (segment : list Z) : Z :=
  let acc := pseudo_header src dst IPPROTO_TCP (wrap16 (zlen segment)) in
  not16 (fold (accumulate acc segment)).

Definition tcp_checksum_valid (src dst : Ipv4Addr) (segment : list Z) : bool :=
  let acc := pseudo_header src dst IPPROTO_TCP (wrap16 (zlen segment)) in
  fold (accumulate acc segment) =? U16_MAX.

(** ** The reference: 16-bit words and one's-complement normal form *)

Fixpoint wsum (data : list Z) : Z :=
  match data with
  | a :: b :: rest => be16 a b + wsum rest
  | [last] => be16 last 0
  | [] => 0
  end.

Definition oc_norm (s : Z) : Z := if s =? 0 then 0 else (s - 1) mod U16_MAX + 1.

(** Induction two (eight) bytes at a time. *)
Lemma pair_ind (P : list Z -> Prop) :
  P [] -> (forall a, P [a]) -> (forall a b l, P l -> P (a :: b :: l)) -> forall l, P l.
Proof.
  intros H0 H1 H2 l. enough (P l /\ forall a, P (a :: l)) as [? _] by done.
  induction l as [|b l [IH1 IH2]]; [by auto|]. split; [apply IH2|]. intros a. by apply H2.
Qed.

Lemma octet_ind (P : list Z -> Prop) :
  (forall l, (length l < 8)%nat -> P l) ->
  (forall a b c d e f g h l, P l -> P (a :: b :: c :: d :: e :: f :: g :: h :: l)) ->
  forall l, P l.
Proof.
  intros Hs Hc l. remember (length l) as n eqn:Hn. revert l Hn.
  induction (lt_wf n) as [n _ IH]. intros l ->.
  destruct l as [|a [|b [|c [|d [|e [|f [|g [|h l]]]]]]]];
    try (apply Hs; cbn; lia).
  apply Hc. apply (IH (length l)); [cbn; lia|done].
Qed.

Lemma wsum_nonneg l : bytes_ok l -> 0 <= wsum l.
Proof.
  induction l as [|a|a b l IH] using pair_ind; intros H; cbn.
  - lia.
  - apply Forall_cons_1 in H as [? _]. unfold be16, is_u8 in *. lia.
  - apply Forall_cons_1 in H as [? H]. apply Forall_cons_1 in H as [? H].
    specialize (IH H). unfold be16, is_u8 in *. lia.
Qed.

Lemma wsum_app l d : Z.even (zlen l) = true -> wsum (l ++ d) = wsum l + wsum d.
Proof.
  induction l as [|a|a b l IH] using pair_ind; intros H.
  - done.
  - done.
  - cbn [app wsum]. rewrite IH; [lia|]. rewrite <- H, !zlen_cons.
    replace (1 + (1 + zlen l)) with (zlen l + 2 * 1) by lia.
    by rewrite Z.even_add_mul_2.
Qed.

Lemma sum_pairs_wsum sum l : sum_pairs sum l = sum + wsum l.
Proof.
  revert sum; induction l as [|a|a b l IH] using pair_ind; intros sum; cbn [sum_pairs wsum].
  - lia.
  - unfold be16. rewrite Z.shiftl_mul_pow2 by lia. lia.
  - rewrite IH. lia.
Qed.

(** The wide sum differs from the sum of words by a multiple of 2^16 - 1, and
    is zero exactly when all words are. *)
Lemma sum_octets_wsum sum l :
  bytes_ok l -> 0 <= sum ->
  let (s, rest) := sum_octets sum l in
  let t := sum_pairs s rest in
  exists q, t = sum + wsum l + U16_MAX * q /\ 0 <= q /\ (sum + wsum l = 0 -> t = 0) /\
    t <= sum + 2 ^ 32 * zlen l.
Proof.
  revert sum. induction l as [l Hl|a b c d e f g h l IH] using octet_ind; intros sum Hok Hsum.
  - assert (E : sum_octets sum l = (sum, l)).
    { destruct l as [|? [|? [|? [|? [|? [|? [|? [|? ?]]]]]]]]; cbn in *; done || lia. }
    rewrite E, sum_pairs_wsum. exists 0. split_and!; try lia.
    clear E Hl. enough (wsum l <= 2 ^ 32 * zlen l) by lia.
    clear Hsum sum. induction l as [|a|a b l IH] using pair_ind; cbn [wsum]; [done|..].
    + rewrite zlen_cons, @zlen_nil. apply Forall_cons_1 in Hok as [Ha _].
      unfold be16, is_u8 in *. lia.
    + apply Forall_cons_1 in Hok as [Ha Hok]. apply Forall_cons_1 in Hok as [Hb Hok].
      specialize (IH Hok). rewrite !zlen_cons. unfold be16, is_u8 in *. lia.
  - do 8 (apply Forall_cons_1 in Hok as [? Hok]). unfold is_u8 in *.
    cbn [sum_octets]. specialize (IH (sum + be32 a b c d + be32 e f g h) Hok).
    destruct (sum_octets _ l) as [s rest].
    destruct IH as (q & Ht & Hq & Hz & Hle); [unfold be32; lia|].
    pose proof (wsum_nonneg l Hok).
    exists (q + be16 a b + be16 e f). cbn [wsum]. unfold be32, be16 in *.
    rewrite !zlen_cons. split_and!; try lia.
Qed.

(** One folding pass preserves the residue modulo 2^w - 1 and non-zeroness. *)
Lemma fold_pass w acc :
  0 < w -> 0 <= acc ->
  let acc' := Z.land acc (Z.ones w) + Z.shiftr acc w in
  0 <= acc' /\ acc = acc' + (2 ^ w - 1) * (acc / 2 ^ w) /\
  (acc / 2 ^ w <> 0 -> 0 < acc') /\ acc' <= (2 ^ w - 1) + acc / 2 ^ w.
Proof.
  intros Hw Ha. cbn. rewrite Z.land_ones, Z.shiftr_div_pow2 by lia.
  pose proof (Z.pow_pos_nonneg 2 w ltac:(lia) ltac:(lia)).
  pose proof (Z.div_mod acc (2 ^ w) ltac:(lia)).
  pose proof (Z.mod_pos_bound acc (2 ^ w) ltac:(lia)).
  pose proof (Z.div_pos acc (2 ^ w) ltac:(lia) ltac:(lia)).
  split_and!; nia.
Qed.

Lemma fold_loop_spec fuel w acc :
  0 < w -> 0 <= acc ->
  let r := fold_loop fuel w acc in
  0 <= r /\ (exists q, acc = r + (2 ^ w - 1) * q /\ 0 <= q) /\ (0 < acc -> 0 < r).
Proof.
  intros Hw. revert acc; induction fuel as [|fuel IH]; intros acc Ha; cbn.
  { split; [done|]. split; [exists 0; lia|done]. }
  rewrite Z.shiftr_div_pow2 by lia.
  destruct (acc / 2 ^ w =? 0) eqn:E.
  { split; [done|]. split; [exists 0; lia|done]. }
  destruct (fold_pass w acc Hw Ha) as (H0 & Heq & Hpos & _). cbn in *.
  rewrite Z.shiftr_div_pow2 in * by lia.
  destruct (IH _ H0) as (? & (q & Hq & ?) & Hp). cbn in *.
  split; [done|]. split; [|intros _; apply Hp, Hpos; lia].
  exists (q + acc / 2 ^ w).
  pose proof (Z.div_pos acc (2 ^ w) ltac:(lia) ltac:(lia)).
  split; [|lia]. rewrite Z.mul_add_distr_l. lia.
Qed.

Lemma fold_loop_done fuel w acc :
  0 < w -> 0 <= acc -> acc / 2 ^ w = 0 -> fold_loop fuel w acc = acc.
Proof.
  intros. destruct fuel; cbn; [done|]. rewrite Z.shiftr_div_pow2 by lia.
  by rewrite (proj2 (Z.eqb_eq _ _)).
Qed.

Lemma fold_loop_S fuel w acc :
  fold_loop (S fuel) w acc =
    if Z.shiftr acc w =? 0 then acc
    else fold_loop fuel w (Z.land acc (Z.ones w) + Z.shiftr acc w).
Proof. done. Qed.

(** The loops reach their exit condition within the fuel: one pass brings a
    double-width value below twice the radix, a second one below the radix. *)
Lemma fold_loop_exits w acc :
  0 < w -> 0 <= acc < 2 ^ w * 2 ^ w -> 0 <= fold_loop 4 w acc < 2 ^ w.
Proof.
  intros Hw Ha. set (B := 2 ^ w) in *.
  assert (HB : 0 < B) by (apply Z.pow_pos_nonneg; lia).
  assert (Hstep : forall x, Z.land x (Z.ones w) + Z.shiftr x w = x mod B + x / B)
    by (intros; by rewrite Z.land_ones, Z.shiftr_div_pow2 by lia).
  assert (Hdone : forall fuel x, 0 <= x < B -> fold_loop fuel w x = x).
  { intros. apply fold_loop_done; [lia..|]. apply Z.div_small. done. }
  assert (Hsmall : forall fuel x, 0 <= x <= 2 * B - 2 -> 0 <= fold_loop (S fuel) w x < B).
  { intros fuel x Hx. destruct (Z.lt_ge_cases x B) as [Hlt|Hge]; [rewrite Hdone; lia|].
    rewrite fold_loop_S, Hstep, Z.shiftr_div_pow2 by lia. fold B.
    assert (E : x / B = 1) by (symmetry; apply (Z.div_unique _ _ _ (x - B)); lia).
    assert (E' : x mod B = x - B) by (rewrite Z.mod_eq, E; lia).
    rewrite E, E'. cbn. rewrite Hdone; lia. }
  destruct (Z.lt_ge_cases acc B) as [Hlt|Hge]; [rewrite Hdone; lia|].
  rewrite fold_loop_S, Hstep, Z.shiftr_div_pow2 by lia. fold B.
  destruct (acc / B =? 0) eqn:E.
  { assert (1 <= acc / B) by (apply Z.div_le_lower_bound; lia). lia. }
  apply Hsmall.
  pose proof (Z.mod_pos_bound acc B HB).
  assert (acc / B < B) by (apply Z.div_lt_upper_bound; lia).
  pose proof (Z.div_pos acc B). lia.
Qed.

Lemma fold_exits acc : is_u32 acc -> 0 <= fold_loop 4 16 acc < 2 ^ 16.
Proof. intros. apply fold_loop_exits; [lia|]. unfold is_u32 in *. lia. Qed.
Lemma fold64_exits acc : is_u64 acc -> 0 <= fold_loop 4 32 acc < 2 ^ 32.
Proof. intros. apply fold_loop_exits; [lia|]. unfold is_u64 in *. lia. Qed.

(** A number in [0, 2^16) with the right residue and zeroness is the normal form. *)
Lemma oc_norm_unique s r q :
  0 <= r <= U16_MAX -> s = r + U16_MAX * q -> 0 <= s -> (0 < s -> 0 < r) ->
  (s = 0 -> r = 0) -> oc_norm s = r.
Proof.
  unfold oc_norm. intros Hr Hs Hs0 Hpos H0. case_ifs; [lia|].
  rewrite <- (Z.mod_unique (s - 1) U16_MAX q (r - 1)); lia.
Qed.

Lemma oc_norm_range s : 0 <= s -> 0 <= oc_norm s <= U16_MAX.
Proof.
  unfold oc_norm. intros. case_ifs; [lia|].
  pose proof (Z.mod_pos_bound (s - 1) U16_MAX). lia.
Qed.

(** Data a slice can hold: the 64-bit accumulator does not overflow below this
    (a datagram has at most 2^16 bytes). *)
Definition MAX_DATA : Z := 2 ^ 31.

Lemma accumulate_spec acc l :
  is_u32 acc -> bytes_ok l -> zlen l <= MAX_DATA ->
  is_u32 (accumulate acc l) /\
  exists q, acc + wsum l + U16_MAX * q = accumulate acc l /\
    (accumulate acc l = 0 <-> acc + wsum l = 0).
Proof.
  unfold is_u32. intros Hacc Hok Hlen. unfold accumulate, MAX_DATA in *.
  pose proof (sum_octets_wsum acc l Hok ltac:(lia)) as Hs.
  destruct (sum_octets acc l) as [s rest]. cbn in Hs.
  destruct Hs as (q & Ht & Hq & H0 & Hle). pose proof (wsum_nonneg l Hok).
  set (t := sum_pairs s rest) in *.
  assert (Htu : is_u64 t) by (unfold is_u64; lia).
  pose proof (fold64_exits t Htu) as Hr.
  destruct (fold_loop_spec 4 32 t) as (_ & (q' & Hq' & ?) & Hpos); [lia|lia|].
  rewrite wrap32_small by done.
  split; [done|]. exists (q - 65537 * q'). split; lia.
Qed.

(** The equivalence of the optimised sum with the reference. *)
Lemma fold_accumulate acc l :
  is_u32 acc -> bytes_ok l -> zlen l <= MAX_DATA ->
  fold (accumulate acc l) = oc_norm (acc + wsum l).
Proof.
  intros Hacc Hok Hlen.
  destruct (accumulate_spec acc l Hacc Hok Hlen) as (Hu & q & Hq & Hz).
  pose proof (fold_exits _ Hu). unfold is_u32 in Hacc, Hu.
  pose proof (wsum_nonneg l Hok).
  destruct (fold_loop_spec 4 16 (accumulate acc l)) as (_ & (q' & Hq' & ?) & Hpos); [lia|lia|].
  unfold fold. rewrite wrap16_small by done. symmetry.
  apply (oc_norm_unique _ _ (q' - q)); [lia..| |by intros E; apply Hz in E; rewrite E].
  intros. apply Hpos. destruct (Z.eq_dec (accumulate acc l) 0) as [E|]; [|lia].
  apply Hz in E. lia.
Qed.

(** ** Filling and verifying a checksum field *)

Lemma oc_norm_full s : 0 <= s -> oc_norm s = U16_MAX <-> 0 < s /\ s mod U16_MAX = 0.
Proof.
  intros Hs. unfold oc_norm. destruct (s =? 0) eqn:E; [split; lia|].
  pose proof (Z.div_mod (s - 1) U16_MAX ltac:(lia)).
  pose proof (Z.mod_pos_bound (s - 1) U16_MAX ltac:(lia)). split.
  - intros H'. split; [lia|]. apply Z.mod_divide; [lia|].
    exists ((s - 1) / U16_MAX + 1). lia.
  - intros [_ H']. apply Z.mod_divide in H' as [k Hk]; [|lia]. lia.
Qed.

Lemma wsum_to_be16 v : is_u16 v -> wsum (to_be16 v) = v.
Proof. unfold is_u16, to_be16, be16. cbn. unfold be16. zmod. Qed.

Lemma to_be16_ok v : bytes_ok (to_be16 v).
Proof. repeat constructor; unfold is_u8; zmod. Qed.
Lemma to_be32_ok v : bytes_ok (to_be32 v).
Proof. repeat constructor; unfold is_u8; zmod. Qed.
Lemma zlen_to_be16 v : zlen (to_be16 v) = 2.
Proof. done. Qed.
Lemma zlen_to_be32 v : zlen (to_be32 v) = 4.
Proof. done. Qed.

#[export] Hint Rewrite zlen_to_be16 zlen_to_be32 : zlen.

Lemma bytes_ok_app l d : bytes_ok l -> bytes_ok d -> bytes_ok (l ++ d).
Proof. intros. by apply Forall_app. Qed.
Lemma bytes_ok_zrepeat n : bytes_ok (zrepeat 0 n).
Proof. apply Forall_replicate. unfold is_u8. lia. Qed.
#[export] Hint Resolve to_be16_ok to_be32_ok bytes_ok_app bytes_ok_zrepeat : ferrum.

Lemma fold_range acc l :
  is_u32 acc -> bytes_ok l -> zlen l <= MAX_DATA -> is_u16 (fold (accumulate acc l)).
Proof.
  intros Ha Hl Hn. rewrite fold_accumulate by done. unfold is_u32, is_u16 in *.
  pose proof (wsum_nonneg l Hl). pose proof (oc_norm_range (acc + wsum l)). lia.
Qed.

Lemma not16_range x : is_u16 x -> is_u16 (not16 x).
Proof. unfold not16. width. Qed.

(** Whatever surrounds the (even-aligned, zeroed) field, writing the
    complement of the sum into it makes the whole sum all-ones. *)
Lemma fill_makes_valid acc pre post :
  is_u32 acc -> bytes_ok pre -> bytes_ok post -> Z.even (zlen pre) = true ->
  zlen pre + zlen post + 2 <= MAX_DATA ->
  fold (accumulate acc
    (pre ++ to_be16 (not16 (fold (accumulate acc (pre ++ [0; 0] ++ post)))) ++ post)) = U16_MAX.
Proof.
  intros Ha Hpre Hpost Heven Hlen.
  assert (H00 : bytes_ok [0; 0]) by (repeat constructor; unfold is_u8; lia).
  assert (Hz : bytes_ok (pre ++ [0; 0] ++ post)) by (auto with ferrum).
  assert (Hzl : zlen (pre ++ [0; 0] ++ post) <= MAX_DATA)
    by (rewrite !zlen_app; change (zlen [0; 0]) with 2; lia).
  set (n := fold (accumulate acc (pre ++ [0; 0] ++ post))).
  assert (Hn : is_u16 n) by (by apply fold_range).
  pose proof (not16_range n Hn) as Hn'.
  rewrite fold_accumulate; [|done|auto with ferrum|].
  2: { rewrite !zlen_app, zlen_to_be16. lia. }
  assert (En : n = oc_norm (acc + wsum pre + wsum post)).
  { subst n. rewrite fold_accumulate by done. f_equal.
    rewrite !wsum_app by done. change (wsum [0; 0]) with 0. lia. }
  rewrite !wsum_app, wsum_to_be16 by done.
  pose proof (wsum_nonneg pre Hpre). pose proof (wsum_nonneg post Hpost). unfold is_u32 in Ha.
  set (s := acc + wsum pre + wsum post) in *. assert (Hs : 0 <= s) by (unfold s; lia).
  replace (acc + (wsum pre + (not16 n + wsum post))) with (s + not16 n) by (unfold s; lia).
  clearbody s n. unfold not16, is_u16 in *. apply oc_norm_full; [lia|].
  subst n. unfold oc_norm in *. destruct (s =? 0) eqn:E.
  - assert (s = 0) as -> by lia. split; [lia|done].
  - split; [lia|].
    replace (s + (U16_MAX - ((s - 1) mod U16_MAX + 1)))
      with ((s - 1) / U16_MAX * U16_MAX + 1 * U16_MAX)
      by (pose proof (Z.div_mod (s - 1) U16_MAX ltac:(lia)); lia).
    rewrite Z.mod_add by lia. by rewrite Z.mod_mul by lia.
Qed.

Lemma pseudo_header_u32 src dst p n :
  ip_ok src -> ip_ok dst -> is_u8 p -> is_u16 n -> is_u32 (pseudo_header src dst p n).
Proof.
  destruct src, dst. intros Hs Hd Hp Hn.
  assert (Hlast : bytes_ok [0; p; Z.shiftr n 8; wrap8 n]).
  { split_bytes; auto with ferrum; rewrite ?Z.shiftr_div_pow2 by lia;
      unfold is_u8, is_u16 in *; zmod. }
  unfold pseudo_header, MAX_DATA.
  apply accumulate_spec; [|done|vm_compute; discriminate].
  apply accumulate_spec; [|done|vm_compute; discriminate].
  apply accumulate_spec; [|done|vm_compute; discriminate].
  unfold is_u32; lia.
Qed.

(** A replaced byte moves the sum by its difference times its weight. *)
Lemma wsum_replace l1 l2 b b' :
  exists w, (w = 1 \/ w = 256) /\
    wsum (l1 ++ b' :: l2) = wsum (l1 ++ b :: l2) + w * (b' - b).
Proof.
  induction l1 as [|a|a c l1 IH] using pair_ind; cbn [app].
  - exists 256. split; [by right|]. destruct l2; cbn [wsum]; unfold be16; lia.
  - exists 1. split; [by left|]. cbn [wsum]. unfold be16. lia.
  - destruct IH as (w & Hw & E). exists w. split; [done|]. cbn [wsum]. rewrite E. lia.
Qed.

(** Corrupting any single byte of a valid TCP segment, anywhere in
    the header or the payload and to any other value (so in particular any
    single bit flip), makes the receiver's checksum test fail. *)
Lemma single_byte_corruption_detected src dst l1 l2 b b' :
  ip_ok src -> ip_ok dst -> bytes_ok (l1 ++ b :: l2) -> is_u8 b' ->
  zlen (l1 ++ b :: l2) <= U16_MAX -> b' <> b ->
  tcp_checksum_valid src dst (l1 ++ b :: l2) = true ->
  tcp_checksum_valid src dst (l1 ++ b' :: l2) = false.
Proof.
  intros Hs Hd Hok Hb' Hlen Hne. unfold tcp_checksum_valid.
  replace (zlen (l1 ++ b' :: l2)) with (zlen (l1 ++ b :: l2))
    by (rewrite !zlen_app, !zlen_cons; lia).
  set (acc := pseudo_header _ _ _ _).
  assert (Ha : is_u32 acc).
  { apply pseudo_header_u32; auto with ferrum. unfold is_u8, IPPROTO_TCP; lia. }
  clearbody acc.
  assert (Hok' : bytes_ok (l1 ++ b' :: l2) /\ is_u8 b).
  { apply Forall_app in Hok as [? Hr]. apply Forall_cons_1 in Hr as [? ?]. split; [|done].
    apply Forall_app; split; [done|]. by apply Forall_cons. }
  destruct Hok' as [Hok' Hb].
  assert (zlen (l1 ++ b' :: l2) = zlen (l1 ++ b :: l2)) as E
    by (rewrite !zlen_app, !zlen_cons; lia).
  rewrite !fold_accumulate by (done || (unfold MAX_DATA; lia)).
  pose proof (wsum_nonneg _ Hok). pose proof (wsum_nonneg _ Hok') as Hs2.
  destruct (wsum_replace l1 l2 b b') as (w & Hw & E').
  rewrite E' in Hs2 |- *. unfold is_u32, is_u8 in *.
  intros [_ Hv]%Z.eqb_eq%oc_norm_full; [|lia]. apply Z.eqb_neq.
  intros [_ Hv']%oc_norm_full; [|lia].
  apply Z.mod_divide in Hv as [k Hk]; [|lia]. apply Z.mod_divide in Hv' as [k' Hk']; [|lia].
  destruct Hw; subst w; lia.
Qed.

Lemma single_byte_corruption_detected_witness :
  let seg c := [0; 80; 31; 144] ++ c :: [0; 0; 0; 0; 0; 0; 0; 0x50; 2; 0; 0; 0x7b; 0; 0; 0] in
  tcp_checksum_valid (ipv4 10 0 0 1) (ipv4 10 0 0 2) (seg 1) = true /\
  tcp_checksum_valid (ipv4 10 0 0 1) (ipv4 10 0 0 2) (seg 3) = false.
Proof.
  intros seg. assert (Hv : tcp_checksum_valid (ipv4 10 0 0 1) (ipv4 10 0 0 2) (seg 1) = true)
    by (vm_compute; reflexivity).
  split; [exact Hv|].
  refine (single_byte_corruption_detected _ _ [0; 80; 31; 144] _ 1 3 _ _ _ _ _ _ Hv);
    try (repeat constructor; unfold is_u8; lia); vm_compute; discriminate.
Defined.

(** ** Properties *)

(** The optimised 8-bytes-at-a-time checksum is the RFC 1071
    one's-complement sum of 16-bit words: folding what [accumulate] returns
    gives the normal form of the seed plus the plain word sum, for every seed
    and every buffer a datagram can hold, an odd trailing byte included; the
    64-bit sum does not overflow and both folding loops terminate. *)
Lemma accumulate_is_rfc1071 acc l :
  is_u32 acc -> bytes_ok l -> zlen l <= MAX_DATA ->
  fold (accumulate acc l) = oc_norm (acc + wsum l).
Proof. apply fold_accumulate. Qed.

Lemma accumulate_is_rfc1071_witness :
  fold (accumulate 65536 [0x45; 0; 0; 0x3c; 0x1c; 0x46; 0x40; 0; 0x40; 6; 0xb1])
  = oc_norm (65536 + wsum [0x45; 0; 0; 0x3c; 0x1c; 0x46; 0x40; 0; 0x40; 6; 0xb1]).
Proof.
  apply accumulate_is_rfc1071; [unfold is_u32; lia| |vm_compute; discriminate].
  repeat constructor; unfold is_u8; lia.
Defined.

