(* ===== verification/Ipv4.v ===== *)
(** IPv4 views and emitter: [tcp-core/src/wire/ipv4.rs].

    A buffer is a list of bytes; an accessor that indexes it is an [option]
    ([None] is the out-of-bounds panic).  [new_checked] is the only way to get a
    view, and [accessors_total] shows that no accessor of a view panics. *)

From S2P Require Import Prelude Checksum.

Definition IPV4_MIN_HEADER_LEN : Z := 20.
Definition IPV4_MAX_HEADER_LEN : Z := 60.

Definition ECN_NOT_ECT : Z := 0.
Definition ECN_ECT1 : Z := 1.
Definition ECN_ECT0 : Z := 2.
Definition ECN_CE : Z := 3.

(** [set_ecn]: rewrite the ECN codepoint of an emitted datagram and fix the
    header checksum. *)
Definition set_ecn (frame : list Z) (ecn : Z) : option (list Z) :=
  if zlen frame <? IPV4_MIN_HEADER_LEN then Some frame
  else
    let? b1 := at_ frame 1 in
    let? frame := store frame 1 (Z.lor (Z.land b1 0xFC) (Z.land ecn 0x03)) in
    let? frame := store frame 10 0 in
    let? frame := store frame 11 0 in
    let? hdr := slice frame 0 IPV4_MIN_HEADER_LEN in
    let csum := checksum hdr in
    splice frame 10 (to_be16 csum).

Module Ipv4.

Inductive ParseError := Truncated | BadVersion | BadHeaderLen | Fragmented.

Record Ipv4Packet := mkPkt { buf : list Z }.

Definition version (self : Ipv4Packet) : option Z :=
  let? b := at_ (buf self) 0 in Some (Z.shiftr b 4).
Definition header_len (self : Ipv4Packet) : option Z :=
  let? b := at_ (buf self) 0 in Some (Z.land b 0x0f * 4).
Definition u16_at (self : Ipv4Packet) (i : Z) : option Z :=
  let? a := at_ (buf self) i in let? b := at_ (buf self) (i + 1) in Some (be16 a b).
Definition addr_at (self : Ipv4Packet) (i : Z) : option Ipv4Addr :=
  let? a := at_ (buf self) i in let? b := at_ (buf self) (i + 1) in
  let? c := at_ (buf self) (i + 2) in let? d := at_ (buf self) (i + 3) in
  Some (ipv4 a b c d).
Definition total_len (self : Ipv4Packet) : option Z := u16_at self 2.
Definition ttl (self : Ipv4Packet) : option Z := at_ (buf self) 8.
Definition protocol (self : Ipv4Packet) : option Z := at_ (buf self) 9.
Definition ecn (self : Ipv4Packet) : option Z :=
  let? b := at_ (buf self) 1 in Some (Z.land b 0x03).
Definition checksum_field (self : Ipv4Packet) : option Z := u16_at self 10.
Definition src (self : Ipv4Packet) : option Ipv4Addr := addr_at self 12.
Definition dst (self : Ipv4Packet) : option Ipv4Addr := addr_at self 16.
Definition is_fragment (self : Ipv4Packet) : option bool :=
  let? flags_frag := u16_at self 6 in
  Some (negb (Z.land flags_frag 0x2000 =? 0) || negb (Z.land flags_frag 0x1fff =? 0)).
Definition checksum_valid (self : Ipv4Packet) : option bool :=
  let? n := header_len self in
  let? hdr := slice (buf self) 0 n in
  Some (fold (accumulate 0 hdr) =? 0xffff).
Definition payload (self : Ipv4Packet) : option (list Z) :=
  let? a := header_len self in
  let? b := total_len self in
  slice (buf self) a b.

Definition new_checked (b : list Z) : option (Result Ipv4Packet ParseError) :=
  if zlen b <? IPV4_MIN_HEADER_LEN then Some (Err Truncated)
  else
    let p := mkPkt b in
    let? v := version p in
    if negb (v =? 4) then Some (Err BadVersion)
    else
      let? ihl := header_len p in
      if negb ((IPV4_MIN_HEADER_LEN <=? ihl) && (ihl <=? IPV4_MAX_HEADER_LEN))
      then Some (Err BadHeaderLen)
      else
        let? total := total_len p in
        if (total <? ihl) || (zlen b <? total) then Some (Err Truncated)
        else
          let? frag := is_fragment p in
          if frag then Some (Err Fragmented) else Some (Ok p).

(** *** The emitter *)

Record Ipv4Repr := mkRepr {
  r_src : Ipv4Addr;
  r_dst : Ipv4Addr;
  r_protocol : Z;
  r_payload_len : Z;
  r_ttl : Z;
  r_ecn : Z;
}.

Definition HEADER_LEN : Z := IPV4_MIN_HEADER_LEN.
Definition repr_total_len (self : Ipv4Repr) : Z := HEADER_LEN + r_payload_len self.

(** [emit]: the buffer after the call ([None] when it is shorter than 20
    bytes); the returned length is always [HEADER_LEN]. *)
Definition emit (self : Ipv4Repr) (b : list Z) : option (list Z) :=
  let total := wrap16 (repr_total_len self) in
  let? b := store b 0 (Z.lor (Z.shiftl 4 4) 5) in
  let? b := store b 1 (Z.land (r_ecn self) 0x03) in
  let? b := splice b 2 (to_be16 total) in
  let? b := splice b 4 [0; 0] in
  let? b := splice b 6 (to_be16 0x4000) in
  let? b := store b 8 (r_ttl self) in
  let? b := store b 9 (r_protocol self) in
  let? b := splice b 10 [0; 0] in
  let? b := splice b 12 (octets (r_src self)) in
  let? b := splice b 16 (octets (r_dst self)) in
  let? hdr := slice b 0 HEADER_LEN in
  splice b 10 (to_be16 (checksum hdr)).

(** *** Parsing never panics *)

Lemma at_byte (l : list Z) i :
  bytes_ok l -> 0 <= i < zlen l -> exists b, at_ l i = Some b /\ is_u8 b.
Proof.
  intros Hok Hi. destruct (at_is_Some l i Hi) as [b Hb]. exists b. split; [done|].
  rewrite at_lookup in Hb by lia. by apply (Forall_lookup_1 _ _ _ _ Hok Hb).
Qed.

(** What a successful parse establishes; every accessor is determined by it. *)
Record view (p : Ipv4Packet) : Prop := {
  v_min : IPV4_MIN_HEADER_LEN <= zlen (buf p);
  v_version : version p = Some 4;
  v_ihl : exists ihl, header_len p = Some ihl /\
    IPV4_MIN_HEADER_LEN <= ihl <= IPV4_MAX_HEADER_LEN /\
    exists total, total_len p = Some total /\ ihl <= total <= zlen (buf p);
  v_frag : is_fragment p = Some false;
}.

Lemma ipv4_new_checked_cases b :
  exists r, new_checked b = Some r /\
    match r with Ok p => buf p = b /\ view p | Err _ => True end.
Proof.
  unfold new_checked. destruct (zlen b <? _) eqn:Hlen; [by eexists|].
  unfold IPV4_MIN_HEADER_LEN in Hlen.
  assert (Hat : forall i, 0 <= i < 20 -> exists x, at_ b i = Some x).
  { intros i Hi. apply at_is_Some. lia. }
  destruct (Hat 0 ltac:(lia)) as [b0 H0]. destruct (Hat 2 ltac:(lia)) as [b2 H2].
  destruct (Hat 3 ltac:(lia)) as [b3 H3]. destruct (Hat 6 ltac:(lia)) as [b6 H6].
  destruct (Hat 7 ltac:(lia)) as [b7 H7].
  unfold version, header_len, total_len, is_fragment, u16_at; cbn [buf].
  rewrite H0, H2, H6. cbn. change (2 + 1) with 3. change (6 + 1) with 7. rewrite H3, H7. cbn.
  destruct (negb (Z.shiftr b0 4 =? 4)) eqn:Hv; [by eexists|].
  destruct (negb (_ && _)) eqn:Hi; [by eexists|].
  destruct (_ || _) eqn:Ht; [by eexists|].
  destruct (_ || _) eqn:Hf in |- *; [by eexists|].
  eexists; split; [done|]. split; [done|].
  split; unfold version, header_len, total_len, is_fragment, u16_at; cbn [buf].
  - unfold IPV4_MIN_HEADER_LEN. lia.
  - rewrite H0. f_equal. lia.
  - rewrite H0. eexists; split; [done|]. split; [lia|]. rewrite H2. cbn.
    change (2 + 1) with 3. rewrite H3. eexists; split; [done|]. lia.
  - rewrite H6. change (6 + 1) with 7. rewrite H7. by rewrite Hf.
Qed.

Lemma accessors_core b :
  exists r, new_checked b = Some r /\
  forall p, r = Ok p ->
    buf p = b /\ version p = Some 4 /\ is_fragment p = Some false /\
    is_Some (ttl p) /\ is_Some (protocol p) /\ is_Some (ecn p) /\
    is_Some (checksum_field p) /\ is_Some (src p) /\ is_Some (dst p) /\
    is_Some (checksum_valid p) /\
    exists ihl total body,
      header_len p = Some ihl /\ total_len p = Some total /\ payload p = Some body /\
      IPV4_MIN_HEADER_LEN <= ihl <= IPV4_MAX_HEADER_LEN /\ total <= zlen b /\
      zlen body = total - ihl /\ (forall i, 0 <= i < total - ihl -> at_ body i = at_ b (ihl + i)).
Proof.
  destruct (ipv4_new_checked_cases b) as (r & Hr & Hcase). exists r. split; [done|].
  intros p ->. destruct Hcase as (Hbuf & [Hmin Hv (ihl & Hi & Hir & total & Ht & Htr) Hf]).
  unfold IPV4_MIN_HEADER_LEN in *.
  assert (Hat : forall i, 0 <= i < 20 -> exists x, at_ (buf p) i = Some x).
  { intros i Hi'. apply at_is_Some. lia. }
  split_and!; try done; try (apply Hat; lia).
  - unfold ecn. destruct (Hat 1 ltac:(lia)) as [? ->]. by eexists.
  - unfold checksum_field, u16_at. destruct (Hat 10 ltac:(lia)) as [? ->].
    destruct (Hat 11 ltac:(lia)) as [? Hx]. eval_offsets. rewrite Hx. by eexists.
  - unfold src, addr_at. eval_offsets. destruct (Hat 12 ltac:(lia)) as [? ->], (Hat 13 ltac:(lia)) as [? ->],
      (Hat 14 ltac:(lia)) as [? ->], (Hat 15 ltac:(lia)) as [? ->]. by eexists.
  - unfold dst, addr_at. eval_offsets. destruct (Hat 16 ltac:(lia)) as [? ->], (Hat 17 ltac:(lia)) as [? ->],
      (Hat 18 ltac:(lia)) as [? ->], (Hat 19 ltac:(lia)) as [? ->]. by eexists.
  - unfold checksum_valid. rewrite Hi. rewrite slice_Some by lia. by eexists.
  - exists ihl, total, (ztake (total - ihl) (zdrop ihl (buf p))).
    rewrite <- Hbuf. split_and!; try done; try lia.
    + unfold payload. rewrite Hi, Ht. by apply slice_Some; lia.
    + rewrite zlen_ztake, zlen_zdrop. lia.
    + intros i Hi'. rewrite at_ztake, at_zdrop by lia. done.
Qed.

(** [new_checked] never panics, and a view it returns never
    panics either: every accessor of the header returns a value, the header
    length is legal, and the payload is exactly the bytes from the header
    length to the declared total length, whatever slack follows. *)
Lemma accessors_total b :
  exists r, new_checked b = Some r /\
  forall p, r = Ok p ->
    buf p = b /\ version p = Some 4 /\ is_fragment p = Some false /\
    is_Some (ttl p) /\ is_Some (protocol p) /\ is_Some (ecn p) /\
    is_Some (checksum_field p) /\ is_Some (src p) /\ is_Some (dst p) /\
    is_Some (checksum_valid p) /\
    exists ihl total body,
      header_len p = Some ihl /\ total_len p = Some total /\ payload p = Some body /\
      IPV4_MIN_HEADER_LEN <= ihl <= IPV4_MAX_HEADER_LEN /\ total <= zlen b /\
      zlen body = total - ihl /\ (forall i, 0 <= i < total - ihl -> at_ body i = at_ b (ihl + i)).
Proof. apply accessors_core. Qed.

Lemma accessors_total_witness :
  exists p, new_checked [0x45; 1; 0; 22; 0; 0; 0x40; 0; 64; 6; 0; 0; 10; 0; 0; 1; 10; 0; 0; 2; 7; 8; 9]
    = Some (Ok p) /\ payload p = Some [7; 8].
Proof.
  destruct (accessors_total
    [0x45; 1; 0; 22; 0; 0; 0x40; 0; 64; 6; 0; 0; 10; 0; 0; 1; 10; 0; 0; 2; 7; 8; 9])
    as (r & Hr & _).
  vm_compute in Hr. injection Hr as <-. eexists. split; vm_compute; reflexivity.
Defined.

(** *** Emitting and parsing back *)

Record repr_ok (r : Ipv4Repr) : Prop := {
  ro_src : ip_ok (r_src r);
  ro_dst : ip_ok (r_dst r);
  ro_protocol : is_u8 (r_protocol r);
  ro_ttl : is_u8 (r_ttl r);
  ro_ecn : 0 <= r_ecn r < 4;
  ro_len : 0 <= r_payload_len r /\ HEADER_LEN + r_payload_len r <= U16_MAX;
}.

(** The first ten header bytes, and the last eight (around the checksum). *)
Definition hdr_pre (r : Ipv4Repr) : list Z :=
  [0x45; Z.land (r_ecn r) 0x03] ++ to_be16 (wrap16 (repr_total_len r)) ++
  [0; 0; 0x40; 0; r_ttl r; r_protocol r].
Definition hdr_post (r : Ipv4Repr) : list Z := octets (r_src r) ++ octets (r_dst r).
Definition hdr (r : Ipv4Repr) : list Z :=
  hdr_pre r ++ to_be16 (checksum (hdr_pre r ++ [0; 0] ++ hdr_post r)) ++ hdr_post r.

Lemma ipv4_emit_spec r b : HEADER_LEN <= zlen b -> emit r b = Some (hdr r ++ zdrop HEADER_LEN b).
Proof.
  unfold HEADER_LEN, IPV4_MIN_HEADER_LEN. intros Hlen.
  expose b 20%nat. unfold emit. destruct r as [[s0 s1 s2 s3] [d0 d1 d2 d3] pr pl tt ec].
  cbn [r_src r_dst r_protocol r_payload_len r_ttl r_ecn octets]. unfold to_be16.
  run_splices.
  rewrite slice_Some by (autorewrite with zlen; unfold HEADER_LEN, IPV4_MIN_HEADER_LEN;
    pose proof (zlen_nonneg tail); lia).
  unfold ztake, zdrop. unfold HEADER_LEN, IPV4_MIN_HEADER_LEN. eval_to_nat. cbn [drop take].
  run_splices. reflexivity.
Qed.

Lemma land3 x : 0 <= x < 4 -> Z.land x 0x03 = x.
Proof. intros. change 3 with (Z.ones 2). rewrite Z.land_ones, Z.mod_small; lia. Qed.

Lemma hdr_pre_ok r : repr_ok r -> bytes_ok (hdr_pre r).
Proof.
  intros []. unfold hdr_pre. rewrite land3 by done.
  split_bytes; unfold is_u8 in *; try zmod; done.
Qed.

Lemma hdr_post_ok r : repr_ok r -> bytes_ok (hdr_post r).
Proof. intros []. by apply bytes_ok_app. Qed.

Lemma hdr_valid r : repr_ok r -> fold (accumulate 0 (hdr r)) = U16_MAX.
Proof.
  intros Hr. unfold hdr, checksum. apply fill_makes_valid.
  - unfold is_u32; lia.
  - by apply hdr_pre_ok.
  - by apply hdr_post_ok.
  - done.
  - destruct r as [[] []]. vm_compute. discriminate.
Qed.

Lemma emit_parse_core r b :
  repr_ok r -> repr_total_len r <= zlen b ->
  exists b' p, emit r b = Some b' /\ zlen b' = zlen b /\ new_checked b' = Some (Ok p) /\
    header_len p = Some HEADER_LEN /\ total_len p = Some (repr_total_len r) /\
    src p = Some (r_src r) /\ dst p = Some (r_dst r) /\ protocol p = Some (r_protocol r) /\
    ttl p = Some (r_ttl r) /\ ecn p = Some (r_ecn r) /\ checksum_valid p = Some true /\
    payload p = Some (ztake (r_payload_len r) (zdrop HEADER_LEN b)).
Proof.
  intros Hr Hlen. pose proof (ro_len _ Hr) as [Hl0 Hl1]. unfold repr_total_len, HEADER_LEN, IPV4_MIN_HEADER_LEN in *.
  exists (hdr r ++ zdrop 20 b), (mkPkt (hdr r ++ zdrop 20 b)).
  assert (Hz : zlen (hdr r) = 20) by (by destruct r as [[] []]).
  assert (Hzb : zlen (hdr r ++ zdrop 20 b) = zlen b) by (rewrite zlen_app, zlen_zdrop; lia).
  pose proof (ro_ecn _ Hr) as Hecn.
  split; [apply ipv4_emit_spec; unfold HEADER_LEN, IPV4_MIN_HEADER_LEN; lia|].
  split; [done|].
  assert (Ht : total_len (mkPkt (hdr r ++ zdrop 20 b)) = Some (20 + r_payload_len r)).
  { transitivity (Some (be16 (wrap16 (20 + r_payload_len r) / 256 mod 256)
                             (wrap16 (20 + r_payload_len r) mod 256))); [by destruct r as [[] []]|].
    rewrite wrap16_small, be16_to_be16 by (unfold is_u16; lia). done. }
  assert (Hi : header_len (mkPkt (hdr r ++ zdrop 20 b)) = Some 20) by (by destruct r as [[] []]).
  assert (Hsl : slice (hdr r ++ zdrop 20 b) 0 20 = Some (hdr r)).
  { rewrite slice_Some by lia. rewrite zdrop_0 by lia. by rewrite <- Hz, Z.sub_0_r, ztake_app_exact. }
  split; [|split_and!; try done; try (by destruct r as [[] []])].
  - unfold new_checked. cbv zeta. rewrite Hzb. unfold IPV4_MIN_HEADER_LEN, IPV4_MAX_HEADER_LEN.
    destruct (zlen b <? 20) eqn:?; [lia|].
    assert (version (mkPkt (hdr r ++ zdrop 20 b)) = Some 4) as -> by (by destruct r as [[] []]).
    rewrite Hi, Ht. change (negb (4 =? 4)) with false.
    change (negb _) with false. cbv iota.
    destruct (_ || _) eqn:?; [lia|].
    assert (is_fragment (mkPkt (hdr r ++ zdrop 20 b)) = Some false) as -> by (by destruct r as [[] []]).
    done.
  - transitivity (Some (Z.land (Z.land (r_ecn r) 3) 3)); [by destruct r as [[] []]|].
    rewrite (land3 (r_ecn r)) by done. by rewrite land3.
  - unfold checksum_valid. rewrite Hi. cbn [buf]. rewrite Hsl.
    by rewrite hdr_valid.
  - unfold payload. rewrite Hi, Ht. cbn [buf]. rewrite slice_Some by lia.
    rewrite (zdrop_app_ge 20), Hz, zdrop_0 by lia. do 2 f_equal. lia.
Qed.

(** Emitting a header into any buffer that holds the datagram
    and parsing the buffer back returns a view with the emitted fields, a valid
    header checksum and, as payload, the bytes that stood after the header. *)
Lemma ipv4_emit_parse r b :
  repr_ok r -> repr_total_len r <= zlen b ->
  exists b' p, emit r b = Some b' /\ zlen b' = zlen b /\ new_checked b' = Some (Ok p) /\
    header_len p = Some HEADER_LEN /\ total_len p = Some (repr_total_len r) /\
    src p = Some (r_src r) /\ dst p = Some (r_dst r) /\ protocol p = Some (r_protocol r) /\
    ttl p = Some (r_ttl r) /\ ecn p = Some (r_ecn r) /\ checksum_valid p = Some true /\
    payload p = Some (ztake (r_payload_len r) (zdrop HEADER_LEN b)).
Proof. apply emit_parse_core. Qed.

Lemma ipv4_emit_parse_witness :
  exists b' p, emit (mkRepr (ipv4 10 0 0 2) (ipv4 10 0 0 1) 6 3 64 1) (zrepeat 0 20 ++ [1; 2; 3]) = Some b' /\
    new_checked b' = Some (Ok p) /\ payload p = Some [1; 2; 3] /\ checksum_valid p = Some true.
Proof.
  destruct (ipv4_emit_parse (mkRepr (ipv4 10 0 0 2) (ipv4 10 0 0 1) 6 3 64 1) (zrepeat 0 20 ++ [1; 2; 3]))
    as (b' & p & H1 & _ & H2 & _ & _ & _ & _ & _ & _ & _ & H3 & H4).
  - split; cbn; try (split_bytes; unfold is_u8; lia); unfold is_u8, HEADER_LEN, IPV4_MIN_HEADER_LEN; lia.
  - vm_compute; discriminate.
  - exists b', p. split; [exact H1|]. split; [exact H2|]. split; [exact H4|exact H3].
Defined.

End Ipv4.

(** *** Re-marking a datagram in flight *)

Lemma land_FC_lor x e :
  is_u8 x -> 0 <= e < 4 ->
  Z.lor (Z.land x 0xFC) (Z.land e 0x03) = x - x mod 4 + e.
Proof.
  intros Hx He. rewrite Ipv4.land3 by done.
  assert (Hall : forallb (fun x => forallb (fun e => Z.lor (Z.land x 0xFC) e =? x - x mod 4 + e)
    (map Z.of_nat (seq 0 4))) (map Z.of_nat (seq 0 256)) = true) by (vm_compute; done).
  rewrite forallb_forall in Hall. specialize (Hall x).
  rewrite forallb_forall in Hall. apply Z.eqb_eq, Hall.
  - apply in_map_iff. exists (Z.to_nat x). unfold is_u8 in *. split; [lia|]. apply in_seq. lia.
  - apply in_map_iff. exists (Z.to_nat e). split; [lia|]. apply in_seq. lia.
Qed.

(** On a datagram this stack emitted Not-ECT, re-marking is the header emitted
    with that codepoint in the first place. *)
Lemma set_ecn_hdr r e tail :
  Ipv4.repr_ok r -> Ipv4.r_ecn r = 0 -> 0 <= e < 4 ->
  set_ecn (Ipv4.hdr r ++ tail) e
    = Some (Ipv4.hdr (Ipv4.mkRepr (Ipv4.r_src r) (Ipv4.r_dst r) (Ipv4.r_protocol r)
                        (Ipv4.r_payload_len r) (Ipv4.r_ttl r) e) ++ tail).
Proof.
  intros Hr H0 He. pose proof (zlen_nonneg tail).
  assert (Hz : zlen (Ipv4.hdr r) = 20) by (by destruct r as [[] []]).
  unfold set_ecn. rewrite zlen_app, Hz. unfold IPV4_MIN_HEADER_LEN.
  destruct (20 + zlen tail <? 20) eqn:?; [lia|]. clear Hz.
  destruct r as [[s0 s1 s2 s3] [d0 d1 d2 d3] pr pl tt ec]. cbn in H0. subst ec.
  unfold Ipv4.hdr, Ipv4.hdr_pre, Ipv4.hdr_post, to_be16.
  cbn [Ipv4.r_src Ipv4.r_dst Ipv4.r_protocol Ipv4.r_payload_len Ipv4.r_ttl Ipv4.r_ecn octets app].
  change (at_ _ 1) with (Some (Z.land 0 3)). cbv beta iota.
  change (Z.lor (Z.land (Z.land 0 3) 252) (Z.land e 3)) with (Z.land e 3).
  run_splices. rewrite slice_Some by (autorewrite with zlen; lia).
  unfold ztake, zdrop. eval_to_nat. cbn [drop take]. unfold to_be16. run_splices. reflexivity.
Qed.

(** [set_ecn] on any datagram with room for a header never
    panics; it sets exactly the two ECN bits (the DSCP bits stay), touches no
    byte besides that one and the two checksum bytes (so the TCP segment and
    both addresses are untouched), and leaves the 20-byte header checksum
    valid whatever it was before. *)
Lemma set_ecn_spec frame e :
  bytes_ok frame -> IPV4_MIN_HEADER_LEN <= zlen frame -> 0 <= e < 4 ->
  exists frame', set_ecn frame e = Some frame' /\ bytes_ok frame' /\
    zlen frame' = zlen frame /\
    Ipv4.ecn (Ipv4.mkPkt frame') = Some e /\
    (exists b b', at_ frame 1 = Some b /\ at_ frame' 1 = Some b' /\ b / 4 = b' / 4) /\
    (forall i, i <> 1 -> i <> 10 -> i <> 11 -> at_ frame' i = at_ frame i) /\
    fold (accumulate 0 (ztake IPV4_MIN_HEADER_LEN frame')) = U16_MAX.
Proof.
  unfold IPV4_MIN_HEADER_LEN. intros Hok Hlen He.
  expose frame 20%nat.
  assert (Hb : Forall is_u8 [x;x0;x1;x2;x3;x4;x5;x6;x7;x8;x9;x10;x11;x12;x13;x14;x15;x16;x17;x18]
    /\ bytes_ok tail).
  { change (bytes_ok ([x;x0;x1;x2;x3;x4;x5;x6;x7;x8;x9;x10;x11;x12;x13;x14;x15;x16;x17;x18] ++ tail)) in Hok.
    by apply Forall_app in Hok. }
  destruct Hb as [Hh Hrest]. clear Hok.
  rewrite !List.Forall_cons_iff in Hh. destruct_and! Hh.
  assert (Hx0 : is_u8 x0) by done.
  set (b1 := x0 - x0 mod 4 + e).
  assert (Hb1 : is_u8 b1) by (unfold b1, is_u8 in *; zmod).
  set (pre := [x; b1; x1; x2; x3; x4; x5; x6; x7; x8]).
  set (post := [x11; x12; x13; x14; x15; x16; x17; x18]).
  assert (Hpre : bytes_ok pre /\ bytes_ok post).
  { unfold pre, post; split; split_bytes; done. }
  destruct Hpre as [Hpre Hpost].
  set (cs := checksum (pre ++ [0; 0] ++ post)).
  exists (pre ++ to_be16 cs ++ post ++ tail).
  split_and!.
  - unfold set_ecn, IPV4_MIN_HEADER_LEN. destruct (_ <? 20) eqn:?; [lia|].
    change (at_ _ 1) with (Some x0). cbv beta iota. rewrite land_FC_lor by done. fold b1.
    run_splices. rewrite slice_Some by (autorewrite with zlen; pose proof (zlen_nonneg tail); lia).
    unfold ztake, zdrop. eval_to_nat. cbn [drop take]. unfold to_be16. run_splices. done.
  - rewrite !app_assoc. apply bytes_ok_app; [|done]. apply bytes_ok_app; [|done].
    apply bytes_ok_app; auto with ferrum.
  - autorewrite with zlen. unfold pre, post. autorewrite with zlen. lia.
  - change (Some (Z.land b1 3) = Some e). f_equal. change 3 with (Z.ones 2).
    rewrite Z.land_ones by lia. unfold b1. change (2 ^ 2) with 4. zmod.
  - exists x0, b1. split_and!; [done..|]. unfold b1. zmod.
  - intros i Hi1 Hi10 Hi11. unfold at_. destruct (0 <=? i) eqn:?; [|done].
    remember (Z.to_nat i) as n eqn:En.
    do 12 (destruct n as [|n]; [first [done|lia]|]). done.
  - rewrite (app_assoc pre), (app_assoc _ post).
    assert (zlen ((pre ++ to_be16 cs) ++ post) = 20) as E by done.
    rewrite <- E at 1. rewrite ztake_app_exact. rewrite <- app_assoc.
    apply fill_makes_valid; try done.
Qed.

Lemma set_ecn_spec_witness :
  exists frame', set_ecn ([0x45; 0x2a] ++ zrepeat 7 20) ECN_CE = Some frame' /\
    at_ frame' 1 = Some 0x2b /\ fold (accumulate 0 (ztake 20 frame')) = U16_MAX.
Proof.
  destruct (set_ecn_spec ([0x45; 0x2a] ++ zrepeat 7 20) ECN_CE) as (f & H1 & _ & _ & _ & _ & _ & H2).
  - unfold zrepeat. cbn. split_bytes; unfold is_u8; lia.
  - vm_compute; discriminate.
  - unfold ECN_CE; lia.
  - exists f. split; [exact H1|]. split; [|exact H2].
    vm_compute in H1. injection H1 as <-. reflexivity.
Defined.
