(* ===== verification/Icmp.v ===== *)
(** ICMP echo: [tcp-core/src/wire/icmp.rs]. *)

From S2P Require Import Prelude Checksum Ipv4.
Import Ipv4.

Definition ICMP_ECHO_REPLY : Z := 0.
Definition ICMP_ECHO_REQUEST : Z := 8.
Definition ICMP_ECHO_MIN_LEN : Z := 8.

(** [echo_reply ip out]: the outer option is the panic, the inner one the
    code's [Option<usize>]; with the length comes the buffer after the call. *)
Definition echo_reply (ip : Ipv4Packet) (out : list Z) : option (option (list Z * Z)) :=
  let? proto := protocol ip in
  if negb (proto =? IPPROTO_ICMP) then Some None
  else
    let? request := payload ip in
    if zlen request <? ICMP_ECHO_MIN_LEN then Some None
    else
      let? ty := at_ request 0 in
      if negb (ty =? ICMP_ECHO_REQUEST) then Some None
      else
        let icmp_len := zlen request in
        let total := HEADER_LEN + icmp_len in
        if zlen out <? total then Some None
        else
          let? ip_dst := dst ip in
          let? ip_src := src ip in
          let? out := emit (mkRepr ip_dst ip_src IPPROTO_ICMP (wrap16 icmp_len) 64 0) out in
          let? body := slice out HEADER_LEN total in
          let? body := store body 0 ICMP_ECHO_REPLY in
          let? body := store body 1 0 in
          let? body := splice body 2 [0; 0] in
          let? rest := slice request 4 icmp_len in
          let? body := splice body 4 rest in
          let csum := checksum body in
          let? body := splice body 2 (to_be16 csum) in
          let? out := splice out HEADER_LEN body in
          Some (Some (out, total)).

(** The conditions under which the code answers. *)
Definition is_echo_request (ip : Ipv4Packet) (out : list Z) (request : list Z) : Prop :=
  protocol ip = Some IPPROTO_ICMP /\ payload ip = Some request /\
  ICMP_ECHO_MIN_LEN <= zlen request /\ at_ request 0 = Some ICMP_ECHO_REQUEST /\
  HEADER_LEN + zlen request <= zlen out.

(** The reply body: type, code, checksum, and the request from the identifier on. *)
Definition reply_body (request : list Z) : list Z :=
  let rest := zdrop 4 request in
  [ICMP_ECHO_REPLY; 0] ++ to_be16 (checksum ([ICMP_ECHO_REPLY; 0] ++ [0; 0] ++ rest)) ++ rest.

Lemma zlen_reply_body request : 4 <= zlen request -> zlen (reply_body request) = zlen request.
Proof. intros. unfold reply_body. autorewrite with zlen. lia. Qed.

Lemma bytes_ok_slice l a b r : bytes_ok l -> slice l a b = Some r -> bytes_ok r.
Proof.
  unfold slice. intros Hl. case_ifs; [|done]. intros [= <-].
  unfold ztake, zdrop. by apply Forall_take, Forall_drop.
Qed.

Lemma view_payload_len p request :
  view p -> bytes_ok (buf p) -> payload p = Some request ->
  HEADER_LEN + zlen request <= U16_MAX /\ bytes_ok request.
Proof.
  intros [_ _ (ihl & Hi & Hir & total & Ht & Htr) _] Hok Hp.
  unfold payload in Hp. rewrite Hi, Ht in Hp. split; [|by eapply bytes_ok_slice].
  rewrite slice_Some in Hp by (unfold IPV4_MIN_HEADER_LEN in *; lia).
  injection Hp as <-. rewrite zlen_ztake, zlen_zdrop.
  assert (total <= U16_MAX).
  { unfold total_len, u16_at in Ht.
    destruct (at_ (buf p) 2) eqn:E2; [|done]. destruct (at_ (buf p) (2 + 1)) eqn:E3; [|done].
    injection Ht as <-. rewrite at_lookup in E2, E3 by lia.
    pose proof (Forall_lookup_1 _ _ _ _ Hok E2). pose proof (Forall_lookup_1 _ _ _ _ Hok E3).
    unfold be16, is_u8 in *. lia. }
  unfold HEADER_LEN, IPV4_MIN_HEADER_LEN in *. lia.
Qed.

Lemma reply_body_valid request :
  bytes_ok request -> zlen request <= U16_MAX ->
  fold (accumulate 0 (reply_body request)) = U16_MAX.
Proof.
  intros Hok Hlen. unfold reply_body, checksum. apply fill_makes_valid.
  - unfold is_u32; lia.
  - split_bytes; unfold is_u8, ICMP_ECHO_REPLY; lia.
  - unfold zdrop. by apply Forall_drop.
  - done.
  - autorewrite with zlen. unfold MAX_DATA. lia.
Qed.

Lemma body_splices body request :
  8 <= zlen request -> zlen body = zlen request ->
  (let? body := store body 0 ICMP_ECHO_REPLY in
   let? body := store body 1 0 in
   let? body := splice body 2 [0; 0] in
   let? rest := slice request 4 (zlen request) in
   let? body := splice body 4 rest in
   let csum := checksum body in
   splice body 2 (to_be16 csum)) = Some (reply_body request).
Proof.
  intros H8 Hlen. expose body 4%nat. pose proof (zlen_nonneg tail).
  run_splices. rewrite slice_Some by lia.
  rewrite ztake_all by (rewrite zlen_zdrop; lia).
  rewrite splice_Some; [|lia|autorewrite with zlen in *; lia].
  unfold ztake at 1. eval_to_nat. cbn [take app].
  replace (zdrop (4 + zlen (zdrop 4 request)) _) with (@nil Z).
  2: { rewrite zdrop_all; [done|]. autorewrite with zlen in *. lia. }
  rewrite app_nil_r. cbv zeta.
  rewrite splice_Some; [|lia|autorewrite with zlen in *; lia].
  unfold ztake. change (zlen (to_be16 _)) with 2. unfold zdrop at 3.
  change (Z.to_nat (2 + 2)) with 4%nat. change (Z.to_nat 2) with 2%nat. cbn [take drop].
  rewrite drop_0. done.
Qed.

(** The facts about a parsed datagram the reply needs. *)
Lemma checked_fields b p :
  new_checked b = Some (Ok p) ->
  buf p = b /\ exists s d proto body, src p = Some s /\ dst p = Some d /\
    protocol p = Some proto /\ payload p = Some body.
Proof.
  intros Hn. destruct (accessors_core b) as (r & Hr & Hall).
  rewrite Hn in Hr. injection Hr as <-.
  destruct (Hall p eq_refl) as (? & _ & _ & _ & [proto ?] & _ & _ & [s ?] & [d ?] & _ & ? & ? & body & _ & _ & ? & _).
  split; [done|]. by exists s, d, proto, body.
Qed.

Lemma view_addrs p s d :
  bytes_ok (buf p) -> src p = Some s -> dst p = Some d -> ip_ok s /\ ip_ok d.
Proof.
  assert (H : forall i a, bytes_ok (buf p) -> 0 <= i -> addr_at p i = Some a -> ip_ok a).
  { intros i a Hok Hi. unfold addr_at.
    destruct (at_ _ i) eqn:E0; [|done]. destruct (at_ _ (i + 1)) eqn:E1; [|done].
    destruct (at_ _ (i + 2)) eqn:E2; [|done]. destruct (at_ _ (i + 3)) eqn:E3; [|done].
    intros [= <-]. rewrite at_lookup in * by lia.
    split_bytes; by eapply (Forall_lookup_1 _ _ _ _ Hok). }
  intros Hok Hs Hd. split; [apply (H 12)|apply (H 16)]; done || lia.
Qed.

Lemma classify p out body proto :
  protocol p = Some proto -> payload p = Some body ->
  (exists r, echo_reply p out = Some r /\ r = None /\ ~ is_echo_request p out body) \/
  is_echo_request p out body.
Proof.
  intros Hproto Hbody. unfold echo_reply, is_echo_request. rewrite Hproto, Hbody.
  destruct (proto =? IPPROTO_ICMP) eqn:E1; cbn [negb].
  2: { left. eexists. split; [done|]. split; [done|]. intros ([= ?] & _). lia. }
  destruct (zlen body <? ICMP_ECHO_MIN_LEN) eqn:E2.
  { left. eexists. split; [done|]. split; [done|]. lia. }
  destruct (at_is_Some body 0) as [ty Hty]; [unfold ICMP_ECHO_MIN_LEN in *; lia|].
  rewrite Hty. destruct (ty =? ICMP_ECHO_REQUEST) eqn:E3; cbn [negb].
  2: { left. eexists. split; [done|]. split; [done|]. intros (_ & _ & _ & [= ?] & _). lia. }
  destruct (zlen out <? _) eqn:E4.
  { left. eexists. split; [done|]. split; [done|]. lia. }
  right. split_and!; try done; try lia; f_equal; lia.
Qed.

(** The whole datagram the code leaves in [out]. *)
Definition reply_repr (p_src p_dst : Ipv4Addr) (request : list Z) : Ipv4Repr :=
  mkRepr p_dst p_src IPPROTO_ICMP (zlen request) 64 0.

Lemma echo_reply_yes p out request s d :
  is_echo_request p out request -> zlen request <= U16_MAX ->
  src p = Some s -> dst p = Some d ->
  echo_reply p out = Some (Some
    (hdr (reply_repr s d request) ++ reply_body request ++ zdrop (HEADER_LEN + zlen request) out,
     HEADER_LEN + zlen request)).
Proof.
  intros (Hproto & Hpay & H8 & Hty & Hout) H16 Hs Hd.
  unfold echo_reply. rewrite Hproto, Hpay, Hs, Hd. cbn [negb Z.eqb Pos.eqb IPPROTO_ICMP].
  unfold ICMP_ECHO_MIN_LEN in *.
  destruct (zlen request <? 8) eqn:?; [lia|]. rewrite Hty.
  change (negb (ICMP_ECHO_REQUEST =? ICMP_ECHO_REQUEST)) with false. cbv iota zeta.
  destruct (zlen out <? _) eqn:?; [lia|].
  rewrite wrap16_small by (unfold is_u16; lia).
  change (mkRepr d s IPPROTO_ICMP (zlen request) 64 0) with (reply_repr s d request).
  assert (HH : HEADER_LEN = 20) by done.
  rewrite ipv4_emit_spec by lia.
  set (h := hdr _). assert (Hh : zlen h = 20) by (subst h; destruct s, d; done).
  rewrite slice_Some by (autorewrite with zlen; lia).
  set (body := ztake _ _). assert (Hb : zlen body = zlen request)
    by (subst body; autorewrite with zlen; lia).
  pose proof (body_splices body request H8 Hb) as Hbody. cbv zeta in Hbody.
  destruct (store body 0 _) as [b1|]; [|done]. destruct (store b1 1 _) as [b2|]; [|done].
  destruct (splice b2 2 _) as [b3|]; [|done]. destruct (slice request _ _) as [r|]; [|done].
  destruct (splice b3 4 r) as [b4|]; [|done]. rewrite Hbody.
  rewrite splice_Some by (rewrite ?zlen_reply_body, ?zlen_app, ?zlen_zdrop by lia; lia).
  do 3 f_equal. rewrite zlen_reply_body, HH by lia.
  rewrite ztake_app_le, (ztake_all 20 h) by lia. do 2 f_equal.
  rewrite zdrop_app_ge, zdrop_zdrop by lia. f_equal. lia.
Qed.

(** [echo_reply] on a parsed datagram never panics.  It
    answers exactly the ICMP echo requests of at least 8 bytes that fit the
    output buffer; the answer parses as an IPv4 datagram with source and
    destination swapped, both checksums valid, and a payload that is the
    request with type and code zeroed and everything from the identifier on
    unchanged.  Anything else yields no reply. *)
Lemma echo_reply_spec b p out :
  bytes_ok b -> new_checked b = Some (Ok p) ->
  exists r, echo_reply p out = Some r /\
    (is_Some r <-> exists request, is_echo_request p out request) /\
    forall request, is_echo_request p out request ->
      exists out' p', r = Some (out', HEADER_LEN + zlen request) /\ zlen out' = zlen out /\
        new_checked (ztake (HEADER_LEN + zlen request) out') = Some (Ok p') /\
        src p' = dst p /\ dst p' = src p /\ protocol p' = Some IPPROTO_ICMP /\
        checksum_valid p' = Some true /\ payload p' = Some (reply_body request) /\
        fold (accumulate 0 (reply_body request)) = U16_MAX.
Proof.
  intros Hok Hnew.
  destruct (checked_fields b p Hnew) as (Hbuf & s & d & proto & body & Hs & Hd & Hproto & Hbody).
  assert (Hview : view p).
  { destruct (ipv4_new_checked_cases b) as (r & Hr & Hc). rewrite Hnew in Hr. injection Hr as <-. by destruct Hc. }
  rewrite <- Hbuf in Hok.
  destruct (view_payload_len p body Hview Hok Hbody) as [H16 Hbok].
  assert (HH : HEADER_LEN = 20) by done.
  assert (Hyes : forall request, is_echo_request p out request -> request = body).
  { intros request (_ & Hp & _). congruence. }
  destruct (classify p out body proto Hproto Hbody) as [(r & Hr & -> & Hno)|Hreq].
  - exists None. split; [done|]. split; [split; [by intros [? ?]|]|]; [intros [q Hq]|intros q Hq];
      pose proof (Hyes q Hq); subst q; done.
  - exists (Some (hdr (reply_repr s d body) ++ reply_body body ++ zdrop (HEADER_LEN + zlen body) out,
     HEADER_LEN + zlen body)).
    split; [apply echo_reply_yes; try done; lia|]. split; [split; eauto|].
    intros request Hq. pose proof (Hyes request Hq). subst request.
    assert (H8 : 8 <= zlen body /\ HEADER_LEN + zlen body <= zlen out)
      by (destruct Hreq as (_ & _ & ? & _ & ?); done).
    assert (Hhdr : zlen (hdr (reply_repr s d body)) = 20) by (destruct s, d; done).
    assert (Hrok : repr_ok (reply_repr s d body)).
    { destruct (view_addrs p s d Hok Hs Hd). split; cbn; try done; unfold is_u8, IPPROTO_ICMP; lia. }
    destruct (emit_parse_core (reply_repr s d body) (zrepeat 0 20 ++ reply_body body))
      as (b' & p' & He & _ & Hn & _ & _ & Hs' & Hd' & Hp' & _ & _ & Hc & Hpay).
    { done. }
    { unfold repr_total_len. cbn [r_payload_len reply_repr].
      rewrite zlen_app, zlen_reply_body by lia. change (zlen (zrepeat 0 20)) with 20. lia. }
    rewrite ipv4_emit_spec in He by (rewrite zlen_app; change (zlen (zrepeat 0 20)) with 20;
      pose proof (zlen_nonneg (reply_body body)); lia).
    apply (inj Some) in He. subst b'. rewrite HH in Hn, Hpay.
    assert (Hz : forall l, zdrop 20 (zrepeat 0 20 ++ l) = l)
      by (intros l; exact (zdrop_app_exact (zrepeat 0 20) l)).
    rewrite Hz in Hn, Hpay.
    eexists _, p'. split; [done|].
    assert (Hb4 : zlen (reply_body body) = zlen body) by (apply zlen_reply_body; lia).
    split; [rewrite !zlen_app, zlen_zdrop; lia|].
    cbn [r_src r_dst r_payload_len r_protocol reply_repr] in *.
    split; [|split_and!; try done; try congruence].
    + rewrite app_assoc. rewrite ztake_app_le by (rewrite zlen_app; lia).
      by rewrite ztake_all by (rewrite zlen_app; lia).
    + rewrite Hpay. by rewrite ztake_all by lia.
    + apply reply_body_valid; [done|lia].
Qed.

Lemma echo_reply_spec_witness :
  let ping := [0x45; 0; 0; 30; 0; 0; 0x40; 0; 64; 1; 0; 0; 10; 0; 0; 1; 10; 0; 0; 2;
               8; 0; 0; 0; 0x12; 0x34; 0; 1; 65; 66] in
  exists p out' p', new_checked ping = Some (Ok p) /\
    echo_reply p (zrepeat 0 64) = Some (Some (out', 30)) /\
    new_checked (ztake 30 out') = Some (Ok p') /\ dst p' = Some (ipv4 10 0 0 1) /\
    payload p' = Some [0; 0; 172; 136; 0x12; 0x34; 0; 1; 65; 66].
Proof.
  intros ping. exists (mkPkt ping).
  destruct (echo_reply_spec ping (mkPkt ping) (zrepeat 0 64)) as (r & Hr & _ & Hq).
  - unfold ping. split_bytes; unfold is_u8; lia.
  - vm_compute. reflexivity.
  - destruct (Hq (zdrop 20 ping)) as (out' & p' & -> & _ & Hn & _ & Hd & _ & _ & Hpay & _).
    + unfold is_echo_request. split; [reflexivity|]. split; [reflexivity|].
      split; [vm_compute; discriminate|]. split; [reflexivity|]. vm_compute; discriminate.
    + exists out', p'. split; [vm_compute; reflexivity|]. split; [exact Hr|].
      split; [exact Hn|]. split; [exact Hd|exact Hpay].
Defined.
