(* ===== verification/TcpWire.v ===== *)
(** TCP views and emitter: [tcp-core/src/wire/tcp.rs].

    As in Ipv4.v a buffer is a list of bytes and every indexing is an
    [option].  The option walker is a loop with fuel, one per octet; [tlvs_of] is
    the option list such a region denotes, and [walk_tlvs] shows that every walk
    over a view is the visit of that list, so the fuel is always enough. *)

From S2P Require Import Prelude Checksum Seq.

Definition TCP_MIN_HEADER_LEN : Z := 20.
Definition TCP_MAX_HEADER_LEN : Z := 60.
Definition MAX_SACK_BLOCKS : Z := 4.

(** [TcpFlags] is its byte. *)
Module TcpFlags.
Definition FIN : Z := 0x01.
Definition SYN : Z := 0x02.
Definition RST : Z := 0x04.
Definition PSH : Z := 0x08.
Definition ACK : Z := 0x10.
Definition URG : Z := 0x20.
Definition ECE : Z := 0x40.
Definition CWR : Z := 0x80.

Definition has (self bit : Z) : bool := negb (Z.land self bit =? 0).
Definition with_ (self bit : Z) : Z := Z.lor self bit.
Definition fin (self : Z) : bool := has self FIN.
Definition syn (self : Z) : bool := has self SYN.
Definition rst (self : Z) : bool := has self RST.
Definition ack (self : Z) : bool := has self ACK.
Definition psh (self : Z) : bool := has self PSH.
Definition ece (self : Z) : bool := has self ECE.
Definition cwr (self : Z) : bool := has self CWR.
End TcpFlags.

Inductive TcpParseError := TcpTruncated | BadDataOffset.

Record TcpPacket := mkSegment { as_bytes : list Z }.

(** *** Accessors *)

Definition src_port (self : TcpPacket) : option Z :=
  let? a := at_ (as_bytes self) 0 in let? b := at_ (as_bytes self) 1 in Some (be16 a b).
Definition dst_port (self : TcpPacket) : option Z :=
  let? a := at_ (as_bytes self) 2 in let? b := at_ (as_bytes self) 3 in Some (be16 a b).
Definition u32_at (l : list Z) (i : Z) : option Z :=
  let? a := at_ l i in let? b := at_ l (i + 1) in
  let? c := at_ l (i + 2) in let? d := at_ l (i + 3) in Some (be32 a b c d).
Definition seq (self : TcpPacket) : option SeqNumber := u32_at (as_bytes self) 4.
Definition ack (self : TcpPacket) : option SeqNumber := u32_at (as_bytes self) 8.
Definition data_offset (self : TcpPacket) : option Z :=
  let? b := at_ (as_bytes self) 12 in Some (Z.shiftr b 4 * 4).
Definition flags (self : TcpPacket) : option Z := at_ (as_bytes self) 13.
Definition ae (self : TcpPacket) : option bool :=
  let? b := at_ (as_bytes self) 12 in Some (negb (Z.land b 0x01 =? 0)).
Definition window (self : TcpPacket) : option Z :=
  let? a := at_ (as_bytes self) 14 in let? b := at_ (as_bytes self) 15 in Some (be16 a b).
Definition checksum_field (self : TcpPacket) : option Z :=
  let? a := at_ (as_bytes self) 16 in let? b := at_ (as_bytes self) 17 in Some (be16 a b).
Definition options (self : TcpPacket) : option (list Z) :=
  let? off := data_offset self in slice (as_bytes self) TCP_MIN_HEADER_LEN off.
Definition payload (self : TcpPacket) : option (list Z) :=
  let? off := data_offset self in slice (as_bytes self) off (zlen (as_bytes self)).

Definition new_checked (b : list Z) : option (Result TcpPacket TcpParseError) :=
  if zlen b <? TCP_MIN_HEADER_LEN then Some (Err TcpTruncated)
  else
    let p := mkSegment b in
    let? data_off := data_offset p in
    if negb ((TCP_MIN_HEADER_LEN <=? data_off) && (data_off <=? TCP_MAX_HEADER_LEN))
    then Some (Err BadDataOffset)
    else if zlen b <? data_off then Some (Err TcpTruncated)
    else Some (Ok p).

(** *** The option walker *)

Fixpoint option_loop {S} (fuel : nat) (f : S -> Z -> list Z -> option S)
    (opts : list Z) (i : Z) (s : S) {struct fuel} : option S :=
  match fuel with
  | O => None
  | Datatypes.S fuel =>
      if i <? zlen opts then
        let? kind := at_ opts i in
        if kind =? 0 then Some s
        else if kind =? 1 then option_loop fuel f opts (i + 1) s
        else if zlen opts <=? i + 1 then Some s
        else
          let? len := at_ opts (i + 1) in
          if (len <? 2) || (zlen opts <? i + len) then Some s
          else
            let? value := slice opts (i + 2) (i + len) in
            let? s := f s kind value in
            option_loop fuel f opts (i + len) s
      else Some s
  end.

Definition for_each_option {S} (self : TcpPacket) (f : S -> Z -> list Z -> option S) (s : S)
  : option S :=
  let? opts := options self in
  option_loop (Datatypes.S (length opts)) f opts 0 s.

Definition mss_visit (mss : option Z) (kind : Z) (value : list Z) : option (option Z) :=
  if (kind =? 2) && (zlen value =? 2) && is_none mss then
    let? a := at_ value 0 in let? b := at_ value 1 in Some (Some (be16 a b))
  else Some mss.
Definition mss_option (self : TcpPacket) : option (option Z) :=
  for_each_option self mss_visit None.

Definition ts_visit (ts : option (Z * Z)) (kind : Z) (value : list Z)
  : option (option (Z * Z)) :=
  if (kind =? 8) && (zlen value =? 8) && is_none ts then
    let? tsval := u32_at value 0 in let? tsecr := u32_at value 4 in
    Some (Some (tsval, tsecr))
  else Some ts.
Definition timestamps (self : TcpPacket) : option (option (Z * Z)) :=
  for_each_option self ts_visit None.

Definition ws_visit (scale : option Z) (kind : Z) (value : list Z) : option (option Z) :=
  if (kind =? 3) && (zlen value =? 1) && is_none scale then
    let? a := at_ value 0 in Some (Some (Z.min a 14))
  else Some scale.
Definition window_scale (self : TcpPacket) : option (option Z) :=
  for_each_option self ws_visit None.

Definition sp_visit (permitted : bool) (kind : Z) (value : list Z) : option bool :=
  if (kind =? 4) && (zlen value =? 0) then Some true else Some permitted.
Definition sack_permitted (self : TcpPacket) : option bool :=
  for_each_option self sp_visit false.

(** [sack_blocks]: the blocks array and the count [n]. *)
Fixpoint sack_value_loop (fuel : nat) (value : list Z) (j : Z)
    (st : list (SeqNumber * SeqNumber) * Z) {struct fuel}
  : option (list (SeqNumber * SeqNumber) * Z) :=
  match fuel with
  | O => None
  | Datatypes.S fuel =>
      let '(out, n) := st in
      if (j + 8 <=? zlen value) && (n <? MAX_SACK_BLOCKS) then
        let? lft := u32_at value j in
        let? rgt := u32_at value (j + 4) in
        let? out := store out n (lft, rgt) in
        sack_value_loop fuel value (j + 8) (out, n + 1)
      else Some (out, n)
  end.
Definition sack_visit (st : list (SeqNumber * SeqNumber) * Z) (kind : Z) (value : list Z)
  : option (list (SeqNumber * SeqNumber) * Z) :=
  if negb (kind =? 5) then Some st
  else sack_value_loop (Datatypes.S (length value)) value 0 st.
Definition sack_blocks (self : TcpPacket) (out : list (SeqNumber * SeqNumber))
  : option (list (SeqNumber * SeqNumber) * Z) :=
  for_each_option self sack_visit (out, 0).

(** *** The emitter *)

Record SackBlocks := mkSackBlocks {
  blocks : list (SeqNumber * SeqNumber);
  sack_len : Z;
}.
Definition SackBlocks_default : SackBlocks :=
  mkSackBlocks (zrepeat (0, 0) MAX_SACK_BLOCKS) 0.
Definition sack_is_empty (self : SackBlocks) : bool := sack_len self =? 0.
Definition push (self : SackBlocks) (left right : SeqNumber) : option SackBlocks :=
  if sack_len self <? MAX_SACK_BLOCKS then
    let? b := store (blocks self) (sack_len self) (left, right) in
    Some (mkSackBlocks b (sack_len self + 1))
  else Some self.

Record TcpRepr := mkTcpRepr {
  t_src_port : Z;
  t_dst_port : Z;
  t_seq : SeqNumber;
  t_ack : SeqNumber;
  t_flags : Z;
  t_window : Z;
  t_mss : option Z;
  t_sack_permitted : bool;
  t_sack : SackBlocks;
  t_window_scale : option Z;
  t_timestamps : option (Z * Z);
  t_ae : bool;
}.

Definition sack_blocks_to_emit (self : TcpRepr) : Z :=
  let cap := if is_some (t_timestamps self) then 3 else MAX_SACK_BLOCKS in
  Z.min (sack_len (t_sack self)) cap.

Definition header_len (self : TcpRepr) : Z :=
  let opt := 0 in
  let opt := if is_some (t_mss self) then opt + 4 else opt in
  let opt := if t_sack_permitted self then opt + 4 else opt in
  let opt := if is_some (t_window_scale self) then opt + 4 else opt in
  let opt := if is_some (t_timestamps self) then opt + 12 else opt in
  let n := sack_blocks_to_emit self in
  let opt := if 0 <? n then opt + (4 + 8 * n) else opt in
  TCP_MIN_HEADER_LEN + opt.

(** The option section of [emit], one definition per option; the pair is the
    buffer and the write offset [o]. *)
Definition emit_mss (self : TcpRepr) (st : list Z * Z) : option (list Z * Z) :=
  let '(b, o) := st in
  match t_mss self with
  | Some mss =>
      let? b := store b (o + 0) 2 in
      let? b := store b (o + 1) 4 in
      let? b := splice b (o + 2) (to_be16 mss) in
      Some (b, o + 4)
  | None => Some (b, o)
  end.
Definition emit_sack_permitted (self : TcpRepr) (st : list Z * Z) : option (list Z * Z) :=
  let '(b, o) := st in
  if t_sack_permitted self then
    let? b := store b (o + 0) 1 in
    let? b := store b (o + 1) 1 in
    let? b := store b (o + 2) 4 in
    let? b := store b (o + 3) 2 in
    Some (b, o + 4)
  else Some (b, o).
Definition emit_window_scale (self : TcpRepr) (st : list Z * Z) : option (list Z * Z) :=
  let '(b, o) := st in
  match t_window_scale self with
  | Some shift =>
      let? b := store b (o + 0) 1 in
      let? b := store b (o + 1) 3 in
      let? b := store b (o + 2) 3 in
      let? b := store b (o + 3) shift in
      Some (b, o + 4)
  | None => Some (b, o)
  end.
Definition emit_timestamps (self : TcpRepr) (st : list Z * Z) : option (list Z * Z) :=
  let '(b, o) := st in
  match t_timestamps self with
  | Some (tsval, tsecr) =>
      let? b := store b (o + 0) 1 in
      let? b := store b (o + 1) 1 in
      let? b := store b (o + 2) 8 in
      let? b := store b (o + 3) 10 in
      let? b := splice b (o + 4) (to_be32 tsval) in
      let? b := splice b (o + 8) (to_be32 tsecr) in
      Some (b, o + 12)
  | None => Some (b, o)
  end.
Fixpoint emit_blocks (bs : list (SeqNumber * SeqNumber)) (st : list Z * Z)
  : option (list Z * Z) :=
  match bs with
  | [] => Some st
  | (lft, rgt) :: bs =>
      let '(b, o) := st in
      let? b := splice b (o + 0) (to_be32 lft) in
      let? b := splice b (o + 4) (to_be32 rgt) in
      emit_blocks bs (b, o + 8)
  end.
Definition emit_sack (self : TcpRepr) (st : list Z * Z) : option (list Z * Z) :=
  let '(b, o) := st in
  let n := sack_blocks_to_emit self in
  if 0 <? n then
    let? b := store b (o + 0) 1 in
    let? b := store b (o + 1) 1 in
    let? b := store b (o + 2) 5 in
    let? b := store b (o + 3) (wrap8 (2 + 8 * n)) in
    let? bs := slice (blocks (t_sack self)) 0 n in
    emit_blocks bs (b, o + 4)
  else Some (b, o).

(** [emit]: the buffer after the call and the segment length. *)
Definition emit (self : TcpRepr) (src dst : Ipv4Addr) (data : list Z) (b : list Z)
  : option (list Z * Z) :=
  let hlen := header_len self in
  let total := hlen + zlen data in
  let? b := splice b 0 (to_be16 (t_src_port self)) in
  let? b := splice b 2 (to_be16 (t_dst_port self)) in
  let? b := splice b 4 (to_be32 (t_seq self)) in
  let? b := splice b 8 (to_be32 (t_ack self)) in
  let? b := store b 12 (Z.lor (wrap8 (Z.shiftl (wrap8 (hlen / 4)) 4)) (Z.b2z (t_ae self))) in
  let? b := store b 13 (t_flags self) in
  let? b := splice b 14 (to_be16 (t_window self)) in
  let? b := splice b 16 [0; 0] in
  let? b := splice b 18 [0; 0] in
  let? st := emit_mss self (b, TCP_MIN_HEADER_LEN) in
  let? st := emit_sack_permitted self st in
  let? st := emit_window_scale self st in
  let? st := emit_timestamps self st in
  let? st := emit_sack self st in
  let '(b, o) := st in
  let? b := splice b hlen data in
  let? seg := slice b 0 total in
  let csum := tcp_checksum src dst seg in
  let? b := splice b 16 (to_be16 csum) in
  Some (b, total).

(** ** The option grammar

    [tlvs_of opts ts]: reading [opts] from its first byte meets exactly the
    options [ts], NOPs skipped, stopping at the end, at EOL, or at the first
    truncated or malformed option. *)

Inductive tlvs_of : list Z -> list (Z * list Z) -> Prop :=
| tlvs_nil : tlvs_of [] []
| tlvs_eol rest : tlvs_of (0 :: rest) []
| tlvs_nop rest ts : tlvs_of rest ts -> tlvs_of (1 :: rest) ts
| tlvs_cut kind : kind <> 0 -> kind <> 1 -> tlvs_of [kind] []
| tlvs_bad kind len body :
    kind <> 0 -> kind <> 1 -> len < 2 \/ zlen body + 2 < len ->
    tlvs_of (kind :: len :: body) []
| tlvs_tlv kind value rest ts :
    kind <> 0 -> kind <> 1 -> tlvs_of rest ts ->
    tlvs_of (kind :: zlen value + 2 :: value ++ rest) ((kind, value) :: ts).

(** Visiting a list of options in order. *)
Fixpoint visit_all {S} (f : S -> Z -> list Z -> option S) (ts : list (Z * list Z)) (s : S)
  : option S :=
  match ts with
  | [] => Some s
  | (kind, value) :: ts => let? s := f s kind value in visit_all f ts s
  end.

Section walker.
Context {S : Type} (f : S -> Z -> list Z -> option S).

Lemma option_loop_shift fuel pre l i s :
  0 <= i ->
  option_loop fuel f (pre ++ l) (zlen pre + i) s = option_loop fuel f l i s.
Proof.
  pose proof (zlen_nonneg pre) as Hp.
  revert i s. induction fuel as [|fuel IH]; intros i s Hi; [done|]. cbn [option_loop].
  rewrite zlen_app. replace (zlen pre + i <? _) with (i <? zlen l) by lia.
  destruct (i <? zlen l); [|done].
  rewrite at_app_r by lia. replace (zlen pre + i - zlen pre) with i by lia.
  destruct (at_ l i) as [kind|]; [|done].
  destruct (kind =? 0); [done|]. rewrite <- Z.add_assoc, IH by lia.
  destruct (kind =? 1); [done|].
  replace (zlen pre + zlen l <=? _) with (zlen l <=? i + 1) by lia.
  destruct (zlen l <=? i + 1); [done|].
  rewrite at_app_r by lia. replace (zlen pre + (i + 1) - zlen pre) with (i + 1) by lia.
  destruct (at_ l (i + 1)) as [len|]; [|done].
  replace (zlen pre + zlen l <? _) with (zlen l <? i + len) by lia.
  destruct (_ || _) eqn:E; [done|].
  rewrite !slice_Some by (rewrite ?zlen_app; lia).
  rewrite zdrop_app_ge by lia.
  replace (zlen pre + i + 2 - zlen pre) with (i + 2) by lia.
  replace (zlen pre + i + len - (zlen pre + i + 2)) with (i + len - (i + 2)) by lia.
  destruct (f s kind _); [|done]. rewrite <- Z.add_assoc. apply IH. lia.
Qed.

Lemma option_loop_tlvs l ts :
  tlvs_of l ts ->
  forall fuel s, (length l < fuel)%nat -> option_loop fuel f l 0 s = visit_all f ts s.
Proof.
  induction 1 as [|rest|rest ts _ IH|kind H0 H1|kind len body H0 H1 Hbad|kind v rest ts H0 H1 _ IH];
    intros fuel s Hfuel; destruct fuel as [|fuel]; cbn [length] in *; try lia;
    cbn [option_loop]; rewrite ?zlen_cons; try done.
  - pose proof (zlen_nonneg rest). destruct (0 <? _) eqn:?; [done|lia].
  - pose proof (zlen_nonneg rest). destruct (0 <? _) eqn:?; [|lia].
    change (at_ _ 0) with (Some 1). cbn [Z.eqb Pos.eqb].
    change (0 + 1) with (zlen [1] + 0). rewrite (option_loop_shift fuel [1] rest 0) by lia.
    apply IH. lia.
  - change (0 <? 1 + zlen []) with true. cbv iota. change (at_ _ 0) with (Some kind). cbv iota.
    destruct (kind =? 0) eqn:?; [done|]. destruct (kind =? 1) eqn:?; [lia|]. done.
  - pose proof (zlen_nonneg body). destruct (0 <? _) eqn:?; [|lia].
    change (at_ _ 0) with (Some kind). cbv iota.
    destruct (kind =? 0) eqn:?; [done|]. destruct (kind =? 1) eqn:?; [lia|].
    destruct (_ <=? 0 + 1) eqn:?; [lia|]. change (at_ _ (0 + 1)) with (Some len). cbv iota.
    destruct (_ || _) eqn:?; [done|lia].
  - rewrite zlen_app. pose proof (zlen_nonneg v). pose proof (zlen_nonneg rest).
    destruct (0 <? _) eqn:?; [|lia].
    change (at_ _ 0) with (Some kind). cbv iota.
    destruct (kind =? 0) eqn:?; [lia|]. destruct (kind =? 1) eqn:?; [lia|].
    destruct (_ <=? 0 + 1) eqn:?; [lia|]. change (at_ _ (0 + 1)) with (Some (zlen v + 2)).
    cbv iota. destruct (_ || _) eqn:?; [lia|].
    rewrite slice_Some by (rewrite ?zlen_cons, ?zlen_app; lia).
    replace (0 + (zlen v + 2) - (0 + 2)) with (zlen v) by lia.
    change (zdrop (0 + 2) (kind :: zlen v + 2 :: v ++ rest)) with (zdrop 0 (v ++ rest)).
    rewrite zdrop_0, ztake_app_exact by lia. cbn [visit_all].
    destruct (f s kind v) as [s'|]; [|done].
    rewrite <- (IH fuel) by (rewrite length_app in Hfuel; lia).
    rewrite <- (option_loop_shift fuel (kind :: zlen v + 2 :: v) rest 0) by lia.
    f_equal. rewrite !zlen_cons. lia.
Qed.
End walker.

(** Every byte string reads as exactly one list of options. *)
Lemma tlvs_of_exists n l : (length l <= n)%nat -> exists ts, tlvs_of l ts.
Proof.
  revert l. induction n as [|n IH]; intros l Hl.
  { destruct l; [|cbn in Hl; lia]. exists []. constructor. }
  destruct l as [|kind l]; [exists []; constructor|]. cbn in Hl.
  destruct (decide (kind = 0)) as [->|H0]; [exists []; constructor|].
  destruct (decide (kind = 1)) as [->|H1].
  { destruct (IH l ltac:(lia)) as [ts Hts]. exists ts. by constructor. }
  destruct l as [|len body]; [exists []; by constructor|]. cbn in Hl.
  destruct (decide (len < 2 \/ zlen body + 2 < len)) as [Hbad|Hgood]; [exists []; by constructor|].
  destruct (IH (zdrop (len - 2) body)) as [ts Hts].
  { unfold zdrop. rewrite length_drop. lia. }
  exists ((kind, ztake (len - 2) body) :: ts).
  rewrite <- (ztake_zdrop (len - 2) body) at 1.
  assert (zlen (ztake (len - 2) body) + 2 = len) as E by (rewrite zlen_ztake; lia).
  rewrite <- E at 1. by constructor.
Qed.

Lemma tlvs_of_fun l ts ts' : tlvs_of l ts -> tlvs_of l ts' -> ts = ts'.
Proof.
  intros H H'.
  pose proof (option_loop_tlvs (fun s k v => Some (s ++ [(k, v)])) l ts H (S (length l)) [] ltac:(lia)) as E.
  rewrite (option_loop_tlvs _ l ts' H' (S (length l)) [] ltac:(lia)) in E.
  assert (Hv : forall ts acc, visit_all (fun s k v => Some (s ++ [(k, v)])) ts acc = Some (acc ++ ts)).
  { clear. induction ts as [|[k v] ts IH]; intros acc; cbn; [by rewrite app_nil_r|].
    by rewrite IH, <- app_assoc. }
  rewrite !Hv in E. by injection E.
Qed.

(** ** Views never panic *)

Lemma u32_at_is_Some l i : 0 <= i -> i + 4 <= zlen l -> is_Some (u32_at l i).
Proof.
  intros Hi Hl. unfold u32_at.
  destruct (at_is_Some l i ltac:(lia)) as [? ->], (at_is_Some l (i + 1) ltac:(lia)) as [? ->],
    (at_is_Some l (i + 2) ltac:(lia)) as [? ->], (at_is_Some l (i + 3) ltac:(lia)) as [? ->].
  by eexists.
Qed.

(** What a successful parse establishes. *)
Record view (p : TcpPacket) (off : Z) : Prop := {
  vt_off : data_offset p = Some off;
  vt_range : TCP_MIN_HEADER_LEN <= off <= TCP_MAX_HEADER_LEN;
  vt_len : off <= zlen (as_bytes p);
}.

Lemma new_checked_cases b :
  exists r, new_checked b = Some r /\
    match r with Ok p => as_bytes p = b /\ exists off, view p off | Err _ => True end.
Proof.
  unfold new_checked. destruct (zlen b <? _) eqn:Hlen; [by eexists|].
  unfold TCP_MIN_HEADER_LEN, TCP_MAX_HEADER_LEN in *.
  destruct (at_is_Some b 12 ltac:(lia)) as [b12 H12].
  unfold data_offset at 1; cbn [as_bytes]. rewrite H12.
  destruct (negb _) eqn:Hr; [by eexists|].
  destruct (zlen b <? Z.shiftr b12 4 * 4) eqn:Ht; [by eexists|].
  eexists; split; [done|]. split; [done|]. exists (Z.shiftr b12 4 * 4).
  split; unfold TCP_MIN_HEADER_LEN, TCP_MAX_HEADER_LEN; cbn [as_bytes]; [|lia|lia].
  unfold data_offset; cbn [as_bytes]. by rewrite H12.
Qed.

Lemma view_options p off :
  view p off -> options p = Some (ztake (off - 20) (zdrop 20 (as_bytes p))).
Proof.
  intros [Ho Hr Hl]. unfold options, TCP_MIN_HEADER_LEN in *. rewrite Ho. by rewrite slice_Some by lia.
Qed.

(** Any walk over a view is the visit of its option list. *)
Lemma walk_tlvs {S} p off ts (f : S -> Z -> list Z -> option S) s :
  view p off -> tlvs_of (ztake (off - 20) (zdrop 20 (as_bytes p))) ts ->
  for_each_option p f s = visit_all f ts s.
Proof.
  intros Hv Hts. unfold for_each_option. rewrite (view_options p off Hv).
  apply option_loop_tlvs; [done|lia].
Qed.

Lemma visit_all_inv {S} (P : S -> Prop) (f : S -> Z -> list Z -> option S) ts s :
  (forall s k v, P s -> exists s', f s k v = Some s' /\ P s') -> P s ->
  exists s', visit_all f ts s = Some s' /\ P s'.
Proof.
  intros Hf. revert s. induction ts as [|[k v] ts IH]; intros s Hs; cbn; [eauto|].
  destruct (Hf s k v Hs) as (s' & -> & Hs'). by apply IH.
Qed.

Lemma sack_value_loop_total fuel value j out n :
  0 <= j <= zlen value + 8 -> 0 <= n <= MAX_SACK_BLOCKS -> zlen out = MAX_SACK_BLOCKS ->
  (Z.to_nat (zlen value - j) < fuel)%nat ->
  exists out' n', sack_value_loop fuel value j (out, n) = Some (out', n') /\
    0 <= n' <= MAX_SACK_BLOCKS /\ zlen out' = MAX_SACK_BLOCKS.
Proof.
  revert j out n. induction fuel as [|fuel IH]; intros j out n Hj Hn Ho Hf; [lia|].
  cbn [sack_value_loop]. destruct (_ && _) eqn:E; [|eauto].
  destruct (u32_at_is_Some value j) as [lft ->]; [lia..|].
  destruct (u32_at_is_Some value (j + 4)) as [rgt ->]; [lia..|].
  destruct (store out n (lft, rgt)) as [out'|] eqn:Es.
  - apply IH; try lia. by rewrite (zlen_splice _ _ _ _ Es).
  - unfold store in Es. rewrite splice_Some in Es by (autorewrite with zlen; lia). done.
Qed.

Definition sack_state (st : list (SeqNumber * SeqNumber) * Z) : Prop :=
  0 <= st.2 <= MAX_SACK_BLOCKS /\ zlen st.1 = MAX_SACK_BLOCKS.

Lemma sack_visit_total st kind value :
  sack_state st -> exists st', sack_visit st kind value = Some st' /\ sack_state st'.
Proof.
  destruct st as [out n]. intros [Hn Ho]; cbn in Hn, Ho. unfold sack_visit.
  destruct (negb _); [by eexists|].
  destruct (sack_value_loop_total (S (length value)) value 0 out n) as (out' & n' & -> & ? & ?);
    try done; try (unfold zlen; lia). by eexists.
Qed.

Lemma option_accessors_total p off ts out :
  view p off -> tlvs_of (ztake (off - 20) (zdrop 20 (as_bytes p))) ts ->
  zlen out = MAX_SACK_BLOCKS ->
  is_Some (mss_option p) /\ is_Some (timestamps p) /\ is_Some (sack_permitted p) /\
  (exists ws, window_scale p = Some ws /\ forall w, ws = Some w -> w <= 14) /\
  (exists bs n, sack_blocks p out = Some (bs, n) /\ 0 <= n <= MAX_SACK_BLOCKS /\
    zlen bs = MAX_SACK_BLOCKS).
Proof.
  intros Hv Hts Hout. unfold mss_option, timestamps, sack_permitted, window_scale, sack_blocks.
  rewrite !(walk_tlvs p off ts) by done.
  split; [|split; [|split; [|split]]].
  - destruct (visit_all_inv (fun _ => True) mss_visit ts None) as (? & -> & _); [|done|by eexists].
    intros s k v _. unfold mss_visit. destruct (_ && _) eqn:E; [|by eexists].
    destruct (at_is_Some v 0 ltac:(lia)) as [? ->], (at_is_Some v 1 ltac:(lia)) as [? ->]. by eexists.
  - destruct (visit_all_inv (fun _ => True) ts_visit ts None) as (? & -> & _); [|done|by eexists].
    intros s k v _. unfold ts_visit. destruct (_ && _) eqn:E; [|by eexists].
    destruct (u32_at_is_Some v 0) as [? ->]; [lia..|].
    destruct (u32_at_is_Some v 4) as [? ->]; [lia..|]. by eexists.
  - destruct (visit_all_inv (fun _ => True) sp_visit ts false) as (? & -> & _); [|done|by eexists].
    intros s k v _. unfold sp_visit. destruct (_ && _); by eexists.
  - apply visit_all_inv; [|done].
    intros s k v Hs. unfold ws_visit. destruct (_ && _) eqn:E; [|eauto].
    destruct (at_is_Some v 0 ltac:(lia)) as [x ->]. eexists; split; [done|].
    intros w [= <-]. lia.
  - destruct (visit_all_inv sack_state sack_visit ts (out, 0)) as ([bs n] & -> & Hn & Hl).
    { intros; by apply sack_visit_total. }
    { split; cbn; [unfold MAX_SACK_BLOCKS; lia|done]. }
    by exists bs, n.
Qed.

(** Parsing a TCP segment never panics and no accessor of a
    successful parse does: every header field is readable, options and payload
    are exactly the bytes before and after the data offset, and on ANY option
    bytes the option walker terminates within its fuel and visits exactly the
    options of the grammar [tlvs_of], which reads every byte string in exactly
    one way.  The option accessors built on it return, the window scale is at
    most 14 and at most four SACK blocks are reported. *)
Lemma segment_accessors_total b :
  exists r, new_checked b = Some r /\
  forall p, r = Ok p -> exists off ts,
    as_bytes p = b /\ data_offset p = Some off /\ TCP_MIN_HEADER_LEN <= off <= TCP_MAX_HEADER_LEN /\
    is_Some (src_port p) /\ is_Some (dst_port p) /\ is_Some (seq p) /\ is_Some (ack p) /\
    is_Some (flags p) /\ is_Some (ae p) /\ is_Some (window p) /\ is_Some (checksum_field p) /\
    payload p = Some (zdrop off b) /\
    (exists opts, options p = Some opts /\ zlen opts = off - TCP_MIN_HEADER_LEN /\
      (forall ts', tlvs_of opts ts' <-> ts' = ts)) /\
    (forall S (f : S -> Z -> list Z -> option S) s, for_each_option p f s = visit_all f ts s) /\
    is_Some (mss_option p) /\ is_Some (timestamps p) /\ is_Some (sack_permitted p) /\
    (exists ws, window_scale p = Some ws /\ forall w, ws = Some w -> w <= 14) /\
    (forall out, zlen out = MAX_SACK_BLOCKS -> exists bs n, sack_blocks p out = Some (bs, n) /\
      0 <= n <= MAX_SACK_BLOCKS /\ zlen bs = MAX_SACK_BLOCKS).
Proof.
  destruct (new_checked_cases b) as (r & Hr & Hcase). exists r. split; [done|].
  intros p ->. destruct Hcase as (Hbuf & off & Hv). pose proof Hv as [Ho Hrange Hl].
  unfold TCP_MIN_HEADER_LEN, TCP_MAX_HEADER_LEN in *.
  destruct (tlvs_of_exists _ (ztake (off - 20) (zdrop 20 (as_bytes p))) (Nat.le_refl _)) as [ts Hts].
  destruct (option_accessors_total p off ts (zrepeat (0, 0) 4) Hv Hts eq_refl) as (? & ? & ? & ? & _).
  assert (Hat : forall i, 0 <= i < 20 -> exists x, at_ (as_bytes p) i = Some x).
  { intros i Hi'. apply at_is_Some. lia. }
  exists off, ts. split_and!; try done; try lia.
  - unfold src_port. destruct (Hat 0 ltac:(lia)) as [? ->], (Hat 1 ltac:(lia)) as [? ->]. by eexists.
  - unfold dst_port. destruct (Hat 2 ltac:(lia)) as [? ->], (Hat 3 ltac:(lia)) as [? ->]. by eexists.
  - apply u32_at_is_Some; lia.
  - apply u32_at_is_Some; lia.
  - by apply Hat.
  - unfold ae. destruct (Hat 12 ltac:(lia)) as [? ->]. by eexists.
  - unfold window. destruct (Hat 14 ltac:(lia)) as [? ->], (Hat 15 ltac:(lia)) as [? ->]. by eexists.
  - unfold checksum_field. destruct (Hat 16 ltac:(lia)) as [? ->], (Hat 17 ltac:(lia)) as [? ->].
    by eexists.
  - unfold payload. rewrite Ho, slice_Some by lia. subst b.
    by rewrite ztake_all by (rewrite zlen_zdrop; lia).
  - exists (ztake (off - 20) (zdrop 20 (as_bytes p))). split; [by apply view_options|].
    split; [rewrite zlen_ztake, zlen_zdrop; lia|].
    intros ts'. split; [intros Hts'; by eapply tlvs_of_fun|by intros ->].
  - intros. by apply (walk_tlvs p off).
  - intros out Hout. by apply (option_accessors_total p off ts out).
Qed.

(** ** The emitter's output *)

Definition enc_mss (r : TcpRepr) : list Z :=
  match t_mss r with Some m => [2; 4] ++ to_be16 m | None => [] end.
Definition enc_sack_permitted (r : TcpRepr) : list Z :=
  if t_sack_permitted r then [1; 1; 4; 2] else [].
Definition enc_window_scale (r : TcpRepr) : list Z :=
  match t_window_scale r with Some s => [1; 3; 3; s] | None => [] end.
Definition enc_timestamps (r : TcpRepr) : list Z :=
  match t_timestamps r with
  | Some (v, e) => [1; 1; 8; 10] ++ to_be32 v ++ to_be32 e
  | None => []
  end.
Definition enc_blocks (bs : list (SeqNumber * SeqNumber)) : list Z :=
  flat_map (fun '(lft, rgt) => to_be32 lft ++ to_be32 rgt) bs.
Definition emitted_blocks (r : TcpRepr) : list (SeqNumber * SeqNumber) :=
  ztake (sack_blocks_to_emit r) (blocks (t_sack r)).
Definition enc_sack (r : TcpRepr) : list Z :=
  if 0 <? sack_blocks_to_emit r
  then [1; 1; 5; 2 + 8 * sack_blocks_to_emit r] ++ enc_blocks (emitted_blocks r) else [].
Definition opt_bytes (r : TcpRepr) : list Z :=
  enc_mss r ++ enc_sack_permitted r ++ enc_window_scale r ++ enc_timestamps r ++ enc_sack r.

(** What an emitter may be asked to emit: fields in their widths, and options
    that fit (the MSS/SACK-permitted/window-scale options belong to SYNs, SACK
    blocks to other segments, so the code never mixes them). *)
Record tcp_repr_ok (r : TcpRepr) : Prop := {
  tr_src_port : is_u16 (t_src_port r);
  tr_dst_port : is_u16 (t_dst_port r);
  tr_seq : is_u32 (t_seq r);
  tr_ack : is_u32 (t_ack r);
  tr_flags : is_u8 (t_flags r);
  tr_window : is_u16 (t_window r);
  tr_mss : forall m, t_mss r = Some m -> is_u16 m;
  tr_scale : forall s, t_window_scale r = Some s -> 0 <= s <= 14;
  tr_ts : forall v e, t_timestamps r = Some (v, e) -> is_u32 v /\ is_u32 e;
  tr_blocks : zlen (blocks (t_sack r)) = MAX_SACK_BLOCKS /\
    Forall (fun b => is_u32 b.1 /\ is_u32 b.2) (blocks (t_sack r));
  tr_sack_len : 0 <= sack_len (t_sack r) <= MAX_SACK_BLOCKS;
  tr_fits : header_len r <= TCP_MAX_HEADER_LEN;
}.

Lemma zlen_enc_blocks bs : zlen (enc_blocks bs) = 8 * zlen bs.
Proof.
  induction bs as [|[l r] bs IH]; [done|]. cbn [enc_blocks flat_map].
  rewrite !zlen_app, zlen_cons, !zlen_to_be32. unfold enc_blocks in IH. lia.
Qed.

Lemma blocks_to_emit_range r :
  tcp_repr_ok r -> 0 <= sack_blocks_to_emit r <= MAX_SACK_BLOCKS /\
    zlen (emitted_blocks r) = sack_blocks_to_emit r.
Proof.
  intros Hr. destruct (tr_blocks _ Hr) as [Hb _]. pose proof (tr_sack_len _ Hr) as Hl.
  unfold emitted_blocks. rewrite zlen_ztake, Hb. unfold sack_blocks_to_emit, MAX_SACK_BLOCKS in *.
  destruct (is_some _); lia.
Qed.

(** [header_len] accounts for exactly the bytes [emit] lays down: the code's
    two debug assertions and the final [o == hlen] one. *)
Lemma header_len_opt r :
  tcp_repr_ok r -> header_len r = TCP_MIN_HEADER_LEN + zlen (opt_bytes r) /\
    header_len r mod 4 = 0 /\ TCP_MIN_HEADER_LEN <= header_len r.
Proof.
  intros Hr. destruct (blocks_to_emit_range r Hr) as [Hn Hz].
  unfold header_len, opt_bytes, enc_mss, enc_sack_permitted, enc_window_scale, enc_timestamps,
    enc_sack, TCP_MIN_HEADER_LEN, MAX_SACK_BLOCKS in *.
  destruct (t_mss r), (t_sack_permitted r), (t_window_scale r), (t_timestamps r) as [[]|];
    cbn [is_some]; destruct (0 <? sack_blocks_to_emit r) eqn:E;
    rewrite !zlen_app, ?zlen_to_be16, ?zlen_to_be32, ?zlen_enc_blocks, ?Hz; autorewrite with zlen;
    (split; [lia|split; [zmod|lia]]).
Qed.

Lemma emit_step (pre rest : list Z) (k : Z) d d' n :
  0 <= k -> splice rest k d = Some d' -> n = zlen pre ->
  splice (pre ++ rest) (n + k) d = Some (pre ++ d').
Proof. intros Hk Hs ->. rewrite splice_app by done. by rewrite Hs. Qed.

(** The stores of one option, run on the unwritten part of the buffer. *)
Ltac run_option :=
  repeat (unfold store; erewrite emit_step;
    [| lia
     | rewrite splice_Some by (unfold to_be16, to_be32; autorewrite with zlen in *; lia);
       unfold to_be16, to_be32, ztake, zdrop; autorewrite with zlen;
       eval_offsets; eval_to_nat; cbn [take drop app]; rewrite ?drop_0; reflexivity
     | reflexivity]);
  rewrite <- ?app_assoc; unfold to_be16, to_be32; cbn [app].

Definition writes (step : list Z * Z -> option (list Z * Z)) (enc : list Z) : Prop :=
  forall pre rest, zlen enc <= zlen rest ->
    step (pre ++ rest, zlen pre) = Some ((pre ++ enc) ++ zdrop (zlen enc) rest, zlen (pre ++ enc)).

Lemma writes_nil step :
  (forall st, step st = Some st) -> writes step [].
Proof. intros H pre rest _. rewrite H, !(app_nil_r pre), zdrop_0; [done|]. rewrite zlen_nil. lia. Qed.

Lemma emit_mss_writes r : writes (emit_mss r) (enc_mss r).
Proof.
  unfold emit_mss, enc_mss. destruct (t_mss r) as [m|]; [|apply writes_nil; by intros []].
  intros pre rest Hl. unfold to_be16 in Hl. expose rest 4%nat.
  run_option. do 2 f_equal. rewrite zlen_app. done.
Qed.
Lemma emit_sack_permitted_writes r : writes (emit_sack_permitted r) (enc_sack_permitted r).
Proof.
  unfold emit_sack_permitted, enc_sack_permitted.
  destruct (t_sack_permitted r); [|apply writes_nil; by intros []].
  intros pre rest Hl. expose rest 4%nat.
  run_option. do 2 f_equal. rewrite zlen_app. done.
Qed.
Lemma emit_window_scale_writes r : writes (emit_window_scale r) (enc_window_scale r).
Proof.
  unfold emit_window_scale, enc_window_scale.
  destruct (t_window_scale r); [|apply writes_nil; by intros []].
  intros pre rest Hl. expose rest 4%nat.
  run_option. do 2 f_equal. rewrite zlen_app. done.
Qed.
Lemma emit_timestamps_writes r : writes (emit_timestamps r) (enc_timestamps r).
Proof.
  unfold emit_timestamps, enc_timestamps.
  destruct (t_timestamps r) as [[v e]|]; [|apply writes_nil; by intros []].
  intros pre rest Hl. unfold to_be32 in Hl. expose rest 12%nat.
  run_option. do 2 f_equal. rewrite zlen_app. done.
Qed.
Lemma writes_bind f g e1 e2 :
  writes f e1 -> writes g e2 -> writes (fun st => let? st' := f st in g st') (e1 ++ e2).
Proof.
  intros Hf Hg pre rest Hl. rewrite zlen_app in Hl.
  pose proof (zlen_nonneg e1). pose proof (zlen_nonneg e2).
  rewrite Hf by lia. rewrite Hg by (rewrite zlen_zdrop; lia).
  rewrite !zlen_app, zdrop_zdrop by lia. do 2 f_equal; [|lia].
  rewrite !app_assoc. f_equal. f_equal. lia.
Qed.

Lemma emit_blocks_writes bs : writes (emit_blocks bs) (enc_blocks bs).
Proof.
  induction bs as [|[l r] bs IH]; [apply writes_nil; by intros []|].
  apply (writes_bind (fun st => let '(b, o) := st in
      let? b := splice b (o + 0) (to_be32 l) in
      let? b := splice b (o + 4) (to_be32 r) in Some (b, o + 8)) _ (to_be32 l ++ to_be32 r)) in IH.
  - intros pre rest Hl. specialize (IH pre rest). cbn [enc_blocks flat_map emit_blocks].
    unfold enc_blocks in *. rewrite <- IH by done.
    destruct (splice _ _ _); [|done]. by destruct (splice _ _ _).
  - intros pre rest Hl. unfold to_be32 in Hl. expose rest 8%nat.
    run_option. do 2 f_equal. rewrite zlen_app. done.
Qed.

Lemma emit_sack_writes r : tcp_repr_ok r -> writes (emit_sack r) (enc_sack r).
Proof.
  intros Hr. destruct (blocks_to_emit_range r Hr) as [Hn Hz].
  destruct (tr_blocks _ Hr) as [Hb _]. unfold emit_sack, enc_sack, MAX_SACK_BLOCKS in *.
  destruct (0 <? _); [|apply writes_nil; by intros []].
  eassert (H : writes _ ([1; 1; 5; 2 + 8 * sack_blocks_to_emit r] ++ enc_blocks (emitted_blocks r))).
  { apply (writes_bind (fun st => let '(b, o) := st in
      let? b := store b (o + 0) 1 in let? b := store b (o + 1) 1 in
      let? b := store b (o + 2) 5 in
      let? b := store b (o + 3) (wrap8 (2 + 8 * sack_blocks_to_emit r)) in Some (b, o + 4)));
      [|apply emit_blocks_writes].
    intros pre rest Hl. expose rest 4%nat.
    rewrite wrap8_small by (unfold is_u8; lia).
    run_option. do 2 f_equal. rewrite zlen_app. done. }
  intros pre rest Hl. rewrite <- H by done.
  destruct (store _ _ _) as [b1|]; [|done]. destruct (store b1 _ _) as [b2|]; [|done].
  destruct (store b2 _ _) as [b3|]; [|done]. destruct (store b3 _ _) as [b4|]; [|done].
  rewrite slice_Some by lia. by rewrite zdrop_0, Z.sub_0_r by lia.
Qed.

(** The sixteen bytes before the checksum, and the segment [emit] produces. *)
Definition tcp_head (r : TcpRepr) : list Z :=
  to_be16 (t_src_port r) ++ to_be16 (t_dst_port r) ++ to_be32 (t_seq r) ++ to_be32 (t_ack r) ++
  [Z.lor (wrap8 (Z.shiftl (wrap8 (header_len r / 4)) 4)) (Z.b2z (t_ae r)); t_flags r] ++
  to_be16 (t_window r).
Definition after_checksum (r : TcpRepr) (data : list Z) : list Z :=
  [0; 0] ++ opt_bytes r ++ data.
Definition segment (r : TcpRepr) (src dst : Ipv4Addr) (data : list Z) : list Z :=
  tcp_head r ++ to_be16 (tcp_checksum src dst (tcp_head r ++ [0; 0] ++ after_checksum r data)) ++
  after_checksum r data.

Lemma zlen_segment r src dst data :
  tcp_repr_ok r -> zlen (segment r src dst data) = header_len r + zlen data.
Proof.
  intros Hr. destruct (header_len_opt r Hr) as [-> _]. unfold segment, tcp_head, after_checksum.
  rewrite !zlen_app, !zlen_to_be16, !zlen_to_be32. autorewrite with zlen.
  unfold TCP_MIN_HEADER_LEN. lia.
Qed.

(** The payload copy and the checksum patch at the end of [emit]. *)
Lemma emit_finish src dst hd opts data tail hlen :
  zlen hd = 16 -> hlen = 20 + zlen opts -> zlen data <= zlen tail ->
  (let? b := splice (((hd ++ [0; 0; 0; 0]) ++ opts) ++ tail) hlen data in
   let? seg := slice b 0 (hlen + zlen data) in
   let? b := splice b 16 (to_be16 (tcp_checksum src dst seg)) in Some (b, hlen + zlen data)) =
  Some ((hd ++ to_be16 (tcp_checksum src dst (hd ++ [0; 0] ++ [0; 0] ++ opts ++ data)) ++
    [0; 0] ++ opts ++ data) ++ zdrop (zlen data) tail, hlen + zlen data).
Proof.
  intros Hhd Hh Hl. pose proof (zlen_nonneg data). pose proof (zlen_nonneg opts).
  set (pre := (hd ++ [0; 0; 0; 0]) ++ opts) in *.
  assert (Hpre : hlen = zlen pre + 0) by (unfold pre; rewrite !zlen_app, Hhd; autorewrite with zlen; lia).
  rewrite Hpre at 1. rewrite splice_app, splice_Some by lia.
  rewrite ztake_0 by lia. cbn [app]. rewrite app_assoc.
  rewrite slice_Some by (rewrite ?zlen_app, ?zlen_zdrop; lia).
  rewrite (zdrop_0 0 (_ ++ _)) by lia. replace (hlen + zlen data - 0) with (zlen (pre ++ data)) by (rewrite zlen_app; lia).
  rewrite ztake_app_exact.
  assert (Epre : pre ++ data = hd ++ [0; 0] ++ [0; 0] ++ opts ++ data) by (unfold pre; by rewrite <- !app_assoc).
  rewrite Epre. set (cs := tcp_checksum _ _ _).
  rewrite <- app_assoc. replace 16 with (zlen hd + 0) by lia. rewrite splice_app by lia.
  assert (Hcs : forall t, splice (0 :: 0 :: t) 0 (to_be16 cs) = Some (to_be16 cs ++ t)).
  { intros t. pose proof (zlen_nonneg t).
    rewrite splice_Some by (rewrite ?zlen_to_be16; autorewrite with zlen; lia).
    rewrite ztake_0, zlen_to_be16 by lia. change (zdrop (0 + 2) (0 :: 0 :: t)) with (zdrop 0 t).
    by rewrite zdrop_0 by lia. }
  cbn [app]. rewrite Hcs. cbn [app]. rewrite <- !app_assoc. cbn [app]. by rewrite <- (app_assoc opts).
Qed.

Lemma emit_spec r src dst data b :
  tcp_repr_ok r -> header_len r + zlen data <= zlen b ->
  emit r src dst data b =
    Some (segment r src dst data ++ zdrop (header_len r + zlen data) b, header_len r + zlen data).
Proof.
  intros Hr Hlen. pose proof (zlen_segment r src dst data Hr) as Hzs.
  destruct (header_len_opt r Hr) as (Hh & _ & Hge).
  pose proof (zlen_nonneg data) as Hdn. unfold emit, TCP_MIN_HEADER_LEN in *.
  assert (Hw : writes (fun st => let? st := emit_mss r st in let? st := emit_sack_permitted r st in
    let? st := emit_window_scale r st in let? st := emit_timestamps r st in emit_sack r st) (opt_bytes r)).
  { repeat apply writes_bind; auto using emit_mss_writes, emit_sack_permitted_writes,
      emit_window_scale_writes, emit_timestamps_writes, emit_sack_writes. }
  unfold segment, after_checksum in *. set (hd := tcp_head r) in *.
  assert (Hrest : zdrop (header_len r + zlen data) b
    = zdrop (header_len r - 20 + zlen data) (zdrop 20 b)) by (rewrite zdrop_zdrop by lia; f_equal; lia).
  rewrite Hrest. clear Hrest.
  expose b 20%nat. match goal with |- context [zdrop 20 ?l] => change (zdrop 20 l) with tail end.
  pose proof (zlen_nonneg (opt_bytes r)) as Hon.
  assert (Hpost : zdrop (zlen data) (zdrop (zlen (opt_bytes r)) tail)
    = zdrop (header_len r - 20 + zlen data) tail) by (rewrite zdrop_zdrop by lia; f_equal; lia).
  set (post := zdrop (header_len r - 20 + zlen data) tail) in *. clearbody post.
  unfold to_be16 at 1 2 3, to_be32 at 1 2.
  run_splices.
  match goal with |- context [emit_mss r (?l, 20)] =>
    assert (El : l = (hd ++ [0; 0; 0; 0]) ++ tail) by done; rewrite El; clear El
  end.
  assert (Hhd : zlen (hd ++ [0; 0; 0; 0]) = 20) by done.
  specialize (Hw (hd ++ [0; 0; 0; 0]) tail). rewrite Hhd in Hw.
  autorewrite with zlen in Hlen. specialize (Hw ltac:(lia)). cbv beta in Hw.
  destruct (emit_mss r _) as [s1|]; [|done]. destruct (emit_sack_permitted r s1) as [s2|]; [|done].
  destruct (emit_window_scale r s2) as [s3|]; [|done].
  destruct (emit_timestamps r s3) as [s4|]; [|done]. rewrite Hw. clear Hw s1 s2 s3 s4.
  rewrite <- Hpost. apply emit_finish; [done|lia|]. rewrite zlen_zdrop. lia.
Qed.

(** ** Reading an emitted segment back *)

Lemma byte12 h ae :
  TCP_MIN_HEADER_LEN <= h <= TCP_MAX_HEADER_LEN -> h mod 4 = 0 ->
  let b := Z.lor (wrap8 (Z.shiftl (wrap8 (h / 4)) 4)) (Z.b2z ae) in
  is_u8 b /\ Z.shiftr b 4 * 4 = h /\ negb (Z.land b 0x01 =? 0) = ae.
Proof.
  unfold TCP_MIN_HEADER_LEN, TCP_MAX_HEADER_LEN. intros Hr Hm.
  assert (Hall : forallb (fun k => let b := Z.lor (wrap8 (Z.shiftl (wrap8 (4 * k / 4)) 4)) (Z.b2z ae) in
    (0 <=? b) && (b <? 256) && (Z.shiftr b 4 * 4 =? 4 * k) && eqb (negb (Z.land b 0x01 =? 0)) ae)
    [5; 6; 7; 8; 9; 10; 11; 12; 13; 14; 15] = true) by (destruct ae; vm_compute; done).
  rewrite forallb_forall in Hall. specialize (Hall (h / 4)).
  replace (4 * (h / 4)) with h in Hall by zmod. cbv zeta in *.
  assert (Hin : In (h / 4) [5; 6; 7; 8; 9; 10; 11; 12; 13; 14; 15]) by (cbn [In]; zmod).
  specialize (Hall Hin). rewrite !andb_true_iff, eqb_true_iff in Hall.
  unfold is_u8. destruct Hall as [[[? ?] ?] ?]. split; [lia|]. split; [lia|done].
Qed.

Definition tlvs (r : TcpRepr) : list (Z * list Z) :=
  (match t_mss r with Some m => [(2, to_be16 m)] | None => [] end) ++
  (if t_sack_permitted r then [(4, [])] else []) ++
  (match t_window_scale r with Some s => [(3, [s])] | None => [] end) ++
  (match t_timestamps r with Some (v, e) => [(8, to_be32 v ++ to_be32 e)] | None => [] end) ++
  (if 0 <? sack_blocks_to_emit r then [(5, enc_blocks (emitted_blocks r))] else []).

(** [enc] reads as the options [ts], whatever follows. *)
Definition reads_as (enc : list Z) (ts : list (Z * list Z)) : Prop :=
  forall rest ts', tlvs_of rest ts' -> tlvs_of (enc ++ rest) (ts ++ ts').

Lemma reads_nil : reads_as [] [].
Proof. by intros rest ts'. Qed.
Lemma reads_app e1 t1 e2 t2 : reads_as e1 t1 -> reads_as e2 t2 -> reads_as (e1 ++ e2) (t1 ++ t2).
Proof. intros H1 H2 rest ts' H. rewrite <- !app_assoc. auto. Qed.
Lemma reads_nop : reads_as [1] [].
Proof. intros rest ts' H. by constructor. Qed.
Lemma reads_tlv kind len value :
  kind <> 0 -> kind <> 1 -> len = zlen value + 2 -> reads_as (kind :: len :: value) [(kind, value)].
Proof. intros ? ? -> rest ts' ?. cbn [app]. by constructor. Qed.

Lemma tlvs_of_opt_bytes r : tcp_repr_ok r -> tlvs_of (opt_bytes r) (tlvs r).
Proof.
  intros Hr. destruct (blocks_to_emit_range r Hr) as [Hn Hz].
  assert (H : reads_as (opt_bytes r) (tlvs r)).
  { unfold opt_bytes, tlvs, enc_mss, enc_sack_permitted, enc_window_scale, enc_timestamps, enc_sack.
    repeat apply reads_app.
    - destruct (t_mss r); [by apply reads_tlv|apply reads_nil].
    - destruct (t_sack_permitted r); [|apply reads_nil].
      by apply (reads_app [1] [] _ _ reads_nop), (reads_app [1] [] _ _ reads_nop), reads_tlv.
    - destruct (t_window_scale r); [|apply reads_nil].
      by apply (reads_app [1] [] _ _ reads_nop), reads_tlv.
    - destruct (t_timestamps r) as [[v e]|]; [|apply reads_nil].
      by apply (reads_app [1] [] _ _ reads_nop), (reads_app [1] [] _ _ reads_nop), reads_tlv.
    - destruct (0 <? _); [|apply reads_nil].
      apply (reads_app [1] [] _ _ reads_nop), (reads_app [1] [] _ _ reads_nop), reads_tlv; [done..|].
      rewrite zlen_enc_blocks. lia. }
  specialize (H [] [] tlvs_nil). by rewrite !app_nil_r in H.
Qed.

Lemma u32_at_to_be32 pre v rest :
  is_u32 v -> u32_at (pre ++ to_be32 v ++ rest) (zlen pre) = Some v.
Proof.
  intros Hv. unfold u32_at, to_be32. cbn [app].
  rewrite <- (Z.add_0_r (zlen pre)) at 1.
  rewrite !at_app_r by lia.
  replace (zlen pre + 0 - zlen pre) with 0 by lia. replace (zlen pre + 1 - zlen pre) with 1 by lia.
  replace (zlen pre + 2 - zlen pre) with 2 by lia. replace (zlen pre + 3 - zlen pre) with 3 by lia.
  change (Some (be32 (v / 16777216 mod 256) (v / 65536 mod 256) (v / 256 mod 256) (v mod 256)) = Some v).
  by rewrite be32_to_be32.
Qed.

(** Writing one element and then more after it. *)
Lemma store_then_more {A} (out : list A) n x bs :
  0 <= n < zlen out ->
  let out' := ztake n out ++ [x] ++ zdrop (n + zlen [x]) out in
  ztake (n + 1) out' ++ bs ++ zdrop (n + 1 + zlen bs) out' =
  ztake n out ++ (x :: bs) ++ zdrop (n + zlen (x :: bs)) out.
Proof.
  intros Hn out'. pose proof (zlen_nonneg bs).
  assert (Ht : zlen (ztake n out ++ [x]) = n + 1)
    by (rewrite zlen_app, zlen_ztake; change (zlen [x]) with 1; lia).
  unfold out'. rewrite (app_assoc _ [x]).
  rewrite ztake_app_le, ztake_all, zdrop_app_ge, Ht by lia.
  change (zlen [x]) with 1. rewrite zdrop_zdrop, zlen_cons, <- app_assoc by lia.
  cbn [app]. do 4 f_equal. lia.
Qed.

Lemma sack_value_loop_enc (bs : list (SeqNumber * SeqNumber)) :
  Forall (fun b => is_u32 b.1 /\ is_u32 b.2) bs ->
  forall fuel pre out n, (length bs < fuel)%nat ->
  0 <= n -> n + zlen bs <= MAX_SACK_BLOCKS -> zlen out = MAX_SACK_BLOCKS ->
  sack_value_loop fuel (pre ++ enc_blocks bs) (zlen pre) (out, n)
    = Some (ztake n out ++ bs ++ zdrop (n + zlen bs) out, n + zlen bs).
Proof.
  induction 1 as [|[l r] bs [Hl Hr] Hbs IH]; intros fuel pre out n Hf Hn Hnb Ho;
    (destruct fuel as [|fuel]; cbn [length] in Hf; [lia|]); cbn [sack_value_loop].
  - cbn [enc_blocks flat_map]. rewrite zlen_app. change (zlen (@nil Z)) with 0.
    change (zlen (@nil (SeqNumber * SeqNumber))) with 0.
    destruct (_ && _) eqn:E; [lia|]. rewrite Z.add_0_r. cbn [app]. by rewrite ztake_zdrop.
  - rewrite zlen_app, zlen_enc_blocks. rewrite !zlen_cons in *.
    assert (0 <= @zlen (SeqNumber * SeqNumber) bs) by apply zlen_nonneg.
    unfold MAX_SACK_BLOCKS in *. destruct (_ && _) eqn:E; [|lia]. cbn [enc_blocks flat_map].
    rewrite <- (app_assoc (to_be32 l)), u32_at_to_be32 by done.
    rewrite (app_assoc pre (to_be32 l)).
    replace (zlen pre + 4) with (zlen (pre ++ to_be32 l)) by (by rewrite zlen_app, zlen_to_be32).
    rewrite u32_at_to_be32 by done.
    unfold store. rewrite splice_Some by (autorewrite with zlen; lia).
    rewrite (app_assoc _ (to_be32 r)).
    replace (zlen pre + 8) with (zlen ((pre ++ to_be32 l) ++ to_be32 r))
      by (rewrite !zlen_app, !zlen_to_be32; lia).
    rewrite IH; [|lia|lia|lia|autorewrite with zlen; lia].
    f_equal. f_equal; [|lia].
    pose proof (@store_then_more (SeqNumber * SeqNumber) out n (l, r) bs ltac:(lia)) as Q.
    cbv zeta in Q. rewrite (@zlen_cons (SeqNumber * SeqNumber) (l, r) bs) in Q. exact Q.
Qed.

(** The bytes of an emitted segment, header fields first. *)
Lemma segment_view r src dst data :
  tcp_repr_ok r -> let p := mkSegment (segment r src dst data) in
  view p (header_len r) /\ src_port p = Some (t_src_port r) /\ dst_port p = Some (t_dst_port r) /\
  seq p = Some (t_seq r) /\ ack p = Some (t_ack r) /\ flags p = Some (t_flags r) /\
  ae p = Some (t_ae r) /\ window p = Some (t_window r) /\ payload p = Some data /\
  ztake (header_len r - 20) (zdrop 20 (as_bytes p)) = opt_bytes r /\
  new_checked (as_bytes p) = Some (Ok p).
Proof.
  intros Hr p. pose proof (zlen_segment r src dst data Hr) as Hz.
  destruct (header_len_opt r Hr) as (Hh & Hm & Hge). pose proof (tr_fits _ Hr) as Hle.
  destruct (byte12 (header_len r) (t_ae r) (conj Hge Hle) Hm) as (_ & Hoff & Hae).
  pose proof (zlen_nonneg data). unfold TCP_MIN_HEADER_LEN, TCP_MAX_HEADER_LEN in *.
  assert (Ho : data_offset p = Some (header_len r)).
  { transitivity (Some (Z.shiftr (Z.lor (wrap8 (Z.shiftl (wrap8 (header_len r / 4)) 4))
      (Z.b2z (t_ae r))) 4 * 4)); [done|]. by rewrite Hoff. }
  assert (Hsplit : zdrop 20 (segment r src dst data) = opt_bytes r ++ data) by done.
  split_and!.
  - split; cbn [as_bytes p]; unfold TCP_MIN_HEADER_LEN, TCP_MAX_HEADER_LEN; [done|lia|lia].
  - transitivity (Some (be16 (t_src_port r / 256 mod 256) (t_src_port r mod 256))); [done|].
    rewrite be16_to_be16; [done|apply (tr_src_port _ Hr)].
  - transitivity (Some (be16 (t_dst_port r / 256 mod 256) (t_dst_port r mod 256))); [done|].
    rewrite be16_to_be16; [done|apply (tr_dst_port _ Hr)].
  - exact (u32_at_to_be32 (to_be16 (t_src_port r) ++ to_be16 (t_dst_port r)) _ _ (tr_seq _ Hr)).
  - exact (u32_at_to_be32 (to_be16 (t_src_port r) ++ to_be16 (t_dst_port r) ++ to_be32 (t_seq r))
      _ _ (tr_ack _ Hr)).
  - done.
  - rewrite <- Hae. done.
  - transitivity (Some (be16 (t_window r / 256 mod 256) (t_window r mod 256))); [done|].
    rewrite be16_to_be16; [done|apply (tr_window _ Hr)].
  - unfold payload. rewrite Ho. cbn [as_bytes p]. rewrite slice_Some, ztake_all by zlens.
    replace (header_len r) with (zlen (opt_bytes r) + 20) by lia.
    rewrite <- zdrop_zdrop, Hsplit by (try apply zlen_nonneg; lia). f_equal. apply zdrop_app_exact.
  - cbn [as_bytes p]. rewrite Hsplit. replace (header_len r - 20) with (zlen (opt_bytes r)) by lia.
    apply ztake_app_exact.
  - unfold new_checked. cbn [as_bytes p]. rewrite Hz. fold p. rewrite Ho.
    unfold TCP_MIN_HEADER_LEN, TCP_MAX_HEADER_LEN.
    destruct (_ <? 20) eqn:?; [lia|]. destruct (negb (_ && _)) eqn:?; [lia|].
    destruct (_ <? header_len r) eqn:?; [lia|done].
Qed.

Lemma opt_bytes_ok r : tcp_repr_ok r -> bytes_ok (opt_bytes r).
Proof.
  intros Hr. destruct (blocks_to_emit_range r Hr) as [Hn _]. unfold MAX_SACK_BLOCKS in *.
  unfold opt_bytes, enc_mss, enc_sack_permitted, enc_window_scale, enc_timestamps, enc_sack.
  assert (Hlit : forall a b c d, is_u8 a -> is_u8 b -> is_u8 c -> is_u8 d -> bytes_ok [a; b; c; d])
    by (intros; split_bytes; done).
  assert (Henc : forall bs, bytes_ok (enc_blocks bs)).
  { induction bs as [|[lft rgt] bs IH]; [constructor|].
    change (bytes_ok ((to_be32 lft ++ to_be32 rgt) ++ enc_blocks bs)).
    auto using bytes_ok_app, to_be32_ok. }
  repeat apply bytes_ok_app.
  - destruct (t_mss r); [|constructor]. apply bytes_ok_app; [|apply to_be16_ok].
    split_bytes; unfold is_u8; lia.
  - destruct (t_sack_permitted r); [|constructor]. apply Hlit; unfold is_u8; lia.
  - destruct (t_window_scale r) eqn:E; [|constructor]. pose proof (tr_scale _ Hr _ E).
    apply Hlit; unfold is_u8; lia.
  - destruct (t_timestamps r) as [[v e]|]; [|constructor].
    repeat apply bytes_ok_app; [|apply to_be32_ok..]. apply Hlit; unfold is_u8; lia.
  - destruct (0 <? _); [|constructor]. apply bytes_ok_app; [|done].
    apply Hlit; unfold is_u8; lia.
Qed.

Lemma segment_checksum_valid r src dst data :
  tcp_repr_ok r -> ip_ok src -> ip_ok dst -> bytes_ok data -> header_len r + zlen data <= U16_MAX ->
  tcp_checksum_valid src dst (segment r src dst data) = true.
Proof.
  intros Hr Hs Hd Hdata Hl. pose proof (zlen_segment r src dst data Hr) as Hz.
  destruct (header_len_opt r Hr) as (_ & Hm & Hge). pose proof (tr_fits _ Hr) as Hle.
  destruct (byte12 (header_len r) (t_ae r) (conj Hge Hle) Hm) as (H12 & _).
  pose proof (zlen_nonneg data). unfold TCP_MIN_HEADER_LEN in *.
  assert (Hpl : zlen (tcp_head r ++ [0; 0] ++ after_checksum r data) = zlen (segment r src dst data)).
  { unfold segment. rewrite !zlen_app, zlen_to_be16. done. }
  unfold tcp_checksum_valid. apply Z.eqb_eq. rewrite Hz.
  unfold segment, tcp_checksum. rewrite Hpl, Hz. apply fill_makes_valid.
  - apply pseudo_header_u32; [done|done|unfold is_u8, IPPROTO_TCP; lia|auto with ferrum].
  - unfold tcp_head. repeat apply bytes_ok_app; auto using to_be16_ok, to_be32_ok.
    split_bytes; [done|apply (tr_flags _ Hr)].
  - unfold after_checksum.
    apply bytes_ok_app; [split_bytes; unfold is_u8; lia|].
    apply bytes_ok_app; [by apply opt_bytes_ok|done].
  - done.
  - unfold segment in Hz. rewrite !zlen_app, zlen_to_be16 in Hz. unfold MAX_DATA. lia.
Qed.

(** What each option accessor finds among the emitted options. *)
Ltac visit_tlvs r :=
  unfold tlvs; destruct (t_mss r) as [m|], (t_sack_permitted r), (t_window_scale r) as [ws|],
    (t_timestamps r) as [[v e]|], (0 <? sack_blocks_to_emit r); cbn [app visit_all].

Lemma tlvs_mss r : tcp_repr_ok r -> visit_all mss_visit (tlvs r) None = Some (t_mss r).
Proof.
  intros Hr. pose proof (tr_mss _ Hr) as Hm. visit_tlvs r; try done;
    (transitivity (Some (Some (be16 (m / 256 mod 256) (m mod 256))));
      [done|by rewrite be16_to_be16 by (by apply Hm)]).
Qed.
Lemma tlvs_sack_permitted r :
  tcp_repr_ok r -> visit_all sp_visit (tlvs r) false = Some (t_sack_permitted r).
Proof. intros Hr. by visit_tlvs r. Qed.
Lemma tlvs_window_scale r :
  tcp_repr_ok r -> visit_all ws_visit (tlvs r) None = Some (t_window_scale r).
Proof.
  intros Hr. pose proof (tr_scale _ Hr) as Hm. visit_tlvs r; try done;
    (transitivity (Some (Some (Z.min ws 14))); [done|by rewrite Z.min_l by (by apply Hm)]).
Qed.
Lemma tlvs_timestamps r :
  tcp_repr_ok r -> visit_all ts_visit (tlvs r) None = Some (t_timestamps r).
Proof.
  intros Hr. pose proof (tr_ts _ Hr) as Hm. visit_tlvs r; try done;
    destruct (Hm _ _ eq_refl) as [Hv He];
    assert (E1 : u32_at (to_be32 v ++ to_be32 e) 0 = Some v) by exact (u32_at_to_be32 [] v (to_be32 e) Hv);
    pose proof (u32_at_to_be32 (to_be32 v) e [] He) as E2;
    rewrite app_nil_r, zlen_to_be32 in E2; 
    (transitivity (let? a := u32_at (to_be32 v ++ to_be32 e) 0 in
       let? b := u32_at (to_be32 v ++ to_be32 e) 4 in Some (Some (a, b)));
     [done|rewrite E1, E2; done]).
Qed.
Lemma tlvs_sack_blocks r out :
  tcp_repr_ok r -> zlen out = MAX_SACK_BLOCKS ->
  exists out', visit_all sack_visit (tlvs r) (out, 0) = Some (out', sack_blocks_to_emit r) /\
    ztake (sack_blocks_to_emit r) out' = ztake (sack_blocks_to_emit r) (blocks (t_sack r)).
Proof.
  intros Hr Ho. destruct (blocks_to_emit_range r Hr) as [Hn Hz].
  destruct (tr_blocks _ Hr) as [_ Hb].
  assert (H5 : sack_visit (out, 0) 5 (enc_blocks (emitted_blocks r))
    = Some (emitted_blocks r ++ zdrop (sack_blocks_to_emit r) out, sack_blocks_to_emit r)).
  { unfold sack_visit. change (negb (5 =? 5)) with false. cbv iota.
    rewrite (sack_value_loop_enc (emitted_blocks r) ltac:(by apply Forall_take) _ [] out 0);
      [|pose proof (zlen_enc_blocks (emitted_blocks r)) as E; unfold zlen in E; lia|lia|lia|done].
    rewrite ztake_0 by lia. cbn [app]. by rewrite Hz. }
  assert (Hres : ztake (sack_blocks_to_emit r) (emitted_blocks r ++ zdrop (sack_blocks_to_emit r) out)
    = ztake (sack_blocks_to_emit r) (blocks (t_sack r))).
  { rewrite <- Hz at 1. by rewrite ztake_app_exact. }
  unfold tlvs. destruct (0 <? sack_blocks_to_emit r) eqn:E.
  - eexists. split; [|exact Hres].
    assert (H : forall k v st, k <> 5 -> sack_visit st k v = Some st).
    { intros k v st Hk. unfold sack_visit. by destruct (k =? 5) eqn:?; [lia|]. }
    destruct (t_mss r), (t_sack_permitted r), (t_window_scale r), (t_timestamps r) as [[]|];
      cbn [app visit_all]; rewrite ?H by done; by rewrite H5.
  - assert (sack_blocks_to_emit r = 0) as -> by lia. exists out. split; [|by rewrite !ztake_0].
    destruct (t_mss r), (t_sack_permitted r), (t_window_scale r), (t_timestamps r) as [[]|]; done.
Qed.

Lemma tcp_head_ok r : tcp_repr_ok r -> bytes_ok (tcp_head r).
Proof.
  intros Hr. destruct (header_len_opt r Hr) as (_ & Hm & Hge). pose proof (tr_fits _ Hr) as Hle.
  destruct (byte12 (header_len r) (t_ae r) (conj Hge Hle) Hm) as (H12 & _).
  unfold tcp_head. repeat apply bytes_ok_app; auto using to_be16_ok, to_be32_ok.
  split_bytes; [done|apply (tr_flags _ Hr)].
Qed.

Lemma segment_ok r src dst data : tcp_repr_ok r -> bytes_ok data -> bytes_ok (segment r src dst data).
Proof.
  intros Hr Hd. unfold segment, after_checksum.
  apply bytes_ok_app; [by apply tcp_head_ok|]. apply bytes_ok_app; [apply to_be16_ok|].
  apply bytes_ok_app; [split_bytes; unfold is_u8; lia|].
  apply bytes_ok_app; [by apply opt_bytes_ok|done].
Qed.

(** What a receiver reads from an emitted segment. *)
Definition segment_carries (seg : list Z) (r : TcpRepr) (data : list Z) : Prop :=
  exists p, new_checked seg = Some (Ok p) /\
    src_port p = Some (t_src_port r) /\ dst_port p = Some (t_dst_port r) /\
    seq p = Some (t_seq r) /\ ack p = Some (t_ack r) /\ flags p = Some (t_flags r) /\
    ae p = Some (t_ae r) /\ window p = Some (t_window r) /\ payload p = Some data /\
    mss_option p = Some (t_mss r) /\ sack_permitted p = Some (t_sack_permitted r) /\
    window_scale p = Some (t_window_scale r) /\ timestamps p = Some (t_timestamps r) /\
    (forall out, zlen out = MAX_SACK_BLOCKS -> exists out',
       sack_blocks p out = Some (out', sack_blocks_to_emit r) /\
       ztake (sack_blocks_to_emit r) out' = ztake (sack_blocks_to_emit r) (blocks (t_sack r))).

Lemma segment_parse r src dst data :
  tcp_repr_ok r -> segment_carries (segment r src dst data) r data.
Proof.
  intros Hr. exists (mkSegment (segment r src dst data)).
  destruct (segment_view r src dst data Hr)
    as (Hv & Hsp & Hdp & Hsq & Hak & Hfl & Hae & Hwn & Hpl & Hopt & Hnew).
  pose proof (tlvs_of_opt_bytes r Hr) as Ht. rewrite <- Hopt in Ht. split; [exact Hnew|].
  unfold mss_option, sack_permitted, window_scale, timestamps, sack_blocks.
  split_and!; try done; try rewrite !(walk_tlvs _ _ _ _ _ Hv Ht).
  - by apply tlvs_mss.
  - by apply tlvs_sack_permitted.
  - by apply tlvs_window_scale.
  - by apply tlvs_timestamps.
  - intros out Hout. rewrite (walk_tlvs _ _ _ _ _ Hv Ht). by apply tlvs_sack_blocks.
Qed.

(** C28 — round trip.  Emitting a segment whose options fit into any buffer with
    room for it never panics and writes exactly the returned number of bytes;
    parsing them back yields the emitted ports, numbers, flags, AE bit, window
    and payload, every option (MSS, SACK-permitted, window scale, timestamps,
    and the SACK blocks up to the option budget, in order), and a checksum
    valid under the pseudo-header. *)
Theorem tcp_emit_parse r src dst data b :
  tcp_repr_ok r -> ip_ok src -> ip_ok dst -> bytes_ok data ->
  header_len r + zlen data <= zlen b -> header_len r + zlen data <= U16_MAX ->
  exists seg, emit r src dst data b = Some (seg ++ zdrop (zlen seg) b, zlen seg) /\
    zlen seg = header_len r + zlen data /\ segment_carries seg r data /\
    tcp_checksum_valid src dst seg = true.
Proof.
  intros Hr Hs Hd Hdata Hlb Hl16. exists (segment r src dst data). rewrite zlen_segment by done.
  split; [by apply emit_spec|]. split; [done|]. split; [by apply segment_parse|].
  by apply segment_checksum_valid.
Qed.

Lemma tcp_emit_parse_witness :
  let r := mkTcpRepr 443 50000 4294967295 7 0x12 0xffff (Some 1460) true SackBlocks_default
             (Some 7) (Some (1, 2)) true in
  exists seg p, emit r (ipv4 10 0 0 2) (ipv4 10 0 0 1) [1; 2; 3] (zrepeat 9 64)
      = Some (seg ++ zdrop (zlen seg) (zrepeat 9 64), zlen seg) /\
    new_checked seg = Some (Ok p) /\ seq p = Some 4294967295 /\
    mss_option p = Some (Some 1460) /\ window_scale p = Some (Some 7) /\ payload p = Some [1; 2; 3] /\
    tcp_checksum_valid (ipv4 10 0 0 2) (ipv4 10 0 0 1) seg = true.
Proof.
  intros r. destruct (tcp_emit_parse r (ipv4 10 0 0 2) (ipv4 10 0 0 1) [1; 2; 3] (zrepeat 9 64))
    as (seg & H1 & _ & (p & H2 & _ & _ & H3 & _ & _ & _ & _ & H4 & H5 & _ & H6 & _ & _) & H7).
  - split; cbn; unfold is_u16, is_u32, is_u8; try lia; try (intros; simplify_eq; lia).
    + split; [reflexivity|]. repeat apply List.Forall_cons; try apply List.Forall_nil; cbn; lia.
    + unfold MAX_SACK_BLOCKS; lia.
    + vm_compute; discriminate.
  - unfold ip_ok, octets. split_bytes; unfold is_u8; lia.
  - unfold ip_ok, octets. split_bytes; unfold is_u8; lia.
  - split_bytes; unfold is_u8; lia.
  - vm_compute; discriminate.
  - vm_compute; discriminate.
  - exists seg, p. split; [exact H1|]. split; [exact H2|]. split; [exact H3|].
    split; [exact H5 || exact H4|]. split; [exact H6|]. split; [exact H4 || exact H5|exact H7].
Defined.

Lemma segment_accessors_total_witness :
  let b := [0; 80; 0; 81; 0; 0; 0; 1; 0; 0; 0; 2; 0x70; 0x10; 1; 0; 0; 0; 0; 0;
            1; 5; 10; 0; 0; 0; 5; 0] in
  exists p, new_checked b = Some (Ok p) /\ timestamps p = Some None /\ payload p = Some [] /\
    forall S (f : S -> Z -> list Z -> option S) s, for_each_option p f s = Some s.
Proof.
  intros b. destruct (segment_accessors_total b) as (r & Hr & H).
  exists (mkSegment b). assert (r = Ok (mkSegment b)) as Er.
  { assert (E : Some r = Some (Ok (mkSegment b))) by (rewrite <- Hr; vm_compute; reflexivity).
    injection E as ->. reflexivity. }
  destruct (H _ Er) as (o & ts & _ & Ho & _ & _ & _ & _ & _ & _ & _ & _ & _ & _ & Hopt & Hv & _).
  destruct Hopt as (opts & Hopts & _ & Hts).
  split; [vm_compute; reflexivity|]. split; [vm_compute; reflexivity|].
  split; [vm_compute; reflexivity|]. intros S f s. rewrite Hv.
  assert (ts = []) as ->; [|reflexivity]. symmetry. apply Hts.
  vm_compute in Hopts. injection Hopts as <-. apply tlvs_nop.
  apply tlvs_bad; [discriminate|discriminate|]. right. vm_compute. reflexivity.
Defined.

(** ** What an arriving segment says

    The values every accessor returns on a parsed segment, with their widths:
    the TCB's theorems speak of these. *)

Record Arrived := mkArrived {
  a_seq : SeqNumber;
  a_ack : SeqNumber;
  a_flags : Z;
  a_window : Z;
  a_body : list Z;
  a_ae : bool;
  a_mss : option Z;
  a_ts : option (Z * Z);
  a_ws : option Z;
  a_sp : bool;
  a_sack : list (SeqNumber * SeqNumber);
}.

Record reads (p : TcpPacket) (x : Arrived) : Prop := {
  rd_seq : seq p = Some (a_seq x) /\ is_u32 (a_seq x);
  rd_ack : ack p = Some (a_ack x) /\ is_u32 (a_ack x);
  rd_flags : flags p = Some (a_flags x) /\ is_u8 (a_flags x);
  rd_window : window p = Some (a_window x) /\ is_u16 (a_window x);
  rd_body : payload p = Some (a_body x) /\ bytes_ok (a_body x) /\ zlen (a_body x) <= U16_MAX;
  rd_ae : ae p = Some (a_ae x);
  rd_mss : mss_option p = Some (a_mss x) /\ forall m, a_mss x = Some m -> is_u16 m;
  rd_ts : timestamps p = Some (a_ts x) /\
    forall v e, a_ts x = Some (v, e) -> is_u32 v /\ is_u32 e;
  rd_ws : window_scale p = Some (a_ws x) /\ forall w, a_ws x = Some w -> 0 <= w <= 14;
  rd_sp : sack_permitted p = Some (a_sp x);
  rd_sack : exists bs n, sack_blocks p (zrepeat (0, 0) MAX_SACK_BLOCKS) = Some (bs, n) /\
    slice bs 0 n = Some (a_sack x) /\ Forall (fun b => is_u32 b.1 /\ is_u32 b.2) (a_sack x);
}.

Lemma byte_at l i : bytes_ok l -> 0 <= i < zlen l -> exists b, at_ l i = Some b /\ is_u8 b.
Proof.
  intros Hok Hi. destruct (at_is_Some l i Hi) as [b Hb]. exists b. split; [done|].
  rewrite at_lookup in Hb by lia. by apply (Forall_lookup_1 _ _ _ _ Hok Hb).
Qed.

Lemma u32_at_range l i : bytes_ok l -> 0 <= i -> i + 4 <= zlen l ->
  exists v, u32_at l i = Some v /\ is_u32 v.
Proof.
  intros Hl H0 Hi. unfold u32_at.
  destruct (byte_at l i) as (a & -> & ?); [done|lia|].
  destruct (byte_at l (i + 1)) as (b & -> & ?); [done|lia|].
  destruct (byte_at l (i + 2)) as (c & -> & ?); [done|lia|].
  destruct (byte_at l (i + 3)) as (d & -> & ?); [done|lia|].
  eexists. split; [done|]. unfold be32, is_u8, is_u32 in *. lia.
Qed.

Lemma u16_at_range l i : bytes_ok l -> 0 <= i -> i + 2 <= zlen l ->
  exists a b, at_ l i = Some a /\ at_ l (i + 1) = Some b /\ is_u16 (be16 a b).
Proof.
  intros Hl H0 Hi.
  destruct (byte_at l i) as (a & -> & ?); [done|lia|].
  destruct (byte_at l (i + 1)) as (b & -> & ?); [done|lia|].
  exists a, b. split_and!; [done..|]. unfold be16, is_u8, is_u16 in *. lia.
Qed.

Lemma tlvs_of_bytes l ts : tlvs_of l ts -> bytes_ok l -> Forall (fun t => bytes_ok t.2) ts.
Proof.
  unfold bytes_ok. induction 1 as [|rest|rest ts Ht IH|kind|kind len body|kind value rest ts ?? Ht IH];
    intros Hl; try apply List.Forall_nil.
  - apply List.Forall_cons_iff in Hl as [_ Hl]. by apply IH.
  - apply List.Forall_cons_iff in Hl as [_ Hl]. apply List.Forall_cons_iff in Hl as [_ Hl].
    apply Forall_app in Hl as [Hv Hl]. apply List.Forall_cons; [done|by apply IH].
Qed.

Lemma visit_all_bytes {S} (P : S -> Prop) (f : S -> Z -> list Z -> option S) ts s :
  (forall s k v, bytes_ok v -> P s -> exists s', f s k v = Some s' /\ P s') ->
  Forall (fun t => bytes_ok t.2) ts -> P s ->
  exists s', visit_all f ts s = Some s' /\ P s'.
Proof.
  intros Hf. revert s. induction ts as [|[k v] ts IH]; intros s Hts Hs; cbn; [eauto|].
  apply List.Forall_cons_iff in Hts as [Hv Hts]. cbn in Hv.
  destruct (Hf s k v Hv Hs) as (s' & -> & Hs'). by apply IH.
Qed.

Abbreviation block_ok := (fun b : SeqNumber * SeqNumber => is_u32 b.1 /\ is_u32 b.2).

Lemma sack_value_loop_ok fuel value j out n :
  bytes_ok value -> 0 <= j <= zlen value + 8 -> 0 <= n <= MAX_SACK_BLOCKS ->
  zlen out = MAX_SACK_BLOCKS -> Forall block_ok out -> (Z.to_nat (zlen value - j) < fuel)%nat ->
  exists out' n', sack_value_loop fuel value j (out, n) = Some (out', n') /\
    0 <= n' <= MAX_SACK_BLOCKS /\ zlen out' = MAX_SACK_BLOCKS /\ Forall block_ok out'.
Proof.
  intros Hv. revert j out n. induction fuel as [|fuel IH]; intros j out n Hj Hn Ho Hok Hf; [lia|].
  cbn [sack_value_loop]. destruct (_ && _) eqn:E; [|eauto 10].
  destruct (u32_at_range value j) as (lft & -> & ?); [done|lia..|].
  destruct (u32_at_range value (j + 4)) as (rgt & -> & ?); [done|lia..|].
  unfold store. rewrite splice_Some by (autorewrite with zlen; lia).
  apply IH; try lia.
  - autorewrite with zlen. lia.
  - apply Forall_app. split; [by apply Forall_take|].
    apply List.Forall_cons; [done|]. by apply Forall_drop.
Qed.

Definition sack_state_ok (st : list (SeqNumber * SeqNumber) * Z) : Prop :=
  0 <= st.2 <= MAX_SACK_BLOCKS /\ zlen st.1 = MAX_SACK_BLOCKS /\ Forall block_ok st.1.

Lemma sack_visit_ok st kind value :
  bytes_ok value -> sack_state_ok st ->
  exists st', sack_visit st kind value = Some st' /\ sack_state_ok st'.
Proof.
  destruct st as [out n]. intros Hv (Hn & Ho & Hok); cbn in Hn, Ho, Hok. unfold sack_visit.
  destruct (negb _); [by eexists|].
  destruct (sack_value_loop_ok (S (length value)) value 0 out n) as (out' & n' & -> & ? & ? & ?);
    try done; try (unfold zlen; lia). by eexists.
Qed.

(** Every segment that parses reads. *)
Lemma segment_reads b p :
  bytes_ok b -> zlen b <= U16_MAX -> new_checked b = Some (Ok p) ->
  exists x, reads p x /\ zlen (a_body x) <= zlen b.
Proof.
  intros Hb Hlen Hp. destruct (new_checked_cases b) as (r & Hr & Hok).
  rewrite Hp in Hr. apply (inj Some) in Hr. subst r. destruct Hok as [Eb [hl Hv]].
  pose proof Hv as [Ho Hr Hl]. rewrite Eb in Hl. unfold TCP_MIN_HEADER_LEN in Hr.
  set (opts := ztake (hl - 20) (zdrop 20 (as_bytes p))).
  assert (Hopts : bytes_ok opts) by (rewrite <- Eb in Hb; apply Forall_take, Forall_drop, Hb).
  destruct (tlvs_of_exists _ opts (Nat.le_refl _)) as [ts Hts].
  pose proof (tlvs_of_bytes _ _ Hts Hopts) as Htb.
  destruct (u32_at_range b 4) as (s & Es & Hs); [done|lia..|].
  destruct (u32_at_range b 8) as (a & Ea & Ha); [done|lia..|].
  destruct (byte_at b 13) as (f & Ef & Hf); [done|lia|].
  destruct (byte_at b 12) as (h & Eh & _); [done|lia|].
  destruct (u16_at_range b 14) as (w1 & w2 & Ew1 & Ew2 & Hw); [done|lia..|].
  destruct (visit_all_bytes (fun o => forall m, o = Some m -> is_u16 m) mss_visit ts None)
    as (mss & Em & Hm); [|done..|].
  { intros st k v Hvb Hst. unfold mss_visit. destruct (_ && _) eqn:E; [|eauto].
    destruct (u16_at_range v 0) as (? & ? & -> & E1 & ?); [done|lia..|].
    change (0 + 1) with 1 in E1. rewrite E1. eexists. split; [done|]. by intros ? [= <-]. }
  destruct (visit_all_bytes (fun o => forall v e, o = Some (v, e) -> is_u32 v /\ is_u32 e) ts_visit ts None)
    as (tso & Et & Ht); [|done..|].
  { intros st k v Hvb Hst. unfold ts_visit. destruct (_ && _) eqn:E; [|eauto].
    destruct (u32_at_range v 0) as (? & -> & ?); [done|lia..|].
    destruct (u32_at_range v 4) as (? & -> & ?); [done|lia..|].
    eexists. split; [done|]. by intros ?? [= <- <-]. }
  destruct (visit_all_bytes (fun o => forall w, o = Some w -> 0 <= w <= 14) ws_visit ts None)
    as (ws & Ews & Hws); [|done..|].
  { intros st k v Hvb Hst. unfold ws_visit. destruct (_ && _) eqn:E; [|eauto].
    destruct (byte_at v 0) as (? & -> & ?); [done|lia|].
    eexists. split; [done|]. intros ? [= <-]. unfold is_u8 in *. lia. }
  destruct (visit_all_bytes (fun _ => True) sp_visit ts false) as (sp & Esp & _); [|done..|].
  { intros st k v _ _. unfold sp_visit. destruct (_ && _); by eexists. }
  destruct (visit_all_bytes sack_state_ok sack_visit ts (zrepeat (0, 0) MAX_SACK_BLOCKS, 0))
    as ([bs n] & Eb' & Hn & Hz & Hbs); [by intros; apply sack_visit_ok|done| |].
  { unfold sack_state_ok. cbn. split_and!; [done|done|done|].
    repeat apply List.Forall_cons; try apply List.Forall_nil; done. }
  cbn in Hn, Hz, Hbs.
  exists (mkArrived s a f (be16 w1 w2) (zdrop hl b) (negb (Z.land h 1 =? 0)) mss tso ws sp (ztake n bs)).
  split; [|cbn; rewrite zlen_zdrop; pose proof (zlen_nonneg b); lia].
  unfold mss_option, timestamps, window_scale, sack_permitted, sack_blocks in *.
  split; cbn [a_seq a_ack a_flags a_window a_body a_ae a_mss a_ts a_ws a_sp a_sack].
  - unfold seq. by rewrite Eb.
  - unfold ack. by rewrite Eb.
  - unfold flags. by rewrite Eb.
  - unfold window. rewrite Eb, Ew1. change (14 + 1) with 15 in Ew2. by rewrite Ew2.
  - unfold payload. rewrite Ho, Eb, slice_Some by lia. split; [|split].
    + f_equal. apply ztake_all. rewrite zlen_zdrop. lia.
    + by apply Forall_drop.
    + rewrite zlen_zdrop. lia.
  - unfold ae. by rewrite Eb, Eh.
  - unfold mss_option. by rewrite (walk_tlvs p hl ts).
  - unfold timestamps. by rewrite (walk_tlvs p hl ts).
  - unfold window_scale. by rewrite (walk_tlvs p hl ts).
  - unfold sack_permitted. by rewrite (walk_tlvs p hl ts).
  - unfold sack_blocks. rewrite (walk_tlvs p hl ts) by done. exists bs, n. split; [done|].
    rewrite slice_Some by lia. rewrite zdrop_0 by lia. rewrite Z.sub_0_r.
    split; [done|]. by apply Forall_take.
Qed.
