(* ===== verification/Sack.v ===== *)
(** The sender's SACK scoreboard: [tcp-core/src/sack.rs].

    Run lists are lists of half-open intervals of sequence numbers, as in the
    code.  [runs_wf base lo] is the code's structural invariant in offsets from
    [base]; [covers] is the set of octets a list denotes.  Every operation is
    shown equal to its meaning on that set, and the two walks of the predicates
    (a [while] loop over uniform spans, with fuel) to their octet-by-octet
    definition. *)

From stdpp Require Import relations.
From S2P Require Import Prelude Seq.

Definition DUP_THRESH : Z := 3.
Definition MAX_RUNS : Z := 128.

Abbreviation Run := (SeqNumber * SeqNumber)%type.

Record Scoreboard := mkScoreboard {
  sacked : list Run;
  rexmit : list Run;
  recovery_point : option SeqNumber;
  rescue_done : bool;
}.
#[export] Instance Scoreboard_settable : Settable Scoreboard :=
  fun b => mkScoreboard (sacked b) (rexmit b) (recovery_point b) (rescue_done b).

(** *** The run lists *)

(** The scan of [insert_run]: [first], [count] and the widened [l], [r]. *)
Fixpoint scan_runs (runs : list Run) (i : nat) (first count : nat) (l r : SeqNumber)
  : nat * nat * SeqNumber * SeqNumber :=
  match runs with
  | [] => (first, count, l, r)
  | (rl, rr) :: rest =>
      if seq_le rl r && seq_le l rr then
        let first := match count with O => i | _ => first end in
        let count := S count in
        let l := if seq_lt rl l then rl else l in
        let r := if seq_gt rr r then rr else r in
        scan_runs rest (S i) first count l r
      else scan_runs rest (S i) first count l r
  end.

(** [for _ in 0..count { runs.remove(first); }] *)
Fixpoint remove_times {A} (count : nat) (v : list A) (i : nat) : option (list A) :=
  match count with
  | O => Some v
  | S count => let? v := vec_remove v i in remove_times count v i
  end.

(** [runs.iter().position(|&(rl, _)| l.lt(rl)).unwrap_or(runs.len())] *)
Fixpoint position_above (l : SeqNumber) (runs : list Run) : nat :=
  match runs with
  | [] => O
  | (rl, _) :: rest => if seq_lt l rl then O else S (position_above l rest)
  end.

Definition insert_run (runs : list Run) (l r : SeqNumber) : option (list Run) :=
  let '(first, count, l, r) := scan_runs runs O (length runs) O l r in
  let? runs := remove_times count runs first in
  let pos := position_above l runs in
  Some (vec_insert runs pos (l, r)).

Fixpoint windows_ascend (runs : list Run) : bool :=
  match runs with
  | (_, r) :: (((l, _) :: _) as rest) => seq_lt r l && windows_ascend rest
  | _ => true
  end.
Definition run_list_well_formed (runs : list Run) : bool :=
  forallb (fun '(l, r) => seq_lt l r) runs && windows_ascend runs.

Definition trim_runs (runs : list Run) (snd_una : SeqNumber) : list Run :=
  map (fun '(l, r) => (if seq_lt l snd_una then snd_una else l, r))
    (List.filter (fun '(_, r) => seq_gt r snd_una) runs).

(** *** The scoreboard *)

Definition scoreboard_new : Scoreboard := mkScoreboard [] [] None false.

Definition in_recovery (self : Scoreboard) : bool := is_some (recovery_point self).
Definition begin_recovery (self : Scoreboard) (rp : SeqNumber) : Scoreboard :=
  self <| recovery_point := Some rp |> <| rescue_done := false |>.
Definition recovery_reached (self : Scoreboard) (snd_una : SeqNumber) : bool :=
  match recovery_point self with Some rp => seq_ge snd_una rp | None => false end.
Definition exit_recovery (self : Scoreboard) : Scoreboard :=
  self <| recovery_point := None |> <| rexmit := [] |> <| rescue_done := false |>.
Definition sb_on_rto (self : Scoreboard) : Scoreboard :=
  self <| rexmit := [] |> <| recovery_point := None |> <| rescue_done := false |>.

(** One block of [update]. *)
Definition update_block (snd_una snd_nxt : SeqNumber) (runs : list Run) (blk : Run)
  : option (list Run) :=
  let '(l, r) := blk in
  if negb (seq_lt l r) then Some runs
  else if seq_le r snd_una then Some runs
  else if seq_gt l snd_nxt || seq_gt r snd_nxt then Some runs
  else
    let l := if seq_lt l snd_una then snd_una else l in
    if seq_lt l r then insert_run runs l r else Some runs.
Fixpoint update_blocks (snd_una snd_nxt : SeqNumber) (runs : list Run) (blks : list Run)
  : option (list Run) :=
  match blks with
  | [] => Some runs
  | blk :: blks =>
      let? runs := update_block snd_una snd_nxt runs blk in
      update_blocks snd_una snd_nxt runs blks
  end.
(** [while self.sacked.len() > MAX_RUNS { self.sacked.pop(); }] *)
Fixpoint pop_excess (fuel : nat) (runs : list Run) : option (list Run) :=
  if MAX_RUNS <? zlen runs then
    match fuel with
    | O => None
    | S fuel => pop_excess fuel (ztake (zlen runs - 1) runs)
    end
  else Some runs.
Definition sb_update (self : Scoreboard) (snd_una snd_nxt : SeqNumber) (blks : list Run)
  : option Scoreboard :=
  let? runs := update_blocks snd_una snd_nxt (sacked self) blks in
  let? runs := pop_excess (length runs) runs in
  Some (self <| sacked := runs |>).

Definition trim (self : Scoreboard) (snd_una : SeqNumber) : Scoreboard :=
  self <| sacked := trim_runs (sacked self) snd_una |>
       <| rexmit := trim_runs (rexmit self) snd_una |>.

Definition mark_rexmit (self : Scoreboard) (l r : SeqNumber) : option Scoreboard :=
  if seq_lt l r then
    let? runs := insert_run (rexmit self) l r in Some (self <| rexmit := runs |>)
  else Some self.

Definition set_rescue_done (self : Scoreboard) : Scoreboard := self <| rescue_done := true |>.

Definition invariants_hold (self : Scoreboard) : bool :=
  run_list_well_formed (sacked self) && run_list_well_formed (rexmit self).

Definition in_run (s : SeqNumber) (run : Run) : bool := seq_ge s run.1 && seq_lt s run.2.
Definition is_sacked (self : Scoreboard) (s : SeqNumber) : bool := existsb (in_run s) (sacked self).
Definition is_rexmit (self : Scoreboard) (s : SeqNumber) : bool := existsb (in_run s) (rexmit self).

Definition highest_sacked_edge (self : Scoreboard) : option SeqNumber :=
  let? run := at_ (sacked self) (zlen (sacked self) - 1) in Some run.2.

(** The body of the [for] in [next_boundary]. *)
Definition boundary_step (s : SeqNumber) (b : SeqNumber) (run : Run) : SeqNumber :=
  let '(l, r) := run in
  let b := if seq_gt l s && seq_lt l b then l else b in
  if seq_gt r s && seq_lt r b then r else b.
Definition next_boundary (self : Scoreboard) (s limit : SeqNumber) : SeqNumber :=
  fold_left (boundary_step s) (sacked self ++ rexmit self) limit.

Definition unsacked_run_len (self : Scoreboard) (s limit : SeqNumber) : Z :=
  let end_ := fold_left (fun e '(l, _) => if seq_gt l s && seq_lt l e then l else e)
                (sacked self) limit in
  if seq_le end_ s then 0 else offset_from end_ s.

Definition lost_step (s : SeqNumber) (acc : Z * Z) (run : Run) : Z * Z :=
  let '(blocks_above, bytes_above) := acc in
  let '(l, r) := run in
  if seq_gt l s then (blocks_above + 1, sat_add32 bytes_above (offset_from r l))
  else (blocks_above, bytes_above).
Definition is_lost (self : Scoreboard) (s : SeqNumber) (smss : Z) : bool :=
  let '(blocks_above, bytes_above) := fold_left (lost_step s) (sacked self) (0, 0) in
  (DUP_THRESH <=? blocks_above) || ((DUP_THRESH - 1) * smss <? bytes_above).

(** Fuel for the span walks: every span but the last ends at a run edge. *)
Definition walk_fuel (self : Scoreboard) : nat :=
  S (S (2 * (length (sacked self) + length (rexmit self)))).

Fixpoint pipe_loop (fuel : nat) (self : Scoreboard) (s snd_nxt smss pipe : Z) : option Z :=
  match fuel with
  | O => None
  | S fuel =>
      if seq_lt s snd_nxt then
        let end_ := next_boundary self s snd_nxt in
        let pipe :=
          if negb (is_sacked self s) && (is_rexmit self s || negb (is_lost self s smss))
          then sat_add32 pipe (offset_from end_ s) else pipe in
        pipe_loop fuel self end_ snd_nxt smss pipe
      else Some pipe
  end.
Definition pipe (self : Scoreboard) (snd_una snd_nxt smss : Z) : option Z :=
  pipe_loop (walk_fuel self) self snd_una snd_nxt smss 0.

(** The two walks of [next_seg]: the first span start satisfying [hole]. *)
Fixpoint find_span (fuel : nat) (self : Scoreboard) (hole : SeqNumber -> bool) (s snd_nxt : Z)
  : option (option SeqNumber) :=
  match fuel with
  | O => None
  | S fuel =>
      if seq_lt s snd_nxt then
        let end_ := next_boundary self s snd_nxt in
        if hole s then Some (Some s) else find_span fuel self hole end_ snd_nxt
      else Some None
  end.
Definition lost_hole (self : Scoreboard) (smss : Z) (s : SeqNumber) : bool :=
  negb (is_sacked self s) && negb (is_rexmit self s) && is_lost self s smss.
Definition rescue_hole (self : Scoreboard) (high : SeqNumber) (s : SeqNumber) : bool :=
  negb (is_sacked self s) && negb (is_rexmit self s) && seq_lt s high.
Definition next_seg (self : Scoreboard) (snd_una snd_nxt smss : Z)
  : option (option (SeqNumber * bool)) :=
  let? found := find_span (walk_fuel self) self (lost_hole self smss) snd_una snd_nxt in
  match found with
  | Some s => Some (Some (s, false))
  | None =>
      if negb (rescue_done self) then
        match highest_sacked_edge self with
        | Some high =>
            let? found := find_span (walk_fuel self) self (rescue_hole self high) snd_una snd_nxt in
            Some (match found with Some s => Some (s, true) | None => None end)
        | None => Some None
        end
      else Some None
  end.

(** ** Run lists in offsets *)

(** Every edge within half the sequence space above [base], runs non-empty,
    ascending with gaps, the first at offset [lo] or more. *)
Fixpoint runs_wf (base : SeqNumber) (lo : Z) (runs : list Run) : Prop :=
  match runs with
  | [] => True
  | (l, r) :: rest =>
      in_half base l /\ in_half base r /\ lo <= off base l < off base r /\
      runs_wf base (off base r + 1) rest
  end.

(** The octets of a list, by offset. *)
Definition covers (base : SeqNumber) (runs : list Run) (x : Z) : Prop :=
  Exists (fun run => off base run.1 <= x < off base run.2) runs.

(** All edges at or below offset [hi]. *)
Definition runs_below (base : SeqNumber) (hi : Z) (runs : list Run) : Prop :=
  Forall (fun run => off base run.2 <= hi) runs.

Section runs.
Context (base : SeqNumber).

Lemma runs_wf_weaken lo lo' runs : lo' <= lo -> runs_wf base lo runs -> runs_wf base lo' runs.
Proof. destruct runs as [|[l r] rest]; [done|]. cbn. intuition lia. Qed.

Lemma covers_nil x : ~ covers base [] x.
Proof. by intros ?%List.Exists_nil. Qed.
Lemma covers_cons l r rest x :
  covers base ((l, r) :: rest) x <-> off base l <= x < off base r \/ covers base rest x.
Proof. unfold covers. by rewrite List.Exists_cons. Qed.
Lemma covers_app a b x : covers base (a ++ b) x <-> covers base a x \/ covers base b x.
Proof. unfold covers. by rewrite List.Exists_app. Qed.
Lemma covers_lo lo runs x : runs_wf base lo runs -> covers base runs x -> lo <= x.
Proof.
  revert lo. induction runs as [|[l r] rest IH]; intros lo Hwf.
  { by intros ?%covers_nil. }
  destruct Hwf as (_ & _ & ? & Hrest). rewrite covers_cons. intros [?|Hc]; [lia|].
  specialize (IH _ Hrest Hc). lia.
Qed.

(** The reference insertion. *)
Fixpoint ins (l r : SeqNumber) (runs : list Run) : list Run :=
  match runs with
  | [] => [(l, r)]
  | (a, b) :: rest =>
      if off base b <? off base l then (a, b) :: ins l r rest
      else if off base r <? off base a then (l, r) :: (a, b) :: rest
      else ins (if off base a <? off base l then a else l)
               (if off base r <? off base b then b else r) rest
  end.

Lemma ins_wf runs : forall lo l r,
  runs_wf base lo runs -> in_half base l -> in_half base r ->
  lo <= off base l < off base r -> runs_wf base lo (ins l r runs).
Proof.
  induction runs as [|[a b] rest IH]; intros lo l r Hwf Hl Hr Hlr; [done|].
  destruct Hwf as (Ha & Hb & Hab & Hrest). cbn [ins].
  destruct (_ <? _) eqn:E1; [|destruct (_ <? off base a) eqn:E2].
  - cbn. split_and!; try done; try lia. apply IH; try done. lia.
  - cbn. split_and!; try done; try lia.
  - apply IH; [eapply runs_wf_weaken; [|done]; lia|by case_ifs|by case_ifs|].
    case_ifs; lia.
Qed.

Lemma ins_covers runs x : forall lo l r,
  runs_wf base lo runs -> off base l < off base r ->
  covers base (ins l r runs) x <-> off base l <= x < off base r \/ covers base runs x.
Proof.
  induction runs as [|[a b] rest IH]; intros lo l r Hwf Hlr.
  { cbn. rewrite covers_cons. done. }
  destruct Hwf as (Ha & Hb & Hab & Hrest). cbn [ins].
  destruct (_ <? _) eqn:E1; [|destruct (_ <? off base a) eqn:E2]; rewrite ?covers_cons.
  - rewrite (IH _ _ _ Hrest) by done. tauto.
  - tauto.
  - rewrite (IH _ _ _ Hrest) by (case_ifs; lia). case_ifs; intuition lia.
Qed.

Lemma ins_below hi runs : forall l r,
  runs_below base hi runs -> off base r <= hi -> runs_below base hi (ins l r runs).
Proof.
  unfold runs_below. induction runs as [|[a b] rest IH]; intros l r Hbel Hr.
  { by apply List.Forall_cons. }
  apply List.Forall_cons_iff in Hbel as [Hab Hrest]. cbn in Hab. cbn [ins].
  case_ifs; repeat first [apply IH | apply List.Forall_cons]; done || lia.
Qed.

(** The scan past runs that lie wholly above. *)
Lemma scan_above runs i first count l r :
  in_half base l -> in_half base r -> runs_wf base (off base r + 1) runs ->
  scan_runs runs i first count l r = (first, count, l, r).
Proof.
  intros Hl Hr. assert (forall lo, off base r + 1 <= lo -> runs_wf base lo runs ->
    scan_runs runs i first count l r = (first, count, l, r)) as H; [|by apply H].
  revert i. induction runs as [|[a b] rest IH]; intros i lo Hlo; [done|].
  intros (Ha & Hb & ? & Hrest). cbn [scan_runs]. rewrite (le_off base) by done.
  destruct (off base a <=? off base r) eqn:?; [lia|]. apply (IH _ (off base b + 1)); [lia|done].
Qed.

(** Once a run is absorbed ([0 < count]), the scan absorbs a prefix. *)
Lemma scan_absorb runs : forall lo i first count l r,
  runs_wf base lo runs -> off base l < lo -> in_half base l -> in_half base r ->
  exists k r', (k <= length runs)%nat /\ in_half base r' /\ off base r <= off base r' /\
    scan_runs runs i first (S count) l r = (first, (S count + k)%nat, l, r') /\
    ins l r runs = (l, r') :: drop k runs /\ runs_wf base (off base r' + 1) (drop k runs).
Proof.
  induction runs as [|[a b] rest IH]; intros lo i first count l r Hwf Hlo Hl Hr.
  { exists 0%nat, r. split_and!; try done; try lia. by rewrite Nat.add_0_r. }
  destruct Hwf as (Ha & Hb & Hab & Hrest). cbn [scan_runs ins].
  rewrite (le_off base a r), (le_off base l b), (lt_off base a l), (gt_off base b r) by done.
  destruct (off base b <? off base l) eqn:E0; [lia|].
  destruct (off base a <? off base l) eqn:E1; [lia|].
  destruct (off base r <? off base a) eqn:E2.
  - exists 0%nat, r. cbn [drop]. split_and!; try done; try lia.
    + destruct (_ && _) eqn:?; [lia|]. rewrite Nat.add_0_r.
      apply scan_above; try done. eapply runs_wf_weaken; [|done]. lia.
    + cbn. split_and!; try done; lia.
  - destruct (_ && _) eqn:?; [|lia]. cbv zeta.
    destruct (IH (off base b + 1) (S i) first (S count) l (if off base r <? off base b then b else r))
      as (k & r' & Hk & Hr' & Hle & Hscan & Hins & Hdrop); [done|lia|done|by case_ifs|].
    exists (S k), r'. cbn [length drop]. split_and!; try done; try lia.
    + revert Hle. case_ifs; lia.
    + rewrite Hscan. f_equal. f_equal. f_equal. lia.
Qed.

(** The whole scan: skip runs below, then absorb. *)
Lemma scan_spec runs : forall lo i first l r,
  runs_wf base lo runs -> in_half base l -> in_half base r -> off base l < off base r ->
  exists pre rest k l' r', runs = pre ++ rest /\ (k <= length rest)%nat /\
    in_half base l' /\ in_half base r' /\ off base l' < off base r' /\
    scan_runs runs i first 0 l r
      = (match k with O => first | _ => (i + length pre)%nat end, k, l', r') /\
    ins l r runs = pre ++ (l', r') :: drop k rest /\
    Forall (fun run => in_half base run.1 /\ off base run.1 < off base l') pre /\
    runs_wf base (off base r' + 1) (drop k rest).
Proof.
  induction runs as [|[a b] rest IH]; intros lo i first l r Hwf Hl Hr Hlr.
  { by exists [], [], 0%nat, l, r. }
  destruct Hwf as (Ha & Hb & Hab & Hrest). cbn [scan_runs ins].
  rewrite (le_off base a r), (le_off base l b), (lt_off base a l), (gt_off base b r) by done.
  destruct (off base b <? off base l) eqn:E0.
  - destruct (_ && _) eqn:?; [lia|].
    destruct (IH (off base b + 1) (S i) first l r)
      as (pre & rest' & k & l' & r' & -> & Hk & Hl' & Hr' & Hlr' & Hscan & Hins & Hpre & Hdrop);
      try done.
    assert (off base a < off base l').
    { assert (Hw := ins_wf (pre ++ rest') (off base b + 1) l r Hrest Hl Hr ltac:(lia)).
      rewrite Hins in Hw. destruct pre as [|[p q] pre]; cbn in Hw; [destruct_and! Hw; lia|].
      apply List.Forall_cons_iff in Hpre as [[_ ?] _]. cbn in *. destruct_and! Hw. lia. }
    exists ((a, b) :: pre), rest', k, l', r'. split_and!; try done.
    + rewrite Hscan. f_equal. f_equal. f_equal. destruct k; cbn [length]; lia.
    + by rewrite Hins.
    + by apply List.Forall_cons.
  - destruct (off base r <? off base a) eqn:E2.
    + destruct (_ && _) eqn:?; [lia|]. exists [], ((a, b) :: rest), 0%nat, l, r.
      split_and!; try done; try (cbn; lia).
      * apply scan_above; try done. eapply runs_wf_weaken; [|done]. lia.
      * cbn. split_and!; try done; lia.
    + destruct (_ && _) eqn:?; [|lia]. cbv zeta.
      destruct (scan_absorb rest (off base b + 1) (S i) i 0
          (if off base a <? off base l then a else l) (if off base r <? off base b then b else r))
        as (k & r' & Hk & Hr' & Hle & Hscan & Hins & Hdrop); [done|case_ifs; lia|by case_ifs|by case_ifs|].
      exists [], ((a, b) :: rest), (S k), (if off base a <? off base l then a else l), r'.
      cbn [app length drop]. split_and!; try done; try lia.
      * by case_ifs.
      * revert Hle. case_ifs; lia.
      * rewrite Hscan. rewrite Nat.add_0_r. done.
Qed.
End runs.

Lemma remove_times_prefix {A} (pre rest : list A) k :
  (k <= length rest)%nat -> remove_times k (pre ++ rest) (length pre) = Some (pre ++ drop k rest).
Proof.
  revert rest. induction k as [|k IH]; intros rest Hk; [done|].
  destruct rest as [|x rest]; cbn in Hk; [lia|]. cbn [remove_times drop].
  rewrite vec_remove_at. apply IH. lia.
Qed.

Section insert.
Context (base : SeqNumber).

Lemma position_above_app l pre rest :
  in_half base l ->
  Forall (fun run => in_half base run.1 /\ off base run.1 < off base l) pre ->
  runs_wf base (off base l + 1) rest ->
  position_above l (pre ++ rest) = length pre.
Proof.
  intros Hl Hpre Hrest. induction Hpre as [|[a b] pre [Ha Hlt] Hpre IH]; cbn in *.
  - destruct rest as [|[a b] rest]; [done|]. destruct Hrest as (Ha & _ & ? & _).
    cbn. rewrite (lt_off base) by done. by destruct (_ <? _) eqn:?; [|lia].
  - rewrite (lt_off base) by done. destruct (_ <? _) eqn:?; [lia|]. by rewrite IH.
Qed.

(** [insert_run] is the reference insertion, and never panics. *)
Lemma insert_run_ins lo runs l r :
  runs_wf base lo runs -> in_half base l -> in_half base r -> off base l < off base r ->
  insert_run runs l r = Some (ins base l r runs).
Proof.
  intros Hwf Hl Hr Hlr. unfold insert_run.
  destruct (scan_spec base runs lo 0 (length runs) l r Hwf Hl Hr Hlr)
    as (pre & rest & k & l' & r' & -> & Hk & Hl' & Hr' & Hlr' & -> & -> & Hpre & Hdrop).
  assert (Hrm : remove_times k (pre ++ rest)
    (match k with O => length (pre ++ rest) | S _ => 0 + length pre end) = Some (pre ++ drop k rest)).
  { destruct k; [done|]. by apply remove_times_prefix. }
  rewrite Hrm, position_above_app; [|done|done|eapply runs_wf_weaken; [|done]; lia].
  by rewrite vec_insert_at.
Qed.

(** The code's well-formedness check is [runs_wf]. *)
Lemma well_formed_spec lo runs :
  runs_wf base lo runs -> run_list_well_formed runs = true.
Proof.
  intros Hwf. unfold run_list_well_formed. apply andb_true_intro.
  revert lo Hwf. induction runs as [|[l r] rest IH]; intros lo Hwf; [done|].
  destruct Hwf as (Hl & Hr & ? & Hrest). destruct (IH _ Hrest) as [H1 H2].
  cbn [forallb windows_ascend]. rewrite H1, (lt_off base) by done.
  split; [lia|]. destruct rest as [|[a b] rest]; [done|].
  destruct Hrest as (Ha & Hb & ? & _). rewrite (lt_off base) by done.
  by destruct (_ <? _) eqn:?; [|lia].
Qed.

(** *** Trimming *)

Lemma trim_runs_spec una hi runs : forall lo,
  in_half base una -> runs_wf base lo runs -> runs_below base hi runs ->
  runs_wf base (Z.max lo (off base una)) (trim_runs runs una) /\
  runs_below base hi (trim_runs runs una) /\
  forall x, covers base (trim_runs runs una) x <-> covers base runs x /\ off base una <= x.
Proof.
  intros lo Hu. revert lo. induction runs as [|[l r] rest IH]; intros lo Hwf Hbel.
  { split_and!; try done. cbn. intros x. split; [by intros ?%covers_nil|by intros [?%covers_nil ?]]. }
  destruct Hwf as (Hl & Hr & Hlr & Hrest). apply List.Forall_cons_iff in Hbel as [Hb Hbel].
  destruct (IH _ Hrest Hbel) as (Hw & Hb' & Hc). cbn in Hb.
  unfold trim_runs in *. cbn [List.filter]. rewrite (gt_off base) by done.
  destruct (off base una <? off base r) eqn:E; cbn [map].
  - rewrite (lt_off base) by done. cbn [runs_wf]. split_and!.
    + by case_ifs.
    + done.
    + case_ifs; lia.
    + case_ifs; lia.
    + eapply runs_wf_weaken; [|exact Hw]. lia.
    + apply List.Forall_cons; [done|exact Hb'].
    + intros x. rewrite !covers_cons, Hc. split.
      * intros [?|[? ?]]; [split; [left|]; revert H; case_ifs; lia|auto].
      * intros [[?|?] ?]; [left; case_ifs; lia|auto].
  - split_and!; [|done|].
    + eapply runs_wf_weaken; [|exact Hw]. lia.
    + intros x. rewrite covers_cons, Hc. split; [tauto|]. intros [[?|?] ?]; [lia|done].
Qed.

(** Moving the base of the window up. *)
Lemma runs_wf_rebase base' lo runs :
  seq_ok base' -> off base base' <= lo -> runs_wf base lo runs ->
  runs_wf base' (lo - off base base') runs.
Proof.
  intros Hb. revert lo. induction runs as [|[l r] rest IH]; intros lo Hlo Hwf; [done|].
  destruct Hwf as ([Hl1 Hl2] & [Hr1 Hr2] & ? & Hrest). pose proof (off_range base base').
  cbn [runs_wf]. rewrite !(off_rebase base base') by (done || lia).
  unfold in_half. rewrite !(off_rebase base base') by (done || lia).
  split_and!; try done; try lia.
  replace (off base r - off base base' + 1) with (off base r + 1 - off base base') by lia.
  apply IH; [lia|done].
Qed.
Lemma runs_below_rebase base' lo hi runs :
  seq_ok base' -> off base base' <= lo -> runs_wf base lo runs -> runs_below base hi runs ->
  runs_below base' (hi - off base base') runs.
Proof.
  intros Hb. revert lo. induction runs as [|[l r] rest IH]; intros lo Hlo Hwf Hbel; [constructor|].
  destruct Hwf as (Hl & Hr & ? & Hrest). apply List.Forall_cons_iff in Hbel as [Hrb Hbel].
  apply List.Forall_cons; [|apply (IH (off base r + 1)); done || lia]. cbn in *.
  rewrite (off_rebase base base') by (done || lia). lia.
Qed.
Lemma covers_rebase base' lo runs x :
  seq_ok base' -> off base base' <= lo -> runs_wf base lo runs ->
  covers base' runs x <-> covers base runs (x + off base base').
Proof.
  intros Hb. revert lo. induction runs as [|[l r] rest IH]; intros lo Hlo Hwf.
  { split; by intros ?%covers_nil. }
  destruct Hwf as (Hl & Hr & ? & Hrest). rewrite !covers_cons, (IH (off base r + 1)) by (done || lia).
  rewrite !(off_rebase base base') by (done || lia). split; intros [?|?]; auto; left; lia.
Qed.
End insert.

(** ** The scoreboard invariant *)

(** Both run lists are well formed and lie in the window between [snd_una] and
    [snd_nxt]. *)
Record sb_wf (snd_una snd_nxt : SeqNumber) (b : Scoreboard) : Prop := {
  sb_una : seq_ok snd_una;
  sb_nxt : in_half snd_una snd_nxt;
  sb_sacked : runs_wf snd_una 0 (sacked b);
  sb_sacked_below : runs_below snd_una (off snd_una snd_nxt) (sacked b);
  sb_rexmit : runs_wf snd_una 0 (rexmit b);
  sb_rexmit_below : runs_below snd_una (off snd_una snd_nxt) (rexmit b);
}.

(** The blocks [update] accepts, and the octets one denotes. *)
Definition valid_block (snd_una snd_nxt : SeqNumber) (blk : Run) : bool :=
  seq_lt blk.1 blk.2 && negb (seq_le blk.2 snd_una) &&
  negb (seq_gt blk.1 snd_nxt || seq_gt blk.2 snd_nxt).
Definition block_covers (snd_una snd_nxt : SeqNumber) (x : Z) (blk : Run) : Prop :=
  valid_block snd_una snd_nxt blk = true /\
  off snd_una (if seq_lt blk.1 snd_una then snd_una else blk.1) <= x < off snd_una blk.2.

(** A SACK block taken from the wire has arbitrary edges: after the code's
    three checks and the clip both are in the window. *)
Lemma valid_block_window una nxt l r :
  seq_ok una -> in_half una nxt -> seq_ok l -> seq_ok r ->
  valid_block una nxt (l, r) = true ->
  let l' := if seq_lt l una then una else l in
  in_half una l' /\ in_half una r /\ off una l' < off una r <= off una nxt.
Proof.
  intros Hu Hn Hl Hr. unfold valid_block. cbn [fst snd]. rewrite !andb_true_iff, !negb_true_iff, orb_false_iff.
  intros [[Hlr Hru] [Hln Hrn]].
  destruct (seq_gt_in_half una r Hr) as [Hr' Hrpos]; [by rewrite seq_gt_lt, Hru|].
  rewrite (gt_off una) in Hrn by done. cbv zeta. destruct (seq_lt l una) eqn:E.
  - split; [by apply in_half_self|]. split; [done|]. rewrite off_self. lia.
  - assert (Hl' : in_half una l) by (apply seq_ge_in_half; [done|by rewrite seq_ge_lt, E]).
    rewrite (lt_off una) in Hlr by done. split_and!; try done; lia.
Qed.

Lemma update_block_spec una nxt runs blk :
  seq_ok una -> in_half una nxt -> seq_ok blk.1 -> seq_ok blk.2 ->
  runs_wf una 0 runs -> runs_below una (off una nxt) runs ->
  exists runs', update_block una nxt runs blk = Some runs' /\
    runs_wf una 0 runs' /\ runs_below una (off una nxt) runs' /\
    forall x, covers una runs' x <-> covers una runs x \/ block_covers una nxt x blk.
Proof.
  destruct blk as [l r]. intros Hu Hn Hl Hr Hwf Hbel. cbn in Hl, Hr.
  destruct (valid_block una nxt (l, r)) eqn:Hv.
  - destruct (valid_block_window una nxt l r Hu Hn Hl Hr Hv) as (Hl' & Hr' & Hlr).
    unfold update_block, block_covers. rewrite Hv. cbn [fst snd].
    unfold valid_block in Hv. cbn [fst snd] in Hv.
    rewrite !andb_true_iff, !negb_true_iff in Hv. destruct Hv as [[-> ->] ->]. cbn [negb].
    set (l' := if seq_lt l una then una else l) in *.
    rewrite (lt_off una) by done. destruct (_ <? _) eqn:?; [|lia].
    rewrite (insert_run_ins una 0) by (done || lia). pose proof (off_range una l').
    eexists. split; [done|]. split; [by apply ins_wf; try lia|].
    split; [apply ins_below; [done|lia]|].
    intros x. rewrite (ins_covers una _ _ 0) by (done || lia). tauto.
  - exists runs. split_and!; try done.
    + revert Hv. unfold valid_block, update_block. cbn [fst snd].
      destruct (seq_lt l r), (seq_le r una), (_ || _); done.
    + intros x. unfold block_covers. rewrite Hv. intuition done.
Qed.

Lemma update_blocks_spec una nxt blks : forall runs,
  seq_ok una -> in_half una nxt -> Forall (fun blk => seq_ok blk.1 /\ seq_ok blk.2) blks ->
  runs_wf una 0 runs -> runs_below una (off una nxt) runs ->
  exists runs', update_blocks una nxt runs blks = Some runs' /\
    runs_wf una 0 runs' /\ runs_below una (off una nxt) runs' /\
    forall x, covers una runs' x <-> covers una runs x \/ Exists (block_covers una nxt x) blks.
Proof.
  induction blks as [|blk blks IH]; intros runs Hu Hn Hok Hwf Hbel.
  { exists runs. split_and!; try done. intros x. rewrite List.Exists_nil. tauto. }
  apply List.Forall_cons_iff in Hok as [[Hl Hr] Hok]. cbn [update_blocks].
  destruct (update_block_spec una nxt runs blk) as (runs' & -> & Hwf' & Hbel' & Hc); try done.
  destruct (IH runs') as (runs'' & -> & ? & ? & Hc'); try done.
  exists runs''. split_and!; try done. intros x. rewrite Hc', Hc, List.Exists_cons. tauto.
Qed.

Lemma pop_excess_spec fuel : forall runs,
  (length runs <= fuel)%nat -> pop_excess fuel runs = Some (ztake MAX_RUNS runs).
Proof.
  unfold MAX_RUNS. induction fuel as [|fuel IH]; intros runs Hf; cbn [pop_excess]; unfold MAX_RUNS.
  - destruct runs; [done|cbn in Hf; lia].
  - destruct (_ <? _) eqn:E; [|by rewrite ztake_all by lia].
    rewrite IH.
    + unfold ztake. rewrite take_take. do 2 f_equal. lia.
    + unfold ztake, zlen in *. rewrite length_take. lia.
Qed.

Lemma runs_wf_take base n : forall lo runs, runs_wf base lo runs -> runs_wf base lo (take n runs).
Proof.
  induction n as [|n IH]; intros lo [|[l r] rest]; try done. cbn. intuition auto.
Qed.
Lemma covers_take base n runs x : covers base (take n runs) x -> covers base runs x.
Proof. rewrite <- (take_drop n runs) at 2. rewrite covers_app. auto. Qed.

Lemma sb_update_core una nxt b blks :
  sb_wf una nxt b -> Forall (fun blk => seq_ok blk.1 /\ seq_ok blk.2) blks ->
  exists b' full, sb_update b una nxt blks = Some b' /\ sb_wf una nxt b' /\
    rexmit b' = rexmit b /\ recovery_point b' = recovery_point b /\ rescue_done b' = rescue_done b /\
    sacked b' = ztake MAX_RUNS full /\ runs_wf una 0 full /\
    (forall x, covers una full x <->
       covers una (sacked b) x \/ Exists (block_covers una nxt x) blks).
Proof.
  intros [] Hok.
  destruct (update_blocks_spec una nxt blks (sacked b)) as (full & Hf & Hwf & Hbel & Hc); try done.
  unfold sb_update. rewrite Hf, pop_excess_spec by done. eexists _, full. split; [done|].
  cbn. split_and!; try done. split; cbn; try done.
  - by apply runs_wf_take.
  - by apply Forall_take.
Qed.

Lemma sb_trim_core una nxt una' b :
  sb_wf una nxt b -> seq_ok una' -> off una una' <= off una nxt ->
  sb_wf una' nxt (trim b una') /\
  (forall x, 0 <= x -> covers una' (sacked (trim b una')) x <-> covers una (sacked b) (x + off una una')) /\
  (forall x, 0 <= x -> covers una' (rexmit (trim b una')) x <-> covers una (rexmit b) (x + off una una')).
Proof.
  intros [Hu [Hn1 Hn2] Hs Hsb Hr Hrb] Hu' Hle. pose proof (off_range una una').
  assert (Hu2 : in_half una una') by (split; [done|lia]).
  destruct (trim_runs_spec una una' (off una nxt) (sacked b) 0 Hu2 Hs Hsb) as (Hs1 & Hsb1 & Hsc).
  destruct (trim_runs_spec una una' (off una nxt) (rexmit b) 0 Hu2 Hr Hrb) as (Hr1 & Hrb1 & Hrc).
  rewrite Z.max_r in Hs1, Hr1 by lia.
  assert (Hnx : off una' nxt = off una nxt - off una una') by (by apply off_rebase).
  pose proof (runs_wf_rebase una una' _ _ Hu' (Z.le_refl _) Hs1) as Hs2.
  pose proof (runs_wf_rebase una una' _ _ Hu' (Z.le_refl _) Hr1) as Hr2.
  rewrite Z.sub_diag in Hs2, Hr2.
  split; [|split].
  - split; try done; [split; [done|lia]|rewrite Hnx..].
    + exact (runs_below_rebase una una' _ _ _ Hu' (Z.le_refl _) Hs1 Hsb1).
    + exact (runs_below_rebase una una' _ _ _ Hu' (Z.le_refl _) Hr1 Hrb1).
  - intros x Hx. cbn. rewrite (covers_rebase una una' (off una una')) by done. rewrite Hsc.
    split; [tauto|]. intros; split; [done|lia].
  - intros x Hx. cbn. rewrite (covers_rebase una una' (off una una')) by done. rewrite Hrc.
    split; [tauto|]. intros; split; [done|lia].
Qed.

Lemma sb_mark_core una nxt b l r :
  sb_wf una nxt b -> in_half una l -> in_half una r -> off una r <= off una nxt ->
  exists b', mark_rexmit b l r = Some b' /\ sb_wf una nxt b' /\ sacked b' = sacked b /\
    recovery_point b' = recovery_point b /\ rescue_done b' = rescue_done b /\
    forall x, covers una (rexmit b') x <->
      covers una (rexmit b) x \/ off una l <= x < off una r.
Proof.
  intros [] Hl Hr Hrn. unfold mark_rexmit. rewrite (lt_off una) by done. pose proof (off_range una l).
  destruct (_ <? _) eqn:E.
  - rewrite (insert_run_ins una 0) by (done || lia). eexists. split; [done|].
    cbn. split_and!; try done.
    + split; cbn; try done; [apply ins_wf; done || lia|by apply ins_below].
    + intros x. rewrite (ins_covers una _ _ 0) by (done || lia). tauto.
  - exists b. split_and!; try done. intros x. intuition lia.
Qed.

Lemma sb_wf_advance una nxt nxt' b :
  sb_wf una nxt b -> in_half una nxt' -> off una nxt <= off una nxt' -> sb_wf una nxt' b.
Proof.
  intros [] Hn Hle. split; try done.
  - eapply List.Forall_impl; [|exact sb_sacked_below0]. intros; cbn in *; lia.
  - eapply List.Forall_impl; [|exact sb_rexmit_below0]. intros; cbn in *; lia.
Qed.

Lemma sb_wf_new una nxt : seq_ok una -> in_half una nxt -> sb_wf una nxt scoreboard_new.
Proof. intros. split; try done; constructor. Qed.
Lemma sb_wf_clear una nxt b rp rd :
  sb_wf una nxt b -> sb_wf una nxt (mkScoreboard (sacked b) [] rp rd).
Proof. intros []. split; try done. constructor. Qed.
Lemma sb_wf_flags una nxt b rp rd :
  sb_wf una nxt b -> sb_wf una nxt (mkScoreboard (sacked b) (rexmit b) rp rd).
Proof. intros []. by split. Qed.

(** C26 — functional.  [update] takes SACK blocks with arbitrary edges from the
    wire and never panics.  It records exactly the octets of the valid blocks
    ([full]; a block that is empty, inverted, stale or reaches beyond
    [snd_nxt] contributes nothing), then keeps the lowest MAX_RUNS runs, so it
    never marks an octet the peer did not report, never one outside
    [(snd_una, snd_nxt]], and leaves the rexmit set and the recovery episode
    alone. *)
Theorem scoreboard_update_sound una nxt b blks :
  sb_wf una nxt b -> Forall (fun blk => seq_ok blk.1 /\ seq_ok blk.2) blks ->
  exists b' full, sb_update b una nxt blks = Some b' /\ sb_wf una nxt b' /\
    invariants_hold b' = true /\ zlen (sacked b') <= MAX_RUNS /\
    rexmit b' = rexmit b /\ recovery_point b' = recovery_point b /\ rescue_done b' = rescue_done b /\
    sacked b' = ztake MAX_RUNS full /\
    (forall x, covers una full x <->
       covers una (sacked b) x \/ Exists (block_covers una nxt x) blks) /\
    (forall x, covers una (sacked b') x -> covers una full x /\ 0 <= x < off una nxt).
Proof.
  intros Hb Hok. destruct (sb_update_core una nxt b blks Hb Hok)
    as (b' & full & Hu & Hwf & H1 & H2 & H3 & Hs & Hfw & Hc).
  exists b', full. destruct Hwf as [? ? Hsw Hsb Hrw ?].
  split_and!; try done.
  - unfold invariants_hold. by rewrite (well_formed_spec una 0 _ Hsw), (well_formed_spec una 0 _ Hrw).
  - rewrite Hs, zlen_ztake. unfold MAX_RUNS. lia.
  - intros x Hx. split; [rewrite Hs in Hx; by eapply covers_take|].
    split; [by apply (covers_lo una 0 _ _ Hsw)|]. unfold covers in Hx. apply List.Exists_exists in Hx as (run & Hin & Hr).
    unfold runs_below in Hsb. rewrite List.Forall_forall in Hsb. specialize (Hsb _ Hin). cbn in *. lia.
Qed.

Lemma scoreboard_update_sound_witness :
  exists b', sb_update scoreboard_new 4294967290 20 [(0, 5); (4294967280, 4294967292); (3, 30)] = Some b' /\
    zlen (sacked b') <= MAX_RUNS /\ invariants_hold b' = true.
Proof.
  destruct (scoreboard_update_sound 4294967290 20 scoreboard_new
    [(0, 5); (4294967280, 4294967292); (3, 30)]) as (b' & full & H1 & _ & H2 & H3 & _).
  - apply sb_wf_new; [unfold seq_ok, is_u32; lia|]. split; [unfold seq_ok, is_u32; lia|reflexivity].
  - repeat apply List.Forall_cons; try apply List.Forall_nil; unfold seq_ok, is_u32; cbn; lia.
  - exists b'. split; [exact H1|]. split; [exact H3|exact H2].
Defined.

(** ** The span walks *)

Lemma fold_left_inv {A B} (P : A -> Prop) (f : A -> B -> A) l a :
  (forall a x, In x l -> P a -> P (f a x)) -> P a -> P (fold_left f l a).
Proof.
  revert a. induction l as [|x l IH]; intros a Hf Ha; [done|]. apply IH.
  - intros a' y Hy. apply Hf. by right.
  - apply Hf; [by left|done].
Qed.

Section spans.
Context (una nxt : SeqNumber) (b : Scoreboard) (Hb : sb_wf una nxt b).

Definition all_runs : list Run := sacked b ++ rexmit b.
Definition edges : list SeqNumber := flat_map (fun run => [run.1; run.2]) all_runs.

Lemma runs_wf_in lo runs run :
  runs_wf una lo runs -> In run runs ->
  in_half una run.1 /\ in_half una run.2 /\ off una run.1 < off una run.2.
Proof.
  revert lo. induction runs as [|[l r] rest IH]; intros lo Hwf; [done|].
  destruct Hwf as (Hl & Hr & ? & Hrest). intros [<-|Hin]; [split_and!; done || (cbn; lia)|].
  by apply (IH (off una r + 1)).
Qed.
Lemma all_runs_in run :
  In run all_runs -> in_half una run.1 /\ in_half una run.2 /\ off una run.1 < off una run.2.
Proof.
  destruct Hb. unfold all_runs. rewrite in_app_iff.
  intros [Hin|Hin]; [exact (runs_wf_in 0 _ _ sb_sacked0 Hin)|exact (runs_wf_in 0 _ _ sb_rexmit0 Hin)].
Qed.
Lemma edges_in e : In e edges <-> exists run, In run all_runs /\ (e = run.1 \/ e = run.2).
Proof.
  unfold edges. rewrite in_flat_map. split; intros (run & Hin & He); exists run; split; try done.
  - destruct He as [<-|[<-|[]]]; auto.
  - destruct He as [->| ->]; cbn; auto.
Qed.
Lemma edge_half e : In e edges -> in_half una e.
Proof. rewrite edges_in. intros (run & Hin & [-> | ->]); by apply all_runs_in. Qed.

(** [next_boundary]: the least edge above [s], if below the limit. *)
Lemma next_boundary_spec s limit :
  in_half una s -> in_half una limit -> off una s < off una limit ->
  let e := next_boundary b s limit in
  in_half una e /\ off una s < off una e <= off una limit /\
  (e = limit \/ In e edges) /\
  (forall t, In t edges -> off una s < off una t -> off una e <= off una t).
Proof.
  intros Hs Hl Hlt. unfold next_boundary. fold all_runs.
  assert (H : forall runs e, (forall run, In run runs -> In run all_runs) ->
    in_half una e -> off una s < off una e <= off una limit -> (e = limit \/ In e edges) ->
    let e' := fold_left (boundary_step s) runs e in
    in_half una e' /\ off una s < off una e' <= off una e /\ (e' = limit \/ In e' edges) /\
    (forall run, In run runs -> (off una s < off una run.1 -> off una e' <= off una run.1) /\
      (off una s < off una run.2 -> off una e' <= off una run.2))).
  { induction runs as [|[l r] runs IH]; intros e Hsub He Hle Hor.
    { cbn. split_and!; try done; lia. }
    cbn [fold_left]. destruct (all_runs_in (l, r)) as (Hl' & Hr' & Hlr); [apply Hsub; by left|].
    cbn in Hl', Hr', Hlr.
    assert (HlE : In l edges) by (apply edges_in; exists (l, r); split; [apply Hsub; by left|auto]).
    assert (HrE : In r edges) by (apply edges_in; exists (l, r); split; [apply Hsub; by left|auto]).
    assert (Hstep : let e1 := boundary_step s e (l, r) in
      in_half una e1 /\ off una s < off una e1 <= off una e /\ (e1 = limit \/ In e1 edges) /\
      (off una s < off una l -> off una e1 <= off una l) /\
      (off una s < off una r -> off una e1 <= off una r)).
    { cbn. rewrite (gt_off una l s), (lt_off una l e), (gt_off una r s) by done.
      destruct ((off una s <? off una l) && (off una l <? off una e)) eqn:E1;
        rewrite (lt_off una r) by done; case_ifs; split_and!; auto; lia. }
    cbv zeta in Hstep. destruct Hstep as (H1 & H2 & H3 & H4 & H5).
    destruct (IH (boundary_step s e (l, r))) as (I1 & I2 & I3 & I4); auto.
    { intros; apply Hsub; by right. } { lia. }
    split_and!; auto; try lia.
    intros run [<-|Hin]; [cbn [fst snd]; split; intros; lia|by apply I4]. }
  destruct (H all_runs limit) as (H1 & H2 & H3 & H4); auto; [lia|].
  split_and!; auto; try lia.
  intros t Ht. apply edges_in in Ht as (run & Hin & [-> | ->]); by apply H4.
Qed.

(** *** Uniformity *)

Lemma in_run_off s run : in_half una s -> In run all_runs ->
  in_run s run = (off una run.1 <=? off una s) && (off una s <? off una run.2).
Proof.
  intros Hs Hin. destruct (all_runs_in run Hin) as (? & ? & _).
  unfold in_run. by rewrite (ge_off una), (lt_off una).
Qed.

Lemma existsb_in_run s runs : in_half una s -> (forall run, In run runs -> In run all_runs) ->
  existsb (in_run s) runs = true <-> covers una runs (off una s).
Proof.
  intros Hs Hsub. rewrite existsb_exists. unfold covers. rewrite List.Exists_exists.
  split; intros (run & Hin & H); exists run; split; auto; rewrite in_run_off in * by auto; lia.
Qed.

Lemma is_sacked_spec s : in_half una s -> is_sacked b s = true <-> covers una (sacked b) (off una s).
Proof. intros. apply existsb_in_run; [done|]. intros. apply in_app_iff. auto. Qed.
Lemma is_rexmit_spec s : in_half una s -> is_rexmit b s = true <-> covers una (rexmit b) (off una s).
Proof. intros. apply existsb_in_run; [done|]. intros. apply in_app_iff. auto. Qed.

(** [t] is in the uniform span starting at [s]. *)
Definition same_span (s t : SeqNumber) : Prop :=
  in_half una s /\ in_half una t /\ off una s <= off una t /\
  forall e, In e edges -> off una s < off una e -> off una t < off una e.

Lemma same_span_runs s t runs : same_span s t -> (forall run, In run runs -> In run all_runs) ->
  existsb (in_run t) runs = existsb (in_run s) runs.
Proof.
  intros (Hs & Ht & Hle & He) Hsub.
  induction runs as [|run runs IH]; [done|]. cbn. rewrite IH by (intros; apply Hsub; by right).
  f_equal. assert (Hin : In run all_runs) by (apply Hsub; by left).
  rewrite !in_run_off by done.
  pose proof (He run.1 ltac:(apply edges_in; eauto)). pose proof (He run.2 ltac:(apply edges_in; eauto)).
  lia.
Qed.
Lemma same_span_sacked s t : same_span s t -> is_sacked b t = is_sacked b s.
Proof. intros. apply same_span_runs; [done|]. intros. apply in_app_iff. auto. Qed.
Lemma same_span_rexmit s t : same_span s t -> is_rexmit b t = is_rexmit b s.
Proof. intros. apply same_span_runs; [done|]. intros. apply in_app_iff. auto. Qed.
Lemma same_span_lost s t smss : same_span s t -> is_lost b t smss = is_lost b s smss.
Proof.
  intros (Hs & Ht & Hle & He). unfold is_lost.
  assert (forall runs acc, (forall run, In run runs -> In run all_runs) ->
    fold_left (lost_step t) runs acc = fold_left (lost_step s) runs acc) as ->; [|done|].
  2: { intros. apply in_app_iff. auto. }
  induction runs as [|[l r] runs IH]; intros acc Hsub; [done|]. cbn [fold_left].
  rewrite IH by (intros; apply Hsub; by right). f_equal.
  assert (Hin : In (l, r) all_runs) by (apply Hsub; by left).
  destruct (all_runs_in _ Hin) as (Hl & _). cbn in Hl.
  unfold lost_step. rewrite !(gt_off una) by done.
  pose proof (He l ltac:(apply edges_in; by exists (l, r); auto)).
  destruct acc. replace (off una t <? off una l) with (off una s <? off una l) by lia. done.
Qed.

Lemma span_of_boundary s t :
  in_half una s -> in_half una t -> off una s <= off una t ->
  off una s < off una nxt -> off una t < off una (next_boundary b s nxt) -> same_span s t.
Proof.
  intros Hs Ht Hle Hsn Htn.
  destruct (next_boundary_spec s nxt Hs (sb_nxt _ _ _ Hb) Hsn) as (_ & _ & _ & Hmin).
  split_and!; try done. intros e He Hlt. specialize (Hmin e He Hlt). lia.
Qed.

(** *** Termination measure *)

Definition edges_above (s : SeqNumber) : nat :=
  length (List.filter (fun e => off una s <? off una e) edges).

Lemma filter_length_lt {A} (p q : A -> bool) l x :
  (forall y, q y = true -> p y = true) -> In x l -> p x = true -> q x = false ->
  (length (List.filter q l) < length (List.filter p l))%nat.
Proof.
  intros Hqp. induction l as [|y l IH]; intros Hin Hp Hq; [done|].
  assert (length (List.filter q l) <= length (List.filter p l))%nat.
  { clear -Hqp. induction l as [|z l IH]; [done|]. cbn. specialize (Hqp z).
    destruct (q z); [rewrite Hqp by done; cbn; lia|]. destruct (p z); cbn; lia. }
  cbn. destruct Hin as [->|Hin].
  - rewrite Hp, Hq. cbn. lia.
  - specialize (IH Hin Hp Hq). specialize (Hqp y).
    destruct (q y); [rewrite Hqp by done; cbn; lia|]. destruct (p y); cbn; lia.
Qed.

Lemma edges_above_lt s e :
  In e edges -> off una s < off una e -> (edges_above e < edges_above s)%nat.
Proof.
  intros He Hlt. unfold edges_above. apply (filter_length_lt _ _ _ e); try done; try lia.
Qed.

Lemma walk_fuel_enough s : (S (edges_above s) < walk_fuel b)%nat.
Proof.
  unfold edges_above, walk_fuel. pose proof (List.filter_length_le (fun e => off una s <? off una e) edges).
  assert (length edges = 2 * (length (sacked b) + length (rexmit b)))%nat.
  { unfold edges, all_runs. rewrite <- length_app. induction (sacked b ++ rexmit b); cbn; lia. }
  lia.
Qed.

(** Fuel enough for the walk from [s]. *)
Definition enough (fuel : nat) (s : SeqNumber) : Prop :=
  (edges_above s + (if (off una s <? off una nxt)%Z then 1 else 0) < fuel)%nat.

Lemma enough_step fuel s :
  in_half una s -> off una s < off una nxt -> enough (S fuel) s ->
  enough fuel (next_boundary b s nxt).
Proof.
  intros Hs Hlt. unfold enough.
  destruct (next_boundary_spec s nxt Hs (sb_nxt _ _ _ Hb) Hlt) as (He & Hr & [Heq|Hin] & _).
  - rewrite Heq in *. rewrite Z.ltb_irrefl. destruct (_ <? _) eqn:E; [|lia].
    assert (edges_above nxt <= edges_above s)%nat; [|lia].
    unfold edges_above. clear -Hlt. induction edges as [|x l IH]; [done|]. cbn.
    destruct (off una nxt <? off una x) eqn:?; [replace (off una s <? off una x) with true by lia; cbn; lia|].
    destruct (off una s <? off una x)%Z; cbn; lia.
  - pose proof (edges_above_lt s _ Hin ltac:(lia)). case_ifs; lia.
Qed.
End spans.

(** ** The predicates, octet by octet *)

Section predicates.
Context (una nxt : SeqNumber) (b : Scoreboard) (Hb : sb_wf una nxt b).

(** RFC 6675's SetPipe counts, of the octets of [snd_una, snd_nxt), the
    unsacked ones that are not lost or were retransmitted. *)
Definition octet_in_pipe (smss x : Z) : bool :=
  let s := seq_add una x in
  negb (is_sacked b s) && (is_rexmit b s || negb (is_lost b s smss)).
Fixpoint count_from (P : Z -> bool) (n : nat) (x : Z) : Z :=
  match n with O => 0 | S n => Z.b2z (P x) + count_from P n (x + 1) end.

Lemma count_from_app P n m x :
  count_from P (n + m) x = count_from P n x + count_from P m (x + Z.of_nat n).
Proof.
  revert x. induction n as [|n IH]; intros x; cbn [count_from Nat.add].
  - change (Z.of_nat 0) with 0. by rewrite Z.add_0_r.
  - rewrite IH. replace (x + 1 + Z.of_nat n) with (x + Z.of_nat (S n)) by lia. apply Z.add_assoc.
Qed.
Lemma count_from_const P n x v :
  (forall y, x <= y < x + Z.of_nat n -> P y = v) -> count_from P n x = Z.b2z v * Z.of_nat n.
Proof.
  revert x. induction n as [|n IH]; intros x H; cbn [count_from]; [lia|].
  rewrite (H x) by lia. rewrite IH by (intros; apply H; lia). destruct v; cbn [Z.b2z]; lia.
Qed.
Lemma count_from_bound P n x : 0 <= count_from P n x <= Z.of_nat n.
Proof.
  revert x. induction n as [|n IH]; intros x; cbn [count_from]; [lia|].
  specialize (IH (x + 1)). destruct (P x); cbn [Z.b2z]; lia.
Qed.

Lemma at_offset x : 0 <= x <= off una nxt ->
  in_half una (seq_add una x) /\ off una (seq_add una x) = x.
Proof.
  intros Hx. destruct (sb_nxt _ _ _ Hb) as [_ Hn].
  assert (off una (seq_add una x) = x) as E by (apply off_add_base; lia).
  split; [|done]. split; [apply seq_add_ok|lia].
Qed.

Lemma span_octet s x :
  in_half una s -> off una s < off una nxt ->
  off una s <= x < off una (next_boundary b s nxt) -> same_span una b s (seq_add una x).
Proof.
  intros Hs Hlt Hx. pose proof (off_range una s).
  destruct (next_boundary_spec una nxt b Hb s nxt Hs (sb_nxt _ _ _ Hb) Hlt) as (_ & Hr & _).
  destruct (at_offset x) as [Hh Ho]; [lia|].
  apply (span_of_boundary una nxt b Hb); try done; lia.
Qed.

Lemma pipe_loop_spec smss fuel : forall s acc,
  in_half una s -> off una s <= off una nxt -> 0 <= acc ->
  acc + (off una nxt - off una s) <= U32_MAX -> enough una nxt b fuel s ->
  pipe_loop fuel b s nxt smss acc =
    Some (acc + count_from (octet_in_pipe smss) (Z.to_nat (off una nxt - off una s)) (off una s)).
Proof.
  induction fuel as [|fuel IH]; intros s acc Hs Hle Hacc Hmax Hf; [unfold enough in Hf; lia|].
  cbn [pipe_loop]. rewrite (lt_off una) by (done || apply (sb_nxt _ _ _ Hb)).
  destruct (off una s <? off una nxt) eqn:E.
  2: { replace (off una nxt - off una s) with 0 by lia. change (Z.to_nat 0) with O.
    cbn [count_from]. by rewrite Z.add_0_r. }
  destruct (next_boundary_spec una nxt b Hb s nxt Hs (sb_nxt _ _ _ Hb) ltac:(lia))
    as (He & Hr & _ & _).
  pose proof (off_range una s). set (e := next_boundary b s nxt) in *. cbv zeta.
  assert (Hc : count_from (octet_in_pipe smss) (Z.to_nat (off una e - off una s)) (off una s)
    = Z.b2z (negb (is_sacked b s) && (is_rexmit b s || negb (is_lost b s smss)))
      * (off una e - off una s)).
  { rewrite (count_from_const _ _ _
      (negb (is_sacked b s) && (is_rexmit b s || negb (is_lost b s smss)))); [by rewrite Z2Nat.id by lia|].
    intros y Hy. pose proof (span_octet s y Hs ltac:(lia) ltac:(fold e; lia)) as Hspan.
    unfold octet_in_pipe. rewrite (same_span_sacked una nxt b Hb s) by done.
    rewrite (same_span_rexmit una nxt b Hb s) by done.
    by rewrite (same_span_lost una nxt b Hb s). }
  rewrite (offset_from_off una) by (done || lia).
  rewrite IH; [|done|lia|case_ifs; unfold sat_add32; lia|case_ifs; unfold sat_add32; lia
    |by apply enough_step; try lia].
  replace (Z.to_nat (off una nxt - off una s))
    with (Z.to_nat (off una e - off una s) + Z.to_nat (off una nxt - off una e))%nat by lia.
  rewrite count_from_app, Hc. rewrite Z2Nat.id by lia.
  replace (off una s + (off una e - off una s)) with (off una e) by lia.
  f_equal. rewrite Z.add_assoc. f_equal.
  destruct (negb _ && _); cbn [Z.b2z]; unfold sat_add32; lia.
Qed.

Lemma find_span_spec hole fuel : forall s,
  (forall s x, in_half una s -> off una s < off una nxt ->
     off una s <= x < off una (next_boundary b s nxt) -> hole (seq_add una x) = hole s) ->
  in_half una s -> off una s <= off una nxt -> enough una nxt b fuel s ->
  exists res, find_span fuel b hole s nxt = Some res /\
    match res with
    | Some t => in_half una t /\ off una s <= off una t < off una nxt /\ hole t = true /\
        forall x, off una s <= x < off una t -> hole (seq_add una x) = false
    | None => forall x, off una s <= x < off una nxt -> hole (seq_add una x) = false
    end.
Proof.
  induction fuel as [|fuel IH]; intros s Hun Hs Hle Hf; [unfold enough in Hf; lia|].
  cbn [find_span]. rewrite (lt_off una) by (done || apply (sb_nxt _ _ _ Hb)).
  destruct (off una s <? off una nxt) eqn:E.
  2: { eexists. split; [done|]. cbn. intros. lia. }
  destruct (next_boundary_spec una nxt b Hb s nxt Hs (sb_nxt _ _ _ Hb) ltac:(lia))
    as (He & Hr & _ & _).
  destruct (hole s) eqn:Eh.
  { eexists. split; [done|]. cbn. split_and!; try done; lia. }
  destruct (IH (next_boundary b s nxt) Hun He ltac:(lia)) as (res & -> & Hres).
  { by apply enough_step; try lia. }
  eexists. split; [done|].
  assert (Hfirst : forall x, off una s <= x < off una (next_boundary b s nxt) ->
    hole (seq_add una x) = false) by (intros x Hx; rewrite (Hun s) by (done || lia); done).
  destruct res as [t|].
  - destruct Hres as (Ht & Hrt & Hh & Hbefore). split_and!; try done; try lia.
    intros x Hx. destruct (Z.lt_ge_cases x (off una (next_boundary b s nxt)));
      [apply Hfirst; lia|apply Hbefore; lia].
  - intros x Hx. destruct (Z.lt_ge_cases x (off una (next_boundary b s nxt)));
      [apply Hfirst; lia|apply Hres; lia].
Qed.

Lemma lost_hole_uniform smss s x : in_half una s -> off una s < off una nxt ->
  off una s <= x < off una (next_boundary b s nxt) ->
  lost_hole b smss (seq_add una x) = lost_hole b smss s.
Proof.
  intros Hs Hlt Hx. pose proof (span_octet s x Hs Hlt Hx) as Hspan. unfold lost_hole.
  rewrite (same_span_sacked una nxt b Hb s) by done.
  rewrite (same_span_rexmit una nxt b Hb s) by done.
  by rewrite (same_span_lost una nxt b Hb s).
Qed.

Lemma rescue_hole_uniform high s x :
  highest_sacked_edge b = Some high -> in_half una s -> off una s < off una nxt ->
  off una s <= x < off una (next_boundary b s nxt) ->
  rescue_hole b high (seq_add una x) = rescue_hole b high s.
Proof.
  intros Hh Hs Hlt Hx. pose proof (span_octet s x Hs Hlt Hx) as Hspan. unfold rescue_hole.
  rewrite (same_span_sacked una nxt b Hb s) by done.
  rewrite (same_span_rexmit una nxt b Hb s) by done. f_equal.
  assert (Hin : In high (edges b)).
  { unfold highest_sacked_edge in Hh. destruct (at_ _ _) as [run|] eqn:Ea; [|done].
    injection Hh as <-. apply edges_in. exists run. split; [|by right].
    unfold at_ in Ea. destruct (0 <=? _); [|done]. apply list_elem_of_lookup_2 in Ea.
    apply in_app_iff. left. by apply list_elem_of_In. }
  destruct Hspan as (_ & Ht & Hle & He). pose proof (edge_half una nxt b Hb high Hin).
  rewrite !(lt_off una) by done. specialize (He high Hin). lia.
Qed.

(** A queue for [next_seg]: the first octet of the window satisfying [P]. *)
Definition first_octet (P : SeqNumber -> bool) (s : SeqNumber) : Prop :=
  in_half una s /\ off una s < off una nxt /\ P s = true /\
  forall x, 0 <= x < off una s -> P (seq_add una x) = false.
Definition no_octet (P : SeqNumber -> bool) : Prop :=
  forall x, 0 <= x < off una nxt -> P (seq_add una x) = false.

Lemma find_from_una hole :
  (forall s x, in_half una s -> off una s < off una nxt ->
     off una s <= x < off una (next_boundary b s nxt) -> hole (seq_add una x) = hole s) ->
  exists res, find_span (walk_fuel b) b hole una nxt = Some res /\
    match res with Some t => first_octet hole t | None => no_octet hole end.
Proof.
  intros Hun. pose proof (off_range una nxt).
  destruct (find_span_spec hole (walk_fuel b) una Hun) as (res & Hf & Hres).
  { apply in_half_self, (sb_una _ _ _ Hb). } { rewrite off_self. lia. }
  { pose proof (walk_fuel_enough una b una). unfold enough. case_ifs; lia. }
  exists res. split; [done|]. rewrite off_self in Hres. unfold first_octet, no_octet.
  destruct res as [t|]; [|done]. intuition auto.
Qed.
End predicates.

(** C27 — equivalence.  The span walk of [pipe] always reaches [snd_nxt] within
    its fuel and computes RFC 6675's SetPipe exactly: the number of octets of
    [snd_una, snd_nxt) that are unsacked and either not lost or retransmitted,
    each counted once; so the estimate never exceeds the bytes in flight. *)
Theorem pipe_counts_octets una nxt b smss :
  sb_wf una nxt b ->
  pipe b una nxt smss
    = Some (count_from (octet_in_pipe una b smss) (Z.to_nat (off una nxt)) 0) /\
  0 <= count_from (octet_in_pipe una b smss) (Z.to_nat (off una nxt)) 0 <= off una nxt.
Proof.
  intros Hb. pose proof (off_range una nxt).
  assert (H0 : off una una = 0) by apply off_self. split.
  - unfold pipe. rewrite (pipe_loop_spec una nxt b Hb); try done; try lia.
    + by rewrite H0, Z.sub_0_r.
    + apply in_half_self, (sb_una _ _ _ Hb).
    + pose proof (walk_fuel_enough una b una). unfold enough. case_ifs; lia.
  - pose proof (count_from_bound (octet_in_pipe una b smss) (Z.to_nat (off una nxt)) 0). lia.
Qed.

Lemma next_seg_core una nxt b smss :
  sb_wf una nxt b ->
  exists res, next_seg b una nxt smss = Some res /\
  match res with
  | Some (s, false) => first_octet una nxt (lost_hole b smss) s
  | Some (s, true) =>
      no_octet una nxt (lost_hole b smss) /\ rescue_done b = false /\
      exists high, highest_sacked_edge b = Some high /\ first_octet una nxt (rescue_hole b high) s
  | None =>
      no_octet una nxt (lost_hole b smss) /\
      (rescue_done b = true \/
       forall high, highest_sacked_edge b = Some high -> no_octet una nxt (rescue_hole b high))
  end.
Proof.
  intros Hb. unfold next_seg.
  destruct (find_from_una una nxt b Hb (lost_hole b smss)) as (res & -> & Hres).
  { by apply lost_hole_uniform. }
  destruct res as [s|]; [by eexists|].
  destruct (rescue_done b) eqn:Ed; cbn [negb].
  { eexists. split; [done|]. split; [exact Hres|by left]. }
  destruct (highest_sacked_edge b) as [high|] eqn:Eh;
    [|eexists; split; [done|]; split; [exact Hres|right; intros h [=]]].
  destruct (find_from_una una nxt b Hb (rescue_hole b high)) as (res2 & -> & Hres2).
  { intros. by apply (rescue_hole_uniform una nxt b Hb). }
  eexists. split; [done|]. destruct res2 as [s|].
  - split; [exact Hres|]. split; [done|]. by exists high.
  - split; [exact Hres|]. right. intros h [= <-]. exact Hres2.
Qed.

(** [next_seg] always returns, and chooses as RFC 6675's
    NextSeg does: the lowest unsacked, not yet retransmitted, lost octet
    (rule 1); if there is none, and the rescue of this episode is unused, the
    lowest unsacked, unretransmitted octet below the highest SACK (rule 3);
    otherwise nothing. *)
Lemma next_seg_chooses_lowest_hole una nxt b smss :
  sb_wf una nxt b ->
  exists res, next_seg b una nxt smss = Some res /\
  match res with
  | Some (s, false) => first_octet una nxt (lost_hole b smss) s
  | Some (s, true) =>
      no_octet una nxt (lost_hole b smss) /\ rescue_done b = false /\
      exists high, highest_sacked_edge b = Some high /\ first_octet una nxt (rescue_hole b high) s
  | None =>
      no_octet una nxt (lost_hole b smss) /\
      (rescue_done b = true \/
       forall high, highest_sacked_edge b = Some high -> no_octet una nxt (rescue_hole b high))
  end.
Proof. apply next_seg_core. Qed.

(** A scoreboard for the witnesses: a window across the wrap, two SACKed runs
    and a retransmitted one. *)
Definition demo_board : Scoreboard :=
  mkScoreboard [(4294967294, 2); (6, 9)] [(4294967290, 4294967292)] (Some 20) false.
Lemma demo_board_wf : sb_wf 4294967290 20 demo_board.
Proof.
  assert (Hh : forall s, In s [4294967290; 4294967292; 4294967294; 2; 6; 9; 20] -> in_half 4294967290 s).
  { intros s Hs. cbn in Hs. unfold in_half, seq_ok, is_u32.
    repeat (destruct Hs as [<-|Hs]; [split; [lia|reflexivity]|]). done. }
  split; try (unfold seq_ok, is_u32; lia).
  - apply Hh; cbn; auto 10.
  - cbn -[off]. split_and!; try (apply Hh; cbn; tauto); vm_compute; discriminate || done.
  - repeat apply List.Forall_cons; try apply List.Forall_nil; vm_compute; discriminate.
  - cbn -[off]. split_and!; try (apply Hh; cbn; tauto); vm_compute; discriminate || done.
  - repeat apply List.Forall_cons; try apply List.Forall_nil; vm_compute; discriminate.
Defined.

Lemma pipe_counts_octets_witness : pipe demo_board 4294967290 20 1 = Some 13.
Proof.
  refine (eq_trans (proj1 (pipe_counts_octets 4294967290 20 demo_board 1 demo_board_wf)) _).
  vm_compute. reflexivity.
Defined.

Lemma next_seg_chooses_lowest_hole_witness :
  exists res, next_seg demo_board 4294967290 20 1 = Some res /\ res = Some (4294967292, false) /\
    first_octet 4294967290 20 (lost_hole demo_board 1) 4294967292.
Proof.
  destruct (next_seg_chooses_lowest_hole 4294967290 20 demo_board 1 demo_board_wf) as (res & Hr & Hres).
  exists res. split; [exact Hr|].
  assert (E : res = Some (4294967292, false)).
  { assert (H : Some res = Some (Some (4294967292, false))) by (rewrite <- Hr; vm_compute; reflexivity).
    injection H as ->. reflexivity. }
  split; [exact E|]. rewrite E in Hres. exact Hres.
Defined.

(** *** Operation sequences *)

(** The states a sender drives its scoreboard through: new data, SACK-carrying
    and cumulative acknowledgements inside the window, retransmissions inside
    the window, and the episode transitions, in any order. *)
Record World := mkWorld { w_una : SeqNumber; w_nxt : SeqNumber; w_board : Scoreboard }.

Inductive sb_step : World -> World -> Prop :=
| step_send una nxt nxt' b :
    in_half una nxt' -> off una nxt <= off una nxt' ->
    sb_step (mkWorld una nxt b) (mkWorld una nxt' b)
| step_update una nxt b blks b' :
    Forall (fun blk => seq_ok blk.1 /\ seq_ok blk.2) blks -> sb_update b una nxt blks = Some b' ->
    sb_step (mkWorld una nxt b) (mkWorld una nxt b')
| step_ack una nxt b una' :
    seq_ok una' -> off una una' <= off una nxt ->
    sb_step (mkWorld una nxt b) (mkWorld una' nxt (trim b una'))
| step_mark una nxt b l r b' :
    in_half una l -> in_half una r -> off una r <= off una nxt -> mark_rexmit b l r = Some b' ->
    sb_step (mkWorld una nxt b) (mkWorld una nxt b')
| step_begin una nxt b rp : sb_step (mkWorld una nxt b) (mkWorld una nxt (begin_recovery b rp))
| step_exit una nxt b : sb_step (mkWorld una nxt b) (mkWorld una nxt (exit_recovery b))
| step_rto una nxt b : sb_step (mkWorld una nxt b) (mkWorld una nxt (sb_on_rto b))
| step_rescue una nxt b : sb_step (mkWorld una nxt b) (mkWorld una nxt (set_rescue_done b)).

Lemma sb_step_wf w w' :
  sb_step w w' -> sb_wf (w_una w) (w_nxt w) (w_board w) -> sb_wf (w_una w') (w_nxt w') (w_board w').
Proof.
  intros Hstep Hwf. destruct Hstep; cbn in *.
  - by apply (sb_wf_advance una nxt).
  - destruct (sb_update_core una nxt b blks Hwf) as (b1 & ? & Hu & ? & _); [done|]. congruence.
  - by apply (sb_trim_core una nxt una').
  - destruct (sb_mark_core una nxt b l r Hwf) as (b1 & Hm & ? & _); [done..|]. congruence.
  - by apply (sb_wf_flags una nxt b (Some rp) false).
  - by apply (sb_wf_clear una nxt b None false).
  - by apply (sb_wf_clear una nxt b None false).
  - by apply (sb_wf_flags una nxt b (recovery_point b) true).
Qed.

(** After any sequence of operations (any number of them,
    any window size below 2^31, any blocks from the wire), both run lists
    satisfy the code's well-formedness check and lie in the window, every
    further operation succeeds, and the queries terminate. *)
Lemma scoreboard_invariant una nxt w :
  seq_ok una -> in_half una nxt -> rtc sb_step (mkWorld una nxt scoreboard_new) w ->
  invariants_hold (w_board w) = true /\
  runs_below (w_una w) (off (w_una w) (w_nxt w)) (sacked (w_board w) ++ rexmit (w_board w)) /\
  (forall blks, Forall (fun blk => seq_ok blk.1 /\ seq_ok blk.2) blks ->
     is_Some (sb_update (w_board w) (w_una w) (w_nxt w) blks)) /\
  (forall l r, in_half (w_una w) l -> in_half (w_una w) r -> off (w_una w) r <= off (w_una w) (w_nxt w) ->
     is_Some (mark_rexmit (w_board w) l r)) /\
  (forall smss, is_Some (next_seg (w_board w) (w_una w) (w_nxt w) smss)).
Proof.
  intros Hu Hn Hsteps.
  assert (Hwf : sb_wf (w_una w) (w_nxt w) (w_board w)).
  { assert (H0 : sb_wf una nxt scoreboard_new) by (by apply sb_wf_new).
    clear Hu Hn. remember (mkWorld una nxt scoreboard_new) as w0.
    replace una with (w_una w0) in H0 by (by subst). replace nxt with (w_nxt w0) in H0 by (by subst).
    replace scoreboard_new with (w_board w0) in H0 by (by subst). clear Heqw0.
    induction Hsteps as [|? w1 ? Hstep _ IH]; [done|]. apply IH. by eapply sb_step_wf. }
  pose proof Hwf as [_ _ Hs Hsb Hr Hrb]. split_and!.
  - unfold invariants_hold. by rewrite (well_formed_spec _ 0 _ Hs), (well_formed_spec _ 0 _ Hr).
  - by apply Forall_app.
  - intros blks Hok. destruct (sb_update_core _ _ _ blks Hwf Hok) as (b' & ? & -> & _). by eexists.
  - intros l r Hl Hr' Hle. destruct (sb_mark_core _ _ _ l r Hwf Hl Hr' Hle) as (b' & -> & _). by eexists.
  - intros smss. unfold next_seg.
    destruct (find_from_una _ _ _ Hwf (lost_hole (w_board w) smss)) as (res & -> & _).
    { by apply lost_hole_uniform. }
    destruct res; [by eexists|]. destruct (negb _); [|by eexists].
    destruct (highest_sacked_edge _) as [high|] eqn:Eh; [|by eexists].
    destruct (find_from_una _ _ _ Hwf (rescue_hole (w_board w) high)) as (res & -> & _); [|by eexists].
    intros. by apply (rescue_hole_uniform (w_una w) (w_nxt w) _ Hwf).
Qed.

Lemma scoreboard_invariant_witness :
  exists b, rtc sb_step (mkWorld 4294967290 20 scoreboard_new) (mkWorld 3 20 b) /\
    sacked b = [(3, 5); (7, 9)] /\ invariants_hold b = true.
Proof.
  destruct (sb_update scoreboard_new 4294967290 20 [(0, 5); (7, 9)]) as [b1|] eqn:E; [|vm_compute in E; discriminate].
  assert (Hr : rtc sb_step (mkWorld 4294967290 20 scoreboard_new) (mkWorld 3 20 (trim b1 3))).
  { eapply rtc_l; [eapply step_update; [|exact E]|].
    - repeat apply List.Forall_cons; try apply List.Forall_nil; unfold seq_ok, is_u32; cbn; lia.
    - eapply rtc_l; [apply step_ack|apply rtc_refl]; [unfold seq_ok, is_u32; lia|vm_compute; discriminate]. }
  exists (trim b1 3). split; [exact Hr|].
  destruct (scoreboard_invariant 4294967290 20 (mkWorld 3 20 (trim b1 3))) as [H _].
  - unfold seq_ok, is_u32; lia.
  - split; [unfold seq_ok, is_u32; lia|reflexivity].
  - exact Hr.
  - split; [|exact H]. vm_compute in E. injection E as <-. vm_compute. reflexivity.
Defined.

(** *** [unsacked_run_len] *)

Section run_len.
Context (una nxt : SeqNumber) (b : Scoreboard) (Hb : sb_wf una nxt b).

(** From an unsacked octet, the length reaches exactly to the next SACKed
    octet or to the limit. *)
Lemma unsacked_run_len_spec s limit :
  in_half una s -> in_half una limit -> off una s <= off una limit -> is_sacked b s = false ->
  let n := unsacked_run_len b s limit in
  0 <= n <= off una limit - off una s /\
  (forall x, off una s <= x < off una s + n -> ~ covers una (sacked b) x) /\
  (off una s + n = off una limit \/ covers una (sacked b) (off una s + n)).
Proof.
  intros Hs Hl Hle Hun. unfold unsacked_run_len.
  set (f := fun e '(l, _) => if seq_gt l s && seq_lt l e then l else e).
  assert (Hin : forall run, In run (sacked b) ->
    in_half una run.1 /\ in_half una run.2 /\ off una run.1 < off una run.2).
  { intros. apply (all_runs_in una nxt b Hb). apply in_app_iff. auto. }
  assert (H : forall runs e, (forall run, In run runs -> In run (sacked b)) ->
    in_half una e -> off una s <= off una e ->
    (e = limit \/ exists run, In run (sacked b) /\ e = run.1) ->
    let e' := fold_left f runs e in
    in_half una e' /\ off una s <= off una e' <= off una e /\
    (e' = limit \/ exists run, In run (sacked b) /\ e' = run.1) /\
    (forall run, In run runs -> off una s < off una run.1 -> off una e' <= off una run.1)).
  { induction runs as [|[l r] runs IH]; intros e Hsub He Hse Hor.
    { cbn. split_and!; try done; lia. }
    cbn [fold_left]. destruct (Hin (l, r)) as (Hl' & _ & _); [apply Hsub; by left|]. cbn in Hl'.
    assert (Hstep : in_half una (f e (l, r)) /\ off una s <= off una (f e (l, r)) <= off una e /\
      (f e (l, r) = limit \/ exists run, In run (sacked b) /\ f e (l, r) = run.1) /\
      (off una s < off una l -> off una (f e (l, r)) <= off una l)).
    { unfold f. rewrite (gt_off una), (lt_off una) by done.
      destruct (_ && _) eqn:E; split_and!; auto; try lia. right. exists (l, r).
      split; [apply Hsub; by left|done]. }
    destruct Hstep as (H1 & H2 & H3 & H4).
    destruct (IH (f e (l, r))) as (I1 & I2 & I3 & I4); auto; [intros; apply Hsub; by right|lia|].
    split_and!; auto; try lia. intros run [<-|Hr]; [cbn [fst]; intros; lia|by apply I4]. }
  destruct (H (sacked b) limit) as (He & Hr & Hor & Hmin); auto.
  set (e := fold_left f (sacked b) limit) in *. cbv zeta.
  rewrite (le_off una) by done.
  assert (Hn : (if off una e <=? off una s then 0 else offset_from e s) = off una e - off una s).
  { destruct (_ <=? _) eqn:?; [lia|]. apply offset_from_off; done || lia. }
  rewrite Hn. clear Hn.
  assert (Hs' : ~ covers una (sacked b) (off una s)).
  { rewrite <- (is_sacked_spec una nxt b Hb) by done. by rewrite Hun. }
  split; [lia|]. split.
  - intros x Hx Hc. unfold covers in Hc, Hs'. rewrite List.Exists_exists in Hc, Hs'.
    destruct Hc as (run & Hrun & Hxr).
    destruct (Z.le_gt_cases (off una run.1) (off una s)); [apply Hs'; exists run; split; [done|lia]|].
    specialize (Hmin run Hrun ltac:(lia)). lia.
  - replace (off una s + (off una e - off una s)) with (off una e) by lia.
    destruct Hor as [->|(run & Hrun & ->)]; [by left|right].
    unfold covers. rewrite List.Exists_exists. exists run. split; [done|].
    destruct (Hin run Hrun) as (_ & _ & ?). lia.
Qed.
End run_len.
