(* ===== verification/Reasm.v ===== *)
(** Out-of-order reassembly: [tcp-core/src/reasm.rs].

    [content base runs x] is the byte buffered at offset [x] above [base], if
    any: the meaning of a run list.  [insert] is shown to add exactly the clipped
    new bytes, existing ones winning, whatever runs the segment overlaps or
    touches, and never to index out of bounds. *)

From S2P Require Import Prelude Seq.

Record Segment := mkSeg { start : SeqNumber; data : list Z; stamp : Z }.
Record Reasm := mkReasm { runs : list Segment; bytes : Z; next_stamp : Z }.
#[export] Instance Segment_settable : Settable Segment :=
  fun s => mkSeg (start s) (data s) (stamp s).
#[export] Instance Reasm_settable : Settable Reasm :=
  fun r => mkReasm (runs r) (bytes r) (next_stamp r).

Definition reasm_new : Reasm := mkReasm [] 0 0.
Definition buffered (self : Reasm) : Z := bytes self.
Definition reasm_is_empty (self : Reasm) : bool := match runs self with [] => true | _ => false end.

(** [run.start + run.data.len() as u32] *)
Definition run_end (run : Segment) : SeqNumber := seq_add (start run) (wrap32 (zlen (data run))).

(** The scan of [insert]: [first_idx], [count], [merged_start], [merged_end]. *)
Fixpoint scan_touching (rs : list Segment) (idx : nat) (lo new_end : SeqNumber)
    (first_idx count : nat) (merged_start merged_end : SeqNumber)
  : nat * nat * SeqNumber * SeqNumber :=
  match rs with
  | [] => (first_idx, count, merged_start, merged_end)
  | run :: rest =>
      if seq_le (start run) new_end && seq_le lo (run_end run) then
        scan_touching rest (S idx) lo new_end
          (match count with O => idx | _ => first_idx end) (S count)
          (if seq_lt (start run) merged_start then start run else merged_start)
          (if seq_gt (run_end run) merged_end then run_end run else merged_end)
      else scan_touching rest (S idx) lo new_end first_idx count merged_start merged_end
  end.

(** [data[r_off..r_off + run.data.len()].copy_from_slice(&run.data)] *)
Fixpoint copy_runs (rs : list Segment) (merged_start : SeqNumber) (buf : list Z) : option (list Z) :=
  match rs with
  | [] => Some buf
  | run :: rest =>
      let? buf := splice buf (offset_from (start run) merged_start) (data run) in
      copy_runs rest merged_start buf
  end.

(** [let removed = self.runs.remove(first_idx); self.bytes -= removed.data.len();] *)
Fixpoint remove_runs (count : nat) (self : Reasm) (first_idx : nat) : option Reasm :=
  match count with
  | O => Some self
  | S count =>
      let? removed := runs self !! first_idx in
      let? rs := vec_remove (runs self) first_idx in
      let? n := checked_sub (bytes self) (zlen (data removed)) in
      remove_runs count (self <| runs := rs |> <| bytes := n |>) first_idx
  end.

Fixpoint position_before (s : SeqNumber) (rs : list Segment) : nat :=
  match rs with
  | [] => O
  | r :: rest => if seq_lt s (start r) then O else S (position_before s rest)
  end.

Definition insert (self : Reasm) (rcv_nxt right_edge seg_seq : SeqNumber) (payload : list Z)
  : option Reasm :=
  let seg_end := seq_add seg_seq (wrap32 (zlen payload)) in
  let lo := seq_max seg_seq rcv_nxt in
  let hi := seq_min seg_end right_edge in
  if seq_ge lo hi then Some self
  else
    let off := offset_from lo seg_seq in
    let len := offset_from hi lo in
    let? new_bytes := slice payload off (off + len) in
    let new_end := seq_add lo (wrap32 len) in
    let '(first_idx, count, merged_start, merged_end) :=
      scan_touching (runs self) O lo new_end (length (runs self)) O lo new_end in
    let span := offset_from merged_end merged_start in
    let buf := zrepeat 0 span in
    let n_off := offset_from lo merged_start in
    let? buf := splice buf n_off new_bytes in
    let? buf := copy_runs (take count (drop first_idx (runs self))) merged_start buf in
    let? self := remove_runs count self first_idx in
    let self := self <| next_stamp := next_stamp self + 1 |> in
    let seg := mkSeg merged_start buf (next_stamp self) in
    let self := self <| bytes := bytes self + zlen (data seg) |> in
    let pos := position_before merged_start (runs self) in
    Some (self <| runs := vec_insert (runs self) pos seg |>).

(** The returned bytes; an empty list when a gap remains. *)
Definition pop_contiguous (self : Reasm) (rcv_nxt : SeqNumber) : option (Reasm * list Z) :=
  match runs self with
  | first :: rest =>
      if start first =? rcv_nxt then
        let? n := checked_sub (bytes self) (zlen (data first)) in
        Some (self <| runs := rest |> <| bytes := n |>, data first)
      else Some (self, [])
  | [] => Some (self, [])
  end.

(** The [while] of [discard_below] removes one run per iteration. *)
Fixpoint discard_loop (rs : list Segment) (n : Z) (rcv_nxt : SeqNumber) : option (list Segment * Z) :=
  match rs with
  | [] => Some ([], n)
  | first :: rest =>
      if seq_le (run_end first) rcv_nxt then
        let? n := checked_sub n (zlen (data first)) in discard_loop rest n rcv_nxt
      else if seq_lt (start first) rcv_nxt then
        let drop := offset_from rcv_nxt (start first) in
        let? kept := slice (data first) drop (zlen (data first)) in
        let? n := checked_sub n drop in
        Some (mkSeg rcv_nxt kept (stamp first) :: rest, n)
      else Some (rs, n)
  end.
Definition discard_below (self : Reasm) (rcv_nxt : SeqNumber) : option Reasm :=
  let? (rs, n) := discard_loop (runs self) (bytes self) rcv_nxt in
  Some (self <| runs := rs |> <| bytes := n |>).

Definition reinsert_front (self : Reasm) (s : SeqNumber) (d : list Z) : Reasm :=
  match d with
  | [] => self
  | _ =>
      let self := self <| next_stamp := next_stamp self + 1 |> in
      let self := self <| bytes := bytes self + zlen d |> in
      self <| runs := mkSeg s d (next_stamp self) :: runs self |>
  end.

(** [order.sort_by(...)]: the standard library's stable sort, most recent
    stamp first. *)
Fixpoint sorted_insert (r : Segment) (rs : list Segment) : list Segment :=
  match rs with
  | [] => [r]
  | r' :: rest => if stamp r' <=? stamp r then r :: rs else r' :: sorted_insert r rest
  end.
Fixpoint by_recency (rs : list Segment) : list Segment :=
  match rs with [] => [] | r :: rest => sorted_insert r (by_recency rest) end.

(** [report] fills the first [n] slots of [out]; the slots written. *)
Definition report (self : Reasm) (out_len : Z) : list (SeqNumber * SeqNumber) :=
  ztake out_len (map (fun r => (start r, run_end r)) (by_recency (runs self))).

(** ** Run lists in offsets from a base *)

Section runs.
Context (base : SeqNumber).

Definition s_off (run : Segment) : Z := off base (start run).
Definition e_off (run : Segment) : Z := s_off run + zlen (data run).

(** A non-empty run inside the half window. *)
Definition run_ok (run : Segment) : Prop :=
  seq_ok (start run) /\ 0 < zlen (data run) /\ e_off run < 2 ^ 31.

(** Sorted, disjoint, non-adjacent, from offset [lo] on. *)
Fixpoint runs_ok (lo : Z) (rs : list Segment) : Prop :=
  match rs with
  | [] => True
  | r :: rest => run_ok r /\ lo <= s_off r /\ runs_ok (e_off r + 1) rest
  end.

(** The byte buffered at offset [x]. *)
Fixpoint content (rs : list Segment) (x : Z) : option Z :=
  match rs with
  | [] => None
  | r :: rest =>
      if (s_off r <=? x) && (x <? e_off r) then at_ (data r) (x - s_off r) else content rest x
  end.

Fixpoint total (rs : list Segment) : Z :=
  match rs with [] => 0 | r :: rest => zlen (data r) + total rest end.

Lemma run_start_half run : run_ok run -> in_half base (start run).
Proof. intros (? & ? & ?). split; [done|]. unfold e_off, s_off in *. lia. Qed.
Lemma run_end_off run : run_ok run -> in_half base (run_end run) /\ off base (run_end run) = e_off run.
Proof.
  intros (Hs & Hl & He). pose proof (off_range base (start run)). unfold run_end, e_off, s_off in *.
  rewrite wrap32_small by (unfold is_u32; lia).
  assert (off base (seq_add (start run) (zlen (data run))) = off base (start run) + zlen (data run))
    as E by (apply off_add; done || lia).
  split; [|done]. split; [apply seq_add_ok|lia].
Qed.

Lemma runs_ok_weaken lo lo' rs : lo' <= lo -> runs_ok lo rs -> runs_ok lo' rs.
Proof. destruct rs; [done|]. cbn. intuition lia. Qed.
Lemma runs_ok_raise lo lo' rs :
  runs_ok lo rs -> Forall (fun r => lo' <= s_off r) rs -> runs_ok lo' rs.
Proof. destruct rs; [done|]. cbn. intros (? & ? & ?) [? _]%List.Forall_cons_iff. done. Qed.
Lemma runs_ok_In lo rs r : runs_ok lo rs -> In r rs -> run_ok r /\ lo <= s_off r.
Proof.
  revert lo. induction rs as [|r' rs IH]; intros lo; [done|]. intros (Hr & Hlo & Hrest) [<-|Hin]; [done|].
  destruct (IH _ Hrest Hin) as [? ?]. split; [done|]. destruct Hr as (_ & ? & _). unfold e_off in *. lia.
Qed.
Lemma runs_ok_app_r lo A R : runs_ok lo (A ++ R) -> runs_ok lo R.
Proof.
  revert lo. induction A as [|a A IH]; intros lo; [done|]. intros (Ha & Hlo & Hrest).
  apply (runs_ok_weaken (e_off a + 1)); [|by apply IH].
  destruct Ha as (_ & ? & _). unfold e_off. lia.
Qed.
Lemma runs_ok_app_l lo A R : runs_ok lo (A ++ R) -> runs_ok lo A.
Proof. revert lo. induction A as [|a A IH]; intros lo; [done|]. cbn. intuition. Qed.
(** Every run of a suffix starts above every run of the prefix ends. *)
Lemma runs_ok_app_sep lo A R a r :
  runs_ok lo (A ++ R) -> In a A -> In r R -> e_off a < s_off r.
Proof.
  revert lo. induction A as [|x A IH]; intros lo; [done|]. intros (Hx & Hlo & Hrest) [->|Hin] Hr.
  - destruct (runs_ok_In _ _ r Hrest) as [_ ?]; [|lia]. apply in_app_iff. auto.
  - by eapply IH.
Qed.

(** Replacing the middle block [B] by one run that ends before [C]. *)
Lemma runs_ok_replace lo A B C m :
  runs_ok lo (A ++ B ++ C) -> run_ok m -> lo <= s_off m ->
  Forall (fun r => e_off r < s_off m) A -> Forall (fun r => e_off m < s_off r) C ->
  runs_ok lo (A ++ m :: C).
Proof.
  revert lo. induction A as [|a A IH]; intros lo Hrs Hm Hlo HA HC.
  - cbn. split; [done|]. split; [done|]. apply (runs_ok_raise lo); [by apply (runs_ok_app_r lo B)|].
    eapply List.Forall_impl; [|exact HC]. cbn. intros; lia.
  - destruct Hrs as (Ha & Hlo' & Hrest). apply List.Forall_cons_iff in HA as [Ha' HA].
    cbn. split_and!; try done. apply IH; try done. lia.
Qed.

Lemma content_app A R x :
  content (A ++ R) x = match content A x with Some b => Some b | None => content R x end.
Proof.
  induction A as [|a A IH]; [done|]. cbn. destruct (_ && _) eqn:E; [|done].
  destruct (at_is_Some (data a) (x - s_off a)) as [b ->]; [unfold e_off in E; lia|done].
Qed.
Lemma content_None rs x : (forall r, In r rs -> x < s_off r \/ e_off r <= x) -> content rs x = None.
Proof.
  induction rs as [|r rs IH]; intros H; [done|]. cbn.
  specialize (H r (or_introl eq_refl)) as Hr. destruct (_ && _) eqn:E; [lia|].
  apply IH. intros. apply H. by right.
Qed.
Lemma content_Some_In rs x b : content rs x = Some b -> exists r, In r rs /\ s_off r <= x < e_off r.
Proof.
  induction rs as [|r rs IH]; [done|]. cbn. destruct (_ && _) eqn:E.
  - intros _. exists r. split; [auto|lia].
  - intros Hc. destruct (IH Hc) as (r' & ? & ?). exists r'. auto.
Qed.
Lemma content_None_inv rs x r : content rs x = None -> In r rs -> x < s_off r \/ e_off r <= x.
Proof.
  induction rs as [|r' rs IH]; [done|]. cbn. intros Hc [->|Hin].
  - destruct (_ && _) eqn:E; [|lia].
    destruct (at_is_Some (data r) (x - s_off r)) as [b Hb]; [unfold e_off in E; lia|]. congruence.
  - destruct (_ && _) eqn:E; [|by apply IH].
    destruct (at_is_Some (data r') (x - s_off r')) as [b Hb]; [unfold e_off in E; lia|]. congruence.
Qed.
Lemma total_app A R : total (A ++ R) = total A + total R.
Proof. induction A; cbn; lia. Qed.
Lemma total_nonneg rs : 0 <= total rs.
Proof. induction rs as [|r rs IH]; cbn; [lia|]. pose proof (zlen_nonneg (data r)). lia. Qed.

(** Disjoint runs inside an interval are no longer than it. *)
Lemma total_le B : forall l W,
  runs_ok l B -> Forall (fun r => e_off r <= W) B -> total B <= Z.max 0 (W - l).
Proof.
  induction B as [|r B IH]; intros l W Hok HW; cbn; [lia|].
  destruct Hok as ((_ & ? & _) & Hl & Hrest). apply List.Forall_cons_iff in HW as [Hr HW].
  specialize (IH _ _ Hrest HW). unfold e_off in *. lia.
Qed.

(** *** The block a new segment touches *)

Context (lo new_end : SeqNumber).
Context (Hlo : in_half base lo) (Hne : in_half base new_end).

Definition below (r : Segment) : Prop := e_off r < off base lo.
Definition above (r : Segment) : Prop := off base new_end < s_off r.
Definition touches (r : Segment) : Prop := s_off r <= off base new_end /\ off base lo <= e_off r.

Lemma split_touching l rs : runs_ok l rs ->
  exists A B C, rs = A ++ B ++ C /\ Forall below A /\ Forall touches B /\ Forall above C.
Proof.
  revert l. induction rs as [|r rs IH]; intros l; [by exists [], [], []|].
  intros (Hr & Hl & Hrest). destruct (Z.lt_ge_cases (e_off r) (off base lo)) as [Hb|Hb].
  - destruct (IH _ Hrest) as (A & B & C & -> & HA & HB & HC).
    exists (r :: A), B, C. split_and!; try done. by apply List.Forall_cons.
  - destruct (Z.le_gt_cases (s_off r) (off base new_end)) as [Ht|Ht].
    + destruct (IH _ Hrest) as (A & B & C & -> & HA & HB & HC).
      assert (A = []) as ->.
      { destruct A as [|a A]; [done|]. apply List.Forall_cons_iff in HA as [Ha _].
        destruct Hrest as (Ha' & ? & _). unfold below in Ha. destruct Ha' as (_ & ? & _).
        unfold e_off in *. lia. }
      exists [], (r :: B), C. split_and!; try done. by apply List.Forall_cons.
    + exists [], [], (r :: rs). split_and!; try done. apply List.Forall_cons; [done|].
      apply List.Forall_forall. intros x Hx. destruct (runs_ok_In _ _ x Hrest Hx) as [_ ?].
      destruct Hr as (_ & ? & _). unfold above, e_off in *. lia.
Qed.

Lemma scan_skip rs idx fi c ms me :
  Forall (fun r => run_ok r /\ (below r \/ above r)) rs ->
  scan_touching rs idx lo new_end fi c ms me = (fi, c, ms, me).
Proof.
  intros H. revert idx. induction H as [|r rs [Hr Hno] _ IH]; intros idx; [done|]. cbn [scan_touching].
  destruct (run_end_off r Hr) as [Heh He].
  rewrite (le_off base), (le_off base lo) by (done || by apply run_start_half).
  rewrite He. fold (s_off r). unfold below, above in Hno. destruct (_ && _) eqn:E; [lia|]. apply IH.
Qed.
Lemma scan_app A R idx fi c ms me :
  Forall (fun r => run_ok r /\ below r) A ->
  scan_touching (A ++ R) idx lo new_end fi c ms me
    = scan_touching R (idx + length A) lo new_end fi c ms me.
Proof.
  intros H. revert idx. induction H as [|r A [Hr Hno] _ IH]; intros idx.
  { cbn. f_equal. lia. }
  cbn [scan_touching app]. destruct (run_end_off r Hr) as [Heh He].
  rewrite (le_off base), (le_off base lo) by (done || by apply run_start_half).
  rewrite He. fold (s_off r). unfold below in Hno. destruct (_ && _) eqn:E; [lia|].
  rewrite IH. f_equal. cbn. lia.
Qed.

(** What the scan knows after a block of touched runs: the merged span is the
    hull of the new bytes and the runs, no longer than all of them, and its
    ends are ends of one of them. *)
Definition hull (B : list Segment) (ms me : SeqNumber) : Prop :=
  in_half base ms /\ in_half base me /\
  off base ms <= off base lo /\ off base new_end <= off base me /\
  (forall r, In r B -> off base ms <= s_off r /\ e_off r <= off base me) /\
  (off base ms = off base lo \/ exists r, In r B /\ off base ms = s_off r) /\
  (off base me = off base new_end \/ exists r, In r B /\ off base me = e_off r) /\
  off base me - off base ms <= off base new_end - off base lo + total B.

Context (Hlt : off base lo < off base new_end).

Lemma hull_cons B ms me r :
  hull B ms me -> run_ok r -> touches r ->
  hull (r :: B) (if seq_lt (start r) ms then start r else ms)
                (if seq_gt (run_end r) me then run_end r else me).
Proof.
  intros (H1 & H2 & H3 & H4 & H5 & H6 & H7 & H8) Hr [Ht1 Ht2].
  destruct (run_end_off r Hr) as [Heh He]. pose proof (run_start_half r Hr) as Hsh.
  rewrite (lt_off base), (gt_off base) by done. rewrite He. fold (s_off r).
  assert (Hlen : e_off r = s_off r + zlen (data r)) by done.
  destruct Hr as (_ & Hpos & _).
  unfold hull. cbn [total In].
  destruct (s_off r <? off base ms) eqn:E1, (off base me <? e_off r) eqn:E2; rewrite ?He;
    fold (s_off r); split_and!; try done; try lia;
    try (intros r' [<-|Hin]; [lia|specialize (H5 r' Hin); lia]);
    try (right; exists r; auto; done);
    try (destruct H6 as [?|(? & ? & ?)]; [by left|right; eauto]);
    try (destruct H7 as [?|(? & ? & ?)]; [by left|right; eauto]).
Qed.

Lemma scan_block B C : forall idx fi c ms me D,
  Forall run_ok B -> Forall touches B -> Forall (fun r => run_ok r /\ above r) C ->
  hull D ms me ->
  exists ms' me', scan_touching (B ++ C) idx lo new_end fi c ms me
    = (match B with [] => fi | _ => match c with O => idx | _ => fi end end, (c + length B)%nat, ms', me') /\
    hull (rev B ++ D) ms' me'.
Proof.
  induction B as [|r B IH]; intros idx fi c ms me D Hok Ht HC Hh.
  { exists ms, me. cbn [app rev length]. rewrite Nat.add_0_r. split; [|done]. apply scan_skip.
    eapply List.Forall_impl; [|exact HC]. cbn. intuition. }
  apply List.Forall_cons_iff in Hok as [Hr Hok]. apply List.Forall_cons_iff in Ht as [Htr Ht].
  cbn [app scan_touching]. destruct (run_end_off r Hr) as [Heh He].
  rewrite (le_off base), (le_off base lo) by (done || by apply run_start_half).
  rewrite He. fold (s_off r). destruct Htr as [Ht1 Ht2]. destruct (_ && _) eqn:E; [|lia].
  destruct (IH (S idx) (match c with O => idx | _ => fi end) (S c) _ _ (r :: D) Hok Ht HC
    (hull_cons D ms me r Hh Hr (conj Ht1 Ht2))) as (ms' & me' & Hs & Hh').
  exists ms', me'. rewrite Hs. split.
  - f_equal. f_equal. f_equal; [destruct B, c; done|cbn; lia].
  - cbn [rev]. by rewrite <- app_assoc.
Qed.
End runs.

Section insert.
Context (base : SeqNumber).

Lemma copy_runs_spec B : forall ms lo span buf,
  in_half base ms -> zlen buf = span -> runs_ok base lo B ->
  (forall r, In r B -> off base ms <= s_off base r /\ e_off base r <= off base ms + span) ->
  exists buf', copy_runs B ms buf = Some buf' /\ zlen buf' = span /\
    forall i, 0 <= i -> at_ buf' i =
      match content base B (off base ms + i) with Some b => Some b | None => at_ buf i end.
Proof.
  induction B as [|r B IH]; intros ms lo span buf Hms Hz Hok Hin; [by exists buf|].
  destruct Hok as (Hr & Hlo & Hrest). destruct (Hin r (or_introl eq_refl)) as [H1 H2].
  pose proof (run_start_half base r Hr) as Hsh. cbn [copy_runs].
  rewrite (offset_from_off base) by (done || (unfold s_off in H1; lia)). fold (s_off base r).
  unfold e_off in H2. rewrite splice_Some by lia.
  set (buf1 := ztake _ _ ++ _).
  assert (Hb1 : splice buf (s_off base r - off base ms) (data r) = Some buf1) by (by apply splice_Some; lia).
  destruct (IH ms (e_off base r + 1) span buf1) as (buf' & -> & Hz' & Hat); try done.
  { by rewrite (zlen_splice _ _ _ _ Hb1). } { intros. apply Hin. by right. }
  exists buf'. split_and!; try done. intros i Hi. rewrite Hat by done. cbn [content].
  rewrite (at_splice _ _ _ _ i Hb1). unfold e_off.
  replace ((s_off base r <=? off base ms + i) && (off base ms + i <? s_off base r + zlen (data r)))
    with ((s_off base r - off base ms <=? i) && (i <? s_off base r - off base ms + zlen (data r))) by lia.
  destruct (_ && _) eqn:E; [|done].
  rewrite content_None.
  - replace (off base ms + i - s_off base r) with (i - (s_off base r - off base ms)) by lia.
    destruct (at_is_Some (data r) (i - (s_off base r - off base ms))) as [b ->]; [lia|done].
  - intros r' Hr'. destruct (runs_ok_In _ _ _ r' Hrest Hr') as [_ ?]. unfold e_off in *. lia.
Qed.

Lemma remove_runs_spec A B C : forall n st,
  n = total (A ++ B ++ C) ->
  remove_runs (length B) (mkReasm (A ++ B ++ C) n st) (length A)
    = Some (mkReasm (A ++ C) (total (A ++ C)) st).
Proof.
  induction B as [|r B IH]; intros n st ->; [done|].
  cbn [remove_runs length runs bytes app]. rewrite list_lookup_middle by done.
  rewrite vec_remove_at. unfold checked_sub. rewrite (total_app A (r :: B ++ C)). cbn [total].
  pose proof (total_nonneg A). pose proof (total_nonneg (B ++ C)).
  destruct (_ <=? _) eqn:E; [|lia].
  refine (IH (total A + (zlen (data r) + total (B ++ C)) - zlen (data r)) st _).
  rewrite (total_app A). lia.
Qed.

Lemma position_before_spec s A C :
  in_half base s -> Forall (fun r => run_ok base r /\ s_off base r < off base s) A ->
  Forall (fun r => run_ok base r /\ off base s < s_off base r) C ->
  position_before s (A ++ C) = length A.
Proof.
  intros Hs HA HC. induction HA as [|r A [Hr Hlt] HA IH]; cbn.
  - destruct C as [|r C]; [done|]. apply List.Forall_cons_iff in HC as [[Hr Hlt] _]. cbn.
    rewrite (lt_off base) by (done || by apply run_start_half). fold (s_off base r).
    by destruct (_ <? _) eqn:?; [|lia].
  - rewrite (lt_off base) by (done || by apply run_start_half). fold (s_off base r).
    destruct (_ <? _) eqn:?; [lia|]. by rewrite IH.
Qed.
End insert.

(** The buffer's invariant relative to [rcv_nxt]: runs sorted, disjoint,
    non-adjacent and at offset [lo] or more above it; [bytes] their total; no
    stamp above the counter. *)
Record reasm_wf (rcv_nxt : SeqNumber) (lo : Z) (r : Reasm) : Prop := {
  rw_nxt : seq_ok rcv_nxt;
  rw_runs : runs_ok rcv_nxt lo (runs r);
  rw_bytes : bytes r = total (runs r);
  rw_stamps : Forall (fun run => stamp run <= next_stamp r) (runs r);
}.

(** The interval of octets [insert] keeps of a segment. *)
Definition kept (rcv_nxt right_edge seg_seq : SeqNumber) (payload : list Z) (x : Z) : bool :=
  (off rcv_nxt seg_seq <=? x) &&
  (x <? Z.min (off rcv_nxt seg_seq + zlen payload) (off rcv_nxt right_edge)).

Section insert_core.
Context (base right_edge seg_seq : SeqNumber) (payload : list Z).
Context (Hedge : in_half base right_edge) (Hseg : in_half base seg_seq).
Context (Hlen : off base seg_seq + zlen payload < 2 ^ 31).

(** The clip. *)
Lemma clip_spec : seq_ok base ->
  let seg_end := seq_add seg_seq (wrap32 (zlen payload)) in
  let lo := seq_max seg_seq base in let hi := seq_min seg_end right_edge in
  in_half base lo /\ in_half base hi /\ off base lo = off base seg_seq /\
  off base hi = Z.min (off base seg_seq + zlen payload) (off base right_edge).
Proof.
  intros Hb. pose proof (zlen_nonneg payload). pose proof (off_range base seg_seq).
  assert (He : in_half base (seq_add seg_seq (wrap32 (zlen payload))) /\
    off base (seq_add seg_seq (wrap32 (zlen payload))) = off base seg_seq + zlen payload).
  { rewrite wrap32_small by (unfold is_u32; lia). destruct Hseg as [Hs _].
    rewrite off_add by (done || lia). split; [|done]. apply in_half_add; done || lia. }
  destruct He as [He1 He2]. cbv zeta.
  assert (Hbb : in_half base base) by (by apply in_half_self).
  rewrite (off_max base), (off_min base), He2, off_self by done. split_and!; auto with ferrum. lia.
Qed.


Lemma hull_rev lo ne B ms me : hull base lo ne (rev B) ms me -> hull base lo ne B ms me.
Proof.
  assert (Ht : forall B, total (rev B) = total B).
  { clear B. induction B as [|x B IH]; [done|]. cbn [rev]. rewrite total_app. cbn. lia. }
  intros (H1 & H2 & H3 & H4 & H5 & H6 & H7 & H8). rewrite Ht in H8.
  split_and!; try done.
  - intros r Hr. apply H5. by apply in_rev in Hr.
  - destruct H6 as [?|(r & Hr & ?)]; [by left|right]. exists r. by rewrite in_rev.
  - destruct H7 as [?|(r & Hr & ?)]; [by left|right]. exists r. by rewrite in_rev.
Qed.

(** The run that replaces the touched block: its place, its bytes, its size. *)
Lemma merge_result lo ne n l A B C new_bytes ms me m :
  off base ne = off base lo + n -> 0 < n -> zlen new_bytes = n -> 0 <= l <= off base lo ->
  runs_ok base l (A ++ B ++ C) ->
  Forall (below base lo) A -> Forall (touches base lo ne) B -> Forall (above base ne) C ->
  hull base lo ne B ms me ->
  start m = ms -> zlen (data m) = off base me - off base ms ->
  (forall i, 0 <= i -> at_ (data m) i =
     match content base B (off base ms + i) with
     | Some b => Some b
     | None => if (off base lo - off base ms <=? i) && (i <? off base lo - off base ms + n)
               then at_ new_bytes (i - (off base lo - off base ms)) else at_ (data m) i
     end) ->
  runs_ok base l (A ++ m :: C) /\
  (forall x, content base (A ++ m :: C) x =
    match content base (A ++ B ++ C) x with
    | Some b => Some b
    | None => if (off base lo <=? x) && (x <? off base ne)
              then at_ new_bytes (x - off base lo) else None
    end) /\
  total (A ++ B ++ C) <= total (A ++ m :: C) <= total (A ++ B ++ C) + n /\
  Forall (fun r => run_ok base r /\ s_off base r < off base ms) A /\
  Forall (fun r => run_ok base r /\ off base ms < s_off base r) C /\
  (forall W, off base ne <= W -> Forall (fun run => e_off base run <= W) (A ++ B ++ C) ->
     Forall (fun run => e_off base run <= W) (A ++ m :: C)).
Proof.
  intros Ene Hn Hnb Hl Hrs HA HB HC (Hms & Hme & H1 & H2 & H3 & H4 & H5 & H6) Hm Hz Hat.
  assert (Es : s_off base m = off base ms) by (unfold s_off; by rewrite Hm).
  assert (Ee : e_off base m = off base me) by (unfold e_off; rewrite Es, Hz; lia).
  rewrite List.Forall_forall in HA, HB, HC. unfold below, touches, above in *.
  assert (HAsep : forall a, In a A -> e_off base a < off base ms).
  { intros a Ha. specialize (HA a Ha). destruct H4 as [?|(r & Hr & E)]; [lia|]. rewrite E.
    apply (runs_ok_app_sep base l A (B ++ C)); try done. apply in_app_iff. auto. }
  assert (HCsep : forall c, In c C -> off base me < s_off base c).
  { intros c Hc. specialize (HC c Hc). destruct H5 as [?|(r & Hr & E)]; [lia|]. rewrite E.
    rewrite app_assoc in Hrs. apply (runs_ok_app_sep base l (A ++ B) C); try done.
    apply in_app_iff. auto. }
  assert (Hok : forall x, In x (A ++ B ++ C) -> run_ok base x /\ l <= s_off base x)
    by (intros x Hx; by apply (runs_ok_In base l (A ++ B ++ C))).
  assert (Hmok : run_ok base m).
  { destruct Hms as [Hms1 _], Hme as [_ Hme2]. split_and!; [by rewrite Hm|lia|lia]. }
  assert (HB' : runs_ok base (off base ms) B).
  { apply (runs_ok_raise base l).
    - apply runs_ok_app_r in Hrs. by apply runs_ok_app_l in Hrs.
    - apply List.Forall_forall. intros r Hr. by apply H3. }
  split_and!.
  - apply (runs_ok_replace base l A B C); try done.
    + destruct H4 as [?|(r & Hr & E)]; [lia|]. rewrite Es, E. apply Hok. rewrite !in_app_iff. auto.
    + apply List.Forall_forall. intros a Ha. rewrite Es. by apply HAsep.
    + apply List.Forall_forall. intros c Hc. rewrite Ee. by apply HCsep.
  - intros x. rewrite !content_app. destruct (content base A x); [done|]. cbn [content].
    rewrite Es, Ee. destruct ((off base ms <=? x) && (x <? off base me)) eqn:E.
    + rewrite Hat by lia. replace (off base ms + (x - off base ms)) with x by lia.
      destruct (content base B x) as [b|] eqn:EB; [done|].
      rewrite (content_None base C) by (intros c Hc; specialize (HCsep c Hc); lia).
      replace ((off base lo - off base ms <=? x - off base ms)
        && (x - off base ms <? off base lo - off base ms + n))
        with ((off base lo <=? x) && (x <? off base ne)) by lia.
      destruct ((off base lo <=? x) && _) eqn:E2; [f_equal; lia|]. exfalso.
      destruct (Z.lt_ge_cases x (off base lo)).
      * destruct H4 as [?|(r & Hr & Er)]; [lia|].
        pose proof (content_None_inv base B x r EB Hr). specialize (HB r Hr). lia.
      * destruct H5 as [?|(r & Hr & Er)]; [lia|].
        pose proof (content_None_inv base B x r EB Hr). specialize (HB r Hr). lia.
    + rewrite (content_None base B) by (intros r Hr; specialize (H3 r Hr); lia).
      destruct ((off base lo <=? x) && _) eqn:E2; [lia|]. by destruct (content base C x).
  - rewrite !total_app. cbn [total]. rewrite Hz.
    pose proof (total_le base B (off base ms) (off base me) HB'
      ltac:(apply List.Forall_forall; intros r Hr; by apply H3)). lia.
  - rewrite !total_app. cbn [total]. rewrite Hz. lia.
  - apply List.Forall_forall. intros a Ha. specialize (HAsep a Ha).
    destruct (Hok a) as [Ha1 _]; [rewrite in_app_iff; auto|]. split; [done|].
    destruct Ha1 as (_ & ? & _). unfold e_off in HAsep. lia.
  - apply List.Forall_forall. intros c Hc. specialize (HCsep c Hc).
    destruct (Hok c) as [Hc1 _]; [rewrite !in_app_iff; auto|]. split; [done|lia].
  - intros W HW Hall. rewrite !List.Forall_app in Hall. destruct Hall as (HWA & HWB & HWC).
    apply List.Forall_app. split; [done|]. apply List.Forall_cons; [|done]. rewrite Ee.
    destruct H5 as [E|(r & Hr & E)]; rewrite E; [done|]. rewrite List.Forall_forall in HWB. by apply HWB.
Qed.

(** The merge itself, on the touched block [B]. *)
Lemma insert_merge lo ne n l A B C nb st new_bytes :
  seq_ok base -> in_half base lo -> in_half base ne -> 0 <= l <= off base lo -> 0 < n ->
  off base ne = off base lo + n -> zlen new_bytes = n ->
  runs_ok base l (A ++ B ++ C) ->
  Forall (below base lo) A -> Forall (touches base lo ne) B -> Forall (above base ne) C ->
  nb = total (A ++ B ++ C) -> Forall (fun run => stamp run <= st) (A ++ B ++ C) ->
  let r := mkReasm (A ++ B ++ C) nb st in
  exists r',
    (let '(first_idx, count, merged_start, merged_end) :=
       scan_touching (runs r) O lo ne (length (runs r)) O lo ne in
     let span := offset_from merged_end merged_start in
     let buf := zrepeat 0 span in
     let n_off := offset_from lo merged_start in
     let? buf := splice buf n_off new_bytes in
     let? buf := copy_runs (take count (drop first_idx (runs r))) merged_start buf in
     let? self := remove_runs count r first_idx in
     let self := self <| next_stamp := next_stamp self + 1 |> in
     let seg := mkSeg merged_start buf (next_stamp self) in
     let self := self <| bytes := bytes self + zlen (data seg) |> in
     let pos := position_before merged_start (runs self) in
     Some (self <| runs := vec_insert (runs self) pos seg |>)) = Some r' /\
    reasm_wf base l r' /\
    (forall x, content base (runs r') x =
      match content base (runs r) x with
      | Some b => Some b
      | None => if (off base lo <=? x) && (x <? off base ne)
                then at_ new_bytes (x - off base lo) else None
      end) /\
    nb <= bytes r' <= nb + n /\
    (forall W, off base ne <= W -> Forall (fun run => e_off base run <= W) (runs r) ->
       Forall (fun run => e_off base run <= W) (runs r')).
Proof.
  intros Hb Hlo Hne Hl Hn Ene Hnb Hrs HA HB HC -> Hst r. unfold r. cbn [runs bytes next_stamp].
  assert (Hok : forall x, In x (A ++ B ++ C) -> run_ok base x /\ l <= s_off base x).
  { intros x Hx. by apply (runs_ok_In base l (A ++ B ++ C)). }
  assert (HA' : Forall (fun x => run_ok base x /\ below base lo x) A).
  { rewrite List.Forall_forall in *. intros x Hx. split; [|by apply HA].
    apply Hok. rewrite in_app_iff. auto. }
  assert (HB' : Forall (run_ok base) B).
  { rewrite List.Forall_forall in *. intros x Hx. apply Hok. rewrite !in_app_iff. auto. }
  assert (HC' : Forall (fun x => run_ok base x /\ above base ne x) C).
  { rewrite List.Forall_forall in *. intros x Hx. split; [|by apply HC].
    apply Hok. rewrite !in_app_iff. auto. }
  rewrite (scan_app base lo ne Hlo Hne) by done. rewrite Nat.add_0_l.
  destruct (scan_block base lo ne Hlo Hne ltac:(lia) B C (length A)
    (length (A ++ B ++ C)) 0 lo ne [] HB' HB HC') as (ms & me & Hscan & Hhull).
  { unfold hull. cbn. split_and!; try done; try lia; by left. }
  rewrite Hscan. rewrite app_nil_r in Hhull. apply hull_rev in Hhull. clear Hscan.
  pose proof Hhull as Hh.
  destruct Hhull as (Hms & Hme & H1 & H2 & H3 & H4 & H5 & H6).
  rewrite !(offset_from_off base) by (done || lia).
  set (span := off base me - off base ms) in *.
  rewrite splice_Some by (autorewrite with zlen; unfold span; lia).
  set (buf1 := ztake _ (zrepeat 0 span) ++ _).
  assert (Hb1 : splice (zrepeat 0 span) (off base lo - off base ms) new_bytes = Some buf1)
    by (apply splice_Some; autorewrite with zlen; unfold span; lia).
  assert (Hz1 : zlen buf1 = span)
    by (rewrite (zlen_splice _ _ _ _ Hb1), zlen_zrepeat; unfold span; lia).
  set (fi := match B with [] => length (A ++ B ++ C) | _ => length A end).
  assert (Hblock : take (0 + length B) (drop fi (A ++ B ++ C)) = B).
  { destruct B as [|b0 B0]; [done|]. unfold fi. rewrite drop_app_length.
    cbn [Nat.add]. apply take_app_length. }
  assert (Hremove : remove_runs (0 + length B) (mkReasm (A ++ B ++ C) (total (A ++ B ++ C)) st) fi
    = Some (mkReasm (A ++ C) (total (A ++ C)) st)).
  { destruct B as [|b0 B0]; [done|]. unfold fi. by apply remove_runs_spec. }
  rewrite Hblock, Hremove.
  assert (HBok : runs_ok base l B).
  { apply runs_ok_app_r in Hrs. by apply runs_ok_app_l in Hrs. }
  destruct (copy_runs_spec base B ms l span buf1 Hms Hz1 HBok) as (buf2 & Hc2 & Hz2 & Hat2).
  { intros x Hx. specialize (H3 x Hx). unfold span. lia. }
  rewrite Hc2. cbn [runs bytes next_stamp set Reasm_settable data].
  set (m := mkSeg ms buf2 (st + 1)).
  destruct (merge_result lo ne n l A B C new_bytes ms me m) as (R1 & R2 & R3 & R4 & R5 & R6);
    try done.
  { intros i Hi. rewrite Hat2 by done. destruct (content base B _) eqn:EB; [done|].
    rewrite (at_splice _ _ _ _ i Hb1), Hnb. by destruct (_ && _). }
  rewrite (position_before_spec base) by done. rewrite vec_insert_at.
  eexists. split; [done|]. split; [|split; [exact R2|split; [|exact R6]]].
  - split; cbn; [done|exact R1| |].
    + rewrite !total_app. cbn [total]. change (data m) with buf2. lia.
    + rewrite !List.Forall_app in *. destruct Hst as (HsA & HsB & HsC).
      assert (Hmono : forall L, Forall (fun run => stamp run <= st) L ->
        Forall (fun run => stamp run <= st + 1) L)
        by (intros L; apply List.Forall_impl; intros; lia).
      split; [by apply Hmono|]. apply List.Forall_cons; [cbn; lia|by apply Hmono].
  - cbn. rewrite !total_app in *. cbn [total] in *. change (data m) with buf2 in *. lia.
Qed.

Lemma insert_core l r :
  reasm_wf base l r -> 0 <= l <= off base seg_seq ->
  exists r', insert r base right_edge seg_seq payload = Some r' /\ reasm_wf base l r' /\
    (forall x, content base (runs r') x =
      match content base (runs r) x with
      | Some b => Some b
      | None => if kept base right_edge seg_seq payload x
                then at_ payload (x - off base seg_seq) else None
      end) /\
    bytes r <= bytes r' <= bytes r + Z.max 0 (off base right_edge - off base seg_seq) /\
    (forall W, off base right_edge <= W -> Forall (fun run => e_off base run <= W) (runs r) ->
       Forall (fun run => e_off base run <= W) (runs r')).
Proof.
  intros [Hb Hruns Hbytes Hst] Hl. destruct (clip_spec Hb) as (Hlo & Hhi & Elo & Ehi). cbv zeta in *.
  unfold insert. set (lo := seq_max seg_seq base) in *.
  set (hi := seq_min (seq_add seg_seq (wrap32 (zlen payload))) right_edge) in *.
  rewrite (ge_off base) by done. rewrite Elo, Ehi in *.
  destruct (_ <=? off base seg_seq) eqn:Ecl.
  { exists r. split; [done|]. split; [by split|]. split; [|split; [lia|]].
    - intros x. unfold kept. destruct (content base (runs r) x); [done|].
      destruct (_ && _) eqn:?; [lia|done].
    - done. }
  rewrite (offset_from_off base lo seg_seq), (offset_from_off base hi lo) by (done || lia).
  rewrite Elo, Ehi, Z.sub_diag.
  set (h := Z.min _ _) in *. pose proof (off_range base seg_seq). pose proof (zlen_nonneg payload).
  set (n := h - off base seg_seq). assert (Hn : 0 < n) by (unfold n; lia).
  assert (Hnp : n <= zlen payload) by (unfold n, h; lia).
  rewrite slice_Some, zdrop_0 by lia. replace (0 + n - 0) with n by lia.
  assert (Hne : in_half base (seq_add lo (wrap32 n)) /\ off base (seq_add lo (wrap32 n)) = h).
  { rewrite wrap32_small by (unfold is_u32; destruct Hhi; lia). destruct Hlo as [Hlo1 Hlo2].
    rewrite off_add by (done || (destruct Hhi; lia)). split; [|unfold n; lia].
    apply in_half_add; [done|lia|destruct Hhi; lia]. }
  set (ne := seq_add lo (wrap32 n)) in *. destruct Hne as [Hne Ene].
  destruct (split_touching base lo ne l (runs r) Hruns)
    as (A & B & C & HABC & HA & HB & HC).
  destruct r as [rs nb st]. cbn [runs bytes next_stamp] in *. subst rs.
  assert (Hz : zlen (ztake n payload) = n) by (rewrite zlen_ztake; lia).
  destruct (insert_merge lo ne n l A B C nb st (ztake n payload))
    as (r' & Hr' & Hwf & Hc & Hn' & HW); try done; try lia.
  exists r'. split; [exact Hr'|]. split; [done|]. split; [|split; [unfold n, h in *; lia|]].
  - intros x. rewrite Hc. cbn [runs]. rewrite Ene, Elo. unfold kept. fold h.
    destruct (content base _ x); [done|]. destruct (_ && _) eqn:E; [|done].
    apply at_ztake. lia.
  - intros W HWe. apply HW. rewrite Ene. lia.
Qed.
End insert_core.

(** ** Draining *)

Section drain.
Context (base : SeqNumber).

Lemma discard_loop_spec cut rs : forall l n,
  in_half base cut -> runs_ok base l rs -> n = total rs ->
  exists rs', discard_loop rs n cut = Some (rs', total rs') /\
    runs_ok base (Z.max l (off base cut)) rs' /\
    (forall x, content base rs' x = if off base cut <=? x then content base rs x else None) /\
    total rs' <= total rs /\
    (forall st, Forall (fun run => stamp run <= st) rs -> Forall (fun run => stamp run <= st) rs') /\
    (forall W, Forall (fun run => e_off base run <= W) rs -> Forall (fun run => e_off base run <= W) rs').
Proof.
  intros l n Hcut. revert l n. induction rs as [|r rs IH]; intros l n Hrs ->.
  { exists []. split_and!; try done. intros x. by destruct (_ <=? _). }
  destruct Hrs as (Hr & Hl & Hrest). cbn [discard_loop total].
  destruct (run_end_off base r Hr) as [Heh He]. pose proof (run_start_half base r Hr) as Hsh.
  rewrite (le_off base), (lt_off base), He by done. fold (s_off base r).
  pose proof (total_nonneg rs). pose proof (zlen_nonneg (data r)).
  assert (Hlen : e_off base r = s_off base r + zlen (data r)) by done.
  destruct (e_off base r <=? off base cut) eqn:E1; [|destruct (s_off base r <? off base cut) eqn:E2].
  - unfold checked_sub. replace (zlen (data r) <=? _) with true by lia.
    destruct (IH _ (zlen (data r) + total rs - zlen (data r)) Hrest ltac:(lia))
      as (rs' & -> & Hok & Hc & Ht & Hst & HW). exists rs'. split_and!; try done; try lia.
    + eapply runs_ok_weaken; [|exact Hok]. lia.
    + intros x. rewrite Hc. cbn [content]. destruct (_ <=? x) eqn:?; [|done].
      by destruct (_ && _) eqn:?; [lia|].
    + intros st Hall. apply List.Forall_cons_iff in Hall as [_ ?]. auto.
    + intros W Hall. apply List.Forall_cons_iff in Hall as [_ ?]. auto.
  - rewrite (offset_from_off base cut (start r)) by (done || (unfold s_off in *; lia)).
    fold (s_off base r). set (d := off base cut - s_off base r) in *.
    rewrite slice_Some by lia. unfold checked_sub. replace (d <=? _) with true by lia.
    rewrite ztake_all by zlens.
    assert (Hz : zlen (zdrop d (data r)) = zlen (data r) - d) by (rewrite zlen_zdrop; lia).
    set (r' := mkSeg cut (zdrop d (data r)) (stamp r)).
    assert (Es' : s_off base r' = off base cut) by done.
    assert (Ee' : e_off base r' = e_off base r) by (unfold e_off; rewrite Es'; cbn [r' data]; lia).
    exists (r' :: rs). split_and!.
    + do 2 f_equal. cbn [total r' data]. lia.
    + cbn [runs_ok]. rewrite Ee', Es'. split_and!; [|lia|done].
      destruct Hr as (? & ? & ?). split_and!; [by destruct Hcut|cbn [r' data]; lia|lia].
    + intros x. cbn [content]. rewrite Ee', Es'.
      destruct (off base cut <=? x) eqn:Ex; cbn [andb].
      * destruct (x <? e_off base r) eqn:E3; cbn [andb].
        -- replace (s_off base r <=? x) with true by lia. cbn [andb r' data].
           rewrite at_zdrop by lia. f_equal. lia.
        -- by rewrite andb_false_r.
      * apply content_None. intros r2 Hin. destruct (runs_ok_In _ _ _ r2 Hrest Hin) as [_ ?]. lia.
    + cbn [total r' data]. lia.
    + intros st Hall. apply List.Forall_cons_iff in Hall as [? ?]. by apply List.Forall_cons.
    + intros W Hall. apply List.Forall_cons_iff in Hall as [? ?]. apply List.Forall_cons; [lia|done].
  - exists (r :: rs). split_and!; try done; try lia.
    + cbn [runs_ok]. split_and!; try done. lia.
    + intros x. destruct (_ <=? x) eqn:Ex; [done|]. apply content_None.
      intros r2 [<-|Hin]; [lia|]. destruct (runs_ok_In _ _ _ r2 Hrest Hin) as [_ ?]. lia.
Qed.

(** Moving the base up to a point no run is below. *)
Lemma off_rebase_run base' lo r :
  seq_ok base' -> off base base' <= lo -> lo <= s_off base r ->
  s_off base' r = s_off base r - off base base' /\ e_off base' r = e_off base r - off base base'.
Proof.
  intros Hb Hlo Hs. unfold e_off, s_off in *. rewrite (off_rebase base base') by (done || lia). lia.
Qed.
Lemma runs_ok_rebase base' rs : forall lo,
  seq_ok base' -> off base base' <= lo -> runs_ok base lo rs ->
  runs_ok base' (lo - off base base') rs.
Proof.
  induction rs as [|r rs IH]; intros lo Hb Hlo; [done|]. intros (Hr & Hl & Hrest).
  destruct (off_rebase_run base' lo r Hb Hlo Hl) as [Es Ee]. pose proof (off_range base base').
  destruct Hr as (? & ? & ?). cbn [runs_ok]. rewrite Es, Ee.
  split_and!; [split_and!; [done|done|lia]|lia|].
  replace (e_off base r - off base base' + 1) with (e_off base r + 1 - off base base') by lia.
  apply IH; [done|unfold e_off in *; lia|done].
Qed.
Lemma content_rebase base' rs x : forall lo,
  seq_ok base' -> off base base' <= lo -> runs_ok base lo rs ->
  content base' rs x = content base rs (x + off base base').
Proof.
  induction rs as [|r rs IH]; intros lo Hb Hlo; [done|]. intros (Hr & Hl & Hrest).
  destruct (off_rebase_run base' lo r Hb Hlo Hl) as [Es Ee]. cbn [content]. rewrite Es, Ee.
  destruct Hr as (? & ? & ?).
  rewrite (IH (e_off base r + 1)) by (done || (unfold e_off in *; lia)).
  replace ((s_off base r - off base base' <=? x) && (x <? e_off base r - off base base'))
    with ((s_off base r <=? x + off base base') && (x + off base base' <? e_off base r)) by lia.
  replace (x - (s_off base r - off base base')) with (x + off base base' - s_off base r) by lia. done.
Qed.
Lemma bound_rebase base' rs W : forall lo,
  seq_ok base' -> off base base' <= lo -> runs_ok base lo rs ->
  Forall (fun run => e_off base run <= W) rs ->
  Forall (fun run => e_off base' run <= W - off base base') rs.
Proof.
  intros lo Hb Hlo Hrs Hall. rewrite List.Forall_forall in *. intros r Hr.
  destruct (runs_ok_In _ _ _ r Hrs Hr) as [_ ?].
  destruct (off_rebase_run base' lo r Hb Hlo ltac:(lia)) as [_ ->]. specialize (Hall r Hr). lia.
Qed.

Lemma discard_core l r cut :
  reasm_wf base l r -> 0 <= l -> in_half base cut ->
  exists r', discard_below r cut = Some r' /\ reasm_wf cut 0 r' /\
    (forall x, 0 <= x -> content cut (runs r') x = content base (runs r) (x + off base cut)) /\
    bytes r' <= bytes r /\
    (forall W, Forall (fun run => e_off base run <= W) (runs r) ->
       Forall (fun run => e_off cut run <= W - off base cut) (runs r')).
Proof.
  intros [Hb Hrs Hn Hst] Hl Hcut. unfold discard_below. pose proof (off_range base cut).
  destruct (discard_loop_spec cut (runs r) l (bytes r) Hcut Hrs Hn)
    as (rs' & -> & Hok & Hc & Ht & Hst' & HW).
  assert (Hcs : seq_ok cut) by (by destruct Hcut).
  assert (Hok' : runs_ok base (off base cut) rs') by (eapply runs_ok_weaken; [|exact Hok]; lia).
  eexists. split; [done|]. cbn. split_and!.
  - split; cbn; auto. rewrite <- (Z.sub_diag (off base cut)). by apply runs_ok_rebase.
  - intros x Hx. rewrite (content_rebase cut rs' x (off base cut)) by done. rewrite Hc.
    by destruct (_ <=? _) eqn:?; [|lia].
  - lia.
  - intros W Hall. apply (bound_rebase cut rs' W (off base cut)); auto; lia.
Qed.

Lemma pop_core r :
  reasm_wf base 0 r ->
  exists r' d, pop_contiguous r base = Some (r', d) /\ bytes r' = bytes r - zlen d /\
    (forall i, 0 <= i < zlen d -> at_ d i = content base (runs r) i) /\
    content base (runs r) (zlen d) = None /\
    reasm_wf base (zlen d + 1) r' /\
    (forall x, zlen d <= x -> content base (runs r') x = content base (runs r) x) /\
    (forall W, Forall (fun run => e_off base run <= W) (runs r) ->
       Forall (fun run => e_off base run <= W) (runs r')).
Proof.
  intros [Hb Hrs Hn Hst]. destruct r as [rs n st]. cbn in *. unfold pop_contiguous. cbn [runs bytes].
  destruct rs as [|r rs].
  { exists (mkReasm [] n st), []. change (@zlen Z []) with 0. cbn in *. split_and!; try done; try lia. }
  destruct Hrs as (Hr & Hl & Hrest). destruct (start r =? base) eqn:E.
  - assert (Es : s_off base r = 0) by (unfold s_off; replace (start r) with base by lia; apply off_self).
    assert (Ee : e_off base r = zlen (data r)) by (unfold e_off; lia).
    unfold checked_sub. pose proof (total_nonneg rs). cbn [total] in Hn.
    destruct (_ <=? n) eqn:Ec; [|lia]. eexists _, (data r). split; [done|].
    assert (Habove : forall r2, In r2 rs -> zlen (data r) + 1 <= s_off base r2).
    { intros r2 Hin. rewrite <- Ee. by destruct (runs_ok_In _ _ _ r2 Hrest Hin). }
    cbn [runs bytes set Reasm_settable content]. rewrite Es, Ee. split_and!.
    + lia.
    + intros i Hi. destruct (_ && _) eqn:?; [f_equal; lia|lia].
    + destruct (_ && _) eqn:?; [lia|]. apply content_None. intros r2 Hin. specialize (Habove r2 Hin). lia.
    + split; cbn; try done; [by rewrite <- Ee|lia|].
      by apply List.Forall_cons_iff in Hst as [_ ?].
    + intros x Hx. by destruct (_ && _) eqn:?; [lia|].
    + intros W Hall. by apply List.Forall_cons_iff in Hall as [_ ?].
  - eexists _, []. split; [done|]. change (@zlen Z []) with 0.
    assert (Hpos : 0 < s_off base r).
    { destruct (Z.eq_dec (s_off base r) 0) as [E0|]; [|lia]. unfold s_off in E0.
      destruct Hr as (Hrs & _ & _). pose proof (off_0 base (start r) Hb Hrs E0). lia. }
    assert (Habove : forall r2, In r2 (r :: rs) -> 1 <= s_off base r2).
    { intros r2 [<-|Hin]; [lia|]. destruct (runs_ok_In _ _ _ r2 Hrest Hin) as [_ ?].
      destruct Hr as (_ & ? & _). unfold e_off in *. lia. }
    split_and!; try done; try (cbn; lia).
    + apply content_None. intros r2 Hin. specialize (Habove r2 Hin). lia.
    + split; cbn; try done. split_and!; try done. lia.
Qed.
End drain.

(** ** What the SACK option reports *)

Lemma sorted_insert_perm r rs x : In x (sorted_insert r rs) <-> x = r \/ In x rs.
Proof.
  induction rs as [|r' rs IH]; cbn; [intuition congruence|].
  destruct (_ <=? _); cbn; [intuition congruence|]. rewrite IH. tauto.
Qed.
Lemma by_recency_perm rs x : In x (by_recency rs) <-> In x rs.
Proof.
  induction rs as [|r rs IH]; [done|]. cbn. rewrite sorted_insert_perm, IH. intuition congruence.
Qed.
Lemma by_recency_length rs : length (by_recency rs) = length rs.
Proof.
  assert (Hi : forall r rs, length (sorted_insert r rs) = S (length rs)).
  { intros r rs'. induction rs' as [|r' rs' IH]; [done|]. cbn. destruct (_ <=? _); cbn; [done|].
    by rewrite IH. }
  induction rs as [|r rs IH]; [done|]. cbn. by rewrite Hi, IH.
Qed.
Lemma by_recency_head rs m rest :
  by_recency rs = m :: rest -> forall x, In x rs -> stamp x <= stamp m.
Proof.
  revert m rest. induction rs as [|r rs IH]; intros m rest; [done|]. cbn [by_recency].
  destruct (by_recency rs) as [|m' rest'] eqn:E.
  - cbn. intros [= <- <-] x [<-|Hin]; [lia|]. apply by_recency_perm in Hin. by rewrite E in Hin.
  - specialize (IH m' rest' eq_refl). cbn.
    destruct (stamp m' <=? stamp r) eqn:El; intros [= <- <-] x [<-|Hin]; try lia.
    + specialize (IH x Hin). lia.
    + by apply IH.
Qed.

Lemma runs_ok_sep base lo rs a b :
  runs_ok base lo rs -> In a rs -> In b rs ->
  a = b \/ e_off base a < s_off base b \/ e_off base b < s_off base a.
Proof.
  revert lo. induction rs as [|r rs IH]; intros lo; [done|]. intros (_ & _ & Hrest) [->|Ha] [->|Hb]; auto.
  - destruct (runs_ok_In _ _ _ b Hrest Hb). lia.
  - destruct (runs_ok_In _ _ _ a Hrest Ha). lia.
  - by eapply IH.
Qed.

(** C24 — functional.  Inserting any segment at or above [rcv_nxt] never panics
    and keeps the buffer's invariant (runs sorted, disjoint and non-adjacent,
    above [rcv_nxt], the byte counter equal to their total).  Exactly the
    octets of the segment below the right edge are added, and where data was
    already buffered the old byte wins; the byte count grows by at most the
    distance to the right edge, and no run reaches beyond it. *)
Theorem reassembly_insert rcv_nxt right_edge seg_seq payload l r :
  in_half rcv_nxt right_edge -> in_half rcv_nxt seg_seq ->
  off rcv_nxt seg_seq + zlen payload < 2 ^ 31 ->
  reasm_wf rcv_nxt l r -> 0 <= l <= off rcv_nxt seg_seq ->
  exists r', insert r rcv_nxt right_edge seg_seq payload = Some r' /\ reasm_wf rcv_nxt l r' /\
    (forall x, content rcv_nxt (runs r') x =
      match content rcv_nxt (runs r) x with
      | Some b => Some b
      | None => if kept rcv_nxt right_edge seg_seq payload x
                then at_ payload (x - off rcv_nxt seg_seq) else None
      end) /\
    buffered r <= buffered r' <= buffered r + Z.max 0 (off rcv_nxt right_edge - off rcv_nxt seg_seq) /\
    (forall W, off rcv_nxt right_edge <= W ->
       Forall (fun run => e_off rcv_nxt run <= W) (runs r) ->
       Forall (fun run => e_off rcv_nxt run <= W) (runs r')).
Proof. intros. by apply insert_core. Qed.

(** Two runs across the 2^32 wrap, at offsets 3..5 and 8..10 from 4294967293. *)
Definition demo_reasm : Reasm := mkReasm [mkSeg 0 [10; 11] 1; mkSeg 5 [20; 21] 2] 4 2.
Lemma demo_reasm_wf : reasm_wf 4294967293 1 demo_reasm.
Proof.
  split; [unfold seq_ok, is_u32; lia| |reflexivity|].
  - unfold demo_reasm, runs, runs_ok, run_ok, seq_ok, is_u32, s_off, e_off. cbn [start data].
    repeat split; vm_compute; congruence.
  - repeat apply List.Forall_cons; try apply List.Forall_nil; cbn; lia.
Defined.

Lemma reassembly_insert_witness :
  exists r', insert demo_reasm 4294967293 20 1 [91; 92; 93; 94; 95; 96; 97; 98] = Some r' /\
    runs r' = [mkSeg 0 [10; 11; 92; 93; 94; 20; 21; 97; 98] 3] /\
    reasm_wf 4294967293 1 r'.
Proof.
  destruct (reassembly_insert 4294967293 20 1 [91; 92; 93; 94; 95; 96; 97; 98] 1 demo_reasm)
    as (r' & H1 & H2 & _).
  - split; [unfold seq_ok, is_u32; lia|reflexivity].
  - split; [unfold seq_ok, is_u32; lia|reflexivity].
  - vm_compute. reflexivity.
  - exact demo_reasm_wf.
  - vm_compute. split; discriminate.
  - exists r'. split; [exact H1|]. split; [|exact H2].
    vm_compute in H1. injection H1 as <-. reflexivity.
Defined.

(** C25 — functional.  When the cumulative point moves to [cut], [discard_below]
    and then [pop_contiguous] never panic; they return exactly the maximal
    run of buffered bytes starting at [cut] (empty when there is a gap), keep
    every other byte above [cut] at its place, drop everything below, and
    leave all runs strictly above the new cumulative point, so the gap in
    front of the rest is real. *)
Theorem reassembly_drain rcv_nxt l r cut :
  reasm_wf rcv_nxt l r -> 0 <= l -> in_half rcv_nxt cut ->
  exists r1 r2 d, discard_below r cut = Some r1 /\ pop_contiguous r1 cut = Some (r2, d) /\
    (forall i, 0 <= i < zlen d -> at_ d i = content rcv_nxt (runs r) (i + off rcv_nxt cut)) /\
    content rcv_nxt (runs r) (zlen d + off rcv_nxt cut) = None /\
    (forall x, zlen d <= x -> content cut (runs r2) x = content rcv_nxt (runs r) (x + off rcv_nxt cut)) /\
    reasm_wf cut (zlen d + 1) r2 /\ buffered r2 + zlen d <= buffered r.
Proof.
  intros Hr Hl Hcut.
  destruct (discard_core rcv_nxt l r cut Hr Hl Hcut) as (r1 & H1 & Hwf1 & Hc1 & Hb1 & _).
  destruct (pop_core cut r1 Hwf1) as (r2 & d & H2 & Hb2 & Hd & Hgap & Hwf2 & Hc2 & _).
  exists r1, r2, d. pose proof (zlen_nonneg d). unfold buffered. split_and!; try done.
  - intros i Hi. rewrite Hd, Hc1 by lia. done.
  - rewrite <- Hc1 by lia. done.
  - intros x Hx. rewrite Hc2, Hc1 by lia. done.
  - lia.
Qed.

Lemma reassembly_drain_witness :
  exists r1 r2 d, discard_below demo_reasm 1 = Some r1 /\ pop_contiguous r1 1 = Some (r2, d) /\
    d = [11] /\ reasm_wf 1 (zlen d + 1) r2.
Proof.
  destruct (reassembly_drain 4294967293 1 demo_reasm 1 demo_reasm_wf) as (r1 & r2 & d & H1 & H2 & _ & _ & _ & H3 & _).
  - lia.
  - split; [unfold seq_ok, is_u32; lia|reflexivity].
  - exists r1, r2, d. split; [exact H1|]. split; [exact H2|]. split; [|exact H3].
    vm_compute in H1. injection H1 as <-. vm_compute in H2. injection H2 as <- <-. reflexivity.
Defined.

(** The SACK report of a well-formed buffer lists at most the
    requested number of blocks, each one a maximal run of octets actually
    held (every octet in it is buffered, the one after it is not), above
    [rcv_nxt], the most recently touched run first. *)
Lemma sack_report_is_buffered rcv_nxt lo r n :
  reasm_wf rcv_nxt lo r -> 0 <= n ->
  zlen (report r n) = Z.min n (zlen (runs r)) /\
  (forall lft rgt, In (lft, rgt) (report r n) ->
     in_half rcv_nxt lft /\ in_half rcv_nxt rgt /\ lo <= off rcv_nxt lft < off rcv_nxt rgt /\
     (forall x, off rcv_nxt lft <= x < off rcv_nxt rgt -> is_Some (content rcv_nxt (runs r) x)) /\
     content rcv_nxt (runs r) (off rcv_nxt rgt) = None) /\
  (forall b rest, report r n = b :: rest -> exists m, In m (runs r) /\ b = (start m, run_end m) /\
     forall x, In x (runs r) -> stamp x <= stamp m).
Proof.
  intros [Hb Hrs Hn Hst] Hn0. unfold report. split; [|split].
  - rewrite zlen_ztake. unfold zlen. rewrite length_map, by_recency_length. lia.
  - intros lft rgt Hin. unfold ztake in Hin. rewrite <- list_elem_of_In in Hin.
    apply elem_of_take in Hin as (i & Hin & _). apply list_elem_of_lookup_2 in Hin.
    rewrite list_elem_of_In, in_map_iff in Hin.
    destruct Hin as (m & [= <- <-] & Hm). apply (proj1 (by_recency_perm _ m)) in Hm.
    destruct (runs_ok_In _ _ _ m Hrs Hm) as [Hok Hlo].
    destruct (run_end_off _ m Hok) as [He Ee]. rewrite Ee. fold (s_off rcv_nxt m).
    pose proof Hok as (_ & ? & _). assert (s_off rcv_nxt m < e_off rcv_nxt m) by (unfold e_off; lia).
    split_and!; try done; [by apply run_start_half| |].
    + intros x Hx. destruct (content rcv_nxt (runs r) x) eqn:Ec; [by eexists|].
      pose proof (content_None_inv _ _ _ m Ec Hm). lia.
    + apply content_None. intros m2 Hm2.
      destruct (runs_ok_sep _ _ _ m m2 Hrs Hm Hm2) as [<-|[?|?]]; [lia|lia|].
      destruct (runs_ok_In _ _ _ m2 Hrs Hm2). lia.
  - intros b rest Heq. destruct (by_recency (runs r)) as [|m ms] eqn:E.
    { unfold ztake in Heq. cbn in Heq. by rewrite take_nil in Heq. }
    exists m. split; [apply by_recency_perm; rewrite E; by left|].
    split; [|by eapply by_recency_head].
    unfold ztake in Heq. cbn in Heq. destruct (Z.to_nat n); cbn in Heq; [done|]. by injection Heq as <- _.
Qed.

Lemma sack_report_is_buffered_witness :
  report demo_reasm 4 = [(5, 7); (0, 2)] /\
  forall lft rgt, In (lft, rgt) (report demo_reasm 4) ->
    content 4294967293 (runs demo_reasm) (off 4294967293 rgt) = None.
Proof.
  split; [vm_compute; reflexivity|]. intros lft rgt Hin.
  destruct (sack_report_is_buffered 4294967293 1 demo_reasm 4 demo_reasm_wf) as (_ & H & _); [lia|].
  exact (proj2 (proj2 (proj2 (proj2 (H lft rgt Hin))))).
Defined.
