(* ===== verification/Congestion.v ===== *)
(** Congestion control: [tcp-core/src/congestion.rs].

    [CongestionControl] is the trait, as a class: what the TCB calls.
    [CongestionLaws] is what the TCB may rely on, whichever controller it holds:
    no event panics or diverges, and the window never falls below one segment.
    [Reno] implements both here, the other controllers in files of their own; the
    TCB's theorems are proved against the classes. *)

From S2P Require Import Prelude Seq Time.

(** *** The trait *)

Class CongestionControl (C : Type) := {
  cc_cwnd : C -> Z;
  cc_ssthresh : C -> Z;
  cc_on_ack : C -> Instant -> Z -> option C;
  cc_on_dup_ack : C -> Instant -> Z -> option (C * bool);
  cc_enter_recovery : C -> Instant -> Z -> option C;
  cc_on_rto : C -> Instant -> Z -> option C;
  cc_set_mss : C -> Z -> option C;
  cc_pacing_rate : C -> option Z;
  cc_on_transmit : C -> Instant -> SeqNumber -> Z -> Z -> bool -> option C;
  cc_on_ack_sample : C -> Instant -> SeqNumber -> Z -> Z -> Z -> bool -> option C;
  cc_on_ecn : C -> Instant -> Z -> Z -> option C;
  cc_on_rtt_sample : C -> Z -> option C;
}.

(** The trait's default methods: no-ops, and no pacing. *)
Definition default_pacing_rate {C} (_ : C) : option Z := None.
Definition default_on_transmit {C} (c : C) (_ : Instant) (_ : SeqNumber) (_ _ : Z) (_ : bool)
  : option C := Some c.
Definition default_on_ack_sample {C} (c : C) (_ : Instant) (_ : SeqNumber) (_ _ _ : Z) (_ : bool)
  : option C := Some c.
Definition default_on_ecn {C} (c : C) (_ : Instant) (_ _ : Z) : option C := Some c.
Definition default_on_rtt_sample {C} (c : C) (_ : Z) : option C := Some c.

(** Which controller a connection runs. *)
Inductive CcKind := CcReno | CcCubic | CcBbr | CcDctcp | CcLearned | CcPrague | CcSynth.
#[export] Instance CcKind_eq_dec : EqDecision CcKind.
Proof. solve_decision. Defined.

(** What a controller promises: an invariant relative to its segment size that
    every event preserves without panicking, and that keeps at least one
    segment of window. *)
Class CongestionLaws (C : Type) `{CongestionControl C} := {
  cc_ok : Z -> C -> Prop;
  cc_ok_cwnd mss c : cc_ok mss c -> mss <= cc_cwnd c <= U32_MAX;
  cc_on_ack_ok mss c now acked : cc_ok mss c -> is_u32 acked ->
    exists c', cc_on_ack c now acked = Some c' /\ cc_ok mss c';
  cc_on_dup_ack_ok mss c now flight : cc_ok mss c -> is_u32 flight ->
    exists c' b, cc_on_dup_ack c now flight = Some (c', b) /\ cc_ok mss c';
  cc_enter_recovery_ok mss c now flight : cc_ok mss c -> is_u32 flight ->
    exists c', cc_enter_recovery c now flight = Some c' /\ cc_ok mss c';
  cc_on_rto_ok mss c now flight : cc_ok mss c -> is_u32 flight ->
    exists c', cc_on_rto c now flight = Some c' /\ cc_ok mss c';
  cc_on_transmit_ok mss c now seq_end n inflight app : cc_ok mss c ->
    exists c', cc_on_transmit c now seq_end n inflight app = Some c' /\ cc_ok mss c';
  cc_on_ack_sample_ok mss c now una inflight acked pipe rec : cc_ok mss c ->
    exists c', cc_on_ack_sample c now una inflight acked pipe rec = Some c' /\ cc_ok mss c';
  cc_on_ecn_ok mss c now acked marked : cc_ok mss c -> is_u32 acked -> is_u32 marked ->
    exists c', cc_on_ecn c now acked marked = Some c' /\ cc_ok mss c';
  cc_on_rtt_sample_ok mss c srtt : cc_ok mss c ->
    exists c', cc_on_rtt_sample c srtt = Some c' /\ cc_ok mss c';
}.

(** The safety envelope the bounded checker of [tcp-core/src/bmc.rs] asserts:
    growth on a clean ACK, no growth on a mark, and a loss response that neither
    inflates the window past the pipe nor lets the threshold under two segments. *)
Definition loss_bounded {C} `{CongestionControl C} (mss : Z) (c' : C) (flight : Z) : Prop :=
  cc_cwnd c' <= Z.max flight (2 * mss) /\ 2 * mss <= cc_ssthresh c'.
Class SafetyEnvelope (C : Type) `{CongestionLaws C} := {
  se_ack mss c now acked c' : cc_ok mss c -> is_u32 acked ->
    cc_on_ack c now acked = Some c' -> cc_cwnd c <= cc_cwnd c';
  se_dup mss c now flight c' b : cc_ok mss c -> is_u32 flight ->
    cc_on_dup_ack c now flight = Some (c', b) ->
    if b then loss_bounded mss c' flight else cc_cwnd c' = cc_cwnd c;
  se_recovery mss c now flight c' : cc_ok mss c -> is_u32 flight ->
    cc_enter_recovery c now flight = Some c' -> loss_bounded mss c' flight;
  se_rto mss c now flight c' : cc_ok mss c -> is_u32 flight ->
    cc_on_rto c now flight = Some c' -> loss_bounded mss c' flight;
  se_ecn mss c now acked marked c' : cc_ok mss c -> is_u32 acked -> is_u32 marked ->
    cc_on_ecn c now acked marked = Some c' -> cc_cwnd c' <= cc_cwnd c;
}.

(** *** Event sequences *)

(** What the TCB feeds a controller, each event at its own time. *)
Inductive Event :=
  | EAck (acked : Z) | EDupAck (flight : Z) | EEnterRecovery (flight : Z) | ERto (flight : Z)
  | EEcn (acked marked : Z) | ERtt (srtt_us : Z)
  | ETransmit (seq_end : SeqNumber) (bytes inflight : Z) (app_limited : bool)
  | ESample (snd_una : SeqNumber) (inflight acked pipe : Z) (in_recovery : bool).
Definition event_ok (e : Event) : Prop :=
  match e with
  | EAck n | EDupAck n | EEnterRecovery n | ERto n => is_u32 n
  | EEcn n k => is_u32 n /\ is_u32 k
  | ERtt _ | ETransmit _ _ _ _ | ESample _ _ _ _ _ => True
  end.
Definition events_ok (es : list (Instant * Event)) : Prop := Forall (fun te => event_ok te.2) es.

Section events.
Context {C : Type} `{CongestionLaws C}.

Definition feed (self : C) (now : Instant) (e : Event) : option C :=
  match e with
  | EAck acked => cc_on_ack self now acked
  | EDupAck flight => let? (self, _) := cc_on_dup_ack self now flight in Some self
  | EEnterRecovery flight => cc_enter_recovery self now flight
  | ERto flight => cc_on_rto self now flight
  | EEcn acked marked => cc_on_ecn self now acked marked
  | ERtt srtt_us => cc_on_rtt_sample self srtt_us
  | ETransmit seq_end bytes inflight app => cc_on_transmit self now seq_end bytes inflight app
  | ESample una inflight acked pipe rec => cc_on_ack_sample self now una inflight acked pipe rec
  end.
Fixpoint feeds (self : C) (es : list (Instant * Event)) : option C :=
  match es with
  | [] => Some self
  | (now, e) :: es => let? self := feed self now e in feeds self es
  end.

Lemma feed_ok m self now e : cc_ok m self -> event_ok e -> exists self', feed self now e = Some self' /\ cc_ok m self'.
Proof.
  intros Hok He. destruct e as [n|n|n|n|n k|n|? ? ? ?|? ? ? ? ?]; cbn [feed].
  - by apply cc_on_ack_ok.
  - destruct (cc_on_dup_ack_ok m self now n Hok He) as (c & b & -> & ?). by exists c.
  - by apply cc_enter_recovery_ok.
  - by apply cc_on_rto_ok.
  - by apply cc_on_ecn_ok; destruct He.
  - by apply cc_on_rtt_sample_ok.
  - by apply cc_on_transmit_ok.
  - by apply cc_on_ack_sample_ok.
Qed.

Lemma feeds_ok m es self :
  events_ok es -> cc_ok m self -> exists self', feeds self es = Some self' /\ cc_ok m self'.
Proof.
  intros Hes. revert self. induction Hes as [|[now e] es He Hes IH]; intros self Hok; [by exists self|]. cbn [feeds].
  destruct (feed_ok m self now e Hok He) as (self1 & -> & Hok1). by apply IH.
Qed.
End events.

(** RFC 6928's initial window. *)
Definition initial_window (mss : Z) : Z := Z.min (10 * mss) (Z.max (2 * mss) 14600).

(** *** Reno *)
Module Reno.

Record Reno := mkReno { cwnd : Z; ssthresh : Z; mss : Z; ca_acc : Z; dup_acks : Z }.
#[export] Instance Reno_settable : Settable Reno :=
  fun r => mkReno (cwnd r) (ssthresh r) (mss r) (ca_acc r) (dup_acks r).

Definition new (m : Z) : Reno := mkReno (initial_window m) U32_MAX m 0 0.

Definition in_slow_start (self : Reno) : bool := cwnd self <? ssthresh self.

(** The congestion-avoidance [while]; its fuel is the number of whole windows
    the accumulator holds, plus one ([None]: the loop does not end). *)
Fixpoint ca_loop (fuel : nat) (self : Reno) : option Reno :=
  if cwnd self <=? ca_acc self then
    match fuel with
    | O => None
    | S fuel =>
        let self := self <| ca_acc := ca_acc self - cwnd self |> in
        ca_loop fuel (self <| cwnd := sat_add32 (cwnd self) (mss self) |>)
    end
  else Some self.

Definition on_ack (self : Reno) (_ : Instant) (acked : Z) : option Reno :=
  let self := self <| dup_acks := 0 |> in
  if acked =? 0 then Some self
  else if in_slow_start self then
    Some (self <| cwnd := sat_add32 (cwnd self) (Z.min acked (mss self)) |>)
  else
    let self := self <| ca_acc := sat_add32 (ca_acc self) acked |> in
    ca_loop (S (Z.to_nat (ca_acc self / Z.max 1 (cwnd self)))) self.

(** The FlightSize-based reduction the third duplicate ACK and
    [enter_recovery] share. *)
Definition halved (self : Reno) (flight_size : Z) : Z := Z.max (flight_size / 2) (2 * mss self).

Definition on_dup_ack (self : Reno) (_ : Instant) (flight_size : Z) : option (Reno * bool) :=
  let self := self <| dup_acks := Z.min (dup_acks self + 1) U8_MAX |> in
  if dup_acks self =? 3 then
    let self := self <| ssthresh := halved self flight_size |> in
    let self := self <| cwnd := ssthresh self |> in
    Some (self <| ca_acc := 0 |>, true)
  else Some (self, false).

Definition enter_recovery (self : Reno) (_ : Instant) (flight_size : Z) : option Reno :=
  let self := self <| ssthresh := halved self flight_size |> in
  let self := self <| cwnd := ssthresh self |> in
  Some (self <| ca_acc := 0 |> <| dup_acks := 0 |>).

Definition on_rto (self : Reno) (_ : Instant) (flight_size : Z) : option Reno :=
  let self := self <| ssthresh := halved self flight_size |> in
  Some (self <| cwnd := mss self |> <| ca_acc := 0 |>).

Definition set_mss (self : Reno) (m : Z) : option Reno :=
  let self := self <| mss := m |> in
  Some (self <| cwnd := Z.max (cwnd self) (mss self) |> <| ca_acc := 0 |>).

#[export] Instance Reno_control : CongestionControl Reno := {
  cc_cwnd := cwnd;
  cc_ssthresh := ssthresh;
  cc_on_ack := on_ack;
  cc_on_dup_ack := on_dup_ack;
  cc_enter_recovery := enter_recovery;
  cc_on_rto := on_rto;
  cc_set_mss := set_mss;
  cc_pacing_rate := default_pacing_rate;
  cc_on_transmit := default_on_transmit;
  cc_on_ack_sample := default_on_ack_sample;
  cc_on_ecn := default_on_ecn;
  cc_on_rtt_sample := default_on_rtt_sample;
}.

(** *** The safety envelope *)

Record reno_ok (m : Z) (self : Reno) : Prop := {
  rk_mss : mss self = m /\ 0 < m <= U16_MAX;
  rk_cwnd : m <= cwnd self <= U32_MAX;
  rk_ssthresh : 2 * m <= ssthresh self <= U32_MAX;
  rk_acc : 0 <= ca_acc self <= U32_MAX;
  rk_dups : 0 <= dup_acks self <= U8_MAX;
}.

Lemma new_ok m : 0 < m <= U16_MAX -> reno_ok m (new m).
Proof. unfold new, initial_window. intros. split; cbn; lia. Qed.

(** The loop: it ends, it charges a full window of acknowledged bytes for each
    segment of growth, and leaves less than a window in the accumulator. *)
Lemma ca_loop_spec fuel : forall self m,
  reno_ok m self -> (Z.to_nat (ca_acc self / cwnd self) < fuel)%nat ->
  exists self' k, ca_loop fuel self = Some self' /\ reno_ok m self' /\
    0 <= k /\ k * cwnd self <= ca_acc self - ca_acc self' /\
    cwnd self <= cwnd self' <= cwnd self + k * m /\ ca_acc self' < cwnd self' /\
    ssthresh self' = ssthresh self /\ dup_acks self' = dup_acks self.
Proof.
  induction fuel as [|fuel IH]; intros self m Hok Hf; [lia|].
  destruct Hok as [[Hm Hm0] Hc Hs Ha Hd]. cbn [ca_loop].
  destruct (cwnd self <=? ca_acc self) eqn:E.
  - set (self1 := self <| ca_acc := ca_acc self - cwnd self |>).
    set (self2 := self1 <| cwnd := sat_add32 (cwnd self1) (mss self1) |>).
    assert (Ec : cwnd self2 = Z.min (cwnd self + m) U32_MAX)
      by (unfold self2, self1, sat_add32; cbn; by rewrite Hm).
    assert (Ea : ca_acc self2 = ca_acc self - cwnd self) by done.
    destruct (IH self2 m) as (self' & k & Hl & Hok' & Hk & Hspent & Hgrow & Hleft & H1 & H2).
    { split; try done; rewrite ?Ec, ?Ea; lia. }
    { rewrite Ea. assert (Hdec : (ca_acc self - cwnd self) / cwnd self2 < ca_acc self / cwnd self).
      { apply Z.div_lt_upper_bound; [lia|].
        pose proof (Z.div_mod (ca_acc self) (cwnd self) ltac:(lia)).
        pose proof (Z.mod_pos_bound (ca_acc self) (cwnd self) ltac:(lia)).
        assert (1 <= ca_acc self / cwnd self) by (apply Z.div_le_lower_bound; lia).
        assert (cwnd self <= cwnd self2) by lia. nia. }
      assert (0 <= (ca_acc self - cwnd self) / cwnd self2) by (apply Z.div_pos; lia). lia. }
    exists self', (k + 1). split_and!; try done; try lia; rewrite ?Ea, ?Ec in *; nia.
  - exists self, 0. split_and!; try done; lia.
Qed.

Lemma on_ack_spec m self now acked :
  reno_ok m self -> is_u32 acked ->
  exists self', on_ack self now acked = Some self' /\ reno_ok m self' /\ dup_acks self' = 0 /\
    ssthresh self' = ssthresh self /\ cwnd self <= cwnd self' /\
    (in_slow_start self = true -> cwnd self' <= cwnd self + Z.min acked m) /\
    (in_slow_start self = false -> exists k, 0 <= k /\ cwnd self' <= cwnd self + k * m /\
       k * cwnd self <= ca_acc self + acked - ca_acc self').
Proof.
  intros [[Hm Hm0] Hc Hs Ha Hd] Hacked. unfold is_u32 in Hacked. unfold on_ack.
  destruct (acked =? 0) eqn:E0.
  { eexists. split; [done|]. split; [by split|]. split_and!; try done; try (cbn; lia).
    intros _. exists 0. cbn. lia. }
  change (in_slow_start (self <| dup_acks := 0 |>)) with (in_slow_start self).
  destruct (in_slow_start self) eqn:Ess.
  { eexists. split; [done|]. unfold sat_add32. cbn. rewrite Hm.
    split; [split; cbn; try done; lia|]. split_and!; try done; lia. }
  set (self1 := self <| dup_acks := 0 |> <| ca_acc := _ |>).
  assert (Ea : ca_acc self1 = Z.min (ca_acc self + acked) U32_MAX) by done.
  destruct (ca_loop_spec (S (Z.to_nat (ca_acc self1 / Z.max 1 (cwnd self1)))) self1 m)
    as (self' & k & Hl & Hok' & Hk & Hspent & Hgrow & Hleft & H1 & H2).
  { split; try done; rewrite ?Ea; lia. }
  { rewrite Z.max_r by (change (cwnd self1) with (cwnd self); lia). lia. }
  change (cwnd self1) with (cwnd self) in *.
  exists self'. split; [exact Hl|]. split_and!; try done; try lia.
  intros _. exists k. rewrite Ea in *. split_and!; lia.
Qed.

#[export] Instance Reno_laws : CongestionLaws Reno.
Proof.
  unshelve econstructor; [exact reno_ok|..].
  - intros m c []. done.
  - intros m c now acked Hok Ha. destruct (on_ack_spec m c now acked Hok Ha) as (c' & H1 & H2 & _). eauto.
  - intros m c now flight [[Hm Hm0] Hc Hs Ha Hd] Hf. unfold is_u32 in Hf. cbn. unfold on_dup_ack.
    destruct (_ =? 3) eqn:E; eexists _, _; (split; [done|]); split; cbn in *; unfold halved; cbn;
      try done; try zmod.
  - intros m c now flight [[Hm Hm0] Hc Hs Ha Hd] Hf. unfold is_u32 in Hf. cbn. unfold enter_recovery.
    eexists; (split; [done|]); split; cbn in *; unfold halved; cbn; try done; try zmod.
  - intros m c now flight [[Hm Hm0] Hc Hs Ha Hd] Hf. unfold is_u32 in Hf. cbn. unfold on_rto.
    eexists; (split; [done|]); split; cbn in *; unfold halved; cbn; try done; try zmod.
  - intros. eexists. by split.
  - intros. eexists. by split.
  - intros. eexists. by split.
  - intros. eexists. by split.
Defined.

#[export] Instance Reno_safe : SafetyEnvelope Reno.
Proof.
  split.
  - intros m c now acked c' Hok Ha E. destruct (on_ack_spec m c now acked Hok Ha) as (d & H1 & _ & _ & _ & H2 & _).
    cbn in *. congruence.
  - intros m c now flight c' b [[Hm Hm0] Hc Hs Ha Hd] Hf E. unfold is_u32 in Hf. cbn in E. unfold on_dup_ack in E.
    case_ifs_in E; injection E as <- <-; unfold loss_bounded; cbn; unfold halved; cbn; rewrite ?Hm; zmod.
  - intros m c now flight c' [[Hm Hm0] Hc Hs Ha Hd] Hf [= <-]. unfold is_u32 in Hf.
    unfold loss_bounded; cbn; unfold halved; cbn; rewrite ?Hm; zmod.
  - intros m c now flight c' [[Hm Hm0] Hc Hs Ha Hd] Hf [= <-]. unfold is_u32 in Hf.
    unfold loss_bounded; cbn; unfold halved; cbn; rewrite ?Hm; zmod.
  - intros m c now acked marked c' Hok Ha Hk [= <-]. reflexivity.
Defined.

(** For any segment size a peer can negotiate (at least one byte)
    and ANY sequence of events with any byte counts and flight sizes, Reno never
    panics and never loops forever; its window stays between one segment and
    2^32-1, its threshold at two segments or more, and the congestion-avoidance
    credit in range. *)
Lemma reno_envelope m es :
  0 < m <= U16_MAX -> events_ok es ->
  exists self, feeds (new m) es = Some self /\
    m <= cwnd self <= U32_MAX /\ 2 * m <= ssthresh self <= U32_MAX /\ 0 <= ca_acc self <= U32_MAX.
Proof.
  intros Hm Hes. assert (Hok : cc_ok m (new m)) by exact (new_ok m Hm).
  destruct (feeds_ok m es (new m) Hes Hok) as (self & Hs & [? ? ? ? ?]).
  by exists self.
Qed.

Lemma reno_envelope_witness :
  exists self, feeds (new 1460) [(0, EAck 14600); (1, EDupAck 2920); (2, EDupAck 2920); (3, EDupAck 2920); (4, EAck 14600); (5, ERto 1)]
    = Some self /\ 1460 <= cwnd self.
Proof.
  destruct (reno_envelope 1460 [(0, EAck 14600); (1, EDupAck 2920); (2, EDupAck 2920); (3, EDupAck 2920); (4, EAck 14600); (5, ERto 1)])
    as (self & H1 & H2 & _).
  - lia.
  - repeat apply List.Forall_cons; try apply List.Forall_nil; cbn; unfold is_u32; lia.
  - exists self. split; [exact H1|]. exact (proj1 H2).
Defined.

(** Growth is paid for in acknowledged bytes.  In slow start an
    acknowledgement adds at most the bytes it acknowledges (and at most one
    segment), so splitting an acknowledgement into many earns nothing; in
    congestion avoidance [k] segments of growth consume at least [k] whole
    windows of acknowledged bytes from the credit, and the remaining credit is
    below one window. *)
Lemma reno_growth_is_paid m self now acked :
  reno_ok m self -> is_u32 acked ->
  exists self', on_ack self now acked = Some self' /\ cwnd self <= cwnd self' /\
    dup_acks self' = 0 /\ ssthresh self' = ssthresh self /\
    (in_slow_start self = true -> cwnd self' <= cwnd self + Z.min acked m) /\
    (in_slow_start self = false -> exists k, 0 <= k /\ cwnd self' <= cwnd self + k * m /\
       k * cwnd self <= ca_acc self + acked - ca_acc self').
Proof.
  intros Hok Ha. destruct (on_ack_spec m self now acked Hok Ha) as (self' & H1 & _ & H3 & H4 & H5 & H6 & H7).
  by exists self'.
Qed.

Lemma reno_growth_is_paid_witness :
  exists self', on_ack (mkReno 2920 2920 1460 0 2) 0 5840 = Some self' /\ cwnd self' = 4380 /\
    ca_acc self' = 2920 /\ dup_acks self' = 0.
Proof.
  destruct (reno_growth_is_paid 1460 (mkReno 2920 2920 1460 0 2) 0 5840) as (self' & H & _ & Hd & _).
  - split; cbn; lia.
  - unfold is_u32; lia.
  - exists self'. split; [exact H|]. vm_compute in H. injection H as <-.
    split; [reflexivity|]. split; [reflexivity|exact Hd].
Defined.

(** The response to loss is RFC 5681's, computed from the
    FlightSize and not from the window: the third duplicate ACK (and only the
    third) and an early loss declaration set window and threshold to
    max(FlightSize/2, 2 MSS); a timeout sets the same threshold but collapses
    the window to one segment, re-entering slow start. *)
Lemma reno_loss_response m self now flight :
  reno_ok m self -> is_u32 flight ->
  let half := Z.max (flight / 2) (2 * m) in
  (exists self' fired, on_dup_ack self now flight = Some (self', fired) /\
     fired = (dup_acks self =? 2) /\
     (if fired then cwnd self' = half /\ ssthresh self' = half
      else cwnd self' = cwnd self /\ ssthresh self' = ssthresh self)) /\
  (exists self', enter_recovery self now flight = Some self' /\
     cwnd self' = half /\ ssthresh self' = half /\ dup_acks self' = 0) /\
  (exists self', on_rto self now flight = Some self' /\
     cwnd self' = m /\ ssthresh self' = half /\ in_slow_start self' = true).
Proof.
  intros [[Hm Hm0] Hc Hs Ha Hd] Hf half. split; [|split].
  - unfold on_dup_ack. cbn. replace (dup_acks self =? 2) with (Z.min (dup_acks self + 1) U8_MAX =? 3) by lia.
    destruct (_ =? 3); eexists _, _; (split; [done|]); (split; [done|]); cbn; unfold halved; cbn; rewrite ?Hm; done.
  - eexists. split; [done|]. cbn. unfold halved; cbn. by rewrite Hm.
  - eexists. split; [done|]. cbn. unfold halved, in_slow_start; cbn. rewrite Hm. fold half.
    split_and!; try done. unfold half. lia.
Qed.

Lemma reno_loss_response_witness :
  exists self', on_dup_ack (mkReno 50000 4294967295 1460 7 2) 0 20000 = Some (self', true) /\
    cwnd self' = 10000 /\ ssthresh self' = 10000.
Proof.
  destruct (reno_loss_response 1460 (mkReno 50000 4294967295 1460 7 2) 0 20000) as ((s & f & H1 & H2 & H3) & _).
  - split; cbn; lia.
  - unfold is_u32; lia.
  - cbn in H2. subst f. exists s. split; [exact H1|exact H3].
Defined.

End Reno.
