(* ===== verification/F64.v ===== *)
(** Binary64 arithmetic, as the controllers of [tcp-core/src/congestion.rs] and
    [bbr.rs] use it: the standard library's specification of IEEE 754
    ([SpecFloat]) at precision 53, with Rust's conversions and comparisons, and
    what the proofs need of rounding: it never crosses a representable bound. *)

From Stdlib Require Import SpecFloat.
From S2P Require Import Prelude.

Definition f64 : Set := spec_float.

Definition fadd : f64 -> f64 -> f64 := SFadd 53 1024.
Definition fsub : f64 -> f64 -> f64 := SFsub 53 1024.
Definition fmul : f64 -> f64 -> f64 := SFmul 53 1024.
Definition fdiv : f64 -> f64 -> f64 := SFdiv 53 1024.

(** [n as f64] for an unsigned [n] (exact below 2^53, else to nearest even). *)
Definition f_of (n : Z) : f64 := binary_normalize 53 1024 n 0 false.

(** A decimal literal [n / d]: the quotient rounded once. *)
Definition lit (n d : Z) : f64 :=
  let '(q, e, l) := SFdiv_core_binary 53 1024 n 0 d 0 in binary_round_aux 53 1024 false q e l.

Definition f_zero : f64 := S754_zero false.
Definition fneg (x : f64) : f64 := SFopp x.

(** Comparison by value; [None] with a NaN. *)
Definition fcompare (x y : f64) : option comparison :=
  match x, y with
  | S754_nan, _ | _, S754_nan => None
  | S754_infinity s1, S754_infinity s2 =>
      Some (match s1, s2 with true, false => Lt | false, true => Gt | _, _ => Eq end)
  | S754_infinity s, _ => Some (if s then Lt else Gt)
  | _, S754_infinity s => Some (if s then Gt else Lt)
  | S754_zero _, S754_zero _ => Some Eq
  | S754_zero _, S754_finite s _ _ => Some (if s then Gt else Lt)
  | S754_finite s _ _, S754_zero _ => Some (if s then Lt else Gt)
  | S754_finite s1 m1 e1, S754_finite s2 m2 e2 =>
      let e := Z.min e1 e2 in
      Some (Z.compare (cond_Zopp s1 (Z.shiftl (Zpos m1) (e1 - e))) (cond_Zopp s2 (Z.shiftl (Zpos m2) (e2 - e))))
  end.
Definition flt (x y : f64) : bool := match fcompare x y with Some Lt => true | _ => false end.
Definition fle (x y : f64) : bool := match fcompare x y with Some (Lt | Eq) => true | _ => false end.
Definition fgt (x y : f64) : bool := flt y x.
Definition fge (x y : f64) : bool := fle y x.
Definition feqb (x y : f64) : bool := match fcompare x y with Some Eq => true | _ => false end.
Definition is_nan (x : f64) : bool := match x with S754_nan => true | _ => false end.

(** [x as u32] and [x as u64]: truncation that saturates, 0 for a NaN. *)
Definition f_to (limit : Z) (x : f64) : Z :=
  match x with
  | S754_finite false m e =>
      Z.min limit (if 0 <=? e then Z.shiftl (Zpos m) e else Z.shiftr (Zpos m) (- e))
  | S754_infinity false => limit
  | _ => 0
  end.
Definition f_to_u32 : f64 -> Z := f_to U32_MAX.
Definition f_to_u64 : f64 -> Z := f_to U64_MAX.

Lemma f_to_range limit x : 0 <= limit -> 0 <= f_to limit x <= limit.
Proof.
  intros Hl. destruct x as [| [] | |[] m e]; cbn; try lia.
  assert (0 <= if 0 <=? e then Z.shiftl (Z.pos m) e else Z.shiftr (Z.pos m) (- e)).
  { case_ifs; [rewrite Z.shiftl_nonneg|rewrite Z.shiftr_nonneg]; lia. }
  lia.
Qed.

(** *** Values, scaled by 2^3000 *)

Definition pw (e : Z) : Z := 2 ^ (e + 3000).

Lemma pw_pos e : -3000 <= e -> 0 < pw e.
Proof. intros. apply Z.pow_pos_nonneg; lia. Qed.
Lemma pw_split a b : -3000 <= a <= b -> pw b = pw a * 2 ^ (b - a).
Proof. intros. unfold pw. rewrite <- Z.pow_add_r by lia. f_equal. lia. Qed.
Lemma pw_add a k : -3000 <= a -> 0 <= k -> pw (a + k) = pw a * 2 ^ k.
Proof. intros. rewrite (pw_split a (a + k)) by lia. f_equal. f_equal. lia. Qed.

(** [x] is a finite number between 0 and [B * 2^g]. *)
Definition upto (x : f64) (B g : Z) : Prop :=
  match x with
  | S754_zero _ => True
  | S754_finite false m e => -1074 <= e /\ Zpos m * pw e <= B * pw g
  | _ => False
  end.

(** [B * 2^g] is a binary64 number well below overflow. *)
Definition rep (B g : Z) : Prop := 0 <= B < 2 ^ 53 /\ -1074 <= g <= 900.

Lemma upto_weaken x B g B' g' : upto x B g -> B * pw g <= B' * pw g' -> upto x B' g'.
Proof. destruct x as [| | |[] m e]; cbn; try tauto. intros [? ?] ?. split; lia. Qed.

(** *** Rounding *)

Lemma digits2_bound p : Zpos p < 2 ^ Zpos (digits2_pos p) /\ 2 ^ (Zpos (digits2_pos p) - 1) <= Zpos p.
Proof.
  induction p as [p [IH1 IH2]|p [IH1 IH2]|]; cbn [digits2_pos]; [| |by split].
  1, 2: rewrite Pos2Z.inj_succ, <- Z.add_1_r, Z.pow_add_r by lia; change (2 ^ 1) with 2;
    replace (Z.pos (digits2_pos p) + 1 - 1) with (Z.pos (digits2_pos p) - 1 + 1) by lia;
    rewrite (Z.pow_add_r 2 (Z.pos (digits2_pos p) - 1) 1) by lia; change (2 ^ 1) with 2; lia.
Qed.

Definition mrs_ok (s : shr_record) (m k : Z) (inexact : bool) : Prop :=
  shr_m s = m / 2 ^ k /\ 0 <= shr_m s /\
  (shr_r s || shr_s s = true -> inexact = true \/ m mod 2 ^ k <> 0).

Lemma shr_1_ok s m k b : 0 <= m -> 0 <= k -> mrs_ok s m k b -> mrs_ok (shr_1 s) m (k + 1) b.
Proof.
  intros Hm Hk (Hs & H0 & Hf). destruct s as [sm r t]. cbn in Hs, H0, Hf.
  assert (E : m / 2 ^ (k + 1) = sm / 2).
  { rewrite Z.pow_add_r, <- Z.div_div by lia. change (2 ^ 1) with 2. by rewrite <- Hs. }
  assert (Hmod : m mod 2 ^ (k + 1) = m mod 2 ^ k + 2 ^ k * (sm mod 2)).
  { rewrite Z.pow_add_r by lia. change (2 ^ 1) with 2. rewrite Z.rem_mul_r by lia. by rewrite <- Hs. }
  pose proof (Z.mod_pos_bound m (2 ^ k) ltac:(lia)) as Hb.
  unfold mrs_ok. rewrite E, Hmod. assert (Hpk : 0 < 2 ^ k) by lia.
  assert (Hbit : shr_m (shr_1 (Build_shr_record sm r t)) = sm / 2 /\
    (shr_r (shr_1 (Build_shr_record sm r t)) || shr_s (shr_1 (Build_shr_record sm r t)) = true ->
     (r || t = true) \/ sm mod 2 = 1)).
  { destruct sm as [|[q|q|]|q]; cbn; try lia; (split; [done || zmod|]); intros H; destruct r, t; cbn in *;
      try discriminate H; try (by left); right; zmod. }
  destruct Hbit as [-> Hbit]. split; [done|]. split; [apply Z.div_pos; lia|].
  intros H. destruct (Hbit H) as [H'|H']; [destruct (Hf H') as [?|?]; [by left|]|]; right.
  - pose proof (Z.mod_pos_bound sm 2 ltac:(lia)). nia.
  - rewrite H'. lia.
Qed.

Lemma iter_shr_ok (p : positive) s m k b :
  0 <= m -> 0 <= k -> mrs_ok s m k b -> mrs_ok (SpecFloat.iter_pos shr_1 p s) m (k + Zpos p) b.
Proof.
  revert s k. induction p as [p IH|p IH|]; intros s k Hm Hk Hs; cbn [SpecFloat.iter_pos].
  - replace (k + Z.pos p~1) with (k + 1 + Z.pos p + Z.pos p) by lia.
    apply IH; [done|lia|]. apply IH; [done|lia|]. by apply shr_1_ok.
  - replace (k + Z.pos p~0) with (k + Z.pos p + Z.pos p) by lia.
    apply IH; [done|lia|]. by apply IH.
  - by apply shr_1_ok.
Qed.

Definition inexact (l : location) : bool := match l with loc_Exact => false | _ => true end.

(** Moving to the format's exponent: a floor, with the remainder flagged. *)
Lemma shr_fexp_ok m e l s e1 :
  0 <= m -> shr_fexp 53 1024 m e l = (s, e1) ->
  exists k, 0 <= k /\ e1 = e + k /\ mrs_ok s m k (inexact l) /\
    -1074 <= e1 /\ (0 < k -> e1 = Z.max (Zdigits2 m + e - 53) (-1074)).
Proof.
  intros Hm. unfold shr_fexp, shr. set (f := fexp 53 1024 (Zdigits2 m + e)).
  assert (Hf : f = Z.max (Zdigits2 m + e - 53) (-1074)) by reflexivity.
  assert (H0 : mrs_ok (shr_record_of_loc m l) m 0 (inexact l)).
  { unfold mrs_ok. rewrite Z.pow_0_r, Z.div_1_r.
    destruct l as [|[]]; cbn; split_and!; try done; intros _; by left. }
  destruct (f - e) as [|p|p] eqn:Ek; intros [= <- <-].
  - exists 0. split; [lia|]. split; [lia|]. split; [exact H0|]. lia.
  - exists (Z.pos p). split; [lia|]. split; [lia|].
    split; [exact (iter_shr_ok p _ m 0 _ Hm ltac:(lia) H0)|]. lia.
  - exists 0. split; [lia|]. split; [lia|]. split; [exact H0|]. lia.
Qed.

Lemma round_even_cases m l : round_nearest_even m l = m \/ round_nearest_even m l = m + 1 /\ inexact l = true.
Proof. destruct l as [|[]]; cbn; try tauto. destruct (Z.even m); tauto. Qed.
Lemma loc_inexact s : inexact (loc_of_shr_record s) = shr_r s || shr_s s.
Proof. by destruct s as [? [] []]. Qed.

(** Rounding a number below a representable bound stays below it. *)
Lemma round_upto m e l B g :
  0 <= m -> -2999 <= e -> rep B g -> (m + Z.b2z (inexact l)) * pw e <= B * pw g ->
  upto (binary_round_aux 53 1024 false m e l) B g.
Proof.
  intros Hm He [HB Hg] Hv. unfold binary_round_aux.
  destruct (shr_fexp 53 1024 m e l) as [s e1] eqn:E1.
  destruct (shr_fexp_ok _ _ _ _ _ Hm E1) as (k & Hk & -> & (Hsm & Hs0 & Hfl) & He1 & Hexp).
  set (m2 := round_nearest_even _ _).
  assert (Hpe : 0 < pw e) by (apply pw_pos; lia).
  assert (Hp2 : 0 < 2 ^ k) by lia.
  pose proof (Z.div_mod m (2 ^ k) ltac:(lia)) as Hdm.
  pose proof (Z.mod_pos_bound m (2 ^ k) ltac:(lia)) as Hmb.
  assert (Hb2 : 0 <= Z.b2z (inexact l)) by (destruct (inexact l); cbn; lia).
  assert (H2 : 0 <= m2 /\ m2 * pw (e + k) <= B * pw g).
  { destruct (round_even_cases (shr_m s) (loc_of_shr_record s)) as [E|[E Hin]]; fold m2 in E; rewrite E, Hsm.
    - split; [apply Z.div_pos; lia|]. rewrite pw_add by lia.
      assert (m / 2 ^ k * (pw e * 2 ^ k) <= m * pw e) by nia. nia.
    - split; [pose proof (Z.div_pos m (2 ^ k) ltac:(lia) ltac:(lia)); lia|].
      rewrite loc_inexact in Hin. specialize (Hfl Hin).
      assert (Hlt : m / 2 ^ k * pw (e + k) < B * pw g).
      { rewrite pw_add by lia. destruct Hfl as [Hl|Hr]; [rewrite Hl in Hv; cbn in Hv|]; nia. }
      destruct (Z.eq_dec k 0) as [->|Hk0].
      { change (2 ^ 0) with 1 in *. rewrite Z.mod_1_r, Z.div_1_r, Z.add_0_r in *.
        destruct Hfl as [Hl|]; [|done]. rewrite Hl in Hv. exact Hv. }
      assert (Hgrid : e + k <= g).
      { rewrite Hexp in * by lia. destruct m as [|p|p]; [cbn in *; lia| |lia].
        cbn [Zdigits2] in *. destruct (digits2_bound p) as [_ Hd]. set (d := Z.pos (digits2_pos p)) in *.
        assert (Hs : pw (d - 1 + e) <= Z.pos p * pw e).
        { replace (d - 1 + e) with (e + (d - 1)) by lia. rewrite pw_add by lia. nia. }
        assert (Hbg : B * pw g < pw (g + 53)) by (rewrite pw_add by lia; pose proof (pw_pos g); nia).
        assert (Hlt2 : pw (d - 1 + e) < pw (g + 53)) by lia.
        apply Z.pow_lt_mono_r_iff in Hlt2; lia. }
      rewrite (pw_split (e + k) g) in Hlt |- * by lia.
      assert (Hpk : 0 < pw (e + k)) by (apply pw_pos; lia).
      generalize dependent (2 ^ (g - (e + k))). intros q Hlt.
      assert (m / 2 ^ k < B * q) by (apply (Z.mul_lt_mono_pos_r (pw (e + k))); lia).
      replace (B * (pw (e + k) * q)) with (B * q * pw (e + k)) by lia.
      apply Z.mul_le_mono_nonneg_r; lia. }
  destruct H2 as [Hm2 Hv2].
  destruct (shr_fexp 53 1024 m2 (e + k) loc_Exact) as [s2 e2] eqn:E2.
  destruct (shr_fexp_ok _ _ _ _ _ Hm2 E2) as (k2 & Hk2 & -> & (Hsm2 & Hs20 & _) & He2 & _).
  assert (H3 : shr_m s2 * pw (e + k + k2) <= B * pw g).
  { rewrite Hsm2, pw_add by lia. pose proof (Z.mul_div_le m2 (2 ^ k2) ltac:(lia)).
    assert (0 < pw (e + k)) by (apply pw_pos; lia). nia. }
  destruct (shr_m s2) as [|p|p] eqn:Ep; [done| |lia].
  assert (Hbg : B * pw g < pw (g + 53)) by (rewrite pw_add by lia; pose proof (pw_pos g); nia).
  assert (He3 : e + k + k2 < g + 53).
  { assert (0 < pw (e + k + k2)) by (apply pw_pos; lia).
    assert (Hlt : pw (e + k + k2) < pw (g + 53)) by nia. apply Z.pow_lt_mono_r_iff in Hlt; lia. }
  change (1024 - 53) with 971. destruct (Z.leb_spec (e + k + k2) 971); [|lia]. by split.
Qed.

(** *** Operations *)

Lemma pw_mul a b : -1500 <= a -> -1500 <= b -> pw a * pw b = pw (a + b) * pw 0.
Proof. intros. unfold pw. rewrite <- !Z.pow_add_r by lia. f_equal. lia. Qed.

Lemma iter_xO p q : Z.pos (Pos.iter xO p q) = Z.pos p * 2 ^ Z.pos q.
Proof.
  induction q as [|q IH] using Pos.peano_ind; [cbn; lia|].
  rewrite Pos.iter_succ, Pos2Z.inj_xO, IH, Pos2Z.inj_succ, Z.pow_succ_r by lia. lia.
Qed.

Lemma align_val m e e' : e' <= e -> Z.pos (fst (shl_align m e e')) = Z.pos m * 2 ^ (e - e').
Proof.
  intros He. unfold shl_align. destruct (e' - e) as [|q|q] eqn:Eq; cbn [fst].
  - replace (e - e') with 0 by lia. lia.
  - lia.
  - rewrite iter_xO. do 2 f_equal. lia.
Qed.

(** Rounding an integer times a power of two. *)
Lemma normalize_upto m e B g :
  0 <= m -> -1500 <= e -> rep B g -> m * pw e <= B * pw g -> upto (binary_normalize 53 1024 m e false) B g.
Proof.
  intros Hm He Hr Hv. destruct m as [|p|p]; [done| |lia]. unfold binary_normalize, binary_round.
  set (f := fexp 53 1024 (Z.pos (digits2_pos p) + e)).
  assert (Hf : -1074 <= f) by (unfold f, fexp, emin; lia).
  destruct (Z.le_gt_cases e f) as [Hle|Hgt].
  - unfold shl_align. destruct (f - e) as [|q|q] eqn:Eq; [| |lia].
    all: apply round_upto; [lia|lia|done|]; cbn [inexact Z.b2z]; lia.
  - pose proof (align_val p e f ltac:(lia)) as Ea. unfold shl_align in *.
    destruct (f - e) as [|q|q] eqn:Eq; [lia..|]. cbn [fst] in Ea.
    apply round_upto; [lia|lia|done|]. cbn [inexact Z.b2z].
    rewrite Z.add_0_r, Ea, <- Z.mul_assoc, (Z.mul_comm (2 ^ _)), <- (pw_split f e) by lia. exact Hv.
Qed.

Lemma upto_of n : 0 <= n < 2 ^ 53 -> upto (f_of n) n 0.
Proof. intros Hn. apply normalize_upto; [lia|lia|split; lia|lia]. Qed.

Lemma digits2_iter p q : digits2_pos (Pos.iter xO p q) = (digits2_pos p + q)%positive.
Proof.
  induction q as [|q IH] using Pos.peano_ind; [cbn; lia|]. rewrite Pos.iter_succ. cbn [digits2_pos]. lia.
Qed.

(** Already in the format: rounding is the identity. *)
Lemma round_exact s m e :
  fexp 53 1024 (Z.pos (digits2_pos m) + e) = e -> e <= 971 ->
  binary_round_aux 53 1024 s (Z.pos m) e loc_Exact = S754_finite s m e.
Proof.
  intros Hf He. unfold binary_round_aux, shr_fexp. cbn [Zdigits2]. rewrite Hf, Z.sub_diag.
  cbn [shr shr_record_of_loc loc_of_shr_record round_nearest_even shr_m]. cbn [Zdigits2].
  rewrite Hf, Z.sub_diag. cbn [shr shr_m]. change (1024 - 53) with 971.
  destruct (Z.leb_spec e 971); [done|lia].
Qed.

Lemma f_of_exact n : 0 < n < 2 ^ 53 ->
  exists m e, f_of n = S754_finite false m e /\ -52 <= e <= 0 /\ Z.pos m * pw e = n * pw 0.
Proof.
  intros Hn. destruct n as [|p|p]; [lia| |lia]. unfold f_of, binary_normalize, binary_round.
  destruct (digits2_bound p) as [_ Hd]. set (d := digits2_pos p) in *.
  assert (Hd53 : Z.pos d <= 53).
  { assert (Hlt : 2 ^ (Z.pos d - 1) < 2 ^ 53) by lia. apply Z.pow_lt_mono_r_iff in Hlt; lia. }
  assert (Hf : fexp 53 1024 (Z.pos d + 0) = Z.pos d - 53) by (unfold fexp, emin; lia).
  rewrite Hf. pose proof (align_val p 0 (Z.pos d - 53) ltac:(lia)) as Ea.
  unfold shl_align in *. destruct (Z.pos d - 53 - 0) as [|q|q] eqn:Eq; [|lia|].
  - rewrite round_exact; [|fold d; rewrite Hf; lia|lia]. exists p, 0. split; [done|]. lia.
  - cbn [fst] in Ea. rewrite round_exact; [| |lia].
    + eexists _, _. split; [reflexivity|]. split; [lia|]. rewrite Ea.
      rewrite (pw_split (Z.pos d - 53) 0) by lia. lia.
    + rewrite digits2_iter. fold d. unfold fexp, emin. lia.
Qed.

Lemma mul_upto x y Bx gx By gy B g :
  upto x Bx gx -> upto y By gy -> rep B g -> 0 <= Bx -> 0 <= By -> -1074 <= gx -> -1074 <= gy ->
  Bx * By * pw (gx + gy) <= B * pw g -> upto (fmul x y) B g.
Proof.
  intros Hx Hy Hrep HBx HBy Hgx Hgy Hle. unfold fmul.
  destruct x as [sx| | |[] mx ex]; try done; destruct y as [sy| | |[] my ey]; try done.
  cbn [upto] in Hx, Hy. destruct Hx as [Ex Hx], Hy as [Ey Hy]. cbn [SFmul xorb].
  destruct (Z.le_gt_cases (-1500) gx) as [?|?]; [|lia].
  apply round_upto; [lia|lia|done|]. cbn [inexact Z.b2z]. rewrite Z.add_0_r, Pos2Z.inj_mul.
  assert (H1 : Z.pos mx * Z.pos my * (pw ex * pw ey) <= Bx * By * (pw gx * pw gy)).
  { assert (0 < pw ex) by (apply pw_pos; lia). assert (0 < pw ey) by (apply pw_pos; lia).
    assert (0 < pw gx) by (apply pw_pos; lia). assert (0 < pw gy) by (apply pw_pos; lia).
    replace (Z.pos mx * Z.pos my * (pw ex * pw ey)) with ((Z.pos mx * pw ex) * (Z.pos my * pw ey)) by ring.
    replace (Bx * By * (pw gx * pw gy)) with ((Bx * pw gx) * (By * pw gy)) by ring.
    apply Z.mul_le_mono_nonneg; nia. }
  assert (H0 : 0 < pw 0) by (apply pw_pos; lia).
  assert (E1 : pw ex * pw ey = pw (ex + ey) * pw 0) by (apply pw_mul; lia).
  assert (E2 : pw gx * pw gy = pw (gx + gy) * pw 0) by (apply pw_mul; lia).
  rewrite E1, E2 in H1. nia.
Qed.

Lemma add_upto x y Bx By B g :
  upto x Bx g -> upto y By g -> rep B g -> 0 <= Bx -> 0 <= By -> Bx + By <= B -> upto (fadd x y) B g.
Proof.
  intros Hx Hy Hrep HBx HBy Hle. assert (Hg : 0 < pw g) by (destruct Hrep; apply pw_pos; lia).
  assert (Hwx : upto x B g) by (eapply upto_weaken; [exact Hx|nia]).
  assert (Hwy : upto y B g) by (eapply upto_weaken; [exact Hy|nia]). unfold fadd.
  destruct x as [sx| | |[] mx ex]; try done; destruct y as [sy| | |[] my ey]; try done; cbn [SFadd].
  { by destruct sx, sy. }
  cbn [upto] in *. destruct Hx as [Ex Hx], Hy as [Ey Hy]. set (ez := Z.min ex ey).
  cbn [cond_Zopp]. rewrite !align_val by lia. apply normalize_upto; [lia|lia|done|].
  rewrite (pw_split ez ex) in Hx by lia. rewrite (pw_split ez ey) in Hy by lia. nia.
Qed.

(** A quotient [x / y] below [B * 2^g] when [x <= B * 2^g * y]. *)
Lemma div_upto mx ex my ey B g :
  -1074 <= ex <= 971 -> -1074 <= ey <= 971 -> rep B g ->
  Z.pos mx * pw ex * pw 0 <= B * pw g * (Z.pos my * pw ey) ->
  upto (fdiv (S754_finite false mx ex) (S754_finite false my ey)) B g.
Proof.
  intros Hx Hy Hrep Hle. pose proof Hrep as [HB Hg]. unfold fdiv. cbn [SFdiv xorb].
  unfold SFdiv_core_binary. cbn [Zdigits2].
  set (d1 := Z.pos (digits2_pos mx)). set (d2 := Z.pos (digits2_pos my)).
  set (e' := Z.min (fexp 53 1024 (d1 + ex - (d2 + ey))) (ex - ey)).
  assert (He' : -2045 <= e' <= ex - ey) by (unfold e', fexp, emin; lia).
  set (s := ex - ey - e').
  assert (Em : match s with 0 => Z.pos mx | Z.pos _ => Z.shiftl (Z.pos mx) s | Z.neg _ => 0 end = Z.pos mx * 2 ^ s).
  { destruct s eqn:Es; [lia|rewrite Z.shiftl_mul_pow2 by lia; done|lia]. }
  rewrite Em. clear Em. pose proof (Z.div_eucl_eq (Z.pos mx * 2 ^ s) (Z.pos my) ltac:(lia)) as Hq.
  pose proof (Z.mod_pos_bound (Z.pos mx * 2 ^ s) (Z.pos my) ltac:(lia)) as Hr.
  unfold Z.modulo in Hr. destruct (Z.div_eucl _ _) as [q r].
  assert (Hq0 : 0 <= q) by (assert (0 <= Z.pos mx * 2 ^ s) by nia; nia).
  assert (Hi : inexact (new_location (Z.pos my) r) = negb (r =? 0)).
  { unfold new_location, new_location_even, new_location_odd. case_ifs; try done; by destruct (_ ?= _). }
  apply round_upto; [done|lia|done|]. rewrite Hi. clear Hi.
  assert (Hpy : 0 < pw ey) by (apply pw_pos; lia). assert (Hpe : 0 < pw e') by (apply pw_pos; lia).
  assert (H1 : Z.pos mx * 2 ^ s * pw e' <= B * pw g * Z.pos my).
  { assert (E1 : pw ex * pw 0 = pw (ex - ey) * pw ey).
    { unfold pw. rewrite <- !Z.pow_add_r by lia. f_equal. lia. }
    assert (E2 : pw (ex - ey) = pw e' * 2 ^ s) by (rewrite (pw_split e' (ex - ey)) by lia; done).
    apply (Z.mul_le_mono_pos_r _ _ (pw ey)); [done|].
    replace (Z.pos mx * 2 ^ s * pw e' * pw ey) with (Z.pos mx * (pw ex * pw 0)) by (rewrite E1, E2; ring). lia. }
  rewrite Hq in H1. destruct (r =? 0) eqn:Er; cbn [negb Z.b2z]; [nia|].
  assert (Hgrid : e' <= g).
  { destruct (digits2_bound mx) as [_ Hd1], (digits2_bound my) as [Hd2 _]. fold d1 in Hd1. fold d2 in Hd2.
    assert (Hlt : pw (d1 - 1 + ex) * pw 0 < pw (g + 53) * pw (d2 + ey)).
    { assert (A1 : pw (d1 - 1 + ex) <= Z.pos mx * pw ex).
      { replace (d1 - 1 + ex) with (ex + (d1 - 1)) by lia. rewrite pw_add by (unfold d1; lia).
        assert (0 < pw ex) by (apply pw_pos; lia). nia. }
      assert (A2 : Z.pos my * pw ey < pw (d2 + ey)).
      { replace (d2 + ey) with (ey + d2) by lia. rewrite pw_add by (unfold d2; lia). nia. }
      assert (A3 : B * pw g < pw (g + 53)) by (rewrite pw_add by lia; pose proof (pw_pos g); nia).
      assert (0 < pw 0) by (apply pw_pos; lia). assert (0 <= B * pw g) by (pose proof (pw_pos g); nia).
      assert (A4 : B * pw g * (Z.pos my * pw ey) < pw (g + 53) * pw (d2 + ey))
        by (apply Z.mul_lt_mono_nonneg; nia).
      nia. }
    unfold pw in Hlt. rewrite <- !Z.pow_add_r in Hlt by lia. apply Z.pow_lt_mono_r_iff in Hlt; [|lia..].
    unfold e', fexp, emin. lia. }
  rewrite (pw_split e' g) in H1 |- * by lia. generalize dependent (2 ^ (g - e')). intros w H1.
  assert (q < B * w); [|nia].
  assert (H2 : (Z.pos my * q + r) * pw e' <= B * w * Z.pos my * pw e') by lia.
  apply Z.mul_le_mono_pos_r in H2; [|done]. nia.
Qed.

(** *** Bounds that survive NaN, negative and infinite results *)

(** [x], if it is a number at all, is at most [B * 2^g]. *)
Definition atmost (x : f64) (B g : Z) : Prop :=
  match x with
  | S754_finite false m e => -1074 <= e /\ Zpos m * pw e <= B * pw g
  | S754_infinity false => False
  | _ => True
  end.

(** [x] is not a negative number. *)
Definition nonneg (x : f64) : Prop :=
  match x with S754_finite s _ _ | S754_infinity s => s = false | _ => True end.

(** A binary64 value: its exponent is in the format. *)
Definition f64_ok (x : f64) : Prop := match x with S754_finite _ _ e => -1074 <= e <= 971 | _ => True end.

Lemma upto_atmost x B g : upto x B g -> atmost x B g.
Proof. by destruct x as [| | |[]]. Qed.
Lemma upto_nonneg x B g : upto x B g -> nonneg x.
Proof. by destruct x as [| | |[]]. Qed.
Lemma atmost_weaken x B g B' g' : atmost x B g -> B * pw g <= B' * pw g' -> atmost x B' g'.
Proof. destruct x as [|[]| |[] m e]; cbn; try tauto. intros [? ?] ?. split; lia. Qed.

Lemma round_true_atmost m e l B g : atmost (binary_round_aux 53 1024 true m e l) B g.
Proof.
  unfold binary_round_aux. destruct (shr_fexp _ _ _ _ _) as [s e1]. destruct (shr_fexp _ _ _ _ _) as [s2 e2].
  by destruct (shr_m s2); [|destruct (_ <=? _)|].
Qed.
Lemma normalize_atmost m e B g :
  -1500 <= e -> rep B g -> m * pw e <= B * pw g -> atmost (binary_normalize 53 1024 m e false) B g.
Proof.
  intros He Hr Hv. destruct (Z.le_gt_cases 0 m); [by apply upto_atmost, normalize_upto|].
  destruct m; [lia..|]. cbn [binary_normalize]. unfold binary_round. destruct (shl_align _ _ _). apply round_true_atmost.
Qed.

(** A non-negative number times one that is at most a bound. *)
Lemma mul_atmost x y Bx gx By gy B g :
  upto x Bx gx -> atmost y By gy -> rep B g -> 0 <= Bx -> 0 <= By -> -1074 <= gx -> -1074 <= gy ->
  Bx * By * pw (gx + gy) <= B * pw g -> atmost (fmul x y) B g.
Proof.
  intros Hx Hy Hr HBx HBy Hgx Hgy Hle.
  destruct y as [sy|[]| |[] my ey]; try done; try (by apply upto_atmost; eapply mul_upto);
    destruct x as [sx| | |[] mx ex]; try done.
  unfold fmul. cbn [SFmul xorb]. apply round_true_atmost.
Qed.

(** Subtracting a non-negative number. *)
Lemma sub_atmost x y B g :
  upto x B g -> nonneg y -> f64_ok y -> rep B g -> atmost (fsub x y) B g.
Proof.
  intros Hx Hy Hoy Hr. unfold fsub.
  destruct x as [sx| | |[] mx ex]; try done; destruct y as [sy|[]| |[] my ey]; try done; cbn [SFsub].
  - by destruct sx, sy.
  - cbn in Hx, Hoy. destruct Hx as [Ex Hx]. cbn [cond_Zopp]. set (ez := Z.min ex ey).
    rewrite !align_val by lia. apply normalize_atmost; [lia|done|].
    rewrite (pw_split ez ex) in Hx by lia. assert (0 < pw ez) by (apply pw_pos; lia).
    assert (0 < 2 ^ (ey - ez)) by (apply Z.pow_pos_nonneg; lia). nia.
Qed.

(** Truncation to an integer. *)
Lemma f_to_atmost limit x n : 0 <= n -> atmost x n 0 -> f_to limit x <= Z.max 0 n.
Proof.
  intros Hn Hx. destruct x as [s|[]| |[] m e]; cbn in *; try lia. destruct Hx as [He Hx].
  assert (H : (if 0 <=? e then Z.shiftl (Z.pos m) e else Z.shiftr (Z.pos m) (- e)) <= n); [|lia].
  destruct (Z.leb_spec 0 e).
  - rewrite Z.shiftl_mul_pow2 by lia. rewrite (pw_split 0 e) in Hx by lia.
    assert (0 < pw 0) by (apply pw_pos; lia). replace (e - 0) with e in Hx by lia. nia.
  - rewrite Z.shiftr_div_pow2 by lia. rewrite (pw_split e 0) in Hx by lia.
    assert (0 < pw e) by (apply pw_pos; lia). replace (0 - e) with (- e) in Hx by lia.
    assert (0 < 2 ^ (- e)) by (apply Z.pow_pos_nonneg; lia).
    assert (Z.pos m <= n * 2 ^ (- e)) by nia.
    apply Z.div_le_upper_bound; [done|]. lia.
Qed.

(** [clamp_f64]: plain comparisons, a NaN passes through. *)
Definition clamp_f64 (x lo hi : f64) : f64 := if flt x lo then lo else if fgt x hi then hi else x.

Lemma flt_atmost x m e :
  f64_ok x -> -1074 <= e -> flt (S754_finite false m e) x = false -> atmost x (Z.pos m) e.
Proof.
  intros Hx He. unfold flt. destruct x as [s|[]| |[] mx ex]; cbn; try done. intros Hc. cbn in Hx. split; [lia|].
  set (z := Z.min e ex) in *. rewrite !Z.shiftl_mul_pow2 in Hc by lia.
  rewrite (pw_split z e), (pw_split z ex) by lia. assert (0 < pw z) by (apply pw_pos; lia).
  destruct (Z.compare_spec (Z.pos m * 2 ^ (e - z)) (Z.pos mx * 2 ^ (ex - z))); [nia|done|nia].
Qed.

Lemma flt_nonneg x s : f64_ok x -> flt x (S754_zero s) = false -> nonneg x.
Proof. unfold flt. destruct x as [|[]| |[]]; cbn; done. Qed.

Lemma flt_le_nonneg x m e : flt x (S754_finite false m e) = false -> nonneg x.
Proof.
  unfold flt. destruct x as [|[]| |[] mx ex]; cbn; try done.
  rewrite !Z.shiftl_mul_pow2 by lia.
  assert (0 < 2 ^ (ex - Z.min ex e)) by (apply Z.pow_pos_nonneg; lia).
  assert (0 < 2 ^ (e - Z.min ex e)) by (apply Z.pow_pos_nonneg; lia).
  set (u := 2 ^ (ex - Z.min ex e)) in *. set (v := 2 ^ (e - Z.min ex e)) in *.
  destruct (Z.compare_spec (- (Z.pos mx * u)) (Z.pos m * v)); [nia|done|nia].
Qed.

Lemma atmost_nonneg_upto x B g : atmost x B g -> nonneg x -> is_nan x = false -> upto x B g.
Proof. by destruct x as [|[]| |[]]. Qed.

(** Clamping into [lo, hi]. *)
Lemma clamp_atmost x lo m e :
  f64_ok x -> -1074 <= e -> atmost lo (Z.pos m) e -> atmost (clamp_f64 x lo (S754_finite false m e)) (Z.pos m) e.
Proof.
  intros Hx He Hl. unfold clamp_f64. destruct (flt x lo); [done|]. unfold fgt.
  destruct (flt (S754_finite false m e) x) eqn:E; [by split|]. by apply flt_atmost.
Qed.

(** Clamping from below at zero, whatever the upper bound. *)
Lemma clamp_zero_nonneg x hi : f64_ok x -> nonneg hi -> nonneg (clamp_f64 x f_zero hi).
Proof.
  intros Hx Hh. unfold clamp_f64. destruct (flt x f_zero) eqn:E; [done|]. apply flt_nonneg in E; [|done].
  by destruct (fgt x hi).
Qed.

Lemma clamp_pos_nonneg x m e hi : nonneg hi -> nonneg (clamp_f64 x (S754_finite false m e) hi).
Proof.
  intros Hh. unfold clamp_f64. destruct (flt x _) eqn:E; [done|]. apply flt_le_nonneg in E. by destruct (fgt x hi).
Qed.

Lemma clamp_ok x lo hi : f64_ok x -> f64_ok lo -> f64_ok hi -> f64_ok (clamp_f64 x lo hi).
Proof. unfold clamp_f64. by case_ifs. Qed.

(** Every operation yields a binary64 value. *)
Lemma round_ok s m e l : 0 <= m -> f64_ok (binary_round_aux 53 1024 s m e l).
Proof.
  intros Hm. unfold binary_round_aux. destruct (shr_fexp 53 1024 m e l) as [s1 e1] eqn:E1.
  destruct (shr_fexp_ok _ _ _ _ _ Hm E1) as (k & Hk & -> & (Hsm & Hs0 & _) & _).
  set (m2 := round_nearest_even _ _).
  assert (H2 : 0 <= m2) by (destruct (round_even_cases (shr_m s1) (loc_of_shr_record s1)) as [E|[E _]]; unfold m2; lia).
  destruct (shr_fexp 53 1024 m2 (e + k) loc_Exact) as [s2 e2] eqn:E2.
  destruct (shr_fexp_ok _ _ _ _ _ H2 E2) as (k2 & _ & -> & _ & He & _).
  destruct (shr_m s2); try done. change (1024 - 53) with 971.
  destruct (Z.leb_spec (e + k + k2) 971); cbn; [lia|done].
Qed.
Lemma binary_round_ok s m e : f64_ok (binary_round 53 1024 s m e).
Proof. unfold binary_round. destruct (shl_align _ _ _). apply round_ok. lia. Qed.
Lemma normalize_ok m e b : f64_ok (binary_normalize 53 1024 m e b).
Proof. destruct m; cbn; try done; apply binary_round_ok. Qed.
Lemma f_of_ok n : f64_ok (f_of n).
Proof. apply normalize_ok. Qed.
Lemma fadd_ok x y : f64_ok x -> f64_ok y -> f64_ok (fadd x y).
Proof.
  unfold fadd. destruct x as [[]|[]| |sx mx ex], y as [[]|[]| |sy my ey]; cbn [SFadd]; try done.
  intros. apply normalize_ok.
Qed.
Lemma fsub_ok x y : f64_ok x -> f64_ok y -> f64_ok (fsub x y).
Proof.
  unfold fsub. destruct x as [[]|[]| |sx mx ex], y as [[]|[]| |sy my ey]; cbn [SFsub]; try done.
  intros. apply normalize_ok.
Qed.
Lemma fmul_ok x y : f64_ok (fmul x y).
Proof. unfold fmul. destruct x, y; cbn [SFmul]; try done. apply round_ok. lia. Qed.
Lemma fdiv_ok x y : f64_ok (fdiv x y).
Proof.
  unfold fdiv. destruct x as [| | |sx mx ex], y as [| | |sy my ey]; cbn [SFdiv]; try done.
  destruct (SFdiv_core_binary _ _ _ _ _ _) as [[q e] l] eqn:E. apply round_ok.
  unfold SFdiv_core_binary in E.
  match type of E with (let '(_, _) := Z.div_eucl ?n ?d in _) = _ =>
    assert (Hn : 0 <= n); [|pose proof (Z.div_pos n d Hn ltac:(lia)) as Hq; unfold Z.div in Hq;
      destruct (Z.div_eucl n d) as [q' r]; injection E as <- _ _; exact Hq] end.
  destruct (_ - _ - _); try lia. by apply Z.shiftl_nonneg.
Qed.

(** *** Casts of exact and of large values *)

Lemma upto_not_nan x B g : upto x B g -> is_nan x = false.
Proof. by destruct x as [| | |[]]. Qed.

Lemma finite_shift_lower n m e :
  0 <= n -> -1074 <= e -> n * pw 0 <= Z.pos m * pw e ->
  n <= if 0 <=? e then Z.shiftl (Z.pos m) e else Z.shiftr (Z.pos m) (- e).
Proof.
  intros Hn He H. destruct (0 <=? e) eqn:E.
  - rewrite Z.shiftl_mul_pow2 by lia. rewrite (pw_split 0 e) in H by lia.
    replace (e - 0) with e in H by lia. assert (0 < pw 0) by (apply pw_pos; lia). nia.
  - rewrite Z.shiftr_div_pow2 by lia. apply Z.div_le_lower_bound; [apply Z.pow_pos_nonneg; lia|].
    rewrite (pw_split e 0) in H by lia. replace (0 - e) with (- e) in H by lia.
    assert (0 < pw e) by (apply pw_pos; lia). nia.
Qed.

Lemma f_to_of limit n : 0 <= n <= limit -> n < 2 ^ 53 -> f_to limit (f_of n) = n.
Proof.
  intros Hn Hb. destruct (Z.eq_dec n 0) as [->|Hne]; [cbn; lia|].
  pose proof (f_to_atmost limit (f_of n) n ltac:(lia) (upto_atmost _ _ _ (upto_of n ltac:(lia)))) as Hle.
  destruct (f_of_exact n) as (m & e & Ef & He & Hv); [lia|]. rewrite Ef in *. unfold f_to in *.
  pose proof (finite_shift_lower n m e ltac:(lia) ltac:(lia) ltac:(lia)). lia.
Qed.

(** A number that is not below [n] casts to at least [n]. *)
Lemma f_to_lower limit x n :
  0 <= n <= limit -> n < 2 ^ 53 -> f64_ok x -> is_nan x = false -> flt x (f_of n) = false -> n <= f_to limit x.
Proof.
  intros Hn Hb Hx Hnan Hlt. destruct (Z.eq_dec n 0) as [->|Hne]; [apply f_to_range; lia|].
  destruct (f_of_exact n) as (m & e & Ef & He & Hv); [lia|]. rewrite Ef in Hlt.
  unfold flt in Hlt. destruct x as [s|[]| |sx mx ex]; try discriminate; [cbn; lia|]. cbn [f64_ok] in Hx.
  cbn [fcompare] in Hlt. set (z := Z.min ex e) in *. rewrite !Z.shiftl_mul_pow2 in Hlt by lia.
  assert (0 < 2 ^ (ex - z) /\ 0 < 2 ^ (e - z)) as [Hp1 Hp2] by (split; apply Z.pow_pos_nonneg; lia).
  destruct sx; cbn [cond_Zopp] in Hlt.
  { rewrite (proj2 (Z.compare_lt_iff _ _)) in Hlt by nia. discriminate. }
  unfold f_to.
  pose proof (finite_shift_lower n mx ex ltac:(lia) ltac:(lia)) as Hs.
  match type of Hs with _ -> ?g => assert g; [apply Hs|lia] end. rewrite <- Hv.
  rewrite (pw_split z e), (pw_split z ex) by lia. assert (0 < pw z) by (apply pw_pos; lia).
  destruct (Z.compare_spec (Z.pos mx * 2 ^ (ex - z)) (Z.pos m * 2 ^ (e - z))) as [Hc|Hc|Hc]; try discriminate; nia.
Qed.

(** Clamping between two integers and truncating lands between them. *)
Lemma clamp_cast_between limit x lo hi :
  f64_ok x -> is_nan x = false -> 0 <= lo <= hi -> 0 < hi <= limit -> hi < 2 ^ 53 ->
  lo <= f_to limit (clamp_f64 x (f_of lo) (f_of hi)) <= hi.
Proof.
  intros Hx Hnan Hlo Hhi Hb. unfold clamp_f64. destruct (flt x (f_of lo)) eqn:E1.
  { rewrite f_to_of by lia. lia. }
  destruct (fgt x (f_of hi)) eqn:E2; [rewrite f_to_of by lia; lia|].
  split; [by apply f_to_lower; try lia|].
  destruct (f_of_exact hi) as (m & e & Ef & He & Hv); [lia|]. unfold fgt in E2. rewrite Ef in E2.
  pose proof (flt_atmost x m e Hx ltac:(lia) E2) as Ha.
  pose proof (f_to_atmost limit x hi ltac:(lia) (atmost_weaken _ _ _ hi 0 Ha ltac:(lia))). lia.
Qed.
