(* ===== verification/Controllers.v ===== *)
(** The ECN-reacting controllers of [tcp-core/src/congestion.rs]: DCTCP, TCP
    Prague and the learned genome.  They share the additive-increase loop, the
    marked-fraction estimate and the observation window. *)

From Stdlib Require Import SpecFloat.
From S2P Require Import Prelude Seq Time F64 Congestion.

(** *** Shared pieces *)

Definition f_one : f64 := f_of 1.
Definition f_two : f64 := f_of 2.
Definition DCTCP_G : f64 := lit 1 16.
#[global] Arguments f_one : simpl never.

(** [alpha] after a window in which [marked] of [acked] bytes were marked. *)
Definition ewma (alpha : f64) (marked acked : Z) : f64 :=
  let fraction := fdiv (f_of marked) (f_of acked) in
  fadd (fmul (fsub f_one DCTCP_G) alpha) (fmul DCTCP_G fraction).

(** DCTCP's cut: [cwnd * (1 - alpha / 2)], truncated. *)
Definition alpha_cut (cwnd : Z) (alpha : f64) : Z :=
  f_to_u32 (fmul (f_of cwnd) (fsub f_one (fdiv alpha f_two))).

(** The additive-increase [while]: accumulator and window. *)
Fixpoint increase_loop (fuel : nat) (step acc cwnd : Z) : option (Z * Z) :=
  if cwnd <=? acc then
    match fuel with
    | O => None
    | S fuel => increase_loop fuel step (acc - cwnd) (sat_add32 cwnd step)
    end
  else Some (acc, cwnd).

(** Whole windows in the accumulator, plus one. *)
Definition increase_fuel (acc cwnd : Z) : nat := S (Z.to_nat (acc / Z.max 1 cwnd)).
#[global] Arguments increase_fuel : simpl never.

Lemma increase_loop_ok fuel : forall step acc cwnd,
  0 <= step -> 0 < cwnd <= U32_MAX -> 0 <= acc <= U32_MAX -> (Z.to_nat (acc / cwnd) < fuel)%nat ->
  exists acc' cwnd', increase_loop fuel step acc cwnd = Some (acc', cwnd') /\
    cwnd <= cwnd' <= U32_MAX /\ 0 <= acc' <= U32_MAX /\ acc' < cwnd' /\
    (step <= cwnd -> cwnd' + acc' <= cwnd + acc).
Proof.
  induction fuel as [|fuel IH]; intros step acc cwnd Hst Hc Ha Hf; [lia|]. cbn [increase_loop].
  destruct (cwnd <=? acc) eqn:E; [|exists acc, cwnd; split_and!; lia || done].
  assert (Hw : cwnd <= sat_add32 cwnd step <= U32_MAX) by (unfold sat_add32; lia).
  destruct (IH step (acc - cwnd) (sat_add32 cwnd step)) as (a' & c' & El & H1 & H2 & H3 & H4); try lia.
  { assert (Hdec : (acc - cwnd) / sat_add32 cwnd step < acc / cwnd).
    { apply Z.div_lt_upper_bound; [lia|].
      pose proof (Z.div_mod acc cwnd ltac:(lia)). pose proof (Z.mod_pos_bound acc cwnd ltac:(lia)).
      assert (1 <= acc / cwnd) by (apply Z.div_le_lower_bound; lia). nia. }
    assert (0 <= (acc - cwnd) / sat_add32 cwnd step) by (apply Z.div_pos; lia). lia. }
  exists a', c'. split; [done|]. split_and!; try lia. intros Hs. specialize (H4 ltac:(lia)).
  unfold sat_add32 in *. lia.
Qed.

(** The estimate stays in [0, 1]. *)
Lemma rep_one : rep 1 0.
Proof. split; lia. Qed.
Lemma upto_one : upto f_one 1 0.
Proof. apply upto_of. lia. Qed.

Lemma ewma_upto alpha marked acked :
  upto alpha 1 0 -> 0 <= marked <= acked -> 0 < acked <= U32_MAX -> upto (ewma alpha marked acked) 1 0.
Proof.
  intros Ha Hm Hacked. unfold ewma. cbv zeta.
  assert (Hf : upto (fdiv (f_of marked) (f_of acked)) 1 0).
  { destruct (f_of_exact acked) as (ma & ea & -> & Hea & Hva); [lia|].
    destruct (Z.eq_dec marked 0) as [->|Hne]; [done|].
    destruct (f_of_exact marked) as (mm & em & -> & Hem & Hvm); [lia|].
    apply div_upto; [lia|lia|exact rep_one|]. rewrite Hvm, Hva. assert (0 < pw 0) by (apply pw_pos; lia). nia. }
  assert (H1 : upto (fsub f_one DCTCP_G) 15 (-4)) by (vm_compute; split; discriminate).
  assert (H2 : upto DCTCP_G 1 (-4)) by (vm_compute; split; discriminate).
  assert (Hr : rep 16 (-4)) by (split; lia).
  eapply (upto_weaken _ 16 (-4)); [|rewrite (pw_split (-4) 0) by lia; change (2 ^ (0 - -4)) with 16; lia].
  apply (add_upto _ _ 15 1); try lia; [| |exact Hr].
  - apply (mul_upto _ _ 15 (-4) 1 0); try lia; [exact H1|exact Ha|split; lia|change (-4 + 0) with (-4); lia].
  - apply (mul_upto _ _ 1 (-4) 1 0); try lia; [exact H2|exact Hf|split; lia|change (-4 + 0) with (-4); lia].
Qed.

(** A number at most 1 times an integer truncates to at most that integer. *)
Lemma scaled_le n y : 0 <= n <= U32_MAX -> atmost y 1 0 -> f_to_u32 (fmul (f_of n) y) <= n.
Proof.
  intros Hn Hy. assert (H : atmost (fmul (f_of n) y) n 0).
  { apply (mul_atmost _ _ n 0 1 0); try lia; [apply upto_of; lia|done|split; lia|change (0 + 0) with 0; lia]. }
  pose proof (f_to_atmost U32_MAX _ n ltac:(lia) H). unfold f_to_u32. lia.
Qed.

Lemma alpha_cut_le n alpha : 0 <= n <= U32_MAX -> upto alpha 1 0 -> 0 <= alpha_cut n alpha <= n.
Proof.
  intros Hn Ha. split; [apply f_to_range; lia|]. apply scaled_le; [done|].
  apply sub_atmost; [exact upto_one| |apply fdiv_ok|exact rep_one].
  apply (upto_nonneg _ 1 0). unfold f_two. destruct (f_of_exact 2) as (m & e & -> & He & Hv); [lia|].
  destruct alpha as [s| | |[] ma ea]; try done. destruct Ha as [Hea Ha].
  assert (0 < pw 0) by (apply pw_pos; lia).
  assert (Hea2 : ea <= 971).
  { destruct (Z.le_gt_cases ea 971); [done|]. rewrite (pw_split 0 ea) in Ha by lia.
    assert (Hw : 2 ^ 1 <= 2 ^ (ea - 0)) by (apply Z.pow_le_mono_r; lia). change (2 ^ 1) with 2 in Hw.
    generalize dependent (2 ^ (ea - 0)). intros w Hle Hw. assert (pw 0 * 2 <= pw 0 * w) by nia.
    assert (1 * (pw 0 * w) <= Z.pos ma * (pw 0 * w)) by (apply Z.mul_le_mono_nonneg_r; lia). lia. }
  apply div_upto; [lia|lia|exact rep_one|]. rewrite Hv.
  assert (0 < pw ea) by (apply pw_pos; lia). nia.
Qed.

(** *** What the three controllers share as an invariant *)

(** The window in its bounds, the credit and the observation window in theirs,
    the estimate in [0, 1]. *)
Record window_ok (m cwnd ssthresh mss ca_acc dup_acks : Z) (alpha : f64) (acked marked : Z) : Prop := {
  wk_mss : mss = m /\ 0 < m <= U16_MAX;
  wk_cwnd : m <= cwnd <= U32_MAX;
  wk_ssthresh : 0 <= ssthresh <= U32_MAX;
  wk_acc : 0 <= ca_acc <= U32_MAX;
  wk_dups : 0 <= dup_acks <= U8_MAX;
  wk_alpha : upto alpha 1 0;
  wk_observed : 0 <= marked <= acked /\ acked <= U32_MAX;
}.

(** Additive increase in congestion avoidance, from a good state. *)
Lemma grow_ok m cwnd ssthresh ca_acc dups alpha acked marked step n :
  window_ok m cwnd ssthresh m ca_acc dups alpha acked marked -> is_u32 n -> 0 <= step ->
  exists acc' cwnd',
    increase_loop (increase_fuel (sat_add32 ca_acc n) cwnd) step (sat_add32 ca_acc n) cwnd = Some (acc', cwnd') /\
    cwnd <= cwnd' /\ window_ok m cwnd' ssthresh m acc' 0 alpha acked marked /\
    (step <= cwnd -> cwnd' + acc' <= cwnd + ca_acc + n).
Proof.
  intros [[_ Hm] Hc Hs Ha Hd Hal Ho] Hn Hst. unfold is_u32 in Hn.
  destruct (increase_loop_ok (increase_fuel (sat_add32 ca_acc n) cwnd) step (sat_add32 ca_acc n) cwnd)
    as (acc' & cwnd' & El & H1 & H2 & H3 & H4); unfold sat_add32 in *; try lia.
  { unfold increase_fuel. rewrite Z.max_r by lia. lia. }
  exists acc', cwnd'. split; [exact El|]. split; [lia|]. split; [split; done || lia|lia].
Qed.

(** The observation window after an acknowledgement of [n] bytes, [k] marked. *)
Lemma observe_ok m cwnd ssthresh ca_acc dups alpha acked marked n k :
  window_ok m cwnd ssthresh m ca_acc dups alpha acked marked -> is_u32 n -> is_u32 k ->
  let a := sat_add32 acked n in let k := sat_add32 marked (Z.min k n) in
  window_ok m cwnd ssthresh m ca_acc dups alpha a k /\ (n <> 0 -> 0 < a) /\
  (n <> 0 -> upto (ewma alpha k a) 1 0).
Proof.
  intros [[_ Hm] Hc Hs Ha Hd Hal [Ho1 Ho2]] Hn Hk a k'. unfold is_u32 in *.
  assert (Hb : 0 <= k' <= a /\ a <= U32_MAX /\ (n <> 0 -> 0 < a)) by (subst a k'; unfold sat_add32; lia).
  clearbody a k'. destruct Hb as (Hb1 & Hb2 & Hb3).
  split; [split; done || lia|]. split; [done|]. intros Hz. specialize (Hb3 Hz).
  apply ewma_upto; [exact Hal|exact Hb1|lia].
Qed.

(** The window closed, with a cut and without. *)
Lemma cut_ok m cwnd ssthresh ca_acc dups alpha acked marked alpha' reduced :
  window_ok m cwnd ssthresh m ca_acc dups alpha acked marked -> upto alpha' 1 0 -> 0 <= reduced <= cwnd ->
  let c := Z.max reduced m in window_ok m c c m 0 dups alpha' 0 0 /\ c <= cwnd.
Proof. intros [[_ Hm] Hc Hs Ha Hd _ _] Hal Hr c. unfold c. split; [split; done || lia|lia]. Qed.
Lemma window_closed_ok m cwnd ssthresh ca_acc dups alpha acked marked alpha' :
  window_ok m cwnd ssthresh m ca_acc dups alpha acked marked -> upto alpha' 1 0 ->
  window_ok m cwnd ssthresh m ca_acc dups alpha' 0 0.
Proof. intros [[_ Hm] Hc Hs Ha Hd _ _] Hal. split; done || lia. Qed.

(** Reno's loss response. *)
Definition halve (flight_size mss : Z) : Z := Z.max (flight_size / 2) (2 * mss).

Lemma halve_ok flight m :
  is_u32 flight -> 0 < m <= U16_MAX -> 2 * m <= halve flight m <= Z.max flight (2 * m).
Proof. unfold is_u32, halve. intros. split; [lia|]. apply Z.max_le_compat_r. apply Z.div_le_upper_bound; lia. Qed.

(** A window invariant after a field changed within its bounds. *)
Ltac window_ok_tac := split; cbn in *; try done; unfold sat_add32, is_u32 in *; try lia.

(** *** DCTCP *)
Module Dctcp.

Record Dctcp := mkDctcp {
  cwnd : Z; ssthresh : Z; mss : Z; ca_acc : Z; dup_acks : Z; alpha : f64;
  acked_in_window : Z; marked_in_window : Z; window_bytes : Z }.
#[export] Instance Dctcp_settable : Settable Dctcp :=
  fun d => mkDctcp (cwnd d) (ssthresh d) (mss d) (ca_acc d) (dup_acks d) (alpha d)
    (acked_in_window d) (marked_in_window d) (window_bytes d).

Definition new (m : Z) : Dctcp :=
  mkDctcp (initial_window m) U32_MAX m 0 0 f_one 0 0 (initial_window m).

Definition in_slow_start (self : Dctcp) : bool := cwnd self <? ssthresh self.

Definition on_ack (self : Dctcp) (_ : Instant) (acked : Z) : option Dctcp :=
  let self := self <| dup_acks := 0 |> in
  if acked =? 0 then Some self
  else if in_slow_start self then
    Some (self <| cwnd := sat_add32 (cwnd self) (Z.min acked (mss self)) |>)
  else
    let self := self <| ca_acc := sat_add32 (ca_acc self) acked |> in
    let? (acc, w) := increase_loop (increase_fuel (ca_acc self) (cwnd self)) (mss self) (ca_acc self) (cwnd self) in
    Some (self <| ca_acc := acc |> <| cwnd := w |>).

Definition on_dup_ack (self : Dctcp) (_ : Instant) (flight_size : Z) : option (Dctcp * bool) :=
  let self := self <| dup_acks := Z.min (dup_acks self + 1) U8_MAX |> in
  if dup_acks self =? 3 then
    let self := self <| ssthresh := halve flight_size (mss self) |> in
    let self := self <| cwnd := ssthresh self |> in
    Some (self <| ca_acc := 0 |>, true)
  else Some (self, false).

Definition enter_recovery (self : Dctcp) (_ : Instant) (flight_size : Z) : option Dctcp :=
  let self := self <| ssthresh := halve flight_size (mss self) |> in
  let self := self <| cwnd := ssthresh self |> in
  Some (self <| ca_acc := 0 |> <| dup_acks := 0 |>).

Definition on_rto (self : Dctcp) (_ : Instant) (flight_size : Z) : option Dctcp :=
  let self := self <| ssthresh := halve flight_size (mss self) |> in
  Some (self <| cwnd := mss self |> <| ca_acc := 0 |>).

Definition set_mss (self : Dctcp) (m : Z) : option Dctcp :=
  let self := self <| mss := m |> in
  Some (self <| cwnd := Z.max (cwnd self) (mss self) |> <| ca_acc := 0 |>).

Definition on_ecn (self : Dctcp) (_ : Instant) (acked marked : Z) : option Dctcp :=
  if acked =? 0 then Some self else
  let self := self <| acked_in_window := sat_add32 (acked_in_window self) acked |> in
  let self := self <| marked_in_window := sat_add32 (marked_in_window self) (Z.min marked acked) |> in
  if acked_in_window self <? window_bytes self then Some self else
  let self := self <| alpha := ewma (alpha self) (marked_in_window self) (acked_in_window self) |> in
  let cwnd_before := cwnd self in
  let self :=
    if 0 <? marked_in_window self then
      let self := self <| cwnd := Z.max (alpha_cut (cwnd self) (alpha self)) (mss self) |> in
      self <| ssthresh := cwnd self |> <| ca_acc := 0 |>
    else self in
  Some (self <| acked_in_window := 0 |> <| marked_in_window := 0 |>
             <| window_bytes := Z.max cwnd_before (mss self) |>).

#[export] Instance Dctcp_control : CongestionControl Dctcp := {
  cc_cwnd := cwnd;
  cc_ssthresh := ssthresh;
  cc_on_ack := on_ack;
  cc_on_dup_ack := on_dup_ack;
  cc_enter_recovery := enter_recovery;
  cc_on_rto := on_rto;
  cc_set_mss := set_mss;
  cc_pacing_rate := default_pacing_rate;
  cc_on_transmit := default_on_transmit;
  cc_on_ack_sample := default_on_ack_sample;
  cc_on_ecn := on_ecn;
  cc_on_rtt_sample := default_on_rtt_sample;
}.

Definition ok (m : Z) (self : Dctcp) : Prop :=
  window_ok m (cwnd self) (ssthresh self) (mss self) (ca_acc self) (dup_acks self) (alpha self)
    (acked_in_window self) (marked_in_window self).

Lemma dctcp_new_ok m : 0 < m <= U16_MAX -> ok m (new m).
Proof. unfold new, initial_window. intros. split; cbn; try lia. exact upto_one. Qed.

Lemma dctcp_on_ack_spec m self now acked :
  ok m self -> is_u32 acked ->
  exists self', on_ack self now acked = Some self' /\ ok m self' /\ cwnd self <= cwnd self' /\
    cwnd self' + ca_acc self' <= cwnd self + ca_acc self + acked.
Proof.
  intros Hok Ha. destruct (wk_mss _ _ _ _ _ _ _ _ _ Hok) as [Em Hm]. unfold on_ack.
  destruct (acked =? 0) eqn:E0.
  { eexists. split; [done|]. destruct Hok. split; [window_ok_tac|]. cbn. lia. }
  change (in_slow_start (self <| dup_acks := 0 |>)) with (in_slow_start self).
  destruct (in_slow_start self) eqn:Ess.
  { eexists. split; [done|]. destruct Hok. unfold is_u32 in Ha. split; [window_ok_tac|]. cbn. unfold sat_add32. lia. }
  unfold ok in Hok. rewrite Em in Hok. cbn. rewrite Em.
  destruct (grow_ok _ _ _ _ _ _ _ _ m acked Hok Ha ltac:(lia)) as (a & w & -> & Hw & Hok' & Hpaid).
  eexists. split; [done|]. pose proof (wk_cwnd _ _ _ _ _ _ _ _ _ Hok).
  split; [unfold ok; cbn; rewrite Em; exact Hok'|]. cbn. lia.
Qed.

Lemma dctcp_on_ecn_spec m self now acked marked :
  ok m self -> is_u32 acked -> is_u32 marked ->
  exists self', on_ecn self now acked marked = Some self' /\ ok m self' /\ cwnd self' <= cwnd self.
Proof.
  intros Hok Ha Hk. destruct (wk_mss _ _ _ _ _ _ _ _ _ Hok) as [Em Hm]. unfold on_ecn.
  destruct (acked =? 0) eqn:E0; [by exists self; split_and!; try done; lia|].
  unfold ok in Hok. rewrite Em in Hok.
  destruct (observe_ok _ _ _ _ _ _ _ _ acked marked Hok Ha Hk) as (Hok1 & Hpos & Hal).
  specialize (Hal ltac:(lia)). cbn. case_ifs.
  1: { eexists. split; [done|]. unfold ok. cbn. rewrite Em. split; [exact Hok1|lia]. }
  all: pose proof (wk_cwnd _ _ _ _ _ _ _ _ _ Hok); eexists; (split; [done|]); unfold ok; cbn; rewrite ?Em.
  - eapply cut_ok; [exact Hok1|exact Hal|apply (alpha_cut_le (cwnd self) _ ltac:(lia) Hal)].
  - split; [eapply window_closed_ok; [exact Hok1|exact Hal]|lia].
Qed.

#[export] Instance Dctcp_laws : CongestionLaws Dctcp.
Proof.
  unshelve econstructor; [exact ok|..].
  - intros m c []. done.
  - intros m c now acked Hok Ha. destruct (dctcp_on_ack_spec m c now acked Hok Ha) as (c' & H1 & H2 & _). eauto.
  - intros m c now flight [[Em Hm] ????] Hf. pose proof (halve_ok flight m Hf Hm). cbn. unfold on_dup_ack.
    case_ifs; eexists _, _; (split; [done|]); unfold ok; cbn; rewrite ?Em; window_ok_tac.
  - intros m c now flight [[Em Hm] ????] Hf. pose proof (halve_ok flight m Hf Hm).
    eexists. split; [done|]. unfold ok; cbn; rewrite ?Em; window_ok_tac.
  - intros m c now flight [[Em Hm] ????] Hf. pose proof (halve_ok flight m Hf Hm).
    eexists. split; [done|]. unfold ok; cbn; rewrite ?Em; window_ok_tac.
  - intros. eexists. by split.
  - intros. eexists. by split.
  - intros m c now acked marked Hok Ha Hk. destruct (dctcp_on_ecn_spec m c now acked marked Hok Ha Hk) as (c' & H1 & H2 & _). eauto.
  - intros. eexists. by split.
Defined.

#[export] Instance Dctcp_safe : SafetyEnvelope Dctcp.
Proof.
  split.
  - intros m c now acked c' Hok Ha E. destruct (dctcp_on_ack_spec m c now acked Hok Ha) as (d & H1 & _ & H2 & _).
    cbn in *. congruence.
  - intros m c now flight c' b [[Em Hm] ????] Hf E. pose proof (halve_ok flight m Hf Hm). cbn in E. unfold on_dup_ack in E.
    case_ifs_in E; injection E as <- <-; unfold loss_bounded; cbn; rewrite ?Em; lia.
  - intros m c now flight c' [[Em Hm] ????] Hf [= <-]. pose proof (halve_ok flight m Hf Hm).
    unfold loss_bounded; cbn; rewrite ?Em; lia.
  - intros m c now flight c' [[Em Hm] ????] Hf [= <-]. pose proof (halve_ok flight m Hf Hm).
    unfold loss_bounded; cbn; rewrite ?Em; lia.
  - intros m c now acked marked c' Hok Ha Hk E.
    destruct (dctcp_on_ecn_spec m c now acked marked Hok Ha Hk) as (d & H1 & _ & H2). cbn in *. congruence.
Qed.

End Dctcp.

(** *** TCP Prague *)
Module Prague.

Definition PRAGUE_RTT_REF_US : f64 := f_of 25000.

Record Prague := mkPrague {
  cwnd : Z; ssthresh : Z; mss : Z; ca_acc : Z; dup_acks : Z; alpha : f64;
  acked_in_window : Z; marked_in_window : Z; window_bytes : Z; srtt_us : Z }.
#[export] Instance Prague_settable : Settable Prague :=
  fun d => mkPrague (cwnd d) (ssthresh d) (mss d) (ca_acc d) (dup_acks d) (alpha d)
    (acked_in_window d) (marked_in_window d) (window_bytes d) (srtt_us d).

Definition new (m : Z) : Prague :=
  mkPrague (initial_window m) U32_MAX m 0 0 f_one 0 0 (initial_window m) 0.

Definition in_slow_start (self : Prague) : bool := cwnd self <? ssthresh self.

(** The additive step: one segment before the first RTT sample, then scaled by
    the RTT over the reference and clamped. *)
Definition ai_step (self : Prague) : Z :=
  if srtt_us self =? 0 then mss self
  else
    let scaled := fmul (f_of (mss self)) (fdiv (f_of (srtt_us self)) PRAGUE_RTT_REF_US) in
    f_to_u32 (clamp_f64 scaled (f_of (Z.max (mss self / 4) 1)) (f_of (mss self * 4))).

Definition on_ack (self : Prague) (_ : Instant) (acked : Z) : option Prague :=
  let self := self <| dup_acks := 0 |> in
  if acked =? 0 then Some self
  else if in_slow_start self then
    Some (self <| cwnd := sat_add32 (cwnd self) (Z.min acked (mss self)) |>)
  else
    let self := self <| ca_acc := sat_add32 (ca_acc self) acked |> in
    let step := ai_step self in
    let? (acc, w) := increase_loop (increase_fuel (ca_acc self) (cwnd self)) step (ca_acc self) (cwnd self) in
    Some (self <| ca_acc := acc |> <| cwnd := w |>).

Definition on_dup_ack (self : Prague) (_ : Instant) (flight_size : Z) : option (Prague * bool) :=
  let self := self <| dup_acks := Z.min (dup_acks self + 1) U8_MAX |> in
  if dup_acks self =? 3 then
    let self := self <| ssthresh := halve flight_size (mss self) |> in
    let self := self <| cwnd := ssthresh self |> in
    Some (self <| ca_acc := 0 |>, true)
  else Some (self, false).

Definition enter_recovery (self : Prague) (_ : Instant) (flight_size : Z) : option Prague :=
  let self := self <| ssthresh := halve flight_size (mss self) |> in
  let self := self <| cwnd := ssthresh self |> in
  Some (self <| ca_acc := 0 |> <| dup_acks := 0 |>).

Definition on_rto (self : Prague) (_ : Instant) (flight_size : Z) : option Prague :=
  let self := self <| ssthresh := halve flight_size (mss self) |> in
  Some (self <| cwnd := mss self |> <| ca_acc := 0 |>).

Definition set_mss (self : Prague) (m : Z) : option Prague :=
  let self := self <| mss := m |> in
  Some (self <| cwnd := Z.max (cwnd self) (mss self) |> <| ca_acc := 0 |>).

Definition on_ecn (self : Prague) (_ : Instant) (acked marked : Z) : option Prague :=
  if acked =? 0 then Some self else
  let self := self <| acked_in_window := sat_add32 (acked_in_window self) acked |> in
  let self := self <| marked_in_window := sat_add32 (marked_in_window self) (Z.min marked acked) |> in
  if acked_in_window self <? window_bytes self then Some self else
  let self := self <| alpha := ewma (alpha self) (marked_in_window self) (acked_in_window self) |> in
  let cwnd_before := cwnd self in
  let self :=
    if 0 <? marked_in_window self then
      let self := self <| cwnd := Z.max (alpha_cut (cwnd self) (alpha self)) (mss self) |> in
      self <| ssthresh := cwnd self |> <| ca_acc := 0 |>
    else self in
  Some (self <| acked_in_window := 0 |> <| marked_in_window := 0 |>
             <| window_bytes := Z.max cwnd_before (mss self) |>).

Definition on_rtt_sample (self : Prague) (srtt_us_ : Z) : option Prague := Some (self <| srtt_us := srtt_us_ |>).

#[export] Instance Prague_control : CongestionControl Prague := {
  cc_cwnd := cwnd;
  cc_ssthresh := ssthresh;
  cc_on_ack := on_ack;
  cc_on_dup_ack := on_dup_ack;
  cc_enter_recovery := enter_recovery;
  cc_on_rto := on_rto;
  cc_set_mss := set_mss;
  cc_pacing_rate := default_pacing_rate;
  cc_on_transmit := default_on_transmit;
  cc_on_ack_sample := default_on_ack_sample;
  cc_on_ecn := on_ecn;
  cc_on_rtt_sample := on_rtt_sample;
}.

Definition ok (m : Z) (self : Prague) : Prop :=
  window_ok m (cwnd self) (ssthresh self) (mss self) (ca_acc self) (dup_acks self) (alpha self)
    (acked_in_window self) (marked_in_window self).

Lemma prague_new_ok m : 0 < m <= U16_MAX -> ok m (new m).
Proof. unfold new, initial_window. intros. split; cbn; try lia. exact upto_one. Qed.

Lemma ai_step_nonneg m self : mss self = m -> 0 < m <= U16_MAX -> 0 <= ai_step self.
Proof. unfold ai_step. intros. case_ifs; [lia|]. apply f_to_range; lia. Qed.

Lemma prague_on_ack_spec m self now acked :
  ok m self -> is_u32 acked ->
  exists self', on_ack self now acked = Some self' /\ ok m self' /\ cwnd self <= cwnd self'.
Proof.
  intros Hok Ha. destruct (wk_mss _ _ _ _ _ _ _ _ _ Hok) as [Em Hm]. unfold on_ack.
  destruct (acked =? 0) eqn:E0.
  { eexists. split; [done|]. destruct Hok. split; [window_ok_tac|]. cbn. lia. }
  change (in_slow_start (self <| dup_acks := 0 |>)) with (in_slow_start self).
  destruct (in_slow_start self) eqn:Ess.
  { eexists. split; [done|]. destruct Hok. unfold is_u32 in Ha. split; [window_ok_tac|]. cbn. unfold sat_add32. lia. }
  unfold ok in Hok. rewrite Em in Hok.
  set (self1 := self <| dup_acks := 0 |> <| ca_acc := _ |>).
  destruct (grow_ok _ _ _ _ _ _ _ _ (ai_step self1) acked Hok Ha (ai_step_nonneg _ _ Em Hm)) as (a & w & El & Hw & Hok' & _).
  cbn [self1 ca_acc cwnd]. change (ca_acc self1) with (sat_add32 (ca_acc self) acked).
  change (cwnd self1) with (cwnd self). rewrite El.
  eexists. split; [done|]. split; [unfold ok; cbn; rewrite Em; exact Hok'|exact Hw].
Qed.

Lemma prague_on_ecn_spec m self now acked marked :
  ok m self -> is_u32 acked -> is_u32 marked ->
  exists self', on_ecn self now acked marked = Some self' /\ ok m self' /\ cwnd self' <= cwnd self.
Proof.
  intros Hok Ha Hk. destruct (wk_mss _ _ _ _ _ _ _ _ _ Hok) as [Em Hm]. unfold on_ecn.
  destruct (acked =? 0) eqn:E0; [by exists self; split_and!; try done; lia|].
  unfold ok in Hok. rewrite Em in Hok.
  destruct (observe_ok _ _ _ _ _ _ _ _ acked marked Hok Ha Hk) as (Hok1 & Hpos & Hal).
  specialize (Hal ltac:(lia)). cbn. case_ifs.
  1: { eexists. split; [done|]. unfold ok. cbn. rewrite Em. split; [exact Hok1|lia]. }
  all: pose proof (wk_cwnd _ _ _ _ _ _ _ _ _ Hok); eexists; (split; [done|]); unfold ok; cbn; rewrite ?Em.
  - eapply cut_ok; [exact Hok1|exact Hal|apply (alpha_cut_le (cwnd self) _ ltac:(lia) Hal)].
  - split; [eapply window_closed_ok; [exact Hok1|exact Hal]|lia].
Qed.

#[export] Instance Prague_laws : CongestionLaws Prague.
Proof.
  unshelve econstructor; [exact ok|..].
  - intros m c []. done.
  - intros m c now acked Hok Ha. destruct (prague_on_ack_spec m c now acked Hok Ha) as (c' & H1 & H2 & _). eauto.
  - intros m c now flight [[Em Hm] ????] Hf. pose proof (halve_ok flight m Hf Hm). cbn. unfold on_dup_ack.
    case_ifs; eexists _, _; (split; [done|]); unfold ok; cbn; rewrite ?Em; window_ok_tac.
  - intros m c now flight [[Em Hm] ????] Hf. pose proof (halve_ok flight m Hf Hm).
    eexists. split; [done|]. unfold ok; cbn; rewrite ?Em; window_ok_tac.
  - intros m c now flight [[Em Hm] ????] Hf. pose proof (halve_ok flight m Hf Hm).
    eexists. split; [done|]. unfold ok; cbn; rewrite ?Em; window_ok_tac.
  - intros. eexists. by split.
  - intros. eexists. by split.
  - intros m c now acked marked Hok Ha Hk. destruct (prague_on_ecn_spec m c now acked marked Hok Ha Hk) as (c' & H1 & H2 & _). eauto.
  - intros. eexists. by split.
Defined.

#[export] Instance Prague_safe : SafetyEnvelope Prague.
Proof.
  split.
  - intros m c now acked c' Hok Ha E. destruct (prague_on_ack_spec m c now acked Hok Ha) as (d & H1 & _ & H2).
    cbn in *. congruence.
  - intros m c now flight c' b [[Em Hm] ????] Hf E. pose proof (halve_ok flight m Hf Hm). cbn in E. unfold on_dup_ack in E.
    case_ifs_in E; injection E as <- <-; unfold loss_bounded; cbn; rewrite ?Em; lia.
  - intros m c now flight c' [[Em Hm] ????] Hf [= <-]. pose proof (halve_ok flight m Hf Hm).
    unfold loss_bounded; cbn; rewrite ?Em; lia.
  - intros m c now flight c' [[Em Hm] ????] Hf [= <-]. pose proof (halve_ok flight m Hf Hm).
    unfold loss_bounded; cbn; rewrite ?Em; lia.
  - intros m c now acked marked c' Hok Ha Hk E.
    destruct (prague_on_ecn_spec m c now acked marked Hok Ha Hk) as (d & H1 & _ & H2). cbn in *. congruence.
Qed.

(** Whatever round-trip time the connection reports, the additive
    step of TCP Prague stays between a quarter of a segment (at least one byte)
    and four segments, and it is exactly one segment until the first sample. *)
Lemma prague_step_bounded m self :
  mss self = m -> 0 < m <= U16_MAX -> is_u32 (srtt_us self) ->
  Z.max (m / 4) 1 <= ai_step self <= 4 * m /\ (srtt_us self = 0 -> ai_step self = m).
Proof.
  intros Em Hm Hr. unfold is_u32 in Hr. unfold ai_step. rewrite Em.
  assert (Hq : 0 <= m / 4 < m) by (split; [apply Z.div_pos; lia|apply Z.div_lt; lia]).
  destruct (srtt_us self =? 0) eqn:E; [lia|]. split; [|lia].
  assert (Hs : upto (fdiv (f_of (srtt_us self)) PRAGUE_RTT_REF_US) 4294967296 0).
  { unfold PRAGUE_RTT_REF_US. destruct (f_of_exact 25000) as (mr & er & -> & Her & Hvr); [lia|].
    destruct (f_of_exact (srtt_us self)) as (ms & es & -> & Hes & Hvs); [lia|].
    apply div_upto; [lia|lia|split; lia|]. rewrite Hvs, Hvr. assert (0 < pw 0) by (apply pw_pos; lia). nia. }
  assert (Hx : upto (fmul (f_of m) (fdiv (f_of (srtt_us self)) PRAGUE_RTT_REF_US)) 281474976710656 0).
  { apply (mul_upto _ _ m 0 4294967296 0); try lia; [apply upto_of; lia|exact Hs|split; lia|].
    change (0 + 0) with 0. assert (0 < pw 0) by (apply pw_pos; lia). nia. }
  pose proof (clamp_cast_between U32_MAX _ (Z.max (m / 4) 1) (m * 4) (fmul_ok _ _)
    (upto_not_nan _ _ _ Hx) ltac:(lia) ltac:(lia) ltac:(lia)). unfold f_to_u32. lia.
Qed.

Lemma prague_step_bounded_witness :
  let prague := new 1460 in let at_reference := prague <| srtt_us := 25000 |> in
  ai_step prague = 1460 /\ ai_step at_reference = 1460 /\ ai_step (prague <| srtt_us := 1000000 |>) = 5840.
Proof.
  cbv zeta. split.
  - apply (proj2 (prague_step_bounded 1460 (new 1460) eq_refl ltac:(lia) ltac:(by split)) eq_refl).
  - split; vm_compute; reflexivity.
Defined.

End Prague.

(** *** The learned genome *)
Module Learned.

Record LearnedParams := mkParams { ai_gain : f64; md_loss : f64; ecn_a : f64; ecn_b : f64; ecn_max : f64 }.

Definition DEFAULT : LearnedParams := mkParams f_one (lit 1 2) (lit 1 2) f_zero (lit 1 2).
Definition BAKED : LearnedParams :=
  mkParams (lit 8608600807626614 10000000000000000) (lit 17665019197744708 100000000000000000)
    (lit 18471102809453077 100000000000000000) (lit 11656344382528598 1000000000000000000)
    (lit 6282775233572743 10000000000000000).

Definition sanitized (self : LearnedParams) : LearnedParams :=
  mkParams (clamp_f64 (ai_gain self) (lit 5 100) (f_of 8))
    (clamp_f64 (md_loss self) (lit 1 10) (lit 95 100))
    (clamp_f64 (ecn_a self) f_zero f_two)
    (clamp_f64 (ecn_b self) (fneg f_one) f_two)
    (clamp_f64 (ecn_max self) (lit 5 100) (lit 95 100)).

(** The genome a new controller uses, given the thread-local override. *)
Definition current_learned_params (LEARNED_OVERRIDE : option LearnedParams) : LearnedParams :=
  sanitized (default BAKED LEARNED_OVERRIDE).

Record Learned := mkLearned {
  cwnd : Z; ssthresh : Z; mss : Z; ca_acc : Z; dup_acks : Z; p : LearnedParams; alpha : f64;
  acked_in_window : Z; marked_in_window : Z; window_bytes : Z }.
#[export] Instance Learned_settable : Settable Learned :=
  fun d => mkLearned (cwnd d) (ssthresh d) (mss d) (ca_acc d) (dup_acks d) (p d) (alpha d)
    (acked_in_window d) (marked_in_window d) (window_bytes d).

Definition with_raw_params (m : Z) (g : LearnedParams) : Learned :=
  mkLearned (initial_window m) U32_MAX m 0 0 g f_one 0 0 (initial_window m).
Definition with_params (m : Z) (g : LearnedParams) : Learned := with_raw_params m (sanitized g).
Definition new (LEARNED_OVERRIDE : option LearnedParams) (m : Z) : Learned :=
  with_params m (current_learned_params LEARNED_OVERRIDE).

Definition in_slow_start (self : Learned) : bool := cwnd self <? ssthresh self.

Definition loss_ssthresh (self : Learned) (flight_size : Z) : Z :=
  Z.max (f_to_u32 (fmul (f_of flight_size) (md_loss (p self)))) (2 * mss self).

Definition ai_step (self : Learned) : Z := Z.max (f_to_u32 (fmul (ai_gain (p self)) (f_of (mss self)))) 1.

Definition on_ack (self : Learned) (_ : Instant) (acked : Z) : option Learned :=
  let self := self <| dup_acks := 0 |> in
  if acked =? 0 then Some self
  else if in_slow_start self then
    Some (self <| cwnd := sat_add32 (cwnd self) (Z.min acked (mss self)) |>)
  else
    let self := self <| ca_acc := sat_add32 (ca_acc self) acked |> in
    let step := ai_step self in
    let? (acc, w) := increase_loop (increase_fuel (ca_acc self) (cwnd self)) step (ca_acc self) (cwnd self) in
    Some (self <| ca_acc := acc |> <| cwnd := w |>).

Definition on_dup_ack (self : Learned) (_ : Instant) (flight_size : Z) : option (Learned * bool) :=
  let self := self <| dup_acks := Z.min (dup_acks self + 1) U8_MAX |> in
  if dup_acks self =? 3 then
    let self := self <| ssthresh := loss_ssthresh self flight_size |> in
    let self := self <| cwnd := ssthresh self |> in
    Some (self <| ca_acc := 0 |>, true)
  else Some (self, false).

Definition enter_recovery (self : Learned) (_ : Instant) (flight_size : Z) : option Learned :=
  let self := self <| ssthresh := loss_ssthresh self flight_size |> in
  let self := self <| cwnd := ssthresh self |> in
  Some (self <| ca_acc := 0 |> <| dup_acks := 0 |>).

Definition on_rto (self : Learned) (_ : Instant) (flight_size : Z) : option Learned :=
  let self := self <| ssthresh := loss_ssthresh self flight_size |> in
  Some (self <| cwnd := mss self |> <| ca_acc := 0 |>).

Definition set_mss (self : Learned) (m : Z) : option Learned :=
  let self := self <| mss := m |> in
  Some (self <| cwnd := Z.max (cwnd self) (mss self) |> <| ca_acc := 0 |>).

(** The response curve: [clamp (ecn_a * a + ecn_b * a * a) 0 ecn_max]. *)
Definition ecn_cut (g : LearnedParams) (a : f64) : f64 :=
  clamp_f64 (fadd (fmul (ecn_a g) a) (fmul (fmul (ecn_b g) a) a)) f_zero (ecn_max g).

Definition on_ecn (self : Learned) (_ : Instant) (acked marked : Z) : option Learned :=
  if acked =? 0 then Some self else
  let self := self <| acked_in_window := sat_add32 (acked_in_window self) acked |> in
  let self := self <| marked_in_window := sat_add32 (marked_in_window self) (Z.min marked acked) |> in
  if acked_in_window self <? window_bytes self then Some self else
  let self := self <| alpha := ewma (alpha self) (marked_in_window self) (acked_in_window self) |> in
  let cwnd_before := cwnd self in
  let self :=
    if 0 <? marked_in_window self then
      let cut := ecn_cut (p self) (alpha self) in
      let reduced := f_to_u32 (fmul (f_of (cwnd self)) (fsub f_one cut)) in
      let self := self <| cwnd := Z.max reduced (mss self) |> in
      self <| ssthresh := cwnd self |> <| ca_acc := 0 |>
    else self in
  Some (self <| acked_in_window := 0 |> <| marked_in_window := 0 |>
             <| window_bytes := Z.max cwnd_before (mss self) |>).

#[export] Instance Learned_control : CongestionControl Learned := {
  cc_cwnd := cwnd;
  cc_ssthresh := ssthresh;
  cc_on_ack := on_ack;
  cc_on_dup_ack := on_dup_ack;
  cc_enter_recovery := enter_recovery;
  cc_on_rto := on_rto;
  cc_set_mss := set_mss;
  cc_pacing_rate := default_pacing_rate;
  cc_on_transmit := default_on_transmit;
  cc_on_ack_sample := default_on_ack_sample;
  cc_on_ecn := on_ecn;
  cc_on_rtt_sample := default_on_rtt_sample;
}.

(** What a genome must satisfy: a loss keeps at most the whole flight, and the
    cap on a cut is not negative. *)
Record safe_genome (g : LearnedParams) : Prop := {
  sg_md : atmost (md_loss g) 1 0;
  sg_max : nonneg (ecn_max g) /\ f64_ok (ecn_max g);
}.

(** Any five binary64 genes, NaNs and infinities included. *)
Definition genome_ok (g : LearnedParams) : Prop :=
  f64_ok (ai_gain g) /\ f64_ok (md_loss g) /\ f64_ok (ecn_a g) /\ f64_ok (ecn_b g) /\ f64_ok (ecn_max g).

Lemma sanitized_safe g : genome_ok g -> safe_genome (sanitized g).
Proof.
  intros (_ & Hmd & _ & _ & Hmx).
  assert (E95 : lit 95 100 = S754_finite false 8556839292003942 (-53)) by (vm_compute; reflexivity).
  assert (E10 : lit 1 10 = S754_finite false 7205759403792794 (-56)) by (vm_compute; reflexivity).
  assert (E05 : lit 5 100 = S754_finite false 7205759403792794 (-57)) by (vm_compute; reflexivity).
  assert (H95 : Z.pos 8556839292003942 * pw (-53) <= 1 * pw 0).
  { rewrite (pw_split (-53) 0) by lia. change (2 ^ (0 - -53)) with 9007199254740992.
    assert (0 < pw (-53)) by (apply pw_pos; lia). nia. }
  split; cbn [md_loss ecn_max sanitized]; rewrite E95, ?E10, ?E05.
  - eapply atmost_weaken; [apply clamp_atmost; [done|lia|]|exact H95].
    split; [lia|]. rewrite (pw_split (-56) (-53)) by lia. change (2 ^ (-53 - -56)) with 8.
    assert (0 < pw (-56)) by (apply pw_pos; lia). nia.
  - split; [by apply clamp_pos_nonneg|]. apply clamp_ok; try done.
Qed.

Definition ok (m : Z) (self : Learned) : Prop :=
  window_ok m (cwnd self) (ssthresh self) (mss self) (ca_acc self) (dup_acks self) (alpha self)
    (acked_in_window self) (marked_in_window self) /\ safe_genome (p self).

Lemma raw_ok m g : 0 < m <= U16_MAX -> safe_genome g -> ok m (with_raw_params m g).
Proof. unfold with_raw_params, initial_window. intros. split; [|done]. split; cbn; try lia. exact upto_one. Qed.
Lemma BAKED_ok : genome_ok BAKED.
Proof. by vm_compute. Qed.
Lemma learned_new_ok g m : 0 < m <= U16_MAX -> (forall p, g = Some p -> genome_ok p) -> ok m (new g m).
Proof.
  intros. apply raw_ok; [done|]. apply sanitized_safe.
  assert (genome_ok (default BAKED g)) by (destruct g; [cbn; auto|exact BAKED_ok]).
  unfold current_learned_params. set (h := default BAKED g) in *. clearbody h.
  destruct H1 as (H1 & H2 & H3 & H4 & H5). unfold genome_ok, sanitized. cbn [ai_gain md_loss ecn_a ecn_b ecn_max].
  split_and!; by apply clamp_ok.
Qed.

Lemma loss_ssthresh_ok m self flight :
  mss self = m -> 0 < m <= U16_MAX -> safe_genome (p self) -> is_u32 flight ->
  2 * m <= loss_ssthresh self flight <= Z.max flight (2 * m).
Proof.
  intros Em Hm [Hmd _] Hf. unfold loss_ssthresh. rewrite Em. unfold is_u32 in Hf. split; [lia|].
  apply Z.max_le_compat_r. apply scaled_le; [lia|exact Hmd].
Qed.

Lemma reduced_le n g a :
  0 <= n <= U32_MAX -> safe_genome g -> 0 <= f_to_u32 (fmul (f_of n) (fsub f_one (ecn_cut g a))) <= n.
Proof.
  intros Hn [_ [Hx1 Hx2]]. split; [apply f_to_range; lia|]. apply scaled_le; [done|].
  assert (Hs : f64_ok (fadd (fmul (ecn_a g) a) (fmul (fmul (ecn_b g) a) a))) by (apply fadd_ok; apply fmul_ok).
  apply sub_atmost; [exact upto_one| | |exact rep_one].
  - by apply clamp_zero_nonneg.
  - by apply clamp_ok.
Qed.

(** The loss response reads only the segment size and the genome. *)
Ltac fold_loss := repeat match goal with
  | |- context [loss_ssthresh (?f ?g ?d) ?flight] => change (loss_ssthresh (f g d) flight) with (loss_ssthresh d flight)
  end.

Lemma learned_on_ack_spec m self now acked :
  ok m self -> is_u32 acked ->
  exists self', on_ack self now acked = Some self' /\ ok m self' /\ cwnd self <= cwnd self'.
Proof.
  intros [Hok Hg] Ha. destruct (wk_mss _ _ _ _ _ _ _ _ _ Hok) as [Em Hm]. unfold on_ack.
  destruct (acked =? 0) eqn:E0.
  { eexists. split; [done|]. destruct Hok. split; [split; [window_ok_tac|exact Hg]|]. cbn. lia. }
  change (in_slow_start (self <| dup_acks := 0 |>)) with (in_slow_start self).
  destruct (in_slow_start self) eqn:Ess.
  { eexists. split; [done|]. destruct Hok. unfold is_u32 in Ha. split; [split; [window_ok_tac|exact Hg]|].
    cbn. unfold sat_add32. lia. }
  rewrite Em in Hok. set (self1 := self <| dup_acks := 0 |> <| ca_acc := _ |>).
  destruct (grow_ok _ _ _ _ _ _ _ _ (ai_step self1) acked Hok Ha ltac:(unfold ai_step; lia)) as (a & w & El & Hw & Hok' & _).
  change (ca_acc self1) with (sat_add32 (ca_acc self) acked). change (cwnd self1) with (cwnd self). cbn [self1].
  rewrite El. eexists. split; [done|]. split; [split; [cbn; rewrite Em; exact Hok'|exact Hg]|exact Hw].
Qed.

(** A genome whose gain is at most one pays for its growth in bytes. *)
Lemma learned_on_ack_paid m self now acked self' :
  ok m self -> is_u32 acked -> upto (ai_gain (p self)) 1 0 -> on_ack self now acked = Some self' ->
  p self' = p self /\ cwnd self' + ca_acc self' <= cwnd self + ca_acc self + acked.
Proof.
  intros [Hok Hg] Ha Hgain. destruct (wk_mss _ _ _ _ _ _ _ _ _ Hok) as [Em Hm].
  pose proof (wk_cwnd _ _ _ _ _ _ _ _ _ Hok) as Hc. pose proof (wk_acc _ _ _ _ _ _ _ _ _ Hok) as Hacc.
  unfold on_ack, is_u32 in *. destruct (acked =? 0) eqn:E0.
  { intros [= <-]. cbn. split; [done|lia]. }
  change (in_slow_start (self <| dup_acks := 0 |>)) with (in_slow_start self).
  destruct (in_slow_start self).
  { intros [= <-]. cbn. unfold sat_add32. split; [done|lia]. }
  set (self1 := self <| dup_acks := 0 |> <| ca_acc := _ |>).
  assert (Hstep : 0 <= ai_step self1 <= m).
  { unfold ai_step. change (ai_gain (p self1)) with (ai_gain (p self)). change (mss self1) with (mss self). rewrite Em.
    assert (Hu : upto (fmul (ai_gain (p self)) (f_of m)) m 0).
    { apply (mul_upto _ _ 1 0 m 0); try lia; [done|apply upto_of; lia|split; lia|change (0 + 0) with 0; lia]. }
    pose proof (f_to_atmost U32_MAX _ m ltac:(lia) (upto_atmost _ _ _ Hu)). unfold f_to_u32. lia. }
  rewrite Em in Hok.
  destruct (grow_ok _ _ _ _ _ _ _ _ (ai_step self1) acked Hok Ha (proj1 Hstep)) as (a & w & El & _ & _ & Hpaid).
  change (ca_acc self1) with (sat_add32 (ca_acc self) acked). change (cwnd self1) with (cwnd self). cbn [self1].
  rewrite El. intros [= <-]. split; [done|]. change (w + a <= cwnd self + ca_acc self + acked). lia.
Qed.

Lemma learned_on_ecn_spec m self now acked marked :
  ok m self -> is_u32 acked -> is_u32 marked ->
  exists self', on_ecn self now acked marked = Some self' /\ ok m self' /\ cwnd self' <= cwnd self.
Proof.
  intros [Hok Hg] Ha Hk. destruct (wk_mss _ _ _ _ _ _ _ _ _ Hok) as [Em Hm]. unfold on_ecn.
  destruct (acked =? 0) eqn:E0; [by exists self; split; [done|]; split; [by split|lia]|].
  rewrite Em in Hok.
  destruct (observe_ok _ _ _ _ _ _ _ _ acked marked Hok Ha Hk) as (Hok1 & Hpos & Hal).
  specialize (Hal ltac:(lia)). cbn. case_ifs.
  1: { eexists. split; [done|]. unfold ok. cbn. rewrite Em. split; [by split|lia]. }
  all: pose proof (wk_cwnd _ _ _ _ _ _ _ _ _ Hok); eexists; (split; [done|]); unfold ok; cbn; rewrite ?Em.
  - match goal with |- context [ecn_cut (p self) ?a] => pose proof (reduced_le (cwnd self) (p self) a ltac:(lia) Hg) as Hr end.
    destruct (cut_ok _ _ _ _ _ _ _ _ _ _ Hok1 Hal Hr) as [Hw Hle]. split; [split; [exact Hw|exact Hg]|exact Hle].
  - split; [split; [eapply window_closed_ok; [exact Hok1|exact Hal]|exact Hg]|lia].
Qed.

#[export] Instance Learned_laws : CongestionLaws Learned.
Proof.
  unshelve econstructor; [exact ok|..].
  - intros m c [[] _]. done.
  - intros m c now acked Hok Ha. destruct (learned_on_ack_spec m c now acked Hok Ha) as (c' & H1 & H2 & _). eauto.
  - intros m c now flight [[[Em Hm] ????] Hg] Hf.
    pose proof (loss_ssthresh_ok m c flight Em Hm Hg Hf). cbn. unfold on_dup_ack.
    case_ifs; eexists _, _; (split; [done|]); (split; [|exact Hg]); cbn; fold_loss; rewrite ?Em; window_ok_tac.
  - intros m c now flight [[[Em Hm] ????] Hg] Hf.
    pose proof (loss_ssthresh_ok m c flight Em Hm Hg Hf).
    eexists. split; [done|]. (split; [|exact Hg]); cbn; fold_loss; rewrite ?Em; window_ok_tac.
  - intros m c now flight [[[Em Hm] ????] Hg] Hf.
    pose proof (loss_ssthresh_ok m c flight Em Hm Hg Hf).
    eexists. split; [done|]. (split; [|exact Hg]); cbn; fold_loss; rewrite ?Em; window_ok_tac.
  - intros. eexists. by split.
  - intros. eexists. by split.
  - intros m c now acked marked Hok Ha Hk. destruct (learned_on_ecn_spec m c now acked marked Hok Ha Hk) as (c' & H1 & H2 & _). eauto.
  - intros. eexists. by split.
Defined.

#[export] Instance Learned_safe : SafetyEnvelope Learned.
Proof.
  split.
  - intros m c now acked c' Hok Ha E. destruct (learned_on_ack_spec m c now acked Hok Ha) as (d & H1 & _ & H2).
    cbn in *. congruence.
  - intros m c now flight c' b [[[Em Hm] ????] Hg] Hf E.
    pose proof (loss_ssthresh_ok m c flight Em Hm Hg Hf). cbn in E. unfold on_dup_ack in E.
    case_ifs_in E; injection E as <- <-; unfold loss_bounded; cbn; fold_loss; rewrite ?Em; lia.
  - intros m c now flight c' [[[Em Hm] ????] Hg] Hf [= <-].
    pose proof (loss_ssthresh_ok m c flight Em Hm Hg Hf).
    unfold loss_bounded; cbn; fold_loss; rewrite ?Em; lia.
  - intros m c now flight c' [[[Em Hm] ????] Hg] Hf [= <-].
    pose proof (loss_ssthresh_ok m c flight Em Hm Hg Hf).
    unfold loss_bounded; cbn; fold_loss; rewrite ?Em; lia.
  - intros m c now acked marked c' Hok Ha Hk E.
    destruct (learned_on_ecn_spec m c now acked marked Hok Ha Hk) as (d & H1 & _ & H2). cbn in *. congruence.
Qed.

End Learned.
