(* ===== verification/F64Order.v ===== *)
(** Binary64 numbers, continued: lower bounds through rounding, the order, and
    which operations can yield a NaN.  [F64.v] has the arithmetic and the upper
    bounds. *)

From Stdlib Require Import SpecFloat.
From S2P Require Import Prelude F64.

(** [x] is at least [B * 2^g] (possibly infinite). *)
Definition atleast (x : f64) (B g : Z) : Prop :=
  match x with
  | S754_zero _ => B <= 0
  | S754_finite false m e => -1074 <= e /\ B * pw g <= Zpos m * pw e
  | S754_infinity false => True
  | _ => False
  end.

(** Moving to the format's exponent stays above a representable bound. *)
Lemma shr_atleast m e l s e1 B g :
  0 <= m -> -2999 <= e -> rep B g -> shr_fexp 53 1024 m e l = (s, e1) ->
  B * pw g <= m * pw e -> B * pw g <= shr_m s * pw e1.
Proof.
  intros Hm He [HB Hg] E Hv.
  destruct (shr_fexp_ok _ _ _ _ _ Hm E) as (k & Hk & -> & (Hsm & Hs0 & _) & He1 & Hexp). rewrite Hsm.
  destruct (Z.eq_dec k 0) as [->|Hk0]; [by rewrite Z.add_0_r, Z.div_1_r|]. specialize (Hexp ltac:(lia)).
  assert (Hp : 0 < pw (e + k)) by (apply pw_pos; lia). assert (0 < pw e) by (apply pw_pos; lia).
  destruct (Z.le_gt_cases (e + k) g) as [Hle|Hgt].
  - rewrite (pw_split (e + k) g) in Hv |- * by lia. rewrite pw_add in Hv by lia.
    generalize dependent (2 ^ (g - (e + k))). intros q Hv.
    assert (Hq : B * q <= m / 2 ^ k) by (apply Z.div_le_lower_bound; nia). nia.
  - destruct m as [|p|p]; [| |lia].
    { assert (0 < pw g) by (apply pw_pos; lia). nia. }
    cbn [Zdigits2] in Hexp. destruct (digits2_bound p) as [_ Hd]. set (d := Z.pos (digits2_pos p)) in *.
    assert (Hd52 : 2 ^ 52 <= Z.pos p / 2 ^ k).
    { apply Z.div_le_lower_bound; [lia|]. rewrite <- Z.pow_add_r by lia. by replace (k + 52) with (d - 1) by lia. }
    assert (Hs : pw (e + k) = pw g * 2 ^ (e + k - g)) by (apply pw_split; lia).
    assert (H2 : 2 ^ 1 <= 2 ^ (e + k - g)) by (apply Z.pow_le_mono_r; lia).
    assert (0 < pw g) by (apply pw_pos; lia). change (2 ^ 1) with 2 in H2.
    assert (B * pw g <= 2 ^ 52 * (pw g * 2)) by nia. nia.
Qed.

(** Rounding a number above a representable bound stays above it. *)
Lemma round_atleast m e l B g :
  0 <= m -> -2999 <= e -> rep B g -> B * pw g <= m * pw e -> atleast (binary_round_aux 53 1024 false m e l) B g.
Proof.
  intros Hm He Hr Hv. unfold binary_round_aux. destruct (shr_fexp 53 1024 m e l) as [s e1] eqn:E1.
  pose proof (shr_atleast _ _ _ _ _ _ _ Hm He Hr E1 Hv) as H1.
  destruct (shr_fexp_ok _ _ _ _ _ Hm E1) as (k & Hk & -> & (_ & Hs0 & _) & _).
  assert (Hp : 0 < pw (e + k)) by (apply pw_pos; lia).
  set (m2 := round_nearest_even _ _).
  assert (H2 : shr_m s <= m2) by (destruct (round_even_cases (shr_m s) (loc_of_shr_record s)) as [E|[E _]]; unfold m2; lia).
  destruct (shr_fexp 53 1024 m2 (e + k) loc_Exact) as [s2 e2] eqn:E2.
  assert (H3 : B * pw g <= m2 * pw (e + k)) by nia.
  pose proof (shr_atleast m2 (e + k) _ s2 e2 B g ltac:(lia) ltac:(lia) Hr E2 H3) as H4.
  destruct (shr_fexp_ok _ _ _ _ _ (Z.le_trans _ _ _ Hs0 H2) E2) as (k2 & _ & -> & (_ & Hs2 & _) & He2 & _).
  assert (0 < pw g) by (apply pw_pos; unfold rep in Hr; lia).
  destruct (shr_m s2) as [|p|p]; [cbn in *; nia| |lia]. by destruct (_ <=? _).
Qed.

Lemma normalize_atleast m e B g :
  0 < m -> -1500 <= e -> rep B g -> B * pw g <= m * pw e -> atleast (binary_normalize 53 1024 m e false) B g.
Proof.
  intros Hm He Hr Hv. destruct m as [|p|p]; [lia| |lia]. unfold binary_normalize, binary_round.
  set (f := fexp 53 1024 (Z.pos (digits2_pos p) + e)).
  assert (Hf : -1074 <= f) by (unfold f, fexp, emin; lia).
  destruct (Z.le_gt_cases e f) as [Hle|Hgt].
  - unfold shl_align. destruct (f - e) as [|q|q] eqn:Eq; [| |lia].
    all: apply round_atleast; [lia|lia|done|exact Hv].
  - pose proof (align_val p e f ltac:(lia)) as Ea. unfold shl_align in *.
    destruct (f - e) as [|q|q] eqn:Eq; [lia..|]. cbn [fst] in Ea.
    apply round_atleast; [lia|lia|done|].
    rewrite Ea, <- Z.mul_assoc, (Z.mul_comm (2 ^ _)), <- (pw_split f e) by lia. exact Hv.
Qed.

(** Adding a non-negative number to an integer does not lower it. *)
Lemma add_atleast n y :
  0 < n < 2 ^ 53 -> nonneg y -> f64_ok y -> is_nan y = false -> atleast (fadd (f_of n) y) n 0.
Proof.
  intros Hn Hy Hoy Hnan. destruct (f_of_exact n Hn) as (m & e & -> & He & Hv). unfold fadd.
  destruct y as [sy|sy| |sy my ey]; try done; cbn [nonneg] in Hy; try subst sy; cbn [SFadd].
  - split; lia.
  - done.
  - cbn [cond_Zopp f64_ok] in *. set (z := Z.min e ey). rewrite !align_val by lia.
    apply normalize_atleast; [|lia|split; lia|].
    + assert (0 < 2 ^ (e - z)) by (apply Z.pow_pos_nonneg; lia). assert (0 <= 2 ^ (ey - z)) by (apply Z.pow_nonneg; lia). nia.
    + rewrite <- Hv. rewrite (pw_split z e) by lia. assert (0 < pw z) by (apply pw_pos; lia).
      assert (0 <= 2 ^ (ey - z)) by (apply Z.pow_nonneg; lia). nia.
Qed.

Lemma f_to_atleast limit x n : 0 <= n <= limit -> atleast x n 0 -> n <= f_to limit x.
Proof.
  intros Hn Hx. destruct x as [s|[]| |[] m e]; cbn [atleast] in Hx; try done; cbn [f_to]; try lia.
  destruct Hx as [He Hx]. pose proof (finite_shift_lower n m e ltac:(lia) He Hx). lia.
Qed.

(** An upper bound on the fractional grid truncates. *)
Lemma f_to_atmost_grid limit x B k : 0 <= B -> 0 <= k <= 1000 -> atmost x B (- k) -> f_to limit x <= Z.max 0 (B / 2 ^ k).
Proof.
  intros HB Hk Hx. pose proof (Z.div_pos B (2 ^ k) HB ltac:(lia)).
  destruct x as [s|[]| |[] m e]; cbn [atmost f_to] in *; try lia; try done. destruct Hx as [He Hx].
  assert (H1 : (if 0 <=? e then Z.shiftl (Z.pos m) e else Z.shiftr (Z.pos m) (- e)) <= B / 2 ^ k); [|lia].
  assert (0 < pw (- k)) by (apply pw_pos; lia). assert (0 < pw e) by (apply pw_pos; lia).
  apply Z.div_le_lower_bound; [lia|]. destruct (Z.leb_spec 0 e).
  - rewrite Z.shiftl_mul_pow2 by lia. rewrite (pw_split (- k) e) in Hx by lia.
    replace (e - - k) with (k + e) in Hx by lia. rewrite Z.pow_add_r in Hx by lia. nia.
  - rewrite Z.shiftr_div_pow2 by lia. assert (0 < 2 ^ (- e)) by (apply Z.pow_pos_nonneg; lia).
    pose proof (Z.mul_div_le (Z.pos m) (2 ^ (- e)) ltac:(lia)) as Hd. set (q := Z.pos m / 2 ^ (- e)) in *.
    assert (Hq : q * (2 ^ (- e) * pw e) <= B * pw (- k)) by nia.
    rewrite <- (Z.mul_comm (pw e)), <- pw_add in Hq by lia. replace (e + - e) with (- k + k) in Hq by lia.
    rewrite pw_add in Hq by lia. nia.
Qed.

(** *** The order *)

(** What is below a bounded number is bounded. *)
Lemma flt_atmost_trans x y B g : f64_ok x -> f64_ok y -> flt x y = true -> atmost y B g -> atmost x B g.
Proof.
  intros Hx Hy Hlt Hb. unfold flt in Hlt.
  destruct x as [sx|[]| |[] mx ex]; try done; destruct y as [sy|[]| |[] my ey]; try done; cbn in *.
  - exfalso. rewrite !Z.shiftl_mul_pow2 in Hlt by lia.
    assert (0 < 2 ^ (ex - Z.min ex ey) /\ 0 < 2 ^ (ey - Z.min ex ey)) as [? ?] by (split; apply Z.pow_pos_nonneg; lia).
    rewrite (proj2 (Z.compare_gt_iff _ _)) in Hlt by nia. done.
  - destruct Hb as [_ Hb]. split; [lia|]. set (z := Z.min ex ey) in *. rewrite !Z.shiftl_mul_pow2 in Hlt by lia.
    rewrite (pw_split z ey) in Hb by lia. rewrite (pw_split z ex) by lia. assert (0 < pw z) by (apply pw_pos; lia).
    destruct (Z.compare_spec (Z.pos mx * 2 ^ (ex - z)) (Z.pos my * 2 ^ (ey - z))) as [H1|H1|H1]; try done. nia.
Qed.

(** An integer below a bounded number is at most the bound. *)
Lemma flt_of_le n x b : 0 <= n < 2 ^ 53 -> f64_ok x -> flt (f_of n) x = true -> 0 <= b -> atmost x b 0 -> n <= b.
Proof.
  intros Hn Hx Hlt Hb Ha. destruct (Z.eq_dec n 0) as [->|Hn0]; [done|].
  pose proof (flt_atmost_trans _ _ _ _ (f_of_ok n) Hx Hlt Ha) as H.
  destruct (f_of_exact n) as (m & e & E & He & Hv); [lia|]. rewrite E in H. cbn in H.
  assert (0 < pw 0) by (apply pw_pos; lia). nia.
Qed.

(** *** Finite results *)

(** A finite binary64 value. *)
Definition finite_ok (x : f64) : Prop :=
  match x with S754_zero _ => True | S754_finite _ _ e => -1074 <= e <= 971 | _ => False end.
Lemma finite_ok_ok x : finite_ok x -> f64_ok x.
Proof. by destruct x. Qed.
Lemma finite_not_nan x : finite_ok x -> is_nan x = false.
Proof. by destruct x. Qed.

Lemma f_of_finite n : 0 <= n < 2 ^ 53 -> finite_ok (f_of n).
Proof.
  intros Hn. destruct (Z.eq_dec n 0) as [->|]; [done|].
  destruct (f_of_exact n) as (m & e & -> & He & _); cbn; lia.
Qed.

Lemma round_not_nan s m e l : 0 <= m -> is_nan (binary_round_aux 53 1024 s m e l) = false.
Proof.
  intros Hm. unfold binary_round_aux. destruct (shr_fexp 53 1024 m e l) as [s1 e1] eqn:E1.
  destruct (shr_fexp_ok _ _ _ _ _ Hm E1) as (k & Hk & -> & (Hsm & Hs0 & _) & _).
  set (m2 := round_nearest_even _ _).
  assert (H2 : 0 <= m2) by (destruct (round_even_cases (shr_m s1) (loc_of_shr_record s1)) as [E|[E _]]; unfold m2; lia).
  destruct (shr_fexp 53 1024 m2 (e + k) loc_Exact) as [s2 e2] eqn:E2.
  destruct (shr_fexp_ok _ _ _ _ _ H2 E2) as (k2 & _ & -> & (_ & Hs2 & _) & _).
  destruct (shr_m s2); [done|by destruct (_ <=? _)|lia].
Qed.
Lemma normalize_not_nan m e b : is_nan (binary_normalize 53 1024 m e b) = false.
Proof.
  destruct m as [|p|p]; cbn [binary_normalize]; [done|..]; unfold binary_round;
    destruct (shl_align _ _ _); apply round_not_nan; lia.
Qed.

Lemma fmul_not_nan x y : finite_ok x -> finite_ok y -> is_nan (fmul x y) = false.
Proof. unfold fmul. destruct x, y; cbn [SFmul]; try done. intros. apply round_not_nan. lia. Qed.
Lemma fadd_not_nan x y : finite_ok x -> is_nan y = false -> is_nan (fadd x y) = false.
Proof. unfold fadd. destruct x as [[]| | |], y as [[]| | |]; cbn [SFadd]; try done. intros. apply normalize_not_nan. Qed.
Lemma fsub_not_nan x y : finite_ok x -> is_nan y = false -> is_nan (fsub x y) = false.
Proof. unfold fsub. destruct x as [[]| | |], y as [[]| | |]; cbn [SFsub]; try done. intros. apply normalize_not_nan. Qed.
(** A positive integer times anything but a NaN is not a NaN. *)
Lemma of_mul_not_nan n y : 0 < n < 2 ^ 53 -> is_nan y = false -> is_nan (fmul (f_of n) y) = false.
Proof.
  intros Hn Hy. destruct (f_of_exact n Hn) as (m & e & -> & _). unfold fmul. destruct y; cbn [SFmul]; try done.
  apply round_not_nan. lia.
Qed.

Lemma fmul_comm x y : fmul x y = fmul y x.
Proof.
  unfold fmul. destruct x as [sx|sx| |sx mx ex], y as [sy|sy| |sy my ey]; cbn [SFmul]; try done;
    rewrite ?(xorb_comm sy sx); try done. by rewrite Pos.mul_comm, Z.add_comm.
Qed.

Lemma mul_nonneg x y : nonneg x -> nonneg y -> nonneg (fmul x y).
Proof.
  unfold fmul, nonneg. destruct x as [sx|sx| |sx mx ex], y as [sy|sy| |sy my ey]; cbn [SFmul]; try done;
    intros; subst; try done. unfold binary_round_aux. destruct (shr_fexp _ _ _ _ _) as [s1 e1].
  destruct (shr_fexp _ _ _ _ _) as [s2 e2]. by destruct (shr_m s2); [|destruct (_ <=? _)|].
Qed.

(** *** Counting down *)

(** Taking at least one away from at most [n]. *)
Lemma sub_one x d n : f64_ok x -> f64_ok d -> 1 <= n < 2 ^ 53 -> atmost x n 0 -> atleast d 1 0 -> atmost (fsub x d) (n - 1) 0.
Proof.
  intros Hx Hd Hn Ha Hl. unfold fsub. destruct d as [sd|[]| |[] md ed]; cbn [atleast] in Hl; try done; try lia.
  { destruct x as [[]|[]| |[] mx ex]; done. }
  destruct Hl as [Ed Hl].
  destruct x as [[]|[]| |[] mx ex]; cbn [SFsub atmost] in *; try done; cbn [f64_ok cond_Zopp] in *.
  - set (z := Z.min ex ed). rewrite !align_val by lia. apply normalize_atmost; [lia|split; lia|].
    assert (0 < 2 ^ (ex - z) /\ 0 < 2 ^ (ed - z) /\ 0 < pw z /\ 0 < pw 0) as (? & ? & ? & ?)
      by (split_and!; first [apply Z.pow_pos_nonneg; lia|apply pw_pos; lia]). nia.
  - destruct Ha as [_ Ha]. set (z := Z.min ex ed). rewrite !align_val by lia. apply normalize_atmost; [lia|split; lia|].
    rewrite (pw_split z ex) in Ha by lia. rewrite (pw_split z ed) in Hl by lia. nia.
Qed.

(** At most zero is below one. *)
Lemma none_left x d : f64_ok x -> atmost x 0 0 -> atleast d 1 0 -> f64_ok d -> fle d x = false /\ flt d x = false.
Proof.
  intros Hx Ha Hl Hd. unfold fle, flt.
  destruct d as [sd|[]| |[] md ed]; cbn [atleast] in Hl; try done; try lia.
  { by destruct x as [[]|[]| |[] mx ex]; cbn in Ha |- *. }
  destruct Hl as [Ed Hl]. destruct x as [[]|[]| |[] mx ex]; cbn [fcompare atmost] in *; try done; cbn [f64_ok cond_Zopp] in *.
  - rewrite !Z.shiftl_mul_pow2 by lia.
    assert (0 < 2 ^ (ex - Z.min ed ex) /\ 0 < 2 ^ (ed - Z.min ed ex)) as [? ?] by (split; apply Z.pow_pos_nonneg; lia).
    by rewrite (proj2 (Z.compare_gt_iff _ _)) by nia.
  - destruct Ha as [_ Ha]. assert (0 < pw ex) by (apply pw_pos; lia). nia.
Qed.

Lemma add_atmost x y n k :
  f64_ok x -> f64_ok y -> atmost x n 0 -> atmost y k 0 -> 0 <= n -> 0 <= k -> n + k < 2 ^ 53 -> atmost (fadd x y) (n + k) 0.
Proof.
  intros Hx Hy Ha Hb Hn Hk Hnk. assert (Hp : 0 < pw 0) by (apply pw_pos; lia). unfold fadd.
  assert (Hwk : forall w j, atmost w j 0 -> j <= n + k -> atmost w (n + k) 0) by (intros; eapply atmost_weaken; [done|nia]).
  destruct x as [sx|[]| |sx mx ex], y as [sy|[]| |sy my ey]; cbn [SFadd]; try done.
  - by destruct sx, sy.
  - apply (Hwk _ k); [exact Hb|lia].
  - apply (Hwk _ n); [exact Ha|lia].
  - cbn [f64_ok] in *. set (z := Z.min ex ey). rewrite !align_val by lia.
    apply normalize_atmost; [lia|split; lia|].
    assert (Hax : cond_Zopp sx (Z.pos mx * 2 ^ (ex - z)) * pw z <= n * pw 0).
    { destruct sx; cbn [cond_Zopp]; [assert (0 <= 2 ^ (ex - z)) by (apply Z.pow_nonneg; lia); assert (0 < pw z) by (apply pw_pos; lia); nia|].
      destruct Ha as [_ Ha]. rewrite (pw_split z ex) in Ha by lia. lia. }
    assert (Hay : cond_Zopp sy (Z.pos my * 2 ^ (ey - z)) * pw z <= k * pw 0).
    { destruct sy; cbn [cond_Zopp]; [assert (0 <= 2 ^ (ey - z)) by (apply Z.pow_nonneg; lia); assert (0 < pw z) by (apply pw_pos; lia); nia|].
      destruct Hb as [_ Hb]. rewrite (pw_split z ey) in Hb by lia. lia. }
    nia.
Qed.

(** The integer part and one bound the number. *)
Lemma f_to_ceil limit x : f64_ok x -> f_to limit x < limit -> atmost x (f_to limit x + 1) 0.
Proof.
  intros Hx. destruct x as [s|[]| |[] m e]; cbn [f_to atmost f64_ok] in *; try done; [lia|]. intros Hl. split; [lia|].
  rewrite Z.min_r by lia. assert (Hp : 0 < pw e) by (apply pw_pos; lia). destruct (Z.leb_spec 0 e).
  - rewrite Z.shiftl_mul_pow2 by lia. rewrite (pw_split 0 e) by lia. replace (e - 0) with e by lia.
    assert (0 < pw 0) by (apply pw_pos; lia). nia.
  - rewrite Z.shiftr_div_pow2 by lia. rewrite (pw_split e 0) by lia. replace (0 - e) with (- e) by lia.
    pose proof (Z.mul_succ_div_gt (Z.pos m) (2 ^ (- e)) ltac:(apply Z.pow_pos_nonneg; lia)). nia.
Qed.

(** *** Lower bounds through products and quotients *)

Lemma mul_atleast mx ex my ey B g :
  -1074 <= ex -> -1074 <= ey -> rep B g -> B * pw g * pw 0 <= Z.pos mx * pw ex * (Z.pos my * pw ey) ->
  atleast (fmul (S754_finite false mx ex) (S754_finite false my ey)) B g.
Proof.
  intros Hx Hy Hr Hle. unfold fmul. cbn [SFmul xorb]. apply round_atleast; [lia|lia|done|].
  assert (E : pw ex * pw ey = pw (ex + ey) * pw 0) by (unfold pw; rewrite <- !Z.pow_add_r by lia; f_equal; lia).
  assert (0 < pw 0) by (apply pw_pos; lia). rewrite Pos2Z.inj_mul.
  apply (Z.mul_le_mono_pos_r _ _ (pw 0)); [done|].
  replace (Z.pos mx * Z.pos my * pw (ex + ey) * pw 0) with (Z.pos mx * Z.pos my * (pw (ex + ey) * pw 0)) by ring.
  rewrite <- E. etransitivity; [exact Hle|]. apply Z.eq_le_incl. ring.
Qed.

Lemma div_atleast mx ex my ey B g :
  -1074 <= ex <= 971 -> -1074 <= ey <= 971 -> rep B g ->
  B * pw g * (Z.pos my * pw ey) <= Z.pos mx * pw ex * pw 0 ->
  atleast (fdiv (S754_finite false mx ex) (S754_finite false my ey)) B g.
Proof.
  intros Hx Hy Hrep Hle. pose proof Hrep as [HB Hg]. unfold fdiv. cbn [SFdiv xorb].
  unfold SFdiv_core_binary. cbn [Zdigits2].
  set (d1 := Z.pos (digits2_pos mx)). set (d2 := Z.pos (digits2_pos my)).
  set (e' := Z.min (fexp 53 1024 (d1 + ex - (d2 + ey))) (ex - ey)).
  assert (He' : -2045 <= e' <= ex - ey) by (unfold e', fexp, emin; lia).
  set (s := ex - ey - e').
  assert (Em : match s with 0 => Z.pos mx | Z.pos _ => Z.shiftl (Z.pos mx) s | Z.neg _ => 0 end = Z.pos mx * 2 ^ s).
  { destruct s eqn:Es; [lia|rewrite Z.shiftl_mul_pow2 by lia; done|lia]. }
  rewrite Em. clear Em.
  pose proof (Z.mod_pos_bound (Z.pos mx * 2 ^ s) (Z.pos my) ltac:(lia)) as Hr.
  pose proof (Z.div_mod (Z.pos mx * 2 ^ s) (Z.pos my) ltac:(lia)) as Hq.
  unfold Z.div, Z.modulo in Hq, Hr. destruct (Z.div_eucl _ _) as [q r].
  assert (Hq0 : 0 <= q) by (assert (0 <= Z.pos mx * 2 ^ s) by nia; nia).
  apply round_atleast; [done|lia|done|].
  assert (Hpy : 0 < pw ey) by (apply pw_pos; lia). assert (Hpe : 0 < pw e') by (apply pw_pos; lia).
  assert (H1 : B * pw g * Z.pos my <= Z.pos mx * 2 ^ s * pw e').
  { assert (E1 : pw ex * pw 0 = pw (ex - ey) * pw ey) by (unfold pw; rewrite <- !Z.pow_add_r by lia; f_equal; lia).
    assert (E2 : pw (ex - ey) = pw e' * 2 ^ s) by (rewrite (pw_split e' (ex - ey)) by lia; done).
    apply (Z.mul_le_mono_pos_r _ _ (pw ey)); [done|].
    replace (Z.pos mx * 2 ^ s * pw e' * pw ey) with (Z.pos mx * (pw ex * pw 0)) by (rewrite E1, E2; ring). lia. }
  destruct (Z.le_gt_cases e' g) as [Hgrid|Hgrid].
  - rewrite (pw_split e' g) in H1 |- * by lia. generalize dependent (2 ^ (g - e')). intros w H1.
    assert (B * w <= q); [|nia].
    assert (H2 : B * w * Z.pos my * pw e' <= (Z.pos my * q + r) * pw e') by lia.
    apply Z.mul_le_mono_pos_r in H2; [|done]. nia.
  - (* a quotient on a coarser grid has 53 digits above it *)
    destruct (digits2_bound mx) as [_ Hd1], (digits2_bound my) as [Hd2 _]. fold d1 in Hd1. fold d2 in Hd2.
    assert (Hs : 53 <= d1 - d2 + s) by (unfold s, e', fexp, emin in *; lia).
    assert (Hq52 : 2 ^ 52 <= q).
    { assert (A : 2 ^ (d1 - 1 + s) <= Z.pos mx * 2 ^ s).
      { rewrite Z.pow_add_r by (unfold d1, s; lia). assert (0 < 2 ^ s) by (apply Z.pow_pos_nonneg; lia). nia. }
      assert (Bq : 2 ^ d2 * 2 ^ 52 <= Z.pos my * q + r).
      { rewrite <- Z.pow_add_r by (unfold d2; lia). etransitivity; [|rewrite <- Hq; exact A]. apply Z.pow_le_mono_r; lia. }
      assert (0 < 2 ^ 52) by lia. nia. }
    assert (pw (g + 1) <= pw e') by (unfold pw; apply Z.pow_le_mono_r; lia). rewrite pw_add in H by lia.
    assert (0 < pw g) by (apply pw_pos; lia). change (2 ^ 1) with 2 in H. nia.
Qed.

Lemma f_to_atleast_grid limit x B k : 0 <= B -> 0 <= k <= 1000 -> B / 2 ^ k <= limit -> atleast x B (- k) -> B / 2 ^ k <= f_to limit x.
Proof.
  intros HB Hk Hl Hx. pose proof (Z.div_pos B (2 ^ k) HB ltac:(lia)). set (n := B / 2 ^ k) in *.
  apply f_to_atleast; [lia|].
  assert (Hn : n * pw 0 <= B * pw (- k)).
  { rewrite (pw_split (- k) 0) by lia. replace (0 - - k) with k by lia.
    pose proof (Z.mul_div_le B (2 ^ k) ltac:(apply Z.pow_pos_nonneg; lia)). fold n in H0.
    assert (0 < pw (- k)) by (apply pw_pos; lia). nia. }
  destruct x as [s|[]| |[] m e]; cbn [atleast] in *; try done; [assert (B = 0) as -> by lia; unfold n; by rewrite Z.div_0_l by lia|].
  destruct Hx. split; [done|lia].
Qed.
