(* ===== verification/Synth.v ===== *)
(** The synthesised control law: the register machine and the [Synth]
    controller of [tcp-core/src/congestion.rs].

    A law is three straight-line programs over the live signals, wired in
    unsanitised.  Any law at all keeps the connection alive ([Synth_laws]); the
    three repairs bring any law into the safety envelope
    ([repairs_are_sound]). *)

From Stdlib Require Import SpecFloat.
From S2P Require Import Prelude Seq Time F64 F64Order Congestion Controllers.

Definition SYNTH_REGS_IN : Z := 8.
Definition SYNTH_PROG_LEN : Z := 8.
Definition SYNTH_CAP : f64 := f_of 1000000000.
Definition SYNTH_CWND_CAP : Z := 2 ^ 30.
Definition R_FLIGHT : Z := 1.
Definition R_ALPHA : Z := 3.
Definition R_HALF : Z := 5.
Definition R_ONE : Z := 6.
Definition f_half : f64 := lit 1 2.
#[global] Arguments f_half : simpl never.

(** *** Programs *)

Inductive SynthOp := OpAdd | OpSub | OpMul | OpDiv | OpMin | OpMax.
Record Instr := mkInstr { op : SynthOp; a : Z; b : Z }.

(** The fixed-size arrays are lists of [SYNTH_PROG_LEN] instructions. *)
Record ControlProgram := mkProgram { inc : list Instr; md : list Instr; ecn : list Instr }.
#[export] Instance ControlProgram_settable : Settable ControlProgram :=
  fun p => mkProgram (inc p) (md p) (ecn p).

Definition seed_prog (op : SynthOp) (a b : Z) : list Instr :=
  mkInstr op a b :: map (fun i => let prev := SYNTH_REGS_IN + i - 1 in mkInstr OpMax prev prev) [1; 2; 3; 4; 5; 6; 7].

Definition AIMD : ControlProgram :=
  mkProgram (seed_prog OpMax R_ONE R_ONE) (seed_prog OpMul R_FLIGHT R_HALF) (seed_prog OpMul R_ALPHA R_HALF).

Definition sub_ (self : ControlProgram) (which : Z) : list Instr :=
  if which =? 0 then inc self else if which =? 1 then md self else ecn self.

Definition OUT_PREV : Z := SYNTH_REGS_IN + SYNTH_PROG_LEN - 2.

(** [prog[SYNTH_PROG_LEN - 1] = i] *)
Definition set_output (prog : list Instr) (i : Instr) : list Instr := <[Z.to_nat (SYNTH_PROG_LEN - 1) := i]> prog.

Definition repair_loss (self : ControlProgram) : ControlProgram :=
  self <| md := set_output (md self) (mkInstr OpMin OUT_PREV R_FLIGHT) |>.
Definition repair_increase (self : ControlProgram) : ControlProgram :=
  self <| inc := set_output (inc self) (mkInstr OpMax OUT_PREV R_HALF) |>.
Definition repair_ecn (self : ControlProgram) : ControlProgram := self <| ecn := ecn AIMD |>.

Definition aimd_with_ecn_op (op : SynthOp) (a b : Z) : ControlProgram :=
  mkProgram (inc AIMD) (md AIMD) (seed_prog op a b).

(** *** Evaluation *)

Definition synth_guard (v : f64) : f64 := if is_nan v then f_zero else clamp_f64 v (fneg SYNTH_CAP) SYNTH_CAP.

Definition eval_op (o : SynthOp) (a b : f64) : f64 :=
  match o with
  | OpAdd => fadd a b
  | OpSub => fsub a b
  | OpMul => fmul a b
  | OpDiv => if feqb b f_zero then f_zero else fdiv a b
  | OpMin => if flt a b then a else b
  | OpMax => if fgt a b then a else b
  end.

(** The loop over the instructions, [t] counting them. *)
Fixpoint exec (prog : list Instr) (t : Z) (reg : list f64) : option (list f64) :=
  match prog with
  | [] => Some reg
  | ins :: prog =>
      let n := SYNTH_REGS_IN + t in
      let? x := at_ reg (Z.min (a ins) (n - 1)) in
      let? y := at_ reg (Z.min (b ins) (n - 1)) in
      let v := eval_op (op ins) x y in
      let? reg := store reg n (synth_guard v) in
      exec prog (t + 1) reg
  end.
Definition synth_eval (prog : list Instr) (inputs : list f64) : option f64 :=
  let reg := zrepeat f_zero (SYNTH_REGS_IN + SYNTH_PROG_LEN) in
  let? reg := splice reg 0 inputs in
  let? reg := exec prog 0 reg in
  at_ reg (SYNTH_REGS_IN + SYNTH_PROG_LEN - 1).

Definition synth_to_cwnd (v : f64) (floor : Z) : Z :=
  if flt v (f_of floor) then floor else if fgt v (f_of SYNTH_CWND_CAP) then SYNTH_CWND_CAP else f_to_u32 v.

(** The program a new controller runs, given the thread-local override. *)
Definition current_program (SYNTH_OVERRIDE : option ControlProgram) : ControlProgram := default AIMD SYNTH_OVERRIDE.

(** *** The controller *)
Module Synth.

Record Synth := mkSynth {
  cwnd : Z; ssthresh : Z; mss : Z; ca_acc : Z; dup_acks : Z; prog : ControlProgram; alpha : f64;
  acked_in_window : Z; marked_in_window : Z; window_bytes : Z; srtt_us : Z; rtt_min_us : Z }.
#[export] Instance Synth_settable : Settable Synth :=
  fun d => mkSynth (cwnd d) (ssthresh d) (mss d) (ca_acc d) (dup_acks d) (prog d) (alpha d)
    (acked_in_window d) (marked_in_window d) (window_bytes d) (srtt_us d) (rtt_min_us d).

Definition with_program (m : Z) (prog : ControlProgram) : Synth :=
  mkSynth (initial_window m) U32_MAX m 0 0 prog f_one 0 0 (initial_window m) 0 0.
Definition new (SYNTH_OVERRIDE : option ControlProgram) (m : Z) : Synth :=
  with_program m (current_program SYNTH_OVERRIDE).

Definition in_slow_start (self : Synth) : bool := cwnd self <? ssthresh self.

Definition signals (self : Synth) (flight acked : Z) : list f64 :=
  let mss := f_of (Z.max (mss self) 1) in
  let srtt_ratio :=
    if (0 <? rtt_min_us self) && (0 <? srtt_us self)
    then fdiv (f_of (srtt_us self)) (f_of (rtt_min_us self)) else f_one in
  [fdiv (f_of (cwnd self)) mss; fdiv (f_of flight) mss; fdiv (f_of acked) mss; alpha self; srtt_ratio;
   f_half; f_one; f_two].

Definition loss_target (self : Synth) (flight_size : Z) : option Z :=
  let? target_seg := synth_eval (md (prog self)) (signals self flight_size 0) in
  Some (synth_to_cwnd (fmul target_seg (f_of (mss self))) (2 * mss self)).

(** The [while] of [on_ack]: the window may shrink, but never under one
    segment, so each turn takes at least a segment from the accumulator. *)
Fixpoint grow_loop (fuel : nat) (step : f64) (mss acc cwnd : Z) : option (Z * Z) :=
  if cwnd <=? acc then
    match fuel with
    | O => None
    | S fuel => grow_loop fuel step mss (acc - cwnd) (synth_to_cwnd (fadd (f_of cwnd) step) mss)
    end
  else Some (acc, cwnd).
Definition grow_fuel (acc mss : Z) : nat := S (Z.to_nat (acc / Z.max 1 mss)).
#[global] Arguments grow_fuel : simpl never.

Definition on_ack (self : Synth) (_ : Instant) (acked : Z) : option Synth :=
  let self := self <| dup_acks := 0 |> in
  if acked =? 0 then Some self
  else if in_slow_start self then
    Some (self <| cwnd := sat_add32 (cwnd self) (Z.min acked (mss self)) |>)
  else
    let self := self <| ca_acc := sat_add32 (ca_acc self) acked |> in
    let? out := synth_eval (inc (prog self)) (signals self (cwnd self) acked) in
    let step := fmul out (f_of (mss self)) in
    let? (acc, w) := grow_loop (grow_fuel (ca_acc self) (mss self)) step (mss self) (ca_acc self) (cwnd self) in
    Some (self <| ca_acc := acc |> <| cwnd := w |>).

Definition on_dup_ack (self : Synth) (_ : Instant) (flight_size : Z) : option (Synth * bool) :=
  let self := self <| dup_acks := Z.min (dup_acks self + 1) U8_MAX |> in
  if dup_acks self =? 3 then
    let? target := loss_target self flight_size in
    let self := self <| ssthresh := target |> in
    let self := self <| cwnd := ssthresh self |> in
    Some (self <| ca_acc := 0 |>, true)
  else Some (self, false).

Definition enter_recovery (self : Synth) (_ : Instant) (flight_size : Z) : option Synth :=
  let? target := loss_target self flight_size in
  let self := self <| ssthresh := target |> in
  let self := self <| cwnd := ssthresh self |> in
  Some (self <| ca_acc := 0 |> <| dup_acks := 0 |>).

Definition on_rto (self : Synth) (_ : Instant) (flight_size : Z) : option Synth :=
  let? target := loss_target self flight_size in
  let self := self <| ssthresh := target |> in
  Some (self <| cwnd := mss self |> <| ca_acc := 0 |>).

Definition set_mss (self : Synth) (m : Z) : option Synth :=
  let self := self <| mss := m |> in
  Some (self <| cwnd := Z.max (cwnd self) (mss self) |> <| ca_acc := 0 |>).

Definition on_ecn (self : Synth) (_ : Instant) (acked marked : Z) : option Synth :=
  if acked =? 0 then Some self else
  let self := self <| acked_in_window := sat_add32 (acked_in_window self) acked |> in
  let self := self <| marked_in_window := sat_add32 (marked_in_window self) (Z.min marked acked) |> in
  if acked_in_window self <? window_bytes self then Some self else
  let self := self <| alpha := ewma (alpha self) (marked_in_window self) (acked_in_window self) |> in
  let cwnd_before := cwnd self in
  let? self :=
    if 0 <? marked_in_window self then
      let? cut := synth_eval (ecn (prog self)) (signals self (cwnd self) 0) in
      let self := self <| cwnd := synth_to_cwnd (fmul (f_of (cwnd self)) (fsub f_one cut)) (mss self) |> in
      Some (self <| ssthresh := cwnd self |> <| ca_acc := 0 |>)
    else Some self in
  Some (self <| acked_in_window := 0 |> <| marked_in_window := 0 |>
             <| window_bytes := Z.max cwnd_before (mss self) |>).

Definition on_rtt_sample (self : Synth) (srtt_us_ : Z) : option Synth :=
  let self := self <| srtt_us := srtt_us_ |> in
  Some (if 0 <? srtt_us_ then
    self <| rtt_min_us := if rtt_min_us self =? 0 then srtt_us_ else Z.min (rtt_min_us self) srtt_us_ |>
  else self).

#[export] Instance Synth_control : CongestionControl Synth := {
  cc_cwnd := cwnd;
  cc_ssthresh := ssthresh;
  cc_on_ack := on_ack;
  cc_on_dup_ack := on_dup_ack;
  cc_enter_recovery := enter_recovery;
  cc_on_rto := on_rto;
  cc_set_mss := set_mss;
  cc_pacing_rate := default_pacing_rate;
  cc_on_transmit := default_on_transmit;
  cc_on_ack_sample := default_on_ack_sample;
  cc_on_ecn := on_ecn;
  cc_on_rtt_sample := on_rtt_sample;
}.
End Synth.

(** *** The register machine is total *)

(** A program as the fixed-size array holds it. *)
Definition code_ok (prog : list Instr) : Prop :=
  zlen prog = SYNTH_PROG_LEN /\ Forall (fun i => 0 <= a i /\ 0 <= b i) prog.
Definition program_ok (p : ControlProgram) : Prop := code_ok (inc p) /\ code_ok (md p) /\ code_ok (ecn p).

Lemma guard_finite v : f64_ok v -> finite_ok (synth_guard v).
Proof.
  intros Hv. unfold synth_guard, clamp_f64.
  assert (Hc : exists m e, SYNTH_CAP = S754_finite false m e /\ -1074 <= e <= 971) by (eexists _, _; split; [vm_compute; reflexivity|lia]).
  destruct Hc as (m & e & -> & He). destruct v as [s|[]| |s mv ev]; try done; cbn [is_nan].
  all: case_ifs; done.
Qed.

Lemma eval_op_ok o x y : f64_ok x -> f64_ok y -> f64_ok (eval_op o x y).
Proof.
  intros Hx Hy. destruct o; cbn [eval_op]; case_ifs; try done;
    [by apply fadd_ok|by apply fsub_ok|apply fmul_ok|apply fdiv_ok].
Qed.

Lemma at_store {A} (l : list A) n v :
  0 <= n < zlen l -> exists l', store l n v = Some l' /\ zlen l' = zlen l /\
    forall i, at_ l' i = if i =? n then Some v else at_ l i.
Proof.
  intros Hn. destruct (store l n v) as [l'|] eqn:E; unfold store in E.
  2: { rewrite splice_Some in E by (change (zlen [v]) with 1; lia). done. }
  exists l'. split; [done|]. split; [by apply zlen_splice in E|]. intros j. rewrite (at_splice _ _ _ _ j E).
  change (zlen [v]) with 1. destruct (j =? n) eqn:Ej.
  - replace ((n <=? j) && (j <? n + 1)) with true by lia. by replace (j - n) with 0 by lia.
  - by replace ((n <=? j) && (j <? n + 1)) with false by lia.
Qed.

(** After [t] instructions: sixteen registers, the inputs untouched and the
    computed ones finite. *)
Definition regs_ok (inputs : list f64) (t : Z) (reg : list f64) : Prop :=
  zlen reg = 16 /\ (forall i x, at_ reg i = Some x -> f64_ok x) /\
  (forall i, 0 <= i < 8 -> at_ reg i = at_ inputs i) /\
  (forall i x, 8 <= i < 8 + t -> at_ reg i = Some x -> finite_ok x).

Lemma exec_step inputs ins prog t reg :
  regs_ok inputs t reg -> 0 <= t < 8 -> 0 <= a ins /\ 0 <= b ins ->
  exists x y reg', at_ reg (Z.min (a ins) (8 + t - 1)) = Some x /\ at_ reg (Z.min (b ins) (8 + t - 1)) = Some y /\
    exec (ins :: prog) t reg = exec prog (t + 1) reg' /\ regs_ok inputs (t + 1) reg' /\
    at_ reg' (8 + t) = Some (synth_guard (eval_op (op ins) x y)).
Proof.
  intros (Hl & Hok & Hin & Hfin) Ht [Ha Hb].
  destruct (at_is_Some reg (Z.min (a ins) (8 + t - 1)) ltac:(lia)) as [x Hx].
  destruct (at_is_Some reg (Z.min (b ins) (8 + t - 1)) ltac:(lia)) as [y Hy].
  cbn [exec]. unfold SYNTH_REGS_IN. rewrite Hx, Hy.
  set (v := synth_guard _).
  assert (Hvf : finite_ok v) by (apply guard_finite, eval_op_ok; eauto).
  destruct (at_store reg (8 + t) v ltac:(lia)) as (reg' & E & Hl' & Hat). rewrite E.
  exists x, y, reg'. split; [done|]. split; [done|]. split; [done|].
  split; [|rewrite Hat; by rewrite Z.eqb_refl]. split; [lia|]. split; [|split].
  - intros i z. rewrite Hat. case_ifs; [intros [= <-]; by apply finite_ok_ok|apply Hok].
  - intros i Hi. rewrite Hat. replace (i =? 8 + t) with false by lia. by apply Hin.
  - intros i z Hi. rewrite Hat. destruct (i =? 8 + t) eqn:E8; [by intros [= <-]|]. apply Hfin. lia.
Qed.

Lemma exec_ok inputs prog : forall t reg,
  regs_ok inputs t reg -> Forall (fun i => 0 <= a i /\ 0 <= b i) prog -> 0 <= t -> t + zlen prog <= 8 ->
  exists reg', exec prog t reg = Some reg' /\ regs_ok inputs (t + zlen prog) reg'.
Proof.
  induction prog as [|ins prog IH]; intros t reg Hr Hf Ht Hl.
  { exists reg. change (zlen (@nil Instr)) with 0. by rewrite Z.add_0_r. }
  apply List.Forall_cons_iff in Hf as [Hi Hf]. rewrite zlen_cons in Hl. pose proof (zlen_nonneg prog).
  destruct (exec_step inputs ins prog t reg Hr ltac:(lia) Hi) as (_ & _ & reg1 & _ & _ & -> & Hr1 & _).
  destruct (IH (t + 1) reg1 Hr1 Hf ltac:(lia) ltac:(lia)) as (reg' & E & Hr').
  exists reg'. split; [exact E|]. rewrite zlen_cons. by replace (t + (1 + zlen prog)) with (t + 1 + zlen prog) by lia.
Qed.

(** Running a program in two parts. *)
Lemma exec_app pre post : forall t reg reg1,
  exec pre t reg = Some reg1 -> exec (pre ++ post) t reg = exec post (t + zlen pre) reg1.
Proof.
  induction pre as [|i pre IH]; intros t reg reg1 E; cbn [app exec] in *.
  - injection E as ->. change (zlen (@nil Instr)) with 0. by rewrite Z.add_0_r.
  - destruct (at_ reg _) as [x|]; [|done]. destruct (at_ reg _) as [y|]; [|done].
    destruct (store _ _ _) as [reg'|]; [|done]. rewrite (IH _ _ _ E), zlen_cons.
    by replace (t + 1 + zlen pre) with (t + (1 + zlen pre)) by lia.
Qed.

Definition inputs_ok (inputs : list f64) : Prop := zlen inputs = 8 /\ Forall f64_ok inputs.

Lemma initial_regs inputs :
  inputs_ok inputs -> exists reg, splice (zrepeat f_zero 16) 0 inputs = Some reg /\ regs_ok inputs 0 reg.
Proof.
  intros [Hl Hok].
  assert (Hz : zlen (zrepeat f_zero 16) = 16) by reflexivity.
  destruct (splice (zrepeat f_zero 16) 0 inputs) as [reg|] eqn:E; [|rewrite splice_Some in E by lia; done].
  exists reg. split; [done|].
  assert (Hat : forall i, at_ reg i = if (0 <=? i) && (i <? 8) then at_ inputs i else at_ (zrepeat f_zero 16) i).
  { intros i. rewrite (at_splice _ _ _ _ i E), Hl. by rewrite Z.sub_0_r. }
  split; [by apply zlen_splice in E|]. split; [|split].
  - intros i x. rewrite Hat. rewrite Forall_lookup in Hok. unfold at_. case_ifs; try done; [apply Hok|].
    unfold zrepeat. intros [-> _]%lookup_replicate. done.
  - intros i Hi. rewrite Hat. by replace ((0 <=? i) && (i <? 8)) with true by lia.
  - intros. lia.
Qed.

(** A well-formed program on any signals: a finite number, whatever the operations. *)
Lemma synth_eval_total prog inputs :
  code_ok prog -> inputs_ok inputs -> exists v, synth_eval prog inputs = Some v /\ finite_ok v.
Proof.
  intros [Hl Hf] Hin. unfold synth_eval. change (SYNTH_REGS_IN + SYNTH_PROG_LEN) with 16.
  destruct (initial_regs inputs Hin) as (reg & -> & Hr).
  unfold SYNTH_PROG_LEN in Hl.
  destruct (exec_ok inputs prog 0 reg Hr Hf ltac:(lia) ltac:(lia)) as (reg' & -> & (Hl' & _ & _ & Hfin)).
  destruct (at_is_Some reg' 15 ltac:(lia)) as [v Hv]. exists v. split; [exact Hv|].
  apply (Hfin 15); [lia|exact Hv].
Qed.

(** A program whose output instruction was overwritten computes that
    instruction over the register before it and the inputs. *)
Lemma synth_eval_output prog inputs o r y :
  code_ok prog -> inputs_ok inputs -> 0 <= r < 8 -> at_ inputs r = Some y ->
  exists x, finite_ok x /\
    synth_eval (set_output prog (mkInstr o OUT_PREV r)) inputs = Some (synth_guard (eval_op o x y)).
Proof.
  intros [Hl Hf] Hin Hr Hy. unfold SYNTH_PROG_LEN in Hl.
  assert (Hp : exists pre last, prog = pre ++ [last] /\ zlen pre = 7).
  { destruct prog as [|i prog] using List.rev_ind; [done|]. exists prog, i. split; [done|].
    rewrite zlen_app in Hl. change (zlen [i]) with 1 in Hl. lia. }
  destruct Hp as (pre & last & -> & Hpre).
  assert (Es : set_output (pre ++ [last]) (mkInstr o OUT_PREV r) = pre ++ [mkInstr o OUT_PREV r]).
  { unfold set_output. change (Z.to_nat (SYNTH_PROG_LEN - 1)) with (7 + 0)%nat.
    replace 7%nat with (length pre) by (unfold zlen in Hpre; lia). by rewrite insert_app_r. }
  rewrite Es. unfold synth_eval. change (SYNTH_REGS_IN + SYNTH_PROG_LEN) with 16.
  destruct (initial_regs inputs Hin) as (reg & -> & Hr0).
  apply Forall_app in Hf as [Hf _].
  destruct (exec_ok inputs pre 0 reg Hr0 Hf ltac:(lia) ltac:(lia)) as (reg1 & E1 & Hr1). rewrite Hpre in Hr1.
  assert (Ea : exec (pre ++ [mkInstr o OUT_PREV r]) 0 reg = exec [mkInstr o OUT_PREV r] 7 reg1)
    by (rewrite (exec_app pre _ 0 reg reg1 E1), Hpre; reflexivity).
  rewrite Ea. destruct (exec_step inputs (mkInstr o OUT_PREV r) [] 7 reg1 Hr1 ltac:(lia)) as (x & y' & reg' & Hx & Hy' & Ex & _ & Ho).
  { cbn. unfold OUT_PREV, SYNTH_REGS_IN, SYNTH_PROG_LEN. lia. }
  rewrite Ex. cbn [exec]. exists x. cbn [a b op] in *. replace (Z.min OUT_PREV (8 + 7 - 1)) with 14 in Hx by reflexivity.
  replace (Z.min r (8 + 7 - 1)) with r in Hy' by lia. destruct Hr1 as (_ & _ & Hin1 & Hfin).
  rewrite Hin1, Hy in Hy' by lia. injection Hy' as <-. split; [apply (Hfin 14); [lia|exact Hx]|]. exact Ho.
Qed.

(** *** Windows from numbers *)

Lemma upto_one_finite x : upto x 1 0 -> finite_ok x.
Proof.
  destruct x as [s| | |[] m e]; try done. intros [He Hx]. cbn. split; [done|].
  destruct (Z.le_gt_cases e 971); [done|]. exfalso. rewrite (pw_split 0 e) in Hx by lia.
  assert (0 < pw 0) by (apply pw_pos; lia). assert (Hw : 2 ^ 1 <= 2 ^ (e - 0)) by (apply Z.pow_le_mono_r; lia).
  change (2 ^ 1) with 2 in Hw. generalize dependent (2 ^ (e - 0)). intros w Hx Hw.
  assert (1 * (pw 0 * w) <= Z.pos m * (pw 0 * w)) by (apply Z.mul_le_mono_nonneg_r; nia). nia.
Qed.

Lemma not_above n x : 0 < n < 2 ^ 53 -> f64_ok x -> fgt x (f_of n) = false -> atmost x n 0.
Proof.
  intros Hn Hx Hgt. destruct (f_of_exact n Hn) as (m & e & E & He & Hv). unfold fgt in Hgt. rewrite E in Hgt.
  apply (atmost_weaken x (Z.pos m) e n 0); [apply flt_atmost; [exact Hx|lia|exact Hgt]|lia].
Qed.

Lemma to_cwnd_range v floor :
  f64_ok v -> is_nan v = false -> 0 < floor <= 2 ^ 30 -> floor <= synth_to_cwnd v floor <= 2 ^ 30.
Proof.
  intros Hv Hn Hf. unfold synth_to_cwnd, SYNTH_CWND_CAP.
  destruct (flt v (f_of floor)) eqn:E1; [lia|]. destruct (fgt v (f_of (2 ^ 30))) eqn:E2; [lia|].
  split; [by apply f_to_lower; try lia|].
  pose proof (f_to_atmost U32_MAX v (2 ^ 30) ltac:(lia) (not_above (2 ^ 30) v ltac:(lia) Hv E2)). unfold f_to_u32. lia.
Qed.

(** At least [n] in, at least [n] out, up to the cap. *)
Lemma to_cwnd_atleast v floor n :
  f64_ok v -> atleast v n 0 -> 0 < floor < 2 ^ 53 -> 0 <= n <= 2 ^ 30 -> n <= synth_to_cwnd v floor.
Proof.
  intros Hv Ha Hf Hn. pose proof (f_to_atleast U32_MAX v n ltac:(lia) Ha) as Hl.
  unfold synth_to_cwnd, SYNTH_CWND_CAP, f_to_u32.
  destruct (flt v (f_of floor)) eqn:E1; [|destruct (fgt _ _); lia].
  pose proof (flt_atmost_trans v (f_of floor) floor 0 Hv (f_of_ok _) E1 (upto_atmost _ _ _ (upto_of floor ltac:(lia)))) as Hb.
  pose proof (f_to_atmost U32_MAX v floor ltac:(lia) Hb). lia.
Qed.

(** At most [n] in, at most [n] or the floor out. *)
Lemma to_cwnd_atmost v floor n :
  f64_ok v -> atmost v n 0 -> 0 <= n -> synth_to_cwnd v floor <= Z.max n floor.
Proof.
  intros Hv Ha Hn. unfold synth_to_cwnd, SYNTH_CWND_CAP, f_to_u32.
  destruct (flt v (f_of floor)); [lia|]. destruct (fgt v (f_of (2 ^ 30))) eqn:E2.
  - pose proof (flt_of_le (2 ^ 30) v n ltac:(lia) Hv E2 Hn Ha). lia.
  - pose proof (f_to_atmost U32_MAX v n Hn Ha). lia.
Qed.

(** The same on a fractional grid. *)
Lemma to_cwnd_atmost_grid v floor B k :
  f64_ok v -> 0 <= B -> 0 <= k <= 1000 -> atmost v B (- k) -> synth_to_cwnd v floor <= Z.max (B / 2 ^ k) floor.
Proof.
  intros Hv HB Hk Ha. unfold synth_to_cwnd, SYNTH_CWND_CAP, f_to_u32. pose proof (Z.div_pos B (2 ^ k) HB ltac:(lia)).
  destruct (flt v (f_of floor)); [lia|]. destruct (fgt v (f_of (2 ^ 30))) eqn:E2.
  - pose proof (flt_atmost_trans _ _ _ _ (f_of_ok (2 ^ 30)) Hv E2 Ha) as H1.
    pose proof (f_to_atmost_grid U32_MAX _ B k HB Hk H1) as H2. rewrite f_to_of in H2 by lia. lia.
  - pose proof (f_to_atmost_grid U32_MAX v B k HB Hk Ha). lia.
Qed.

(** Guarding keeps an upper bound and a sign. *)
Lemma guard_atmost v B g : f64_ok v -> atmost v B g -> atmost (synth_guard v) B g.
Proof.
  intros Hv Ha. unfold synth_guard, clamp_f64. destruct (is_nan v); [done|].
  destruct (flt v (fneg SYNTH_CAP)); [by vm_compute|].
  destruct (fgt v SYNTH_CAP) eqn:E; [|done]. apply (flt_atmost_trans SYNTH_CAP v B g (f_of_ok _) Hv E Ha).
Qed.
Lemma flt_negative v m e : nonneg v -> flt v (S754_finite true m e) = false.
Proof.
  intros Hv. unfold flt. destruct v as [s|s| |s mv ev]; cbn in *; try subst s; try done.
  rewrite !Z.shiftl_mul_pow2 by lia.
  assert (0 <= 2 ^ (ev - Z.min ev e)) by (apply Z.pow_nonneg; lia).
  assert (0 < 2 ^ (e - Z.min ev e)) by (apply Z.pow_pos_nonneg; lia).
  cbn [cond_Zopp]. by rewrite (proj2 (Z.compare_gt_iff _ _)) by nia.
Qed.
Lemma guard_nonneg v : nonneg v -> nonneg (synth_guard v).
Proof.
  intros Hv. unfold synth_guard, clamp_f64. destruct (is_nan v); [done|].
  assert (Hc : exists m e, fneg SYNTH_CAP = S754_finite true m e /\ SYNTH_CAP = S754_finite false m e)
    by (eexists _, _; split; vm_compute; reflexivity).
  destruct Hc as (m & e & -> & ->). rewrite flt_negative by done. by destruct (fgt v _).
Qed.

Module SynthFacts.
Import Synth.

Lemma grow_loop_ok fuel : forall step m acc cwnd,
  f64_ok step -> is_nan step = false -> 0 < m <= U16_MAX -> m <= cwnd <= U32_MAX -> 0 <= acc <= U32_MAX ->
  (Z.to_nat (acc / m) < fuel)%nat ->
  exists acc' cwnd', grow_loop fuel step m acc cwnd = Some (acc', cwnd') /\
    m <= cwnd' <= U32_MAX /\ 0 <= acc' <= acc /\
    (nonneg step -> cwnd <= 2 ^ 30 -> cwnd <= cwnd' <= 2 ^ 30).
Proof.
  induction fuel as [|fuel IH]; intros step m acc cwnd Hok Hnan Hm Hc Ha Hf; [lia|]. cbn [grow_loop].
  destruct (cwnd <=? acc) eqn:E; [|exists acc, cwnd; split_and!; done || lia].
  set (v := fadd (f_of cwnd) step). assert (Hv : f64_ok v) by (apply fadd_ok; [apply f_of_ok|done]).
  assert (Hn : is_nan v = false) by (apply fadd_not_nan; [apply f_of_finite; lia|done]).
  pose proof (to_cwnd_range v m Hv Hn ltac:(lia)) as Hw.
  destruct (IH step m (acc - cwnd) (synth_to_cwnd v m)) as (a' & c' & -> & H1 & H2 & H3); try done; try lia.
  { assert (Hdec : (acc - cwnd) / m <= acc / m - 1).
    { replace (acc / m - 1) with ((acc + - 1 * m) / m) by (rewrite Z.div_add by lia; lia). apply Z.div_le_mono; lia. }
    assert (0 <= (acc - cwnd) / m) by (apply Z.div_pos; lia). lia. }
  exists a', c'. split; [done|]. split; [done|]. split; [lia|]. intros Hs Hcap.
  assert (Hge : cwnd <= synth_to_cwnd v m).
  { apply to_cwnd_atleast; [done|by apply add_atleast; try lia|lia|lia]. }
  specialize (H3 Hs ltac:(lia)). lia.
Qed.

Definition ok (m : Z) (self : Synth) : Prop :=
  window_ok m (cwnd self) (ssthresh self) (mss self) (ca_acc self) (dup_acks self) (alpha self)
    (acked_in_window self) (marked_in_window self) /\ program_ok (prog self).

Lemma synth_new_ok m prog : 0 < m <= U16_MAX -> program_ok prog -> ok m (with_program m prog).
Proof. unfold with_program, initial_window. intros. split; [|done]. split; cbn; try lia. exact upto_one. Qed.

Lemma signals_ok self flight acked : upto (alpha self) 1 0 -> inputs_ok (signals self flight acked).
Proof.
  intros Ha. split; [done|]. unfold signals. cbv zeta. repeat apply List.Forall_cons; try apply List.Forall_nil;
    try apply fdiv_ok; [by apply finite_ok_ok, upto_one_finite|case_ifs; [apply fdiv_ok|]|..]; by vm_compute.
Qed.

Lemma seed_code_ok o r s : 0 <= r /\ 0 <= s -> code_ok (seed_prog o r s).
Proof.
  intros Hrs. split; [done|]. apply List.Forall_cons; [exact Hrs|]. cbn.
  unfold SYNTH_REGS_IN. repeat apply List.Forall_cons; try apply List.Forall_nil; cbn; lia.
Qed.
Lemma AIMD_ok : program_ok AIMD.
Proof. split_and!; apply seed_code_ok; unfold R_ONE, R_FLIGHT, R_HALF, R_ALPHA; lia. Qed.

Lemma loss_target_ok m self flight :
  ok m self -> exists t, loss_target self flight = Some t /\ 2 * m <= t <= 2 ^ 30.
Proof.
  intros [Hw (_ & Hmd & _)]. pose proof Hw as [[Em Hm] _ _ _ _ Hal _]. unfold loss_target.
  destruct (synth_eval_total (md (prog self)) (signals self flight 0) Hmd (signals_ok _ _ _ Hal)) as (v & -> & Hv).
  eexists. split; [done|]. rewrite Em. apply to_cwnd_range; [apply fmul_ok| |lia].
  apply fmul_not_nan; [done|apply f_of_finite; lia].
Qed.

Lemma synth_on_ack_spec m self now acked :
  ok m self -> is_u32 acked -> exists self', on_ack self now acked = Some self' /\ ok m self' /\
    ((forall v, synth_eval (inc (prog self)) (signals self (cwnd self) acked) = Some v -> nonneg v) ->
     cwnd self <= 2 ^ 30 -> cwnd self <= cwnd self').
Proof.
  intros [Hw Hp] Ha. pose proof Hw as [[Em Hm] Hc Hs Hacc Hd Hal Ho]. unfold on_ack.
  destruct (acked =? 0) eqn:E0.
  { eexists. split; [done|]. split; [|done]. split; [|exact Hp]. cbn. rewrite Em. split; done || lia. }
  change (in_slow_start (self <| dup_acks := 0 |>)) with (in_slow_start self). unfold is_u32 in Ha.
  destruct (in_slow_start self) eqn:Ess.
  { eexists. split; [done|]. unfold sat_add32. split; [|intros _ _; cbn; lia].
    split; [|exact Hp]. cbn. rewrite Em. split; done || lia. }
  set (self1 := self <| dup_acks := 0 |> <| ca_acc := _ |>).
  destruct (synth_eval_total (inc (prog self1)) (signals self1 (cwnd self1) acked) (proj1 Hp) (signals_ok self1 _ _ Hal))
    as (v & Ev & Hv). rewrite Ev.
  change (mss self1) with (mss self). change (cwnd self1) with (cwnd self).
  change (ca_acc self1) with (sat_add32 (ca_acc self) acked). rewrite Em.
  destruct (grow_loop_ok (grow_fuel (sat_add32 (ca_acc self) acked) m) (fmul v (f_of m)) m
    (sat_add32 (ca_acc self) acked) (cwnd self)) as (a' & c' & -> & H1 & H2 & H3);
    try done; try (unfold sat_add32; lia).
  { apply fmul_ok. } { apply fmul_not_nan; [done|apply f_of_finite; lia]. }
  { unfold grow_fuel. rewrite Z.max_r by lia. lia. }
  eexists. split; [done|]. split.
  - split; [|exact Hp]. cbn. rewrite Em. unfold sat_add32 in H2. split; done || lia.
  - intros Hnn Hcap. apply H3; [|exact Hcap]. apply mul_nonneg; [by apply Hnn|].
    exact (upto_nonneg _ _ _ (upto_of m ltac:(lia))).
Qed.

(** A program that carries its first result through to the output. *)
Lemma carry_ok inputs n : forall t reg v,
  regs_ok inputs t reg -> 1 <= t -> t + Z.of_nat n = 8 -> at_ reg (7 + t) = Some v -> synth_guard v = v ->
  exists reg', exec (map (fun i => let prev := SYNTH_REGS_IN + i - 1 in mkInstr OpMax prev prev) (seqZ t (Z.of_nat n))) t reg
    = Some reg' /\ at_ reg' 15 = Some v.
Proof.
  induction n as [|n IH]; intros t reg v Hr Ht Hn Hv Hg.
  { exists reg. split; [done|]. by replace 15 with (7 + t) by lia. }
  rewrite seqZ_cons by lia. rewrite (map_cons _ t). set (rest := map _ _). unfold SYNTH_REGS_IN.
  destruct (exec_step inputs (mkInstr OpMax (8 + t - 1) (8 + t - 1)) rest t reg Hr ltac:(lia))
    as (x & y & reg1 & Hx & Hy & -> & Hr1 & Ho); [cbn; lia|]. unfold rest.
  cbn [a b op] in *. rewrite Z.min_id in Hx, Hy. replace (8 + t - 1) with (7 + t) in Hx, Hy by lia.
  rewrite Hv in Hx, Hy. injection Hx as <-. injection Hy as <-.
  replace (eval_op OpMax v v) with v in Ho by (cbn; by destruct (fgt v v)). rewrite Hg in Ho.
  replace (Z.succ t) with (t + 1) by lia. replace (Z.pred (Z.of_nat (S n))) with (Z.of_nat n) by lia.
  apply IH; try lia; try done. by replace (7 + (t + 1)) with (8 + t) by lia.
Qed.

Lemma guard_idem v : f64_ok v -> synth_guard (synth_guard v) = synth_guard v.
Proof.
  intros Hv. assert (H : forall c d, flt d d = false -> flt c c = false -> flt c d = false -> is_nan c = false -> is_nan d = false ->
    let g := fun v => if is_nan v then f_zero else clamp_f64 v d c in flt f_zero d = false -> flt c f_zero = false ->
    g (g v) = g v).
  { intros c d Hd Hc Hcd Hnc Hnd g Hz1 Hz2. unfold g, clamp_f64, fgt. destruct (is_nan v) eqn:En.
    - cbn [is_nan f_zero]. by rewrite Hz1, Hz2.
    - destruct (flt v d) eqn:E1; [by rewrite Hnd, Hd, Hcd|]. destruct (flt c v) eqn:E2; [by rewrite Hnc, Hcd, Hc|].
      by rewrite En, E1, E2. }
  apply H; vm_compute; reflexivity.
Qed.

(** The output is a guarded number. *)
Lemma synth_eval_guarded prog inputs :
  code_ok prog -> inputs_ok inputs -> exists x, f64_ok x /\ synth_eval prog inputs = Some (synth_guard x).
Proof.
  intros [Hl Hf] Hin. unfold SYNTH_PROG_LEN in Hl.
  assert (Hp : exists pre last, prog = pre ++ [last] /\ zlen pre = 7).
  { destruct prog as [|i prog] using List.rev_ind; [done|]. exists prog, i. split; [done|].
    rewrite zlen_app in Hl. change (zlen [i]) with 1 in Hl. lia. }
  destruct Hp as (pre & last & -> & Hpre). apply Forall_app in Hf as [Hf1 Hf2]. apply List.Forall_cons_iff in Hf2 as [Hf2 _].
  unfold synth_eval. change (SYNTH_REGS_IN + SYNTH_PROG_LEN) with 16.
  destruct (initial_regs inputs Hin) as (reg & -> & Hr0).
  destruct (exec_ok inputs pre 0 reg Hr0 Hf1 ltac:(lia) ltac:(lia)) as (reg1 & E1 & Hr1). rewrite Hpre in Hr1.
  rewrite (exec_app pre [last] 0 reg reg1 E1), Hpre.
  destruct (exec_step inputs last [] 7 reg1 Hr1 ltac:(lia) Hf2) as (x & y & reg' & Hx & Hy & Ex & _ & Ho).
  exists (eval_op (op last) x y). destruct Hr1 as (_ & Hok & _). split; [apply eval_op_ok; eauto|].
  change (0 + 7) with 7. rewrite Ex. exact Ho.
Qed.

Lemma synth_eval_seed inputs o r s x y :
  inputs_ok inputs -> 0 <= r < 8 -> 0 <= s < 8 -> at_ inputs r = Some x -> at_ inputs s = Some y -> f64_ok x -> f64_ok y ->
  synth_eval (seed_prog o r s) inputs = Some (synth_guard (eval_op o x y)).
Proof.
  intros Hin Hr Hs Hx Hy Hox Hoy. unfold synth_eval. change (SYNTH_REGS_IN + SYNTH_PROG_LEN) with 16.
  destruct (initial_regs inputs Hin) as (reg & -> & Hr0). unfold seed_prog. set (rest := map _ _).
  destruct (exec_step inputs (mkInstr o r s) rest 0 reg Hr0 ltac:(lia))
    as (x' & y' & reg1 & Hx' & Hy' & -> & Hr1 & Ho); [cbn; lia|].
  cbn [a b op] in *. rewrite !Z.min_l in Hx', Hy' by lia. destruct Hr0 as (_ & _ & Hi & _).
  rewrite Hi, Hx in Hx' by lia. rewrite Hi, Hy in Hy' by lia. injection Hx' as <-. injection Hy' as <-.
  assert (Hv : f64_ok (eval_op o x y)) by (by apply eval_op_ok).
  destruct (carry_ok inputs 7 1 reg1 (synth_guard (eval_op o x y)) Hr1 ltac:(lia) ltac:(lia) Ho (guard_idem _ Hv)) as (reg' & E & Hf).
  assert (E1 : exec rest (0 + 1) reg1 = Some reg') by exact E. rewrite E1. exact Hf.
Qed.

(** *** The live controller *)

Lemma one_finite : finite_ok f_one.
Proof. by vm_compute. Qed.
Lemma signal_alpha self flight acked : at_ (signals self flight acked) R_ALPHA = Some (alpha self).
Proof. reflexivity. Qed.
Lemma signal_half self flight acked : at_ (signals self flight acked) R_HALF = Some f_half.
Proof. reflexivity. Qed.
Lemma signal_flight self flight acked :
  at_ (signals self flight acked) R_FLIGHT = Some (fdiv (f_of flight) (f_of (Z.max (mss self) 1))).
Proof. reflexivity. Qed.

(** The baseline ECN response, alpha / 2, is not negative. *)
Lemma aimd_ecn_nonneg self flight acked cut :
  upto (alpha self) 1 0 -> synth_eval (ecn AIMD) (signals self flight acked) = Some cut -> nonneg cut.
Proof.
  intros Hal. change (ecn AIMD) with (seed_prog OpMul R_ALPHA R_HALF).
  rewrite (synth_eval_seed _ OpMul R_ALPHA R_HALF (alpha self) f_half (signals_ok self flight acked Hal)).
  - intros [= <-]. apply guard_nonneg. cbn [eval_op]. apply mul_nonneg; [exact (upto_nonneg _ _ _ Hal)|by vm_compute].
  - by vm_compute.
  - by vm_compute.
  - apply signal_alpha.
  - apply signal_half.
  - exact (finite_ok_ok _ (upto_one_finite _ Hal)).
  - by vm_compute.
Qed.

Lemma window_set_ok m cwnd ssthresh ca_acc dups alpha acked marked alpha' c :
  window_ok m cwnd ssthresh m ca_acc dups alpha acked marked -> upto alpha' 1 0 -> m <= c <= U32_MAX ->
  window_ok m c c m 0 dups alpha' 0 0.
Proof. intros [[_ Hm] Hc Hs Ha Hd _ _] Hal Hr. split; done || lia. Qed.

Lemma synth_on_ecn_spec m self now acked marked :
  ok m self -> is_u32 acked -> is_u32 marked ->
  exists self', on_ecn self now acked marked = Some self' /\ ok m self' /\
    (ecn (prog self) = ecn AIMD -> cwnd self' <= cwnd self).
Proof.
  intros [Hok Hp] Ha Hk. destruct (wk_mss _ _ _ _ _ _ _ _ _ Hok) as [Em Hm]. unfold on_ecn.
  destruct (acked =? 0) eqn:E0; [by exists self; split_and!; try done; lia|]. rewrite Em in Hok.
  destruct (observe_ok _ _ _ _ _ _ _ _ acked marked Hok Ha Hk) as (Hok1 & Hpos & Hal). specialize (Hal ltac:(lia)).
  pose proof (wk_cwnd _ _ _ _ _ _ _ _ _ Hok) as Hc. cbn [acked_in_window marked_in_window window_bytes].
  set (self1 := self <| acked_in_window := _ |> <| marked_in_window := _ |>).
  destruct (acked_in_window self1 <? window_bytes self1).
  { eexists. split; [done|]. split; [split; [cbn; rewrite Em; exact Hok1|exact Hp]|cbn; lia]. }
  set (self2 := self1 <| alpha := _ |>).
  destruct (0 <? marked_in_window self2).
  2: { eexists. split; [done|]. split; [split; [|exact Hp]|cbn; lia]. cbn. rewrite Em.
       eapply window_closed_ok; [exact Hok1|exact Hal]. }
  assert (Hin : inputs_ok (signals self2 (cwnd self2) 0)) by exact (signals_ok self2 _ _ Hal).
  destruct (synth_eval_total (ecn (prog self2)) _ (proj2 (proj2 Hp)) Hin) as (cut & Ecut & Hcut). rewrite Ecut.
  set (v := fmul (f_of (cwnd self2)) (fsub f_one cut)).
  assert (Hv : f64_ok v) by apply fmul_ok.
  assert (Hn : is_nan v = false).
  { apply of_mul_not_nan; [change (cwnd self2) with (cwnd self); lia|].
    apply fsub_not_nan; [exact one_finite|exact (finite_not_nan _ Hcut)]. }
  pose proof (to_cwnd_range v m Hv Hn ltac:(lia)) as Hw.
  eexists. split; [change (mss self2) with (mss self); rewrite Em; reflexivity|]. split.
  { split; [cbn; rewrite Em; eapply window_set_ok; [exact Hok1|exact Hal|lia]|exact Hp]. }
  intros He. change (prog self2) with (prog self) in Ecut. rewrite He in Ecut.
  assert (Hcn : nonneg cut) by exact (aimd_ecn_nonneg self2 (cwnd self2) 0 cut Hal Ecut).
  assert (Hle : atmost v (cwnd self) 0).
  { apply (mul_atmost _ _ (cwnd self) 0 1 0); try lia; [apply upto_of; lia| |split; lia|change (0 + 0) with 0; lia].
    apply sub_atmost; [exact upto_one|exact Hcn|by apply finite_ok_ok|exact rep_one]. }
  pose proof (to_cwnd_atmost v m (cwnd self) Hv Hle ltac:(lia)). change (synth_to_cwnd v m <= cwnd self). lia.
Qed.

Ltac synth_loss flight Hok :=
  destruct (loss_target_ok _ _ flight Hok) as (t & Et & Ht); rewrite Et; destruct Hok as [[[Em Hm] ??????] Hp].

#[export] Instance Synth_laws : CongestionLaws Synth.
Proof.
  unshelve econstructor; [exact ok|..].
  - intros m c [[] _]. done.
  - intros m c now acked Hok Ha. destruct (synth_on_ack_spec m c now acked Hok Ha) as (c' & H1 & H2 & _). eauto.
  - intros m c now flight Hok _. cbn. unfold on_dup_ack. set (c1 := c <| dup_acks := _ |>).
    assert (Hok1 : ok m c1) by (destruct Hok as [[[Em Hm] ??????] Hp]; split; [split; cbn; done || lia|done]).
    case_ifs; [|by eexists _, _]. synth_loss flight Hok1.
    eexists _, _. split; [done|]. split; [|done]. split; cbn in *; done || lia.
  - intros m c now flight Hok _. cbn. unfold enter_recovery. synth_loss flight Hok.
    eexists. split; [done|]. split; [|done]. split; cbn in *; done || lia.
  - intros m c now flight Hok _. cbn. unfold on_rto. synth_loss flight Hok.
    eexists. split; [done|]. split; [|done]. split; cbn in *; done || lia.
  - intros. eexists. by split.
  - intros. eexists. by split.
  - intros m c now acked marked Hok Ha Hk.
    destruct (synth_on_ecn_spec m c now acked marked Hok Ha Hk) as (c' & H1 & H2 & _). eauto.
  - intros m c srtt [Hw Hp]. cbn. unfold on_rtt_sample. eexists. split; [done|]. by case_ifs.
Defined.

(** *** The repairs *)

Lemma repair_program_ok p : program_ok p -> program_ok (repair_ecn (repair_increase (repair_loss p))).
Proof.
  assert (H : forall prog i, code_ok prog -> 0 <= a i /\ 0 <= b i -> code_ok (set_output prog i)).
  { intros prog i [Hl Hf] Hi. unfold set_output. split; [unfold zlen in *; by rewrite length_insert|]. by apply Forall_insert. }
  intros (Hi & Hm & He). split; [|split]; [| |exact (proj2 (proj2 AIMD_ok))]; apply H; try done; by vm_compute.
Qed.

Lemma flt_above_nonneg m e x : flt (S754_finite false m e) x = true -> nonneg x.
Proof.
  unfold flt. destruct x as [s|[]| |[] mx ex]; cbn [nonneg fcompare]; try done. cbn [cond_Zopp].
  rewrite !Z.shiftl_mul_pow2 by lia.
  assert (0 <= 2 ^ (ex - Z.min e ex)) by (apply Z.pow_nonneg; lia).
  assert (0 < 2 ^ (e - Z.min e ex)) by (apply Z.pow_pos_nonneg; lia).
  by rewrite (proj2 (Z.compare_gt_iff _ _)) by nia.
Qed.

(** The repaired increase is not negative, whatever the program computed. *)
Lemma repaired_increase_nonneg p self flight acked v :
  code_ok (inc p) -> upto (alpha self) 1 0 ->
  synth_eval (inc (repair_increase p)) (signals self flight acked) = Some v -> nonneg v.
Proof.
  intros Hp Hal. change (inc (repair_increase p)) with (set_output (inc p) (mkInstr OpMax OUT_PREV R_HALF)).
  destruct (synth_eval_output (inc p) (signals self flight acked) OpMax R_HALF f_half Hp (signals_ok self flight acked Hal))
    as (x & Hx & ->); [by vm_compute|apply signal_half|].
  intros [= <-]. apply guard_nonneg. cbn [eval_op]. unfold fgt.
  assert (Hh : exists m e, f_half = S754_finite false m e) by (eexists _, _; vm_compute; reflexivity).
  destruct Hh as (m & e & ->). destruct (flt _ x) eqn:E; [by eapply flt_above_nonneg|done].
Qed.

(** Segments in flight, rounded, on the grid of 2^-20. *)
Lemma segments_upto n m :
  0 <= n <= U32_MAX -> 0 < m <= U16_MAX -> upto (fdiv (f_of n) (f_of m)) (n * 2 ^ 20 / m + 1) (-20).
Proof.
  intros Hn Hm. destruct (Z.eq_dec n 0) as [->|Hne].
  { destruct (f_of_exact m) as (mm & em & -> & _); [lia|]. done. }
  destruct (f_of_exact n) as (mn & en & -> & Hen & Hvn); [lia|].
  destruct (f_of_exact m) as (mm & em & -> & Hem & Hvm); [lia|].
  assert (Hq : n * 2 ^ 20 < (n * 2 ^ 20 / m + 1) * m) by (pose proof (Z.mul_succ_div_gt (n * 2 ^ 20) m ltac:(lia)); lia).
  assert (Hq0 : 0 <= n * 2 ^ 20 / m) by (apply Z.div_pos; lia).
  assert (Hq1 : n * 2 ^ 20 / m <= n * 2 ^ 20) by (apply Z.div_le_upper_bound; nia).
  apply div_upto; [lia|lia|split; lia|]. rewrite Hvn, Hvm. rewrite (pw_split (-20) 0) by lia.
  change (2 ^ (0 - -20)) with (2 ^ 20). assert (0 < pw (-20)) by (apply pw_pos; lia). nia.
Qed.

(** The repaired loss response never exceeds the pipe. *)
Lemma repaired_loss_bounded m p self flight t :
  ok m self -> code_ok (md p) -> md (prog self) = md (repair_loss p) -> is_u32 flight ->
  loss_target self flight = Some t -> t <= Z.max flight (2 * m).
Proof.
  intros [Hw _] Hp Emd Hfl. pose proof Hw as [[Em Hm] _ _ _ _ Hal _]. unfold is_u32 in Hfl.
  unfold loss_target. rewrite Emd, Em. change (md (repair_loss p)) with (set_output (md p) (mkInstr OpMin OUT_PREV R_FLIGHT)).
  destruct (synth_eval_output (md p) (signals self flight 0) OpMin R_FLIGHT (fdiv (f_of flight) (f_of m)) Hp
    (signals_ok self flight 0 Hal)) as (x & Hx & ->); [by vm_compute| |].
  { rewrite signal_flight, Em. by rewrite Z.max_l by lia. }
  intros [= <-]. pose proof (segments_upto flight m ltac:(lia) Hm) as Hu. set (B := flight * 2 ^ 20 / m + 1) in *.
  set (y := fdiv _ _) in *. assert (Hy : f64_ok y) by apply fdiv_ok.
  assert (Hq0 : 0 <= flight * 2 ^ 20 / m) by (apply Z.div_pos; lia).
  assert (Hq : B * m <= flight * 2 ^ 20 + m) by (unfold B; pose proof (Z.mul_div_le (flight * 2 ^ 20) m ltac:(lia)); lia).
  assert (Hr : atmost (synth_guard (eval_op OpMin x y)) B (-20)).
  { apply guard_atmost; [apply eval_op_ok; [by apply finite_ok_ok|exact Hy]|]. cbn [eval_op].
    destruct (flt x y) eqn:E; [|by apply upto_atmost].
    apply (flt_atmost_trans x y); [by apply finite_ok_ok|exact Hy|exact E|by apply upto_atmost]. }
  assert (Hv : atmost (fmul (synth_guard (eval_op OpMin x y)) (f_of m)) (B * m) (-20)).
  { rewrite fmul_comm. apply (mul_atmost _ _ m 0 B (-20)); try lia; [apply upto_of; lia|exact Hr|split; lia|].
    change (0 + -20) with (-20). lia. }
  pose proof (to_cwnd_atmost_grid _ (2 * m) (B * m) 20 (fmul_ok _ _) ltac:(lia) ltac:(lia) Hv) as Hc.
  assert (B * m / 2 ^ 20 <= flight).
  { apply Z.lt_succ_r, Z.div_lt_upper_bound; [lia|]. lia. }
  eapply Z.le_trans; [exact Hc|lia].
Qed.

(** *** What holds of every law, and of a repaired one *)

(** A synthesised law cannot break the connection: for ANY three
    programs of the register machine (any operations, any operand indices, even
    divisions by zero, infinities or NaNs on the way), any segment size and any
    sequence of acknowledgements, losses, timeouts, marks and RTT samples, the
    controller neither panics nor loops forever, and its window is never below
    one segment. *)
Lemma any_law_is_live m p es :
  0 < m <= U16_MAX -> program_ok p -> events_ok es ->
  exists self, feeds (with_program m p) es = Some self /\ m <= cwnd self <= U32_MAX /\ mss self = m.
Proof.
  intros Hm Hp Hes. assert (Hok : cc_ok m (with_program m p)) by exact (synth_new_ok m p Hm Hp).
  destruct (feeds_ok m es _ Hes Hok) as (self & Hs & [[[Em _] Hc _ _ _ _ _] _]). by exists self.
Qed.

(** A law that divides by zero, subtracts into the negative and overflows. *)
Definition wild_law : ControlProgram :=
  mkProgram (seed_prog OpSub 3 0) (seed_prog OpDiv 0 1) (seed_prog OpMul 0 0).
Lemma wild_law_ok : program_ok wild_law.
Proof. split; [|split]; apply seed_code_ok; lia. Qed.

Lemma any_law_is_live_witness :
  exists self, feeds (with_program 1460 wild_law) [(0, ERto 0); (1, EEnterRecovery 0); (2, EAck 4294967295); (3, EEcn 20000 20000); (4, EAck 9000)]
    = Some self /\ 1460 <= cwnd self.
Proof.
  destruct (any_law_is_live 1460 wild_law [(0, ERto 0); (1, EEnterRecovery 0); (2, EAck 4294967295); (3, EEcn 20000 20000); (4, EAck 9000)])
    as (self & H1 & H2 & _).
  - lia.
  - exact wild_law_ok.
  - repeat apply List.Forall_cons; try apply List.Forall_nil; cbn; unfold is_u32; lia.
  - exists self. split; [exact H1|exact (proj1 H2)].
Defined.

(** C33 — safety.  Each repair is sound for its clause, whatever the law was:
    after [repair_loss] a loss never leaves the window above the data in flight
    (or two segments); after [repair_increase] a clean acknowledgement never
    shrinks a window of at most 2^30 bytes; after [repair_ecn] a mark never
    grows the window.  Each touches only its own program. *)
Theorem repairs_are_sound m p self now n k :
  ok m self -> program_ok p -> is_u32 n -> is_u32 k ->
  (md (prog self) = md (repair_loss p) ->
     exists self', enter_recovery self now n = Some self' /\ cwnd self' <= Z.max n (2 * m) /\ ssthresh self' = cwnd self') /\
  (inc (prog self) = inc (repair_increase p) -> cwnd self <= SYNTH_CWND_CAP ->
     exists self', on_ack self now n = Some self' /\ cwnd self <= cwnd self') /\
  (ecn (prog self) = ecn (repair_ecn p) ->
     exists self', on_ecn self now n k = Some self' /\ cwnd self' <= cwnd self) /\
  (inc (repair_loss p), ecn (repair_loss p)) = (inc p, ecn p) /\
  (md (repair_increase p), ecn (repair_increase p)) = (md p, ecn p) /\
  (inc (repair_ecn p), md (repair_ecn p)) = (inc p, md p).
Proof.
  intros Hok Hp Hn Hk. split; [|split; [|split; [|by split]]].
  - intros E. unfold enter_recovery. destruct (loss_target_ok _ _ n Hok) as (t & Et & _). rewrite Et.
    eexists. split; [done|]. cbn. split; [|done].
    exact (repaired_loss_bounded m p self n t Hok (proj1 (proj2 Hp)) E Hn Et).
  - intros E Hcap. destruct (synth_on_ack_spec m self now n Hok Hn) as (self' & H1 & _ & H2). exists self'. split; [done|].
    apply H2; [|exact Hcap]. intros v. rewrite E. apply repaired_increase_nonneg; [exact (proj1 Hp)|].
    exact (wk_alpha _ _ _ _ _ _ _ _ _ (proj1 Hok)).
  - intros E. destruct (synth_on_ecn_spec m self now n k Hok Hn Hk) as (self' & H1 & _ & H2). exists self'.
    split; [done|]. by apply H2.
Qed.

Lemma repairs_are_sound_witness :
  exists self', enter_recovery (with_program 1460 (repair_loss wild_law)) 0 20000 = Some self' /\ cwnd self' <= 20000.
Proof.
  destruct (repairs_are_sound 1460 wild_law (with_program 1460 (repair_loss wild_law)) 0 20000 0) as (H & _).
  - split; [exact (proj1 (synth_new_ok 1460 wild_law ltac:(lia) wild_law_ok))|].
    split; [exact (proj1 wild_law_ok)|split; [|exact (proj2 (proj2 wild_law_ok))]]. split; [reflexivity|].
    repeat apply List.Forall_cons; try apply List.Forall_nil; cbn; unfold OUT_PREV, R_FLIGHT, SYNTH_REGS_IN, SYNTH_PROG_LEN; lia.
  - exact wild_law_ok.
  - unfold is_u32; lia.
  - unfold is_u32; lia.
  - destruct (H eq_refl) as (self' & H1 & H2 & _). exists self'. split; [exact H1|]. exact H2.
Defined.

(** The bound on the window matters: [synth_to_cwnd] caps at 2^30, so one byte
    above the cap a clean acknowledgement shrinks the window, the repaired
    increase included ("never shrinks cwnd", says its comment). *)
Lemma increase_shrinks_above_the_cap :
  let self := (with_program 1460 (repair_increase AIMD)) <| cwnd := 2 ^ 30 + 1 |> <| ssthresh := 2920 |> in
  ok 1460 self /\ exists self', on_ack self 0 (2 ^ 30 + 1) = Some self' /\ cwnd self' = 2 ^ 30.
Proof.
  split.
  - destruct (synth_new_ok 1460 AIMD ltac:(lia) AIMD_ok) as [[Hm _ _ Ha Hd Hal Ho] _].
    split; [split; [exact Hm|cbn; lia|cbn; lia|exact Ha|exact Hd|exact Hal|exact Ho]|].
    destruct (repair_program_ok AIMD AIMD_ok) as (H1 & _ & _). destruct AIMD_ok as (_ & H2 & H3). by split.
  - eexists. split; [vm_compute; reflexivity|reflexivity].
Qed.

(** C39 — type.  Well-formed programs do not go wrong: eight instructions with
    any operands, even ones that name registers not yet computed, on any eight
    binary64 signals, infinities and NaNs included, read and write in bounds and
    yield a finite number that the guard leaves alone: of magnitude at most 10^9. *)
Theorem every_program_evaluates code inputs :
  code_ok code -> inputs_ok inputs ->
  exists v, synth_eval code inputs = Some v /\ finite_ok v /\ synth_guard v = v.
Proof.
  intros Hc Hi. destruct (synth_eval_guarded code inputs Hc Hi) as (x & Hx & E). exists (synth_guard x).
  split; [exact E|]. split; [by apply guard_finite|by apply guard_idem].
Qed.

Lemma every_program_evaluates_witness :
  exists v, synth_eval (seed_prog OpDiv 255 3) [f_zero; f_zero; f_of 3; S754_infinity true; S754_nan; f_half; f_one; f_two] = Some v /\ finite_ok v.
Proof.
  destruct (every_program_evaluates (seed_prog OpDiv 255 3) [f_zero; f_zero; f_of 3; S754_infinity true; S754_nan; f_half; f_one; f_two])
    as (v & E & Hv & _).
  - apply seed_code_ok. lia.
  - split; [reflexivity|]. repeat apply List.Forall_cons; try apply List.Forall_nil; vm_compute; try done; split; discriminate.
  - exists v. split; [exact E|exact Hv].
Defined.

End SynthFacts.
