(* ===== verification/Bbr.v ===== *)
(** BBR: [tcp-core/src/bbr.rs].

    [RateSampler] estimates the delivery rate, [WindowedMax] keeps the largest
    recent estimate, [Bbr] is the state machine that paces and sizes the window
    from them.  [Bbr_laws] is the promise the TCB relies on; [BbrModel.v] has the
    properties of the model itself. *)

From Stdlib Require Import SpecFloat.
From S2P Require Import Prelude Seq Time F64 F64Order Congestion Controllers.

Definition HIGH_GAIN : f64 := lit 2885 1000.
Definition DRAIN_GAIN : f64 := lit 346 1000.
Definition CWND_GAIN : f64 := f_of 2.
Definition PROBE_BW_GAINS : list f64 :=
  [lit 125 100; lit 75 100; f_of 1; f_of 1; f_of 1; f_of 1; f_of 1; f_of 1].
Definition FULL_BW_THRESH : f64 := lit 125 100.
Definition FULL_BW_COUNT : Z := 3.
Definition MIN_RTT_WINDOW_US : Z := 10000000.
Definition PROBE_RTT_DURATION_US : Z := 200000.
Definition BTLBW_WINDOW_ROUNDS : Z := 10.
Definition MIN_CWND_SEGS : Z := 4.
Definition RECOVERY_HEADROOM_SEGS : Z := 3.
Definition INFLIGHT_LO_BETA : f64 := lit 3 10.
Definition INFLIGHT_HARD_KEEP : f64 := lit 1 2.
#[global] Arguments HIGH_GAIN : simpl never.
#[global] Arguments DRAIN_GAIN : simpl never.
#[global] Arguments CWND_GAIN : simpl never.
#[global] Arguments PROBE_BW_GAINS : simpl never.

(** *** The delivery-rate estimator *)
Module RateSampler.

Record RateSample := mkRateSample {
  delivery_rate : Z; rtt_us : Z; interval_us : Z; rs_is_app_limited : bool; prior_delivered : Z }.

Record Sent := mkSent {
  seq_end : SeqNumber; size : Z; sent_time : Instant; s_delivered : Z; s_delivered_time : Instant;
  s_first_sent_time : Instant; is_app_limited : bool }.

Record RateSampler := mkSampler {
  delivered : Z; delivered_time : Instant; first_sent_time : Instant; app_limited_until : Z; sent : list Sent }.
#[export] Instance RateSampler_settable : Settable RateSampler :=
  fun r => mkSampler (delivered r) (delivered_time r) (first_sent_time r) (app_limited_until r) (sent r).

Definition new : RateSampler := mkSampler 0 ZERO ZERO 0 [].

Definition on_transmit (self : RateSampler) (now : Instant) (seq_end : SeqNumber) (bytes inflight : Z)
    (app_limited : bool) : RateSampler :=
  let self :=
    if (inflight =? 0) || bool_decide (sent self = []) then self <| first_sent_time := now |> <| delivered_time := now |>
    else self in
  let self :=
    if app_limited then self <| app_limited_until := Z.max (wrap64 (delivered self + inflight + bytes)) 1 |> else self in
  self <| sent := sent self ++
    [mkSent seq_end bytes now (delivered self) (delivered_time self) (first_sent_time self)
       (negb (app_limited_until self =? 0))] |>.

(** The [while let]: pop every record the acknowledgement covers, in order. *)
Fixpoint pop_acked (sent : list Sent) (snd_una : SeqNumber) (delivered : Z) (newest : option Sent)
    : list Sent * Z * option Sent :=
  match sent with
  | s :: rest =>
      if seq_le (seq_end s) snd_una then pop_acked rest snd_una (wrap64 (delivered + size s)) (Some s)
      else (sent, delivered, newest)
  | [] => (sent, delivered, newest)
  end.

Definition on_ack (self : RateSampler) (now : Instant) (snd_una : SeqNumber) : RateSampler * option RateSample :=
  let '(rest, d, newest) := pop_acked (sent self) snd_una (delivered self) None in
  let self := self <| sent := rest |> <| delivered := d |> in
  match newest with
  | None => (self, None)
  | Some p =>
      let self := self <| delivered_time := now |> in
      let self :=
        if negb (app_limited_until self =? 0) && (app_limited_until self <? delivered self)
        then self <| app_limited_until := 0 |> else self in
      let send_elapsed := saturating_micros_since (sent_time p) (s_first_sent_time p) in
      let ack_elapsed := saturating_micros_since now (s_delivered_time p) in
      let interval := Z.max send_elapsed ack_elapsed in
      let newly := wrap64 (delivered self - s_delivered p) in
      let self := self <| first_sent_time := sent_time p |> in
      let rate := if 0 <? interval then sat_mul64 newly 1000000 / interval else 0 in
      (self, Some (mkRateSample rate (Z.min (saturating_micros_since now (sent_time p)) U32_MAX) interval
                     (is_app_limited p) (s_delivered p)))
  end.

Definition reset_in_flight (self : RateSampler) : RateSampler := self <| sent := [] |>.
End RateSampler.

(** *** The windowed-max filter *)
Module WindowedMax.

Record MaxSample := mkMax { t : Z; v : Z }.
(** The array of three candidates is three fields, best first. *)
Record WindowedMax := mkWindowedMax { window : Z; s0 : MaxSample; s1 : MaxSample; s2 : MaxSample }.
#[export] Instance WindowedMax_settable : Settable WindowedMax :=
  fun w => mkWindowedMax (window w) (s0 w) (s1 w) (s2 w).

Definition new (window : Z) : WindowedMax := mkWindowedMax window (mkMax 0 0) (mkMax 0 0) (mkMax 0 0).

Definition reset (self : WindowedMax) (t v : Z) : WindowedMax * Z :=
  let self := self <| s0 := mkMax t v |> <| s1 := mkMax t v |> <| s2 := mkMax t v |> in
  (self, WindowedMax.v (s0 self)).

Definition update (self : WindowedMax) (now v : Z) : WindowedMax * Z :=
  if (WindowedMax.v (s0 self) <=? v) || (window self <? wrap64 (now - t (s2 self))) then reset self now v
  else
    let self :=
      if WindowedMax.v (s1 self) <=? v then self <| s1 := mkMax now v |> <| s2 := mkMax now v |>
      else if WindowedMax.v (s2 self) <=? v then self <| s2 := mkMax now v |>
      else self in
    let self :=
      if window self <? wrap64 (now - t (s0 self)) then
        let self := self <| s0 := s1 self |> in
        let self := self <| s1 := s2 self |> in
        let self := self <| s2 := mkMax now v |> in
        if window self <? wrap64 (now - t (s0 self)) then
          let self := self <| s0 := s1 self |> in
          self <| s1 := s2 self |>
        else self
      else self in
    (self, WindowedMax.v (s0 self)).
End WindowedMax.

(** *** The state machine *)
Module Bbr.

Inductive Mode := Startup | Drain | ProbeBw | ProbeRtt.
#[export] Instance Mode_eq_dec : EqDecision Mode.
Proof. solve_decision. Defined.

Record Bbr := mkBbr {
  mss : Z; cwnd : Z; mode : Mode;
  sampler : RateSampler.RateSampler; btlbw_filter : WindowedMax.WindowedMax; btlbw : Z;
  min_rtt_us : Z; min_rtt_stamp : Instant; pacing_gain : f64; cwnd_gain : f64; pacing_rate : Z;
  round_count : Z; next_round_delivered : Z; round_start : bool;
  full_bw : Z; full_bw_count : Z; filled_pipe : bool;
  cycle_index : Z; cycle_stamp : Instant;
  probe_rtt_done_stamp : option Instant; prior_cwnd : Z;
  inflight_hi : Z; inflight_lo : Z; loss_in_round : bool; was_in_recovery : bool; inflight_latest : Z;
  extra_acked_filter : WindowedMax.WindowedMax; extra_acked : Z; ack_epoch_stamp : Instant; ack_epoch_acked : Z;
  dup_acks : Z }.
#[export] Instance Bbr_settable : Settable Bbr :=
  fun b => mkBbr (mss b) (cwnd b) (mode b) (sampler b) (btlbw_filter b) (btlbw b) (min_rtt_us b) (min_rtt_stamp b)
    (pacing_gain b) (cwnd_gain b) (pacing_rate b) (round_count b) (next_round_delivered b) (round_start b)
    (full_bw b) (full_bw_count b) (filled_pipe b) (cycle_index b) (cycle_stamp b) (probe_rtt_done_stamp b)
    (prior_cwnd b) (inflight_hi b) (inflight_lo b) (loss_in_round b) (was_in_recovery b) (inflight_latest b)
    (extra_acked_filter b) (extra_acked b) (ack_epoch_stamp b) (ack_epoch_acked b) (dup_acks b).

Definition new (m : Z) : Bbr :=
  mkBbr m (initial_window m) Startup RateSampler.new (WindowedMax.new BTLBW_WINDOW_ROUNDS) 0 U32_MAX ZERO
    HIGH_GAIN HIGH_GAIN 0 0 0 false 0 0 false 0 ZERO None 0 U32_MAX U32_MAX false false 0
    (WindowedMax.new BTLBW_WINDOW_ROUNDS) 0 ZERO 0 0.

Definition min_cwnd (self : Bbr) : Z := MIN_CWND_SEGS * mss self.

Definition bdp (self : Bbr) : Z :=
  if (btlbw self =? 0) || (min_rtt_us self =? U32_MAX) then 0
  else sat_mul64 (btlbw self) (min_rtt_us self) / 1000000.

Definition check_full_pipe (self : Bbr) : Bbr :=
  if filled_pipe self || negb (round_start self) then self
  else if fge (f_of (btlbw self)) (fmul (f_of (full_bw self)) FULL_BW_THRESH) then
    self <| full_bw := btlbw self |> <| full_bw_count := 0 |>
  else
    let self := self <| full_bw_count := wrap32 (full_bw_count self + 1) |> in
    if FULL_BW_COUNT <=? full_bw_count self then self <| filled_pipe := true |> else self.

Definition enter_probe_bw (self : Bbr) (now : Instant) : option Bbr :=
  let self := self <| mode := ProbeBw |> <| cwnd_gain := CWND_GAIN |> <| cycle_index := 2 |> in
  let? g := at_ PROBE_BW_GAINS (cycle_index self) in
  Some (self <| pacing_gain := g |> <| cycle_stamp := now |>).

Definition advance_probe_bw (self : Bbr) (now : Instant) : option Bbr :=
  if min_rtt_us self <=? saturating_micros_since now (cycle_stamp self) then
    let self := self <| cycle_index := (cycle_index self + 1) mod zlen PROBE_BW_GAINS |> in
    let? g := at_ PROBE_BW_GAINS (cycle_index self) in
    Some (self <| pacing_gain := g |> <| cycle_stamp := now |>)
  else Some self.

Definition maybe_enter_probe_rtt (self : Bbr) (expired : bool) : Bbr :=
  if expired && negb (bool_decide (mode self = ProbeRtt)) then
    self <| mode := ProbeRtt |> <| pacing_gain := f_one |> <| cwnd_gain := f_one |>
         <| prior_cwnd := cwnd self |> <| probe_rtt_done_stamp := None |>
  else self.

Definition handle_probe_rtt (self : Bbr) (now : Instant) (inflight : Z) : option Bbr :=
  match probe_rtt_done_stamp self with
  | None =>
      Some (if inflight <=? min_cwnd self
            then self <| probe_rtt_done_stamp := Some (plus_micros now PROBE_RTT_DURATION_US) |> else self)
  | Some done_ =>
      if done_ <=? now then
        let self := self <| min_rtt_stamp := now |> <| probe_rtt_done_stamp := None |> in
        let? self :=
          if filled_pipe self then enter_probe_bw self now
          else Some (self <| mode := Startup |> <| pacing_gain := HIGH_GAIN |> <| cwnd_gain := HIGH_GAIN |>) in
        Some (self <| cwnd := Z.max (cwnd self) (prior_cwnd self) |>)
      else Some self
  end.

Definition update_mode (self : Bbr) (now : Instant) (inflight : Z) (min_rtt_expired : bool) : option Bbr :=
  let self := maybe_enter_probe_rtt self min_rtt_expired in
  match mode self with
  | Startup =>
      let self := check_full_pipe self in
      Some (if filled_pipe self
            then self <| mode := Drain |> <| pacing_gain := DRAIN_GAIN |> <| cwnd_gain := HIGH_GAIN |> else self)
  | Drain => if inflight <=? bdp self then enter_probe_bw self now else Some self
  | ProbeBw => advance_probe_bw self now
  | ProbeRtt => handle_probe_rtt self now inflight
  end.

Definition cut_inflight_bounds (self : Bbr) : Bbr :=
  let floor := min_cwnd self in
  let latest := Z.max (inflight_latest self) floor in
  self <| inflight_lo :=
    if inflight_lo self =? U32_MAX then Z.max (f_to_u32 (fmul (f_of latest) INFLIGHT_HARD_KEEP)) floor
    else Z.max (f_to_u32 (fmul (f_of (inflight_lo self)) (fsub f_one INFLIGHT_LO_BETA))) floor |>.

Definition raise_inflight_bounds (self : Bbr) : Bbr :=
  let self :=
    if negb (inflight_hi self =? U32_MAX) then self <| inflight_hi := sat_add32 (inflight_hi self) (mss self) |> else self in
  if negb (inflight_lo self =? U32_MAX) then
    let self := self <| inflight_lo := sat_add32 (inflight_lo self) (mss self) |> in
    if inflight_hi self <=? inflight_lo self then self <| inflight_lo := U32_MAX |> else self
  else self.

Definition update_ack_aggregation (self : Bbr) (now : Instant) (acked : Z) : Bbr :=
  if (btlbw self =? 0) || (acked =? 0) then self
  else
    let epoch_us := saturating_micros_since now (ack_epoch_stamp self) in
    let expected := sat_mul64 (btlbw self) epoch_us / 1000000 in
    let '(self, expected) :=
      if ack_epoch_acked self <=? expected
      then (self <| ack_epoch_acked := 0 |> <| ack_epoch_stamp := now |>, 0) else (self, expected) in
    let self := self <| ack_epoch_acked := sat_add64 (ack_epoch_acked self) acked |> in
    let extra := Z.min (sat_sub (ack_epoch_acked self) expected) (Z.max (bdp self) (min_cwnd self)) in
    let '(filter, best) := WindowedMax.update (extra_acked_filter self) (round_count self) extra in
    self <| extra_acked_filter := filter |> <| extra_acked := Z.min best U32_MAX |>.

Definition set_pacing_and_cwnd (self : Bbr) (acked pipe : Z) (in_recovery : bool) : Bbr :=
  if (btlbw self =? 0) || (min_rtt_us self =? U32_MAX) then self <| pacing_rate := 0 |>
  else
    let self := self <| pacing_rate := f_to_u64 (fmul (f_of (btlbw self)) (pacing_gain self)) |> in
    let min_cwnd := min_cwnd self in
    let extra := if filled_pipe self then extra_acked self else 0 in
    let target := Z.max (wrap64 (f_to_u64 (fmul (f_of (bdp self)) (cwnd_gain self)) + extra)) min_cwnd in
    let bound := Z.min (inflight_hi self) (inflight_lo self) in
    let w :=
      if in_recovery then
        let floor := pipe + RECOVERY_HEADROOM_SEGS * mss self in
        Z.max (Z.max (Z.min target bound) floor) min_cwnd
      else Z.max (Z.min (cwnd self + acked) (Z.min target bound)) min_cwnd in
    self <| cwnd := Z.min (if bool_decide (mode self = ProbeRtt) && negb in_recovery then Z.min w min_cwnd else w) U32_MAX |>.

(** *** The trait's methods *)

Definition on_ack (self : Bbr) (_ : Instant) (_ : Z) : option Bbr := Some (self <| dup_acks := 0 |>).

Definition on_dup_ack (self : Bbr) (_ : Instant) (_ : Z) : option (Bbr * bool) :=
  let self := self <| dup_acks := Z.min (dup_acks self + 1) U8_MAX |> in
  if dup_acks self =? 3 then Some (self <| loss_in_round := true |>, true) else Some (self, false).

Definition enter_recovery (self : Bbr) (_ : Instant) (_ : Z) : option Bbr := Some (self <| loss_in_round := true |>).

Definition on_rto (self : Bbr) (_ : Instant) (_ : Z) : option Bbr :=
  let self := self <| sampler := RateSampler.reset_in_flight (sampler self) |> <| cwnd := mss self |>
                   <| dup_acks := 0 |> <| loss_in_round := true |> in
  let floor := min_cwnd self in
  let half := Z.max (f_to_u32 (fmul (f_of (Z.max (inflight_latest self) floor)) INFLIGHT_HARD_KEEP)) floor in
  let self := self <| inflight_hi := if inflight_hi self =? U32_MAX then half else Z.max (inflight_hi self / 2) floor |> in
  Some (self <| inflight_lo := if inflight_lo self =? U32_MAX then half else Z.max (inflight_lo self / 2) floor |>).

Definition set_mss (self : Bbr) (m : Z) : option Bbr :=
  let self := self <| mss := m |> in Some (self <| cwnd := Z.max (cwnd self) (min_cwnd self) |>).

Definition pacing_rate_ (self : Bbr) : option Z := if pacing_rate self =? 0 then None else Some (pacing_rate self).

Definition on_transmit (self : Bbr) (now : Instant) (seq_end : SeqNumber) (bytes inflight : Z) (app_limited : bool)
    : option Bbr :=
  Some (self <| sampler := RateSampler.on_transmit (sampler self) now seq_end bytes inflight app_limited |>).

(** [on_ack_sample] from the sample on, in the source's order: the round
    count, the minimum RTT, the bandwidth, the inflight bounds. *)
Definition count_round (self : Bbr) (s : RateSampler.RateSample) : Bbr :=
  if next_round_delivered self <=? RateSampler.prior_delivered s then
    self <| round_count := wrap64 (round_count self + 1) |>
         <| next_round_delivered := RateSampler.delivered (sampler self) |> <| round_start := true |>
  else self <| round_start := false |>.
Definition rtt_expired (self : Bbr) (now : Instant) : bool :=
  negb (min_rtt_us self =? U32_MAX) && (MIN_RTT_WINDOW_US <? saturating_micros_since now (min_rtt_stamp self)).
Definition refresh_min_rtt (self : Bbr) (now : Instant) (rtt : Z) (expired : bool) : Bbr :=
  if (0 <? rtt) && ((rtt <? min_rtt_us self) || expired) then self <| min_rtt_us := rtt |> <| min_rtt_stamp := now |>
  else self.
Definition sample_btlbw (self : Bbr) (s : RateSampler.RateSample) : Bbr :=
  if (0 <? RateSampler.delivery_rate s) && (min_rtt_us self <=? RateSampler.interval_us s)
     && (negb (RateSampler.rs_is_app_limited s) || (btlbw self <=? RateSampler.delivery_rate s)) then
    let '(filter, best) := WindowedMax.update (btlbw_filter self) (round_count self) (RateSampler.delivery_rate s) in
    self <| btlbw_filter := filter |> <| btlbw := best |>
  else self.
Definition adapt_bounds (self : Bbr) (inflight : Z) (in_recovery : bool) : Bbr :=
  let self := self <| inflight_latest := Z.max (inflight_latest self) inflight |> in
  let entered_recovery := in_recovery && negb (was_in_recovery self) in
  let self := if entered_recovery then (cut_inflight_bounds self) <| loss_in_round := true |> else self in
  let self :=
    if round_start self then
      let self := if negb (loss_in_round self) && negb in_recovery then raise_inflight_bounds self else self in
      self <| loss_in_round := false |> <| inflight_latest := inflight |>
    else self in
  self <| was_in_recovery := in_recovery |>.

Definition on_ack_sample (self : Bbr) (now : Instant) (snd_una : SeqNumber) (inflight acked pipe : Z) (in_recovery : bool)
    : option Bbr :=
  let '(smp, sample) := RateSampler.on_ack (sampler self) now snd_una in
  let self := self <| sampler := smp |> in
  match sample with
  | None => Some self
  | Some s =>
      let self := count_round self s in
      let expired := rtt_expired self now in
      let self := refresh_min_rtt self now (RateSampler.rtt_us s) expired in
      let self := sample_btlbw self s in
      let self := update_ack_aggregation self now acked in
      let self := adapt_bounds self inflight in_recovery in
      let? self := update_mode self now inflight expired in
      Some (set_pacing_and_cwnd self acked pipe in_recovery)
  end.

#[export] Instance Bbr_control : CongestionControl Bbr := {
  cc_cwnd := cwnd;
  cc_ssthresh := fun _ => U32_MAX;
  cc_on_ack := on_ack;
  cc_on_dup_ack := on_dup_ack;
  cc_enter_recovery := enter_recovery;
  cc_on_rto := on_rto;
  cc_set_mss := set_mss;
  cc_pacing_rate := pacing_rate_;
  cc_on_transmit := on_transmit;
  cc_on_ack_sample := on_ack_sample;
  cc_on_ecn := default_on_ecn;
  cc_on_rtt_sample := default_on_rtt_sample;
}.
End Bbr.

(** *** The promise to the TCB *)
Module BbrFacts.
Import Bbr.

(** What the window depends on besides the estimates. *)
Definition core (self : Bbr) :=
  (mss self, cwnd self, mode self, pacing_gain self, cwnd_gain self, filled_pipe self, cycle_index self, prior_cwnd self).

(** Each mode has its gains; cruising and draining only once the pipe is full. *)
Definition gains_ok (self : Bbr) : Prop :=
  match mode self with
  | Startup => pacing_gain self = HIGH_GAIN /\ cwnd_gain self = HIGH_GAIN
  | Drain => pacing_gain self = DRAIN_GAIN /\ cwnd_gain self = HIGH_GAIN /\ filled_pipe self = true
  | ProbeBw => at_ PROBE_BW_GAINS (cycle_index self) = Some (pacing_gain self) /\ cwnd_gain self = CWND_GAIN /\
      filled_pipe self = true
  | ProbeRtt => pacing_gain self = f_one /\ cwnd_gain self = f_one
  end.

Record bbr_ok (m : Z) (self : Bbr) : Prop := {
  bk_mss : mss self = m /\ 0 < m <= U16_MAX;
  bk_cwnd : m <= cwnd self <= U32_MAX;
  bk_prior : prior_cwnd self <= U32_MAX;
  bk_cycle : 0 <= cycle_index self < 8;
  bk_gains : gains_ok self;
}.

Lemma core_ok m self self' : core self' = core self -> bbr_ok m self -> bbr_ok m self'.
Proof.
  unfold core. intros E [H1 H2 H3 H4 H5]. injection E as E1 E2 E3 E4 E5 E6 E7 E8.
  split; unfold gains_ok; rewrite ?E1, ?E2, ?E3, ?E4, ?E5, ?E6, ?E7, ?E8; done.
Qed.

Lemma bbr_new_ok m : 0 < m <= U16_MAX -> bbr_ok m (new m).
Proof. intros. unfold new, initial_window. split; cbn; try lia. done. Qed.

Ltac core_tac := unfold core; cbv zeta; case_ifs; reflexivity.

Lemma count_round_core self s : core (count_round self s) = core self.
Proof. unfold count_round. core_tac. Qed.
Lemma refresh_min_rtt_core self now rtt e : core (refresh_min_rtt self now rtt e) = core self.
Proof. unfold refresh_min_rtt. core_tac. Qed.
Lemma sample_btlbw_core self s : core (sample_btlbw self s) = core self.
Proof. unfold sample_btlbw. case_ifs; [|done]. by destruct (WindowedMax.update _ _ _). Qed.
Lemma update_ack_aggregation_core self now acked : core (update_ack_aggregation self now acked) = core self.
Proof.
  unfold update_ack_aggregation. case_ifs; try done; cbv zeta; by destruct (WindowedMax.update _ _ _).
Qed.
Lemma cut_bounds_core self : core (cut_inflight_bounds self) = core self.
Proof. reflexivity. Qed.
Lemma raise_bounds_core self : core (raise_inflight_bounds self) = core self.
Proof. unfold raise_inflight_bounds. core_tac. Qed.
Lemma adapt_bounds_core self inflight rec : core (adapt_bounds self inflight rec) = core self.
Proof.
  unfold adapt_bounds. cbv zeta. set (s1 := self <| inflight_latest := _ |>).
  assert (E1 : core (if rec && negb (was_in_recovery s1) then (cut_inflight_bounds s1) <| loss_in_round := true |> else s1)
    = core self) by (by case_ifs).
  set (s2 := if rec && _ then _ else _) in *. clearbody s2.
  destruct (round_start s2); [|exact E1]. destruct (negb _ && negb rec); [|exact E1].
  rewrite <- E1. exact (raise_bounds_core s2).
Qed.

(** *** The mode machine *)

(** How a mode may follow another: the pipe was found full, the queue drained
    to one BDP, the RTT went stale, or the RTT probe was over. *)
Inductive mode_step (self : Bbr) (inflight : Z) (expired : bool) : Mode -> bool -> Prop :=
  | ms_stay : mode_step self inflight expired (mode self) (filled_pipe self)
  | ms_full : mode self = Startup -> mode_step self inflight expired Drain true
  | ms_drained : mode self = Drain -> inflight <= bdp self -> mode_step self inflight expired ProbeBw (filled_pipe self)
  | ms_stale : expired = true -> mode_step self inflight expired ProbeRtt (filled_pipe self)
  | ms_refilled : mode self = ProbeRtt -> filled_pipe self = true -> mode_step self inflight expired ProbeBw true
  | ms_restart : mode self = ProbeRtt -> filled_pipe self = false -> mode_step self inflight expired Startup false.

Lemma enter_probe_bw_spec self now : exists self', enter_probe_bw self now = Some self' /\
  mode self' = ProbeBw /\ cycle_index self' = 2 /\ at_ PROBE_BW_GAINS 2 = Some (pacing_gain self') /\ cwnd_gain self' = CWND_GAIN /\
  mss self' = mss self /\ cwnd self' = cwnd self /\ prior_cwnd self' = prior_cwnd self /\ filled_pipe self' = filled_pipe self.
Proof. eexists. by split_and!. Qed.

Lemma advance_probe_bw_spec self now : 0 <= cycle_index self < 8 -> exists self', advance_probe_bw self now = Some self' /\
  mode self' = mode self /\ 0 <= cycle_index self' < 8 /\
  (at_ PROBE_BW_GAINS (cycle_index self) = Some (pacing_gain self) -> at_ PROBE_BW_GAINS (cycle_index self') = Some (pacing_gain self')) /\
  cwnd_gain self' = cwnd_gain self /\
  mss self' = mss self /\ cwnd self' = cwnd self /\ prior_cwnd self' = prior_cwnd self /\ filled_pipe self' = filled_pipe self.
Proof.
  intros Hc. unfold advance_probe_bw. case_ifs; [|exists self; split_and!; done || lia].
  change (zlen PROBE_BW_GAINS) with 8. cbv zeta. cbn [cycle_index].
  assert (Hr : 0 <= (cycle_index self + 1) mod 8 < 8) by (apply Z.mod_pos_bound; lia).
  set (s1 := self <| cycle_index := _ |>).
  destruct (at_is_Some PROBE_BW_GAINS (cycle_index s1) Hr) as [g Hg]. rewrite Hg.
  eexists. split; [done|]. split; [done|]. split; [exact Hr|]. split; [intros _; exact Hg|]. by split_and!.
Qed.

Lemma check_full_pipe_spec self :
  let self' := check_full_pipe self in
  mss self' = mss self /\ cwnd self' = cwnd self /\ mode self' = mode self /\ pacing_gain self' = pacing_gain self /\
  cwnd_gain self' = cwnd_gain self /\ cycle_index self' = cycle_index self /\ prior_cwnd self' = prior_cwnd self.
Proof. unfold check_full_pipe. cbv zeta. case_ifs; by split_and!. Qed.

(** The estimates the BDP is made of are not the mode machine's to change. *)
Lemma update_mode_bdp self now inflight expired self' : update_mode self now inflight expired = Some self' -> bdp self' = bdp self.
Proof.
  unfold update_mode, maybe_enter_probe_rtt, handle_probe_rtt, enter_probe_bw, advance_probe_bw, check_full_pipe. intros E.
  repeat (case_match; simplify_eq; try done).
Qed.

Lemma update_mode_core m self now inflight expired :
  bbr_ok m self -> exists self', update_mode self now inflight expired = Some self' /\ bbr_ok m self' /\
    mode_step self inflight expired (mode self') (filled_pipe self') /\
    (cwnd self' = cwnd self \/ cwnd self' = Z.max (cwnd self) (prior_cwnd self)).
Proof.
  intros [[Em Hm] Hc Hp Hi Hg]. unfold update_mode, maybe_enter_probe_rtt.
  destruct (expired && negb (bool_decide (mode self = ProbeRtt))) eqn:Ex.
  { cbn [mode]. unfold handle_probe_rtt. cbn [probe_rtt_done_stamp].
    assert (expired = true) as -> by (by destruct expired).
    eexists. split; [done|]. case_ifs; (split; [split; cbn; try done; lia|]); (split; [exact (ms_stale self inflight true eq_refl)|by left]). }
  destruct (mode self) eqn:Emd.
  - destruct (check_full_pipe_spec self) as (F1 & F2 & F3 & F4 & F5 & F6 & F7). set (s1 := check_full_pipe self) in *.
    unfold gains_ok in Hg. rewrite Emd in Hg. eexists. split; [done|]. destruct (filled_pipe s1) eqn:Ef.
    + split; [split; cbn; rewrite ?F1, ?F2, ?F6, ?F7; try done|]. split; [cbn; rewrite Ef; exact (ms_full self inflight expired Emd)|left; exact F2].
    + split; [split; rewrite ?F1, ?F2, ?F6, ?F7; try done; unfold gains_ok; by rewrite F3, F4, F5, Emd|].
      split; [|by left]. rewrite F3, Ef. 
      destruct (filled_pipe self) eqn:Ef0; [|rewrite <- Ef0; apply ms_stay].
      exfalso. subst s1. unfold check_full_pipe in Ef. rewrite Ef0 in Ef. cbn in Ef. congruence.
  - unfold gains_ok in Hg. rewrite Emd in Hg. destruct Hg as (G1 & G2 & G3). destruct (inflight <=? bdp self) eqn:E.
    + destruct (enter_probe_bw_spec self now) as (s' & -> & F1 & F2 & F3 & F4 & F5 & F6 & F7 & F8). exists s'. split; [done|].
      split; [split; rewrite ?F2, ?F5, ?F6, ?F7; try done; unfold gains_ok; rewrite F1, F2, F8; done|].
      split; [|by left]. rewrite F1, F8. apply ms_drained; [done|lia].
    + exists self. split; [done|]. split; [split; try done; unfold gains_ok; by rewrite Emd|]. split; [apply ms_stay|by left].
  - unfold gains_ok in Hg. rewrite Emd in Hg. destruct Hg as (G1 & G2 & G3).
    destruct (advance_probe_bw_spec self now Hi) as (s' & -> & F1 & F2 & F3 & F4 & F5 & F6 & F7 & F8). exists s'. split; [done|].
    specialize (F3 G1).
    split; [split; rewrite ?F5, ?F6, ?F7; try done; unfold gains_ok; rewrite F1, Emd, F4, F8; done|].
    split; [|by left]. rewrite F1, F8. apply ms_stay.
  - unfold gains_ok in Hg. rewrite Emd in Hg. unfold handle_probe_rtt. destruct (probe_rtt_done_stamp self) as [d|].
    2: { eexists. split; [done|]. case_ifs; (split; [split; cbn; try done; unfold gains_ok; cbn; by rewrite Emd|]);
           (split; [exact (ms_stay self inflight expired)|by left]). }
    destruct (d <=? now).
    2: { exists self. split; [done|]. split; [split; try done; unfold gains_ok; by rewrite Emd|]. split; [apply ms_stay|by left]. }
    set (s1 := self <| min_rtt_stamp := _ |> <| probe_rtt_done_stamp := _ |>).
    change (filled_pipe s1) with (filled_pipe self). destruct (filled_pipe self) eqn:Ef.
    + destruct (enter_probe_bw_spec s1 now) as (s' & -> & F1 & F2 & F3 & F4 & F5 & F6 & F7 & F8).
      eexists. split; [done|]. cbn [cwnd mode filled_pipe]. 
      split; [split; cbn; rewrite ?F2, ?F5, ?F6, ?F7; try done; [change (cwnd s1) with (cwnd self); change (prior_cwnd s1) with (prior_cwnd self); lia|];
        unfold gains_ok; cbn; rewrite F1, F2, F8; done|].
      split; [|right; cbn; by rewrite F6, F7]. cbn. rewrite F1, F8. change (filled_pipe s1) with (filled_pipe self). rewrite Ef. exact (ms_refilled self inflight expired Emd Ef).
    + eexists. split; [done|]. split; [split; cbn; try done; lia|]. split; [|by right]. cbn. rewrite Ef. exact (ms_restart self inflight expired Emd Ef).
Qed.

Lemma update_mode_spec m self now inflight expired :
  bbr_ok m self -> exists self', update_mode self now inflight expired = Some self' /\ bbr_ok m self' /\
    mode_step self inflight expired (mode self') (filled_pipe self') /\
    (cwnd self' = cwnd self \/ cwnd self' = Z.max (cwnd self) (prior_cwnd self)) /\ bdp self' = bdp self.
Proof.
  intros Hok. destruct (update_mode_core m self now inflight expired Hok) as (self' & E & H1 & H2 & H3).
  exists self'. split; [done|]. split; [done|]. split; [done|]. split; [done|]. by eapply update_mode_bdp.
Qed.

(** *** The window *)

(** A bandwidth and a round-trip time have been measured. *)
Definition model_known (self : Bbr) : Prop := btlbw self <> 0 /\ min_rtt_us self <> U32_MAX.

Lemma with_cwnd_ok m self w : bbr_ok m self -> m <= w <= U32_MAX -> bbr_ok m (self <| cwnd := w |>).
Proof. intros [H1 H2 H3 H4 H5] Hw. by split. Qed.

Lemma set_pacing_spec m self acked pipe rec :
  bbr_ok m self -> let self' := set_pacing_and_cwnd self acked pipe rec in
  bbr_ok m self' /\ mode self' = mode self /\ filled_pipe self' = filled_pipe self /\
  btlbw self' = btlbw self /\ min_rtt_us self' = min_rtt_us self /\
  (~ model_known self -> cwnd self' = cwnd self) /\
  (model_known self -> 4 * m <= cwnd self') /\
  (model_known self -> rec = true -> Z.min (pipe + 3 * m) U32_MAX <= cwnd self') /\
  (rec = false -> cwnd self' <= Z.max (cwnd self + Z.max 0 acked) (4 * m)).
Proof.
  intros Hok. pose proof Hok as [[Em Hm] Hc Hp Hi Hg]. unfold set_pacing_and_cwnd, model_known.
  destruct ((btlbw self =? 0) || (min_rtt_us self =? U32_MAX)) eqn:E.
  { cbv zeta. split; [by apply (core_ok m self)|]. split_and!; try done; cbn; lia. }
  cbv zeta. set (s1 := self <| pacing_rate := _ |>). assert (E1 : core s1 = core self) by done.
  assert (Eb : btlbw s1 = btlbw self /\ min_rtt_us s1 = min_rtt_us self) by done.
  assert (Hok1 : bbr_ok m s1) by (by apply (core_ok m self)).
  unfold min_cwnd, MIN_CWND_SEGS, RECOVERY_HEADROOM_SEGS. change (mss s1) with (mss self). rewrite Em.
  change (cwnd s1) with (cwnd self). change (mode s1) with (mode self).
  generalize (wrap64 (f_to_u64 (fmul (f_of (bdp s1)) (cwnd_gain s1)) + (if filled_pipe s1 then extra_acked s1 else 0))).
  intros target. generalize (Z.min (inflight_hi s1) (inflight_lo s1)). intros bound.
  set (w := Z.min (if _ && negb rec then _ else _) U32_MAX).
  assert (Hw : 4 * m <= w <= U32_MAX /\ (rec = true -> Z.min (pipe + 3 * m) U32_MAX <= w) /\
    (rec = false -> w <= Z.max (cwnd self + Z.max 0 acked) (4 * m))).
  { subst w. destruct (bool_decide (mode self = ProbeRtt)), rec; cbn [andb negb]; split_and!; intros; done || lia. }
  destruct Hw as (W1 & W2 & W3). clearbody w s1.
  split; [apply with_cwnd_ok; [exact Hok1|lia]|]. unfold core in E1. injection E1 as _ _ E3 _ _ E6 _ _.
  split; [exact E3|]. split; [exact E6|]. split; [apply Eb|]. split; [apply Eb|].
  split; [intros Hn; exfalso; apply Hn; split; lia|]. split; [intros _; exact (proj1 W1)|]. split; [intros _; exact W2|exact W3].
Qed.

(** What one acknowledgement sample does: nothing without newly delivered data;
    otherwise a step of the mode machine and a new window. *)
Lemma on_ack_sample_spec m self now una inflight acked pipe rec :
  bbr_ok m self -> exists self', on_ack_sample self now una inflight acked pipe rec = Some self' /\ bbr_ok m self' /\
    match snd (RateSampler.on_ack (sampler self) now una) with
    | None => core self' = core self
    | Some _ =>
        (exists self1, core self1 = core self /\ bdp self' = bdp self1 /\
           mode_step self1 inflight (rtt_expired self now) (mode self') (filled_pipe self')) /\
        (model_known self' -> 4 * m <= cwnd self' /\ (rec = true -> Z.min (pipe + 3 * m) U32_MAX <= cwnd self')) /\
        (rec = false -> cwnd self' <= Z.max (Z.max (cwnd self) (prior_cwnd self) + Z.max 0 acked) (4 * m))
    end.
Proof.
  intros Hok. unfold on_ack_sample.
  destruct (RateSampler.on_ack (sampler self) now una) as [smp [s|]]; cbn [snd].
  2: { eexists. split; [done|]. split; [by apply (core_ok m self)|done]. }
  cbv zeta. set (s0 := self <| sampler := smp |>). set (expired := rtt_expired _ now).
  set (s1 := adapt_bounds _ inflight rec).
  assert (E1 : core s1 = core self).
  { unfold s1. by rewrite adapt_bounds_core, update_ack_aggregation_core, sample_btlbw_core, refresh_min_rtt_core, count_round_core. }
  assert (Ee : expired = rtt_expired self now) by (unfold expired, count_round; by case_ifs).
  clearbody s1 expired. subst expired. pose proof (core_ok m self s1 E1 Hok) as Hok1.
  destruct (update_mode_spec m s1 now inflight (rtt_expired self now) Hok1) as (s2 & -> & Hok2 & Hstep & Hc2 & Hb2).
  destruct (set_pacing_spec m s2 acked pipe rec Hok2) as (Hok3 & Fm & Ff & Fb & Fr & W1 & W2 & W3 & W4).
  eexists. split; [done|]. split; [done|]. split; [exists s1; split; [done|]; split; [unfold bdp in *; by rewrite Fb, Fr|by rewrite Fm, Ff]|].
  unfold model_known in *. rewrite Fb, Fr. split; [intros Hk; split; [by apply W2|by apply W3]|].
  intros Hr. specialize (W4 Hr). unfold core in E1. injection E1 as _ Ec _ _ _ _ _ Ep. rewrite Ec, Ep in Hc2. lia.
Qed.

#[export] Instance Bbr_laws : CongestionLaws Bbr.
Proof.
  unshelve econstructor; [exact bbr_ok|..].
  - intros m c []. done.
  - intros m c now acked Hok _. eexists. split; [done|]. by apply (core_ok m c).
  - intros m c now flight Hok _. cbn. unfold on_dup_ack. case_ifs; eexists _, _; (split; [done|]); by apply (core_ok m c).
  - intros m c now flight Hok _. eexists. split; [done|]. by apply (core_ok m c).
  - intros m c now flight [[Em Hm] Hc Hp Hi Hg] _. eexists. split; [done|]. split; cbn; try done; lia.
  - intros m c now seq_end n inflight app Hok. eexists. split; [done|]. by apply (core_ok m c).
  - intros m c now una inflight acked pipe rec Hok.
    destruct (on_ack_sample_spec m c now una inflight acked pipe rec Hok) as (c' & H1 & H2 & _). eauto.
  - intros. eexists. by split.
  - intros. eexists. by split.
Defined.

End BbrFacts.
