(* ===== verification/BbrModel.v ===== *)
(** BBR's model ([tcp-core/src/bbr.rs]), continued: what the delivery-rate
    samples, the bandwidth filter, the mode machine and the window guarantee. *)

From Stdlib Require Import SpecFloat Sorting.Sorted.
From stdpp Require Import sorting.
From S2P Require Import Prelude Seq Time F64 Congestion Bbr.

(** *** The delivery-rate estimator *)
Module Sampler.
Import RateSampler.

Definition outstanding (l : list Sent) : Z := foldr (fun s n => size s + n) 0 l.

(** The samplers a connection can reach, with the bytes it has reported. *)
Inductive sampled : Z -> RateSampler -> Prop :=
  | sampled_new : sampled 0 new
  | sampled_transmit total r now seq_end bytes inflight app :
      sampled total r -> 0 <= bytes -> total + bytes < 2 ^ 64 ->
      sampled (total + bytes) (on_transmit r now seq_end bytes inflight app)
  | sampled_ack total r now snd_una : sampled total r -> sampled total (on_ack r now snd_una).1
  | sampled_reset total r : sampled total r -> sampled total (reset_in_flight r).

Record sampler_ok (total : Z) (r : RateSampler) : Prop := {
  sk_total : 0 <= delivered r /\ delivered r + outstanding (sent r) <= total /\ total < 2 ^ 64;
  sk_sent : Forall (fun s => 0 <= size s /\ 0 <= s_delivered s <= delivered r) (sent r);
}.

Lemma outstanding_cons s l : outstanding (s :: l) = size s + outstanding l.
Proof. reflexivity. Qed.
Lemma outstanding_nonneg l d : Forall (fun s => 0 <= size s /\ 0 <= s_delivered s <= d) l -> 0 <= outstanding l.
Proof. induction 1 as [|s l [Hs _] _ IH]; [done|]. rewrite outstanding_cons. lia. Qed.
Lemma outstanding_app l k : outstanding (l ++ k) = outstanding l + outstanding k.
Proof. induction l as [|s l IH]; [done|]. cbn [app]. rewrite !outstanding_cons. lia. Qed.

Lemma pop_acked_spec una l : forall d newest,
  0 <= d -> Forall (fun s => 0 <= size s) l -> d + outstanding l < 2 ^ 64 ->
  exists popped rest, l = popped ++ rest /\
    pop_acked l una d newest = (rest, d + outstanding popped, match list.last popped with Some s => Some s | None => newest end) /\
    Forall (fun s => seq_le (seq_end s) una = true) popped /\
    match rest with s :: _ => seq_le (seq_end s) una = false | [] => True end.
Proof.
  induction l as [|s l IH]; intros d newest Hd Hl Hw; cbn [pop_acked].
  { exists [], []. by rewrite Z.add_0_r. }
  apply List.Forall_cons_iff in Hl as [Hs Hl]. rewrite outstanding_cons in Hw.
  assert (0 <= outstanding l) by (clear -Hl; induction Hl; rewrite ?outstanding_cons; [done|lia]).
  destruct (seq_le (seq_end s) una) eqn:E.
  2: { exists [], (s :: l). by rewrite Z.add_0_r. }
  rewrite wrap64_small by (unfold is_u64; lia).
  destruct (IH (d + size s) (Some s) ltac:(lia) Hl ltac:(lia)) as (popped & rest & -> & -> & Hp & Hr).
  exists (s :: popped), rest. split; [done|]. split; [|split; [by apply List.Forall_cons|done]].
  f_equal; [f_equal; rewrite ?outstanding_cons; lia|]. rewrite last_cons. by destruct (list.last popped).
Qed.

Lemma reached_sizes total r : sampler_ok total r -> Forall (fun s => 0 <= size s) (sent r).
Proof. intros [_ H]. eapply List.Forall_impl; [|exact H]. intros s; cbn; tauto. Qed.

Lemma rate_bound n iv : 0 <= n ->
  let rate := if 0 <? iv then sat_mul64 n 1000000 / iv else 0 in 0 <= rate /\ rate * iv <= n * 1000000.
Proof.
  intros Hn. unfold sat_mul64. cbv zeta. destruct (0 <? iv) eqn:Ei; [|lia]. split; [apply Z.div_pos; lia|].
  pose proof (Z.mul_div_le (Z.min (n * 1000000) U64_MAX) iv ltac:(lia)). lia.
Qed.

(** One acknowledgement: which records it pops and what the sample says. *)
Lemma on_ack_core total r now una :
  sampler_ok total r -> exists popped rest, sent r = popped ++ rest /\
    Forall (fun s => seq_le (seq_end s) una = true) popped /\
    match rest with s :: _ => seq_le (seq_end s) una = false | [] => True end /\
    let '(r', sample) := on_ack r now una in
    sent r' = rest /\ delivered r' = delivered r + outstanding popped /\ sampler_ok total r' /\
    match sample with
    | None => popped = []
    | Some s => exists p, list.last popped = Some p /\ prior_delivered s = s_delivered p /\
        s_delivered p <= delivered r /\ rtt_us s = Z.min (saturating_micros_since now (sent_time p)) U32_MAX /\
        0 <= delivery_rate s /\ delivery_rate s * interval_us s <= (delivered r' - prior_delivered s) * 1000000
    end.
Proof.
  intros Hok. pose proof Hok as [[H0 [H1 H2]] Hs].
  destruct (pop_acked_spec una (sent r) (delivered r) None H0 (reached_sizes _ _ Hok) ltac:(lia)) as (popped & rest & E & Ep & Hp & Hr).
  exists popped, rest. split; [done|]. split; [done|]. split; [done|]. unfold on_ack. rewrite Ep.
  rewrite E in Hs, H1. apply Forall_app in Hs as [Hsp Hsr]. rewrite outstanding_app in H1.
  pose proof (outstanding_nonneg _ _ Hsp). pose proof (outstanding_nonneg _ _ Hsr).
  assert (Hok' : forall t1 t2 a, sampler_ok total (mkSampler (delivered r + outstanding popped) t1 t2 a rest)).
  { intros. split; cbn [delivered sent]; [lia|]. eapply List.Forall_impl; [|exact Hsr]. intros s. cbn. lia. }
  destruct (list.last popped) as [p|] eqn:El.
  - assert (Hpin : p ∈ popped) by (by apply last_Some_elem_of).
    destruct (proj1 (Forall_forall _ _) Hsp p (proj1 (list_elem_of_In _ _) Hpin)) as [_ Hpd].
    set (n := delivered r + outstanding popped - s_delivered p).
    assert (Ew : wrap64 n = n) by (apply wrap64_small; unfold is_u64, n; lia).
    cbv zeta. set (iv := Z.max _ _). destruct (rate_bound n iv ltac:(lia)) as [B1 B2].
    set (r1 := r <| sent := rest |> <| delivered := _ |> <| delivered_time := now |>).
    match goal with |- context [if ?c then ?x else r1] => set (r2 := if c then x else r1) end.
    assert (E2 : delivered r2 = delivered r + outstanding popped /\ sent r2 = rest) by (unfold r2; by case_ifs).
    destruct E2 as [E2 E3]. clearbody r2. change (delivered (r2 <| first_sent_time := sent_time p |>)) with (delivered r2).
    rewrite E2. fold n. rewrite Ew. split; [exact E3|]. split; [done|]. split.
    { destruct (Hok' (delivered_time r2) (sent_time p) (app_limited_until r2)) as [K1 K2]. cbn in K1, K2.
      split; cbn; by rewrite E2, E3. }
    exists p. split; [done|]. split; [done|]. split; [lia|]. split; [done|]. by split.
  - split; [done|]. split; [done|]. split; [apply Hok'|]. by apply last_None.
Qed.

Lemma sampled_ok total r : sampled total r -> sampler_ok total r.
Proof.
  induction 1 as [|total r now e n i app H IH Hn Ht|total r now una H IH|total r H IH].
  - split; cbn; [lia|apply List.Forall_nil].
  - destruct IH as [[H0 [H1 H2]] Hs]. unfold on_transmit. cbv zeta.
    split.
    + case_ifs; cbn; rewrite outstanding_app; cbn; lia.
    + case_ifs; cbn; apply Forall_app; (split; [done|]); repeat apply List.Forall_cons; try apply List.Forall_nil; cbn; lia.
  - destruct (on_ack_core total r now una IH) as (? & ? & _ & _ & _ & Hc). destruct (on_ack r now una) as [r' s]. by destruct Hc as (_ & _ & ? & _).
  - destruct IH as [[H0 [H1 H2]] Hs]. pose proof (outstanding_nonneg _ _ Hs). split; cbn; [lia|apply List.Forall_nil].
Qed.


Definition demo_sampler : RateSampler := on_transmit (on_transmit new 0 1000 1000 0 false) 0 2000 1000 1000 false.
Lemma demo_sampled : sampled 2000 demo_sampler.
Proof. change 2000 with (0 + 1000 + 1000). repeat apply sampled_transmit; try lia. apply sampled_new. Qed.

End Sampler.

(** *** The bandwidth filter *)
Module Filter.
Import WindowedMax.

(** The reference: hold the best sample until one is as good or it is stale. *)
Definition hold (win : Z) (best s : MaxSample) : MaxSample :=
  if (v best <=? v s) || (win <? t s - t best) then s else best.

(** The filter fed a history of samples, oldest first, and its last estimate. *)
Fixpoint run (w : WindowedMax) (h : list MaxSample) : WindowedMax :=
  match h with [] => w | s :: h => run (update w (t s) (v s)).1 h end.

Lemma update_is_hold win best s :
  0 <= t best <= t s -> t s < 2 ^ 64 ->
  update (mkWindowedMax win best best best) (t s) (v s) =
  let b := hold win best s in (mkWindowedMax win b b b, v b).
Proof.
  intros H1 H2. unfold update, hold. cbn [s0 s1 s2 window]. rewrite wrap64_small by (unfold is_u64; lia).
  destruct (v best <=? v s) eqn:E; cbn [orb]; [by destruct s|].
  destruct (win <? t s - t best) eqn:E1; [by destruct s|]. cbn. rewrite wrap64_small by (unfold is_u64; lia). by rewrite E1.
Qed.

Definition in_order (h : list MaxSample) : Prop :=
  Sorted.StronglySorted (fun a b => t a <= t b) h /\ Forall (fun s => 0 <= t s < 2 ^ 64 /\ 0 <= v s) h.

Lemma run_is_hold win h : forall best,
  Sorted.StronglySorted (fun a b => t a <= t b) (best :: h) -> 0 <= t best -> Forall (fun s => 0 <= t s < 2 ^ 64 /\ 0 <= v s) h ->
  run (mkWindowedMax win best best best) h =
  let b := fold_left (hold win) h best in mkWindowedMax win b b b.
Proof.
  induction h as [|s h IH]; intros best Hs Hb Hf; [done|]. cbn [run fold_left].
  apply Sorted.StronglySorted_inv in Hs as [Hs Hb1]. apply List.Forall_cons_iff in Hb1 as [Hb1 Hb2].
  apply List.Forall_cons_iff in Hf as [Hf1 Hf]. rewrite update_is_hold by lia. cbn [fst].
  apply IH; [|unfold hold; case_ifs; lia|done].
  apply Sorted.StronglySorted_inv in Hs as [Hs1 Hs2]. apply Sorted.SSorted_cons; [done|]. unfold hold. by case_ifs.
Qed.

(** The held sample, over what has been seen. *)
Definition held (win : Z) (h : list MaxSample) (now : Z) (best : MaxSample) : Prop :=
  best ∈ h /\ now - t best <= win /\ (forall s, s ∈ h -> t s <= now) /\
  (forall s, s ∈ h -> t best <= t s -> v s <= v best).

Lemma hold_held win h now best s :
  0 <= win -> now <= t s -> held win h now best -> held win (h ++ [s]) (t s) (hold win best s).
Proof.
  intros Hw Hn (Hin & Hfresh & Hmax & Hbest). unfold held, hold.
  destruct (v best <=? v s) eqn:E; cbn [orb].
  - split; [apply elem_of_app; first [by left|right; by apply list_elem_of_singleton]|]. split; [lia|]. split; intros x [Hx| ->%list_elem_of_singleton]%elem_of_app; [specialize (Hmax x Hx); lia|lia| |lia].
    intros Ht. pose proof (Hmax best Hin). specialize (Hbest x Hx). lia.
  - destruct (win <? t s - t best) eqn:E1.
    + split; [apply elem_of_app; first [by left|right; by apply list_elem_of_singleton]|]. split; [lia|]. split; intros x [Hx| ->%list_elem_of_singleton]%elem_of_app; [specialize (Hmax x Hx); lia|lia| |lia].
      intros Ht. specialize (Hmax x Hx). lia.
    + split; [apply elem_of_app; first [by left|right; by apply list_elem_of_singleton]|]. split; [lia|]. split; intros x [Hx| ->%list_elem_of_singleton]%elem_of_app;
        [specialize (Hmax x Hx); lia|lia|by apply Hbest|lia].
Qed.

Lemma fold_held win h s :
  0 <= win -> in_order (h ++ [s]) -> held win (h ++ [s]) (t s) (fold_left (hold win) (h ++ [s]) (mkMax 0 0)).
Proof.
  intros Hw. revert s. induction h as [|s' h IH] using List.rev_ind; intros s [Hs Hf].
  - apply List.Forall_cons_iff in Hf as [Hf _]. cbn [app fold_left]. unfold hold.
    replace (v (mkMax 0 0) <=? v s) with true by (cbn; lia). cbn [orb].
    split; [by apply list_elem_of_singleton|]. split; [lia|]. by split; intros x ->%list_elem_of_singleton.
  - rewrite fold_left_app. cbn [fold_left].
    assert (Hle : t s' <= t s).
    { apply (StronglySorted_app_1_elem_of _ _ _ s' s Hs); [apply elem_of_app; right|]; by apply list_elem_of_singleton. }
    apply (hold_held win _ (t s') _ s Hw Hle). apply IH. split; [by apply StronglySorted_app_1_l in Hs|].
    by apply Forall_app in Hf as [Hf _].
Qed.



(** It is not the maximum over the window its comments promise: the candidates
    being equal, a good sample after the best one is never kept, and when the
    best one expires the estimate drops to the newest sample, however small. *)
Lemma filter_forgets_the_window :
  v (s0 (run (new BTLBW_WINDOW_ROUNDS) [mkMax 0 100; mkMax 10 90; mkMax 11 10])) = 10 /\
  11 - t (mkMax 10 90) <= BTLBW_WINDOW_ROUNDS.
Proof. split; [reflexivity|]. unfold BTLBW_WINDOW_ROUNDS. cbn. lia. Qed.
End Filter.

(** *** The window and the modes *)
Module Model.
Import Bbr BbrFacts.

(** BBR never breaks the connection: whatever is transmitted,
    acknowledged, sampled or lost, at whatever times and with whatever byte
    counts, it neither panics nor indexes its gain table out of bounds, and its
    window stays between one segment and 2^32-1. *)
Lemma bbr_is_live m es :
  0 < m <= U16_MAX -> events_ok es ->
  exists self, feeds (new m) es = Some self /\ m <= cwnd self <= U32_MAX /\ gains_ok self.
Proof.
  intros Hm Hes. assert (Hok : cc_ok m (new m)) by exact (bbr_new_ok m Hm).
  destruct (feeds_ok m es (new m) Hes Hok) as (self & Hs & [_ Hc _ _ Hg]). by exists self.
Qed.

(** Ten segments, acknowledged one round trip later, then a timeout. *)
Definition demo_events : list (Instant * Event) :=
  [(0, ETransmit 1000 1000 0 false); (0, ETransmit 2000 1000 1000 false); (20000, EAck 2000);
   (20000, ESample 2000 0 2000 0 false); (21000, ETransmit 3000 1000 0 false); (500000, ERto 1000)].
Lemma bbr_is_live_witness : exists self, feeds (new 1000) demo_events = Some self /\ cwnd self = 1000 /\ btlbw self = 100000.
Proof.
  destruct (bbr_is_live 1000 demo_events) as (self & H & _).
  - lia.
  - repeat apply List.Forall_cons; try apply List.Forall_nil; cbn; unfold is_u32; lia.
  - exists self. split; [exact H|]. vm_compute in H. injection H as <-. by split.
Defined.

(** The invariant that keeps loss recovery from wedging: once a
    bandwidth and a round-trip time are known, every sample taken while a loss
    is being repaired leaves the window at least three segments above the data
    in flight (saturating at 2^32-1), whatever the inflight bounds, even in the
    RTT probe; outside recovery the window grows by at most what was just
    delivered, from the larger of the window and the one saved by a probe. *)
Lemma recovery_keeps_gate_open m self now una inflight acked pipe rec :
  bbr_ok m self -> (RateSampler.on_ack (sampler self) now una).2 <> None ->
  exists self', on_ack_sample self now una inflight acked pipe rec = Some self' /\
    (model_known self' -> rec = true -> pipe + 3 * m <= U32_MAX -> pipe + 3 * m <= cwnd self') /\
    (model_known self' -> 4 * m <= cwnd self') /\
    (rec = false -> cwnd self' <= Z.max (Z.max (cwnd self) (prior_cwnd self) + Z.max 0 acked) (4 * m)).
Proof.
  intros Hok Hs. destruct (on_ack_sample_spec m self now una inflight acked pipe rec Hok) as (self' & E & _ & Hc).
  exists self'. split; [done|]. destruct (RateSampler.on_ack _ _ _).2; [|done]. destruct Hc as (_ & Hk & Hg).
  split; [|split; [by intros [H _]%Hk|done]]. intros Hm Hr Hb. destruct (Hk Hm) as [_ H]. specialize (H Hr). lia.
Qed.

Definition demo_bbr : Bbr := default (new 1000) (feeds (new 1000) (firstn 5 demo_events)).
Lemma demo_bbr_ok : bbr_ok 1000 demo_bbr.
Proof.
  destruct (feeds_ok 1000 (firstn 5 demo_events) (new 1000)) as (self & E & Hok).
  - repeat apply List.Forall_cons; try apply List.Forall_nil; cbn; unfold is_u32; lia.
  - exact (bbr_new_ok 1000 ltac:(lia)).
  - unfold demo_bbr. rewrite E. exact Hok.
Qed.

Lemma recovery_keeps_gate_open_witness :
  exists self', on_ack_sample demo_bbr 45000 3000 0 1000 90000 true = Some self' /\ 93000 <= cwnd self'.
Proof.
  destruct (recovery_keeps_gate_open 1000 demo_bbr 45000 3000 0 1000 90000 true demo_bbr_ok) as (self' & H & Hk & _).
  - vm_compute. discriminate.
  - exists self'. split; [exact H|]. apply Hk; [|reflexivity|lia]. vm_compute in H. injection H as <-. split; vm_compute; discriminate.
Defined.

(** The phases follow one another as designed, on any
    sample: STARTUP ends only in DRAIN and only when the pipe is full, DRAIN in
    PROBE_BW once the data in flight is down to one BDP, PROBE_RTT is entered
    only when the RTT estimate has expired and left for PROBE_BW or STARTUP
    according to whether the pipe was ever filled; and every phase runs its own
    gains. *)
Lemma phases_follow_the_model m self now una inflight acked pipe rec :
  bbr_ok m self -> exists self', on_ack_sample self now una inflight acked pipe rec = Some self' /\ gains_ok self' /\
    ((mode self', filled_pipe self') = (mode self, filled_pipe self) \/
     (mode self' = ProbeRtt /\ rtt_expired self now = true) \/
     (mode self = Startup /\ mode self' = Drain /\ filled_pipe self' = true) \/
     (mode self = Drain /\ mode self' = ProbeBw /\ inflight <= bdp self' /\ filled_pipe self' = true) \/
     (mode self = ProbeRtt /\ mode self' = if filled_pipe self then ProbeBw else Startup)).
Proof.
  intros Hok. destruct (on_ack_sample_spec m self now una inflight acked pipe rec Hok) as (self' & E & Hok' & Hc).
  exists self'. split; [done|]. split; [exact (bk_gains _ _ Hok')|].
  pose proof (bk_gains _ _ Hok') as Hg. unfold gains_ok in Hg.
  destruct (RateSampler.on_ack _ _ _).2.
  2: { left. unfold core in Hc. injection Hc as _ _ -> _ _ -> _ _. done. }
  destruct Hc as ((self1 & Ec & Eb & Hstep) & _). unfold core in Ec. injection Ec as _ _ Em _ _ Ef _ _.
  inversion Hstep as [H1 H2|H H1 H2|H Hb H1 H2|H H1 H2|H Hf H1 H2|H Hf H1 H2]; rewrite ?Em, ?Ef in *.
  - by left.
  - right; right; left. by rewrite H.
  - right; right; right; left. rewrite <- H1 in Hg. rewrite Eb, H. split; [done|]. split; [done|]. split; [done|]. by rewrite H2; apply Hg.
  - by right; left.
  - right; right; right; right. by rewrite Hf.
  - right; right; right; right. by rewrite Hf.
Qed.

Lemma phases_follow_the_model_witness :
  exists self', on_ack_sample demo_bbr 45000 3000 0 1000 0 false = Some self' /\ gains_ok self' /\ mode self' = Startup.
Proof.
  destruct (phases_follow_the_model 1000 demo_bbr 45000 3000 0 1000 0 false demo_bbr_ok) as (self' & H & Hg & _).
  exists self'. split; [exact H|]. split; [exact Hg|]. vm_compute in H. by injection H as <-.
Defined.
End Model.
