(* ===== verification/Cubic.v ===== *)
(** CUBIC: the [Cubic] controller of [tcp-core/src/congestion.rs].

    Its window loops run on binary64 counters.  They end because every turn takes
    at least one acknowledged segment away from a counter that holds no more than
    were ever acknowledged; beyond 2^53 of them a turn could round to no change,
    so liveness is stated for connections under 2^52 acknowledged bytes. *)

From Stdlib Require Import SpecFloat.
From S2P Require Import Prelude Seq Time F64 F64Order Congestion Controllers.

Definition CUBIC_C : f64 := lit 4 10.
Definition CUBIC_BETA : f64 := lit 7 10.
#[global] Arguments CUBIC_C : simpl never.
#[global] Arguments CUBIC_BETA : simpl never.

(** Newton's method, sixty steps. *)
Definition cubic_root (a : f64) : f64 :=
  if fle a f_zero then f_zero
  else Nat.iter 60 (fun x => fdiv (fadd (fmul f_two x) (fdiv a (fmul x x))) (f_of 3)) (if fge a f_one then a else f_one).

Definition cubic_window (origin_seg k t : f64) : f64 :=
  let d := fsub t k in fadd origin_seg (fmul (fmul (fmul CUBIC_C d) d) d).

Module Cubic.

Record Cubic := mkCubic {
  cwnd : Z; ssthresh : Z; mss : Z; w_max : f64; w_last_max : f64; epoch_start : option Instant;
  cubic_k : f64; cubic_origin : f64; w_tcp : f64; ack_cnt : f64; cwnd_cnt : f64; dup_acks : Z }.
#[export] Instance Cubic_settable : Settable Cubic :=
  fun c => mkCubic (cwnd c) (ssthresh c) (mss c) (w_max c) (w_last_max c) (epoch_start c) (cubic_k c)
    (cubic_origin c) (w_tcp c) (ack_cnt c) (cwnd_cnt c) (dup_acks c).

Definition new (m : Z) : Cubic :=
  mkCubic (initial_window m) U32_MAX m f_zero f_zero None f_zero f_zero f_zero f_zero f_zero 0.

Definition congestion_event (self : Cubic) (is_rto : bool) : Cubic :=
  let cwnd_seg := fdiv (f_of (cwnd self)) (f_of (mss self)) in
  let self :=
    if flt cwnd_seg (w_last_max self) then
      self <| w_last_max := cwnd_seg |> <| w_max := fdiv (fmul cwnd_seg (fadd f_one CUBIC_BETA)) f_two |>
    else self <| w_last_max := cwnd_seg |> <| w_max := cwnd_seg |> in
  let self := self <| ssthresh := Z.max (f_to_u32 (fmul (f_of (cwnd self)) CUBIC_BETA)) (2 * mss self) |> in
  self <| cwnd := if is_rto then mss self else ssthresh self |> <| epoch_start := None |>
       <| ack_cnt := f_zero |> <| cwnd_cnt := f_zero |>.

(** The two [while] loops; [None] when the fuel runs out. *)
Fixpoint friendly_loop (fuel : nat) (delta ack_cnt w_tcp : f64) : option (f64 * f64) :=
  if fgt ack_cnt delta then
    match fuel with
    | O => None
    | S fuel => friendly_loop fuel delta (fsub ack_cnt delta) (fadd w_tcp f_one)
    end
  else Some (ack_cnt, w_tcp).
Fixpoint release_loop (fuel : nat) (cnt : f64) (mss : Z) (cwnd_cnt : f64) (cwnd : Z) : option (f64 * Z) :=
  if fge cwnd_cnt cnt then
    match fuel with
    | O => None
    | S fuel => release_loop fuel cnt mss (fsub cwnd_cnt cnt) (sat_add32 cwnd mss)
    end
  else Some (cwnd_cnt, cwnd).
(** A counter of [x] segments feeds at most this many turns. *)
Definition loop_fuel (x : f64) : nat := Z.to_nat (f_to_u64 x + 1).
#[global] Arguments loop_fuel : simpl never.

(** The first acknowledgement of an epoch anchors the curve; later ones count. *)
Definition anchor (self : Cubic) (now : Instant) (acked_seg cwnd_seg : f64) : Cubic :=
  match epoch_start self with
  | None =>
      let self := self <| epoch_start := Some now |> <| ack_cnt := acked_seg |> <| cwnd_cnt := f_zero |>
                       <| w_tcp := cwnd_seg |> in
      if flt cwnd_seg (w_max self) then
        self <| cubic_k := cubic_root (fdiv (fsub (w_max self) cwnd_seg) CUBIC_C) |> <| cubic_origin := w_max self |>
      else self <| cubic_k := f_zero |> <| cubic_origin := cwnd_seg |>
  | Some _ => self <| ack_cnt := fadd (ack_cnt self) acked_seg |>
  end.

(** Acknowledged segments per segment of growth, along the curve. *)
Definition curve_cnt (self : Cubic) (now epoch : Instant) (cwnd_seg : f64) : f64 :=
  let t := fdiv (f_of (saturating_micros_since now epoch)) (f_of 1000000) in
  let target := cubic_window (cubic_origin self) (cubic_k self) t in
  if fgt target cwnd_seg then fdiv cwnd_seg (fsub target cwnd_seg) else fmul (f_of 100) cwnd_seg.

(** ... tightened by the TCP-friendly estimate, and never below one. *)
Definition friendly_cnt (self : Cubic) (cwnd_seg cnt : f64) : f64 :=
  let cnt :=
    if fgt (w_tcp self) cwnd_seg then
      let tcp_cnt := fdiv cwnd_seg (fsub (w_tcp self) cwnd_seg) in
      if flt tcp_cnt cnt then tcp_cnt else cnt
    else cnt in
  if flt cnt f_one then f_one else cnt.

Definition friendly_alpha : f64 := fdiv (fmul (f_of 3) (fsub f_one CUBIC_BETA)) (fadd f_one CUBIC_BETA).
#[global] Arguments friendly_alpha : simpl never.

Definition cubic_update (self : Cubic) (now : Instant) (acked : Z) : option Cubic :=
  let mss_f := f_of (mss self) in
  let acked_seg := fdiv (f_of acked) mss_f in
  let cwnd_seg := fdiv (f_of (cwnd self)) mss_f in
  let self := anchor self now acked_seg cwnd_seg in
  let? epoch := epoch_start self in
  let cnt := curve_cnt self now epoch cwnd_seg in
  let delta := fdiv cwnd_seg friendly_alpha in
  let? self :=
    if fgt delta f_zero then
      let? (a, w) := friendly_loop (loop_fuel (ack_cnt self)) delta (ack_cnt self) (w_tcp self) in
      Some (self <| ack_cnt := a |> <| w_tcp := w |>)
    else Some self in
  let cnt := friendly_cnt self cwnd_seg cnt in
  let self := self <| cwnd_cnt := fadd (cwnd_cnt self) acked_seg |> in
  let? (c, w) := release_loop (loop_fuel (cwnd_cnt self)) cnt (mss self) (cwnd_cnt self) (cwnd self) in
  Some (self <| cwnd_cnt := c |> <| cwnd := w |>).

Definition on_ack (self : Cubic) (now : Instant) (acked : Z) : option Cubic :=
  let self := self <| dup_acks := 0 |> in
  if acked =? 0 then Some self
  else if cwnd self <? ssthresh self then Some (self <| cwnd := sat_add32 (cwnd self) (Z.min acked (mss self)) |>)
  else cubic_update self now acked.

Definition on_dup_ack (self : Cubic) (_ : Instant) (_ : Z) : option (Cubic * bool) :=
  let self := self <| dup_acks := Z.min (dup_acks self + 1) U8_MAX |> in
  if dup_acks self =? 3 then Some (congestion_event self false, true) else Some (self, false).

Definition enter_recovery (self : Cubic) (_ : Instant) (_ : Z) : option Cubic :=
  Some ((congestion_event self false) <| dup_acks := 0 |>).

Definition on_rto (self : Cubic) (_ : Instant) (_ : Z) : option Cubic := Some (congestion_event self true).

Definition set_mss (self : Cubic) (m : Z) : option Cubic :=
  let self := self <| mss := m |> in Some (self <| cwnd := Z.max (cwnd self) (mss self) |>).

#[export] Instance Cubic_control : CongestionControl Cubic := {
  cc_cwnd := cwnd;
  cc_ssthresh := ssthresh;
  cc_on_ack := on_ack;
  cc_on_dup_ack := on_dup_ack;
  cc_enter_recovery := enter_recovery;
  cc_on_rto := on_rto;
  cc_set_mss := set_mss;
  cc_pacing_rate := default_pacing_rate;
  cc_on_transmit := default_on_transmit;
  cc_on_ack_sample := default_on_ack_sample;
  cc_on_ecn := default_on_ecn;
  cc_on_rtt_sample := default_on_rtt_sample;
}.

(** *** The loops end *)

(** [x] counts at most [n] segments. *)
Definition counts (x : f64) (n : Z) : Prop := f64_ok x /\ atmost x n 0.

Lemma loop_fuel_enough x n : 0 <= n < 2 ^ 53 -> counts x n -> exists k, loop_fuel x = Z.to_nat k /\ 0 <= k /\ counts x k /\ k < 2 ^ 53 + 1.
Proof.
  intros Hn [Hx Ha]. pose proof (f_to_atmost U64_MAX x n ltac:(lia) Ha) as Hle. pose proof (f_to_range U64_MAX x ltac:(lia)) as Hr.
  exists (f_to_u64 x + 1). unfold f_to_u64. split; [done|]. split; [lia|]. split; [split; [done|]; apply f_to_ceil; [done|lia]|lia].
Qed.

Lemma friendly_loop_ok fuel : forall delta x w n,
  f64_ok delta -> atleast delta 1 0 -> counts x n -> 0 <= n < 2 ^ 53 -> (Z.to_nat n <= fuel)%nat ->
  exists x' w', friendly_loop fuel delta x w = Some (x', w') /\ counts x' n.
Proof.
  induction fuel as [|fuel IH]; intros delta x w n Hd Hl [Hx Ha] Hn Hf; cbn [friendly_loop]; unfold fgt.
  - assert (n = 0) as -> by lia. destruct (none_left x delta Hx Ha Hl Hd) as [_ ->]. by exists x, w.
  - destruct (flt delta x) eqn:E; [|by exists x, w].
    destruct (Z.eq_dec n 0) as [->|Hn0].
    { destruct (none_left x delta Hx Ha Hl Hd) as [_ E1]. rewrite E1 in E. done. }
    assert (Hc : counts (fsub x delta) (n - 1)) by (split; [by apply fsub_ok|by apply sub_one; try lia]).
    destruct (IH delta (fsub x delta) (fadd w f_one) (n - 1) Hd Hl Hc ltac:(lia) ltac:(lia)) as (x' & w' & -> & Hc').
    exists x', w'. split; [done|]. destruct Hc' as [H1 H2]. split; [done|]. eapply atmost_weaken; [exact H2|].
    assert (0 < pw 0) by (apply pw_pos; lia). nia.
Qed.

(** Each segment of growth takes at least one from the counter. *)
Lemma release_loop_ok fuel : forall cnt m x w n,
  f64_ok cnt -> atleast cnt 1 0 \/ is_nan cnt = true -> counts x n -> 0 <= n < 2 ^ 53 -> 0 <= m -> w <= U32_MAX -> (Z.to_nat n <= fuel)%nat ->
  exists x' w' k, release_loop fuel cnt m x w = Some (x', w') /\ 0 <= k <= n /\ counts x' (n - k) /\
    w <= w' <= U32_MAX /\ w' <= w + k * m.
Proof.
  intros cnt m x w n Hd Hl. revert x w n. destruct Hl as [Hl|Hnan].
  2: { intros x w n Hx Hn Hm Hw Hf. exists x, w, 0. split; [|rewrite Z.sub_0_r; split; [lia|split; [done|lia]]].
       assert (E : fge x cnt = false) by (unfold fge, fle; destruct cnt; done). destruct fuel; cbn [release_loop]; by rewrite E. }
  induction fuel as [|fuel IH]; intros x w n [Hx Ha] Hn Hm Hw Hf; cbn [release_loop]; unfold fge.
  - assert (n = 0) as -> by lia. destruct (none_left x cnt Hx Ha Hl Hd) as [-> _]. exists x, w, 0. split; [done|].
    split; [lia|]. by split; [|lia].
  - destruct (fle cnt x) eqn:E.
    2: { exists x, w, 0. split; [done|]. rewrite Z.sub_0_r. split; [lia|]. by split; [|lia]. }
    destruct (Z.eq_dec n 0) as [->|Hn0].
    { destruct (none_left x cnt Hx Ha Hl Hd) as [E1 _]. rewrite E1 in E. done. }
    assert (Hc : counts (fsub x cnt) (n - 1)) by (split; [by apply fsub_ok|by apply sub_one; try lia]).
    destruct (IH (fsub x cnt) (sat_add32 w m) (n - 1) Hc ltac:(lia) Hm ltac:(unfold sat_add32; lia) ltac:(lia))
      as (x' & w' & k & -> & Hk & Hc' & Hw' & Hg).
    exists x', w', (k + 1). split; [done|]. split; [lia|]. replace (n - (k + 1)) with (n - 1 - k) by lia. split; [done|].
    unfold sat_add32 in *. lia.
Qed.

(** *** Segments *)

Definition segments (n m : Z) : Z := (n + m - 1) / m.

Lemma segments_counts n m : 0 <= n <= U32_MAX -> 0 < m <= U16_MAX -> counts (fdiv (f_of n) (f_of m)) (segments n m) /\ 0 <= segments n m <= n.
Proof.
  intros Hn Hm. unfold segments.
  assert (Hq : n <= (n + m - 1) / m * m).
  { pose proof (Z.mul_succ_div_gt (n + m - 1) m ltac:(lia)). nia. }
  assert (Hs : 0 <= (n + m - 1) / m <= n).
  { split; [apply Z.div_pos; lia|]. destruct (Z.eq_dec n 0) as [->|]; [rewrite Z.div_small by lia; lia|]. apply Z.div_le_upper_bound; nia. }
  split; [|done]. split; [apply fdiv_ok|]. set (q := (n + m - 1) / m) in *.
  destruct (Z.eq_dec n 0) as [->|Hn0].
  { destruct (f_of_exact m) as (mm & em & -> & _); [lia|]. done. }
  destruct (f_of_exact n) as (mn & en & -> & Hen & Hvn); [lia|]. destruct (f_of_exact m) as (mm & em & -> & Hem & Hvm); [lia|].
  apply upto_atmost, div_upto; [lia|lia|split; lia|]. rewrite Hvn, Hvm. assert (0 < pw 0) by (apply pw_pos; lia). nia.
Qed.

(** A window of a segment or more: at least one segment, and a positive share
    of it at least one. *)
Lemma window_atleast n m : 0 < m <= n -> n <= U32_MAX -> atleast (fdiv (f_of n) (f_of m)) 1 0.
Proof.
  intros Hm Hn. destruct (f_of_exact n) as (mn & en & -> & Hen & Hvn); [lia|].
  destruct (f_of_exact m) as (mm & em & -> & Hem & Hvm); [lia|].
  apply div_atleast; [lia|lia|split; lia|]. rewrite Hvn, Hvm. assert (0 < pw 0) by (apply pw_pos; lia). nia.
Qed.

Lemma delta_atleast x : f64_ok x -> atleast x 1 0 -> atleast (fdiv x friendly_alpha) 1 0.
Proof.
  intros Hx Hl. assert (Ha : exists m e, friendly_alpha = S754_finite false m e /\ -1074 <= e <= 0 /\ Z.pos m * pw e <= pw 0)
    by (eexists _, _; split; [vm_compute; reflexivity|split; [lia|vm_compute; discriminate]]).
  destruct Ha as (ma & ea & -> & Hea & Hva).
  destruct x as [s|[]| |[] mx ex]; cbn [atleast] in Hl; try done; try lia. cbn [f64_ok] in Hx. destruct Hl as [_ Hl].
  apply div_atleast; [lia|lia|split; lia|]. assert (0 < pw 0) by (apply pw_pos; lia). nia.
Qed.

(** The count per segment of growth is at least one, or not a number. *)
Lemma friendly_cnt_ok self cwnd_seg cnt :
  f64_ok cnt -> f64_ok (friendly_cnt self cwnd_seg cnt) /\
  (atleast (friendly_cnt self cwnd_seg cnt) 1 0 \/ is_nan (friendly_cnt self cwnd_seg cnt) = true).
Proof.
  intros Hc. unfold friendly_cnt. cbv zeta. set (c := if fgt _ _ then _ else cnt).
  assert (Hok : f64_ok c) by (subst c; case_ifs; try done; apply fdiv_ok). clearbody c.
  destruct (flt c f_one) eqn:E; [split; [apply f_of_ok|left; by vm_compute]|]. split; [done|].
  assert (H1 : exists m e, f_one = S754_finite false m e /\ -1074 <= e <= 0 /\ Z.pos m * pw e = pw 0)
    by (eexists _, _; split; [vm_compute; reflexivity|split; [lia|vm_compute; reflexivity]]).
  destruct H1 as (m1 & e1 & E1 & He1 & Hv1). rewrite E1 in E. unfold flt in E.
  destruct c as [sc|[]| |[] mc ec]; try (by right); try discriminate; [by left| |]; cbn [f64_ok] in Hok; cbn [fcompare cond_Zopp] in E;
    rewrite !Z.shiftl_mul_pow2 in E by lia;
    assert (0 < 2 ^ (ec - Z.min ec e1) /\ 0 < 2 ^ (e1 - Z.min ec e1)) as [? ?] by (split; apply Z.pow_pos_nonneg; lia).
  - rewrite (proj2 (Z.compare_lt_iff _ _)) in E by nia. discriminate.
  - left. split; [lia|]. set (z := Z.min ec e1) in *. assert (0 < pw z) by (apply pw_pos; lia).
    rewrite Z.mul_1_l, <- Hv1. rewrite (pw_split z ec), (pw_split z e1) by lia.
    destruct (Z.compare_spec (Z.pos mc * 2 ^ (ec - z)) (Z.pos m1 * 2 ^ (e1 - z))); [nia|discriminate|nia].
Qed.

Lemma curve_cnt_ok self now epoch cwnd_seg : f64_ok (curve_cnt self now epoch cwnd_seg).
Proof. unfold curve_cnt. case_ifs; [apply fdiv_ok|apply fmul_ok]. Qed.

(** *** The invariant *)

(** [credit] bounds both counters, in segments. *)
Record cubic_ok (m credit : Z) (self : Cubic) : Prop := {
  ck_mss : mss self = m /\ 0 < m <= U16_MAX;
  ck_cwnd : m <= cwnd self <= U32_MAX;
  ck_ssthresh : 2 * m <= ssthresh self <= U32_MAX;
  ck_credit : 0 <= credit < 2 ^ 52;
  ck_ack_cnt : counts (ack_cnt self) credit;
  ck_cwnd_cnt : counts (cwnd_cnt self) credit;
}.

Lemma cubic_new_ok m : 0 < m <= U16_MAX -> cubic_ok m 0 (new m).
Proof. intros. unfold new, initial_window. split; cbn; try lia; done. Qed.

Lemma counts_mono x n k : counts x n -> n <= k -> counts x k.
Proof.
  intros [H1 H2] Hk. split; [done|]. eapply atmost_weaken; [exact H2|]. assert (0 < pw 0) by (apply pw_pos; lia). nia.
Qed.
Lemma counts_zero n : counts f_zero n.
Proof. done. Qed.
Lemma counts_add x y n k : counts x n -> counts y k -> 0 <= n -> 0 <= k -> n + k < 2 ^ 53 -> counts (fadd x y) (n + k).
Proof. intros [? ?] [? ?] ? ? ?. split; [by apply fadd_ok|by apply add_atmost]. Qed.

Lemma anchor_spec m credit self now acked_seg cwnd_seg c :
  cubic_ok m credit self -> counts acked_seg c -> 0 <= c -> credit + c < 2 ^ 52 ->
  let self' := anchor self now acked_seg cwnd_seg in
  cwnd self' = cwnd self /\ mss self' = mss self /\ ssthresh self' = ssthresh self /\ epoch_start self' <> None /\
  counts (ack_cnt self') (credit + c) /\ counts (cwnd_cnt self') credit.
Proof.
  intros [? ? ? Hcr Ha Hw] Hs Hc Hb. unfold anchor. cbv zeta.
  destruct (epoch_start self) as [t|] eqn:Ee.
  - split_and!; try done; [cbn; by rewrite Ee|]. cbn. apply counts_add; try done; lia.
  - case_ifs; (split; [done|]); (split; [done|]); (split; [done|]); (split; [done|]); (split; [|exact (counts_zero _)]);
      cbn; eapply counts_mono; try exact Hs; lia.
Qed.

Lemma cubic_update_spec m credit self now acked :
  cubic_ok m credit self -> is_u32 acked -> credit + segments acked m < 2 ^ 52 ->
  exists self' k, cubic_update self now acked = Some self' /\ cubic_ok m (credit + segments acked m) self' /\
    0 <= k <= credit + segments acked m /\ counts (cwnd_cnt self') (credit + segments acked m - k) /\
    cwnd self <= cwnd self' <= cwnd self + k * m /\ ssthresh self' = ssthresh self.
Proof.
  intros Hok Hacked Hb. pose proof Hok as [[Em Hm] Hc Hs Hcr Ha Hw]. unfold is_u32 in Hacked.
  destruct (segments_counts acked m ltac:(lia) Hm) as [Hseg Hsn]. set (c := segments acked m) in *.
  unfold cubic_update. cbv zeta. rewrite Em. set (acked_seg := fdiv (f_of acked) _) in *. set (cwnd_seg := fdiv (f_of (cwnd self)) _).
  destruct (anchor_spec m credit self now acked_seg cwnd_seg c Hok Hseg ltac:(lia) Hb) as (F1 & F2 & F3 & F4 & F5 & F6).
  set (s1 := anchor self now acked_seg cwnd_seg) in *. clearbody s1. destruct (epoch_start s1) as [epoch|]; [|done]. clear F4.
  pose proof (curve_cnt_ok s1 now epoch cwnd_seg) as Hcnt. set (cnt := curve_cnt s1 now epoch cwnd_seg) in *. clearbody cnt.
  assert (Hd : f64_ok (fdiv cwnd_seg friendly_alpha)) by apply fdiv_ok.
  assert (Hd1 : atleast (fdiv cwnd_seg friendly_alpha) 1 0)
    by (apply delta_atleast; [apply fdiv_ok|apply window_atleast; lia]).
  set (delta := fdiv cwnd_seg friendly_alpha) in *. clearbody delta.
  destruct (loop_fuel_enough _ (credit + c) ltac:(lia) F5) as (n1 & En1 & Hn1 & Hc1 & Hb1).
  assert (Hf : exists s2, (if fgt delta f_zero then
      let? (a, w) := friendly_loop (loop_fuel (ack_cnt s1)) delta (ack_cnt s1) (w_tcp s1) in
      Some (s1 <| ack_cnt := a |> <| w_tcp := w |>) else Some s1) = Some s2 /\
    cwnd s2 = cwnd s1 /\ mss s2 = mss s1 /\ ssthresh s2 = ssthresh s1 /\ cwnd_cnt s2 = cwnd_cnt s1 /\ counts (ack_cnt s2) (credit + c)).
  { destruct (fgt delta f_zero); [|by exists s1].
    assert (Hmin : counts (ack_cnt s1) (Z.min n1 (credit + c))) by (destruct (Z.min_spec n1 (credit + c)) as [[_ ->]|[_ ->]]; done).
    destruct (friendly_loop_ok (loop_fuel (ack_cnt s1)) delta (ack_cnt s1) (w_tcp s1) _ Hd Hd1 Hmin ltac:(lia) ltac:(rewrite En1; lia))
      as (a & w & -> & Haw). eexists. split; [done|]. split_and!; try done. eapply counts_mono; [exact Haw|lia]. }
  destruct Hf as (s2 & -> & G1 & G2 & G3 & G4 & G5).
  destruct (friendly_cnt_ok s2 cwnd_seg cnt Hcnt) as [Hfc Hfl]. set (fc := friendly_cnt s2 cwnd_seg cnt) in *. clearbody fc.
  set (s3 := s2 <| cwnd_cnt := _ |>).
  assert (H3 : counts (cwnd_cnt s3) (credit + c)) by (cbn; rewrite G4; apply counts_add; try done; lia).
  destruct (loop_fuel_enough _ (credit + c) ltac:(lia) H3) as (n3 & En3 & Hn3 & Hc3 & Hb3).
  assert (Hmin : counts (cwnd_cnt s3) (Z.min n3 (credit + c))) by (destruct (Z.min_spec n3 (credit + c)) as [[_ ->]|[_ ->]]; done).
  assert (Ew : cwnd s3 = cwnd self) by (change (cwnd s2 = cwnd self); congruence).
  assert (Ems : mss s3 = m) by (change (mss s2 = m); congruence).
  destruct (release_loop_ok (loop_fuel (cwnd_cnt s3)) fc (mss s3) (cwnd_cnt s3) (cwnd s3) _ Hfc Hfl Hmin ltac:(lia) ltac:(lia) ltac:(lia) ltac:(rewrite En3; lia))
    as (x & w & k & -> & Hk & Hx & Hw1 & Hw2).
  rewrite Ew, Ems in *. eexists _, k. split; [reflexivity|]. split.
  { split; cbn; [split; [congruence|lia]|lia|rewrite G3, F3; lia|lia|exact G5|eapply counts_mono; [exact Hx|lia]]. }
  split; [lia|]. split; [cbn; eapply counts_mono; [exact Hx|lia]|]. split; [cbn; lia|cbn; congruence].
Qed.

(** Every acknowledgement: growth is paid for in acknowledged segments. *)
Lemma cubic_on_ack_spec m credit self now acked :
  cubic_ok m credit self -> is_u32 acked -> credit + segments acked m < 2 ^ 52 ->
  exists self' k, on_ack self now acked = Some self' /\ cubic_ok m (credit + segments acked m) self' /\
    0 <= k <= credit + segments acked m /\ counts (cwnd_cnt self') (credit + segments acked m - k) /\
    cwnd self <= cwnd self' <= cwnd self + k * m /\ ssthresh self' = ssthresh self.
Proof.
  intros Hok Hacked Hb. pose proof Hok as [[Em Hm] Hc Hs Hcr Ha Hw]. unfold on_ack. pose proof Hacked as Hu. unfold is_u32 in Hu.
  destruct (segments_counts acked m ltac:(lia) Hm) as [Hseg Hsn].
  destruct (acked =? 0) eqn:E0.
  { eexists _, 0. split; [reflexivity|]. split; [split; cbn; try done; [lia|eapply counts_mono; [exact Ha|lia]|eapply counts_mono; [exact Hw|lia]]|].
    split; [lia|]. split; [cbn; eapply counts_mono; [exact Hw|lia]|]. split; [cbn; lia|done]. }
  assert (H1 : 1 <= segments acked m) by (unfold segments; apply Z.div_le_lower_bound; lia).
  change (cwnd (self <| dup_acks := 0 |>)) with (cwnd self). change (ssthresh (self <| dup_acks := 0 |>)) with (ssthresh self).
  destruct (cwnd self <? ssthresh self).
  { eexists _, 1. split; [reflexivity|]. change (mss (self <| dup_acks := 0 |>)) with (mss self). rewrite Em. unfold sat_add32.
    split; [split; cbn; try done; [lia|lia|eapply counts_mono; [exact Ha|lia]|eapply counts_mono; [exact Hw|lia]]|].
    split; [lia|]. split; [cbn; eapply counts_mono; [exact Hw|lia]|]. split; [cbn; lia|done]. }
  exact (cubic_update_spec m credit (self <| dup_acks := 0 |>) now acked ltac:(by split) Hacked Hb).
Qed.

(** *** The response to loss *)

Lemma beta_cut n : 0 < n <= U32_MAX -> 716 * n / 1024 <= f_to_u32 (fmul (f_of n) CUBIC_BETA) <= 717 * n / 1024.
Proof.
  intros Hn. assert (Hp : 0 < pw (-10)) by (apply pw_pos; lia).
  assert (Hbu : upto CUBIC_BETA 717 (-10)) by (vm_compute; split; discriminate).
  assert (Hbl : exists m e, CUBIC_BETA = S754_finite false m e /\ -1074 <= e /\ 716 * pw (-10) <= Z.pos m * pw e)
    by (eexists _, _; split; [vm_compute; reflexivity|split; [lia|vm_compute; discriminate]]).
  assert (Hq : 0 <= 716 * n / 1024 /\ 0 <= 717 * n / 1024) by (split; apply Z.div_pos; lia).
  assert (Hl : 716 * n / 1024 <= U32_MAX) by (apply Z.div_le_upper_bound; lia).
  split.
  - apply (f_to_atleast_grid U32_MAX _ (716 * n) 10); try lia; [exact Hl|].
    destruct Hbl as (mb & eb & -> & Heb & Hvb). destruct (f_of_exact n) as (mn & en & -> & Hen & Hvn); [lia|].
    apply mul_atleast; [lia|lia|split; lia|]. rewrite Hvn. assert (0 < pw 0) by (apply pw_pos; lia).
    change (- (10)) with (-10). nia.
  - assert (Hv : atmost (fmul (f_of n) CUBIC_BETA) (717 * n) (-10)).
    { apply (mul_atmost _ _ n 0 717 (-10)); try lia; [apply upto_of; lia|by apply upto_atmost|split; lia|change (0 + -10) with (-10); lia]. }
    pose proof (f_to_atmost_grid U32_MAX _ (717 * n) 10 ltac:(lia) ltac:(lia) Hv) as H. unfold f_to_u32.
    change (2 ^ 10) with 1024 in H. lia.
Qed.

Lemma congestion_event_spec m credit self is_rto :
  cubic_ok m credit self -> let self' := congestion_event self is_rto in
  cubic_ok m credit self' /\ 716 * cwnd self / 1024 <= ssthresh self' <= Z.max (717 * cwnd self / 1024) (2 * m) /\
  2 * m <= ssthresh self' /\ cwnd self' = (if is_rto then m else ssthresh self').
Proof.
  intros [[Em Hm] Hc Hs Hcr Ha Hw]. pose proof (beta_cut (cwnd self) ltac:(lia)) as Hb.
  assert (Hf : f_to_u32 (fmul (f_of (cwnd self)) CUBIC_BETA) <= U32_MAX) by (apply f_to_range; lia).
  unfold congestion_event. cbv zeta. set (s1 := if flt _ (w_last_max self) then _ else _).
  assert (E : cwnd s1 = cwnd self /\ mss s1 = m) by (subst s1; by case_ifs). destruct E as [E1 E2]. clearbody s1.
  set (s2 := s1 <| ssthresh := _ |>).
  assert (E3 : ssthresh s2 = Z.max (f_to_u32 (fmul (f_of (cwnd self)) CUBIC_BETA)) (2 * m)) by (cbn; by rewrite E1, E2).
  assert (E4 : mss s2 = m) by done. clearbody s2. rewrite E4.
  split; [split; cbn; rewrite ?E3, ?E4; try done; [destruct is_rto; lia|lia]|].
  cbn. rewrite E3. split; [lia|]. split; [lia|done].
Qed.

(** *** What CUBIC guarantees *)

(** Bytes a sequence of events acknowledges. *)
Definition acked_bytes (es : list (Instant * Event)) : Z :=
  foldr (fun te n => match te.2 with EAck acked => acked + n | _ => n end) 0 es.

Lemma dups_ok m credit self d : cubic_ok m credit self -> cubic_ok m credit (self <| dup_acks := d |>).
Proof. intros []. by split. Qed.

Lemma cubic_feed_ok m credit self now e :
  cubic_ok m credit self -> event_ok e ->
  credit + (match e with EAck acked => acked | _ => 0 end) < 2 ^ 52 ->
  exists self', feed self now e = Some self' /\ cubic_ok m (credit + match e with EAck acked => acked | _ => 0 end) self'.
Proof.
  intros Hok He Hb. rewrite ?Z.add_0_r.
  destruct e as [n|n|n|n|n k|n|? ? ? ?|? ? ? ? ?]; cbn [feed]; rewrite ?Z.add_0_r; try (by exists self).
  - pose proof Hok as [[_ Hm] _ _ Hcr _ _]. pose proof He as Hn. unfold event_ok, is_u32 in Hn.
    destruct (segments_counts n m ltac:(lia) Hm) as [_ Hs].
    destruct (cubic_on_ack_spec m credit self now n Hok He ltac:(lia)) as (self' & k & E & [? ? ? ? Ha Hw] & _). exists self'.
    split; [exact E|]. split; try done; [lia|eapply counts_mono; [exact Ha|lia]|eapply counts_mono; [exact Hw|lia]].
  - cbn. unfold on_dup_ack. set (s1 := self <| dup_acks := _ |>). assert (Hok1 : cubic_ok m credit s1) by (destruct Hok; by split).
    case_ifs; [|by exists s1]. eexists. split; [reflexivity|]. exact (proj1 (congestion_event_spec m credit s1 false Hok1)).
  - eexists. split; [reflexivity|]. apply dups_ok. exact (proj1 (congestion_event_spec m credit self false Hok)).
  - eexists. split; [reflexivity|]. exact (proj1 (congestion_event_spec m credit self true Hok)).
Qed.

Lemma cubic_feeds_ok m es : forall credit self,
  cubic_ok m credit self -> events_ok es -> credit + acked_bytes es < 2 ^ 52 ->
  exists self', feeds self es = Some self' /\ cubic_ok m (credit + acked_bytes es) self'.
Proof.
  induction es as [|[now e] es IH]; intros credit self Hok Hes Hb; [exists self; by rewrite Z.add_0_r|].
  apply List.Forall_cons_iff in Hes as [He Hes]. cbn [feeds].
  assert (Hnn : 0 <= acked_bytes es).
  { clear -Hes. induction Hes as [|[t e] es He Hes IH]; [done|]. cbn [acked_bytes foldr] in *. fold (acked_bytes es).
    destruct e; cbn in *; unfold is_u32, acked_bytes in *; lia. }
  assert (E : acked_bytes ((now, e) :: es) = (match e with EAck acked => acked | _ => 0 end) + acked_bytes es) by (by destruct e).
  rewrite E in *. destruct (cubic_feed_ok m credit self now e Hok He ltac:(lia)) as (s1 & -> & Hok1).
  destruct (IH _ s1 Hok1 Hes ltac:(lia)) as (self' & E2 & Hok2). exists self'. split; [exact E2|].
  by rewrite Z.add_assoc.
Qed.

(** CUBIC's floating-point loops end: on any connection that
    acknowledges fewer than 2^52 bytes, whatever the times, losses, timeouts and
    byte counts, no event panics or loops forever, the window stays between one
    segment and 2^32-1 and the threshold at two segments or more. *)
Lemma cubic_is_live m es :
  0 < m <= U16_MAX -> events_ok es -> acked_bytes es < 2 ^ 52 ->
  exists self, feeds (new m) es = Some self /\ m <= cwnd self <= U32_MAX /\ 2 * m <= ssthresh self <= U32_MAX.
Proof.
  intros Hm Hes Hb. destruct (cubic_feeds_ok m es 0 (new m) (cubic_new_ok m Hm) Hes Hb) as (self & E & [_ Hc Hs _ _ _]).
  by exists self.
Qed.

(** A loss, then acknowledgements along the curve. *)
Definition demo_events : list (Instant * Event) :=
  [(0, EAck 14600); (20000, EEnterRecovery 14600); (40000, EAck 14600); (1060000, EAck 14600); (9000000, EAck 29200)].
Lemma cubic_is_live_witness : exists self, feeds (new 1460) demo_events = Some self /\ 11241 <= cwnd self.
Proof.
  destruct (cubic_is_live 1460 demo_events) as (self & H & _).
  - lia.
  - repeat apply List.Forall_cons; try apply List.Forall_nil; cbn; unfold is_u32; lia.
  - cbn. lia.
  - exists self. split; [exact H|]. vm_compute in H. injection H as <-. vm_compute. discriminate.
Defined.

(** C38 — bounds.  CUBIC never outgrows slow start: however steep the curve,
    [k] segments of growth on an acknowledgement use up [k] acknowledged
    segments of the credit, which the acknowledgement raised by its own. *)
Theorem cubic_growth_is_paid m credit self now acked :
  cubic_ok m credit self -> is_u32 acked -> credit + segments acked m < 2 ^ 52 ->
  exists self' k, on_ack self now acked = Some self' /\
    0 <= k <= credit + segments acked m /\ cwnd self <= cwnd self' <= cwnd self + k * m /\
    counts (cwnd_cnt self') (credit + segments acked m - k) /\ ssthresh self' = ssthresh self.
Proof.
  intros Hok Ha Hb. destruct (cubic_on_ack_spec m credit self now acked Hok Ha Hb) as (self' & k & H1 & _ & H2 & H3 & H4 & H5).
  by exists self', k.
Qed.

Lemma cubic_growth_is_paid_witness :
  exists self', on_ack (new 1460) 0 14600 = Some self' /\ cwnd self' <= 14600 + 10 * 1460.
Proof.
  destruct (cubic_growth_is_paid 1460 0 (new 1460) 0 14600) as (self' & k & H & Hk & Hc & _).
  - apply cubic_new_ok. lia.
  - unfold is_u32; lia.
  - unfold segments. vm_compute. reflexivity.
  - exists self'. split; [exact H|]. change (cwnd (new 1460)) with 14600 in Hc. change (0 + segments 14600 1460) with 10 in Hk. lia.
Defined.

(** The response to loss is the gentler cut: an early loss
    declaration sets window and threshold to 0.7 of the WINDOW (between 716/1024
    and 717/1024 of it, in binary64), never less than two segments, whatever the
    FlightSize; a timeout sets the same threshold and one segment of window. *)
Lemma cubic_loss_response m credit self now flight :
  cubic_ok m credit self ->
  (exists self', enter_recovery self now flight = Some self' /\ cwnd self' = ssthresh self' /\ dup_acks self' = 0 /\
     716 * cwnd self / 1024 <= ssthresh self' <= Z.max (717 * cwnd self / 1024) (2 * m) /\ 2 * m <= ssthresh self') /\
  (exists self', on_rto self now flight = Some self' /\ cwnd self' = m /\
     716 * cwnd self / 1024 <= ssthresh self' <= Z.max (717 * cwnd self / 1024) (2 * m) /\ 2 * m <= ssthresh self').
Proof.
  intros Hok. unfold enter_recovery, on_rto. split.
  - destruct (congestion_event_spec m credit self false Hok) as (_ & H1 & H2 & H3). revert H1 H2 H3.
    generalize (congestion_event self false). intros self1 H1 H2 H3. eexists. split; [reflexivity|].
    split; [exact H3|split; [reflexivity|split; [exact H1|exact H2]]].
  - destruct (congestion_event_spec m credit self true Hok) as (_ & H1 & H2 & H3). revert H1 H2 H3.
    generalize (congestion_event self true). intros self1 H1 H2 H3. exists self1. split; [reflexivity|]. split; [exact H3|split; [exact H1|exact H2]].
Qed.

Lemma cubic_loss_response_witness :
  exists self', enter_recovery (new 1460) 5 14600 = Some self' /\ 10208 <= cwnd self' <= 10222.
Proof.
  destruct (cubic_loss_response 1460 0 (new 1460) 5 14600 (cubic_new_ok 1460 ltac:(lia))) as [(self' & H & Hc & _ & Hs & _) _].
  exists self'. split; [exact H|]. rewrite Hc. change (716 * cwnd (new 1460) / 1024) with 10208 in Hs.
  change (717 * cwnd (new 1460) / 1024) with 10222 in Hs. lia.
Defined.
End Cubic.
