(* ===== verification/Cc.v ===== *)
(** The controller a connection holds: the [Cc] enum of
    [tcp-core/src/congestion.rs], which dispatches the trait to the seven
    controllers. *)

From S2P Require Import Prelude Seq Time F64 Congestion Controllers F64Order Synth Bbr Cubic.

#[export] Existing Instances Dctcp.Dctcp_control Dctcp.Dctcp_laws Prague.Prague_control Prague.Prague_laws.
#[export] Existing Instances Learned.Learned_control Learned.Learned_laws Synth.Synth_control SynthFacts.Synth_laws.
#[export] Existing Instances Reno.Reno_control Reno.Reno_laws Bbr.Bbr_control BbrFacts.Bbr_laws Cubic.Cubic_control.

Inductive Cc :=
  | Cc_Reno (c : Reno.Reno) | Cc_Cubic (c : Cubic.Cubic) | Cc_Bbr (c : Bbr.Bbr) | Cc_Dctcp (c : Dctcp.Dctcp)
  | Cc_Learned (c : Learned.Learned) | Cc_Prague (c : Prague.Prague) | Cc_Synth (c : Synth.Synth).

(** [Cc::new]; the two thread-local overrides are arguments. *)
Definition new (LEARNED_OVERRIDE : option Learned.LearnedParams) (SYNTH_OVERRIDE : option ControlProgram)
    (kind : CcKind) (m : Z) : Cc :=
  match kind with
  | CcReno => Cc_Reno (Reno.new m)
  | CcCubic => Cc_Cubic (Cubic.new m)
  | CcBbr => Cc_Bbr (Bbr.new m)
  | CcDctcp => Cc_Dctcp (Dctcp.new m)
  | CcLearned => Cc_Learned (Learned.new LEARNED_OVERRIDE m)
  | CcPrague => Cc_Prague (Prague.new m)
  | CcSynth => Cc_Synth (Synth.new SYNTH_OVERRIDE m)
  end.

(** The [match self] of every method: a query, an update, an update with a
    result. *)
Definition ask {R} (f : forall C, CongestionControl C -> C -> R) (self : Cc) : R :=
  match self with
  | Cc_Reno c => f _ _ c | Cc_Cubic c => f _ _ c | Cc_Bbr c => f _ _ c | Cc_Dctcp c => f _ _ c
  | Cc_Learned c => f _ _ c | Cc_Prague c => f _ _ c | Cc_Synth c => f _ _ c
  end.
Definition tell {R} (f : forall C, CongestionControl C -> C -> option (C * R)) (self : Cc) : option (Cc * R) :=
  match self with
  | Cc_Reno c => let? (c, r) := f _ _ c in Some (Cc_Reno c, r)
  | Cc_Cubic c => let? (c, r) := f _ _ c in Some (Cc_Cubic c, r)
  | Cc_Bbr c => let? (c, r) := f _ _ c in Some (Cc_Bbr c, r)
  | Cc_Dctcp c => let? (c, r) := f _ _ c in Some (Cc_Dctcp c, r)
  | Cc_Learned c => let? (c, r) := f _ _ c in Some (Cc_Learned c, r)
  | Cc_Prague c => let? (c, r) := f _ _ c in Some (Cc_Prague c, r)
  | Cc_Synth c => let? (c, r) := f _ _ c in Some (Cc_Synth c, r)
  end.
Definition dispatch (f : forall C, CongestionControl C -> C -> option C) (self : Cc) : option Cc :=
  let? (c, _) := tell (fun C K c => let? c := f C K c in Some (c, tt)) self in Some c.

Definition cwnd : Cc -> Z := ask (fun C K c => cc_cwnd c).
Definition ssthresh : Cc -> Z := ask (fun C K c => cc_ssthresh c).
Definition on_ack (self : Cc) (now : Instant) (acked : Z) : option Cc := dispatch (fun C K c => cc_on_ack c now acked) self.
Definition on_dup_ack (self : Cc) (now : Instant) (flight_size : Z) : option (Cc * bool) :=
  tell (fun C K c => cc_on_dup_ack c now flight_size) self.
Definition enter_recovery (self : Cc) (now : Instant) (flight_size : Z) : option Cc :=
  dispatch (fun C K c => cc_enter_recovery c now flight_size) self.
Definition on_rto (self : Cc) (now : Instant) (flight_size : Z) : option Cc :=
  dispatch (fun C K c => cc_on_rto c now flight_size) self.
Definition set_mss (self : Cc) (m : Z) : option Cc := dispatch (fun C K c => cc_set_mss c m) self.
Definition pacing_rate : Cc -> option Z := ask (fun C K c => cc_pacing_rate c).
Definition on_transmit (self : Cc) (now : Instant) (seq_end : SeqNumber) (bytes inflight : Z) (app_limited : bool) : option Cc :=
  dispatch (fun C K c => cc_on_transmit c now seq_end bytes inflight app_limited) self.
Definition on_ack_sample (self : Cc) (now : Instant) (snd_una : SeqNumber) (inflight acked pipe : Z) (in_recovery : bool) : option Cc :=
  dispatch (fun C K c => cc_on_ack_sample c now snd_una inflight acked pipe in_recovery) self.
Definition on_ecn (self : Cc) (now : Instant) (acked marked : Z) : option Cc :=
  dispatch (fun C K c => cc_on_ecn c now acked marked) self.
Definition on_rtt_sample (self : Cc) (srtt_us : Z) : option Cc := dispatch (fun C K c => cc_on_rtt_sample c srtt_us) self.

#[export] Instance Cc_control : CongestionControl Cc := {
  cc_cwnd := cwnd;
  cc_ssthresh := ssthresh;
  cc_on_ack := on_ack;
  cc_on_dup_ack := on_dup_ack;
  cc_enter_recovery := enter_recovery;
  cc_on_rto := on_rto;
  cc_set_mss := set_mss;
  cc_pacing_rate := pacing_rate;
  cc_on_transmit := on_transmit;
  cc_on_ack_sample := on_ack_sample;
  cc_on_ecn := on_ecn;
  cc_on_rtt_sample := on_rtt_sample;
}.

(** *** The promise, through the dispatch *)

(** Dispatch of an event is the event of the controller held. *)
Lemma feed_dispatch {C} `{CongestionControl C} (wrap : C -> Cc) (c : C) now e :
  (forall R (f : forall C, CongestionControl C -> C -> option (C * R)),
     tell f (wrap c) = let? (c, r) := f C _ c in Some (wrap c, r)) ->
  feed (wrap c) now e = let? c := feed c now e in Some (wrap c).
Proof.
  intros Hw.
  assert (Hd : forall f : (forall C, CongestionControl C -> C -> option C),
    dispatch f (wrap c) = let? c := f C _ c in Some (wrap c)).
  { intros f. unfold dispatch. rewrite Hw. by destruct (f C _ c). }
  destruct e; cbn [feed]; try apply Hd. cbn. unfold on_dup_ack. rewrite Hw. by destruct (cc_on_dup_ack _ _ _) as [[]|].
Qed.
Lemma feeds_dispatch {C} `{CongestionControl C} (wrap : C -> Cc) es :
  (forall c R (f : forall C, CongestionControl C -> C -> option (C * R)),
     tell f (wrap c) = let? (c, r) := f C _ c in Some (wrap c, r)) ->
  forall c, feeds (wrap c) es = let? c := feeds c es in Some (wrap c).
Proof.
  intros Hw. induction es as [|[now e] es IH]; intros c; [done|]. cbn [feeds].
  rewrite feed_dispatch by (by intros; apply Hw). destruct (feed c now e); [apply IH|done].
Qed.

(** Through the dispatch, a controller with laws stays live. *)
Lemma live_through {C} `{CongestionLaws C} (wrap : C -> Cc) m c es :
  (forall c R (f : forall C, CongestionControl C -> C -> option (C * R)),
     tell f (wrap c) = let? (c, r) := f C _ c in Some (wrap c, r)) ->
  (forall c, cwnd (wrap c) = cc_cwnd c) -> cc_ok m c -> events_ok es ->
  exists c', feeds (wrap c) es = Some (wrap c') /\ m <= cwnd (wrap c') <= U32_MAX.
Proof.
  intros Hw Hc Hok Hes. destruct (feeds_ok m es c Hes Hok) as (c' & E & Hok'). exists c'.
  rewrite feeds_dispatch by done. rewrite E. split; [done|]. rewrite Hc. by apply cc_ok_cwnd.
Qed.

(** C32 — safety.  Whichever of the seven controllers a connection selects, and
    whatever genome or program the two overrides install, no event panics or
    loops forever and the window stays between one segment and 2^32-1: through
    the dispatch, on any connection that acknowledges fewer than 2^52 bytes. *)
Theorem every_controller_is_live lo so kind m es :
  0 < m <= U16_MAX -> (forall g, lo = Some g -> Learned.genome_ok g) -> (forall p, so = Some p -> program_ok p) ->
  events_ok es -> Cubic.acked_bytes es < 2 ^ 52 ->
  exists c, feeds (new lo so kind m) es = Some c /\ m <= cwnd c <= U32_MAX.
Proof.
  intros Hm Hlo Hso Hes Hb. destruct kind; cbn [new].
  - destruct (live_through Cc_Reno m (Reno.new m) es) as (c & E & Hc); try done; [exact (Reno.new_ok m Hm)|by eexists].
  - destruct (Cubic.cubic_feeds_ok m es 0 (Cubic.new m) (Cubic.cubic_new_ok m Hm) Hes Hb) as (c & E & [_ Hc _ _ _ _]).
    exists (Cc_Cubic c). rewrite feeds_dispatch by done. by rewrite E.
  - destruct (live_through Cc_Bbr m (Bbr.new m) es) as (c & E & Hc); try done; [exact (BbrFacts.bbr_new_ok m Hm)|by eexists].
  - destruct (live_through Cc_Dctcp m (Dctcp.new m) es) as (c & E & Hc); try done; [exact (Dctcp.dctcp_new_ok m Hm)|by eexists].
  - destruct (live_through Cc_Learned m (Learned.new lo m) es) as (c & E & Hc); try done;
      [exact (Learned.learned_new_ok lo m Hm Hlo)|by eexists].
  - destruct (live_through Cc_Prague m (Prague.new m) es) as (c & E & Hc); try done; [exact (Prague.prague_new_ok m Hm)|by eexists].
  - destruct (live_through Cc_Synth m (Synth.new so m) es) as (c & E & Hc); try done; [|by eexists].
    apply (SynthFacts.synth_new_ok m (current_program so) Hm). destruct so as [p|]; [by apply Hso|exact SynthFacts.AIMD_ok].
Qed.

Lemma every_controller_is_live_witness :
  exists c, feeds (new None (Some SynthFacts.wild_law) CcSynth 1460) [(0, EAck 14600); (5, ERto 2920)] = Some c /\ 1460 <= cwnd c.
Proof.
  destruct (every_controller_is_live None (Some SynthFacts.wild_law) CcSynth 1460 [(0, EAck 14600); (5, ERto 2920)]) as (c & E & Hc & _).
  - lia.
  - discriminate.
  - intros p [= <-]. exact SynthFacts.wild_law_ok.
  - repeat apply List.Forall_cons; try apply List.Forall_nil; cbn; unfold is_u32; lia.
  - cbn. lia.
  - exists c. split; [exact E|exact Hc].
Defined.
