(* ===== verification/Bmc.v ===== *)
(** The bounded model checker: [tcp-core/src/bmc.rs].

    The exhaustive sweeps as functions, their messages included, and what they
    prove: a sweep finds nothing exactly when every sequence of operations up to
    its depth keeps the invariant ([sweep_is_exhaustive]), and on this program
    every sweep finds nothing, whatever its depth. *)

From stdpp Require Import strings pretty.
From S2P Require Import Prelude Seq Time Sack TcpWire F64 Congestion Controllers.

(** *** Reports *)

Record BmcReport := mkReport { cases : Z; violations : Z; first_violation : option string }.
#[export] Instance BmcReport_settable : Settable BmcReport :=
  fun r => mkReport (cases r) (violations r) (first_violation r).
Definition report_default : BmcReport := mkReport 0 0 None.

Definition check (self : BmcReport) (result : Result unit string) : BmcReport :=
  let self := self <| cases := wrap64 (cases self + 1) |> in
  match result with
  | Ok _ => self
  | Err why =>
      let self := self <| violations := wrap64 (violations self + 1) |> in
      if is_none (first_violation self) then self <| first_violation := Some why |> else self
  end.

(** *** The tree walk the two sweeps share *)
Section explore.
Context {S Op : Type} (step : S -> Op -> option (S * Result unit string)).

(** The [for]: every operation in a fresh copy of the state, then [visit]. *)
Fixpoint for_ops (visit : S -> BmcReport -> option BmcReport) (s : S) (ops : list Op) (report : BmcReport)
  : option BmcReport :=
  match ops with
  | [] => Some report
  | op :: ops =>
      let? (next, result) := step s op in
      let report := check report result in
      let? report := visit next report in
      for_ops visit s ops report
  end.

Fixpoint explore (alphabet : list Op) (depth : nat) (s : S) (report : BmcReport) : option BmcReport :=
  match depth with
  | O => Some report
  | Datatypes.S depth => for_ops (explore alphabet depth) s alphabet report
  end.

(** The property a sweep samples: no step of the sequence panics, and the
    invariant holds after each. *)
Fixpoint passes (s : S) (ops : list Op) : Prop :=
  match ops with
  | [] => True
  | op :: ops => exists next, step s op = Some (next, Ok tt) /\ passes next ops
  end.

(** The states a sweep visits: [a + a^2 + ... + a^depth]. *)
Fixpoint sweep_size (a : Z) (depth : nat) : Z :=
  match depth with O => 0 | Datatypes.S depth => a * (1 + sweep_size a depth) end.

Definition clean (r : BmcReport) : Prop := violations r = 0 /\ first_violation r = None.

Lemma check_first r res : first_violation (check r res) = None -> first_violation r = None /\ res = Ok tt.
Proof. destruct res as [[]|w]; cbn; [done|]. by destruct (first_violation r) eqn:E; cbn; rewrite ?E. Qed.
Lemma check_clean r : clean r -> clean (check r (Ok tt)) /\ cases (check r (Ok tt)) = wrap64 (cases r + 1).
Proof. by intros [H1 H2]. Qed.

(** A violation, once reported, stays reported. *)
Lemma for_ops_first visit s ops : 
  (forall next r r', visit next r = Some r' -> first_violation r' = None -> first_violation r = None) ->
  forall r r', for_ops visit s ops r = Some r' -> first_violation r' = None -> first_violation r = None.
Proof.
  intros Hv. induction ops as [|op ops IH]; intros r r' E Hn; cbn in E; [congruence|].
  destruct (step s op) as [[next res]|]; [|done].
  destruct (visit next (check r res)) as [r1|] eqn:E1; [|done].
  apply (IH _ _ E), (Hv _ _ _ E1) in Hn. by apply check_first in Hn as [? _].
Qed.
Lemma explore_first alphabet depth : forall s r r',
  explore alphabet depth s r = Some r' -> first_violation r' = None -> first_violation r = None.
Proof.
  induction depth as [|depth IH]; intros s r r'; cbn; [congruence|]. apply for_ops_first. intros next. apply IH.
Qed.

Lemma wrap64_add a b : wrap64 (wrap64 a + b) = wrap64 (a + b).
Proof. unfold wrap64. apply Zplus_mod_idemp_l. Qed.

(** A clean sweep from a set of states every operation keeps. *)
Lemma explore_clean (inv : S -> Prop) alphabet :
  (forall s op, inv s -> In op alphabet -> exists next, step s op = Some (next, Ok tt) /\ inv next) ->
  forall depth s r, inv s -> clean r ->
  exists r', explore alphabet depth s r = Some r' /\ clean r' /\
    (cases r = wrap64 (cases r) -> cases r' = wrap64 (cases r + sweep_size (zlen alphabet) depth)).
Proof.
  intros Hstep. induction depth as [|depth IH]; intros s r Hs Hr.
  { exists r. cbn. rewrite Z.add_0_r. auto. }
  cbn [explore].
  assert (H : forall ops r, incl ops alphabet -> clean r ->
    exists r', for_ops (explore alphabet depth) s ops r = Some r' /\ clean r' /\ (cases r = wrap64 (cases r) ->
      cases r' = wrap64 (cases r + zlen ops * (1 + sweep_size (zlen alphabet) depth)))).
  { induction ops as [|op ops IHops]; intros r0 Hincl Hr0.
    { exists r0. cbn. rewrite Z.add_0_r. auto. }
    destruct (Hstep s op Hs) as (next & E & Hn); [apply Hincl; by left|]. cbn [for_ops]. rewrite E.
    destruct (check_clean r0 Hr0) as [Hc Hcc].
    destruct (IH next _ Hn Hc) as (r1 & -> & Hr1 & Hc1).
    destruct (IHops r1) as (r' & -> & Hr' & Hc'); [intros x Hx; apply Hincl; by right|done|].
    exists r'. split; [done|]. split; [exact Hr'|]. intros Hw. specialize (Hc1 (eq_sym (Zmod_mod _ _))).
    rewrite Hc' by (rewrite Hc1; symmetry; apply Zmod_mod). rewrite Hc1, Hcc, wrap64_add, <- !Z.add_assoc, !wrap64_add.
    f_equal. rewrite zlen_cons. ring. }
  apply (H alphabet r); [intros x; exact id|done].
Qed.

(** A sweep that finds nothing has shown the bounded property, and conversely. *)
Lemma explore_exhaustive alphabet depth : forall s r,
  first_violation r = None ->
  (exists r', explore alphabet depth s r = Some r' /\ first_violation r' = None) <->
  (forall ops, incl ops alphabet -> (length ops <= depth)%nat -> passes s ops).
Proof.
  induction depth as [|depth IH]; intros s r Hr.
  { split; [|by exists r]. intros _ [|? ?] _ Hl; [done|cbn in Hl; lia]. }
  cbn [explore].
  assert (H : forall ops r, first_violation r = None ->
    (exists r', for_ops (explore alphabet depth) s ops r = Some r' /\ first_violation r' = None) <->
    (forall op, In op ops -> exists next, step s op = Some (next, Ok tt) /\
       forall rest, incl rest alphabet -> (length rest <= depth)%nat -> passes next rest)).
  { induction ops as [|op ops IHops]; intros r0 Hr0; [split; [done|by exists r0]|]. cbn [for_ops]. split.
    - intros (r' & E & Hn). destruct (step s op) as [[next res]|] eqn:Es; [|done].
      destruct (explore alphabet depth next (check r0 res)) as [r1|] eqn:E1; [|done].
      assert (Hn1 : first_violation r1 = None).
      { eapply for_ops_first; [|exact E|exact Hn]. intros ?. apply explore_first. }
      pose proof (explore_first _ _ _ _ _ E1 Hn1) as Hc. destruct (check_first _ _ Hc) as [_ ->].
      intros op' [<-|Hin].
      + exists next. split; [done|]. apply (IH next (check r0 (Ok tt)) Hc). by exists r1.
      + apply (IHops r1 Hn1); [by exists r'|done].
    - intros Hall. destruct (Hall op) as (next & -> & Hnext); [by left|].
      destruct (proj2 (IH next (check r0 (Ok tt)) Hr0) Hnext) as (r1 & -> & Hn1).
      apply (IHops r1 Hn1). intros op' Hin. apply Hall. by right. }
  rewrite (H alphabet r Hr). split.
  - intros Hall [|op ops] Hincl Hl; [done|]. destruct (Hall op) as (next & E & Hnext); [apply Hincl; by left|].
    cbn. exists next. split; [done|]. apply Hnext; [intros x Hx; apply Hincl; by right|cbn in Hl; lia].
  - intros Hall op Hin. destruct (Hall [op]) as (next & E & _); [intros x [<-|[]]; done|cbn; lia|].
    exists next. split; [done|]. intros rest Hincl Hl.
    destruct (Hall (op :: rest)) as (next' & E' & Hp); [intros x [<-|Hx]; auto|cbn; lia|].
    rewrite E in E'. by injection E' as <-.
Qed.

End explore.

(** *** The congestion-control safety envelope *)
Module Cc.

#[export] Existing Instances Reno.Reno_control Reno.Reno_laws Reno.Reno_safe
  Dctcp.Dctcp_control Dctcp.Dctcp_laws Dctcp.Dctcp_safe Prague.Prague_control Prague.Prague_laws Prague.Prague_safe
  Learned.Learned_control Learned.Learned_laws Learned.Learned_safe.

Definition CC_NOW : Instant := ZERO.

Inductive Flight := Small | Window | Large.
Inductive CcEvent :=
  | Ack (acked : Z) | Ecn (acked marked : Z) | Rtt (srtt_us : Z)
  | DupAck (fl : Flight) | Rto (fl : Flight) | EnterRecovery (fl : Flight).

Definition cc_alphabet (mss : Z) : list CcEvent :=
  let w := 10 * mss in
  [Ack 0; Ack mss; Ack w; Ecn w 0; Ecn w mss; Ecn w w; Rtt 1000; Rtt 200000;
   DupAck Small; DupAck Window; DupAck Large; Rto Small; Rto Window; Rto Large;
   EnterRecovery Small; EnterRecovery Window; EnterRecovery Large].

Definition flight_bytes (mss : Z) (fl : Flight) : Z :=
  match fl with Small => 2 * mss | Window => 10 * mss | Large => 40 * mss end.

Section controller.
Context {C : Type} `{!CongestionControl C}.

Definition apply_cc (c : C) (ev : CcEvent) (mss : Z) : option (C * option Z) :=
  match ev with
  | Ack a => let? c := cc_on_ack c CC_NOW a in Some (c, None)
  | Ecn a m => let? c := cc_on_ecn c CC_NOW a m in Some (c, None)
  | Rtt s => let? c := cc_on_rtt_sample c s in Some (c, None)
  | DupAck fl =>
      let f := flight_bytes mss fl in
      let? (c, fired) := cc_on_dup_ack c CC_NOW f in
      Some (c, if fired then Some f else None)
  | Rto fl => let f := flight_bytes mss fl in let? c := cc_on_rto c CC_NOW f in Some (c, Some f)
  | EnterRecovery fl =>
      let f := flight_bytes mss fl in let? c := cc_enter_recovery c CC_NOW f in Some (c, Some f)
  end.
End controller.

Definition CLAUSE_LOSS_INFLATED : string := "loss inflated cwnd".
Definition CLAUSE_ECN_GREW : string := "ECN mark grew cwnd".
Definition CLAUSE_ACK_SHRANK : string := "clean ACK shrank cwnd".

(** [matches!(ev, Ecn(..))] and [matches!(ev, Ack(a) if a > 0)]. *)
Definition is_ecn (ev : CcEvent) : bool := match ev with Ecn _ _ => true | _ => false end.
Definition is_clean_ack (ev : CcEvent) : bool := match ev with Ack a => 0 <? a | _ => false end.

Definition ecn_and_ack_clauses (ev : CcEvent) (cwnd_before cwnd : Z) : Result unit string :=
  if is_ecn ev && (cwnd_before <? cwnd) then
    Err ("an " +:+ CLAUSE_ECN_GREW +:+ ": " +:+ pretty cwnd_before +:+ " -> " +:+ pretty cwnd)
  else if is_clean_ack ev && (cwnd <? cwnd_before) then
    Err ("a " +:+ CLAUSE_ACK_SHRANK +:+ ": " +:+ pretty cwnd_before +:+ " -> " +:+ pretty cwnd)
  else Ok tt.

Definition cc_safety_invariants (ev : CcEvent) (cwnd_before cwnd ssthresh mss : Z) (loss_flight : option Z)
  : Result unit string :=
  if cwnd <? mss then Err ("cwnd " +:+ pretty cwnd +:+ " fell below one MSS " +:+ pretty mss)
  else
    match loss_flight with
    | Some flight =>
        if Z.max flight (2 * mss) <? cwnd then
          Err (CLAUSE_LOSS_INFLATED +:+ " above the FlightSize: cwnd " +:+ pretty cwnd +:+ " > max(flight " +:+
               pretty flight +:+ ", 2·MSS " +:+ pretty (2 * mss) +:+ ")")
        else if ssthresh <? 2 * mss then
          Err ("ssthresh " +:+ pretty ssthresh +:+ " below the 2·MSS floor " +:+ pretty (2 * mss) +:+ " after loss")
        else ecn_and_ack_clauses ev cwnd_before cwnd
    | None => ecn_and_ack_clauses ev cwnd_before cwnd
    end.

Abbreviation CcInvariant := (CcEvent -> Z -> Z -> Z -> Z -> option Z -> Result unit string).

Section sweep.
Context {C : Type} `{!CongestionControl C}.

(** One event on a clone, and the verdict of the invariant. *)
Definition cc_step (inv : CcInvariant) (mss : Z) (c : C) (ev : CcEvent) : option (C * Result unit string) :=
  let cwnd_before := cc_cwnd c in
  let? (next, loss_flight) := apply_cc c ev mss in
  Some (next, inv ev cwnd_before (cc_cwnd next) (cc_ssthresh next) mss loss_flight).
Definition explore_cc (alphabet : list CcEvent) (inv : CcInvariant) (mss : Z) (c : C) (depth : nat)
    (report : BmcReport) : option BmcReport :=
  explore (cc_step inv mss) alphabet depth c report.
Definition run_cc_sweep (controller : C) (mss : Z) (depth : nat) (inv : CcInvariant) : option BmcReport :=
  explore_cc (cc_alphabet mss) inv mss controller depth report_default.
Definition check_controller_safety (controller : C) (mss : Z) (depth : nat) : option BmcReport :=
  run_cc_sweep controller mss depth cc_safety_invariants.
End sweep.

Lemma invariants_ok ev before cwnd ssthresh mss loss :
  mss <= cwnd ->
  (forall flight, loss = Some flight -> cwnd <= Z.max flight (2 * mss) /\ 2 * mss <= ssthresh) ->
  (is_ecn ev = true -> cwnd <= before) -> (is_clean_ack ev = true -> before <= cwnd) ->
  cc_safety_invariants ev before cwnd ssthresh mss loss = Ok tt.
Proof.
  intros H1 H2 H3 H4. unfold cc_safety_invariants.
  replace (cwnd <? mss) with false by lia.
  assert (E : ecn_and_ack_clauses ev before cwnd = Ok tt).
  { unfold ecn_and_ack_clauses. destruct (is_ecn ev); [replace (before <? cwnd) with false by (specialize (H3 eq_refl); lia)|];
      cbn [andb]; (destruct (is_clean_ack ev); [replace (cwnd <? before) with false by (specialize (H4 eq_refl); lia)|]);
      done. }
  destruct loss as [flight|]; [|exact E]. destruct (H2 flight eq_refl).
  replace (Z.max flight (2 * mss) <? cwnd) with false by lia.
  by replace (ssthresh <? 2 * mss) with false by lia.
Qed.

(** Every event of the alphabet is in range. *)
Lemma alphabet_in_range mss ev :
  0 < mss <= U16_MAX -> In ev (cc_alphabet mss) ->
  match ev with
  | Ack a => is_u32 a
  | Ecn a m => is_u32 a /\ is_u32 m
  | Rtt _ => True
  | DupAck fl | Rto fl | EnterRecovery fl => is_u32 (flight_bytes mss fl)
  end.
Proof.
  intros Hm Hin. unfold cc_alphabet in Hin. cbn [In] in Hin. unfold is_u32.
  repeat (destruct Hin as [<-|Hin]; [cbn [flight_bytes]; lia|]). done.
Qed.

(** One event of a controller inside the envelope. *)
Lemma cc_step_safe `{SafetyEnvelope C} mss (c : C) ev :
  0 < mss <= U16_MAX -> cc_ok mss c -> In ev (cc_alphabet mss) ->
  exists next, cc_step cc_safety_invariants mss c ev = Some (next, Ok tt) /\ cc_ok mss next.
Proof.
  intros Hm Hok Hin. pose proof (alphabet_in_range mss ev Hm Hin) as Hr. unfold cc_step.
  destruct ev as [a|a m|srtt|fl|fl|fl]; cbn [apply_cc]; [| |clear Hr| | |].
  - destruct (cc_on_ack_ok mss c CC_NOW a Hok Hr) as (c' & E & Hok'). rewrite E. exists c'. split; [|done].
    pose proof (se_ack mss c CC_NOW a c' Hok Hr E). pose proof (cc_ok_cwnd mss c' Hok').
    rewrite invariants_ok; try done; lia.
  - destruct Hr as [Ha Hk]. destruct (cc_on_ecn_ok mss c CC_NOW a m Hok Ha Hk) as (c' & E & Hok'). rewrite E.
    exists c'. split; [|done].
    pose proof (se_ecn mss c CC_NOW a m c' Hok Ha Hk E). pose proof (cc_ok_cwnd mss c' Hok').
    rewrite invariants_ok; try done; lia.
  - destruct (cc_on_rtt_sample_ok mss c srtt Hok) as (c' & E & Hok'). rewrite E. exists c'. split; [|done].
    pose proof (cc_ok_cwnd mss c' Hok'). rewrite invariants_ok; try done; lia.
  - destruct (cc_on_dup_ack_ok mss c CC_NOW _ Hok Hr) as (c' & b & E & Hok'). rewrite E. exists c'. split; [|done].
    pose proof (se_dup mss c CC_NOW _ c' b Hok Hr E) as Hb. pose proof (cc_ok_cwnd mss c' Hok').
    rewrite invariants_ok; try done; [lia|]. by destruct b; intros ? [= <-].
  - destruct (cc_on_rto_ok mss c CC_NOW _ Hok Hr) as (c' & E & Hok'). rewrite E. exists c'. split; [|done].
    pose proof (se_rto mss c CC_NOW _ c' Hok Hr E) as Hb. pose proof (cc_ok_cwnd mss c' Hok').
    rewrite invariants_ok; try done; [lia|]. by intros ? [= <-].
  - destruct (cc_enter_recovery_ok mss c CC_NOW _ Hok Hr) as (c' & E & Hok'). rewrite E. exists c'. split; [|done].
    pose proof (se_recovery mss c CC_NOW _ c' Hok Hr E) as Hb. pose proof (cc_ok_cwnd mss c' Hok').
    rewrite invariants_ok; try done; [lia|]. by intros ? [= <-].
Qed.

Definition finds_nothing (depth : nat) (r : option BmcReport) : Prop :=
  r = Some (mkReport (wrap64 (sweep_size 17 depth)) 0 None).

Lemma safety_core `{SafetyEnvelope C} mss (c : C) depth :
  0 < mss <= U16_MAX -> cc_ok mss c -> finds_nothing depth (check_controller_safety c mss depth).
Proof.
  intros Hm Hok. unfold check_controller_safety, run_cc_sweep, explore_cc, finds_nothing.
  destruct (explore_clean (cc_step cc_safety_invariants mss) (cc_ok mss) (cc_alphabet mss)
    (fun c ev Hc Hin => cc_step_safe mss c ev Hm Hc Hin) depth c report_default Hok) as (r & -> & [Hv Hf] & Hc); [done|].
  specialize (Hc eq_refl). destruct r. cbn in *. by subst.
Qed.

(** The bounded checker's claim, without its bound: for every
    segment size and every depth, the sweep over Reno, DCTCP, TCP Prague and a
    learned controller with ANY genome the trainer may install (NaN and infinite
    genes included) visits all 17 + 17^2 + ... + 17^depth states, never panics
    and reports no violation of the safety envelope. *)
Lemma stock_controllers_are_safe mss depth genome :
  0 < mss <= U16_MAX -> (forall g, genome = Some g -> Learned.genome_ok g) ->
  finds_nothing depth (check_controller_safety (Reno.new mss) mss depth) /\
  finds_nothing depth (check_controller_safety (Dctcp.new mss) mss depth) /\
  finds_nothing depth (check_controller_safety (Prague.new mss) mss depth) /\
  finds_nothing depth (check_controller_safety (Learned.new genome mss) mss depth).
Proof.
  intros Hm Hg. split_and!; apply safety_core; try done.
  - by apply Reno.new_ok.
  - by apply Dctcp.dctcp_new_ok.
  - by apply Prague.prague_new_ok.
  - by apply Learned.learned_new_ok.
Qed.

Lemma stock_controllers_are_safe_witness :
  let nan_genome := Learned.mkParams SpecFloat.S754_nan SpecFloat.S754_nan (SpecFloat.S754_infinity true)
                      (SpecFloat.S754_infinity false) SpecFloat.S754_nan in
  check_controller_safety (Learned.new (Some nan_genome) 1000) 1000 4 = Some (mkReport 88740 0 None).
Proof.
  intros g. refine (proj2 (proj2 (proj2 (stock_controllers_are_safe 1000 4 (Some g) _ _)))).
  - lia.
  - intros ? [= <-]. vm_compute. auto.
Defined.

(** The sweep is exhaustive: over any controller and any
    invariant it ends without a reported violation exactly when every sequence of
    at most [depth] events of its alphabet runs without a panic and satisfies the
    invariant after each event. *)
Lemma sweep_is_exhaustive `{CongestionControl C} (c : C) mss depth (inv : CcInvariant) :
  (exists report, run_cc_sweep c mss depth inv = Some report /\ first_violation report = None) <->
  (forall events, incl events (cc_alphabet mss) -> (length events <= depth)%nat ->
     passes (cc_step inv mss) c events).
Proof. by apply explore_exhaustive. Qed.

(** *** The learned genome space *)

Definition grid (lo hi : f64) : list f64 := [lo; fdiv (fadd lo hi) f_two; hi].

(** The five nested [for]s, in their order. *)
Definition genomes : list Learned.LearnedParams :=
  flat_map (fun ai => flat_map (fun md => flat_map (fun ea => flat_map (fun eb => map (fun em =>
    Learned.mkParams ai md ea eb em) (grid (lit 5 100) (lit 95 100)))
    (grid (fneg f_one) f_two)) (grid f_zero f_two)) (grid (lit 1 10) (lit 95 100))) (grid (lit 5 100) (f_of 8)).

Definition absorb (report sub : BmcReport) : BmcReport :=
  mkReport (wrap64 (cases report + cases sub)) (wrap64 (violations report + violations sub))
    (if is_none (first_violation report) then first_violation sub else first_violation report).

Fixpoint sweep_genomes (mss : Z) (depth : nat) (gs : list Learned.LearnedParams) (report : BmcReport)
  : option BmcReport :=
  match gs with
  | [] => Some report
  | g :: gs =>
      let? sub := check_controller_safety (Learned.with_params (wrap16 mss) g) mss depth in
      sweep_genomes mss depth gs (absorb report sub)
  end.
Definition check_learned_genome_space (mss : Z) (depth : nat) : option BmcReport :=
  sweep_genomes mss depth genomes report_default.

Lemma genomes_ok : Forall Learned.genome_ok genomes.
Proof.
  assert (H : forall lo hi, f64_ok lo -> f64_ok hi -> Forall f64_ok (grid lo hi)).
  { intros. repeat apply List.Forall_cons; try done; apply fdiv_ok. }
  unfold genomes. rewrite List.Forall_flat_map. eapply List.Forall_impl; [|by apply H].
  intros ai Hai. rewrite List.Forall_flat_map. eapply List.Forall_impl; [|by apply H].
  intros md Hmd. rewrite List.Forall_flat_map. eapply List.Forall_impl; [|by apply H].
  intros ea Hea. rewrite List.Forall_flat_map. eapply List.Forall_impl; [|by apply H].
  intros eb Heb. rewrite List.Forall_map. eapply List.Forall_impl; [|by apply H]. by intros em Hem.
Qed.

Lemma absorb_clean r sub : clean r -> clean sub -> clean (absorb r sub).
Proof. intros [H1 H2] [H3 H4]. unfold absorb, clean. cbn. by rewrite H1, H2, H3, H4. Qed.

(** The sweep over the genome grid finds nothing at any segment
    size and any depth, and the grid is not what makes it so: the same sweep
    started from EVERY five-gene genome, sanitised, finds nothing either. *)
Lemma genome_space_is_safe mss depth :
  0 < mss <= U16_MAX ->
  (exists report, check_learned_genome_space mss depth = Some report /\ violations report = 0 /\
     first_violation report = None /\ zlen genomes = 243) /\
  (forall g, Learned.genome_ok g ->
     finds_nothing depth (check_controller_safety (Learned.with_params mss g) mss depth)).
Proof.
  intros Hm.
  assert (H : forall g, Learned.genome_ok g ->
    finds_nothing depth (check_controller_safety (Learned.with_params mss g) mss depth)).
  { intros g Hg. apply safety_core; [done|]. by apply Learned.raw_ok, Learned.sanitized_safe. }
  split; [|exact H]. unfold check_learned_genome_space.
  assert (Hl : forall gs r, Forall Learned.genome_ok gs -> clean r ->
    exists r', sweep_genomes mss depth gs r = Some r' /\ clean r').
  { intros gs r HF. revert r. induction HF as [|g gs Hg _ IH]; intros r Hr; [by exists r|]. cbn [sweep_genomes].
    assert (Ew : wrap16 mss = mss) by (unfold wrap16; rewrite Z.mod_small; lia). rewrite Ew, (H g Hg).
    apply IH. by apply absorb_clean. }
  destruct (Hl genomes report_default genomes_ok) as (r & -> & Hv & Hf); [done|].
  exists r. split_and!; done.
Qed.

Lemma genome_space_is_safe_witness :
  exists report, check_learned_genome_space 1460 5 = Some report /\ violations report = 0.
Proof.
  destruct (genome_space_is_safe 1460 5) as [(r & H1 & H2 & _) _]; [lia|]. exists r. split; [exact H1|exact H2].
Defined.

(** A genome that keeps twice the
    flight on a loss inflates the window past the pipe, the checker reports it in
    its first round with the loss clause, and the same genome sanitised is
    clean. *)
Lemma sanitizer_is_load_bearing :
  let pathological := Learned.mkParams f_one f_two (lit 1 2) f_zero (lit 1 2) in
  check_controller_safety (Learned.with_raw_params 1000 pathological) 1000 1
    = Some (mkReport 17 3 (Some
        "loss inflated cwnd above the FlightSize: cwnd 4000 > max(flight 2000, 2·MSS 2000)"%string)) /\
  check_controller_safety (Learned.with_params 1000 pathological) 1000 1 = Some (mkReport 17 0 None).
Proof. split; vm_compute; reflexivity. Qed.

End Cc.

(** *** The ACK-division byte bound *)
Module Split.
Import Cc.

(** [for_each_composition]: the closure's captured state is threaded; [n] units
    bound the recursion ([fuel]). *)
Section compositions.
Context {T : Type} (f : T -> list Z -> option T).

Fixpoint for_each_composition (fuel : nat) (n max_parts : Z) (prefix : list Z) (st : T) : option T :=
  if n =? 0 then f st prefix
  else if zlen prefix =? max_parts then Some st
  else
    match fuel with
    | O => None
    | Datatypes.S fuel =>
        (fix each (firsts : list Z) (st : T) : option T :=
           match firsts with
           | [] => Some st
           | first :: firsts =>
               let? st := for_each_composition fuel (n - first) max_parts (prefix ++ [first]) st in
               each firsts st
           end) (map Z.of_nat (List.seq 1 (Z.to_nat n))) st
    end.
End compositions.

(** The compositions visited, in order. *)
Fixpoint compositions (fuel : nat) (n max_parts : Z) (prefix : list Z) : list (list Z) :=
  if n =? 0 then [prefix]
  else if zlen prefix =? max_parts then []
  else
    match fuel with
    | O => []
    | Datatypes.S fuel =>
        flat_map (fun first => compositions fuel (n - first) max_parts (prefix ++ [first]))
          (map Z.of_nat (List.seq 1 (Z.to_nat n)))
    end.

Fixpoint visit_all {T A} (f : T -> A -> option T) (l : list A) (st : T) : option T :=
  match l with [] => Some st | x :: l => let? st := f st x in visit_all f l st end.

Lemma visit_all_app {T A} (f : T -> A -> option T) l1 l2 st :
  visit_all f (l1 ++ l2) st = let? st := visit_all f l1 st in visit_all f l2 st.
Proof. revert st. induction l1 as [|x l1 IH]; intros st; [done|]. cbn. by destruct (f st x). Qed.

Section controller.
Context {C : Type} `{!CongestionControl C}.

Fixpoint ack_parts (c : C) (unit_ : Z) (parts : list Z) : option C :=
  match parts with
  | [] => Some c
  | p :: parts => let? c := cc_on_ack c CC_NOW (p * unit_) in ack_parts c unit_ parts
  end.

Definition split_verdict (controller : C) (total_bytes unit_ : Z) (report : BmcReport) (parts : list Z)
  : option BmcReport :=
  let before := cc_cwnd controller in
  let? c := ack_parts controller unit_ parts in
  let growth := sat_sub (cc_cwnd c) before in
  Some (check report
    (if total_bytes <? growth then
       Err ("ACK-split inflated the window: " +:+ pretty (zlen parts) +:+ " ACKs grew cwnd by " +:+
            pretty growth +:+ " > " +:+ pretty total_bytes +:+ " bytes acked")
     else Ok tt)).

Definition check_ack_split_invariance (controller : C) (total_units unit_ max_acks : Z) : option BmcReport :=
  let? total_bytes := checked_u32 (total_units * unit_) in
  for_each_composition (split_verdict controller total_bytes unit_) (Z.to_nat total_units) total_units max_acks []
    report_default.

(** A controller counts bytes when growth is paid for out of acknowledged bytes
    and a credit it holds. *)
Definition byte_counting (inv : C -> Prop) (credit : C -> Z) : Prop :=
  forall c now acked, inv c -> is_u32 acked ->
  exists c', cc_on_ack c now acked = Some c' /\ inv c' /\ 0 <= credit c' /\
    cc_cwnd c' + credit c' <= cc_cwnd c + credit c + acked.
End controller.

Lemma for_each_visits {T} (f : T -> list Z -> option T) fuel : forall n max_parts prefix st,
  0 <= n <= Z.of_nat fuel ->
  for_each_composition f fuel n max_parts prefix st = visit_all f (compositions fuel n max_parts prefix) st.
Proof.
  induction fuel as [|fuel IH]; intros n mp prefix st Hn; cbn [for_each_composition compositions].
  - replace n with 0 by lia. cbn. by destruct (f st prefix).
  - destruct (n =? 0) eqn:E; [cbn; by destruct (f st prefix)|]. destruct (_ =? mp); [done|].
    assert (H : Forall (fun first => 0 <= n - first <= Z.of_nat fuel) (map Z.of_nat (List.seq 1 (Z.to_nat n)))).
    { apply List.Forall_map, List.Forall_forall. intros x Hx%List.in_seq. lia. }
    revert st. induction H as [|first firsts Hf _ IHf]; intros st; [done|]. cbn [flat_map].
    rewrite visit_all_app, IH by done. by destruct (visit_all f _ st).
Qed.

Definition total (parts : list Z) : Z := foldr Z.add 0 parts.

Lemma parts_total_cons x l : total (x :: l) = x + total l.
Proof. done. Qed.
Lemma parts_total_nonneg l : Forall (fun p => 1 <= p) l -> 0 <= total l.
Proof. induction 1 as [|x l Hx _ IH]; [done|]. rewrite parts_total_cons. lia. Qed.

(** What the enumeration covers: all the ways to write [n] as at most so many
    positive parts. *)
Lemma compositions_spec fuel : forall n max_parts prefix parts,
  0 <= n <= Z.of_nat fuel -> zlen prefix <= max_parts ->
  In parts (compositions fuel n max_parts prefix) <->
  exists rest, parts = prefix ++ rest /\ Forall (fun p => 1 <= p) rest /\ total rest = n /\
    zlen prefix + zlen rest <= max_parts.
Proof.
  induction fuel as [|fuel IH]; intros n mp prefix parts Hn Hp; cbn [compositions].
  - replace n with 0 by lia. cbn [Z.eqb]. split.
    + intros [<-|[]]. exists []. rewrite app_nil_r. change (zlen (@nil Z)) with 0. split_and!; try done; lia.
    + intros (rest & -> & Hf & Ht & _). left. destruct Hf as [|x rest Hx Hf]; [by rewrite app_nil_r|].
      apply parts_total_nonneg in Hf. rewrite parts_total_cons in Ht. lia.
  - destruct (n =? 0) eqn:E.
    { replace n with 0 by lia. split.
      - intros [<-|[]]. exists []. rewrite app_nil_r. change (zlen (@nil Z)) with 0. split_and!; try done; lia.
      - intros (rest & -> & Hf & Ht & _). left. destruct Hf as [|x rest Hx Hf]; [by rewrite app_nil_r|].
        apply parts_total_nonneg in Hf. rewrite parts_total_cons in Ht. lia. }
    destruct (zlen prefix =? mp) eqn:Em.
    { split; [done|]. intros (rest & _ & Hf & Ht & Hl). destruct rest as [|x rest]; [cbn in Ht; lia|].
      rewrite zlen_cons in Hl. pose proof (zlen_nonneg rest). lia. }
    rewrite in_flat_map. split.
    + intros (first & Hin & Hrest). apply in_map_iff in Hin as (k & <- & Hk%List.in_seq).
      apply IH in Hrest as (rest & -> & Hf & Ht & Hl); [|lia|rewrite zlen_app; change (zlen [Z.of_nat k]) with 1; lia].
      exists (Z.of_nat k :: rest). rewrite <- app_assoc, zlen_cons. rewrite zlen_app in Hl.
      change (zlen [Z.of_nat k]) with 1 in Hl. split_and!; try done; rewrite ?parts_total_cons; try lia.
      apply List.Forall_cons; [lia|done].
    + intros (rest & -> & Hf & Ht & Hl). destruct Hf as [|x rest Hx Hf]; [cbn in Ht; lia|].
      pose proof (parts_total_nonneg rest Hf). rewrite parts_total_cons in Ht. rewrite zlen_cons in Hl.
      exists x. split.
      * apply in_map_iff. exists (Z.to_nat x). split; [lia|]. apply List.in_seq. lia.
      * pose proof (zlen_nonneg rest).
        apply IH; [lia|rewrite zlen_app; change (zlen [x]) with 1; lia|]. exists rest.
        rewrite <- app_assoc, zlen_app. change (zlen [x]) with 1. split_and!; try done; lia.
Qed.

Section paid.
Context {C : Type} `{!CongestionControl C} (inv : C -> Prop) (credit : C -> Z).
Context (Hpaid : byte_counting inv credit).

Lemma ack_parts_paid unit_ parts : forall c,
  inv c -> 0 <= credit c -> 0 <= unit_ -> Forall (fun p => 1 <= p) parts -> total parts * unit_ <= U32_MAX ->
  exists c', ack_parts c unit_ parts = Some c' /\ 0 <= credit c' /\
    cc_cwnd c' + credit c' <= cc_cwnd c + credit c + total parts * unit_.
Proof.
  induction parts as [|x parts IH]; intros c Hc Hcr Hu Hf Ht; [exists c; cbn; split_and!; try done; lia|].
  apply List.Forall_cons_iff in Hf as [Hx Hf]. pose proof (parts_total_nonneg parts Hf) as Hn. rewrite parts_total_cons in *.
  assert (0 <= total parts * unit_) by nia. assert (0 <= x * unit_) by nia.
  rewrite Z.mul_add_distr_r in *. cbn [ack_parts].
  destruct (Hpaid c CC_NOW (x * unit_) Hc ltac:(unfold is_u32; lia)) as (c1 & -> & Hc1 & Hcr1 & H1).
  destruct (IH c1 Hc1 Hcr1 Hu Hf ltac:(lia)) as (c' & -> & Hcr' & H2). exists c'. split_and!; try done; lia.
Qed.

(** From a controller with no credit, no split of the bytes grows the window past
    them. *)
Lemma split_core c total_units unit_ max_acks :
  inv c -> credit c = 0 -> 0 <= total_units -> 0 <= unit_ -> total_units * unit_ <= U32_MAX -> 0 <= max_acks ->
  exists report, check_ack_split_invariance c total_units unit_ max_acks = Some report /\ clean report /\
    cases report = wrap64 (zlen (compositions (Z.to_nat total_units) total_units max_acks [])).
Proof.
  intros Hc Hcr Htu Hu Hb Hma. unfold check_ack_split_invariance, checked_u32.
  destruct ((0 <=? total_units * unit_) && (total_units * unit_ <=? U32_MAX)) eqn:E; [|nia].
  rewrite for_each_visits by lia. set (all := compositions _ _ _ _).
  assert (Hall : Forall (fun parts => Forall (fun p => 1 <= p) parts /\ total parts = total_units) all).
  { apply List.Forall_forall. intros parts Hin. apply compositions_spec in Hin as (rest & -> & Hf & Ht & _); [done|lia|].
    change (zlen (@nil Z)) with 0. lia. }
  clearbody all.
  assert (H : forall r, clean r -> cases r = wrap64 (cases r) -> exists report,
    visit_all (split_verdict c (total_units * unit_) unit_) all r = Some report /\ clean report /\
    cases report = wrap64 (cases r + zlen all)).
  { induction Hall as [|parts all [Hf Ht] _ IH]; intros r Hr Hw.
    { exists r. change (zlen (@nil (list Z))) with 0. rewrite Z.add_0_r. by cbn. }
    cbn [visit_all]. unfold split_verdict at 1.
    destruct (ack_parts_paid unit_ parts c Hc ltac:(lia) Hu Hf ltac:(rewrite Ht; lia)) as (c' & -> & Hcr' & Hg).
    replace (_ <? sat_sub _ _) with false by (unfold sat_sub; lia).
    destruct (check_clean r Hr) as [Hc1 Hc2].
    destruct (IH (check r (Ok tt)) Hc1) as (r' & -> & Hr' & Hcs); [rewrite Hc2; symmetry; apply Zmod_mod|].
    exists r'. split; [done|]. split; [exact Hr'|]. rewrite Hcs, Hc2, wrap64_add, zlen_cons. f_equal. lia. }
  by apply H.
Qed.
End paid.

Lemma reno_counts_bytes m : byte_counting (Reno.reno_ok m) Reno.ca_acc.
Proof.
  intros c now acked Hok Ha. destruct (Reno.on_ack_spec m c now acked Hok Ha) as (c' & E & Hok' & _ & _ & _ & Hss & Hca).
  exists c'. cbn. destruct Hok as [[Hm Hm0] Hc _ Hacc _]. pose proof (Reno.rk_acc _ _ Hok') as Hacc'.
  split; [exact E|]. split; [exact Hok'|]. split; [lia|]. unfold is_u32 in Ha.
  destruct (Reno.in_slow_start c) eqn:Es.
  - specialize (Hss eq_refl). unfold Reno.on_ack in E.
    change (Reno.in_slow_start (c <| Reno.dup_acks := 0 |>)) with (Reno.in_slow_start c) in E. rewrite Es in E.
    case_ifs_in E; injection E as <-; cbn in *; lia.
  - destruct (Hca eq_refl) as (k & Hk & Hg & Hp). assert (k * m <= k * Reno.cwnd c) by nia. lia.
Qed.
Lemma dctcp_counts_bytes m : byte_counting (Dctcp.ok m) Dctcp.ca_acc.
Proof.
  intros c now acked Hok Ha. destruct (Dctcp.dctcp_on_ack_spec m c now acked Hok Ha) as (c' & E & Hok' & _ & Hp).
  exists c'. pose proof (wk_acc _ _ _ _ _ _ _ _ _ Hok'). cbn. split_and!; try done. lia.
Qed.
Lemma learned_counts_bytes m :
  byte_counting (fun c => Learned.ok m c /\ upto (Learned.ai_gain (Learned.p c)) 1 0) Learned.ca_acc.
Proof.
  intros c now acked [Hok Hg] Ha. destruct (Learned.learned_on_ack_spec m c now acked Hok Ha) as (c' & E & Hok' & _).
  destruct (Learned.learned_on_ack_paid m c now acked c' Hok Ha Hg E) as [Ep Hp].
  exists c'. pose proof (wk_acc _ _ _ _ _ _ _ _ _ (proj1 Hok')). cbn. rewrite Ep. split_and!; try done. lia.
Qed.

(** ACK division buys a misbehaving receiver nothing past the bytes
    it delivered.  However [total_units * unit] bytes are split over at most
    [max_acks] acknowledgements (the enumeration visits exactly the ways to write
    the units as so many positive parts), Reno, DCTCP and the shipped learned
    genome never grow the window by more than those bytes. *)
Lemma ack_division_is_byte_bounded m total_units unit_ max_acks :
  0 < m <= U16_MAX -> 0 <= total_units -> 0 <= unit_ -> total_units * unit_ <= U32_MAX -> 0 <= max_acks ->
  let all := compositions (Z.to_nat total_units) total_units max_acks [] in
  (forall parts, In parts all <->
     Forall (fun p => 1 <= p) parts /\ total parts = total_units /\ zlen parts <= max_acks) /\
  let nothing report := exists r, report = Some r /\ clean r /\ cases r = wrap64 (zlen all) in
  nothing (check_ack_split_invariance (Reno.new m) total_units unit_ max_acks) /\
  nothing (check_ack_split_invariance (Dctcp.new m) total_units unit_ max_acks) /\
  nothing (check_ack_split_invariance (Learned.new None m) total_units unit_ max_acks).
Proof.
  intros Hm Htu Hu Hb Hma all. split.
  { intros parts. unfold all. rewrite compositions_spec by (change (zlen (@nil Z)) with 0; lia).
    change (zlen (@nil Z)) with 0. split; [by intros (rest & -> & ?)|]. intros. exists parts. tauto. }
  intros nothing. split; [|split].
  - exact (split_core _ _ (reno_counts_bytes m) _ _ _ _ (Reno.new_ok m Hm) eq_refl Htu Hu Hb Hma).
  - exact (split_core _ _ (dctcp_counts_bytes m) _ _ _ _ (Dctcp.dctcp_new_ok m Hm) eq_refl Htu Hu Hb Hma).
  - assert (Hinv : Learned.ok m (Learned.new None m) /\
      upto (Learned.ai_gain (Learned.p (Learned.new None m))) 1 0).
    { split; [by apply Learned.learned_new_ok|]. vm_compute. split; discriminate. }
    exact (split_core _ _ (learned_counts_bytes m) _ _ _ _ Hinv eq_refl Htu Hu Hb Hma).
Qed.

Lemma ack_division_is_byte_bounded_witness :
  exists r, check_ack_split_invariance (Reno.new 1000) 6 250 6 = Some r /\ clean r /\ cases r = 32.
Proof.
  destruct (ack_division_is_byte_bounded 1000 6 250 6) as (_ & (r & H1 & H2 & H3) & _); try lia.
  exists r. split; [exact H1|]. split; [exact H2|]. rewrite H3. vm_compute. reflexivity.
Defined.

End Split.
