(* ===== verification/BmcBoard.v ===== *)
(** The bounded model checker's sweeps over the SACK scoreboard and the TCP
    option walker: [tcp-core/src/bmc.rs], with the theorems that neither sweep
    finds anything, at any window size, depth or string length. *)

From stdpp Require Import strings pretty.
From S2P Require Import Prelude Seq Sack TcpWire Bmc.

(** *** The scoreboard *)
Module Board.

Inductive Op :=
  | Update (l r : SeqNumber) | Rexmit (l r : SeqNumber) | Trim (t : SeqNumber)
  | Begin (rp : SeqNumber) | Exit | Rto.

(** [0..=n] *)
Definition upto_incl (n : Z) : list Z := map Z.of_nat (List.seq 0 (S (Z.to_nat n))).

Definition scoreboard_alphabet (base : SeqNumber) (n : Z) (nxt : SeqNumber) : list Op :=
  flat_map (fun i => flat_map (fun j =>
    [Update (seq_add base i) (seq_add base j); Rexmit (seq_add base i) (seq_add base j)]) (upto_incl n))
    (upto_incl n) ++
  map (fun t => Trim (seq_add base t)) (upto_incl n) ++ [Begin nxt; Exit; Rto].

Definition apply (sb : Scoreboard) (op : Op) (una nxt : SeqNumber) : option (Scoreboard * SeqNumber) :=
  match op with
  | Update l r => let? sb := sb_update sb una nxt [(l, r)] in Some (sb, una)
  | Rexmit l r => let? sb := mark_rexmit sb l r in Some (sb, una)
  | Trim t =>
      let una := if seq_gt t una && seq_le t nxt then t else una in
      Some (trim sb una, una)
  | Begin rp => Some (begin_recovery sb rp, una)
  | Exit => Some (exit_recovery sb, una)
  | Rto => Some (sb_on_rto sb, una)
  end.

Definition scoreboard_invariants (sb : Scoreboard) (una nxt : SeqNumber) (smss : Z)
  : option (Result unit string) :=
  if negb (invariants_hold sb) then Some (Err "run list is not sorted/disjoint/non-empty"%string) else
  let inflight := offset_from nxt una in
  let? pipe_ := pipe sb una nxt smss in
  if inflight <? pipe_ then
    Some (Err ("pipe " +:+ pretty pipe_ +:+ " exceeds inflight " +:+ pretty inflight +:+ " (una=" +:+
               pretty una +:+ ", nxt=" +:+ pretty nxt +:+ ")"))
  else
  let? next := next_seg sb una nxt smss in
  match next with
  | Some (seq, _) =>
      if negb (seq_ge seq una && seq_lt seq nxt) then
        Some (Err ("next_seg " +:+ pretty seq +:+ " outside [" +:+ pretty una +:+ ", " +:+ pretty nxt +:+ ")"))
      else if is_sacked sb seq || is_rexmit sb seq then
        Some (Err ("next_seg " +:+ pretty seq +:+ " is already sacked or rexmit"))
      else Some (Ok tt)
  | None => Some (Ok tt)
  end.

Abbreviation Invariant := (Scoreboard -> SeqNumber -> SeqNumber -> Z -> option (Result unit string)).

Definition board_step (inv : Invariant) (nxt : SeqNumber) (smss : Z) (st : Scoreboard * SeqNumber) (op : Op)
  : option (Scoreboard * SeqNumber * Result unit string) :=
  let? (next_sb, next_una) := apply st.1 op st.2 nxt in
  let? result := inv next_sb next_una nxt smss in
  Some (next_sb, next_una, result).

(** One base of the sweep. *)
Definition sweep_base (n : Z) (depth : nat) (smss : Z) (inv : Invariant) (report : BmcReport) (base : SeqNumber)
  : option BmcReport :=
  let nxt := seq_add base n in
  let alphabet := scoreboard_alphabet base n nxt in
  explore (board_step inv nxt smss) alphabet depth (scoreboard_new, base) report.
Definition run_scoreboard_sweep (n : Z) (depth : nat) (smss : Z) (inv : Invariant) : option BmcReport :=
  let? report := sweep_base n depth smss inv report_default 0 in
  sweep_base n depth smss inv report (wrap32 (U32_MAX - n)).
Definition check_scoreboard (n : Z) (depth : nat) (smss : Z) : option BmcReport :=
  run_scoreboard_sweep n depth smss scoreboard_invariants.

(** *** The invariant of a sweep: everything is anchored at its base, since a
    retransmission may be marked below the cumulative acknowledgement. *)
Section anchored.
Context (base nxt : SeqNumber).

Record swept (st : Scoreboard * SeqNumber) : Prop := {
  sw_board : sb_wf base nxt st.1;
  sw_una : in_half base st.2;
  sw_una_nxt : off base st.2 <= off base nxt;
}.

(** An operation whose edges are window points. *)
Definition point (s : SeqNumber) : Prop := in_half base s /\ off base s <= off base nxt.
Definition op_points (op : Op) : Prop :=
  match op with Update l r | Rexmit l r => point l /\ point r | Trim t | Begin t => point t | Exit | Rto => True end.

Lemma update_block_anchored una runs l r :
  sb_wf base nxt (mkScoreboard runs [] None false) -> in_half base una -> off base una <= off base nxt ->
  point l -> point r ->
  exists runs', update_block una nxt runs (l, r) = Some runs' /\ runs_wf base 0 runs' /\
    runs_below base (off base nxt) runs'.
Proof.
  intros [Hu Hn Hw Hb _ _] Huna Hle [Hl Hln] [Hr Hrn]. cbn in Hw, Hb. unfold update_block.
  case_ifs; try (exists runs; split_and!; done).
  all: match goal with H : seq_lt ?a ?b = true |- context [insert_run _ ?a ?b] =>
    rewrite (lt_off base) in H by done; exists (ins base a b runs);
    (split; [apply (insert_run_ins base 0); done || lia|]);
    (split; [apply ins_wf; try done; pose proof (off_range base a); lia|apply ins_below; done || lia]) end.
Qed.

Lemma apply_swept st op :
  swept st -> op_points op -> exists st', apply st.1 op st.2 nxt = Some st' /\ swept st'.
Proof.
  destruct st as [b una]. intros [Hb Hu Hle] Hop. cbn [fst snd] in *. destruct op as [l r|l r|t|rp| |]; cbn [apply].
  - destruct Hop as [Hl Hr]. destruct (update_block_anchored una (sacked b) l r) as (runs & E & Hw & Hbel); try done.
    { by apply (sb_wf_clear base nxt b None false). }
    unfold sb_update. cbn [update_blocks]. rewrite E, pop_excess_spec by done.
    eexists. split; [done|]. destruct Hb. split; try done. split; cbn; try done.
    + by apply runs_wf_take.
    + by apply Forall_take.
  - destruct Hop as [[Hl _] [Hr Hrn]]. destruct (sb_mark_core base nxt b l r Hb Hl Hr Hrn) as (b' & -> & Hb' & _).
    eexists. split; [done|]. by split.
  - destruct Hop as [Ht Htn]. eexists. split; [done|].
    set (una' := if seq_gt t una && seq_le t nxt then t else una).
    assert (H : in_half base una' /\ off base una' <= off base nxt) by (unfold una'; by case_ifs).
    clearbody una'. destruct H as [Hu' Hle']. destruct Hb as [H1 H2 Hs Hsb Hr Hrb]. pose proof (off_range base una').
    destruct (trim_runs_spec base una' (off base nxt) (sacked b) 0 Hu' Hs Hsb) as (Hs1 & Hsb1 & _).
    destruct (trim_runs_spec base una' (off base nxt) (rexmit b) 0 Hu' Hr Hrb) as (Hr1 & Hrb1 & _).
    split; try done. split; cbn; try done; (eapply runs_wf_weaken; [|done]); lia.
  - eexists. split; [done|]. split; try done. by apply (sb_wf_flags base nxt b (Some rp) false).
  - eexists. split; [done|]. split; try done. by apply (sb_wf_clear base nxt b None false).
  - eexists. split; [done|]. split; try done. by apply (sb_wf_clear base nxt b None false).
Qed.

(** The walks started at [una] instead of the base. *)
Lemma fuel_from b una : enough base nxt b (walk_fuel b) una.
Proof. pose proof (walk_fuel_enough base b una). unfold enough. case_ifs; lia. Qed.

Lemma next_seg_swept b una smss :
  swept (b, una) -> exists res, next_seg b una nxt smss = Some res /\
  forall s rescue, res = Some (s, rescue) ->
    in_half base s /\ off base una <= off base s < off base nxt /\ is_sacked b s = false /\ is_rexmit b s = false.
Proof.
  intros [Hb Hu Hle]. cbn [fst snd] in *. unfold next_seg.
  destruct (find_span_spec base nxt b Hb (lost_hole b smss) (walk_fuel b) una
    (lost_hole_uniform base nxt b Hb smss) Hu Hle (fuel_from b una)) as (res & -> & Hres).
  destruct res as [t|].
  { eexists. split; [done|]. intros s rescue [= <- <-]. destruct Hres as (H1 & H2 & H3 & _).
    unfold lost_hole in H3. rewrite !andb_true_iff, !negb_true_iff in H3. by destruct H3 as [[? ?] _]. }
  destruct (negb (rescue_done b)); [|by eexists].
  destruct (highest_sacked_edge b) as [high|] eqn:Eh; [|by eexists].
  destruct (find_span_spec base nxt b Hb (rescue_hole b high) (walk_fuel b) una
    (fun s x => rescue_hole_uniform base nxt b Hb high s x Eh) Hu Hle (fuel_from b una)) as (res & -> & Hres2).
  eexists. split; [done|]. destruct res as [t|]; [|done]. intros s rescue [= <- <-].
  destruct Hres2 as (H1 & H2 & H3 & _). unfold rescue_hole in H3.
  rewrite !andb_true_iff, !negb_true_iff in H3. by destruct H3 as [[? ?] _].
Qed.

Lemma invariants_swept b una smss :
  swept (b, una) -> scoreboard_invariants b una nxt smss = Some (Ok tt).
Proof.
  intros Hsw. pose proof Hsw as [Hb Hu Hle]. cbn [fst snd] in *. unfold scoreboard_invariants.
  pose proof Hb as [Hbase Hnxt Hs Hsb Hr Hrb].
  assert (Hinv : invariants_hold b = true).
  { unfold invariants_hold. by rewrite (well_formed_spec base 0 _ Hs), (well_formed_spec base 0 _ Hr). }
  rewrite Hinv. cbn [negb]. pose proof (off_range base una). destruct Hnxt as [Hn1 Hn2].
  unfold pipe. rewrite (pipe_loop_spec base nxt b Hb) by (done || lia || apply fuel_from).
  rewrite (offset_from_off base) by done.
  pose proof (count_from_bound (octet_in_pipe base b smss) (Z.to_nat (off base nxt - off base una)) (off base una)).
  replace (_ <? 0 + _) with false by lia.
  destruct (next_seg_swept b una smss Hsw) as (res & -> & Hres). destruct res as [[s rescue]|]; [|done].
  destruct (Hres s rescue eq_refl) as (H1 & H2 & H3 & H4).
  rewrite (ge_off base), (lt_off base) by done. rewrite H3, H4.
  replace ((off base una <=? off base s) && (off base s <? off base nxt)) with true by lia. done.
Qed.

Lemma board_step_swept smss st op :
  swept st -> op_points op ->
  exists next, board_step scoreboard_invariants nxt smss st op = Some (next, Ok tt) /\ swept next.
Proof.
  intros Hst Hop. destruct (apply_swept st op Hst Hop) as ([b una] & E & Hsw). exists (b, una). split; [|done].
  unfold board_step. rewrite E. by rewrite invariants_swept.
Qed.
End anchored.
Lemma upto_incl_in n k : 0 <= n -> In k (upto_incl n) <-> 0 <= k <= n.
Proof.
  intros Hn. unfold upto_incl. rewrite in_map_iff. split.
  - intros (j & <- & Hj%List.in_seq). lia.
  - intros Hk. exists (Z.to_nat k). split; [lia|]. apply List.in_seq. lia.
Qed.
Lemma zlen_upto_incl n : 0 <= n -> zlen (upto_incl n) = n + 1.
Proof. intros. unfold zlen, upto_incl. rewrite length_map, List.length_seq. lia. Qed.
Lemma zlen_map {A B} (f : A -> B) l : zlen (map f l) = zlen l.
Proof. unfold zlen. by rewrite length_map. Qed.
Lemma zlen_flat_map {A B} (f : A -> list B) k l : (forall x, zlen (f x) = k) -> zlen (flat_map f l) = zlen l * k.
Proof.
  intros Hf. induction l as [|x l IH]; [done|]. cbn [flat_map]. rewrite zlen_app, zlen_cons, Hf, IH. lia.
Qed.

Definition alphabet_size (n : Z) : Z := 2 * (n + 1) * (n + 1) + (n + 1) + 3.
Lemma zlen_alphabet base n nxt : 0 <= n -> zlen (scoreboard_alphabet base n nxt) = alphabet_size n.
Proof.
  intros Hn. unfold scoreboard_alphabet, alphabet_size. rewrite !zlen_app, zlen_map, zlen_upto_incl by done.
  rewrite (zlen_flat_map _ ((n + 1) * 2)), zlen_upto_incl by (done || intros; by rewrite (zlen_flat_map _ 2), zlen_upto_incl).
  change (zlen [Begin nxt; Exit; Rto]) with 3. ring.
Qed.

Lemma alphabet_points base n :
  seq_ok base -> 0 <= n < 2 ^ 31 ->
  Forall (op_points base (seq_add base n)) (scoreboard_alphabet base n (seq_add base n)).
Proof.
  intros Hb Hn.
  assert (Hp : forall k, In k (upto_incl n) -> point base (seq_add base n) (seq_add base k)).
  { intros k Hk%upto_incl_in; [|lia]. split; [|by rewrite !off_add_base by lia; lia].
    split; [apply seq_add_ok|]. rewrite off_add_base by lia. lia. }
  apply Forall_app. split; [|apply Forall_app; split].
  - apply List.Forall_flat_map, List.Forall_forall. intros i Hi.
    apply List.Forall_flat_map, List.Forall_forall. intros j Hj.
    repeat apply List.Forall_cons; try apply List.Forall_nil; split; auto.
  - apply List.Forall_map, List.Forall_forall. intros t Ht. by apply Hp.
  - repeat apply List.Forall_cons; try apply List.Forall_nil; try done. apply Hp, upto_incl_in; lia.
Qed.

Lemma sweep_base_clean base n depth smss r :
  seq_ok base -> 0 <= n < 2 ^ 31 -> clean r -> cases r = wrap64 (cases r) ->
  exists r', sweep_base n depth smss scoreboard_invariants r base = Some r' /\ clean r' /\
    cases r' = wrap64 (cases r + sweep_size (alphabet_size n) depth).
Proof.
  intros Hb Hn Hr Hw. unfold sweep_base.
  pose proof (alphabet_points base n Hb Hn) as Hp. rewrite List.Forall_forall in Hp.
  assert (Hnxt : in_half base (seq_add base n)).
  { split; [apply seq_add_ok|]. rewrite off_add_base by lia. lia. }
  destruct (explore_clean (board_step scoreboard_invariants (seq_add base n) smss) (swept base (seq_add base n))
    (scoreboard_alphabet base n (seq_add base n))
    (fun st op Hst Hin => board_step_swept base (seq_add base n) smss st op Hst (Hp op Hin))
    depth (scoreboard_new, base) r) as (r' & E & Hc & Hn'); [|done|].
  - split; cbn; [by apply sb_wf_new|by apply in_half_self|]. rewrite off_self, off_add_base by lia. lia.
  - exists r'. split; [exact E|]. split; [exact Hc|]. rewrite (Hn' Hw), zlen_alphabet by lia. done.
Qed.



End Board.

(** *** The TCP option walker *)
Module Options.

(** A minimal header with the options [opts], parsed, every accessor called. *)
Definition probe_options (opts : list Z) : option (Result unit string) :=
  let hlen := 20 + zlen opts in
  let buf := zrepeat 0 hlen in
  let? buf := store buf 12 (wrap8 (Z.shiftl (wrap8 (hlen / 4)) 4)) in
  let? buf := splice buf 20 opts in
  let? r := new_checked buf in
  match r with
  | Err _ => Some (Ok tt)
  | Ok pkt =>
      let? _ := mss_option pkt in
      let? _ := window_scale pkt in
      let? _ := timestamps pkt in
      let? _ := sack_permitted pkt in
      let? (_, n) := sack_blocks pkt (zrepeat (0, 0) MAX_SACK_BLOCKS) in
      if MAX_SACK_BLOCKS <? n then
        Some (Err ("sack_blocks returned " +:+ pretty n +:+ " > MAX_SACK_BLOCKS"))
      else Some (Ok tt)
  end.

(** [enumerate_strings]: the closure's state threaded, [fuel] the bytes to go. *)
Section strings.
Context {T : Type} (f : T -> list Z -> option T).
Fixpoint for_bytes (visit : Z -> T -> option T) (bytes : list Z) (st : T) : option T :=
  match bytes with
  | [] => Some st
  | b :: bytes => let? st := visit b st in for_bytes visit bytes st
  end.
Fixpoint enumerate_strings (fuel : nat) (buf : list Z) (len : Z) (alphabet : list Z) (st : T) : option T :=
  if zlen buf =? len then f st buf
  else
    match fuel with
    | O => None
    | Datatypes.S fuel => for_bytes (fun b => enumerate_strings fuel (buf ++ [b]) len alphabet) alphabet st
    end.
End strings.

Definition probe_one (report : BmcReport) (s : list Z) : option BmcReport :=
  let? result := probe_options s in Some (check report result).
Definition check_option_strings (alphabet : list Z) (len_words : Z) : option BmcReport :=
  let len := len_words * 4 in
  enumerate_strings probe_one (Z.to_nat len) [] len alphabet report_default.

(** Every option string is probed without a panic. *)
Lemma probe_clean opts : probe_options opts = Some (Ok tt).
Proof.
  unfold probe_options. pose proof (zlen_nonneg opts).
  assert (Hz : zlen (zrepeat 0 (20 + zlen opts)) = 20 + zlen opts) by (autorewrite with zlen; lia).
  destruct (store (zrepeat 0 (20 + zlen opts)) 12 _) as [buf|] eqn:E1.
  2: { unfold store in E1. rewrite splice_Some in E1 by (rewrite ?Hz; change (zlen [_]) with 1; lia). done. }
  apply zlen_splice in E1. rewrite Hz in E1.
  destruct (splice buf 20 opts) as [buf'|] eqn:E2; [|rewrite splice_Some in E2 by lia; done].
  destruct (new_checked_cases buf') as (r & -> & Hr). destruct r as [pkt|e]; [|done].
  destruct Hr as (_ & off & Hv).
  destruct (tlvs_of_exists _ (ztake (off - 20) (zdrop 20 (as_bytes pkt))) (Nat.le_refl _)) as [ts Hts].
  destruct (option_accessors_total pkt off ts (zrepeat (0, 0) MAX_SACK_BLOCKS) Hv Hts eq_refl)
    as ([? ->] & [? ->] & [? ->] & (? & -> & _) & (? & n & -> & Hn & _)).
  by replace (MAX_SACK_BLOCKS <? n) with false by lia.
Qed.

(** The strings visited. *)
Fixpoint all_strings (fuel : nat) (alphabet : list Z) : list (list Z) :=
  match fuel with
  | O => [[]]
  | Datatypes.S fuel => flat_map (fun b => map (cons b) (all_strings fuel alphabet)) alphabet
  end.

Lemma all_strings_spec fuel alphabet s :
  In s (all_strings fuel alphabet) <-> length s = fuel /\ incl s alphabet.
Proof.
  revert s. induction fuel as [|fuel IH]; intros s; cbn [all_strings].
  - split; [intros [<-|[]]; split; [done|by intros ?]|]. destruct s; [by left|by intros [? _]].
  - rewrite in_flat_map. split.
    + intros (b & Hb & Hs). apply in_map_iff in Hs as (t & <- & [Ht Hincl]%IH). cbn.
      split; [lia|]. intros x [<-|Hx]; auto.
    + intros [Hl Hincl]. destruct s as [|b t]; [done|]. exists b. split; [apply Hincl; by left|].
      apply in_map, IH. split; [cbn in Hl; lia|]. intros x Hx. apply Hincl. by right.
Qed.

Lemma zlen_all_strings fuel alphabet : zlen (all_strings fuel alphabet) = zlen alphabet ^ Z.of_nat fuel.
Proof.
  induction fuel as [|fuel IH]; [done|]. cbn [all_strings].
  rewrite Nat2Z.inj_succ, Z.pow_succ_r by lia. rewrite <- IH.
  assert (H : forall l : list Z, zlen (flat_map (fun b => map (cons b) (all_strings fuel alphabet)) l) =
    zlen l * zlen (all_strings fuel alphabet)).
  { induction l as [|b l IHl]; [done|]. cbn [flat_map]. rewrite zlen_app, Board.zlen_map, IHl, zlen_cons. ring. }
  apply H.
Qed.

Lemma visit_all_map {T A B} (f : T -> B -> option T) (g : A -> B) l st :
  Split.visit_all f (map g l) st = Split.visit_all (fun st x => f st (g x)) l st.
Proof. revert st. induction l as [|x l IH]; intros st; [done|]. cbn. destruct (f st (g x)); [apply IH|done]. Qed.

Lemma enumerate_visits {T} (f : T -> list Z -> option T) fuel : forall buf len alphabet st,
  zlen buf + Z.of_nat fuel = len ->
  enumerate_strings f fuel buf len alphabet st =
    Split.visit_all f (map (fun s => buf ++ s) (all_strings fuel alphabet)) st.
Proof.
  induction fuel as [|fuel IH]; intros buf len alphabet st Hl; cbn [enumerate_strings all_strings].
  - replace (zlen buf =? len) with true by lia. cbn. rewrite app_nil_r. by destruct (f st buf).
  - replace (zlen buf =? len) with false by lia.
    assert (H : forall l st, for_bytes (fun b => enumerate_strings f fuel (buf ++ [b]) len alphabet) l st =
      Split.visit_all f (map (fun s => buf ++ s) (flat_map (fun b => map (cons b) (all_strings fuel alphabet)) l)) st).
    { induction l as [|b l IHl]; intros st'; [done|]. cbn [for_bytes flat_map].
      rewrite map_app, Split.visit_all_app, IH by (rewrite zlen_app; change (zlen [b]) with 1; lia).
      rewrite List.map_map. rewrite (List.map_ext _ (fun s => buf ++ b :: s)) by (intros; by rewrite <- app_assoc).
      destruct (Split.visit_all f _ st'); [apply IHl|done]. }
    apply H.
Qed.

(** The option sweep finds nothing over any alphabet and at any
    number of option words (longer than a header admits too): it probes every
    string over the alphabet of that length, each exactly as often as the
    alphabet repeats its bytes, and no accessor panics, loops or reports more
    than four SACK blocks on any of them. *)
Lemma option_sweep_is_clean alphabet len_words :
  0 <= len_words ->
  let probed := all_strings (Z.to_nat (len_words * 4)) alphabet in
  (forall s, In s probed <-> zlen s = len_words * 4 /\ incl s alphabet) /\
  exists report, check_option_strings alphabet len_words = Some report /\ violations report = 0 /\
    first_violation report = None /\ cases report = wrap64 (zlen alphabet ^ (len_words * 4)).
Proof.
  intros Hw probed. split.
  { intros s. unfold probed. rewrite all_strings_spec. unfold zlen. split; intros [H1 H2]; (split; [lia|done]). }
  unfold check_option_strings. rewrite enumerate_visits by (change (zlen (@nil Z)) with 0; lia).
  assert (H : forall l r, clean r -> cases r = wrap64 (cases r) ->
    exists report, Split.visit_all probe_one l r = Some report /\ clean report /\ cases report = wrap64 (cases r + zlen l)).
  { induction l as [|s l IH]; intros r Hr Hc.
    { exists r. change (zlen (@nil (list Z))) with 0. rewrite Z.add_0_r. by cbn. }
    cbn [Split.visit_all]. unfold probe_one at 1. rewrite probe_clean. destruct (check_clean r Hr) as [Hc1 Hc2].
    destruct (IH (check r (Ok tt)) Hc1) as (r' & -> & Hr' & Hcs); [rewrite Hc2; symmetry; apply Zmod_mod|].
    exists r'. split; [done|]. split; [exact Hr'|]. rewrite Hcs, Hc2, wrap64_add, zlen_cons. f_equal. lia. }
  destruct (H (map (fun s => [] ++ s) probed) report_default) as (r & E & [Hv Hf] & Hc); [done..|].
  exists r. split; [exact E|]. split; [done|]. split; [done|]. rewrite Hc, Board.zlen_map. unfold probed.
  rewrite zlen_all_strings, Z2Nat.id by lia. done.
Qed.

Lemma option_sweep_is_clean_witness :
  exists report, check_option_strings [0; 1; 2; 4; 5; 8] 2 = Some report /\ violations report = 0 /\
    cases report = 1679616.
Proof.
  destruct (option_sweep_is_clean [0; 1; 2; 4; 5; 8] 2) as (_ & r & H1 & H2 & _ & H3); [lia|].
  exists r. split; [exact H1|]. split; [exact H2|]. rewrite H3. vm_compute. reflexivity.
Defined.

End Options.
