(* ===== verification/Endpoint.v ===== *)
(** Endpoints and whole datagrams: the free functions of
    [tcp-core/src/iface.rs] that both the TCB and the stack use. *)

From stdpp Require Import countable.
From S2P Require Import Prelude Seq Checksum Ipv4 TcpWire.

Record Endpoint := mkEndpoint { ep_ip : Ipv4Addr; ep_port : Z }.
#[export] Instance Endpoint_eq_dec : EqDecision Endpoint.
Proof. solve_decision. Defined.
#[export] Instance Ipv4Addr_countable : Countable Ipv4Addr.
Proof.
  refine (inj_countable' (fun '(ipv4 a b c d) => (a, b, c, d)) (fun '(a, b, c, d) => ipv4 a b c d) _).
  by intros [].
Defined.
#[export] Instance Endpoint_countable : Countable Endpoint.
Proof.
  refine (inj_countable' (fun e => (ep_ip e, ep_port e)) (fun '(i, p) => mkEndpoint i p) _).
  by intros [].
Defined.

Record endpoint_ok (e : Endpoint) : Prop := {
  eo_ip : ip_ok (ep_ip e);
  eo_port : is_u16 (ep_port e);
}.

(** [build_segment]: one complete datagram, or [None] where the code panics
    (an emitted segment that does not fit the buffer). *)
Definition build_segment (local remote : Endpoint) (tcp : TcpRepr) (payload : list Z)
  : option (list Z) :=
  let seg_len := header_len tcp + zlen payload in
  let ip := Ipv4.mkRepr (ep_ip local) (ep_ip remote) IPPROTO_TCP (wrap16 seg_len) 64 0 in
  let buf := zrepeat 0 (Ipv4.repr_total_len ip) in
  let? buf := Ipv4.emit ip buf in
  let? rest := slice buf Ipv4.HEADER_LEN (zlen buf) in
  let? (seg, _) := emit tcp (ep_ip local) (ep_ip remote) payload rest in
  splice buf Ipv4.HEADER_LEN seg.

(** A repr with no option. *)
Definition bare_repr (local remote : Endpoint) (s a : SeqNumber) (f : Z) : TcpRepr :=
  mkTcpRepr (ep_port local) (ep_port remote) s a f 0 None false SackBlocks_default None None false.

(** [connectionless_reset]: the RST for a segment without a connection. *)
Definition connectionless_reset (local remote : Endpoint) (tcp : TcpPacket) : option (list Z) :=
  let? f := flags tcp in
  if TcpFlags.ack f then
    let? a := ack tcp in
    build_segment local remote (bare_repr local remote a 0 TcpFlags.RST) []
  else
    let? body := payload tcp in
    let seg_len := wrap32 (zlen body) + Z.b2z (TcpFlags.syn f) + Z.b2z (TcpFlags.fin f) in
    let? s := seq tcp in
    build_segment local remote
      (bare_repr local remote 0 (seq_add s seg_len) (Z.lor TcpFlags.RST TcpFlags.ACK)) [].

(** *** What is sent can be read back *)

(** A frame that carries exactly the segment [r] with [data] between the two
    endpoints: it parses, both checksums hold, and the receiver reads the
    fields the sender wrote. *)
Definition frame_carries (frame : list Z) (local remote : Endpoint) (r : TcpRepr) (data : list Z)
  : Prop :=
  exists p seg, Ipv4.new_checked frame = Some (Ok p) /\
    Ipv4.src p = Some (ep_ip local) /\ Ipv4.dst p = Some (ep_ip remote) /\
    Ipv4.protocol p = Some IPPROTO_TCP /\ Ipv4.checksum_valid p = Some true /\
    Ipv4.payload p = Some seg /\ segment_carries seg r data /\
    tcp_checksum_valid (ep_ip local) (ep_ip remote) seg = true /\
    bytes_ok seg /\ zlen seg <= U16_MAX.

Lemma build_segment_spec local remote r data :
  tcp_repr_ok r -> endpoint_ok local -> endpoint_ok remote -> bytes_ok data ->
  t_src_port r = ep_port local -> t_dst_port r = ep_port remote ->
  header_len r + zlen data <= U16_MAX - Ipv4.HEADER_LEN ->
  exists frame, build_segment local remote r data = Some frame /\
    zlen frame = Ipv4.HEADER_LEN + header_len r + zlen data /\ bytes_ok frame /\
    frame = Ipv4.hdr (Ipv4.mkRepr (ep_ip local) (ep_ip remote) IPPROTO_TCP (header_len r + zlen data) 64 0)
      ++ segment r (ep_ip local) (ep_ip remote) data.
Proof.
  intros Hr Hl Hm Hd Hsp Hdp Hfit. destruct (header_len_opt r Hr) as (_ & _ & Hge).
  pose proof (zlen_nonneg data). unfold TCP_MIN_HEADER_LEN in *.
  assert (HH : Ipv4.HEADER_LEN = 20) by done. rewrite HH in *.
  unfold build_segment. rewrite wrap16_small by (unfold is_u16; lia).
  set (ip := Ipv4.mkRepr _ _ _ _ _ _). set (n := header_len r + zlen data) in *.
  assert (Ht : Ipv4.repr_total_len ip = 20 + n) by done. rewrite Ht, HH.
  rewrite Ipv4.ipv4_emit_spec by (rewrite zlen_zrepeat, HH; lia). rewrite HH.
  assert (Hip : zlen (Ipv4.hdr ip) = 20) by (unfold ip; destruct (ep_ip local), (ep_ip remote); done).
  assert (Hz : zlen (Ipv4.hdr ip ++ zdrop 20 (zrepeat 0 (20 + n))) = 20 + n)
    by (rewrite zlen_app, zlen_zdrop, zlen_zrepeat; lia).
  assert (Hzd : forall l, zdrop 20 (Ipv4.hdr ip ++ l) = l)
    by (intros l; rewrite <- Hip; apply zdrop_app_exact).
  assert (Hzt : forall l, ztake 20 (Ipv4.hdr ip ++ l) = Ipv4.hdr ip)
    by (intros l; rewrite <- Hip; apply ztake_app_exact).
  rewrite Hz, slice_Some, Hzd by lia.
  rewrite ztake_all by (rewrite zlen_zdrop, zlen_zrepeat; lia).
  rewrite emit_spec by (done || (rewrite zlen_zdrop, zlen_zrepeat; lia)).
  rewrite (zdrop_all (header_len r + zlen data)), app_nil_r by (rewrite zlen_zdrop, zlen_zrepeat; lia).
  pose proof (zlen_segment r (ep_ip local) (ep_ip remote) data Hr) as Hzs.
  eexists. split.
  { rewrite splice_Some by lia. rewrite Hzs, Hzt.
    rewrite (zdrop_all (20 + _)), app_nil_r by lia. reflexivity. }
  split; [rewrite zlen_app; lia|]. split; [|reflexivity].
  apply bytes_ok_app; [|by apply segment_ok].
  assert (Hok : Ipv4.repr_ok ip).
  { destruct Hl, Hm. split; cbn; try done; unfold is_u8, IPPROTO_TCP; lia. }
  unfold Ipv4.hdr. apply bytes_ok_app; [by apply Ipv4.hdr_pre_ok|].
  apply bytes_ok_app; [apply to_be16_ok|by apply Ipv4.hdr_post_ok].
Qed.

Lemma frame_carries_ecn local remote r data e frame :
  0 <= e < 4 ->
  tcp_repr_ok r -> endpoint_ok local -> endpoint_ok remote -> bytes_ok data ->
  header_len r + zlen data <= U16_MAX - Ipv4.HEADER_LEN ->
  frame = Ipv4.hdr (Ipv4.mkRepr (ep_ip local) (ep_ip remote) IPPROTO_TCP (header_len r + zlen data) 64 e)
    ++ segment r (ep_ip local) (ep_ip remote) data ->
  frame_carries frame local remote r data.
Proof.
  intros Hecn Hr Hl Hm Hd Hfit ->. destruct (header_len_opt r Hr) as (_ & _ & Hge).
  pose proof (zlen_nonneg data). unfold TCP_MIN_HEADER_LEN in *.
  assert (HH : Ipv4.HEADER_LEN = 20) by done. rewrite HH in *.
  set (ip := Ipv4.mkRepr _ _ _ _ _ _). set (seg := segment _ _ _ _).
  pose proof (zlen_segment r (ep_ip local) (ep_ip remote) data Hr) as Hz. fold seg in Hz.
  assert (Hok : Ipv4.repr_ok ip).
  { destruct Hl, Hm. split; cbn; try done; unfold is_u8, IPPROTO_TCP; lia. }
  destruct (Ipv4.emit_parse_core ip (zrepeat 0 20 ++ seg))
    as (b' & p & He & _ & Hn & _ & _ & Hs & Ht & Hp & _ & _ & Hc & Hpay); [done| |].
  { unfold Ipv4.repr_total_len. cbn [Ipv4.r_payload_len ip]. rewrite zlen_app.
    change (zlen (zrepeat 0 20)) with 20. lia. }
  rewrite Ipv4.ipv4_emit_spec in He by (rewrite zlen_app; change (zlen (zrepeat 0 20)) with 20;
    pose proof (zlen_nonneg seg); lia).
  apply (inj Some) in He. subst b'. rewrite HH in Hn, Hpay.
  assert (Hzd : forall l, zdrop 20 (zrepeat 0 20 ++ l) = l)
    by (intros l; exact (zdrop_app_exact (zrepeat 0 20) l)).
  rewrite Hzd in Hn, Hpay. rewrite ztake_all in Hpay by (cbn [Ipv4.r_payload_len ip]; lia).
  exists p, seg. split_and!; try done; [by apply segment_parse| |by apply segment_ok|lia].
  apply segment_checksum_valid; try done; [apply Hl|apply Hm|lia].
Qed.

Lemma frame_carries_core local remote r data frame :
  tcp_repr_ok r -> endpoint_ok local -> endpoint_ok remote -> bytes_ok data ->
  header_len r + zlen data <= U16_MAX - Ipv4.HEADER_LEN ->
  frame = Ipv4.hdr (Ipv4.mkRepr (ep_ip local) (ep_ip remote) IPPROTO_TCP (header_len r + zlen data) 64 0)
    ++ segment r (ep_ip local) (ep_ip remote) data ->
  frame_carries frame local remote r data.
Proof. apply frame_carries_ecn. lia. Qed.

(** Re-marked ECN-capable, a frame still carries its segment. *)
Lemma set_ecn_carries local remote r data e frame :
  0 <= e < 4 -> tcp_repr_ok r -> endpoint_ok local -> endpoint_ok remote -> bytes_ok data ->
  header_len r + zlen data <= U16_MAX - Ipv4.HEADER_LEN ->
  frame = Ipv4.hdr (Ipv4.mkRepr (ep_ip local) (ep_ip remote) IPPROTO_TCP (header_len r + zlen data) 64 0)
    ++ segment r (ep_ip local) (ep_ip remote) data ->
  exists frame', set_ecn frame e = Some frame' /\ frame_carries frame' local remote r data.
Proof.
  intros He Hr Hl Hm Hd Hfit ->. destruct (header_len_opt r Hr) as (_ & _ & Hge).
  pose proof (zlen_nonneg data). unfold TCP_MIN_HEADER_LEN in *.
  assert (HH : Ipv4.HEADER_LEN = 20) by done. rewrite HH in *.
  rewrite set_ecn_hdr; [|..]; try done.
  - eexists. split; [done|]. by eapply frame_carries_ecn.
  - destruct Hl, Hm. split; cbn; try done; unfold is_u8, IPPROTO_TCP; lia.
Qed.

(** [build_segment] never panics for a segment that fits one
    datagram, and the receiver of the frame reads back exactly what was
    asked for: both headers parse, both checksums verify, addresses, ports,
    numbers, flags, window, options and payload are the sender's. *)
Lemma build_segment_parses local remote r data :
  tcp_repr_ok r -> endpoint_ok local -> endpoint_ok remote -> bytes_ok data ->
  t_src_port r = ep_port local -> t_dst_port r = ep_port remote ->
  header_len r + zlen data <= U16_MAX - Ipv4.HEADER_LEN ->
  exists frame, build_segment local remote r data = Some frame /\
    zlen frame = Ipv4.HEADER_LEN + header_len r + zlen data /\
    frame_carries frame local remote r data.
Proof.
  intros Hr Hl Hm Hd Hsp Hdp Hfit.
  destruct (build_segment_spec local remote r data Hr Hl Hm Hd Hsp Hdp Hfit) as (frame & H1 & H2 & _ & H3).
  exists frame. split; [done|]. split; [done|]. by apply frame_carries_core.
Qed.

Definition demo_local : Endpoint := mkEndpoint (ipv4 10 0 0 2) 443.
Definition demo_remote : Endpoint := mkEndpoint (ipv4 10 0 0 1) 50000.
Lemma demo_local_ok : endpoint_ok demo_local.
Proof. split; [unfold ip_ok; cbn; split_bytes; unfold is_u8; lia|unfold is_u16; cbn; lia]. Defined.
Lemma demo_remote_ok : endpoint_ok demo_remote.
Proof. split; [unfold ip_ok; cbn; split_bytes; unfold is_u8; lia|unfold is_u16; cbn; lia]. Defined.

Lemma bare_repr_ok local remote s a f :
  endpoint_ok local -> endpoint_ok remote -> is_u32 s -> is_u32 a -> is_u8 f ->
  tcp_repr_ok (bare_repr local remote s a f) /\ header_len (bare_repr local remote s a f) = 20.
Proof.
  intros [_ Hl] [_ Hm] Hs Ha Hf. split; [|done].
  split; cbn; try done; try (unfold is_u16; lia).
  - split; [done|]. repeat apply List.Forall_cons; try apply List.Forall_nil; cbn; unfold is_u32; lia.
Qed.

Lemma build_segment_parses_witness :
  exists frame, build_segment demo_local demo_remote
      (bare_repr demo_local demo_remote 7 9 TcpFlags.ACK) [1; 2] = Some frame /\ zlen frame = 42 /\
    frame_carries frame demo_local demo_remote (bare_repr demo_local demo_remote 7 9 TcpFlags.ACK) [1; 2].
Proof.
  destruct (build_segment_parses demo_local demo_remote
    (bare_repr demo_local demo_remote 7 9 TcpFlags.ACK) [1; 2]) as (frame & H1 & H2 & H3).
  - apply bare_repr_ok; [exact demo_local_ok|exact demo_remote_ok|unfold is_u32; lia..|unfold is_u8, TcpFlags.ACK; lia].
  - exact demo_local_ok.
  - exact demo_remote_ok.
  - split_bytes; unfold is_u8; lia.
  - reflexivity.
  - reflexivity.
  - vm_compute; discriminate.
  - exists frame. split; [exact H1|]. split; [rewrite H2; reflexivity|exact H3].
Defined.

Lemma reset_core local remote t b :
  endpoint_ok local -> endpoint_ok remote -> bytes_ok b -> new_checked b = Some (Ok t) ->
  exists f s a body frame,
    flags t = Some f /\ seq t = Some s /\ ack t = Some a /\ payload t = Some body /\
    connectionless_reset local remote t = Some frame /\ zlen frame = 40 /\
    frame_carries frame local remote
      (if TcpFlags.ack f then bare_repr local remote a 0 TcpFlags.RST
       else bare_repr local remote 0
              (seq_add s (wrap32 (zlen body) + Z.b2z (TcpFlags.syn f) + Z.b2z (TcpFlags.fin f)))
              (Z.lor TcpFlags.RST TcpFlags.ACK)) [].
Proof.
  intros Hl Hm Hb Hn. destruct (new_checked_cases b) as (r & Hr & Hc).
  rewrite Hn in Hr. apply (inj Some) in Hr. subst r. destruct Hc as (Hbuf & off & [Ho Hrange Hlen]).
  unfold TCP_MIN_HEADER_LEN, TCP_MAX_HEADER_LEN in *. rewrite Hbuf in *.
  assert (Hu32 : forall i, 0 <= i -> i + 4 <= 20 -> exists v, u32_at b i = Some v /\ is_u32 v).
  { intros i H0 H20. unfold u32_at.
    destruct (Ipv4.at_byte b i Hb ltac:(lia)) as (b0 & -> & ?), (Ipv4.at_byte b (i + 1) Hb ltac:(lia)) as (b1 & -> & ?),
      (Ipv4.at_byte b (i + 2) Hb ltac:(lia)) as (b2 & -> & ?), (Ipv4.at_byte b (i + 3) Hb ltac:(lia)) as (b3 & -> & ?).
    eexists. split; [done|]. unfold is_u8, is_u32, be32 in *. lia. }
  destruct (Hu32 4 ltac:(lia) ltac:(lia)) as (s & Hs & Hs32).
  destruct (Hu32 8 ltac:(lia) ltac:(lia)) as (a & Ha & Ha32).
  destruct (Ipv4.at_byte b 13 Hb ltac:(lia)) as (f & Hf & Hf8).
  assert (Hflags : flags t = Some f) by (unfold flags; by rewrite Hbuf).
  assert (Hseq : seq t = Some s) by (unfold seq; by rewrite Hbuf).
  assert (Hack : ack t = Some a) by (unfold ack; by rewrite Hbuf).
  assert (Hpay : exists body, payload t = Some body).
  { unfold payload. rewrite Ho, Hbuf, slice_Some by lia. by eexists. }
  destruct Hpay as (body & Hpay). exists f, s, a, body.
  set (r := if TcpFlags.ack f then _ else _).
  assert (Hok : tcp_repr_ok r /\ header_len r = 20 /\ t_src_port r = ep_port local /\ t_dst_port r = ep_port remote).
  { unfold r. destruct (TcpFlags.ack f); (split; [|done]); apply bare_repr_ok; try done;
      try apply seq_add_ok; unfold is_u32, is_u8, TcpFlags.RST, TcpFlags.ACK; cbn; lia. }
  destruct Hok as (Hrok & Hh & Hsp & Hdp).
  destruct (build_segment_spec local remote r [] Hrok Hl Hm ltac:(constructor) Hsp Hdp)
    as (frame & H1 & H2 & _ & H3); [rewrite Hh; vm_compute; discriminate|].
  exists frame. split_and!; try done.
  - unfold connectionless_reset. rewrite Hflags, Hack, Hpay, Hseq, <- H1. unfold r. by destruct (TcpFlags.ack f).
  - rewrite H2, Hh. done.
  - apply frame_carries_core; try done; [constructor|rewrite Hh; vm_compute; discriminate].
Qed.

(** C29 — functional.  The reset for a segment without a connection is RFC 793's:
    with an ACK, a bare RST whose sequence is the acknowledged number; without
    one, RST+ACK from sequence 0 acknowledging the segment's span (payload plus
    one for each of SYN and FIN).  It never panics and reaches the peer intact. *)
Theorem reset_is_rfc793 local remote t b :
  endpoint_ok local -> endpoint_ok remote -> bytes_ok b -> new_checked b = Some (Ok t) ->
  exists f s a body frame,
    flags t = Some f /\ seq t = Some s /\ ack t = Some a /\ payload t = Some body /\
    connectionless_reset local remote t = Some frame /\ zlen frame = 40 /\
    frame_carries frame local remote
      (if TcpFlags.ack f then bare_repr local remote a 0 TcpFlags.RST
       else bare_repr local remote 0
              (seq_add s (wrap32 (zlen body) + Z.b2z (TcpFlags.syn f) + Z.b2z (TcpFlags.fin f)))
              (Z.lor TcpFlags.RST TcpFlags.ACK)) [].
Proof. apply reset_core. Qed.

Lemma reset_is_rfc793_witness :
  exists frame, connectionless_reset demo_local demo_remote
      (mkSegment ([195; 80; 1; 187; 0; 0; 0; 5; 0; 0; 0; 0; 0x50; 2; 1; 0; 0; 0; 0; 0])) = Some frame /\
    frame_carries frame demo_local demo_remote (bare_repr demo_local demo_remote 0 6 0x14) [].
Proof.
  destruct (reset_is_rfc793 demo_local demo_remote
      (mkSegment ([195; 80; 1; 187; 0; 0; 0; 5; 0; 0; 0; 0; 0x50; 2; 1; 0; 0; 0; 0; 0]))
      ([195; 80; 1; 187; 0; 0; 0; 5; 0; 0; 0; 0; 0x50; 2; 1; 0; 0; 0; 0; 0]))
    as (f & s & a & body & frame & Hf & Hs & _ & Hb & H1 & _ & H2).
  - exact demo_local_ok.
  - exact demo_remote_ok.
  - split_bytes; unfold is_u8; lia.
  - vm_compute. reflexivity.
  - exists frame. split; [exact H1|].
    vm_compute in Hf. injection Hf as <-. vm_compute in Hs. injection Hs as <-.
    vm_compute in Hb. injection Hb as <-. exact H2.
Defined.
