(* ===== verification/Tcb.v ===== *)
(** The transmission control block: [tcp-core/src/tcb.rs].

    One record field per field of the struct, one definition per method, in the
    panic monad.  The connection is generic over the congestion controller,
    which it reaches only through the [CongestionControl] class; [Cc_new] is the
    code's [Cc::new].  The numbered sections of [on_segment] and
    [transmit_data_or_fin] are definitions of their own, composed in the order
    of the code. *)

From S2P Require Import Prelude Seq Time Buffers Rtt Checksum Ipv4 TcpWire Sack Reasm Congestion Endpoint.

Definition MSS_DEFAULT : Z := 536.
Definition MSS_MAX : Z := 65495.
Definition mss_for_mtu (mtu : Z) : Z := Z.min (Z.max (sat_sub mtu 40) MSS_DEFAULT) MSS_MAX.

Definition TX_BUFFER : Z := 262144.
Definition RX_BUFFER : Z := 262144.

(** [wscale_for]: a [const fn] loop; a [u8] shift of a 64-bit size needs at
    most 64 rounds. *)
Fixpoint wscale_loop (fuel : nat) (buf s : Z) : Z :=
  match fuel with
  | O => s
  | S fuel => if 0xFFFF <? Z.shiftr buf s then wscale_loop fuel buf (s + 1) else s
  end.
Definition wscale_for (buf : Z) : Z := wscale_loop 64 buf 0.
Definition RCV_WSCALE : Z := wscale_for RX_BUFFER.

Definition TIME_WAIT_MILLIS : Z := 10000.
Definition FIN_WAIT2_MILLIS : Z := 60000.
Definition PERSIST_MIN_MILLIS : Z := 1000.
Definition PERSIST_MAX_MILLIS : Z := 60000.
Definition CHALLENGE_ACK_LIMIT : Z := 100.
Definition MAX_SYN_RETRIES : Z := 7.
Definition DELAYED_ACK_MILLIS : Z := 40.
Definition ACE_INIT : Z := 5.

Record Tcb (C : Type) := mkTcb {
  state : State;
  local : Endpoint;
  remote : Endpoint;
  iss : SeqNumber;
  snd_una : SeqNumber;
  snd_nxt : SeqNumber;
  snd_wnd : Z;
  snd_wl1 : SeqNumber;
  snd_wl2 : SeqNumber;
  snd_mss : Z;
  window_scaling : bool;
  snd_wscale : Z;
  rcv_wscale : Z;
  ts_enabled : bool;
  ts_recent : Z;
  cur_tsval : Z;
  accecn_cep : Z;
  accecn_ace_seen : Z;
  irs : SeqNumber;
  rcv_nxt : SeqNumber;
  rcv_adv : SeqNumber;
  tx : RingBuffer.RingBuffer;
  rx : RingBuffer.RingBuffer;
  rtt : RttEstimator;
  cc : C;
  cc_kind : CcKind;
  rtt_sample : option (Instant * SeqNumber);
  retransmitted : bool;
  retransmit : bool;
  gbn_recover : option SeqNumber;
  rtx_deadline : option Instant;
  persist_deadline : option Instant;
  persist_backoff : Z;
  time_wait_deadline : option Instant;
  delayed_ack_deadline : option Instant;
  unacked_segs : Z;
  pace_tokens : Z;
  pace_last : Instant;
  pace_deadline : option Instant;
  fin_queued : bool;
  fin_seq : option SeqNumber;
  fin_acked : bool;
  peer_fin_seen : bool;
  reset : bool;
  needs_ack : bool;
  send_probe : bool;
  pending_reset : option SeqNumber;
  syn_retries : Z;
  challenge_window_start : Instant;
  challenge_count : Z;
  sack_enabled : bool;
  reasm : Reasm;
  scoreboard : Scoreboard;
  pending_fin : option SeqNumber;
  mss_advertise : Z;
}.
Arguments mkTcb {C}.
Arguments state {C}. Arguments local {C}. Arguments remote {C}. Arguments iss {C}.
Arguments snd_una {C}. Arguments snd_nxt {C}. Arguments snd_wnd {C}. Arguments snd_wl1 {C}.
Arguments snd_wl2 {C}. Arguments snd_mss {C}. Arguments window_scaling {C}.
Arguments snd_wscale {C}. Arguments rcv_wscale {C}. Arguments ts_enabled {C}.
Arguments ts_recent {C}. Arguments cur_tsval {C}. Arguments accecn_cep {C}.
Arguments accecn_ace_seen {C}. Arguments irs {C}. Arguments rcv_nxt {C}. Arguments rcv_adv {C}.
Arguments tx {C}. Arguments rx {C}. Arguments rtt {C}. Arguments cc {C}. Arguments cc_kind {C}.
Arguments rtt_sample {C}. Arguments retransmitted {C}. Arguments retransmit {C}.
Arguments gbn_recover {C}. Arguments rtx_deadline {C}. Arguments persist_deadline {C}.
Arguments persist_backoff {C}. Arguments time_wait_deadline {C}.
Arguments delayed_ack_deadline {C}. Arguments unacked_segs {C}. Arguments pace_tokens {C}.
Arguments pace_last {C}. Arguments pace_deadline {C}. Arguments fin_queued {C}.
Arguments fin_seq {C}. Arguments fin_acked {C}. Arguments peer_fin_seen {C}.
Arguments reset {C}. Arguments needs_ack {C}. Arguments send_probe {C}.
Arguments pending_reset {C}. Arguments syn_retries {C}. Arguments challenge_window_start {C}.
Arguments challenge_count {C}. Arguments sack_enabled {C}. Arguments reasm {C}.
Arguments scoreboard {C}. Arguments pending_fin {C}. Arguments mss_advertise {C}.

#[export] Instance Tcb_settable {C} : Settable (Tcb C) := fun t =>
  mkTcb (state t) (local t) (remote t) (iss t) (snd_una t) (snd_nxt t) (snd_wnd t) (snd_wl1 t)
    (snd_wl2 t) (snd_mss t) (window_scaling t) (snd_wscale t) (rcv_wscale t) (ts_enabled t)
    (ts_recent t) (cur_tsval t) (accecn_cep t) (accecn_ace_seen t) (irs t) (rcv_nxt t) (rcv_adv t)
    (tx t) (rx t) (rtt t) (cc t) (cc_kind t) (rtt_sample t) (retransmitted t) (retransmit t)
    (gbn_recover t) (rtx_deadline t) (persist_deadline t) (persist_backoff t)
    (time_wait_deadline t) (delayed_ack_deadline t) (unacked_segs t) (pace_tokens t) (pace_last t)
    (pace_deadline t) (fin_queued t) (fin_seq t) (fin_acked t) (peer_fin_seen t) (reset t)
    (needs_ack t) (send_probe t) (pending_reset t) (syn_retries t) (challenge_window_start t)
    (challenge_count t) (sack_enabled t) (reasm t) (scoreboard t) (pending_fin t)
    (mss_advertise t).

Section tcb.
Context {C : Type} `{!CongestionControl C} (Cc_new : CcKind -> Z -> C).

(** *** Constructors *)

Definition new_syn_received (local remote : Endpoint) (syn : TcpPacket) (iss : SeqNumber)
    (now : Instant) (mss_advertise : Z) : option (Tcb C) :=
  let? mss := mss_option syn in
  let snd_mss := Z.min (default MSS_DEFAULT mss) mss_advertise in
  let? irs := TcpWire.seq syn in
  let rcv_nxt := seq_add irs 1 in
  let rcv_wnd := Z.min RX_BUFFER 0xFFFF in
  let? sack_enabled := sack_permitted syn in
  let? ws := window_scale syn in
  let '(window_scaling, snd_wscale, rcv_wscale) :=
    match ws with Some peer => (true, peer, RCV_WSCALE) | None => (false, 0, 0) end in
  let? ts := timestamps syn in
  let '(ts_enabled, ts_recent) :=
    match ts with Some (tsval, _) => (true, tsval) | None => (false, 0) end in
  let? wnd := window syn in
  Some (mkTcb SynReceived local remote iss iss iss wnd irs iss snd_mss window_scaling snd_wscale
    rcv_wscale ts_enabled ts_recent 0 ACE_INIT ACE_INIT irs rcv_nxt (seq_add rcv_nxt rcv_wnd)
    (RingBuffer.with_capacity TX_BUFFER) (RingBuffer.with_capacity RX_BUFFER) rtt_new
    (Cc_new CcReno snd_mss) CcReno None false false None None None PERSIST_MIN_MILLIS None None 0
    0 now None false None false false false false false None 0 now 0 sack_enabled reasm_new
    scoreboard_new None mss_advertise).

Definition new_syn_sent (local remote : Endpoint) (iss : SeqNumber) (now : Instant)
    (mss_advertise : Z) : Tcb C :=
  mkTcb SynSent local remote iss iss iss 0 iss iss MSS_DEFAULT false 0 0 false 0 0 ACE_INIT ACE_INIT
    0 0 0 (RingBuffer.with_capacity TX_BUFFER) (RingBuffer.with_capacity RX_BUFFER) rtt_new
    (Cc_new CcReno MSS_DEFAULT) CcReno None false false None None None PERSIST_MIN_MILLIS None None 0
    0 now None false None false false false false false None 0 now 0 false reasm_new
    scoreboard_new None mss_advertise.

Definition set_congestion_control (self : Tcb C) (kind : CcKind) : Tcb C :=
  if negb (bool_decide (kind = cc_kind self)) then
    let self := self <| cc_kind := kind |> in
    self <| cc := Cc_new kind (snd_mss self) |>
  else self.

Definition ecn_enabled (self : Tcb C) : bool :=
  match cc_kind self with CcDctcp | CcLearned | CcPrague | CcSynth => true | _ => false end.

(** *** Application interface *)

Definition send (self : Tcb C) (data : list Z) : Tcb C * Z :=
  match state self with
  | Established | CloseWait =>
      let '(tx', n) := RingBuffer.write (tx self) data in (self <| tx := tx' |>, n)
  | _ => (self, 0)
  end.
Definition recv (self : Tcb C) (dst_len : Z) : option (Tcb C * list Z) :=
  let? (rx', out) := RingBuffer.read (rx self) dst_len in Some (self <| rx := rx' |>, out).
Definition close (self : Tcb C) : Tcb C := self <| fin_queued := true |>.
Definition rx_available (self : Tcb C) : Z := RingBuffer.len (rx self).
Definition tx_free (self : Tcb C) : Z := RingBuffer.free (tx self).
Definition recv_eof (self : Tcb C) : bool := peer_fin_seen self && RingBuffer.is_empty (rx self).
Definition is_reset (self : Tcb C) : bool := reset self.
Definition is_synchronized (self : Tcb C) : bool :=
  match state self with
  | Established | CloseWait | FinWait1 | FinWait2 | Closing | LastAck => true
  | _ => false
  end.

(** *** Helpers *)

Definition seq_in_window (self : Tcb C) (s : SeqNumber) : bool :=
  if rcv_adv self =? rcv_nxt self then s =? rcv_nxt self
  else seq_ge s (rcv_nxt self) && seq_lt s (rcv_adv self).

Definition segment_acceptable (self : Tcb C) (s : SeqNumber) (seg_len : Z) : bool :=
  let zero_window := rcv_adv self =? rcv_nxt self in
  let right := rcv_adv self in
  match seg_len =? 0, zero_window with
  | true, true => s =? rcv_nxt self
  | true, false => seq_ge s (rcv_nxt self) && seq_lt s right
  | false, true => false
  | false, false =>
      let last := seq_add s (seg_len - 1) in
      (seq_ge s (rcv_nxt self) && seq_lt s right) ||
      (seq_ge last (rcv_nxt self) && seq_lt last right)
  end.

Definition update_window (self : Tcb C) (seg_seq seg_ack : SeqNumber) (seg_wnd : Z) : Tcb C :=
  if seq_lt (snd_wl1 self) seg_seq
     || ((snd_wl1 self =? seg_seq) && seq_le (snd_wl2 self) seg_ack) then
    let self := self <| snd_wnd := wrap32 (Z.shiftl seg_wnd (snd_wscale self)) |> in
    let self := self <| snd_wl1 := seg_seq |> <| snd_wl2 := seg_ack |> in
    if 0 <? seg_wnd then
      self <| persist_deadline := None |> <| persist_backoff := PERSIST_MIN_MILLIS |>
           <| send_probe := false |>
    else self
  else self.

Definition challenge_ack (self : Tcb C) (now : Instant) : Tcb C :=
  let self :=
    if 1000000 <=? saturating_micros_since now (challenge_window_start self) then
      self <| challenge_window_start := now |> <| challenge_count := 0 |>
    else self in
  if challenge_count self <? CHALLENGE_ACK_LIMIT then
    self <| challenge_count := challenge_count self + 1 |> <| needs_ack := true |>
  else self.

Definition take_needs_ack (self : Tcb C) : Tcb C * bool :=
  (self <| needs_ack := false |>, needs_ack self).

Definition restart_rtx (self : Tcb C) (now : Instant) : Tcb C :=
  self <| rtx_deadline := Some (plus_micros now (rto_micros (rtt self))) |>.
Definition start_rtx (self : Tcb C) (now : Instant) : Tcb C :=
  if is_none (rtx_deadline self) then restart_rtx self now else self.

Definition arm_persist (self : Tcb C) (now : Instant) : Tcb C :=
  if is_none (persist_deadline self) then
    let self := self <| persist_backoff := PERSIST_MIN_MILLIS |> in
    self <| persist_deadline := Some (plus_millis now (persist_backoff self)) |>
  else self.

Definition arm_delayed_ack (self : Tcb C) (now : Instant) : Tcb C :=
  if is_none (delayed_ack_deadline self) then
    self <| delayed_ack_deadline := Some (plus_millis now DELAYED_ACK_MILLIS) |>
  else self.

Definition pace_allowance (self : Tcb C) (now : Instant) (rate mss : Z) : Tcb C * Z :=
  let elapsed := saturating_micros_since now (pace_last self) in
  let earned := sat_mul64 elapsed rate / 1000000 in
  let cap := Z.max (rate / 1000) (2 * mss) in
  let self := self <| pace_tokens := Z.min (sat_add64 (pace_tokens self) earned) cap |> in
  let self := self <| pace_last := now |> in
  (self, Z.min (pace_tokens self) U32_MAX).

Definition arm_pace (self : Tcb C) (now : Instant) (rate have : Z) : Tcb C :=
  let need := sat_sub (snd_mss self) have in
  let wait_us := Z.max (div_ceil (sat_mul64 need 1000000) (Z.max rate 1)) 1 in
  self <| pace_deadline := Some (plus_micros now wait_us) |>.

Definition arm_time_wait (self : Tcb C) (now : Instant) : Tcb C :=
  self <| time_wait_deadline := Some (plus_millis now TIME_WAIT_MILLIS) |>
       <| rtx_deadline := None |> <| persist_deadline := None |>.

Definition advertised_window (self : Tcb C) : Tcb C * Z :=
  let occupied := RingBuffer.len (rx self) + buffered (reasm self) in
  let max_window := Z.shiftl 0xFFFF (rcv_wscale self) in
  let free := Z.min (sat_sub RX_BUFFER occupied) max_window in
  let candidate_right := seq_add (rcv_nxt self) free in
  let right := if seq_lt candidate_right (rcv_adv self) then rcv_adv self else candidate_right in
  (self <| rcv_adv := right |>, offset_from right (rcv_nxt self)).

Definition reasm_right_edge (self : Tcb C) : SeqNumber :=
  let budget := sat_sub RX_BUFFER (RingBuffer.len (rx self) + buffered (reasm self)) in
  let budget_edge := seq_add (rcv_nxt self) (Z.min budget 0xFFFF) in
  seq_min budget_edge (rcv_adv self).

Definition seg_is_lost (self : Tcb C) (s : SeqNumber) : bool :=
  is_lost (scoreboard self) s (snd_mss self).

Definition max_segment_payload (self : Tcb C) : Z :=
  let opt := 0 in
  let opt := if ts_enabled self then opt + 12 else opt in
  let opt :=
    if sack_enabled self && negb (reasm_is_empty (reasm self)) then
      let n := zlen (report (reasm self) MAX_SACK_BLOCKS) in
      let n := if ts_enabled self then Z.min n 3 else n in
      if 0 <? n then opt + (4 + 8 * n) else opt
    else opt in
  sat_sub (snd_mss self) opt.

(** *** Building segments *)

Fixpoint push_all (bs : list (SeqNumber * SeqNumber)) (s : SackBlocks) : option SackBlocks :=
  match bs with
  | [] => Some s
  | (l, r) :: bs => let? s := push s l r in push_all bs s
  end.

(** The repr [build] emits: the tcb after the call (window, delayed-ACK state)
    and the segment description. *)
Definition build_repr (self : Tcb C) (s : SeqNumber) (extra_flags : Z) : option (Tcb C * TcpRepr) :=
  let self := self <| delayed_ack_deadline := None |> <| unacked_segs := 0 |> in
  let flag_bits := Z.lor extra_flags TcpFlags.ACK in
  let '(flag_bits, ae) :=
    if ecn_enabled self && (Z.land flag_bits TcpFlags.SYN =? 0) then
      let ace := Z.land (accecn_cep self) 0x07 in
      let flag_bits :=
        if negb (Z.land ace 0x01 =? 0) then Z.lor flag_bits TcpFlags.ECE else flag_bits in
      let flag_bits :=
        if negb (Z.land ace 0x02 =? 0) then Z.lor flag_bits TcpFlags.CWR else flag_bits in
      (flag_bits, negb (Z.land ace 0x04 =? 0))
    else (flag_bits, false) in
  let '(self, window_true) := advertised_window self in
  let syn := TcpFlags.syn flag_bits in
  let window :=
    if syn then Z.min window_true 0xFFFF
    else Z.min (Z.shiftr window_true (rcv_wscale self)) 0xFFFF in
  let mss := if syn then Some (mss_advertise self) else None in
  let window_scale := if syn && window_scaling self then Some (rcv_wscale self) else None in
  let sack_permitted := syn && sack_enabled self in
  let? sack :=
    if sack_enabled self && negb syn && negb (reasm_is_empty (reasm self)) then
      push_all (report (reasm self) MAX_SACK_BLOCKS) SackBlocks_default
    else Some SackBlocks_default in
  let timestamps := if ts_enabled self then Some (cur_tsval self, ts_recent self) else None in
  Some (self, mkTcpRepr (ep_port (local self)) (ep_port (remote self)) s (rcv_nxt self) flag_bits
    window mss sack_permitted sack window_scale timestamps ae).

Definition build (self : Tcb C) (s : SeqNumber) (extra_flags : Z) (data : list Z)
  : option (Tcb C * list Z) :=
  let? (self, repr) := build_repr self s extra_flags in
  let? frame := build_segment (local self) (remote self) repr data in
  if ecn_enabled self && (0 <? zlen data) then
    let? frame := set_ecn frame ECN_ECT1 in Some (self, frame)
  else Some (self, frame).

Definition build_syn (self : Tcb C) : option (list Z) :=
  let repr := mkTcpRepr (ep_port (local self)) (ep_port (remote self)) (iss self) 0 TcpFlags.SYN
    (Z.min RX_BUFFER 0xFFFF) (Some (mss_advertise self)) true SackBlocks_default
    (Some RCV_WSCALE) (Some (cur_tsval self, 0)) false in
  build_segment (local self) (remote self) repr [].

Definition build_rst (self : Tcb C) (s : SeqNumber) : option (list Z) :=
  build_segment (local self) (remote self)
    (bare_repr (local self) (remote self) s 0 TcpFlags.RST) [].

(** *** ACK processing *)

(** The RTT measurement of [process_ack]. *)
Definition sample_rtt (self : Tcb C) (seg_ack : SeqNumber) (seg_tsecr : option Z) (now : Instant)
  : option (Tcb C) :=
  if ts_enabled self then
    match seg_tsecr with
    | Some tsecr =>
        let elapsed := wrap32 (wrap32 (micros now) - tsecr) in
        if 0 <=? as_i32 elapsed then
          let? r := Rtt.on_sample (rtt self) (Z.max elapsed 1) in Some (self <| rtt := r |>)
        else Some self
    | None => Some self
    end
  else if negb (retransmitted self) then
    match rtt_sample self with
    | Some (sent_at, seq_end) =>
        if seq_ge seg_ack seq_end then
          let rtt_us := Z.max (Z.min (saturating_micros_since now sent_at) U32_MAX) 1 in
          let? r := Rtt.on_sample (rtt self) rtt_us in
          Some (self <| rtt := r |> <| rtt_sample := None |>)
        else Some self
    | None => Some self
    end
  else Some self.

(** The AccECN accounting of [process_ack]. *)
Definition account_ecn (self : Tcb C) (ace data_acked : Z) (in_recovery : bool) (now : Instant)
  : option (Tcb C) :=
  if ecn_enabled self then
    let delta := Z.land (wrap8 (ace - accecn_ace_seen self)) 0x07 in
    let self := self <| accecn_ace_seen := Z.land ace 0x07 |> in
    if negb in_recovery then
      let marked := Z.min (sat_mul32 delta (snd_mss self)) data_acked in
      let? c := cc_on_ecn (cc self) now data_acked marked in Some (self <| cc := c |>)
    else Some self
  else Some self.

(** The scoreboard maintenance of [process_ack]. *)
Definition advance_scoreboard (self : Tcb C) (now : Instant) : option (Tcb C) :=
  if sack_enabled self then
    let self := self <| scoreboard := trim (scoreboard self) (snd_una self) |> in
    if recovery_reached (scoreboard self) (snd_una self) then
      let self := self <| scoreboard := exit_recovery (scoreboard self) |> in
      let? c := cc_on_ack (cc self) now 0 in
      Some (self <| cc := c |> <| retransmitted := false |>)
    else Some self
  else Some self.

(** The in-flight estimate the controller and the send gate use. *)
Definition pipe_estimate (self : Tcb C) : option Z :=
  if sack_enabled self then pipe (scoreboard self) (snd_una self) (snd_nxt self) (snd_mss self)
  else Some (offset_from (snd_nxt self) (snd_una self)).

(** The body of [process_ack] for an ACK that advances [SND.UNA]. *)
Definition advance_una (self : Tcb C) (seg_ack : SeqNumber) (seg_tsecr : option Z) (ace : Z)
    (now : Instant) : option (Tcb C) :=
  let acked := offset_from seg_ack (snd_una self) in
  let data_acked := Z.min acked (RingBuffer.len (tx self)) in
  let self := self <| tx := fst (RingBuffer.consume (tx self) data_acked) |> in
  let rec_ := sack_enabled self && in_recovery (scoreboard self) in
  let? self :=
    if negb rec_ then
      let? c := cc_on_ack (cc self) now (wrap32 data_acked) in Some (self <| cc := c |>)
    else Some self in
  let self :=
    match fin_seq self with
    | Some f => if seq_gt seg_ack f then self <| fin_acked := true |> else self
    | None => self
    end in
  let self := self <| snd_una := seg_ack |> in
  let cc_inflight := offset_from (snd_nxt self) (snd_una self) in
  let? cc_pipe := pipe_estimate self in
  let? c := cc_on_ack_sample (cc self) now (snd_una self) cc_inflight (wrap32 data_acked) cc_pipe rec_ in
  let self := self <| cc := c |> in
  let? self := account_ecn self ace (wrap32 data_acked) rec_ now in
  let? self := advance_scoreboard self now in
  let self :=
    match gbn_recover self with
    | Some high =>
        if seq_lt (snd_una self) high && negb (snd_una self =? snd_nxt self)
        then self <| retransmit := true |> else self <| gbn_recover := None |>
    | None => self
    end in
  let? self := sample_rtt self seg_ack seg_tsecr now in
  let self := self <| rtt := Rtt.on_clean_ack (rtt self) |> in
  let? self :=
    match srtt_micros (rtt self) with
    | Some s => let? c := cc_on_rtt_sample (cc self) s in Some (self <| cc := c |>)
    | None => Some self
    end in
  Some (if snd_una self =? snd_nxt self then
    self <| rtx_deadline := None |> <| retransmitted := false |> <| rtt_sample := None |>
  else restart_rtx self now).

Definition process_ack (self : Tcb C) (seg_seq seg_ack : SeqNumber) (seg_wnd : Z)
    (seg_tsecr : option Z) (ace : Z) (now : Instant) : option (Tcb C * bool) :=
  if seq_gt seg_ack (snd_nxt self) then Some (self <| needs_ack := true |>, false)
  else
    let? self :=
      if seq_gt seg_ack (snd_una self) then advance_una self seg_ack seg_tsecr ace now
      else Some self in
    Some (update_window self seg_seq seg_ack seg_wnd, true).

Definition recompute_closing_state (self : Tcb C) (now : Instant) : Tcb C :=
  let prev := state self in
  let next :=
    match state self with
    | FinWait1 =>
        match fin_acked self, peer_fin_seen self with
        | true, true => TimeWait | true, false => FinWait2
        | false, true => Closing | false, false => FinWait1
        end
    | FinWait2 => if peer_fin_seen self then TimeWait else FinWait2
    | Closing => if fin_acked self then TimeWait else Closing
    | LastAck => if fin_acked self then Closed else LastAck
    | Established => if peer_fin_seen self then CloseWait else Established
    | other => other
    end in
  let self := self <| state := next |> in
  if negb (state_eqb (state self) prev) then
    match state self with
    | TimeWait => arm_time_wait self now
    | FinWait2 => self <| time_wait_deadline := Some (plus_millis now FIN_WAIT2_MILLIS) |>
    | _ => self
    end
  else self.

(** *** Inbound *)

Definition on_segment_syn_sent (self : Tcb C) (tcp : TcpPacket) : option (Tcb C) :=
  let? f := flags tcp in
  let? seg_seq := TcpWire.seq tcp in
  let? seg_ack := TcpWire.ack tcp in
  let ack_present := TcpFlags.ack f in
  let ack_acceptable := ack_present && seq_gt seg_ack (iss self) && seq_le seg_ack (snd_nxt self) in
  if ack_present && negb ack_acceptable then
    Some (if negb (TcpFlags.rst f) then self <| pending_reset := Some seg_ack |> else self)
  else if TcpFlags.rst f then
    Some (if ack_acceptable then self <| state := Closed |> <| reset := true |> else self)
  else if TcpFlags.syn f then
    let self := self <| retransmit := false |> <| irs := seg_seq |>
                     <| rcv_nxt := seq_add seg_seq 1 |> in
    let rcv_wnd := Z.min RX_BUFFER 0xFFFF in
    let self := self <| rcv_adv := seq_add (rcv_nxt self) rcv_wnd |> in
    let? mss := mss_option tcp in
    let self := self <| snd_mss := Z.min (default MSS_DEFAULT mss) (mss_advertise self) |> in
    let self := self <| cc := Cc_new (cc_kind self) (snd_mss self) |> in
    let? sp := sack_permitted tcp in
    let self := self <| sack_enabled := sp |> in
    let? ws := window_scale tcp in
    let self :=
      match ws with
      | Some peer =>
          self <| window_scaling := true |> <| snd_wscale := peer |> <| rcv_wscale := RCV_WSCALE |>
      | None => self <| window_scaling := false |> <| snd_wscale := 0 |> <| rcv_wscale := 0 |>
      end in
    let? ts := timestamps tcp in
    let self :=
      match ts with
      | Some (tsval, _) => self <| ts_enabled := true |> <| ts_recent := tsval |>
      | None => self <| ts_enabled := false |>
      end in
    let? wnd := window tcp in
    let self := self <| snd_wnd := wnd |> <| snd_wl1 := seg_seq |> in
    Some (if ack_acceptable then
      self <| snd_una := seg_ack |> <| snd_wl2 := seg_ack |> <| state := Established |>
           <| rtx_deadline := None |> <| needs_ack := true |>
    else
      self <| snd_wl2 := iss self |> <| state := SynReceived |> <| retransmit := true |>)
  else Some self.

(** Section (5), SYN-RECEIVED: [false] when the segment is dropped. *)
Definition ack_syn_received (self : Tcb C) (seg_seq seg_ack : SeqNumber) (wnd : Z) : Tcb C * bool :=
  if seq_gt seg_ack (snd_una self) && seq_le seg_ack (snd_nxt self) then
    let self := self <| snd_una := seg_ack |> in
    let self := update_window self seg_seq seg_ack wnd in
    (self <| state := Established |> <| rtx_deadline := None |> <| retransmit := false |>, true)
  else (self <| pending_reset := Some seg_ack |> <| state := Closed |>, false).

(** Loss recovery on an acknowledgement, with SACK negotiated. *)
Definition sack_recovery (self : Tcb C) (tcp : TcpPacket) (is_dup : bool) (now : Instant)
  : option (Tcb C) :=
  let? (blocks, count) := sack_blocks tcp (zrepeat (0, 0) MAX_SACK_BLOCKS) in
  let? blks := slice blocks 0 count in
  let? sb := sb_update (scoreboard self) (snd_una self) (snd_nxt self) blks in
  let self := self <| scoreboard := sb |> in
  if negb (in_recovery (scoreboard self)) && is_none (gbn_recover self) then
    let flight := offset_from (snd_nxt self) (snd_una self) in
    let? (self, three_dups) :=
      if is_dup then
        let? (c, b) := cc_on_dup_ack (cc self) now flight in Some (self <| cc := c |>, b)
      else Some (self, false) in
    let lost := seg_is_lost self (snd_una self) in
    if three_dups || lost then
      let? self :=
        if negb three_dups then
          let? c := cc_enter_recovery (cc self) now flight in Some (self <| cc := c |>)
        else Some self in
      let self := self <| scoreboard := begin_recovery (scoreboard self) (snd_nxt self) |> in
      let self := self <| retransmitted := true |> <| rtt_sample := None |> in
      Some (restart_rtx self now)
    else Some self
  else Some self.

(** Loss recovery without SACK: the legacy fast retransmit. *)
Definition dup_ack_recovery (self : Tcb C) (is_dup : bool) (now : Instant) : option (Tcb C) :=
  if is_dup then
    let flight := offset_from (snd_nxt self) (snd_una self) in
    let? (c, fired) := cc_on_dup_ack (cc self) now flight in
    let self := self <| cc := c |> in
    Some (if fired then
      restart_rtx (self <| retransmit := true |> <| retransmitted := true |> <| rtt_sample := None |>) now
    else self)
  else Some self.

(** Section (5): [false] when the segment is dropped. *)
Definition ack_segment (self : Tcb C) (now : Instant) (tcp : TcpPacket) (seg_seq seg_ack : SeqNumber)
    (f : Z) (body : list Z) (seg_ts : option (Z * Z)) : option (Tcb C * bool) :=
  let? wnd := window tcp in
  if state_eqb (state self) SynReceived then Some (ack_syn_received self seg_seq seg_ack wnd)
  else
    let is_dup := (zlen body =? 0) && negb (TcpFlags.fin f) && negb (TcpFlags.syn f) &&
      (seg_ack =? snd_una self) && negb (snd_una self =? snd_nxt self) in
    let? ae := TcpWire.ae tcp in
    let ace := Z.lor (Z.lor (Z.shiftl (Z.b2z ae) 2) (Z.shiftl (Z.b2z (TcpFlags.cwr f)) 1))
                 (Z.b2z (TcpFlags.ece f)) in
    let tsecr := match seg_ts with Some (_, e) => Some e | None => None end in
    let? (self, ok) := process_ack self seg_seq seg_ack wnd tsecr ace now in
    if negb ok then Some (self, false)
    else
      let? self :=
        if sack_enabled self then sack_recovery self tcp is_dup now
        else dup_ack_recovery self is_dup now in
      Some (self, true).

(** The drain loop of section (6): one iteration per buffered run. *)
Fixpoint drain (fuel : nat) (self : Tcb C) : option (Tcb C) :=
  match fuel with
  | O => None
  | S fuel =>
      let? (rs, run) := pop_contiguous (reasm self) (rcv_nxt self) in
      let self := self <| reasm := rs |> in
      match run with
      | [] => Some self
      | _ =>
          let '(rx', w) := RingBuffer.write (rx self) run in
          let self := self <| rx := rx' |> in
          let self := self <| rcv_nxt := seq_add (rcv_nxt self) (wrap32 w) |> in
          if w <? zlen run then
            Some (self <| reasm := reinsert_front (reasm self) (rcv_nxt self) (zdrop w run) |>)
          else drain fuel self
      end
  end.

(** Section (6), accepting the data: the tcb, [in_order], [no_room]. *)
Definition accept_data (self : Tcb C) (seg_seq : SeqNumber) (body : list Z)
  : option (Tcb C * bool * bool) :=
  let? (data_seq, data) :=
    if seq_lt seg_seq (rcv_nxt self) then
      let o := Z.min (offset_from (rcv_nxt self) seg_seq) (zlen body) in
      let? d := slice body o (zlen body) in Some (rcv_nxt self, d)
    else Some (seg_seq, body) in
  if zlen data =? 0 then Some (self, false, false)
  else if data_seq =? rcv_nxt self then
    let '(rx', n) := RingBuffer.write (rx self) data in
    let self := self <| rx := rx' |> in
    let self := self <| rcv_nxt := seq_add (rcv_nxt self) (wrap32 n) |> in
    let no_room := n <? zlen data in
    let? self :=
      if sack_enabled self then
        let? rs := discard_below (reasm self) (rcv_nxt self) in
        let self := self <| reasm := rs |> in
        drain (S (length (runs (reasm self)))) self
      else Some self in
    Some (self, true, no_room)
  else if sack_enabled self then
    let edge := reasm_right_edge self in
    let? rs := Reasm.insert (reasm self) (rcv_nxt self) edge data_seq data in
    Some (self <| reasm := rs |>, false, false)
  else Some (self, false, false).

(** Section (6), whole: data, the CE counter, and the ACK schedule. *)
Definition receive_data (self : Tcb C) (now : Instant) (seg_seq : SeqNumber) (body : list Z)
    (ce : bool) : option (Tcb C) :=
  if zlen body =? 0 then Some self
  else
    let rcv_nxt_before := rcv_nxt self in
    let reasm_before := buffered (reasm self) in
    let? (self, in_order, no_room) := accept_data self seg_seq body in
    let accepted := negb (rcv_nxt self =? rcv_nxt_before)
                    || (reasm_before <? buffered (reasm self)) in
    let self :=
      if ecn_enabled self && ce && accepted
      then self <| accecn_cep := wrap8 (accecn_cep self + 1) |> else self in
    let clean_in_order := in_order && negb no_room && (reasm_before =? 0) in
    Some (if clean_in_order then
      let self := self <| unacked_segs := Z.min (unacked_segs self + 1) U8_MAX |> in
      if 2 <=? unacked_segs self then self <| needs_ack := true |> <| unacked_segs := 0 |>
      else arm_delayed_ack self now
    else self <| needs_ack := true |>).

(** Sections (7) and (7b): the peer's FIN. *)
Definition receive_fin (self : Tcb C) (seg_seq : SeqNumber) (f : Z) (body : list Z) : Tcb C :=
  let self :=
    if TcpFlags.fin f then
      let fin_at := seq_add seg_seq (wrap32 (zlen body)) in
      let self :=
        if (fin_at =? rcv_nxt self) && negb (peer_fin_seen self) then
          self <| rcv_nxt := seq_add (rcv_nxt self) 1 |> <| peer_fin_seen := true |>
        else if negb (peer_fin_seen self) then self <| pending_fin := Some fin_at |>
        else self in
      self <| needs_ack := true |>
    else self in
  match pending_fin self with
  | Some fin_at =>
      if (fin_at =? rcv_nxt self) && negb (peer_fin_seen self) then
        self <| rcv_nxt := seq_add (rcv_nxt self) 1 |> <| peer_fin_seen := true |>
             <| pending_fin := None |> <| needs_ack := true |>
      else self
  | None => self
  end.

Definition on_segment (self : Tcb C) (now : Instant) (tcp : TcpPacket) (ce : bool)
  : option (Tcb C) :=
  if state_eqb (state self) SynSent then on_segment_syn_sent self tcp
  else
    let? seg_seq := TcpWire.seq tcp in
    let? seg_ack := TcpWire.ack tcp in
    let? f := flags tcp in
    let? body := payload tcp in
    let seg_len := wrap32 (zlen body) + Z.b2z (TcpFlags.syn f) + Z.b2z (TcpFlags.fin f) in
    let? seg_ts := if ts_enabled self then timestamps tcp else Some None in
    (* (1) RST *)
    if TcpFlags.rst f then
      Some (if seq_in_window self seg_seq then
        if seg_seq =? rcv_nxt self then self <| state := Closed |> <| reset := true |>
        else challenge_ack self now
      else self)
    else if state_eqb (state self) TimeWait then
      Some (arm_time_wait (self <| needs_ack := true |>) now)
    (* (2) SYN on an existing connection *)
    else if TcpFlags.syn f then
      Some (if state_eqb (state self) SynReceived && (seg_seq =? irs self)
        then self <| snd_nxt := iss self |>
        else if seq_in_window self seg_seq then challenge_ack self now else self)
    (* (2b) PAWS *)
    else if match seg_ts with
            | Some (tsval, _) => as_i32 (wrap32 (tsval - ts_recent self)) <? 0
            | None => false
            end then Some (self <| needs_ack := true |>)
    (* (3) acceptability *)
    else if negb (segment_acceptable self seg_seq seg_len) then Some (self <| needs_ack := true |>)
    else
      let self :=
        match seg_ts with
        | Some (tsval, _) =>
            if seq_le seg_seq (rcv_nxt self) then self <| ts_recent := tsval |> else self
        | None => self
        end in
      (* (4) ACK required *)
      if negb (TcpFlags.ack f) then Some self
      else
        (* (5) .. (8) *)
        let? (self, ok) := ack_segment self now tcp seg_seq seg_ack f body seg_ts in
        if negb ok then Some self
        else
          let? self := receive_data self now seg_seq body ce in
          let self := receive_fin self seg_seq f body in
          Some (recompute_closing_state self now).

(** *** Outbound *)

(** Step 0: the pending retransmission of the oldest unacked segment. *)
Definition retransmit_oldest (self : Tcb C) (now : Instant) (inflight max_payload : Z)
  : option (Tcb C * option (list Z)) :=
  if retransmit self && (0 <? inflight) then
    let self := self <| retransmit := false |> in
    let n := Z.min (Z.min inflight (RingBuffer.len (tx self))) max_payload in
    if 0 <? n then
      let data := RingBuffer.peek (tx self) 0 n in
      let f := if n =? RingBuffer.len (tx self) then TcpFlags.PSH else 0 in
      let? (self, seg) := build self (snd_una self) f data in
      Some (start_rtx self now, Some seg)
    else
      match fin_seq self with
      | Some fs =>
          if negb (fin_acked self) && (snd_una self =? fs) then
            let? (self, seg) := build self fs TcpFlags.FIN [] in
            Some (start_rtx self now, Some seg)
          else Some (self, None)
      | None => Some (self, None)
      end
  else Some (self, None).

(** Step 0.5: SACK selective retransmission. *)
Definition selective_retransmit (self : Tcb C) (now : Instant) (max_payload : Z)
  : option (Tcb C * option (list Z)) :=
  if sack_enabled self && in_recovery (scoreboard self) then
    let smss := snd_mss self in
    let? p := pipe (scoreboard self) (snd_una self) (snd_nxt self) smss in
    if p <? cc_cwnd (cc self) then
      let? next := next_seg (scoreboard self) (snd_una self) (snd_nxt self) smss in
      match next with
      | Some (s, is_rescue) =>
          let o := offset_from s (snd_una self) in
          let hole := unsacked_run_len (scoreboard self) s (snd_nxt self) in
          let avail := sat_sub (RingBuffer.len (tx self)) o in
          let n := Z.min (Z.min hole max_payload) avail in
          if 0 <? n then
            let data := RingBuffer.peek (tx self) o n in
            let f := if o + n =? RingBuffer.len (tx self) then TcpFlags.PSH else 0 in
            let? (self, seg) := build self s f data in
            let? sb := mark_rexmit (scoreboard self) s (seq_add s (wrap32 n)) in
            let self := self <| scoreboard := sb |> in
            let self :=
              if (is_rescue : bool)
              then self <| scoreboard := set_rescue_done (scoreboard self) |> else self in
            let self := self <| retransmitted := true |> <| rtt_sample := None |> in
            Some (start_rtx self now, Some seg)
          else Some (self, None)
      | None => Some (self, None)
      end
    else Some (self, None)
  else Some (self, None).

(** Step 1: new data, or a zero-window probe. *)
Definition send_new_data (self : Tcb C) (now : Instant) (inflight sent_data unsent_data max_payload : Z)
  : option (Tcb C * option (list Z)) :=
  let? p := pipe_estimate self in
  let cwnd_room := sat_sub (cc_cwnd (cc self)) p in
  let rwnd_room := sat_sub (snd_wnd self) inflight in
  let allowed := Z.min cwnd_room rwnd_room in
  let '(self, allowed) :=
    match cc_pacing_rate (cc self) with
    | Some rate =>
        let self := self <| pace_deadline := None |> in
        let '(self, paced) := pace_allowance self now rate (wrap32 max_payload) in
        let self :=
          if (paced <? allowed) && (0 <? unsent_data) then arm_pace self now rate paced else self in
        (self, Z.min allowed paced)
    | None => (self, allowed)
    end in
  if 0 <? allowed then
    let n := Z.min (Z.min allowed unsent_data) max_payload in
    if 0 <? n then
      let data := RingBuffer.peek (tx self) sent_data n in
      let s := snd_nxt self in
      let f := if sent_data + n =? RingBuffer.len (tx self) then TcpFlags.PSH else 0 in
      let? (self, seg) := build self s f data in
      let self := self <| snd_nxt := seq_add (snd_nxt self) (wrap32 n) |> in
      let self :=
        if is_none (rtt_sample self) && negb (retransmitted self)
        then self <| rtt_sample := Some (now, snd_nxt self) |> else self in
      let self :=
        if is_some (cc_pacing_rate (cc self))
        then self <| pace_tokens := sat_sub (pace_tokens self) n |> else self in
      let app_limited := (n =? unsent_data) && (n <? Z.min cwnd_room rwnd_room) in
      let? c := cc_on_transmit (cc self) now (snd_nxt self) n inflight app_limited in
      let self := self <| cc := c |> in
      Some (start_rtx self now, Some seg)
    else Some (self, None)
  else if (0 <? unsent_data) && (inflight =? 0) && (rwnd_room =? 0) then
    let self := arm_persist self now in
    if send_probe self then
      let self := self <| send_probe := false |> in
      let? byte := slice (RingBuffer.peek (tx self) 0 1 ++ zrepeat 0 1) 0 1 in
      let? (self, seg) := build self (snd_una self) 0 byte in
      Some (self, Some seg)
    else Some (self, None)
  else Some (self, None).

(** Step 2: our FIN. *)
Definition send_fin (self : Tcb C) (now : Instant) (data_end : SeqNumber)
  : option (Tcb C * option (list Z)) :=
  if fin_queued self && negb (fin_acked self) && (snd_nxt self =? data_end) then
    let? (self, seg) := build self data_end TcpFlags.FIN [] in
    let self := self <| fin_seq := Some data_end |> <| snd_nxt := seq_add data_end 1 |> in
    let self := start_rtx self now in
    let self :=
      self <| state := match state self with
                       | Established => FinWait1 | CloseWait => LastAck | other => other
                       end |> in
    Some (self, Some seg)
  else Some (self, None).

Definition transmit_data_or_fin (self : Tcb C) (now : Instant) : option (Tcb C * option (list Z)) :=
  let inflight := offset_from (snd_nxt self) (snd_una self) in
  let sent_data := Z.min inflight (RingBuffer.len (tx self)) in
  let unsent_data := RingBuffer.len (tx self) - sent_data in
  let data_end := seq_add (snd_una self) (wrap32 (RingBuffer.len (tx self))) in
  let max_payload := max_segment_payload self in
  let? (self, out) := retransmit_oldest self now inflight max_payload in
  if is_some out then Some (self, out)
  else
    let? (self, out) := selective_retransmit self now max_payload in
    if is_some out then Some (self, out)
    else
      let? (self, out) := send_new_data self now inflight sent_data unsent_data max_payload in
      if is_some out then Some (self, out) else send_fin self now data_end.

(** An owed pure ACK, if any. *)
Definition transmit_ack (self : Tcb C) : option (Tcb C * option (list Z)) :=
  let '(self, owed) := take_needs_ack self in
  if (owed : bool) then
    let? (self, seg) := build self (snd_nxt self) 0 [] in Some (self, Some seg)
  else Some (self, None).

Definition poll_transmit (self : Tcb C) (now : Instant) : option (Tcb C * option (list Z)) :=
  let self := self <| cur_tsval := wrap32 (micros now) |> in
  match pending_reset self with
  | Some s =>
      let self := self <| pending_reset := None |> in
      let? seg := build_rst self s in Some (self, Some seg)
  | None =>
      match state self with
      | Closed | Listen => Some (self, None)
      | SynSent =>
          if snd_nxt self =? iss self then
            let? seg := build_syn self in
            let self := self <| snd_nxt := seq_add (iss self) 1 |> in
            Some (start_rtx self now, Some seg)
          else if retransmit self then
            let self := self <| retransmit := false |> in
            let? seg := build_syn self in Some (self, Some seg)
          else Some (self, None)
      | SynReceived =>
          if snd_nxt self =? iss self then
            let? (self, seg) := build self (iss self) TcpFlags.SYN [] in
            let self := self <| snd_nxt := seq_add (iss self) 1 |> in
            Some (start_rtx self now, Some seg)
          else if retransmit self then
            let self := self <| retransmit := false |> in
            let? (self, seg) := build self (iss self) TcpFlags.SYN [] in Some (self, Some seg)
          else transmit_ack self
      | TimeWait => transmit_ack self
      | _ =>
          let? (self, out) := transmit_data_or_fin self now in
          if is_some out then Some (self, out) else transmit_ack self
      end
  end.

(** *** Timers *)

Definition poll_at (self : Tcb C) : option Instant :=
  let deadlines := omap id [rtx_deadline self; persist_deadline self; time_wait_deadline self;
                            delayed_ack_deadline self; pace_deadline self] in
  match deadlines with [] => None | d :: ds => Some (fold_left Z.min ds d) end.

Definition due (now : Instant) (d : option Instant) : bool :=
  match d with Some d => d <=? now | None => false end.

(** The retransmission timer. *)
Definition fire_rtx (self : Tcb C) (now : Instant) : option (Tcb C) :=
  if due now (rtx_deadline self) && state_eqb (state self) SynSent then
    let self := self <| syn_retries := syn_retries self + 1 |> in
    if MAX_SYN_RETRIES <=? syn_retries self then
      Some (self <| state := Closed |> <| rtx_deadline := None |>)
    else
      let self := self <| retransmit := true |> in
      let? r := Rtt.on_timeout (rtt self) in
      let self := self <| rtt := r |> in
      Some (restart_rtx self now)
  else if due now (rtx_deadline self) then
    let flight := offset_from (snd_nxt self) (snd_una self) in
    let? c := cc_on_rto (cc self) now flight in
    let self := self <| cc := c |> in
    let? r := Rtt.on_timeout (rtt self) in
    let self := self <| rtt := r |> in
    let self :=
      if sack_enabled self then self <| scoreboard := sb_on_rto (scoreboard self) |> else self in
    let self := self <| retransmit := true |> <| retransmitted := true |> <| rtt_sample := None |>
                     <| gbn_recover := Some (snd_nxt self) |> in
    Some (restart_rtx self now)
  else Some self.

Definition on_timer (self : Tcb C) (now : Instant) : option (Tcb C) :=
  let? self := fire_rtx self now in
  let self :=
    if due now (persist_deadline self) then
      let self := self <| send_probe := true |>
                       <| persist_backoff := Z.min (persist_backoff self * 2) PERSIST_MAX_MILLIS |> in
      self <| persist_deadline := Some (plus_millis now (persist_backoff self)) |>
    else self in
  let self :=
    if due now (time_wait_deadline self) then self <| state := Closed |> else self in
  Some (if due now (delayed_ack_deadline self)
        then self <| needs_ack := true |> <| delayed_ack_deadline := None |> else self).

End tcb.
