(* ===== verification/TcbInv.v ===== *)
(** The invariant of a connection and its preservation by the inbound path:
    [Tcb::on_segment] and everything it calls in [tcp-core/src/tcb.rs].

    [tcb_ok] has four parts, each a predicate on the fields it speaks of, so an
    operation that leaves those fields alone preserves it by computation:
    the receive space ([rcv_inv]), the send space ([snd_inv]), the configuration
    and the collaborators ([env_inv]), the retransmission timer ([tmr_inv]). *)

From S2P Require Import Prelude Seq Time Buffers Rtt Checksum Ipv4 TcpWire Sack Reasm Congestion Endpoint Tcb.
Import RingBuffer (RingBuffer, buf, capacity).

(** *** The invariant *)

(** The receive space.  A peer may overrun the advertised edge, by one segment at
    most and its FIN, before the next ACK moves the edge; buffer space, the window
    and the reassembly runs share the RX_BUFFER budget. *)
Record rcv_inv (nxt adv : SeqNumber) (rx : RingBuffer) (rs : Reasm) (fin sack : bool) : Prop := {
  ri_nxt : seq_ok nxt;
  ri_adv : seq_ok adv;
  ri_cap : capacity rx = RX_BUFFER;
  ri_window : - (U16_MAX + Z.b2z fin) <= distance adv nxt;
  ri_budget : RingBuffer.len rx + Z.max 0 (distance adv nxt) <= RX_BUFFER;
  ri_reasm : reasm_wf nxt 0 rs;
  ri_within : Forall (fun r => e_off nxt r <= Z.max 0 (distance adv nxt)) (runs rs);
  ri_nosack : sack = false -> runs rs = [];
}.

Definition sb_empty (b : Scoreboard) : Prop := sacked b = [] /\ rexmit b = [].

(** The send space: [tx] holds exactly the bytes from [SND.UNA] on; what is in
    flight is data of [tx], plus the FIN once it has its number, or the SYN
    before the handshake is done. *)
Record snd_inv (st : State) (iss una nxt : SeqNumber) (tx : RingBuffer) (fs : option SeqNumber)
    (fa sack : bool) (sb : Scoreboard) : Prop := {
  si_iss : seq_ok iss;
  si_una : seq_ok una;
  si_nxt : in_half una nxt;
  si_cap : capacity tx = TX_BUFFER;
  si_len : RingBuffer.len tx <= TX_BUFFER;
  si_bytes : bytes_ok (buf tx);
  si_opening : st = SynSent \/ st = SynReceived ->
    una = iss /\ off una nxt <= 1 /\ buf tx = [] /\ fs = None /\ sb_empty sb;
  si_flight : fs = None -> fa = false /\
    (off una nxt <= RingBuffer.len tx \/
     off una nxt <= 1 /\ buf tx = [] /\ (st = SynSent \/ st = SynReceived \/ st = Closed));
  si_fin : forall f, fs = Some f -> seq_ok f /\
    if fa then una = nxt /\ buf tx = []
    else off una f = RingBuffer.len tx /\ off una nxt = RingBuffer.len tx + 1;
  si_sending : fs <> None -> st <> Established /\ st <> CloseWait;
  si_finacked : st = FinWait2 \/ st = TimeWait -> fa = true;
  si_sb : sb_wf una nxt sb;
  si_nosack : sack = false -> sb_empty sb;
}.

(** While something is outstanding the retransmission timer is armed. *)
Definition tmr_inv (st : State) (una nxt : SeqNumber) (rtx : option Instant) : Prop :=
  st <> Closed -> una <> nxt -> is_some rtx = true.

Section tcb_ok.
Context {C : Type} `{CC : CongestionControl C} {CL : CongestionLaws C}.

Record env_inv (lo re : Endpoint) (mss_adv mss : Z) (c : C) (r : RttEstimator)
    (sws rws tsr tsv cep : Z) (pend : option SeqNumber) : Prop := {
  ei_local : endpoint_ok lo;
  ei_remote : endpoint_ok re;
  ei_adv : MSS_DEFAULT <= mss_adv <= MSS_MAX;
  ei_mss : 0 < mss <= mss_adv;
  ei_cc : cc_ok mss c;
  ei_rtt : Rtt.wf r;
  ei_sws : 0 <= sws <= 14;
  ei_rws : 0 <= rws <= 14;
  ei_tsr : is_u32 tsr;
  ei_tsv : is_u32 tsv;
  ei_cep : is_u8 cep;
  ei_pend : forall s, pend = Some s -> seq_ok s;
}.

Record tcb_ok (self : Tcb C) : Prop := {
  ok_rcv : rcv_inv (rcv_nxt self) (rcv_adv self) (rx self) (reasm self) (peer_fin_seen self)
             (sack_enabled self);
  ok_snd : snd_inv (state self) (iss self) (snd_una self) (snd_nxt self) (tx self) (fin_seq self)
             (fin_acked self) (sack_enabled self) (scoreboard self);
  ok_env : env_inv (local self) (remote self) (mss_advertise self) (snd_mss self) (cc self) (rtt self)
             (snd_wscale self) (rcv_wscale self) (ts_recent self) (cur_tsval self)
             (accecn_cep self) (pending_reset self);
  ok_tmr : tmr_inv (state self) (snd_una self) (snd_nxt self) (rtx_deadline self);
  (* until the peer's FIN is consumed, the gap at [RCV.NXT] is real *)
  ok_gap : peer_fin_seen self = false -> content (rcv_nxt self) (runs (reasm self)) 0 = None;
  (* nothing is received before the peer's SYN *)
  ok_fresh : state self = SynSent ->
    buf (rx self) = [] /\ runs (reasm self) = [] /\ peer_fin_seen self = false;
}.

(** The parts of the state the two directions own. *)
Definition rcv_view (self : Tcb C) :=
  (rcv_nxt self, rcv_adv self, rx self, reasm self, peer_fin_seen self, pending_fin self,
   sack_enabled self).
Definition snd_view (self : Tcb C) :=
  (iss self, snd_una self, snd_nxt self, tx self, fin_seq self, fin_acked self, sack_enabled self,
   scoreboard self).
Definition conn_view (self : Tcb C) :=
  (local self, remote self, iss self, irs self, mss_advertise self, snd_mss self,
   window_scaling self, rcv_wscale self, ts_enabled self, sack_enabled self, cc_kind self).

End tcb_ok.

(** Close [tcb_ok] of a state that differs from an [ok] one in fields the
    invariant does not speak of. *)
Ltac tcb_frame H := destruct H as [?Hrcv ?Hsnd ?Henv ?Htmr ?Hgap ?Hfresh]; split; assumption.

Section small_steps.
Context {C : Type} `{CC : CongestionControl C} {CL : CongestionLaws C}.
Context (Cc_new : CcKind -> Z -> C).

Lemma challenge_ack_ok (self : Tcb C) now : tcb_ok self -> tcb_ok (challenge_ack self now).
Proof. intros H. unfold challenge_ack. case_ifs; tcb_frame H. Qed.

Lemma arm_delayed_ack_ok (self : Tcb C) now : tcb_ok self -> tcb_ok (arm_delayed_ack self now).
Proof. intros H. unfold arm_delayed_ack. case_ifs; tcb_frame H. Qed.

Lemma update_window_ok (self : Tcb C) s a w : tcb_ok self -> tcb_ok (update_window self s a w).
Proof. intros H. unfold update_window. case_ifs; tcb_frame H. Qed.

Lemma restart_rtx_ok (self : Tcb C) now : tcb_ok self -> tcb_ok (restart_rtx self now).
Proof. intros []. by split. Qed.

Lemma start_rtx_ok (self : Tcb C) now :
  tcb_ok self -> tcb_ok (start_rtx self now).
Proof. intros H. unfold start_rtx. case_ifs; [by apply restart_rtx_ok|done]. Qed.

End small_steps.

(** *** Acknowledgements *)

(** What an acceptable cumulative ACK does to the send space. *)
Lemma ack_offset una nxt a :
  seq_ok una -> in_half una nxt -> seq_ok a ->
  seq_gt a nxt = false -> seq_gt a una = true ->
  in_half una a /\ 0 < off una a <= off una nxt.
Proof.
  intros Hu Hn Ha Hgt Hlt. destruct (seq_gt_in_half una a Ha Hlt) as [Hh Hp].
  split; [done|]. rewrite (gt_off una) in Hgt by done. lia.
Qed.

Lemma bytes_ok_zdrop n l : bytes_ok l -> bytes_ok (zdrop n l).
Proof. apply Forall_drop. Qed.

Lemma consume_empty r n : buf r = [] -> fst (RingBuffer.consume r n) = r.
Proof.
  destruct r as [b c]. cbn. intros ->. unfold RingBuffer.consume, zdrop. cbn. by rewrite drop_nil.
Qed.

Lemma snd_inv_ack st iss una nxt tx fs fa sack sb a sb' :
  snd_inv st iss una nxt tx fs fa sack sb -> st <> SynSent -> st <> SynReceived ->
  seq_ok a -> 0 < off una a <= off una nxt ->
  sb_wf a nxt sb' -> (sack = false -> sb_empty sb') ->
  snd_inv st iss a nxt (fst (RingBuffer.consume tx (Z.min (off una a) (RingBuffer.len tx)))) fs
    (match fs with Some f => if seq_gt a f then true else fa | None => fa end) sack sb'.
Proof.
  intros [Hi Hu Hn Hc Hl Hb Hop Hfl Hfin Hsd Hfa Hsb Hns] Hs1 Hs2 Ha Hk Hsb' Hns'.
  pose proof (off_range una nxt) as Hr. pose proof (zlen_nonneg (buf tx) : 0 <= RingBuffer.len tx) as Hz.
  assert (Hh : in_half una a) by (destruct Hn; split; [done|lia]).
  assert (Hoff : off a nxt = off una nxt - off una a) by (apply off_rebase; [done|lia]).
  set (tx' := fst _).
  assert (Hlen' : RingBuffer.len tx' = Z.max 0 (RingBuffer.len tx - off una a)).
  { unfold tx', RingBuffer.consume, RingBuffer.len. cbn. rewrite zlen_zdrop. lia. }
  split; try done.
  - split; [by destruct Hn|]. destruct Hn. lia.
  - rewrite Hlen'. lia.
  - unfold tx'. cbn. by apply bytes_ok_zdrop.
  - tauto.
  - intros ->. destruct (Hfl eq_refl) as [-> [Hle|(Hle & Ht & _)]]; (split; [done|]).
    + left. lia.
    + left. assert (RingBuffer.len tx = 0) by (unfold RingBuffer.len; by rewrite Ht). lia.
  - intros f ->. destruct (Hfin f eq_refl) as [Hf Hcase]. split; [done|].
    destruct fa.
    { destruct Hcase as [-> _]. rewrite off_self in Hk. lia. }
    destruct Hcase as [Ef En]. assert (Hfh : in_half una f) by (destruct Hn; split; [done|lia]).
    rewrite (gt_off una) by done. destruct (off una f <? off una a) eqn:Hlt.
    + assert (a = nxt) as -> by (apply (off_inj una); [done|by destruct Hn|lia]).
      split; [done|]. apply zlen_0_nil. fold (RingBuffer.len tx'). lia.
    + rewrite Hlen', (off_rebase una a f) by (done || lia). lia.
  - intros [->| ->].
    + destruct fs as [f|]; [|by apply Hfa; left]. rewrite Hfa by (by left). by case_ifs.
    + destruct fs as [f|]; [|by apply Hfa; right]. rewrite Hfa by (by right). by case_ifs.
Qed.

(** [pipe] from a point inside the window: the code asks for it after moving
    [SND.UNA] and before trimming the scoreboard. *)
Lemma pipe_from una nxt b s smss :
  sb_wf una nxt b -> in_half una s -> off una s <= off una nxt ->
  exists p, pipe b s nxt smss = Some p /\ 0 <= p <= off una nxt - off una s.
Proof.
  intros Hb Hs Hle. pose proof (off_range una nxt). pose proof (off_range una s).
  unfold pipe. rewrite (pipe_loop_spec una nxt b Hb); try done; try lia.
  - eexists. split; [done|].
    pose proof (count_from_bound (octet_in_pipe una b smss) (Z.to_nat (off una nxt - off una s)) (off una s)).
    lia.
  - unfold enough. pose proof (walk_fuel_enough una b s). case_ifs; lia.
Qed.

Section ack.
Context {C : Type} `{CC : CongestionControl C} {CL : CongestionLaws C}.

Lemma pipe_estimate_ok (self : Tcb C) :
  snd_inv (state self) (iss self) (snd_una self) (snd_nxt self) (tx self) (fin_seq self)
    (fin_acked self) (sack_enabled self) (scoreboard self) ->
  exists p, pipe_estimate self = Some p /\ 0 <= p <= off (snd_una self) (snd_nxt self).
Proof.
  intros []. unfold pipe_estimate. pose proof (off_range (snd_una self) (snd_nxt self)).
  case_ifs.
  - destruct (pipe_from (snd_una self) (snd_nxt self) (scoreboard self) (snd_una self) (snd_mss self))
      as (p & Hp & ?); [done|by apply in_half_self|rewrite off_self; lia|].
    rewrite off_self in *. exists p. split; [done|lia].
  - eexists. split; [done|]. unfold off in *. lia.
Qed.

(** The RTT sample changes only the estimator and the pending sample. *)
Lemma sample_rtt_ok (self : Tcb C) a te now : Rtt.wf (rtt self) ->
  exists r x, sample_rtt self a te now = Some (self <| rtt := r |> <| rtt_sample := x |>) /\ Rtt.wf r.
Proof.
  intros Hr.
  assert (Hsame : exists r x, Some self = Some (self <| rtt := r |> <| rtt_sample := x |>) /\ Rtt.wf r).
  { exists (rtt self), (rtt_sample self). split; [by destruct self|done]. }
  assert (Hon : forall m, 0 <= m -> exists r, Rtt.on_sample (rtt self) m = Some r /\ Rtt.wf r).
  { intros m Hm. destruct (Rtt.on_sample_spec (rtt self) m Hr Hm) as (r & ? & ? & _). by exists r. }
  unfold sample_rtt. destruct (ts_enabled self).
  - destruct te as [e|]; [|done]. cbv zeta. destruct (_ <=? _); [|done].
    destruct (Hon (Z.max (wrap32 (wrap32 (micros now) - e)) 1)) as (r & -> & ?); [lia|].
    exists r, (rtt_sample self). split; [by destruct self|done].
  - destruct (negb _); [|done]. destruct (rtt_sample self) as [[at_ se]|]; [|done].
    destruct (seq_ge _ _); [|done]. cbv zeta.
    destruct (Hon (Z.max (Z.min (saturating_micros_since now at_) U32_MAX) 1)) as (r & -> & ?); [lia|].
    exists r, None. by split.
Qed.

Lemma account_ecn_ok (self : Tcb C) ace n rec_ now m : cc_ok m (cc self) -> is_u32 n -> 0 <= snd_mss self ->
  exists c x, account_ecn self ace n rec_ now = Some (self <| accecn_ace_seen := x |> <| cc := c |>)
    /\ cc_ok m c.
Proof.
  intros Hc Hn Hm. unfold account_ecn. destruct (ecn_enabled self).
  - destruct rec_; cbn.
    + eexists (cc self), _. split; [reflexivity|done].
    + cbv zeta. set (d := Z.land _ 7).
      assert (Hd : 0 <= d) by (apply Z.land_nonneg; right; lia).
      match goal with |- context [cc_on_ecn _ _ _ ?k] =>
        destruct (cc_on_ecn_ok m (cc self) now n k) as (c & Ec & ?); [done|done| |] end.
      { unfold is_u32, sat_mul32 in *. cbn. nia. }
      cbn. cbn in Ec. rewrite Ec. eexists c, _. by split.
  - exists (cc self), (accecn_ace_seen self). split; [by destruct self|done].
Qed.

Lemma advance_scoreboard_ok (self : Tcb C) now m una :
  cc_ok m (cc self) -> sb_wf una (snd_nxt self) (scoreboard self) -> seq_ok (snd_una self) ->
  off una (snd_una self) <= off una (snd_nxt self) ->
  (sack_enabled self = false -> sb_empty (scoreboard self)) ->
  exists c b x, advance_scoreboard self now
      = Some (self <| scoreboard := b |> <| cc := c |> <| retransmitted := x |>) /\
    cc_ok m c /\ sb_wf (snd_una self) (snd_nxt self) b /\ (sack_enabled self = false -> sb_empty b).
Proof.
  intros Hc Hb Hu Hle He. unfold advance_scoreboard. destruct (sack_enabled self) eqn:Hs.
  - destruct (sb_trim_core una (snd_nxt self) (snd_una self) (scoreboard self)) as (Ht & _); [done..|].
    cbn. destruct (recovery_reached _ _).
    + destruct (cc_on_ack_ok m (cc self) now 0) as (c & -> & ?); [done|unfold is_u32; lia|].
      eexists c, (exit_recovery (trim (scoreboard self) (snd_una self))), false.
      split; [done|]. split; [done|]. split; [|done]. exact (sb_wf_clear _ _ _ None false Ht).
    + eexists (cc self), _, (retransmitted self). split; [reflexivity|by split_and!].
  - specialize (He eq_refl). destruct He as [E1 E2].
    exists (cc self), (scoreboard self), (retransmitted self). split; [by destruct self|].
    split; [done|]. split; [|done].
    destruct (sb_trim_core una (snd_nxt self) (snd_una self) (scoreboard self)) as (Ht & _); [done..|].
    destruct (scoreboard self) as [sk rx_ rp rd]. cbn in E1, E2. subst sk rx_. done.
Qed.

(** What an acknowledgement leaves alone. *)
Definition ack_kept (self : Tcb C) :=
  (rcv_view self, conn_view self, state self, snd_nxt self, fin_seq self, pending_reset self,
   reset self, fin_queued self, ts_recent self).

Lemma advance_una_ok (self : Tcb C) a te ace now :
  tcb_ok self -> state self <> SynSent -> state self <> SynReceived ->
  seq_ok a -> 0 < off (snd_una self) a <= off (snd_una self) (snd_nxt self) ->
  exists self', advance_una self a te ace now = Some self' /\ tcb_ok self' /\
    ack_kept self' = ack_kept self /\ snd_una self' = a /\
    tx self' = fst (RingBuffer.consume (tx self) (Z.min (off (snd_una self) a) (RingBuffer.len (tx self)))) /\
    needs_ack self' = needs_ack self /\ snd_wnd self' = snd_wnd self.
Proof.
  intros [Hrcv Hsnd Henv Htmr Hgap Hfresh] Hs1 Hs2 Ha Hk. pose proof (ei_cc _ _ _ _ _ _ _ _ _ _ _ _ Henv) as Hc.
  pose proof (si_una _ _ _ _ _ _ _ _ _ Hsnd) as Hu. pose proof (si_nxt _ _ _ _ _ _ _ _ _ Hsnd) as Hn.
  assert (Hah : in_half (snd_una self) a) by (destruct Hn; split; [done|lia]).
  unfold advance_una. cbv zeta.
  set (n := Z.min (offset_from a (snd_una self)) (RingBuffer.len (tx self))).
  set (tx' := fst (RingBuffer.consume (tx self) n)).
  set (rec_ := sack_enabled self && in_recovery (scoreboard self)).
  (* the controller's ACK *)
  assert (H1 : exists c1,
    (if negb rec_
     then let? c := cc_on_ack (cc (self <| tx := tx' |>)) now (wrap32 n) in
          Some (self <| tx := tx' |> <| cc := c |>)
     else Some (self <| tx := tx' |>)) = Some (self <| tx := tx' |> <| cc := c1 |>) /\
    cc_ok (snd_mss self) c1).
  { destruct (negb rec_).
    - destruct (cc_on_ack_ok (snd_mss self) (cc self) now (wrap32 n)) as (c & E & ?);
        [done|apply wrap32_range|]. exists c. cbn. rewrite E. by split.
    - exists (cc self). split; [reflexivity|done]. }
  destruct H1 as (c1 & E1 & Hc1).
  match goal with |- context [if negb ?r then _ else Some ?s] =>
    change r with rec_; change s with (self <| tx := tx' |>) end.
  rewrite E1. clear E1.
  set (fa' := match fin_seq self with Some f => if seq_gt a f then true else fin_acked self
              | None => fin_acked self end).
  set (self2 := self <| tx := tx' |> <| cc := c1 |> <| fin_acked := fa' |> <| snd_una := a |>).
  match goal with |- context [set snd_una (fun _ => a) ?m] =>
    replace (set snd_una (fun _ => a) m) with self2 end.
  2:{ unfold self2, fa'. cbn. destruct (fin_seq self) as [f|]; [|reflexivity].
      by destruct (seq_gt a f). }
  (* the pipe estimate, over the untrimmed scoreboard *)
  assert (Hpipe : exists p, pipe_estimate self2 = Some p).
  { unfold pipe_estimate. change (sack_enabled self2) with (sack_enabled self).
    destruct (sack_enabled self); [|by eexists].
    destruct (pipe_from (snd_una self) (snd_nxt self) (scoreboard self) a (snd_mss self)) as (p & Hp & _);
      [apply Hsnd|done|lia|]. by exists p. }
  destruct Hpipe as (p & ->).
  destruct (cc_on_ack_sample_ok (snd_mss self) (cc self2) now (snd_una self2)
    (offset_from (snd_nxt self2) (snd_una self2)) (wrap32 n) p rec_ Hc1) as (c2 & -> & Hc2).
  set (self3 := self2 <| cc := c2 |>).
  destruct (account_ecn_ok self3 ace (wrap32 n) rec_ now (snd_mss self) Hc2)
    as (c3 & x3 & -> & Hc3); [apply wrap32_range|pose proof (ei_mss _ _ _ _ _ _ _ _ _ _ _ _ Henv); change (0 <= snd_mss self); lia|].
  set (self4 := self3 <| accecn_ace_seen := x3 |> <| cc := c3 |>).
  destruct (advance_scoreboard_ok self4 now (snd_mss self) (snd_una self))
    as (c5 & b5 & x5 & -> & Hc5 & Hb5 & He5); [done|apply Hsnd|done|cbn; lia|apply Hsnd|].
  set (self5 := self4 <| scoreboard := b5 |> <| cc := c5 |> <| retransmitted := x5 |>).
  assert (H6 : exists y z, match gbn_recover self5 with
    | Some high =>
        if seq_lt (snd_una self5) high && negb (snd_una self5 =? snd_nxt self5)
        then self5 <| retransmit := true |> else self5 <| gbn_recover := None |>
    | None => self5
    end = self5 <| retransmit := y |> <| gbn_recover := z |>).
  { destruct (gbn_recover self5) as [h|] eqn:E.
    - case_ifs.
      + exists true, (gbn_recover self5). reflexivity.
      + exists (retransmit self5), None. reflexivity.
    - exists (retransmit self5), (gbn_recover self5). reflexivity. }
  destruct H6 as (y & z & ->). set (self6 := self5 <| retransmit := y |> <| gbn_recover := z |>).
  destruct (sample_rtt_ok self6 a te now) as (r & w & -> & Hr); [apply Henv|].
  set (self7 := self6 <| rtt := r |> <| rtt_sample := w |>).
  set (self8 := self7 <| rtt := Rtt.on_clean_ack (rtt self7) |>).
  assert (H9 : exists c9, match srtt_micros (rtt self8) with
    | Some s => let? c := cc_on_rtt_sample (cc self8) s in Some (self8 <| cc := c |>)
    | None => Some self8 end = Some (self8 <| cc := c9 |>) /\ cc_ok (snd_mss self) c9).
  { destruct (srtt_micros _) as [s|].
    - destruct (cc_on_rtt_sample_ok (snd_mss self) (cc self8) s) as (c & -> & ?); [done|].
      exists c. by split.
    - exists (cc self8). split; [reflexivity|done]. }
  destruct H9 as (c9 & -> & Hc9). cbv iota beta.
  set (self9 := self8 <| cc := c9 |>).
  assert (Hok : snd_inv (state self) (iss self) a (snd_nxt self) tx' (fin_seq self) fa'
    (sack_enabled self) b5) by (by eapply snd_inv_ack).
  assert (Henv9 : env_inv (local self9) (remote self9) (mss_advertise self9) (snd_mss self9) (cc self9)
    (rtt self9) (snd_wscale self9) (rcv_wscale self9) (ts_recent self9) (cur_tsval self9)
    (accecn_cep self9) (pending_reset self9)).
  { destruct Henv. split; try assumption. by apply Rtt.on_clean_ack_wf. }
  eexists. split; [done|]. change (snd_una self9 =? snd_nxt self9) with (a =? snd_nxt self).
  destruct (a =? snd_nxt self) eqn:E.
  - split; [|split_and!; reflexivity]. split; try assumption.
    unfold tmr_inv. cbn. intros _ Hne. lia.
  - split; [|split_and!; reflexivity]. split; try assumption. by unfold tmr_inv.
Qed.

Lemma process_ack_ok (self : Tcb C) s a w te ace now :
  tcb_ok self -> state self <> SynSent -> state self <> SynReceived -> seq_ok a ->
  exists self' ok, process_ack self s a w te ace now = Some (self', ok) /\ tcb_ok self' /\
    ack_kept self' = ack_kept self /\
    ok = negb (seq_gt a (snd_nxt self)) /\
    (if ok && seq_gt a (snd_una self) then
       0 < off (snd_una self) a <= off (snd_una self) (snd_nxt self) /\ snd_una self' = a /\
       tx self' = fst (RingBuffer.consume (tx self)
         (Z.min (off (snd_una self) a) (RingBuffer.len (tx self))))
     else snd_una self' = snd_una self /\ tx self' = tx self).
Proof.
  intros Hok Hs1 Hs2 Ha. pose proof (ok_snd _ Hok) as Hsnd. unfold process_ack.
  destruct (seq_gt a (snd_nxt self)) eqn:Hgt; cbn [negb andb].
  { eexists _, _. split; [done|]. split; [tcb_frame Hok|done]. }
  destruct (seq_gt a (snd_una self)) eqn:Hlt.
  - destruct (ack_offset (snd_una self) (snd_nxt self) a) as [Hah Hk]; try done; try apply Hsnd.
    destruct (advance_una_ok self a te ace now) as (self' & -> & Hok' & Hkept & Hu & Htx & _); try done.
    eexists _, _. split; [done|]. split; [by apply update_window_ok|].
    cbn [andb]. unfold update_window. case_ifs; split_and!; first [done|lia].
  - eexists _, _. split; [done|]. split; [by apply update_window_ok|].
    cbn [andb]. unfold update_window. case_ifs; split_and!; first [done|lia].
Qed.

(** *** The handshake's last ACK, and loss recovery *)

Lemma sb_empty_wf una nxt b : seq_ok una -> in_half una nxt -> sb_empty b -> sb_wf una nxt b.
Proof.
  intros Hu Hn [E1 E2]. destruct b as [sk rx_ rp rd]; cbn in *; subst.
  split; try done; constructor.
Qed.

Lemma snd_inv_closed st iss una nxt tx fs fa sack sb :
  snd_inv st iss una nxt tx fs fa sack sb -> snd_inv Closed iss una nxt tx fs fa sack sb.
Proof.
  intros []. split; try done; try (by intros [|]).
  intros Hfs. destruct (si_flight0 Hfs) as [-> [|(? & ? & _)]]; tauto.
Qed.

Lemma tcb_ok_closed (self : Tcb C) : tcb_ok self -> tcb_ok (self <| state := Closed |>).
Proof. intros []. split; try assumption; [by eapply snd_inv_closed|by intros ?|done]. Qed.

(** The SYN acknowledged: nothing is outstanding.  The handshake may also have
    settled whether SACK is used. *)
Lemma snd_inv_established st iss una nxt tx fs fa sack sack' sb :
  snd_inv st iss una nxt tx fs fa sack sb -> st = SynSent \/ st = SynReceived ->
  snd_inv Established iss nxt nxt tx fs fa sack' sb.
Proof.
  intros [Hi Hu Hn Hc Hl Hb Hop Hfl _ _ _ _ _] Hst.
  destruct (Hop Hst) as (_ & _ & _ & -> & Hsb). destruct (Hfl eq_refl) as [-> _]. destruct Hn as [Hnok _].
  split; try done; try (by intros [|]).
  - by apply in_half_self.
  - intros _. split; [done|]. left. rewrite off_self. apply zlen_nonneg.
  - by apply sb_empty_wf; [|apply in_half_self|].
Qed.

Lemma snd_inv_simultaneous st iss una nxt tx fs fa sack sack' sb :
  snd_inv st iss una nxt tx fs fa sack sb -> st = SynSent \/ st = SynReceived ->
  snd_inv SynReceived iss una nxt tx fs fa sack' sb.
Proof.
  intros [Hi Hu Hn Hc Hl Hb Hop Hfl Hfin Hsd Hfa Hsb Hns] Hst.
  destruct (Hop Hst) as (? & ? & ? & -> & ?). split; try done.
  - intros _. destruct (Hfl eq_refl) as [-> [?|(? & ? & _)]]; tauto.
  - by intros [|].
Qed.

Lemma ack_syn_received_ok (self : Tcb C) s a w :
  tcb_ok self -> state self = SynReceived -> seq_ok a ->
  let (self', ok) := ack_syn_received self s a w in
  tcb_ok self' /\ rcv_view self' = rcv_view self /\ conn_view self' = conn_view self /\
  ts_recent self' = ts_recent self /\ tx self' = tx self /\ snd_nxt self' = snd_nxt self /\
  reset self' = reset self /\ fin_seq self' = fin_seq self /\
  ok = seq_gt a (snd_una self) && seq_le a (snd_nxt self) /\
  if ok then state self' = Established /\ snd_una self' = snd_nxt self
  else state self' = Closed /\ pending_reset self' = Some a /\ snd_una self' = snd_una self.
Proof.
  intros Hok Hst Ha. pose proof (ok_snd _ Hok) as Hsnd. unfold ack_syn_received.
  destruct (si_opening _ _ _ _ _ _ _ _ _ Hsnd) as (Hu & H1 & Htx & Hfs & Hsb); [by right|].
  pose proof (si_una _ _ _ _ _ _ _ _ _ Hsnd) as Huok. pose proof (si_nxt _ _ _ _ _ _ _ _ _ Hsnd) as Hn.
  destruct (_ && _) eqn:E.
  - apply andb_true_iff in E as [E1 E2].
    destruct (ack_offset (snd_una self) (snd_nxt self) a) as [Hah Hk]; try done.
    { rewrite seq_gt_lt, E2. done. }
    assert (a = snd_nxt self) as ->.
    { apply (off_inj (snd_una self)); [done|by destruct Hn|lia]. }
    set (self1 := self <| snd_una := snd_nxt self |>).
    pose proof (snd_inv_established _ _ _ _ _ _ _ _ (sack_enabled self) _ Hsnd (or_intror Hst)) as Hsnd1.
    destruct Hok as [Hr _ He _ ? ?].
    unfold update_window; case_ifs; (split; [split; try assumption; unfold tmr_inv; done|]);
      split_and!; reflexivity.
  - split; [|by split_and!]. destruct Hok as [Hr Hs [] Ht ? ?].
    split; try assumption; [by eapply snd_inv_closed| |by intros ?|done].
    split; try assumption. by intros ? [= <-].
Qed.

(** Loss recovery touches the controller, the scoreboard and the timer. *)
Definition recovery_kept (self : Tcb C) :=
  (ack_kept self, snd_una self, tx self).

Lemma flight_u32 (self : Tcb C) : is_u32 (offset_from (snd_nxt self) (snd_una self)).
Proof. apply wrap32_range. Qed.

Lemma snd_inv_sb st iss una nxt tx fs fa sb sb' :
  snd_inv st iss una nxt tx fs fa true sb -> st <> SynSent -> st <> SynReceived ->
  sb_wf una nxt sb' -> snd_inv st iss una nxt tx fs fa true sb'.
Proof. intros [] ???. split; try done. intros [|]; done. Qed.

Lemma sack_recovery_ok (self : Tcb C) tcp x is_dup now :
  tcb_ok self -> reads tcp x -> sack_enabled self = true ->
  state self <> SynSent -> state self <> SynReceived ->
  exists self', sack_recovery self tcp is_dup now = Some self' /\ tcb_ok self' /\
    recovery_kept self' = recovery_kept self.
Proof.
  intros Hok Hx Hse Hs1 Hs2. destruct (rd_sack _ _ Hx) as (bs & n & Ebs & Esl & Hbl).
  unfold sack_recovery. rewrite Ebs, Esl.
  destruct Hok as [Hrcv Hsnd Henv Htmr Hgap Hfresh]. pose proof (ei_cc _ _ _ _ _ _ _ _ _ _ _ _ Henv) as Hc.
  destruct (sb_update_core (snd_una self) (snd_nxt self) (scoreboard self) (a_sack x))
    as (sb & _ & -> & Hsb & _); [apply Hsnd|done|].
  assert (Hs : forall b, sb_wf (snd_una self) (snd_nxt self) b ->
    snd_inv (state self) (iss self) (snd_una self) (snd_nxt self) (tx self) (fin_seq self)
      (fin_acked self) (sack_enabled self) b).
  { intros b Hb. rewrite Hse in *. by eapply snd_inv_sb. }
  assert (He : forall c, cc_ok (snd_mss self) c -> env_inv (local self) (remote self)
    (mss_advertise self) (snd_mss self) c (rtt self) (snd_wscale self) (rcv_wscale self)
    (ts_recent self) (cur_tsval self) (accecn_cep self) (pending_reset self)).
  { intros c Hc'. destruct Henv. split; assumption. }
  cbv zeta. set (self1 := self <| scoreboard := sb |>).
  destruct (negb _ && _) eqn:Hgate.
  2:{ eexists. split; [done|]. split; [|done]. split; try assumption. by apply Hs. }
  (* the duplicate ACK *)
  assert (H1 : exists c b, (if is_dup
      then let? (c, b) := cc_on_dup_ack (cc self1) now (offset_from (snd_nxt self1) (snd_una self1)) in
           Some (self1 <| cc := c |>, b)
      else Some (self1, false)) = Some (self1 <| cc := c |>, b) /\ cc_ok (snd_mss self) c).
  { destruct is_dup.
    - destruct (cc_on_dup_ack_ok (snd_mss self) (cc self1) now
        (offset_from (snd_nxt self1) (snd_una self1))) as (c & b & -> & ?); [done|apply flight_u32|].
      by exists c, b.
    - exists (cc self1), false. by split. }
  destruct H1 as (c1 & dups & -> & Hc1). set (self2 := self1 <| cc := c1 |>).
  destruct (dups || _) eqn:Hlost.
  2:{ eexists. split; [done|]. split; [|done]. split; try assumption; [by apply Hs|by apply He]. }
  assert (H2 : exists c, (if negb dups
      then let? c := cc_enter_recovery (cc self2) now (offset_from (snd_nxt self1) (snd_una self1)) in
           Some (self2 <| cc := c |>)
      else Some self2) = Some (self2 <| cc := c |>) /\ cc_ok (snd_mss self) c).
  { destruct dups; cbn [negb].
    - exists c1. by split.
    - destruct (cc_enter_recovery_ok (snd_mss self) (cc self2) now
        (offset_from (snd_nxt self1) (snd_una self1))) as (c & -> & ?); [done|apply flight_u32|].
      by exists c. }
  destruct H2 as (c2 & -> & Hc2). eexists. split; [done|]. split; [|done].
  split; try assumption; [|by apply He|by unfold tmr_inv].
  exact (Hs _ (sb_wf_flags _ _ _ (Some (snd_nxt self)) false Hsb)).
Qed.

Lemma dup_ack_recovery_ok (self : Tcb C) is_dup now :
  tcb_ok self ->
  exists self', dup_ack_recovery self is_dup now = Some self' /\ tcb_ok self' /\
    recovery_kept self' = recovery_kept self.
Proof.
  intros Hok. unfold dup_ack_recovery. destruct is_dup; [|by exists self].
  destruct Hok as [Hrcv Hsnd Henv Htmr Hgap Hfresh]. pose proof (ei_cc _ _ _ _ _ _ _ _ _ _ _ _ Henv) as Hc.
  destruct (cc_on_dup_ack_ok (snd_mss self) (cc self) now (offset_from (snd_nxt self) (snd_una self)))
    as (c & b & -> & Hc'); [done|apply flight_u32|].
  assert (He : env_inv (local self) (remote self)
    (mss_advertise self) (snd_mss self) c (rtt self) (snd_wscale self) (rcv_wscale self)
    (ts_recent self) (cur_tsval self) (accecn_cep self) (pending_reset self)).
  { destruct Henv. split; assumption. }
  eexists. split; [done|]. destruct b; (split; [|done]); split; try assumption. by unfold tmr_inv.
Qed.

(** Section (5): whichever way it goes, the send space stays consistent, and
    the segment goes on to the data section exactly when its ACK is for
    something sent. *)
Lemma ack_segment_ok (self : Tcb C) now tcp x seg_ts :
  tcb_ok self -> reads tcp x -> state self <> SynSent ->
  exists self' ok,
    ack_segment self now tcp (a_seq x) (a_ack x) (a_flags x) (a_body x) seg_ts = Some (self', ok) /\
    tcb_ok self' /\ rcv_view self' = rcv_view self /\ conn_view self' = conn_view self /\
    ts_recent self' = ts_recent self /\ snd_nxt self' = snd_nxt self /\ reset self' = reset self /\
    fin_seq self' = fin_seq self /\
    ok = negb (seq_gt (a_ack x) (snd_nxt self)) &&
         (negb (state_eqb (state self) SynReceived) || seq_gt (a_ack x) (snd_una self)) /\
    state self' = (if state_eqb (state self) SynReceived then if ok then Established else Closed
                   else state self) /\
    (if ok && seq_gt (a_ack x) (snd_una self) then
       0 < off (snd_una self) (a_ack x) <= off (snd_una self) (snd_nxt self) /\
       snd_una self' = a_ack x /\
       tx self' = fst (RingBuffer.consume (tx self)
         (Z.min (off (snd_una self) (a_ack x)) (RingBuffer.len (tx self))))
     else snd_una self' = snd_una self /\ tx self' = tx self).
Proof.
  intros Hok Hx Hs1. destruct (rd_window _ _ Hx) as [Ew _]. destruct (rd_ack _ _ Hx) as [_ Ha].
  unfold ack_segment. rewrite Ew. unfold state_eqb.
  case_bool_decide as Hst; cbn [negb orb].
  - pose proof (ack_syn_received_ok self (a_seq x) (a_ack x) (a_window x) Hok Hst Ha) as H.
    destruct (ack_syn_received self (a_seq x) (a_ack x) (a_window x)) as [self' ok].
    destruct H as (Hok' & H1 & H2 & H3 & Htx & H4 & H5 & H5' & Eok & Hres).
    exists self', ok. split; [done|]. split_and!; try done.
    + rewrite Eok, (seq_gt_lt (a_ack x) (snd_nxt self)), negb_involutive. apply andb_comm.
    + by destruct ok, Hres.
    + destruct ok; cbn [andb]; [|by destruct Hres as (_ & _ & ?)]. destruct Hres as [_ Hu].
      symmetry in Eok. apply andb_true_iff in Eok as [Eg El]. rewrite Eg.
      pose proof (ok_snd _ Hok) as Hsnd.
      destruct (ack_offset (snd_una self) (snd_nxt self) (a_ack x)) as [Hah Hk]; try done; try apply Hsnd.
      { by rewrite seq_gt_lt, El. }
      destruct (si_opening _ _ _ _ _ _ _ _ _ Hsnd) as (_ & H1' & Hbuf & _); [by right|].
      split; [done|]. split.
      * rewrite Hu. apply (off_inj (snd_una self)); [apply Hsnd|done|lia].
      * by rewrite Htx, consume_empty.
  - rewrite (rd_ae _ _ Hx). cbv zeta.
    match goal with |- context [process_ack self ?s ?a ?w ?te ?ace ?n] =>
      destruct (process_ack_ok self s a w te ace n Hok Hs1 Hst Ha)
        as (self1 & ok & -> & Hok1 & Hkept & Eok & Hres) end.
    unfold ack_kept in Hkept.
    rewrite andb_true_r. destruct ok; cbn [negb].
    2:{ exists self1, false. split; [done|]. split_and!; try done; congruence. }
    set (is_dup := (_ && _)).
    assert (H2 : exists self2, (if sack_enabled self1 then sack_recovery self1 tcp is_dup now
        else dup_ack_recovery self1 is_dup now) = Some self2 /\ tcb_ok self2 /\
        recovery_kept self2 = recovery_kept self1).
    { assert (state self1 = state self) as Est by congruence.
      destruct (sack_enabled self1) eqn:Hse.
      - apply (sack_recovery_ok self1 tcp x); congruence || done.
      - by apply dup_ack_recovery_ok. }
    destruct H2 as (self2 & -> & Hok2 & Hk2). unfold recovery_kept, ack_kept in Hk2.
    exists self2, true. split; [done|]. cbn [andb] in Hres |- *.
    split_and!; try congruence; try done.
    destruct (seq_gt (a_ack x) (snd_una self)); intuition congruence.
Qed.

End ack.
