(* ===== verification/TcbRecv.v ===== *)
(** The receive path of [Tcb::on_segment]: sections (6), (7) and (7b) of
    [tcp-core/src/tcb.rs] (data, reassembly, the peer's FIN).

    What is delivered is characterised octet by octet: [carried] is the octet a
    segment carries at an offset from [RCV.NXT], [content] the one reassembly
    holds there. *)

From S2P Require Import Prelude Seq Time Buffers Rtt Checksum Ipv4 TcpWire Sack Reasm Congestion Endpoint Tcb TcbInv.
Import RingBuffer (RingBuffer, buf, capacity).

(** The octet of the segment at offset [x] from [nxt] (negative below it). *)
Definition carried (nxt s : SeqNumber) (body : list Z) (x : Z) : option Z :=
  at_ body (x - distance s nxt).

(** The payload starts below the advertised edge, and not long before it: what the
    acceptability test leaves.  It may end beyond the edge. *)
Definition reaches (adv nxt s : SeqNumber) (body : list Z) : Prop :=
  zlen body = 0 \/ 0 < distance adv nxt /\ - 2 ^ 17 <= distance s nxt < distance adv nxt.

Lemma distance_nonneg_off nxt s : seq_ok s -> 0 <= distance s nxt -> in_half nxt s /\ off nxt s = distance s nxt.
Proof.
  unfold distance, in_half, off, offset_from, seq_ok, as_i32. intros ??.
  case_match; split; try split; width.
Qed.

Lemma distance_neg_lt nxt s : seq_lt s nxt = (distance s nxt <? 0).
Proof. done. Qed.

Lemma distance_neg_offset nxt s : distance s nxt < 0 -> offset_from nxt s = - distance s nxt.
Proof. unfold distance, offset_from, as_i32. intros. case_match; width. Qed.

Lemma distance_zero nxt s : seq_ok nxt -> seq_ok s -> distance s nxt = 0 -> s = nxt.
Proof. unfold distance, seq_ok, as_i32. intros. case_match; width. Qed.

Lemma distance_advance adv nxt n :
  seq_ok adv -> 0 <= n < 2 ^ 30 -> - 2 ^ 30 <= distance adv nxt -> distance adv (seq_add nxt n) = distance adv nxt - n.
Proof. unfold distance, seq_add, seq_ok, as_i32. intros. repeat case_match; width. Qed.

(** A ring with room takes everything. *)
Lemma write_all r data :
  RingBuffer.len r + zlen data <= capacity r ->
  RingBuffer.write r data = (RingBuffer.mkRing (buf r ++ data) (capacity r), zlen data).
Proof.
  intros H. unfold RingBuffer.write, RingBuffer.free. rewrite Z.min_l by lia.
  by rewrite ztake_all by lia.
Qed.

Lemma at_nil {A} i : at_ (@nil A) i = None.
Proof. unfold at_. by case_ifs. Qed.

Lemma pop_shrinks r b r' d :
  pop_contiguous r b = Some (r', d) -> d <> [] -> length (runs r) = S (length (runs r')).
Proof.
  unfold pop_contiguous. destruct (runs r) as [|first rest] eqn:E; [by intros [= <- <-]|].
  destruct (_ =? _); [|by intros [= <- <-]].
  destruct (checked_sub _ _); [|done]. by intros [= <- <-].
Qed.

Lemma reasm_wf_rebase base base' lo r :
  reasm_wf base lo r -> seq_ok base' -> off base base' <= lo ->
  reasm_wf base' (lo - off base base') r /\
  (forall x, content base' (runs r) x = content base (runs r) (x + off base base')) /\
  (forall W, Forall (fun run => e_off base run <= W) (runs r) ->
     Forall (fun run => e_off base' run <= W - off base base') (runs r)).
Proof.
  intros [] Hb Hle. split; [|split].
  - split; try done. by apply runs_ok_rebase.
  - intros x. by eapply content_rebase.
  - intros W HW. by eapply bound_rebase.
Qed.

Lemma reasm_wf_weaken base lo lo' r : lo' <= lo -> reasm_wf base lo r -> reasm_wf base lo' r.
Proof. intros Hle []. split; try done. by eapply runs_ok_weaken. Qed.

Section drain.
Context {C : Type} `{CC : CongestionControl C} {CL : CongestionLaws C}.

(** The drain loop: it ends within its fuel, moves the maximal contiguous run
    into the ring and leaves a real gap at [RCV.NXT]. *)
Lemma drain_ok fuel : forall (self : Tcb C) fin sack,
  rcv_inv (rcv_nxt self) (rcv_adv self) (rx self) (reasm self) fin sack ->
  (length (runs (reasm self)) < fuel)%nat ->
  exists new rs', let nxt' := seq_add (rcv_nxt self) (zlen new) in
    let rx' := RingBuffer.mkRing (buf (rx self) ++ new) (capacity (rx self)) in
    drain fuel self = Some (self <| rx := rx' |> <| rcv_nxt := nxt' |> <| reasm := rs' |>) /\
    rcv_inv nxt' (rcv_adv self) rx' rs' fin sack /\
    zlen new <= Z.max 0 (distance (rcv_adv self) (rcv_nxt self)) /\
    (forall i, 0 <= i < zlen new -> at_ new i = content (rcv_nxt self) (runs (reasm self)) i) /\
    (forall x, 0 <= x -> content nxt' (runs rs') x = content (rcv_nxt self) (runs (reasm self)) (x + zlen new)) /\
    content nxt' (runs rs') 0 = None.
Proof.
  induction fuel as [|fuel IH]; intros self fin sack Hinv Hfuel; [lia|].
  pose proof Hinv as [Hn Ha Hcap Hwin Hbud Hwf Hin Hns].
  destruct (pop_core (rcv_nxt self) (reasm self) Hwf)
    as (rs1 & d & Hpop & Hbytes & Hd & Hgap & Hwf1 & Hcont & Hbound).
  cbn [drain]. rewrite Hpop. cbv zeta.
  pose proof (zlen_nonneg d) as Hd0.
  destruct d as [|b0 d0] eqn:Ed.
  - (* a gap: stop *)
    exists [], rs1. cbv zeta. change (@zlen Z []) with 0 in *. rewrite seq_add_0 by done.
    rewrite app_nil_r. split; [destruct self as [] eqn:Es; cbn; by destruct rx|].
    split; [|split; [lia|split; [lia|split]]].
    + split; try done.
      * by eapply reasm_wf_weaken; [|done].
      * by apply Hbound.
      * intros Hs. specialize (Hns Hs). unfold pop_contiguous in Hpop. rewrite Hns in Hpop.
        by injection Hpop as <-.
    + intros x Hx. rewrite Hcont by lia. by rewrite Z.add_0_r.
    + rewrite Hcont by lia. exact Hgap.
  - rewrite <- Ed in *. assert (Hpos : 0 < zlen d) by (rewrite Ed, zlen_cons; pose proof (zlen_nonneg d0); lia).
    assert (Hle : zlen d <= Z.max 0 (distance (rcv_adv self) (rcv_nxt self))).
    { destruct (at_is_Some d (zlen d - 1) ltac:(lia)) as [b Hb]. rewrite Hd in Hb by lia.
      destruct (content_Some_In _ _ _ _ Hb) as (r & Hr & Hx).
      rewrite List.Forall_forall in Hin. specialize (Hin r Hr). cbn in Hin. lia. }
    assert (Hroom : 0 <= distance (rcv_adv self) (rcv_nxt self)) by lia.
    change (RingBuffer.write _ d) with (RingBuffer.write (rx self) d).
    rewrite write_all by lia. cbv iota.
    destruct (zlen d <? zlen d) eqn:?; [lia|].
    rewrite (wrap32_small (zlen d)) by (unfold is_u32, RX_BUFFER in *; unfold RingBuffer.len in *;
      pose proof (zlen_nonneg (buf (rx self))); lia).
    set (nxt1 := seq_add (rcv_nxt self) (zlen d)).
    assert (Hoff : off (rcv_nxt self) nxt1 = zlen d).
    { apply off_add_base. unfold RX_BUFFER, RingBuffer.len in *. pose proof (zlen_nonneg (buf (rx self))). lia. }
    destruct (reasm_wf_rebase (rcv_nxt self) nxt1 (zlen d + 1) rs1 Hwf1) as (Hwf2 & Hc2 & Hb2);
      [apply seq_add_ok|lia|]. rewrite Hoff in *.
    set (rx1 := RingBuffer.mkRing (buf (rx self) ++ d) (capacity (rx self))).
    set (self1 := self <| reasm := rs1 |> <| rx := rx1 |> <| rcv_nxt := nxt1 |>).
    assert (Hd1 : distance (rcv_adv self) nxt1 = distance (rcv_adv self) (rcv_nxt self) - zlen d)
      by (apply distance_advance; [done|unfold RX_BUFFER, RingBuffer.len in *; pose proof (zlen_nonneg (buf (rx self))); lia|lia]).
    assert (Hinv1 : rcv_inv nxt1 (rcv_adv self) rx1 rs1 fin sack).
    { split; try done.
      - apply seq_add_ok.
      - destruct fin; cbn [Z.b2z] in *; lia.
      - rewrite Hd1. unfold RingBuffer.len in *. cbn. rewrite zlen_app. lia.
      - eapply reasm_wf_weaken; [|done]. lia.
      - rewrite Hd1. eapply List.Forall_impl; [|apply (Hb2 _ (Hbound _ Hin))]. cbn. intros r Hr. lia.
      - intros Hs. specialize (Hns Hs). unfold pop_contiguous in Hpop. rewrite Hns in Hpop. congruence. }
    destruct (IH self1 fin sack Hinv1) as (new & rs' & Hdr & Hinv' & Hlen' & Hnew & Hrest & Hg).
    { assert (length (runs (reasm self)) = S (length (runs rs1))) as E.
      { eapply pop_shrinks; [done|]. by rewrite Ed. }
      change (reasm self1) with rs1. lia. }
    cbn [rcv_nxt rcv_adv rx reasm buf capacity] in Hdr, Hinv', Hlen', Hnew, Hrest, Hg.
    exists (d ++ new), rs'. cbv zeta. rewrite zlen_app. pose proof (zlen_nonneg new) as Hn0.
    assert (seq_add nxt1 (zlen new) = seq_add (rcv_nxt self) (zlen d + zlen new)) as Enxt
      by apply seq_add_add.
    change (rcv_nxt self1) with nxt1 in *. change (rcv_adv self1) with (rcv_adv self) in *.
    change (reasm self1) with rs1 in *. change (rx self1) with rx1 in *.
    rewrite Enxt in *. cbn [rx1 buf capacity] in Hdr, Hinv'. rewrite <- app_assoc in Hdr, Hinv'.
    split; [exact Hdr|]. split; [exact Hinv'|]. split; [lia|]. split; [|split; [|done]].
    + intros i Hi. destruct (Z.lt_ge_cases i (zlen d)).
      * rewrite at_app_l by lia. apply Hd. lia.
      * rewrite at_app_r by lia. rewrite Hnew, Hc2 by lia.
        replace (i - zlen d + zlen d) with i by lia. apply Hcont. lia.
    + intros x Hx. rewrite Hrest, Hc2 by lia. rewrite Hcont by lia. f_equal. lia.
Qed.


(** What [accept_data] establishes: the bytes it delivers, [new], are octets the
    segment carries or reassembly held at their place; whatever stays buffered
    was; nothing buffered is lost, nor anything carried in order that [room]
    holds; and after an in-order segment nothing deliverable remains. *)
Record accepted (nxt : SeqNumber) (rs : Reasm) (s : SeqNumber) (body : list Z) (room : Z) (io : bool)
    (new : list Z) (nxt' : SeqNumber) (rs' : Reasm) : Prop := {
  ac_nxt : nxt' = seq_add nxt (zlen new);
  ac_new : forall i b, at_ new i = Some b ->
    carried nxt s body i = Some b \/ content nxt (runs rs) i = Some b;
  ac_kept : forall x b, 0 <= x -> content nxt' (runs rs') x = Some b ->
    carried nxt s body (x + zlen new) = Some b \/ content nxt (runs rs) (x + zlen new) = Some b;
  ac_in_order : io = (distance s nxt <=? 0) && (0 <? distance s nxt + zlen body);
  ac_no_loss : forall x, 0 <= x -> is_Some (content nxt (runs rs) (x + zlen new)) ->
    is_Some (content nxt' (runs rs') x);
  ac_delivered : io = true -> Z.min (distance s nxt + zlen body) room <= zlen new;
  ac_nothing : io = false -> new = [];
  ac_gap : io = true -> content nxt' (runs rs') 0 = None;
}.

(** Nothing to accept: the segment is empty or wholly old. *)
Lemma accept_nothing (self : Tcb C) s body :
  seq_ok (rcv_nxt self) -> zlen body = 0 \/ distance s (rcv_nxt self) + zlen body <= 0 ->
  let nxt' := seq_add (rcv_nxt self) (zlen (@nil Z)) in
  let rx' := RingBuffer.mkRing (buf (rx self) ++ []) (capacity (rx self)) in
  self = self <| rx := rx' |> <| rcv_nxt := nxt' |> <| reasm := reasm self |> /\
  forall room, accepted (rcv_nxt self) (reasm self) s body room false [] nxt' (reasm self).
Proof.
  intros Hn Hold. cbv zeta. change (zlen (@nil Z)) with 0. rewrite seq_add_0 by done.
  rewrite app_nil_r. split; [destruct self as [] eqn:E; cbn; by destruct rx|].
  intros room. pose proof (zlen_nonneg body). split; try done.
  - change (zlen (@nil Z)) with 0. by rewrite seq_add_0.
  - intros i b. by rewrite at_nil.
  - intros x b _. change (zlen (@nil Z)) with 0. rewrite Z.add_0_r. by right.
  - destruct (_ && _) eqn:E; [lia|done].
  - intros x _. change (zlen (@nil Z)) with 0. by rewrite Z.add_0_r.
Qed.

(** In-order data: as much as there is room for, then the runs it made contiguous. *)
Lemma in_order_ok (self : Tcb C) fin d :
  rcv_inv (rcv_nxt self) (rcv_adv self) (rx self) (reasm self) fin (sack_enabled self) ->
  0 < zlen d <= U16_MAX -> 0 < distance (rcv_adv self) (rcv_nxt self) ->
  let n := Z.min (zlen d) (RX_BUFFER - RingBuffer.len (rx self)) in
  exists new rs', let nxt' := seq_add (rcv_nxt self) (zlen new) in
    let rx' := RingBuffer.mkRing (buf (rx self) ++ new) (capacity (rx self)) in
    (let '(rx', n) := RingBuffer.write (rx self) d in
     let self := self <| rx := rx' |> in
     let self := self <| rcv_nxt := seq_add (rcv_nxt self) (wrap32 n) |> in
     let no_room := n <? zlen d in
     let? self :=
       if sack_enabled self then
         let? rs := discard_below (reasm self) (rcv_nxt self) in
         let self := self <| reasm := rs |> in
         drain (S (length (runs (reasm self)))) self
       else Some self in
     Some (self, true, no_room))
      = Some (self <| rx := rx' |> <| rcv_nxt := nxt' |> <| reasm := rs' |>, true, n <? zlen d) /\
    rcv_inv nxt' (rcv_adv self) rx' rs' fin (sack_enabled self) /\
    0 < n <= zlen new /\
    (forall i, 0 <= i < n -> at_ new i = at_ d i) /\
    (forall i, n <= i < zlen new -> at_ new i = content (rcv_nxt self) (runs (reasm self)) i) /\
    (forall x, 0 <= x -> content nxt' (runs rs') x = content (rcv_nxt self) (runs (reasm self)) (x + zlen new)) /\
    content nxt' (runs rs') 0 = None.
Proof.
  intros Hinv Hd HW n. pose proof Hinv as [Hn Ha Hcap Hwin Hbud Hwf Hin Hns].
  pose proof (zlen_nonneg (buf (rx self)) : 0 <= RingBuffer.len _) as Hr0.
  set (W := distance (rcv_adv self) (rcv_nxt self)) in *.
  assert (Hnb : 0 < n <= zlen d /\ n <= RX_BUFFER - RingBuffer.len (rx self)) by (unfold n; lia).
  set (e := ztake n d). assert (He : zlen e = n) by (unfold e; rewrite zlen_ztake; lia).
  assert (Hwr : RingBuffer.write (rx self) d = (RingBuffer.mkRing (buf (rx self) ++ e) (capacity (rx self)), n)).
  { unfold RingBuffer.write, RingBuffer.free. rewrite Hcap. fold n. fold e. rewrite <- Hcap. by destruct (rx self). }
  rewrite Hwr. cbv iota. rewrite (wrap32_small n) by (unfold is_u32; lia).
  set (nxt1 := seq_add (rcv_nxt self) n).
  set (rx1 := RingBuffer.mkRing (buf (rx self) ++ e) (capacity (rx self))).
  assert (Hoff : off (rcv_nxt self) nxt1 = n) by (apply off_add_base; lia).
  assert (Hh : in_half (rcv_nxt self) nxt1) by (split; [apply seq_add_ok|lia]).
  assert (Hd1 : distance (rcv_adv self) nxt1 = W - n) by (apply distance_advance; [done|lia..]).
  destruct (discard_core (rcv_nxt self) 0 (reasm self) nxt1 Hwf) as (rs1 & Hdis & Hwf1 & Hc1 & _ & Hb1);
    [lia|done|]. rewrite Hoff in *.
  assert (Hinv1 : forall rs, reasm_wf nxt1 0 rs ->
    Forall (fun r => e_off nxt1 r <= Z.max 0 W - n) (runs rs) ->
    (sack_enabled self = false -> runs rs = []) ->
    rcv_inv nxt1 (rcv_adv self) rx1 rs fin (sack_enabled self)).
  { intros rs Hwfr Hinr Hnsr. split; try done.
    - apply seq_add_ok.
    - rewrite Hd1. destruct fin; cbn [Z.b2z]; lia.
    - rewrite Hd1. unfold RingBuffer.len in *. cbn. rewrite zlen_app. lia.
    - rewrite Hd1. eapply List.Forall_impl; [|exact Hinr]. cbn. intros r Hr. lia. }
  cbv zeta. match goal with |- context [if sack_enabled ?t then _ else _] =>
    change (sack_enabled t) with (sack_enabled self) end.
  assert (Hat : forall i, 0 <= i < n -> at_ e i = at_ d i) by (intros i Hi; unfold e; rewrite at_ztake by lia; done).
  destruct (sack_enabled self) eqn:Hse.
  - change (discard_below _ _) with (discard_below (reasm self) nxt1). rewrite Hdis.
    set (self1 := self <| rx := rx1 |> <| rcv_nxt := nxt1 |> <| reasm := rs1 |>).
    destruct (drain_ok (S (length (runs rs1))) self1 fin (sack_enabled self))
      as (new & rs' & Hdr & Hinv' & Hl' & Hnew & Hrest & Hg).
    { rewrite Hse. apply Hinv1; [done|by apply Hb1|done]. }
    { change (reasm self1) with rs1. lia. }
    change (rcv_nxt self1) with nxt1 in *. change (rcv_adv self1) with (rcv_adv self) in *.
    change (reasm self1) with rs1 in *. change (rx self1) with rx1 in *.
    exists (e ++ new), rs'. cbv zeta. rewrite zlen_app. pose proof (zlen_nonneg new).
    assert (seq_add nxt1 (zlen new) = seq_add (rcv_nxt self) (zlen e + zlen new)) as Enxt
      by (rewrite He; apply seq_add_add).
    cbv zeta in Hdr, Hinv'. rewrite Enxt in *. cbn [rx1 buf capacity] in Hdr, Hinv'.
    rewrite <- app_assoc in Hdr, Hinv'. match goal with |- context [drain ?f ?t] =>
      change (drain f t) with (drain (S (length (runs rs1))) self1) end.
    rewrite Hdr, <- Hse.
    split; [reflexivity|]. split; [exact Hinv'|]. split; [lia|].
    split; [|split; [|split; [|done]]].
    + intros i Hi. rewrite at_app_l by lia. by apply Hat.
    + intros i Hi. rewrite at_app_r by lia. rewrite Hnew by lia. rewrite Hc1 by lia. f_equal. lia.
    + intros x Hx. rewrite Hrest, Hc1 by lia. f_equal. lia.
  - specialize (Hns eq_refl). exists e, (reasm self). cbv zeta. rewrite Hns, He. cbn [content].
    split; [reflexivity|]. split.
    { apply Hinv1; [|by rewrite Hns|done].
      destruct Hwf as [_ _ Hby _]. split; rewrite ?Hns; try done; [apply seq_add_ok|by rewrite Hby, Hns]. }
    split; [lia|]. split; [exact Hat|]. split; [intros; lia|]. done.
Qed.

(** Out of order: the segment goes to reassembly, clipped at the window. *)
Lemma out_of_order_ok (self : Tcb C) fin s body :
  rcv_inv (rcv_nxt self) (rcv_adv self) (rx self) (reasm self) fin (sack_enabled self) ->
  seq_ok s -> sack_enabled self = true -> 0 < zlen body <= U16_MAX ->
  0 < distance s (rcv_nxt self) < distance (rcv_adv self) (rcv_nxt self) ->
  exists rs', Reasm.insert (reasm self) (rcv_nxt self) (reasm_right_edge self) s body = Some rs' /\
    rcv_inv (rcv_nxt self) (rcv_adv self) (rx self) rs' fin (sack_enabled self) /\
    buffered (reasm self) <= buffered rs' /\
    (forall x, content (rcv_nxt self) (runs rs') x =
      match content (rcv_nxt self) (runs (reasm self)) x with
      | Some b => Some b
      | None => if kept (rcv_nxt self) (reasm_right_edge self) s body x
                then carried (rcv_nxt self) s body x else None
      end).
Proof.
  intros Hinv Hs Hse Hlen Hd. pose proof Hinv as [Hn Ha Hcap Hwin Hbud Hwf Hin Hns].
  pose proof (zlen_nonneg (buf (rx self)) : 0 <= RingBuffer.len _) as Hr0.
  destruct (distance_nonneg_off (rcv_nxt self) s) as [Hsh Hso]; [done|lia|].
  destruct (distance_nonneg_off (rcv_nxt self) (rcv_adv self)) as [Hah Hao]; [done|lia|].
  unfold RX_BUFFER in *.
  set (budget := Z.min (sat_sub 262144 (RingBuffer.len (rx self) + buffered (reasm self))) 0xFFFF).
  assert (Hbe : in_half (rcv_nxt self) (seq_add (rcv_nxt self) budget) /\
    off (rcv_nxt self) (seq_add (rcv_nxt self) budget) = budget).
  { unfold budget, sat_sub. split; [split; [apply seq_add_ok|]|]; rewrite off_add_base; lia. }
  destruct Hbe as [Hbh Hbo].
  assert (Eedge : reasm_right_edge self = seq_min (seq_add (rcv_nxt self) budget) (rcv_adv self)) by done.
  assert (Heh : in_half (rcv_nxt self) (reasm_right_edge self)) by (rewrite Eedge; by apply in_half_min).
  assert (Heo : off (rcv_nxt self) (reasm_right_edge self) = Z.min budget (distance (rcv_adv self) (rcv_nxt self)))
    by (rewrite Eedge, off_min, Hbo, Hao by done; done).
  destruct (insert_core (rcv_nxt self) (reasm_right_edge self) s body Heh Hsh ltac:(lia) 0 (reasm self) Hwf ltac:(lia))
    as (rs' & Hins & Hwf' & Hc & Hby & HW).
  exists rs'. split; [done|]. split; [|split; [apply Hby|]].
  - split; try done.
    + apply HW; [lia|done].
    + by rewrite Hse.
  - intros x. rewrite Hc. unfold carried. by rewrite Hso.
Qed.

Lemma accept_data_ok (self : Tcb C) s body fin :
  rcv_inv (rcv_nxt self) (rcv_adv self) (rx self) (reasm self) fin (sack_enabled self) ->
  seq_ok s -> zlen body <= U16_MAX -> reaches (rcv_adv self) (rcv_nxt self) s body ->
  exists new rs' io no_room, let nxt' := seq_add (rcv_nxt self) (zlen new) in
    let rx' := RingBuffer.mkRing (buf (rx self) ++ new) (capacity (rx self)) in
    accept_data self s body
      = Some (self <| rx := rx' |> <| rcv_nxt := nxt' |> <| reasm := rs' |>, io, no_room) /\
    rcv_inv nxt' (rcv_adv self) rx' rs' fin (sack_enabled self) /\
    accepted (rcv_nxt self) (reasm self) s body (RX_BUFFER - RingBuffer.len (rx self)) io new nxt' rs'.
Proof.
  intros Hinv Hs Hlen Hw. pose proof Hinv as [Hn Ha Hcap Hwin Hbud Hwf Hin Hns].
  pose proof (zlen_nonneg body) as Hb0. pose proof (zlen_nonneg (buf (rx self)) : 0 <= RingBuffer.len _) as Hr0.
  set (d := distance s (rcv_nxt self)).
  destruct (decide (zlen body = 0 \/ d + zlen body <= 0)) as [Hold|Hfresh].
  { (* empty, or wholly old *)
    destruct (accept_nothing self s body Hn Hold) as [Eself Hacc].
    exists [], (reasm self), false, false. cbv zeta. rewrite <- Eself. split; [|split; [|apply Hacc]].
    - unfold accept_data. rewrite distance_neg_lt. fold d. destruct (d <? 0) eqn:Hd.
      + rewrite (distance_neg_offset (rcv_nxt self) s) by (fold d; lia). fold d.
        rewrite slice_Some by lia. rewrite ztake_all by (rewrite zlen_zdrop; lia).
        rewrite zdrop_all by lia. done.
      + assert (zlen body = 0) as -> by lia. done.
    - change (@zlen Z []) with 0. rewrite seq_add_0, app_nil_r by done.
      replace (RingBuffer.mkRing (buf (rx self)) (capacity (rx self))) with (rx self) by (by destruct (rx self)).
      done. }
  assert (Hpos : 0 < zlen body /\ 0 < d + zlen body) by lia. clear Hfresh.
  destruct Hw as [?|[HW Hw]]; [lia|]. fold d in Hw.
  destruct (d <=? 0) eqn:Hd.
  - (* in order, after trimming *)
    set (dat := zdrop (- d) body).
    assert (Hz : zlen dat = d + zlen body) by (unfold dat; rewrite zlen_zdrop; lia).
    destruct (in_order_ok self fin dat Hinv ltac:(lia) HW)
      as (new & rs' & E & Hinv' & Hln & Hn1 & Hn2 & Hrest & Hgap).
    set (n := Z.min (zlen dat) _) in *.
    exists new, rs', true, (n <? zlen dat). cbv zeta in E |- *. split; [|split; [done|]].
    + rewrite <- E. unfold accept_data. rewrite distance_neg_lt. fold d.
      assert (E1 : (if d <? 0 then
          let o := Z.min (offset_from (rcv_nxt self) s) (zlen body) in
          let? d := slice body o (zlen body) in Some (rcv_nxt self, d)
        else Some (s, body)) = Some (rcv_nxt self, dat)).
      { destruct (d <? 0) eqn:Hd0.
        - cbv zeta. rewrite distance_neg_offset by (fold d; lia). fold d. rewrite slice_Some by lia.
          rewrite Z.min_l by lia. rewrite ztake_all by (rewrite zlen_zdrop; lia). done.
        - assert (d = 0) as E0 by lia. rewrite (distance_zero _ _ Hn Hs E0).
          unfold dat. by rewrite zdrop_0 by lia. }
      match goal with |- context [if d <? 0 then ?p else ?q] =>
        replace (if d <? 0 then p else q) with (Some (rcv_nxt self, dat)) by (symmetry; exact E1) end.
      destruct (zlen dat =? 0) eqn:?; [lia|]. rewrite Z.eqb_refl. done.
    + split; fold d; try done; try lia.
      * intros i b Hi. pose proof (at_range _ _ _ Hi) as Hir.
        destruct (Z.lt_ge_cases i n).
        -- left. rewrite Hn1 in Hi by lia. unfold carried, dat in *. fold d.
           rewrite at_zdrop in Hi by lia. rewrite <- Hi. f_equal. lia.
        -- right. by rewrite <- Hn2 by lia.
      * intros x b Hx Hc. right. by rewrite <- Hrest.
      * intros x Hx Hc. by rewrite Hrest.
  - (* a gap below the segment *)
    assert (Hacc0 : accept_data self s body = if sack_enabled self then
        let edge := reasm_right_edge self in
        let? rs := Reasm.insert (reasm self) (rcv_nxt self) edge s body in
        Some (self <| reasm := rs |>, false, false)
      else Some (self, false, false)).
    { unfold accept_data. rewrite distance_neg_lt. fold d. destruct (d <? 0) eqn:?; [lia|].
      destruct (zlen body =? 0) eqn:?; [lia|].
      destruct (s =? rcv_nxt self) eqn:E; [|done].
      apply Z.eqb_eq in E. subst s. unfold d, distance in Hd. by rewrite Z.sub_diag in Hd. }
    rewrite Hacc0. clear Hacc0. cbv zeta.
    assert (Eid : forall rs, self <| reasm := rs |>
      = self <| rx := RingBuffer.mkRing (buf (rx self) ++ []) (capacity (rx self)) |>
             <| rcv_nxt := seq_add (rcv_nxt self) (zlen (@nil Z)) |> <| reasm := rs |>).
    { intros rs. change (zlen (@nil Z)) with 0. rewrite seq_add_0, app_nil_r by done.
      destruct self as [] eqn:E. cbn. by destruct rx. }
    assert (Erx : RingBuffer.mkRing (buf (rx self) ++ []) (capacity (rx self)) = rx self)
      by (rewrite app_nil_r; by destruct (rx self)).
    assert (Enx : seq_add (rcv_nxt self) (zlen (@nil Z)) = rcv_nxt self) by (by apply seq_add_0).
    destruct (sack_enabled self) eqn:Hse.
    + rewrite <- Hse in Hinv.
      destruct (out_of_order_ok self fin s body Hinv Hs Hse ltac:(lia) ltac:(fold d; lia))
        as (rs' & -> & Hinv' & _ & Hc).
      exists [], rs', false, false. cbv zeta. rewrite <- Eid. split; [done|]. rewrite Erx, Enx.
      split; [by rewrite <- Hse|].
      split; change (zlen (@nil Z)) with 0; fold d; try done.
      * intros i b. by rewrite at_nil.
      * intros x b _. rewrite Hc, Z.add_0_r. destruct (content _ _ x) as [b'|]; [by right|].
        case_ifs; [|done]. by left.
      * rewrite Hd. done.
      * intros x _. rewrite Hc, Z.add_0_r. intros [b ->]. by eexists.
    + exists [], (reasm self), false, false. cbv zeta. rewrite <- Eid. split; [by destruct self|].
      rewrite Erx, Enx. split; [done|].
      split; change (zlen (@nil Z)) with 0; fold d; try done.
      * intros i b. by rewrite at_nil.
      * intros x b _. rewrite Z.add_0_r. by right.
      * rewrite Hd. done.
      * intros x _. by rewrite Z.add_0_r.
Qed.

End drain.

(** The gap at [RCV.NXT] survives accepting a segment. *)
Lemma accepted_gap nxt rs s body room io new nxt' rs' :
  accepted nxt rs s body room io new nxt' rs' -> seq_ok nxt ->
  content nxt (runs rs) 0 = None -> content nxt' (runs rs') 0 = None.
Proof.
  intros [-> Hn Hk Hio _ _ Hno Hg] Hok H0. destruct io; [by apply Hg|].
  destruct (content _ _ 0) as [b|] eqn:E; [|done]. exfalso. specialize (Hno eq_refl). subst new.
  destruct (Hk 0 b (Z.le_refl 0) E) as [Hc|Hc]; change (zlen (@nil Z)) with 0 in Hc; rewrite Z.add_0_r in Hc.
  - unfold carried in Hc. apply at_range in Hc. symmetry in Hio. apply andb_false_iff in Hio. lia.
  - congruence.
Qed.

(** With a gap at its base a buffer starts above it. *)
Lemma reasm_wf_gap base r :
  reasm_wf base 0 r -> content base (runs r) 0 = None -> reasm_wf base 1 r.
Proof.
  intros [Hn Hr Hb Hs] H0. split; try done. destruct (runs r) as [|r0 rest]; [done|].
  destruct Hr as (Hok & Hlo & Hrest). cbn [runs_ok]. split; [done|]. split; [|done].
  destruct (Z.eq_dec (s_off base r0) 0) as [E|]; [|lia]. exfalso.
  destruct Hok as (_ & Hpos & _). cbn [content] in H0. unfold e_off in H0. rewrite E in H0.
  replace ((0 <=? 0) && (0 <? 0 + zlen (data r0))) with true in H0 by lia.
  destruct (at_is_Some (data r0) (0 - 0) ltac:(lia)) as [b Hb']. congruence.
Qed.

(** The peer's FIN takes one octet of sequence space. *)
Lemma rcv_inv_fin nxt adv rx rs sack :
  rcv_inv nxt adv rx rs false sack -> content nxt (runs rs) 0 = None ->
  rcv_inv (seq_add nxt 1) adv rx rs true sack.
Proof.
  intros [Hn Ha Hcap Hwin Hbud Hwf Hin Hns] Hgap. cbn [Z.b2z] in Hwin.
  assert (Hd : distance adv (seq_add nxt 1) = distance adv nxt - 1) by (apply distance_advance; [done|lia..]).
  assert (Ho : off nxt (seq_add nxt 1) = 1) by (apply off_add_base; lia).
  destruct (reasm_wf_rebase nxt (seq_add nxt 1) 1 rs) as (Hwf' & _ & HW);
    [by apply reasm_wf_gap|apply seq_add_ok|lia|]. rewrite Ho in *.
  split; rewrite ?Hd; try done.
  - apply seq_add_ok.
  - cbn [Z.b2z]. lia.
  - lia.
  - specialize (HW _ Hin). eapply List.Forall_impl; [|exact HW]. cbn. intros r Hr. lia.
Qed.

Section receive.
Context {C : Type} `{CC : CongestionControl C} {CL : CongestionLaws C}.

(** What the receive path leaves alone. *)
Definition recv_kept (self : Tcb C) :=
  (snd_view self, conn_view self, state self, rcv_adv self, rtx_deadline self, pending_reset self,
   reset self, ts_recent self, fin_queued self).

Lemma receive_data_ok (self : Tcb C) now s body ce :
  tcb_ok self -> state self <> SynSent -> seq_ok s -> zlen body <= U16_MAX -> reaches (rcv_adv self) (rcv_nxt self) s body ->
  exists self', receive_data self now s body ce = Some self' /\ tcb_ok self' /\
    recv_kept self' = recv_kept self /\ peer_fin_seen self' = peer_fin_seen self /\
    pending_fin self' = pending_fin self /\
    exists new io, buf (rx self') = buf (rx self) ++ new /\
      accepted (rcv_nxt self) (reasm self) s body (RX_BUFFER - RingBuffer.len (rx self)) io new (rcv_nxt self')
        (reasm self').
Proof.
  intros Hok Hst Hs Hlen Hw. unfold receive_data. destruct (zlen body =? 0) eqn:Hz.
  - exists self. split; [done|]. split; [done|]. split_and!; try done.
    destruct (accept_nothing self s body) as [E Hacc]; [apply Hok|left; lia|].
    exists [], false. rewrite app_nil_r. split; [done|].
    replace (rcv_nxt self) with (seq_add (rcv_nxt self) (zlen (@nil Z))) at 2; [done|].
    change (zlen (@nil Z)) with 0. apply seq_add_0. apply Hok.
  - destruct Hok as [Hrcv Hsnd Henv Htmr Hgap Hfresh].
    destruct (accept_data_ok self s body _ Hrcv Hs Hlen Hw)
      as (new & rs' & io & nr & Hacc & Hinv' & Hres).
    cbv zeta in Hacc, Hinv'. rewrite Hacc. cbv zeta.
    set (self1 := self <| rx := _ |> <| rcv_nxt := _ |> <| reasm := rs' |>).
    assert (Hgap1 : peer_fin_seen self = false -> content (rcv_nxt self1) (runs (reasm self1)) 0 = None).
    { intros Hf. eapply accepted_gap; [exact Hres|apply Hrcv|by apply Hgap]. }
    assert (Hok1 : tcb_ok self1) by (split; first [assumption|done]).
    set (self2 := if ecn_enabled self1 && ce && _ then _ else self1).
    assert (Hok2 : tcb_ok self2).
    { unfold self2. case_ifs; [|done]. destruct Hok1 as [? ? Henv1 ? ? ?]. split; try assumption.
      destruct Henv1. split; try assumption. apply wrap8_range. }
    assert (Hk2 : recv_kept self2 = recv_kept self /\ peer_fin_seen self2 = peer_fin_seen self /\
      pending_fin self2 = pending_fin self /\ buf (rx self2) = buf (rx self) ++ new /\
      rcv_nxt self2 = rcv_nxt self1 /\ reasm self2 = rs').
    { unfold self2. case_ifs; by split_and!. }
    clearbody self2. destruct Hk2 as (Hk & Hp1 & Hp2 & Hb & Hn2 & Hr2).
    eexists. split; [done|].
    assert (Hfin : forall self3 : Tcb C, tcb_ok self3 -> recv_kept self3 = recv_kept self2 ->
      rcv_view self3 = rcv_view self2 -> tcb_ok self3 /\
      recv_kept self3 = recv_kept self /\ peer_fin_seen self3 = peer_fin_seen self /\
      pending_fin self3 = pending_fin self /\
      exists new io, buf (rx self3) = buf (rx self) ++ new /\
        accepted (rcv_nxt self) (reasm self) s body (RX_BUFFER - RingBuffer.len (rx self)) io new (rcv_nxt self3)
          (reasm self3)).
    { intros self3 Hok3 Hk3 Hv3. unfold rcv_view in Hv3.
      assert (rx self3 = rx self2 /\ rcv_nxt self3 = rcv_nxt self2 /\ reasm self3 = reasm self2 /\
        peer_fin_seen self3 = peer_fin_seen self2 /\ pending_fin self3 = pending_fin self2)
        as (E1 & E2 & E3 & E4 & E5) by (split_and!; congruence).
      rewrite E1, E2, E3, E4, E5, Hk3. split_and!; try done.
      exists new, io. rewrite Hb, Hn2, Hr2. split; [done|exact Hres]. }
    unfold arm_delayed_ack. case_ifs; apply Hfin; try done; tcb_frame Hok2.
Qed.

(** Sections (7) and (7b) by cases. *)
Lemma receive_fin_cases (self : Tcb C) s f body :
  receive_fin self s f body =
  let fin_at := seq_add s (wrap32 (zlen body)) in
  let consumed := self <| rcv_nxt := seq_add (rcv_nxt self) 1 |> <| peer_fin_seen := true |> in
  if peer_fin_seen self then if TcpFlags.fin f then self <| needs_ack := true |> else self
  else if TcpFlags.fin f then
    if fin_at =? rcv_nxt self then consumed <| needs_ack := true |>
    else self <| pending_fin := Some fin_at |> <| needs_ack := true |>
  else match pending_fin self with
       | Some p => if p =? rcv_nxt self
                   then consumed <| pending_fin := None |> <| needs_ack := true |> else self
       | None => self
       end.
Proof.
  unfold receive_fin. destruct self. cbn. destruct (TcpFlags.fin f), peer_fin_seen; cbn;
    rewrite ?andb_false_r, ?andb_true_r; cbn.
  - destruct pending_fin; cbn; by rewrite ?andb_false_r.
  - destruct (_ =? rcv_nxt) eqn:E; cbn.
    + destruct pending_fin; cbn; by rewrite ?andb_false_r.
    + by rewrite E.
  - destruct pending_fin; cbn; by rewrite ?andb_false_r.
  - destruct pending_fin; cbn; by rewrite ?andb_true_r.
Qed.

(** The peer's FIN, in order or remembered: at most one octet, once. *)
Lemma receive_fin_ok (self : Tcb C) s f body :
  tcb_ok self -> state self <> SynSent ->
  let self' := receive_fin self s f body in
  tcb_ok self' /\ recv_kept self' = recv_kept self /\ rx self' = rx self /\
  reasm self' = reasm self /\
  (if peer_fin_seen self' && negb (peer_fin_seen self) then
     rcv_nxt self' = seq_add (rcv_nxt self) 1 /\
     (TcpFlags.fin f = true /\ seq_add s (wrap32 (zlen body)) = rcv_nxt self \/
      pending_fin self = Some (rcv_nxt self))
   else rcv_nxt self' = rcv_nxt self /\ peer_fin_seen self' = peer_fin_seen self) /\
  (forall p, pending_fin self' = Some p -> pending_fin self = Some p \/
     TcpFlags.fin f = true /\ p = seq_add s (wrap32 (zlen body))).
Proof.
  intros Hok Hst. cbv zeta. rewrite receive_fin_cases. cbv zeta.
  assert (Hcons : peer_fin_seen self = false -> forall pf,
    tcb_ok (self <| rcv_nxt := seq_add (rcv_nxt self) 1 |> <| peer_fin_seen := true |>
                 <| pending_fin := pf |> <| needs_ack := true |>)).
  { intros Hf pf. destruct Hok as [Hrcv Hsnd Henv Htmr Hgap Hfresh]. rewrite Hf in Hrcv.
    specialize (Hgap Hf). split; try assumption; [by apply rcv_inv_fin|done|done]. }
  destruct (peer_fin_seen self) eqn:Hseen; [|destruct (TcpFlags.fin f) eqn:Hf].
  - destruct (TcpFlags.fin f); (split; [tcb_frame Hok|]); split_and!; try done;
      cbn; try (by rewrite Hseen); by left.
  - destruct (_ =? _) eqn:E.
    + split; [exact (Hcons eq_refl (pending_fin self))|]. split_and!; try done; cbn; [|by left].
      split; [done|]. left. split; [done|lia].
    + split; [tcb_frame Hok|]. split_and!; try done; cbn; [by rewrite Hseen|].
      intros p [= <-]. by right.
  - destruct (pending_fin self) as [p|] eqn:Hp; [destruct (p =? _) eqn:E|].
    + split; [exact (Hcons eq_refl None)|]. split_and!; try done. cbn.
      split; [done|]. right. f_equal. lia.
    + split; [done|]. split_and!; try done; [by rewrite Hseen|]. rewrite Hp. by left.
    + split; [done|]. split_and!; try done; [by rewrite Hseen|]. rewrite Hp. by left.
Qed.

(** *** The closing states *)

Lemma snd_inv_state st st' iss una nxt tx fs fa sack sb :
  snd_inv st iss una nxt tx fs fa sack sb ->
  st <> SynSent -> st <> SynReceived -> st <> Closed -> st' <> SynSent -> st' <> SynReceived ->
  (fs <> None -> st' <> Established /\ st' <> CloseWait) ->
  (st' = FinWait2 \/ st' = TimeWait -> fa = true) ->
  snd_inv st' iss una nxt tx fs fa sack sb.
Proof.
  intros [] ???????. split; try done.
  - intros [|]; done.
  - intros Hfs. destruct (si_flight Hfs) as [-> [?|(_ & _ & Hst)]]; [by auto|].
    destruct Hst as [?|[?|?]]; done.
Qed.

(** The FIN acknowledged, everything is. *)
Lemma fin_acked_all st iss una nxt tx fs sack sb :
  snd_inv st iss una nxt tx fs true sack sb -> una = nxt /\ is_some fs = true.
Proof.
  intros []. destruct fs as [f|]; [|by destruct (si_flight eq_refl)].
  split; [|done]. by destruct (si_fin f eq_refl) as [_ [? _]].
Qed.

(** The transition table of RFC 793's closing states. *)
Definition closing_step (st : State) (fin_acked peer_fin : bool) : State :=
  match st, fin_acked, peer_fin with
  | Established, _, true => CloseWait
  | FinWait1, true, true => TimeWait
  | FinWait1, true, false => FinWait2
  | FinWait1, false, true => Closing
  | FinWait2, _, true => TimeWait
  | Closing, true, _ => TimeWait
  | LastAck, true, _ => Closed
  | _, _, _ => st
  end.

Lemma recompute_closing_state_ok (self : Tcb C) now :
  tcb_ok self -> state self <> SynSent -> let self' := recompute_closing_state self now in
  tcb_ok self' /\ snd_view self' = snd_view self /\ rcv_view self' = rcv_view self /\
  rcv_adv self' = rcv_adv self /\ conn_view self' = conn_view self /\
  ts_recent self' = ts_recent self /\ reset self' = reset self /\
  state self' = closing_step (state self) (fin_acked self) (peer_fin_seen self).
Proof.
  intros Hok Hnss. cbv zeta. unfold recompute_closing_state. cbv zeta.
  set (next := match state self with Established => _ | _ => _ end).
  assert (Hnext : next = closing_step (state self) (fin_acked self) (peer_fin_seen self)).
  { unfold next, closing_step. by destruct (state self), (fin_acked self), (peer_fin_seen self). }
  clearbody next. change (state (self <| state := next |>)) with next.
  destruct Hok as [Hrcv Hsnd Henv Htmr Hgap Hfresh].
  assert (Hsnd' : snd_inv next (iss self) (snd_una self) (snd_nxt self) (tx self) (fin_seq self)
    (fin_acked self) (sack_enabled self) (scoreboard self)).
  { destruct (decide (next = state self)) as [->|Hne]; [done|].
    pose proof (si_sending _ _ _ _ _ _ _ _ _ Hsnd) as Hsd.
    pose proof (si_finacked _ _ _ _ _ _ _ _ _ Hsnd) as Hfa.
    eapply snd_inv_state; [exact Hsnd|..]; subst next;
      destruct (state self), (fin_acked self), (peer_fin_seen self); cbn in *;
      first [done|intuition congruence]. }
  assert (Htmr' : next <> TimeWait ->
    tmr_inv next (snd_una self) (snd_nxt self) (rtx_deadline self)).
  { intros Hne Hc. apply Htmr. intros E. apply Hc. rewrite Hnext, E. done. }
  assert (Hfresh' : next = SynSent ->
    buf (rx self) = [] /\ runs (reasm self) = [] /\ peer_fin_seen self = false).
  { rewrite Hnext. destruct (state self), (fin_acked self), (peer_fin_seen self); done. }
  unfold state_eqb. case_bool_decide as Heq; cbn [negb].
  - split; [|by split_and!]. split; try assumption. unfold tmr_inv in *.
    change (state (self <| state := next |>)) with next in *. by rewrite Heq.
  - change (state (self <| state := next |>)) with next in *.
    destruct next; (split; [|by split_and!]); split; try assumption; try (by apply Htmr').
    intros _ Hne. exfalso. apply Hne.
    assert (fin_acked self = true) as E by (by apply (si_finacked _ _ _ _ _ _ _ _ _ Hsnd'); right).
    rewrite E in Hsnd'. apply fin_acked_all in Hsnd' as [E' _]. exact E'.
Qed.

End receive.
