(* ===== verification/TcbSegment.v ===== *)
(** [Tcb::on_segment] as a whole: it is total, it preserves the invariant, and
    what each branch does ([tcp-core/src/tcb.rs]). *)

From S2P Require Import Prelude Seq Time Buffers Rtt Checksum Ipv4 TcpWire Sack Reasm Congestion Endpoint Tcb TcbInv TcbRecv.
Import RingBuffer (RingBuffer, buf, capacity).

Section segment.
Context {C : Type} `{CC : CongestionControl C} {CL : CongestionLaws C}.
Context (Cc_new : CcKind -> Z -> C).
Context (Cc_new_ok : forall k m, 0 < m <= U16_MAX -> cc_ok m (Cc_new k m)).

(** What the theorems ask of a segment: data that meets an open window does not
    begin 2^30 octets or more ahead of the octet expected next, and a SYN does not
    announce a zero segment size.  Anything may begin or end outside the window. *)
Definition honest (self : Tcb C) (x : Arrived) : Prop :=
  (state self <> SynSent -> a_body x <> [] -> rcv_adv self <> rcv_nxt self ->
     distance (a_seq x) (rcv_nxt self) < 2 ^ 30) /\
  (state self = SynSent -> a_mss x <> Some 0).

(** *** SYN-SENT *)

Definition syn_acceptable (self : Tcb C) (x : Arrived) : bool :=
  TcpFlags.ack (a_flags x) && seq_gt (a_ack x) (iss self) && seq_le (a_ack x) (snd_nxt self).

Lemma rcv_inv_seed irs rx rs fin sack sack' nxt adv :
  rcv_inv nxt adv rx rs fin sack -> seq_ok irs -> buf rx = [] -> runs rs = [] ->
  rcv_inv (seq_add irs 1) (seq_add (seq_add irs 1) 65535) rx rs fin sack'.
Proof.
  intros [Hn Ha Hcap _ _ [_ _ Hby Hst] _ _] Hi Hb Hr.
  assert (Hd : distance (seq_add (seq_add irs 1) 65535) (seq_add irs 1) = 65535).
  { unfold distance, seq_add, as_i32, seq_ok in *. case_match; width. }
  split; try apply seq_add_ok; try done; rewrite ?Hd, ?Hr; try done.
  - by destruct fin.
  - unfold RingBuffer.len, RX_BUFFER. rewrite Hb. change (zlen (@nil Z)) with 0. lia.
  - split; rewrite ?Hr; try done. apply seq_add_ok. by rewrite Hby, Hr.
Qed.

Lemma on_segment_syn_sent_ok (self : Tcb C) tcp x :
  tcb_ok self -> state self = SynSent -> reads tcp x -> a_mss x <> Some 0 ->
  exists self', on_segment_syn_sent Cc_new self tcp = Some self' /\ tcb_ok self' /\
  if TcpFlags.ack (a_flags x) && negb (syn_acceptable self x) then
    self' = if negb (TcpFlags.rst (a_flags x))
            then self <| pending_reset := Some (a_ack x) |> else self
  else if TcpFlags.rst (a_flags x) then
    self' = if syn_acceptable self x then self <| state := Closed |> <| reset := true |> else self
  else if TcpFlags.syn (a_flags x) then
    irs self' = a_seq x /\ rcv_nxt self' = seq_add (a_seq x) 1 /\
    rcv_adv self' = seq_add (rcv_nxt self') 65535 /\
    snd_mss self' = Z.min (default MSS_DEFAULT (a_mss x)) (mss_advertise self) /\
    cc self' = Cc_new (cc_kind self) (snd_mss self') /\
    sack_enabled self' = a_sp x /\ ts_enabled self' = is_some (a_ts x) /\
    (forall v e, a_ts x = Some (v, e) -> ts_recent self' = v) /\
    window_scaling self' = is_some (a_ws x) /\ snd_wscale self' = default 0 (a_ws x) /\
    rcv_wscale self' = (if is_some (a_ws x) then RCV_WSCALE else 0) /\
    snd_wnd self' = a_window x /\ reset self' = reset self /\
    if syn_acceptable self x then
      state self' = Established /\ snd_una self' = snd_nxt self' /\ needs_ack self' = true /\
      rtx_deadline self' = None
    else state self' = SynReceived /\ snd_una self' = iss self /\ retransmit self' = true
  else self' = self.
Proof.
  intros Hok Hst Hx Hmss. unfold on_segment_syn_sent, syn_acceptable.
  destruct (rd_flags _ _ Hx) as [-> _], (rd_seq _ _ Hx) as [-> Hseq], (rd_ack _ _ Hx) as [-> Hack].
  destruct (rd_mss _ _ Hx) as [-> Hm], (rd_ws _ _ Hx) as [-> Hws], (rd_ts _ _ Hx) as [-> Hts].
  destruct (rd_window _ _ Hx) as [-> Hwin]. rewrite (rd_sp _ _ Hx). cbv zeta.
  pose proof (ok_snd _ Hok) as Hsnd.
  destruct (si_opening _ _ _ _ _ _ _ _ _ Hsnd) as (Hu & H1 & _); [by left|].
  set (ackb := TcpFlags.ack (a_flags x)).
  set (acc := ackb && seq_gt (a_ack x) (iss self) && seq_le (a_ack x) (snd_nxt self)).
  destruct (ackb && negb acc) eqn:Eb.
  { eexists. split; [done|]. split; [|done]. case_ifs; [|done].
    destruct Hok as [? ? [] ? ? ?]. split; try assumption. split; try assumption. by intros ? [= <-]. }
  destruct (TcpFlags.rst (a_flags x)).
  { eexists. split; [done|]. split; [|done]. destruct acc; [|done].
    pose proof (tcb_ok_closed _ Hok) as Hc. tcb_frame Hc. }
  destruct (TcpFlags.syn (a_flags x)); [|by exists self].
  assert (Hmssr : 0 < Z.min (default MSS_DEFAULT (a_mss x)) (mss_advertise self) <= U16_MAX).
  { pose proof (ei_adv _ _ _ _ _ _ _ _ _ _ _ _ (ok_env _ Hok)). unfold MSS_DEFAULT, MSS_MAX in *.
    destruct (a_mss x) as [m|] eqn:E; cbn [default]; [|lia].
    specialize (Hm m eq_refl). unfold is_u16 in Hm. assert (m <> 0) by congruence.
    unfold default, id. lia. }
  assert (Hacc : acc = true -> a_ack x = snd_nxt self).
  { unfold acc. intros Ha. apply andb_true_iff in Ha as [Ha E2]. apply andb_true_iff in Ha as [_ E1].
    rewrite <- Hu in E1. destruct (ack_offset (snd_una self) (snd_nxt self) (a_ack x)) as [Hah Hk];
      try done; try apply Hsnd. { by rewrite seq_gt_lt, E2. }
    apply (off_inj (snd_una self)); [exact Hack|apply Hsnd|lia]. }
  destruct Hok as [Hrcv _ Henv Htmr Hgap Hfresh]. destruct (Hfresh Hst) as (Hbuf & Hruns & Hfin).
  pose proof (rcv_inv_seed (a_seq x) _ _ _ _ (a_sp x) _ _ Hrcv Hseq Hbuf Hruns) as Hrcv'.
  assert (Henv' : forall sws rws tsr, 0 <= sws <= 14 -> 0 <= rws <= 14 -> is_u32 tsr ->
    env_inv (local self) (remote self) (mss_advertise self)
      (Z.min (default MSS_DEFAULT (a_mss x)) (mss_advertise self))
      (Cc_new (cc_kind self) (Z.min (default MSS_DEFAULT (a_mss x)) (mss_advertise self))) (rtt self)
      sws rws tsr (cur_tsval self) (accecn_cep self) (pending_reset self)).
  { intros. destruct Henv. split; try assumption; [lia|by apply Cc_new_ok]. }
  assert (Hsws : 0 <= default 0 (a_ws x) <= 14).
  { destruct (a_ws x) as [w|]; cbn; [by apply Hws|lia]. }
  assert (Hrws : 0 <= (if is_some (a_ws x) then RCV_WSCALE else 0) <= 14).
  { destruct (is_some _); [split; vm_compute; discriminate|lia]. }
  assert (Htsr : is_u32 (match a_ts x with Some (v, _) => v | None => ts_recent self end)).
  { destruct (a_ts x) as [[v e]|]; [by apply (Hts v e)|apply Henv]. }
  specialize (Henv' _ _ _ Hsws Hrws Htsr).
  assert (Hsnd' : snd_inv (if acc then Established else SynReceived) (iss self)
    (if acc then a_ack x else snd_una self) (snd_nxt self) (tx self) (fin_seq self)
    (fin_acked self) (a_sp x) (scoreboard self)).
  { destruct acc.
    - rewrite (Hacc eq_refl). by eapply snd_inv_established; [|left].
    - by eapply snd_inv_simultaneous; [|left]. }
  assert (Htmr' : acc = false -> tmr_inv SynReceived (snd_una self) (snd_nxt self) (rtx_deadline self)).
  { intros _ _. apply Htmr. by rewrite Hst. }
  assert (Hgap' : content (seq_add (a_seq x) 1) (runs (reasm self)) 0 = None) by (by rewrite Hruns).
  clearbody acc. clear Hsnd Hrcv Henv Htmr Hgap Hfresh Hm Hws Hts Hmssr.
  set (m := Z.min _ _) in *.
  set (self1 := self <| retransmit := false |> <| irs := a_seq x |> <| rcv_nxt := seq_add (a_seq x) 1 |>
    <| rcv_adv := seq_add (seq_add (a_seq x) 1) 65535 |> <| snd_mss := m |> <| cc := Cc_new (cc_kind self) m |>
    <| sack_enabled := a_sp x |> <| window_scaling := is_some (a_ws x) |> <| snd_wscale := default 0 (a_ws x) |>
    <| rcv_wscale := (if is_some (a_ws x) then RCV_WSCALE else 0) |> <| ts_enabled := is_some (a_ts x) |>
    <| ts_recent := match a_ts x with Some (v, _) => v | None => ts_recent self end |>
    <| snd_wnd := a_window x |> <| snd_wl1 := a_seq x |>).
  exists (if acc
    then self1 <| snd_una := a_ack x |> <| snd_wl2 := a_ack x |> <| state := Established |>
      <| rtx_deadline := None |> <| needs_ack := true |>
    else self1 <| snd_wl2 := iss self |> <| state := SynReceived |> <| retransmit := true |>).
  split; [unfold self1; by destruct (a_ws x) as [w|], (a_ts x) as [[v e]|]|].
  assert (Hts' : forall v e, a_ts x = Some (v, e) ->
    match a_ts x with Some (v, _) => v | None => ts_recent self end = v) by (by intros v e ->).
  destruct acc; (split; [split; [exact Hrcv'|exact Hsnd'|exact Henv'| |intros _; exact Hgap'|done]|]).
  - intros _ Hne. exfalso. apply Hne. exact (Hacc eq_refl).
  - do 7 (split; [reflexivity|]). split; [exact Hts'|]. do 6 (split; [reflexivity|]). split; [exact (Hacc eq_refl)|split; reflexivity].
  - by apply Htmr'.
  - do 7 (split; [reflexivity|]). split; [exact Hts'|]. do 6 (split; [reflexivity|]). split; [exact Hu|reflexivity].
Qed.


(** *** The other states *)

(** The state after an acceptable ACK completes the handshake, if it was open. *)
Definition after_ack (st : State) : State :=
  if state_eqb st SynReceived then Established else st.

(** What sections (5) to (8) do to the connection, when the segment is not
    dropped. *)
Record processed (self : Tcb C) (x : Arrived) (self' : Tcb C) : Prop := {
  ps_conn : conn_view self' = conn_view self;
  ps_adv : rcv_adv self' = rcv_adv self;
  ps_nxt : snd_nxt self' = snd_nxt self;
  ps_reset : reset self' = reset self;
  ps_fin_seq : fin_seq self' = fin_seq self;
  ps_una : if seq_gt (a_ack x) (snd_una self) then
      0 < off (snd_una self) (a_ack x) <= off (snd_una self) (snd_nxt self) /\
      snd_una self' = a_ack x /\
      tx self' = fst (RingBuffer.consume (tx self)
        (Z.min (off (snd_una self) (a_ack x)) (RingBuffer.len (tx self))))
    else snd_una self' = snd_una self /\ tx self' = tx self;
  ps_state : state self' =
    closing_step (after_ack (state self)) (fin_acked self') (peer_fin_seen self');
  ps_recv : exists new io nxt2,
    buf (rx self') = buf (rx self) ++ new /\
    accepted (rcv_nxt self) (reasm self) (a_seq x) (a_body x) (RX_BUFFER - RingBuffer.len (rx self)) io new nxt2
      (reasm self') /\
    if peer_fin_seen self' && negb (peer_fin_seen self) then
      rcv_nxt self' = seq_add nxt2 1 /\
      (TcpFlags.fin (a_flags x) = true /\
         seq_add (a_seq x) (wrap32 (zlen (a_body x))) = nxt2 \/ pending_fin self = Some nxt2)
    else rcv_nxt self' = nxt2 /\ peer_fin_seen self' = peer_fin_seen self;
  ps_pend : forall p, pending_fin self' = Some p -> pending_fin self = Some p \/
    TcpFlags.fin (a_flags x) = true /\ p = seq_add (a_seq x) (wrap32 (zlen (a_body x)));
}.

(** Sections (5) to (8). *)
Lemma process_ok (self : Tcb C) now tcp x ce seg_ts :
  tcb_ok self -> reads tcp x -> state self <> SynSent -> reaches (rcv_adv self) (rcv_nxt self) (a_seq x) (a_body x) ->
  exists self',
    (let? (self, ok) := ack_segment self now tcp (a_seq x) (a_ack x) (a_flags x) (a_body x) seg_ts in
     if negb ok then Some self
     else
       let? self := receive_data self now (a_seq x) (a_body x) ce in
       let self := receive_fin self (a_seq x) (a_flags x) (a_body x) in
       Some (recompute_closing_state self now)) = Some self' /\ tcb_ok self' /\
  if negb (seq_gt (a_ack x) (snd_nxt self)) &&
     (negb (state_eqb (state self) SynReceived) || seq_gt (a_ack x) (snd_una self))
  then processed self x self'
  else rcv_view self' = rcv_view self /\ snd_una self' = snd_una self /\ tx self' = tx self /\
    snd_nxt self' = snd_nxt self /\ reset self' = reset self /\ conn_view self' = conn_view self /\
    fin_seq self' = fin_seq self /\
    state self' = if state_eqb (state self) SynReceived then Closed else state self.
Proof.
  intros Hok Hx Hst Hw. destruct (rd_seq _ _ Hx) as [_ Hs], (rd_body _ _ Hx) as (_ & _ & Hlen).
  destruct (ack_segment_ok self now tcp x seg_ts Hok Hx Hst)
    as (self1 & ok & -> & Hok1 & Hrv1 & Hcv1 & _ & Hn1 & Hr1 & Hfs1 & Eok & Est1 & Hu1).
  unfold rcv_view, conn_view in *. rewrite <- Eok. destruct ok; cbn [negb].
  2:{ exists self1. split; [done|]. split; [done|]. cbn [andb] in Hu1. destruct Hu1.
      rewrite Est1. by split_and!. }
  assert (Hst1 : state self1 <> SynSent) by (rewrite Est1; unfold state_eqb; by case_bool_decide).
  assert (E1 : rcv_nxt self1 = rcv_nxt self /\ rcv_adv self1 = rcv_adv self /\ rx self1 = rx self /\
    reasm self1 = reasm self /\ peer_fin_seen self1 = peer_fin_seen self /\
    pending_fin self1 = pending_fin self /\ sack_enabled self1 = sack_enabled self)
    by (split_and!; congruence).
  destruct E1 as (E1 & E2 & E3 & E4 & E5 & E6 & E7).
  destruct (receive_data_ok self1 now (a_seq x) (a_body x) ce Hok1 Hst1 Hs Hlen)
    as (self2 & -> & Hok2 & Hk2 & Hp2 & Hpf2 & new & io & Hbuf & Hacc); [by rewrite E1, E2|].
  assert (Hst2 : state self2 = state self1) by (unfold recv_kept in Hk2; congruence).
  destruct (receive_fin_ok self2 (a_seq x) (a_flags x) (a_body x) Hok2) as (Hok3 & Hk3 & Hx3 & Hr3 & Hf3 & Hp3);
    [by rewrite Hst2|]. set (self3 := receive_fin _ _ _ _) in *.
  assert (Hst3 : state self3 = state self1) by (unfold recv_kept in *; congruence).
  destruct (recompute_closing_state_ok self3 now Hok3) as (Hok4 & Hs4 & Hv4 & Ha4 & Hc4 & _ & Hre4 & Hst4);
    [by rewrite Hst3|]. set (self4 := recompute_closing_state self3 now) in *.
  eexists. split; [done|]. split; [exact Hok4|].
  unfold recv_kept, snd_view, rcv_view, conn_view in *. rewrite E1, E4, E7, E3 in *.
  split; try congruence.
  - unfold conn_view. congruence.
  - rewrite andb_true_l in Hu1. destruct (seq_gt (a_ack x) (snd_una self)); [|intuition congruence].
    destruct Hu1 as (? & ? & Htx1). rewrite <- Htx1. split; [done|]. split; congruence.
  - rewrite Hst4. unfold after_ack. rewrite Hst3, Est1.
    f_equal; congruence.
  - exists new, io, (rcv_nxt self2). split; [congruence|].
    assert (reasm self4 = reasm self2) as -> by congruence. split; [done|].
    assert (peer_fin_seen self4 = peer_fin_seen self3) as -> by congruence.
    assert (rcv_nxt self4 = rcv_nxt self3) as -> by congruence.
    rewrite Hp2, E5, Hpf2, E6 in Hf3. exact Hf3.
  - assert (pending_fin self4 = pending_fin self3) as -> by congruence.
    rewrite Hpf2, E6 in Hp3. exact Hp3.
Qed.


(** *** The whole of [on_segment] *)

Definition seg_len (x : Arrived) : Z :=
  zlen (a_body x) + Z.b2z (TcpFlags.syn (a_flags x)) + Z.b2z (TcpFlags.fin (a_flags x)).
Definition seg_ts (self : Tcb C) (x : Arrived) : option (Z * Z) :=
  if ts_enabled self then a_ts x else None.
Definition paws_fails (self : Tcb C) (x : Arrived) : bool :=
  match seg_ts self x with
  | Some (tsval, _) => as_i32 (wrap32 (tsval - ts_recent self)) <? 0
  | None => false
  end.

(** Which section a segment reaches. *)
Inductive Verdict := VRst | VTimeWait | VSyn | VPaws | VUnacceptable | VNoAck | VProcess.
Definition verdict (self : Tcb C) (x : Arrived) : Verdict :=
  if TcpFlags.rst (a_flags x) then VRst
  else if state_eqb (state self) TimeWait then VTimeWait
  else if TcpFlags.syn (a_flags x) then VSyn
  else if paws_fails self x then VPaws
  else if negb (segment_acceptable self (a_seq x) (seg_len x)) then VUnacceptable
  else if negb (TcpFlags.ack (a_flags x)) then VNoAck
  else VProcess.

(** [TS.Recent] after an acceptable segment. *)
Definition with_ts (self : Tcb C) (x : Arrived) : Tcb C :=
  match seg_ts self x with
  | Some (tsval, _) => if seq_le (a_seq x) (rcv_nxt self) then self <| ts_recent := tsval |> else self
  | None => self
  end.

Lemma on_segment_verdict (self : Tcb C) now tcp x ce :
  reads tcp x -> state self <> SynSent ->
  on_segment Cc_new self now tcp ce =
  match verdict self x with
  | VRst => Some (if seq_in_window self (a_seq x) then
      if a_seq x =? rcv_nxt self then self <| state := Closed |> <| reset := true |>
      else challenge_ack self now
    else self)
  | VTimeWait => Some (arm_time_wait (self <| needs_ack := true |>) now)
  | VSyn => Some (if state_eqb (state self) SynReceived && (a_seq x =? irs self)
      then self <| snd_nxt := iss self |>
      else if seq_in_window self (a_seq x) then challenge_ack self now else self)
  | VPaws | VUnacceptable => Some (self <| needs_ack := true |>)
  | VNoAck => Some (with_ts self x)
  | VProcess =>
      let? (self, ok) := ack_segment (with_ts self x) now tcp (a_seq x) (a_ack x) (a_flags x)
                           (a_body x) (seg_ts self x) in
      if negb ok then Some self
      else
        let? self := receive_data self now (a_seq x) (a_body x) ce in
        let self := receive_fin self (a_seq x) (a_flags x) (a_body x) in
        Some (recompute_closing_state self now)
  end.
Proof.
  intros Hx Hst. unfold on_segment. unfold state_eqb at 1. rewrite bool_decide_false by done.
  destruct (rd_seq _ _ Hx) as [-> _], (rd_ack _ _ Hx) as [-> _], (rd_flags _ _ Hx) as [-> _].
  destruct (rd_body _ _ Hx) as (-> & _ & Hlen). pose proof (zlen_nonneg (a_body x)).
  assert (Ets : (if ts_enabled self then timestamps tcp else Some None) = Some (seg_ts self x)).
  { unfold seg_ts. destruct (rd_ts _ _ Hx) as [-> _]. by destruct (ts_enabled self). }
  rewrite Ets. cbv zeta. rewrite (wrap32_small (zlen (a_body x))) by (unfold is_u32; lia).
  fold (seg_len x). unfold verdict, paws_fails, with_ts.
  destruct (TcpFlags.rst _); [done|]. destruct (state_eqb _ TimeWait); [done|].
  destruct (TcpFlags.syn _); [done|].
  destruct (match seg_ts self x with Some (tsval, _) => _ | None => _ end); [done|].
  destruct (negb (segment_acceptable _ _ _)); [done|].
  by destruct (negb (TcpFlags.ack _)).
Qed.

Lemma with_ts_ok (self : Tcb C) tcp x : tcb_ok self -> reads tcp x -> tcb_ok (with_ts self x).
Proof.
  intros Hok Hx. unfold with_ts, seg_ts. destruct (ts_enabled self); [|done].
  destruct (a_ts x) as [[v e]|] eqn:E; [|done]. case_ifs; [|done].
  destruct (rd_ts _ _ Hx) as [_ Hts]. destruct (Hts v e E) as [Hv _].
  destruct Hok as [? ? [] ? ? ?]. split; try assumption. split; assumption.
Qed.

(** What a segment that is not processed may change: the acknowledgement it is
    owed, the challenge budget, [TS.Recent], a SYN-ACK to send again, the
    2 MSL timer; and a RST at the exact sequence number closes. *)
Lemma arm_time_wait_ok (self : Tcb C) now :
  tcb_ok self -> state self = TimeWait -> tcb_ok (arm_time_wait self now).
Proof.
  intros [Hrcv Hsnd Henv Htmr Hgap Hfresh] Hst. split; try assumption.
  intros _ Hne. exfalso. apply Hne.
  assert (fin_acked self = true) as E
    by (apply (si_finacked _ _ _ _ _ _ _ _ _ Hsnd); by right).
  rewrite E in Hsnd. apply fin_acked_all in Hsnd as [E' _]. exact E'.
Qed.

(** A duplicate SYN in SYN-RECEIVED rewinds to send the SYN-ACK again. *)
Lemma snd_inv_rewind iss una nxt tx fs fa sack sb :
  snd_inv SynReceived iss una nxt tx fs fa sack sb ->
  una = iss /\ snd_inv SynReceived iss una iss tx fs fa sack sb.
Proof.
  intros [Hi Hu Hn Hc Hl Hb Hop Hfl Hfin Hsd Hfa Hsb Hns].
  destruct (Hop (or_intror eq_refl)) as (-> & _ & Hbuf & -> & Hse).
  split; [done|]. split; try done; rewrite ?off_self.
  - by apply in_half_self.
  - intros _. split_and!; try done; apply Hse.
  - intros _. destruct (Hfl eq_refl) as [-> _]. split; [done|]. left. apply zlen_nonneg.
  - by apply sb_empty_wf; [|apply in_half_self|].
Qed.

Lemma resend_syn_ack_ok (self : Tcb C) :
  tcb_ok self -> state self = SynReceived -> tcb_ok (self <| snd_nxt := iss self |>).
Proof.
  intros [Hrcv Hsnd Henv Htmr Hgap Hfresh] Hst. rewrite Hst in Hsnd.
  apply snd_inv_rewind in Hsnd as [Eu Hsnd]. rewrite <- Hst in Hsnd.
  split; try assumption. intros _ Hne. exfalso. apply Hne. exact Eu.
Qed.

(** A segment that passes the acceptability test begins below the edge. *)
Lemma acceptable_reaches (self : Tcb C) tcp x :
  tcb_ok self -> reads tcp x ->
  (a_body x <> [] -> rcv_adv self <> rcv_nxt self -> distance (a_seq x) (rcv_nxt self) < 2 ^ 30) ->
  segment_acceptable self (a_seq x) (seg_len x) = true ->
  reaches (rcv_adv self) (rcv_nxt self) (a_seq x) (a_body x).
Proof.
  intros Hok Hx Hfar. destruct (ok_rcv _ Hok) as [Hn Ha _ Hwin Hbud _ _ _].
  destruct (rd_seq _ _ Hx) as [_ Hs], (rd_body _ _ Hx) as (_ & _ & Hlen).
  pose proof (zlen_nonneg (a_body x)). pose proof (zlen_nonneg (buf (rx self)) : 0 <= RingBuffer.len _).
  destruct (Z.eq_dec (zlen (a_body x)) 0) as [?|Hne]; [by left|]. intros Hacc. right.
  assert (Hb : a_body x <> []) by (intros Hb; by rewrite Hb in Hne). specialize (Hfar Hb). clear Hb.
  assert (Hl : 0 < seg_len x <= U16_MAX + 2 /\ zlen (a_body x) <= seg_len x).
  { unfold seg_len. destruct (TcpFlags.syn _), (TcpFlags.fin _); cbn [Z.b2z]; lia. }
  set (l := seg_len x) in *. clearbody l. unfold segment_acceptable in Hacc.
  destruct (l =? 0) eqn:?; [lia|]. destruct (rcv_adv self =? rcv_nxt self) eqn:Hz; [done|].
  specialize (Hfar ltac:(lia)).
  assert (Hwb : - (U16_MAX + 1) <= distance (rcv_adv self) (rcv_nxt self) <= 262144).
  { unfold RX_BUFFER in *. destruct (peer_fin_seen self); cbn [Z.b2z] in Hwin; lia. }
  clear Hwin Hbud. unfold seq_ge, seq_lt, distance, seq_add, seq_ok, is_u32, as_i32 in *.
  apply orb_true_iff in Hacc as [Hacc|Hacc]; apply andb_true_iff in Hacc as [H1 H2];
    repeat case_match; width.
Qed.

Lemma on_segment_core (self : Tcb C) now tcp x ce :
  tcb_ok self -> reads tcp x -> honest self x ->
  exists self', on_segment Cc_new self now tcp ce = Some self' /\ tcb_ok self'.
Proof.
  intros Hok Hx [Hw Hm]. destruct (decide (state self = SynSent)) as [Hst|Hst].
  { unfold on_segment, state_eqb. rewrite bool_decide_true by done.
    destruct (on_segment_syn_sent_ok self tcp x Hok Hst Hx (Hm Hst)) as (self' & -> & Hok' & _).
    by exists self'. }
  specialize (Hw Hst). rewrite (on_segment_verdict self now tcp x ce Hx Hst).
  unfold verdict.
  destruct (TcpFlags.rst _).
  { eexists. split; [done|]. case_ifs; [|by apply challenge_ack_ok|done].
    pose proof (tcb_ok_closed _ Hok) as Hc. tcb_frame Hc. }
  unfold state_eqb at 1. case_bool_decide as Htw.
  { eexists. split; [done|]. apply arm_time_wait_ok; [tcb_frame Hok|done]. }
  destruct (TcpFlags.syn _).
  { eexists. split; [done|]. unfold state_eqb. case_bool_decide as Hsr; cbn [andb].
    - case_ifs; [by apply resend_syn_ack_ok|by apply challenge_ack_ok|done].
    - case_ifs; [by apply challenge_ack_ok|done]. }
  destruct (paws_fails _ _); [eexists; split; [done|tcb_frame Hok]|].
  destruct (segment_acceptable _ _ _) eqn:Hacc; cbn [negb]; [|eexists; split; [done|tcb_frame Hok]].
  destruct (negb (TcpFlags.ack _)); [eexists; split; [done|by eapply with_ts_ok]|].
  assert (Hws : state (with_ts self x) = state self /\ rcv_adv (with_ts self x) = rcv_adv self /\
    rcv_nxt (with_ts self x) = rcv_nxt self).
  { unfold with_ts. by destruct (seg_ts self x) as [[]|]; case_ifs. }
  destruct Hws as (E1 & E2 & E3).
  destruct (process_ok (with_ts self x) now tcp x ce (seg_ts self x)) as (self' & E & Hok' & _);
    [by eapply with_ts_ok|done|by rewrite E1|rewrite E2, E3; by eapply acceptable_reaches|].
  exists self'. by split.
Qed.

End segment.
