(* ===== verification/TcbDemo.v ===== *)
(** A concrete connection and concrete segments: an established, SACK-enabled
    connection in the middle of a transfer, its sequence space across the 2^32
    wrap.  The theorems of the TCB are instantiated on it. *)

From S2P Require Import Prelude Seq Time Buffers Rtt Checksum Ipv4 TcpWire Sack Reasm Congestion Endpoint Tcb TcbInv.
Import RingBuffer (RingBuffer, mkRing, buf, capacity).

#[export] Existing Instances Reno.Reno_control Reno.Reno_laws.

(** A 20-byte header, no options. *)
Definition plain (s a f w : Z) (body : list Z) : TcpPacket :=
  mkSegment (to_be16 50000 ++ to_be16 443 ++ to_be32 s ++ to_be32 a ++ [0x50; f] ++ to_be16 w ++
             [0; 0; 0; 0] ++ body).
Definition plain_arrived (s a f w : Z) (body : list Z) : Arrived :=
  mkArrived s a f w body false None None None false [].

Lemma plain_reads s a f w body :
  is_u32 s -> is_u32 a -> is_u8 f -> is_u16 w -> bytes_ok body -> zlen body <= U16_MAX ->
  reads (plain s a f w body) (plain_arrived s a f w body).
Proof.
  intros Hs Ha Hf Hw Hb Hl. pose proof (zlen_nonneg body) as H0.
  assert (Ho : options (plain s a f w body) = Some []).
  { unfold options. change (data_offset _) with (Some 20). cbv iota beta.
    rewrite slice_Some; [done|done|]. cbn [plain as_bytes]. rewrite !zlen_app.
    change (zlen (to_be16 _)) with 2. change (zlen (to_be32 _)) with 4.
    change (zlen [_; _]) with 2. change (zlen [_; _; _; _]) with 4. lia. }
  assert (Hopt : forall S (v : S -> Z -> list Z -> option S) st,
    for_each_option (plain s a f w body) v st = Some st).
  { intros. unfold for_each_option. by rewrite Ho. }
  split; cbn [plain_arrived a_seq a_ack a_flags a_window a_body a_ae a_mss a_ts a_ws a_sp a_sack].
  - split; [|done]. exact (f_equal Some (be32_to_be32 s Hs)).
  - split; [|done]. exact (f_equal Some (be32_to_be32 a Ha)).
  - by split.
  - split; [|done]. exact (f_equal Some (be16_to_be16 w Hw)).
  - split; [|done]. unfold payload. change (data_offset _) with (Some 20). cbv iota beta.
    cbn [plain as_bytes]. set (hd := to_be16 50000 ++ to_be16 443 ++ to_be32 s ++ to_be32 a ++ [0x50; f]
      ++ to_be16 w ++ [0; 0; 0; 0]).
    change (slice (hd ++ body) 20 (zlen (hd ++ body)) = Some body).
    assert (Hz : zlen (hd ++ body) = 20 + zlen body) by (rewrite zlen_app; done).
    rewrite slice_Some by lia. change 20 with (zlen hd) at 2. rewrite zdrop_app_exact.
    by rewrite ztake_all by lia.
  - done.
  - unfold mss_option. rewrite Hopt. by split.
  - unfold timestamps. rewrite Hopt. by split.
  - unfold window_scale. rewrite Hopt. by split.
  - apply Hopt.
  - unfold sack_blocks. rewrite Hopt. exists (zrepeat (0, 0) MAX_SACK_BLOCKS), 0. by split_and!.
Qed.

(** *** The connection *)

(** Three bytes in flight and two unsent; five octets buffered out of order at
    offsets 3 to 7. *)
Definition demo_tcb : Tcb Reno.Reno :=
  mkTcb Established demo_local demo_remote 4294967292 4294967293 0 65535 999 4294967293 1460
    false 0 0 false 0 0 5 5 999 1000 66535
    (mkRing [10; 11; 12; 13; 14] TX_BUFFER) (mkRing [1; 2] RX_BUFFER) rtt_new (Reno.new 1460) CcReno
    None false false None (Some 1000000) None 1000 None None 0 0 0 None false None false false false
    false false None 0 0 0 true (mkReasm [mkSeg 1003 [53; 54; 55; 56; 57] 1] 5 1) scoreboard_new None
    1460.

Lemma demo_tcb_ok : tcb_ok demo_tcb.
Proof.
  split.
  - split; try (unfold seq_ok, is_u32; cbn; lia); try done.
    + split; try done. apply List.Forall_cons; [vm_compute; discriminate|apply List.Forall_nil].
    + apply List.Forall_cons; [vm_compute; discriminate|apply List.Forall_nil].
  - split; try (unfold seq_ok, is_u32; cbn; lia); try done.
    + cbn. split_bytes; unfold is_u8; lia.
    + intros [|]; done.
    + intros _. split; [done|]. left. vm_compute. discriminate.
    + intros [|]; done.
    + apply sb_wf_new; done.
  - split; [exact demo_local_ok|exact demo_remote_ok|done|done|apply Reno.new_ok; done
            |exact Rtt.rtt_new_wf|done..].
  - intros _ _. done.
  - done.
  - done.
Qed.

Definition demo_cc_new (_ : CcKind) (m : Z) : Reno.Reno := Reno.new m.
Lemma demo_cc_new_ok k m : 0 < m <= U16_MAX -> cc_ok m (demo_cc_new k m).
Proof. intros. by apply Reno.new_ok. Qed.
