(* ===== verification/TcbInbound.v ===== *)
(** What [Tcb::on_segment] guarantees: the theorems about arriving segments. *)

From S2P Require Import Prelude Seq Time Buffers Rtt Checksum Ipv4 TcpWire Sack Reasm Congestion Endpoint Tcb TcbInv TcbRecv TcbSegment TcbDemo.
Import RingBuffer (RingBuffer, mkRing, buf, capacity).

Section inbound.
Context {C : Type} `{CC : CongestionControl C} {CL : CongestionLaws C}.
Context (Cc_new : CcKind -> Z -> C).
Context (Cc_new_ok : forall k m, 0 < m <= U16_MAX -> cc_ok m (Cc_new k m)).

(** C2 — safety.  No segment can panic a connection: in every state of the
    invariant and for every segment that parses, inside the window or not, if only
    it does not begin 2^30 octets ahead, [on_segment] returns and the invariant holds again: both
    rings within capacity, SND.UNA, SND.NXT and the FIN consistent with the bytes
    queued, scoreboard and reassembly well formed, receive occupancy within the
    budget, the timer armed while anything is outstanding. *)
Theorem segment_never_panics (self : Tcb C) now tcp x ce :
  tcb_ok self -> reads tcp x -> honest self x ->
  exists self', on_segment Cc_new self now tcp ce = Some self' /\ tcb_ok self'.
Proof. intros. by apply (on_segment_core Cc_new Cc_new_ok self now tcp x ce). Qed.

Lemma with_ts_same (self : Tcb C) x :
  with_ts self x = self \/ exists v, with_ts self x = self <| ts_recent := v |>.
Proof. unfold with_ts. destruct (seg_ts self x) as [[v e]|]; [|by left]. case_ifs; eauto. Qed.

Lemma challenge_ack_kept (self : Tcb C) now :
  snd_view (challenge_ack self now) = snd_view self /\
  rcv_view (challenge_ack self now) = rcv_view self /\
  conn_view (challenge_ack self now) = conn_view self /\
  state (challenge_ack self now) = state self /\ reset (challenge_ack self now) = reset self /\
  challenge_count (challenge_ack self now) <= Z.max CHALLENGE_ACK_LIMIT (challenge_count self).
Proof. unfold challenge_ack, CHALLENGE_ACK_LIMIT. case_ifs; split_and!; try done; cbn in *; lia. Qed.

(** The processed branch of [on_segment], with its facts. *)
Lemma process_branch (self : Tcb C) now tcp x ce :
  tcb_ok self -> reads tcp x -> honest self x -> state self <> SynSent -> verdict self x = VProcess ->
  exists self', on_segment Cc_new self now tcp ce = Some self' /\ tcb_ok self' /\
  if negb (seq_gt (a_ack x) (snd_nxt self)) &&
     (negb (state_eqb (state self) SynReceived) || seq_gt (a_ack x) (snd_una self))
  then processed self x self'
  else rcv_view self' = rcv_view self /\ snd_una self' = snd_una self /\ tx self' = tx self /\
    snd_nxt self' = snd_nxt self /\ reset self' = reset self /\ conn_view self' = conn_view self /\
    fin_seq self' = fin_seq self /\
    state self' = if state_eqb (state self) SynReceived then Closed else state self.
Proof.
  intros Hok Hx [Hw _] Hst Hv. rewrite (on_segment_verdict Cc_new self now tcp x ce Hx Hst), Hv.
  assert (Hacc : segment_acceptable self (a_seq x) (seg_len x) = true).
  { unfold verdict in Hv. case_ifs_in Hv; try done. by apply negb_false_iff. }
  pose proof (acceptable_reaches self tcp x Hok Hx (Hw Hst) Hacc) as Hre. clear Hw Hacc. rename Hre into Hw. pose proof (with_ts_ok self tcp x Hok Hx) as Hok1.
  destruct (with_ts_same self x) as [E|[v E]]; rewrite E in *; clear E.
  - by apply process_ok.
  - destruct (process_ok (self <| ts_recent := v |>) now tcp x ce (seg_ts self x) Hok1 Hx Hst Hw)
      as (self' & E & Hok' & Hres). exists self'. split; [exact E|]. split; [done|].
    match type of Hres with if ?b then _ else _ => change b with
      (negb (seq_gt (a_ack x) (snd_nxt self)) &&
       (negb (state_eqb (state self) SynReceived) || seq_gt (a_ack x) (snd_una self))) in Hres end.
    destruct (_ && _); [|exact Hres]. destruct Hres. split; assumption.
Qed.



(** What a segment does to the send side, and to what the receive side
    remembers. *)
Record heard (self : Tcb C) (x : Arrived) (self' : Tcb C) : Prop := {
  hd_una : exists k, 0 <= k <= off (snd_una self) (snd_nxt self) /\
    snd_una self' = seq_add (snd_una self) k /\ buf (tx self') = zdrop k (buf (tx self)) /\
    (0 < k -> TcpFlags.ack (a_flags x) = true /\ a_ack x = snd_una self');
  hd_fin : fin_seq self' = fin_seq self;
  hd_nxt : snd_nxt self' = snd_nxt self \/ state self = SynReceived /\ snd_nxt self' = iss self;
  hd_adv : rcv_adv self' = rcv_adv self;
  hd_rcv : rcv_view self' = rcv_view self \/ segment_acceptable self (a_seq x) (seg_len x) = true;
  hd_state : state self' <> SynSent;
  hd_closed : state self = Closed -> state self' = Closed;
  (* the handshake completes only by an acknowledgement *)
  hd_opening : state self = SynReceived -> snd_una self' = snd_una self ->
    state self' = SynReceived \/ state self' = Closed;
  hd_pend : forall p, pending_fin self' = Some p -> pending_fin self = Some p \/
    TcpFlags.fin (a_flags x) = true /\ p = seq_add (a_seq x) (wrap32 (zlen (a_body x)));
}.

Lemma heard_still (self self' : Tcb C) x :
  tcb_ok self -> state self <> SynSent ->
  snd_una self' = snd_una self -> tx self' = tx self -> fin_seq self' = fin_seq self ->
  snd_nxt self' = snd_nxt self \/ state self = SynReceived /\ snd_nxt self' = iss self ->
  rcv_view self' = rcv_view self -> state self' = state self \/ state self' = Closed ->
  heard self x self'.
Proof.
  intros Hok Hst Eu Et Ef En Er Es. unfold rcv_view in Er. pose proof (si_una _ _ _ _ _ _ _ _ _ (ok_snd _ Hok)) as Hu.
  pose proof (off_range (snd_una self) (snd_nxt self)). split; try done.
  - exists 0. rewrite Eu, Et, seq_add_0, zdrop_0 by done. split_and!; done || lia.
  - congruence.
  - by left.
  - destruct Es as [->| ->]; done.
  - destruct Es as [->| ->]; done.
  - intros E _. destruct Es as [->| ->]; [by left|by right].
  - assert (pending_fin self' = pending_fin self) as -> by congruence. by left.
Qed.

Lemma segment_heard (self : Tcb C) now tcp x ce :
  tcb_ok self -> reads tcp x -> honest self x -> state self <> SynSent ->
  exists self', on_segment Cc_new self now tcp ce = Some self' /\ heard self x self'.
Proof.
  intros Hok Hx Hh Hst. pose proof (ok_snd _ Hok) as Hsnd.
  destruct (verdict self x) eqn:Hv.
  7: { destruct (process_branch self now tcp x ce Hok Hx Hh Hst Hv) as (self' & -> & _ & Hres).
       exists self'. split; [done|]. destruct (_ && _) eqn:Hgo.
       2: { destruct Hres as (Hr & E1 & E2 & E3 & _ & _ & E4 & E5).
            apply heard_still; try done; [by left|]. rewrite E5. by case_ifs; [right|left]. }
       pose proof (ps_una _ _ _ Hres) as Hu. destruct (rd_ack _ _ Hx) as [_ Ha].
       assert (Hack : TcpFlags.ack (a_flags x) = true).
       { unfold verdict in Hv. case_ifs_in Hv; try done. by apply negb_false_iff. }
       assert (Hacc : segment_acceptable self (a_seq x) (seg_len x) = true).
       { unfold verdict in Hv. case_ifs_in Hv; try done. by apply negb_false_iff. }
       split; try (by apply Hres); [|left; by apply Hres|by right|..].
       - destruct (seq_gt (a_ack x) (snd_una self)).
         + destruct Hu as (Hk & E1 & E2). exists (off (snd_una self) (a_ack x)). split; [lia|].
           split; [rewrite E1; symmetry; apply seq_add_off; [apply Hsnd|done]|]. split; [|by rewrite E1].
           rewrite E2. unfold RingBuffer.consume, RingBuffer.len. cbn.
           pose proof (zlen_nonneg (buf (tx self))).
           destruct (Z.le_gt_cases (off (snd_una self) (a_ack x)) (zlen (buf (tx self)))).
           * f_equal. lia.
           * rewrite !zdrop_all by lia. done.
         + destruct Hu as [E1 E2]. exists 0. pose proof (off_range (snd_una self) (snd_nxt self)).
           rewrite E1, E2, seq_add_0, zdrop_0 by (done || apply Hsnd). split_and!; done || lia.
       - rewrite (ps_state _ _ _ Hres). unfold after_ack, state_eqb.
         case_bool_decide; [by destruct (fin_acked self'), (peer_fin_seen self')|].
         by destruct (state self), (fin_acked self'), (peer_fin_seen self').
       - intros E. rewrite (ps_state _ _ _ Hres), E. done.
       - intros E Eu. exfalso. unfold state_eqb in *. rewrite bool_decide_true in * by done.
         destruct (seq_gt (a_ack x) (snd_una self)); [|by rewrite andb_false_r in *].
         destruct Hu as (Hk & E1 & _). rewrite <- E1, Eu, off_self in Hk. lia. }
  all: rewrite (on_segment_verdict Cc_new self now tcp x ce Hx Hst), Hv; eexists; (split; [done|]).
  - unfold challenge_ack. case_ifs; apply heard_still; try done; first [by left|by right].
  - apply heard_still; try done; by left.
  - unfold state_eqb. case_bool_decide; cbn [andb]; unfold challenge_ack; case_ifs;
      apply heard_still; try done; first [by left|by right].
  - apply heard_still; try done; by left.
  - apply heard_still; try done; by left.
  - destruct (with_ts_same self x) as [->|[v ->]]; apply heard_still; try done; by left.
Qed.

(** C4 — safety.  An acknowledgement frees exactly the octets it covers.  Whatever
    the segment, SND.UNA moves forward by some [k] that was in flight, to the
    segment's ACK number when [k] is not zero, and the send queue loses exactly its
    first [k] bytes (fewer only when the SYN or the FIN is among the [k]): the
    queue's front stays the byte at SND.UNA. *)
Theorem ack_frees_only_acked (self : Tcb C) now tcp x ce :
  tcb_ok self -> reads tcp x -> honest self x -> state self <> SynSent ->
  exists self' k, on_segment Cc_new self now tcp ce = Some self' /\
    0 <= k <= off (snd_una self) (snd_nxt self) /\ snd_una self' = seq_add (snd_una self) k /\
    buf (tx self') = zdrop k (buf (tx self)) /\
    (0 < k -> TcpFlags.ack (a_flags x) = true /\ a_ack x = snd_una self').
Proof.
  intros Hok Hx Hh Hst. destruct (segment_heard self now tcp x ce Hok Hx Hh Hst) as (self' & E & Hhd).
  destruct (hd_una _ _ _ Hhd) as (k & ?). by exists self', k.
Qed.

(** What the receive side of a connection may learn from a segment. *)
Lemma receive_effect (self : Tcb C) now tcp x ce :
  tcb_ok self -> reads tcp x -> honest self x -> state self <> SynSent ->
  exists self' new nxt2, on_segment Cc_new self now tcp ce = Some self' /\ tcb_ok self' /\
    nxt2 = seq_add (rcv_nxt self) (zlen new) /\ buf (rx self') = buf (rx self) ++ new /\
    (forall i b, at_ new i = Some b -> carried (rcv_nxt self) (a_seq x) (a_body x) i = Some b \/
       content (rcv_nxt self) (runs (reasm self)) i = Some b) /\
    (forall i b, 0 <= i -> content nxt2 (runs (reasm self')) i = Some b ->
       carried (rcv_nxt self) (a_seq x) (a_body x) (i + zlen new) = Some b \/
       content (rcv_nxt self) (runs (reasm self)) (i + zlen new) = Some b) /\
    (if peer_fin_seen self' && negb (peer_fin_seen self) then
      rcv_nxt self' = seq_add nxt2 1 /\
      (TcpFlags.fin (a_flags x) = true /\
         seq_add (a_seq x) (wrap32 (zlen (a_body x))) = nxt2 \/ pending_fin self = Some nxt2)
    else rcv_nxt self' = nxt2 /\ peer_fin_seen self' = peer_fin_seen self).
Proof.
  intros Hok Hx Hh Hst.
  assert (Hsame : forall self' : Tcb C, on_segment Cc_new self now tcp ce = Some self' ->
    rcv_view self' = rcv_view self -> exists self' new nxt2,
    on_segment Cc_new self now tcp ce = Some self' /\ tcb_ok self' /\
    nxt2 = seq_add (rcv_nxt self) (zlen new) /\ buf (rx self') = buf (rx self) ++ new /\
    (forall i b, at_ new i = Some b -> carried (rcv_nxt self) (a_seq x) (a_body x) i = Some b \/
       content (rcv_nxt self) (runs (reasm self)) i = Some b) /\
    (forall i b, 0 <= i -> content nxt2 (runs (reasm self')) i = Some b ->
       carried (rcv_nxt self) (a_seq x) (a_body x) (i + zlen new) = Some b \/
       content (rcv_nxt self) (runs (reasm self)) (i + zlen new) = Some b) /\
    (if peer_fin_seen self' && negb (peer_fin_seen self) then
      rcv_nxt self' = seq_add nxt2 1 /\
      (TcpFlags.fin (a_flags x) = true /\
         seq_add (a_seq x) (wrap32 (zlen (a_body x))) = nxt2 \/ pending_fin self = Some nxt2)
    else rcv_nxt self' = nxt2 /\ peer_fin_seen self' = peer_fin_seen self)).
  { intros self' E Hv. destruct (on_segment_core Cc_new Cc_new_ok self now tcp x ce Hok Hx Hh) as (s & E' & Hok').
    rewrite E in E'. apply (inj Some) in E'. subst s. unfold rcv_view in Hv.
    assert (rcv_nxt self' = rcv_nxt self /\ rx self' = rx self /\ reasm self' = reasm self /\
      peer_fin_seen self' = peer_fin_seen self) as (E1 & E2 & E3 & E4) by (split_and!; congruence).
    exists self', [], (rcv_nxt self). rewrite E1, E2, E3, E4, app_nil_r.
    change (zlen (@nil Z)) with 0. rewrite seq_add_0 by apply Hok.
    split_and!; try done.
    - intros i b. by rewrite at_nil.
    - intros i b _. rewrite Z.add_0_r. by right.
    - by destruct (peer_fin_seen self). }
  destruct (verdict self x) eqn:Hv.
  7: { destruct (process_branch self now tcp x ce Hok Hx Hh Hst Hv) as (self' & E & Hok' & Hres).
       match type of Hres with if ?b then _ else _ => destruct b end;
         [|by apply (Hsame self' E), Hres].
       destruct (ps_recv _ _ _ Hres) as (new & io & nxt2 & Hb & Hacc & Hf).
       exists self', new, nxt2. destruct Hacc as [-> Hn Hk _ _ _ _ _]. by split_and!. }
  all: rewrite (on_segment_verdict Cc_new self now tcp x ce Hx Hst), Hv in Hsame |- *.
  all: eapply Hsame; [done|].
  all: unfold challenge_ack; try (destruct (with_ts_same self x) as [->|[v ->]]); case_ifs; reflexivity.
Qed.

(** A byte list read off a stream. *)
Lemma list_is_stream (S : Z -> Z) P (l : list Z) :
  (forall i b, at_ l i = Some b -> b = S (P + i)) -> l = map S (seqZ P (zlen l)).
Proof.
  intros H. apply list_eq. intros i. change (map S) with (fmap (M := list) S).
  rewrite list_lookup_fmap. destruct (Nat.lt_ge_cases i (length l)) as [Hi|Hi].
  - rewrite lookup_seqZ_lt by (unfold zlen; lia). cbn.
    destruct (lookup_lt_is_Some_2 l i Hi) as [b Hb]. rewrite Hb. f_equal.
    apply H. rewrite at_lookup, Nat2Z.id by lia. done.
  - rewrite lookup_seqZ_ge by (unfold zlen; lia). by apply lookup_ge_None.
Qed.

(** Reading a buffer from a base one octet lower. *)
Lemma content_below base lo rs x :
  runs_ok (seq_add base 1) lo rs ->
  content base rs (x + 1) = content (seq_add base 1) rs x.
Proof.
  revert lo. induction rs as [|r rest IH]; intros lo Hr; [done|]. destruct Hr as (Hok & _ & Hrest).
  cbn [content]. rewrite (IH _ Hrest). destruct Hok as (Hs & _ & He).
  assert (E : s_off base r = s_off (seq_add base 1) r + 1).
  { pose proof (zlen_nonneg (data r)). unfold e_off, s_off, off, offset_from, seq_add, seq_ok in *. width. }
  unfold e_off. rewrite E.
  replace (s_off (seq_add base 1) r + 1 <=? x + 1) with (s_off (seq_add base 1) r <=? x) by lia.
  replace (x + 1 <? s_off (seq_add base 1) r + 1 + zlen (data r))
    with (x <? s_off (seq_add base 1) r + zlen (data r)) by lia.
  replace (x + 1 - (s_off (seq_add base 1) r + 1)) with (x - s_off (seq_add base 1) r) by lia. done.
Qed.

(** The receive pool's budget. *)
Lemma occupancy (self : Tcb C) :
  tcb_ok self -> RingBuffer.len (rx self) + buffered (reasm self) <= RX_BUFFER.
Proof.
  intros Hok. destruct (ok_rcv _ Hok) as [_ _ _ _ Hbud Hwf Hin _]. destruct Hwf as [_ Hr Hb _].
  pose proof (total_le (rcv_nxt self) (runs (reasm self)) 0 _ Hr Hin) as Ht.
  unfold buffered. rewrite Hb. lia.
Qed.

(** C3 — safety.  What the application reads is what the peer sent.  Fix the peer's
    byte stream [S], [P] the position of RCV.NXT in it.  If the octets buffered out
    of order and the octets of this segment are the stream's at their positions,
    then the segment appends to the receive queue exactly the next [n] bytes of the
    stream (none skipped, repeated or reordered, whatever was lost, duplicated or
    overlapping), RCV.NXT advances by [n] (and one for the peer's FIN), what stays
    buffered is still the stream's, and the receive pool stays within its budget. *)
Theorem received_bytes_are_the_stream (S : Z -> Z) P (self : Tcb C) now tcp x ce :
  tcb_ok self -> reads tcp x -> honest self x -> state self <> SynSent ->
  (forall i b, 0 <= i -> content (rcv_nxt self) (runs (reasm self)) i = Some b -> b = S (P + i)) ->
  (forall i b, 0 <= i -> carried (rcv_nxt self) (a_seq x) (a_body x) i = Some b -> b = S (P + i)) ->
  exists self' n, on_segment Cc_new self now tcp ce = Some self' /\ 0 <= n /\
    buf (rx self') = buf (rx self) ++ map S (seqZ P n) /\
    let fin := Z.b2z (peer_fin_seen self' && negb (peer_fin_seen self)) in
    rcv_nxt self' = seq_add (rcv_nxt self) (n + fin) /\
    (forall i b, 0 <= i -> content (rcv_nxt self') (runs (reasm self')) i = Some b ->
       b = S (P + n + fin + i)) /\
    RingBuffer.len (rx self') + buffered (reasm self') <= RX_BUFFER.
Proof.
  intros Hok Hx Hh Hst Hc Hs.
  destruct (receive_effect self now tcp x ce Hok Hx Hh Hst)
    as (self' & new & nxt2 & E & Hok' & En & Hb & Hnew & Hkept & Hfin).
  pose proof (zlen_nonneg new) as Hz.
  exists self', (zlen new). split; [done|]. split; [done|]. split.
  { rewrite Hb. f_equal. apply list_is_stream. intros i b Hi. pose proof (at_range _ _ _ Hi).
    destruct (Hnew i b Hi); [apply Hs|apply Hc]; done || lia. }
  assert (Hk2 : forall i b, 0 <= i -> content nxt2 (runs (reasm self')) i = Some b ->
    b = S (P + zlen new + i)).
  { intros i b Hi Hcon. replace (P + zlen new + i) with (P + (i + zlen new)) by lia.
    destruct (Hkept i b Hi Hcon); [apply Hs|apply Hc]; done || lia. }
  cbv zeta. split; [|split; [|by apply occupancy]].
  - destruct (_ && _); destruct Hfin as [-> _]; subst nxt2; cbn [Z.b2z].
    + by rewrite seq_add_add.
    + by rewrite Z.add_0_r.
  - destruct (_ && _); destruct Hfin as [E' _]; rewrite E'; cbn [Z.b2z]; intros i b Hi Hcon.
    + destruct (ok_rcv _ Hok') as [_ _ _ _ _ [_ Hr _ _] _ _]. rewrite E' in Hr.
      rewrite <- (content_below _ _ _ _ Hr) in Hcon.
      rewrite (Hk2 (i + 1) b) by (done || lia). f_equal. lia.
    + rewrite (Hk2 i b) by done. f_equal. lia.
Qed.

(** C5 — liveness.  Nothing deliverable is withheld.  A segment that passes the
    checks, reaches RCV.NXT and fits the free receive space is delivered whole,
    whether or not it was preceded by old bytes, with every out-of-order byte it made contiguous: afterwards the octet
    at RCV.NXT is not buffered. *)
Theorem in_order_segment_is_delivered (self : Tcb C) now tcp x ce :
  tcb_ok self -> reads tcp x -> honest self x -> state self <> SynSent ->
  verdict self x = VProcess -> seq_gt (a_ack x) (snd_nxt self) = false ->
  (state self = SynReceived -> seq_gt (a_ack x) (snd_una self) = true) ->
  distance (a_seq x) (rcv_nxt self) <= 0 < distance (a_seq x) (rcv_nxt self) + zlen (a_body x) ->
  distance (a_seq x) (rcv_nxt self) + zlen (a_body x) <= RX_BUFFER - RingBuffer.len (rx self) ->
  peer_fin_seen self = false ->
  exists self' new, on_segment Cc_new self now tcp ce = Some self' /\
    buf (rx self') = buf (rx self) ++ new /\
    distance (a_seq x) (rcv_nxt self) + zlen (a_body x) <= zlen new /\
    (peer_fin_seen self' = false -> rcv_nxt self' = seq_add (rcv_nxt self) (zlen new) /\
       content (rcv_nxt self') (runs (reasm self')) 0 = None).
Proof.
  intros Hok Hx Hh Hst Hv Hgt Hsr Hd Hroom Hf.
  destruct (process_branch self now tcp x ce Hok Hx Hh Hst Hv) as (self' & E & Hok' & Hres).
  rewrite Hgt in Hres. cbn [negb andb] in Hres.
  assert (Hg : negb (state_eqb (state self) SynReceived) || seq_gt (a_ack x) (snd_una self) = true).
  { unfold state_eqb. case_bool_decide; [by rewrite Hsr|done]. }
  rewrite Hg in Hres. destruct (ps_recv _ _ _ Hres) as (new & io & nxt2 & Hb & Hacc & Hfin).
  destruct Hacc as [En Hn Hk Hio Hnl Hdel _ Hgap].
  assert (io = true) as -> by (rewrite Hio; lia).
  exists self', new. split; [done|]. split; [done|]. split; [specialize (Hdel eq_refl); lia|].
  intros Hf'. rewrite Hf' in Hfin. cbn [andb] in Hfin. destruct Hfin as [E1 _].
  rewrite E1. split; [done|by apply Hgap].
Qed.

End inbound.

(** *** Instances *)

Lemma segment_never_panics_witness :
  exists self', on_segment demo_cc_new demo_tcb 5 (plain 1000 0 0x10 500 [50; 51; 52]) false = Some self' /\
    tcb_ok self' /\ buf (rx self') = [1; 2; 50; 51; 52; 53; 54; 55; 56; 57].
Proof.
  destruct (segment_never_panics demo_cc_new demo_cc_new_ok demo_tcb 5
    (plain 1000 0 0x10 500 [50; 51; 52]) (plain_arrived 1000 0 0x10 500 [50; 51; 52]) false)
    as (self' & E & Hok).
  - exact demo_tcb_ok.
  - apply plain_reads; try (unfold is_u32, is_u16, is_u8; lia); [|done].
    split_bytes; unfold is_u8; lia.
  - split; [|done]. intros _. reflexivity.
  - exists self'. split; [exact E|]. split; [exact Hok|].
    vm_compute in E. injection E as <-. reflexivity.
Defined.



Lemma demo_segment_reads body : bytes_ok body -> zlen body <= 1460 ->
  reads (plain 1000 4294967295 0x10 500 body) (plain_arrived 1000 4294967295 0x10 500 body).
Proof. intros. apply plain_reads; try (unfold is_u32, is_u16, is_u8; lia); done || lia. Qed.

Lemma ack_frees_only_acked_witness :
  exists self' k, on_segment demo_cc_new demo_tcb 5 (plain 1000 4294967295 0x10 500 []) false = Some self' /\
    snd_una self' = seq_add 4294967293 k /\ buf (tx self') = zdrop k [10; 11; 12; 13; 14] /\
    snd_una self' = 4294967295.
Proof.
  destruct (ack_frees_only_acked demo_cc_new demo_tcb 5 (plain 1000 4294967295 0x10 500 [])
    (plain_arrived 1000 4294967295 0x10 500 []) false) as (self' & k & E & _ & H1 & H2 & _).
  - exact demo_tcb_ok.
  - apply demo_segment_reads; [split_bytes|done].
  - split; [|done]. intros _. reflexivity.
  - done.
  - exists self', k. split; [exact E|]. split; [exact H1|]. split; [exact H2|].
    vm_compute in E. injection E as <-. reflexivity.
Defined.

(** The stream 50, 51, 52, ... with the demo's buffered octets at positions 3 to 7. *)
Lemma received_bytes_are_the_stream_witness :
  exists self' n, on_segment demo_cc_new demo_tcb 5 (plain 1000 4294967295 0x10 500 [50; 51; 52]) false = Some self' /\
    buf (rx self') = [1; 2] ++ map (fun p => p) (seqZ 50 n) /\ rcv_nxt self' = 1008.
Proof.
  destruct (received_bytes_are_the_stream demo_cc_new demo_cc_new_ok (fun p => p) 50 demo_tcb 5
    (plain 1000 4294967295 0x10 500 [50; 51; 52])
    (plain_arrived 1000 4294967295 0x10 500 [50; 51; 52]) false) as (self' & n & E & _ & H & _).
  - exact demo_tcb_ok.
  - apply demo_segment_reads; [split_bytes; unfold is_u8; lia|done].
  - split; [|done]. intros _. reflexivity.
  - done.
  - intros i b Hi Hc. cbn [rcv_nxt demo_tcb reasm runs] in Hc. cbn [content] in Hc.
    change (s_off 1000 (mkSeg 1003 [53; 54; 55; 56; 57] 1)) with 3 in Hc.
    change (e_off 1000 (mkSeg 1003 [53; 54; 55; 56; 57] 1)) with 8 in Hc.
    destruct (_ && _) eqn:Er; [|discriminate Hc].
    assert (i = 3 \/ i = 4 \/ i = 5 \/ i = 6 \/ i = 7) as [->|[->|[->|[->| ->]]]] by lia;
      vm_compute in Hc; injection Hc as <-; reflexivity.
  - intros i b Hi Hc. unfold carried in Hc. cbn [plain_arrived a_seq a_body rcv_nxt demo_tcb] in Hc.
    change (distance 1000 1000) with 0 in Hc. pose proof (at_range _ _ _ Hc) as Hr.
    change (zlen [50; 51; 52]) with 3 in Hr.
    assert (i = 0 \/ i = 1 \/ i = 2) as [->|[->| ->]] by lia;
      vm_compute in Hc; injection Hc as <-; reflexivity.
  - exists self', n. split; [exact E|]. split; [exact H|].
    vm_compute in E. injection E as <-. reflexivity.
Defined.

Lemma in_order_segment_is_delivered_witness :
  exists self' new, on_segment demo_cc_new demo_tcb 5 (plain 999 4294967295 0x10 500 [49; 50; 51; 52]) false
      = Some self' /\ buf (rx self') = [1; 2] ++ new /\ 3 <= zlen new /\ rcv_nxt self' = 1008.
Proof.
  destruct (in_order_segment_is_delivered demo_cc_new demo_tcb 5
    (plain 999 4294967295 0x10 500 [49; 50; 51; 52])
    (plain_arrived 999 4294967295 0x10 500 [49; 50; 51; 52]) false) as (self' & new & E & H1 & H2 & _).
  - exact demo_tcb_ok.
  - apply plain_reads; try (unfold is_u32, is_u16, is_u8; lia); [|done].
    split_bytes; unfold is_u8; lia.
  - split; [|done]. intros _. reflexivity.
  - done.
  - reflexivity.
  - reflexivity.
  - done.
  - vm_compute. split; [discriminate|reflexivity].
  - vm_compute. discriminate.
  - reflexivity.
  - exists self', new. split; [exact E|]. split; [exact H1|]. split; [exact H2|].
    vm_compute in E. injection E as <-. reflexivity.
Defined.

(** The exception [honest] makes.  Once in-order data has overrun the advertised
    edge (here by five octets), and until the next ACK moves it, a segment 2^31 - 1
    octets ahead passes both window comparisons and is kept for reassembly. *)
Example far_segment_after_overrun :
  (let self := demo_tcb <| rcv_adv := 1005 |> <| reasm := reasm_new |> in
   let? self := on_segment demo_cc_new self 5 (plain 1000 4294967295 0x10 500 (zrepeat 7 10)) false in
   let? self := on_segment demo_cc_new self 6 (plain (seq_add 1010 (2 ^ 31 - 1)) 4294967295 0x10 500 [9]) false in
   Some (rcv_nxt self, rcv_adv self, runs (reasm self))) =
  Some (1010, 1005, [mkSeg (seq_add 1010 (2 ^ 31 - 1)) [9] 1]).
Proof. vm_compute. reflexivity. Qed.

(** A stale window.  Both segments offer the same edge, 102 octets above 4294967293.  A
    retransmission of its (below SND.WL1) moves SND.UNA by two; an older segment,
    overtaken on the way, then sets SND.WND from before that: the edge the
    connection sends up to is two octets beyond the peer's. *)
Example stale_window_update :
  (let edge self := wrap32 (snd_una self + snd_wnd self) in
   let? self1 := on_segment demo_cc_new demo_tcb 5 (plain 998 4294967295 0x10 100 [8; 8; 8]) false in
   let? self2 := on_segment demo_cc_new self1 6 (plain 1001 4294967293 0x10 102 [9]) false in
   Some (snd_una self1, snd_una self2, snd_wnd self2, edge self2)) =
  Some (4294967295, 4294967295, 102, wrap32 (4294967293 + 102 + 2)).
Proof. vm_compute. reflexivity. Qed.
