(* ===== verification/TcbOut.v ===== *)
(** The outbound path: [Tcb::build] and [Tcb::poll_transmit] in
    [tcp-core/src/tcb.rs].  Every emission succeeds, carries what its caller asked
    for, respects the peer's segment size, and preserves the invariant. *)

From S2P Require Import Prelude Seq Time Buffers Rtt Checksum Ipv4 TcpWire Sack Reasm Congestion Endpoint Tcb TcbInv TcbRecv.
Import RingBuffer (RingBuffer, mkRing, buf, capacity).

(** *** The advertised window *)

Lemma distance_sub n x y :
  seq_ok n -> seq_ok x -> seq_ok y ->
  - 2 ^ 30 < distance x n < 2 ^ 30 -> - 2 ^ 30 < distance y n < 2 ^ 30 ->
  distance x y = distance x n - distance y n.
Proof.
  intros _ _ _. assert (E : wrap32 (x - y) = wrap32 (wrap32 (x - n) - wrap32 (y - n))).
  { unfold wrap32. rewrite <- Zminus_mod. f_equal. lia. }
  unfold distance, as_i32. rewrite E.
  pose proof (wrap32_range (x - n)) as Ha. pose proof (wrap32_range (y - n)) as Hb.
  generalize dependent (wrap32 (x - n)). generalize dependent (wrap32 (y - n)).
  unfold is_u32, wrap32. intros b Hb a _ Ha.
  destruct (a <? 2 ^ 31) eqn:E1, (b <? 2 ^ 31) eqn:E2; intros;
    destruct (_ mod _ <? 2 ^ 31) eqn:E3; zmod.
Qed.

Lemma distance_offset n x : seq_ok x -> 0 <= distance x n -> offset_from x n = distance x n.
Proof. unfold distance, offset_from, as_i32, seq_ok. intros. case_match; width. Qed.

Lemma distance_plus n k : seq_ok n -> 0 <= k < 2 ^ 31 -> distance (seq_add n k) n = k.
Proof. unfold distance, seq_add, seq_ok, as_i32. intros. case_match; width. Qed.

Section out.
Context {C : Type} `{CC : CongestionControl C} {CL : CongestionLaws C}.

Lemma max_window_bound (w : Z) : 0 <= w <= 14 -> 0xFFFF <= Z.shiftl 0xFFFF w.
Proof. intros. rewrite Z.shiftl_mul_pow2 by lia. pose proof (Z.pow_pos_nonneg 2 w). nia. Qed.

(** The window to advertise: the right edge never moves left, and what lies
    below it fits the receive pool. *)
Lemma advertised_window_ok (self : Tcb C) :
  tcb_ok self ->
  exists adv w, advertised_window self = (self <| rcv_adv := adv |>, w) /\
    tcb_ok (self <| rcv_adv := adv |>) /\
    0 <= distance adv (rcv_adv self) /\ w = distance adv (rcv_nxt self) /\ 0 <= w <= RX_BUFFER /\
    w = Z.max (distance (rcv_adv self) (rcv_nxt self))
          (Z.min (sat_sub RX_BUFFER (RingBuffer.len (rx self) + buffered (reasm self)))
                 (Z.shiftl 0xFFFF (rcv_wscale self))).
Proof.
  intros Hok. pose proof Hok as [Hrcv Hsnd Henv Htmr Hgap Hfresh].
  destruct Hrcv as [Hn Ha Hcap Hwin Hbud Hwf Hin Hns].
  pose proof (max_window_bound (rcv_wscale self) ltac:(apply Henv)) as Hmw.
  pose proof (zlen_nonneg (buf (rx self)) : 0 <= RingBuffer.len _) as Hr0.
  assert (Hb0 : 0 <= buffered (reasm self)).
  { unfold buffered. rewrite (rw_bytes _ _ _ Hwf). apply total_nonneg. }
  unfold advertised_window. cbv zeta.
  set (free := Z.min (sat_sub RX_BUFFER (RingBuffer.len (rx self) + buffered (reasm self)))
                     (Z.shiftl 0xFFFF (rcv_wscale self))).
  assert (Hfree : 0 <= free <= RX_BUFFER - RingBuffer.len (rx self))
    by (unfold free, sat_sub, RX_BUFFER in *; lia).
  set (cand := seq_add (rcv_nxt self) free).
  assert (Hcd : distance cand (rcv_nxt self) = free) by (apply distance_plus; [done|unfold RX_BUFFER in *; lia]).
  assert (Hroom : - (U16_MAX + 1) <= distance (rcv_adv self) (rcv_nxt self) <= RX_BUFFER)
    by (destruct (peer_fin_seen self); cbn [Z.b2z] in *; lia).
  assert (Hca : distance cand (rcv_adv self) = free - distance (rcv_adv self) (rcv_nxt self)).
  { rewrite (distance_sub (rcv_nxt self)); try done; try apply seq_add_ok; unfold RX_BUFFER in *; lia. }
  set (adv := if seq_lt cand (rcv_adv self) then rcv_adv self else cand).
  assert (Hadv : seq_ok adv /\ distance adv (rcv_nxt self)
      = Z.max (distance (rcv_adv self) (rcv_nxt self)) free /\ 0 <= distance adv (rcv_adv self)).
  { unfold adv, seq_lt. rewrite Hca. case_ifs; (split; [done || apply seq_add_ok|]).
    - split; [lia|]. unfold distance. rewrite Z.sub_diag. done.
    - split; [lia|]. lia. }
  destruct Hadv as (Hao & Had & Haa).
  exists adv, (offset_from adv (rcv_nxt self)). split; [done|].
  rewrite distance_offset by (done || lia).
  split; [|split_and!; try done; lia].
  split; try assumption.
  change (rcv_inv (rcv_nxt self) adv (rx self) (reasm self) (peer_fin_seen self) (sack_enabled self)).
  split; try done.
  - destruct (peer_fin_seen self); cbn [Z.b2z]; lia.
  - lia.
  - eapply List.Forall_impl; [|exact Hin]. cbn. intros r Hr. lia.
Qed.

(** *** The SACK option *)

Lemma push_all_ok bs : forall s,
  Forall (fun b => is_u32 b.1 /\ is_u32 b.2) bs ->
  zlen (blocks s) = MAX_SACK_BLOCKS -> Forall (fun b => is_u32 b.1 /\ is_u32 b.2) (blocks s) ->
  0 <= sack_len s -> sack_len s + zlen bs <= MAX_SACK_BLOCKS ->
  exists s', push_all bs s = Some s' /\ zlen (blocks s') = MAX_SACK_BLOCKS /\
    Forall (fun b => is_u32 b.1 /\ is_u32 b.2) (blocks s') /\ sack_len s' = sack_len s + zlen bs.
Proof.
  induction bs as [|[l r] bs IH]; intros s Hbs Hz Hok H0 Hle.
  { exists s. change (@zlen (Z * Z) []) with 0. split_and!; done || lia. }
  apply List.Forall_cons_iff in Hbs as [Hb Hbs]. rewrite zlen_cons in Hle. pose proof (zlen_nonneg bs).
  cbn [push_all]. unfold push. destruct (_ <? _) eqn:E; [|lia].
  unfold store. rewrite splice_Some by (change (zlen [(l, r)]) with 1; lia).
  destruct (IH (mkSackBlocks (ztake (sack_len s) (blocks s) ++ [(l, r)] ++
      zdrop (sack_len s + zlen [(l, r)]) (blocks s)) (sack_len s + 1)))
    as (s' & -> & H1 & H2 & H3); cbn [blocks sack_len]; try done; try lia.
  - rewrite !zlen_app, zlen_ztake, zlen_zdrop. change (zlen [(l, r)]) with 1. lia.
  - apply Forall_app. split; [by apply Forall_take|]. apply List.Forall_cons; [done|].
    by apply Forall_drop.
  - exists s'. cbn [sack_len] in H3. rewrite zlen_cons. split_and!; done || lia.
Qed.

Lemma report_ok base lo r n :
  reasm_wf base lo r -> Forall (fun b => is_u32 b.1 /\ is_u32 b.2) (report r n).
Proof.
  intros [_ Hr _ _]. unfold report. apply Forall_take. apply List.Forall_forall.
  intros b Hb. apply in_map_iff in Hb as (run & <- & Hrun). apply (proj1 (by_recency_perm _ _)) in Hrun.
  destruct (runs_ok_In base lo (runs r) run Hr Hrun) as [Hok _].
  destruct (run_end_off base run Hok) as [[He _] _]. destruct Hok as (Hs & _). by split.
Qed.

Lemma report_len r n : 0 <= n -> zlen (report r n) <= n.
Proof. intros. unfold report. rewrite zlen_ztake. lia. Qed.

(** *** One segment *)

(** The option bytes of a segment after the handshake. *)
Definition opt_len (self : Tcb C) : Z := 
  (if ts_enabled self then 12 else 0) +
  (if sack_enabled self && negb (reasm_is_empty (reasm self)) then
     let n := zlen (report (reasm self) MAX_SACK_BLOCKS) in
     let n := if ts_enabled self then Z.min n 3 else n in
     if 0 <? n then 4 + 8 * n else 0
   else 0).

Lemma max_segment_payload_opt (self : Tcb C) :
  max_segment_payload self = sat_sub (snd_mss self) (opt_len self) /\ 0 <= opt_len self <= 40.
Proof.
  unfold max_segment_payload, opt_len. cbv zeta.
  pose proof (report_len (reasm self) MAX_SACK_BLOCKS) as Hl. unfold MAX_SACK_BLOCKS in *.
  split; [f_equal; case_ifs; lia|]. case_ifs; lia.
Qed.

Lemma lor_u8 a b : is_u8 a -> is_u8 b -> is_u8 (Z.lor a b).
Proof.
  unfold is_u8. intros Ha Hb. split; [apply Z.lor_nonneg; lia|].
  destruct (Z.eq_dec (Z.lor a b) 0) as [->|Hne]; [lia|].
  assert (0 <= Z.lor a b) by (apply Z.lor_nonneg; lia).
  apply Z.log2_lt_pow2; [lia|]. rewrite Z.log2_lor by lia.
  destruct (Z.eq_dec a 0) as [->|], (Z.eq_dec b 0) as [->|]; cbn [Z.log2]; try (cbn; lia).
  - apply Z.max_lub_lt; [cbn; lia|]. apply Z.log2_lt_pow2; lia.
  - apply Z.max_lub_lt; [|cbn; lia]. apply Z.log2_lt_pow2; lia.
  - apply Z.max_lub_lt; apply Z.log2_lt_pow2; lia.
Qed.

(** The flag argument of every caller of [build]. *)
Definition caller_flag (f : Z) : Prop :=
  f = 0 \/ f = TcpFlags.PSH \/ f = TcpFlags.FIN \/ f = TcpFlags.SYN.

(** What [build_repr] describes. *)
Record built (self : Tcb C) (adv : SeqNumber) (s f : Z) (r : TcpRepr) : Prop := {
  bt_ok : tcp_repr_ok r;
  bt_src : t_src_port r = ep_port (local self);
  bt_dst : t_dst_port r = ep_port (remote self);
  bt_seq : t_seq r = s;
  bt_ack : t_ack r = rcv_nxt self;
  bt_flags : exists ace, t_flags r = Z.lor (Z.lor f TcpFlags.ACK) ace /\
    (ace = 0 \/ ace = 0x40 \/ ace = 0x80 \/ ace = 0xC0) /\
    (ecn_enabled self = false -> ace = 0);
  bt_syn : TcpFlags.syn (t_flags r) = (f =? TcpFlags.SYN);
  bt_mss : t_mss r <> Some 0;
  bt_window : t_window r = if f =? TcpFlags.SYN then Z.min (distance adv (rcv_nxt self)) 0xFFFF
    else Z.min (Z.shiftr (distance adv (rcv_nxt self)) (rcv_wscale self)) 0xFFFF;
  bt_header : header_len r <= (if f =? TcpFlags.SYN then 44 else 20 + opt_len self);
}.

Lemma build_repr_ok (self : Tcb C) s f :
  tcb_ok self -> is_u32 s -> caller_flag f ->
  exists adv r,
    let self1 := self <| delayed_ack_deadline := None |> <| unacked_segs := 0 |> <| rcv_adv := adv |> in
    build_repr self s f = Some (self1, r) /\ tcb_ok self1 /\ built self adv s f r /\
    0 <= distance adv (rcv_adv self).
Proof.
  intros Hok Hs Hf. unfold build_repr. cbv zeta.
  set (self0 := self <| delayed_ack_deadline := None |> <| unacked_segs := 0 |>).
  assert (Hok0 : tcb_ok self0) by tcb_frame Hok.
  destruct (advertised_window_ok self0 Hok0) as (adv & w & Ew & Hok1 & Hmono & Hw & Hwr & _).
  change (ecn_enabled self0) with (ecn_enabled self). change (accecn_cep self0) with (accecn_cep self).
  (* the flags *)
  assert (Hflags : exists ace ae, (if ecn_enabled self && (Z.land (Z.lor f TcpFlags.ACK) TcpFlags.SYN =? 0)
      then
        let ace := Z.land (accecn_cep self) 0x07 in
        let flag_bits :=
          if negb (Z.land ace 0x01 =? 0) then Z.lor (Z.lor f TcpFlags.ACK) TcpFlags.ECE
          else Z.lor f TcpFlags.ACK in
        let flag_bits :=
          if negb (Z.land ace 0x02 =? 0) then Z.lor flag_bits TcpFlags.CWR else flag_bits in
        (flag_bits, negb (Z.land ace 0x04 =? 0))
      else (Z.lor f TcpFlags.ACK, false)) = (Z.lor (Z.lor f TcpFlags.ACK) ace, ae) /\
    (ace = 0 \/ ace = 0x40 \/ ace = 0x80 \/ ace = 0xC0) /\ (ecn_enabled self = false -> ace = 0)).
  { destruct (ecn_enabled self && _) eqn:Ee; cbv zeta.
    - apply andb_true_iff in Ee as [Ee _]. rewrite Ee.
      destruct (negb (Z.land (Z.land _ 7) 1 =? 0)), (negb (Z.land (Z.land _ 7) 2 =? 0)).
      + exists 0xC0. rewrite <- Z.lor_assoc. eexists. split; [reflexivity|]. split; [tauto|done].
      + exists 0x40. eexists. split; [reflexivity|]. split; [tauto|done].
      + exists 0x80. eexists. split; [reflexivity|]. split; [tauto|done].
      + exists 0. rewrite Z.lor_0_r. eexists. split; [reflexivity|]. split; [tauto|done].
    - exists 0, false. rewrite Z.lor_0_r. by split_and!; [|left|]. }
  destruct Hflags as (ace & ae & Efl & Hace & Hecn). cbv zeta in Efl. rewrite Efl, Ew. cbv iota.
  set (fl := Z.lor (Z.lor f TcpFlags.ACK) ace).
  assert (Hfl : is_u8 fl /\ TcpFlags.syn fl = (f =? TcpFlags.SYN)).
  { unfold fl. destruct Hf as [->|[->|[->| ->]]], Hace as [->|[->|[->| ->]]]; split;
      first [reflexivity|vm_compute; split; [discriminate|reflexivity]]. }
  destruct Hfl as [Hfl8 Hsyn]. rewrite Hsyn.
  set (self1 := self0 <| rcv_adv := adv |>) in *.
  destruct Hok1 as [Hrcv Hsnd Henv Htmr Hgap Hfresh].
  assert (Hok1 : tcb_ok self1) by (split; assumption).
  set (syn := f =? TcpFlags.SYN) in *.
  (* the SACK blocks *)
  assert (Hsack : exists sk, (if sack_enabled self1 && negb syn && negb (reasm_is_empty (reasm self1))
      then push_all (report (reasm self1) MAX_SACK_BLOCKS) SackBlocks_default
      else Some SackBlocks_default) = Some sk /\
    zlen (blocks sk) = MAX_SACK_BLOCKS /\ Forall (fun b => is_u32 b.1 /\ is_u32 b.2) (blocks sk) /\
    sack_len sk = (if sack_enabled self && negb syn && negb (reasm_is_empty (reasm self))
                   then zlen (report (reasm self) MAX_SACK_BLOCKS) else 0) /\
    0 <= sack_len sk <= MAX_SACK_BLOCKS).
  { assert (Hdef : zlen (blocks SackBlocks_default) = MAX_SACK_BLOCKS /\
      Forall (fun b => is_u32 b.1 /\ is_u32 b.2) (blocks SackBlocks_default)).
    { split; [done|]. repeat apply List.Forall_cons; try apply List.Forall_nil; done. }
    change (sack_enabled self1) with (sack_enabled self). change (reasm self1) with (reasm self).
    pose proof (report_len (reasm self) MAX_SACK_BLOCKS ltac:(done)) as Hl.
    pose proof (zlen_nonneg (report (reasm self) MAX_SACK_BLOCKS)).
    destruct (_ && _ && _).
    - destruct (push_all_ok (report (reasm self) MAX_SACK_BLOCKS) SackBlocks_default)
        as (sk & -> & H1 & H2 & H3); [eapply report_ok, Hok|apply Hdef|apply Hdef|done|
          change (sack_len SackBlocks_default) with 0; lia|].
      change (sack_len SackBlocks_default) with 0 in H3. exists sk. split_and!; done || lia.
    - exists SackBlocks_default. split_and!; try done; apply Hdef. }
  destruct Hsack as (sk & -> & Hz & Hbl & Hlen & Hlr).
  eexists adv, _. split; [reflexivity|]. split; [exact Hok1|]. split; [|exact Hmono].
  change (rcv_nxt self0) with (rcv_nxt self) in *. change (rcv_wscale self1) with (rcv_wscale self).
  change (ts_enabled self1) with (ts_enabled self). change (window_scaling self1) with (window_scaling self).
  assert (Hopt : opt_len self = (if ts_enabled self then 12 else 0) +
    (let n := Z.min (if sack_enabled self && negb (reasm_is_empty (reasm self))
                     then zlen (report (reasm self) MAX_SACK_BLOCKS) else 0)
                    (if ts_enabled self then 3 else 4) in if 0 <? n then 4 + 8 * n else 0)).
  { unfold opt_len. pose proof (report_len (reasm self) MAX_SACK_BLOCKS ltac:(done)).
    unfold MAX_SACK_BLOCKS in *. cbv zeta. f_equal.
    destruct (sack_enabled self && negb (reasm_is_empty (reasm self)));
      [|destruct (ts_enabled self); reflexivity].
    destruct (ts_enabled self); [done|]. rewrite Z.min_l by lia. done. }
  match goal with |- built _ _ _ _ ?r => set (repr := r) end.
  assert (Hhead : header_len repr <= (if syn then 44 else 20 + opt_len self) /\
                  header_len repr <= TCP_MAX_HEADER_LEN).
  { unfold header_len, sack_blocks_to_emit, repr.
    cbn [t_mss t_sack_permitted t_window_scale t_timestamps t_sack].
    unfold TCP_MIN_HEADER_LEN, TCP_MAX_HEADER_LEN, MAX_SACK_BLOCKS in *.
    change (sack_enabled self1) with (sack_enabled self).
    rewrite Hopt. cbv zeta. clear -Hlr Hlen. clearbody syn.
    destruct syn; cbn [negb] in Hlen.
    - rewrite andb_false_r in Hlen. cbn [andb] in Hlen. rewrite Hlen. cbn [andb].
      destruct (sack_enabled self), (window_scaling self), (ts_enabled self); vm_compute; split; discriminate.
    - rewrite andb_true_r in Hlen. rewrite <- Hlen. cbn [andb is_some].
      destruct (ts_enabled self); cbn [is_some]; case_ifs; lia. }
  split; try done; try apply Hhead.
  - pose proof (ei_local _ _ _ _ _ _ _ _ _ _ _ _ Henv) as [_ Hlp].
    pose proof (ei_remote _ _ _ _ _ _ _ _ _ _ _ _ Henv) as [_ Hrp].
    split; unfold repr; cbn [t_src_port t_dst_port t_seq t_ack t_flags t_window t_mss t_sack
      t_window_scale t_timestamps]; try done.
    + apply (ri_nxt _ _ _ _ _ _ Hrcv).
    + destruct syn; [|pose proof (proj2 (Z.shiftr_nonneg w (rcv_wscale self)) ltac:(lia))];
        unfold is_u16; lia.
    + intros m Hm. destruct syn; [|discriminate]. injection Hm as <-.
      pose proof (ei_adv _ _ _ _ _ _ _ _ _ _ _ _ Henv). unfold MSS_DEFAULT, MSS_MAX, is_u16 in *.
      change (mss_advertise self1) with (mss_advertise self) in *. lia.
    + intros k Hk. destruct (syn && window_scaling self); [|discriminate].
      injection Hk as <-. apply (ei_rws _ _ _ _ _ _ _ _ _ _ _ _ Henv).
    + intros v e Hv. destruct (ts_enabled self); [|discriminate]. injection Hv as <- <-.
      split; [apply (ei_tsv _ _ _ _ _ _ _ _ _ _ _ _ Henv)|apply (ei_tsr _ _ _ _ _ _ _ _ _ _ _ _ Henv)].
    + apply Hhead.
  - by exists ace.
  - unfold repr. cbn [t_mss]. pose proof (ei_adv _ _ _ _ _ _ _ _ _ _ _ _ Henv).
    unfold MSS_DEFAULT in *. destruct syn; [|discriminate]. intros [= E].
    change (mss_advertise self1) with (mss_advertise self) in *. lia.
  - unfold repr. cbn [t_window]. by rewrite Hw.
Qed.

(** [build]: the frame carries the segment, whatever ECN marking it gets. *)
Lemma build_ok (self : Tcb C) s f dat :
  tcb_ok self -> is_u32 s -> caller_flag f -> bytes_ok dat ->
  (f = TcpFlags.SYN -> dat = []) -> zlen dat <= Z.max 1 (max_segment_payload self) ->
  exists adv r frame,
    let self1 := self <| delayed_ack_deadline := None |> <| unacked_segs := 0 |> <| rcv_adv := adv |> in
    build self s f dat = Some (self1, frame) /\ tcb_ok self1 /\ built self adv s f r /\
    0 <= distance adv (rcv_adv self) /\ frame_carries frame (local self) (remote self) r dat.
Proof.
  intros Hok Hs Hf Hd Hsyn Hmax.
  destruct (build_repr_ok self s f Hok Hs Hf) as (adv & r & Er & Hok1 & Hb & Hm).
  cbv zeta in Er, Hok1. unfold build. rewrite Er.
  set (self1 := self <| delayed_ack_deadline := None |> <| unacked_segs := 0 |> <| rcv_adv := adv |>) in *.
  change (local self1) with (local self). change (remote self1) with (remote self).
  change (ecn_enabled self1) with (ecn_enabled self).
  destruct (max_segment_payload_opt self) as [Emax Hopt].
  pose proof (ok_env _ Hok) as Henv. pose proof (ei_adv _ _ _ _ _ _ _ _ _ _ _ _ Henv) as Hadv.
  pose proof (ei_mss _ _ _ _ _ _ _ _ _ _ _ _ Henv) as Hmss. unfold MSS_DEFAULT, MSS_MAX in *.
  pose proof (bt_header _ _ _ _ _ Hb) as Hh. pose proof (tr_fits _ (bt_ok _ _ _ _ _ Hb)) as Hfit.
  unfold TCP_MAX_HEADER_LEN in Hfit.
  assert (Hsize : header_len r + zlen dat <= U16_MAX - Ipv4.HEADER_LEN).
  { change Ipv4.HEADER_LEN with 20. rewrite Emax in Hmax. unfold sat_sub in Hmax.
    destruct (f =? TcpFlags.SYN) eqn:E.
    - rewrite (Hsyn ltac:(lia)). change (zlen (@nil Z)) with 0. lia.
    - lia. }
  pose proof (ei_local _ _ _ _ _ _ _ _ _ _ _ _ Henv) as Hl.
  pose proof (ei_remote _ _ _ _ _ _ _ _ _ _ _ _ Henv) as Hr.
  pose proof (bt_ok _ _ _ _ _ Hb) as Hrok.
  destruct (build_segment_spec (local self) (remote self) r dat Hrok Hl Hr Hd
    (bt_src _ _ _ _ _ Hb) (bt_dst _ _ _ _ _ Hb) Hsize) as (frame & E1 & _ & _ & Efr).
  rewrite E1. exists adv, r. destruct (ecn_enabled self && (0 <? zlen dat)).
  - destruct (set_ecn_carries (local self) (remote self) r dat ECN_ECT1 frame ltac:(done) Hrok Hl Hr
      Hd Hsize Efr) as (frame' & -> & Hc).
    exists frame'. by split_and!.
  - exists frame. split_and!; try done. by apply frame_carries_core.
Qed.

End out.

(** *** Arming the retransmission timer *)

Section rtx.
Context {C : Type} `{CC : CongestionControl C} {CL : CongestionLaws C}.

Lemma arm_rtx_ok (self : Tcb C) d : tcb_ok self -> tcb_ok (self <| rtx_deadline := Some d |>).
Proof. intros []. by split. Qed.

Lemma start_rtx_eq (self : Tcb C) now :
  exists d, start_rtx self now = self <| rtx_deadline := Some d |>.
Proof.
  unfold start_rtx, restart_rtx. destruct (rtx_deadline self) as [d|] eqn:E; cbn [is_none]; [|by eexists].
  exists d. destruct self; cbn in *. by subst.
Qed.

End rtx.

Ltac start_rtx_step :=
  match goal with |- context [start_rtx ?s ?now] =>
    let d := fresh "d" in let E := fresh "Estart" in
    destruct (start_rtx_eq s now) as [d E]; rewrite E end.
