(* ===== verification/TcbTransmit.v ===== *)
(** The transmit path: [Tcb::poll_transmit] and [transmit_data_or_fin] in
    [tcp-core/src/tcb.rs], section by section.  Every section is total, keeps
    the invariant, and what it emits is described by [sent]: the octets of the
    stream at the number the segment claims, within the windows. *)

From S2P Require Import Prelude Seq Time Buffers Rtt Checksum Ipv4 TcpWire Sack Reasm Congestion Endpoint Tcb TcbInv TcbRecv TcbOut.
Import RingBuffer (RingBuffer, mkRing, buf, capacity).

(** The sequence space a segment occupies. *)
Definition span (r : TcpRepr) (dat : list Z) : Z :=
  zlen dat + Z.b2z (TcpFlags.syn (t_flags r)) + Z.b2z (TcpFlags.fin (t_flags r)).

Section transmit.
Context {C : Type} `{CC : CongestionControl C} {CL : CongestionLaws C}.

(** [dat] is what the application wrote at the segment's sequence number. *)
Record stream_segment (self : Tcb C) (r : TcpRepr) (dat : list Z) : Prop := {
  ss_pos : 0 < zlen dat <= Z.max 1 (max_segment_payload self);
  ss_in : off (snd_una self) (t_seq r) + zlen dat <= RingBuffer.len (tx self);
  ss_eq : dat = ztake (zlen dat) (zdrop (off (snd_una self) (t_seq r)) (buf (tx self)));
}.

(** What one emission says and does. *)
Record sent (self self' : Tcb C) (r : TcpRepr) (dat : list Z) : Prop := {
  se_stream : dat = [] \/ stream_segment self r dat;
  se_send : snd_una self' = snd_una self /\ tx self' = tx self;
  se_recv : rcv_nxt self' = rcv_nxt self /\ rx self' = rx self /\ reasm self' = reasm self;
  se_edge : 0 <= distance (rcv_adv self') (rcv_adv self);
  (* sequence numbers are consumed exactly by what is sent *)
  se_nxt : snd_nxt self' = snd_nxt self \/
    t_seq r = snd_nxt self /\ snd_nxt self' = seq_add (snd_nxt self) (span r dat);
  (* new data respects the congestion and the peer's window *)
  se_flow : dat <> [] -> snd_nxt self' <> snd_nxt self ->
    (exists p, pipe_estimate self = Some p /\ p + zlen dat <= cc_cwnd (cc self)) /\
    off (snd_una self) (snd_nxt self') <= snd_wnd self;
  (* the FIN follows the last byte *)
  se_fin : TcpFlags.fin (t_flags r) = true -> dat = [] /\ fin_acked self = false /\
    off (snd_una self) (t_seq r) = RingBuffer.len (tx self) /\ fin_seq self' = Some (t_seq r);
  (* a SYN carries the initial number and no data, and announces a segment size *)
  se_syn : TcpFlags.syn (t_flags r) = true -> dat = [] /\ t_seq r = iss self;
  se_mss : t_mss r <> Some 0;
  (* acknowledgement number and window *)
  se_ack : TcpFlags.ack (t_flags r) = true -> t_ack r = rcv_nxt self /\
    t_window r = if TcpFlags.syn (t_flags r) then Z.min (distance (rcv_adv self') (rcv_nxt self)) 0xFFFF
      else Z.min (Z.shiftr (distance (rcv_adv self') (rcv_nxt self)) (rcv_wscale self)) 0xFFFF;
}.

(** The outcome of a section: either nothing was sent and the state moved only
    in fields [sent] does not speak of, or a frame that carries a [sent] segment. *)
Definition out_view (self : Tcb C) :=
  (snd_view self, rcv_view self, conn_view self, cc self, snd_wnd self, state self,
   fin_queued self, pending_reset self, needs_ack self).

Definition outcome (self self' : Tcb C) (out : option (list Z)) : Prop :=
  match out with
  | None => out_view self' = out_view self
  | Some frame => exists r dat,
      frame_carries frame (local self) (remote self) r dat /\ sent self self' r dat
  end.

(** [sent] looks at its endpoints through the views only. *)
Lemma outcome_from (self self1 self' : Tcb C) out :
  out_view self1 = out_view self -> outcome self1 self' out -> outcome self self' out.
Proof.
  unfold outcome. intros Hv. destruct out as [frame|]; [|congruence].
  intros (r & dat & Hf & Hs). exists r, dat.
  unfold out_view, snd_view, rcv_view, conn_view in Hv.
  assert (snd_una self1 = snd_una self /\ snd_nxt self1 = snd_nxt self /\ tx self1 = tx self /\
    rcv_nxt self1 = rcv_nxt self /\ rx self1 = rx self /\ reasm self1 = reasm self /\
    rcv_adv self1 = rcv_adv self /\ snd_wnd self1 = snd_wnd self /\ cc self1 = cc self /\
    fin_acked self1 = fin_acked self /\ rcv_wscale self1 = rcv_wscale self /\
    local self1 = local self /\ remote self1 = remote self /\ ts_enabled self1 = ts_enabled self /\
    sack_enabled self1 = sack_enabled self /\ snd_mss self1 = snd_mss self /\
    scoreboard self1 = scoreboard self /\ iss self1 = iss self)
    as (E1 & E2 & E3 & E4 & E5 & E6 & E7 & E8 & E9 & E10 & E11 & E12 & E13 & E14 & E15 & E16 & E17 & E18)
    by (split_and!; congruence).
  assert (Hm : max_segment_payload self1 = max_segment_payload self)
    by (unfold max_segment_payload; by rewrite E14, E15, E16, E6).
  assert (Hp : pipe_estimate self1 = pipe_estimate self)
    by (unfold pipe_estimate; by rewrite E1, E2, E15, E16, E17).
  rewrite E12, E13 in Hf. split; [exact Hf|].
  destruct Hs as [Hst H1 H2 H3 H4 H5 H6 H6' H6'' H7].
  rewrite ?E1, ?E2, ?E3, ?E4, ?E5, ?E6, ?E7, ?E8, ?E9, ?E10, ?E11, ?E18, ?Hp in *.
  split; rewrite ?E1, ?E2, ?E3, ?E4, ?E5, ?E6, ?E7, ?E8, ?E9, ?E10, ?E11, ?E18, ?Hp; try assumption.
  destruct Hst as [->|[Ha Hb Hc]]; [by left|right].
  rewrite Hm in Ha. rewrite E1, E3 in *. by split.
Qed.

(** The flags of an emission. *)
Lemma built_flags (self : Tcb C) adv s f r :
  built self adv s f r -> caller_flag f ->
  TcpFlags.syn (t_flags r) = (f =? TcpFlags.SYN) /\ TcpFlags.fin (t_flags r) = (f =? TcpFlags.FIN) /\
  TcpFlags.ack (t_flags r) = true /\ TcpFlags.rst (t_flags r) = false.
Proof.
  intros Hb Hf. destruct (bt_flags _ _ _ _ _ Hb) as (ace & -> & Hace & _).
  destruct Hf as [->|[->|[->| ->]]], Hace as [->|[->|[->| ->]]]; by split_and!.
Qed.

(** The common form of an emission through [build]: the caller's next state
    [self'] agrees with [build]'s on what [sent] sees, except [SND.NXT]. *)
Lemma build_sent (self self' : Tcb C) adv s f r dat :
  built self adv s f r -> caller_flag f -> 0 <= distance adv (rcv_adv self) ->
  dat = [] \/ stream_segment self r dat ->
  snd_una self' = snd_una self -> tx self' = tx self -> rcv_nxt self' = rcv_nxt self ->
  rx self' = rx self -> reasm self' = reasm self -> rcv_adv self' = adv ->
  (snd_nxt self' = snd_nxt self \/
   s = snd_nxt self /\ snd_nxt self' = seq_add (snd_nxt self)
     (zlen dat + Z.b2z (f =? TcpFlags.SYN) + Z.b2z (f =? TcpFlags.FIN))) ->
  (dat <> [] -> snd_nxt self' <> snd_nxt self ->
    (exists p, pipe_estimate self = Some p /\ p + zlen dat <= cc_cwnd (cc self)) /\
    off (snd_una self) (snd_nxt self') <= snd_wnd self) ->
  (f = TcpFlags.FIN -> dat = [] /\ fin_acked self = false /\
    off (snd_una self) s = RingBuffer.len (tx self) /\ fin_seq self' = Some s) ->
  (f = TcpFlags.SYN -> dat = [] /\ s = iss self) ->
  sent self self' r dat.
Proof.
  intros Hb Hf Hm Hst H1 H2 H3 H4 H5 H6 Hn Hflow Hfin Hsyn.
  destruct (built_flags _ _ _ _ _ Hb Hf) as (Esyn & Efin & Eack & _).
  destruct Hb as [_ _ _ Es Ea _ _ Hmss Ew _]. split; try done.
  - by rewrite H6.
  - unfold span. rewrite Esyn, Efin, Es. exact Hn.
  - rewrite Efin, Es. intros E. apply Hfin. lia.
  - rewrite Esyn, Es. intros E. apply Hsyn. lia.
  - intros _. rewrite Esyn, H6. by split.
Qed.

(** A segment of stream data: [n] octets from sequence number [s]. *)
Lemma build_stream (self : Tcb C) s f n :
  tcb_ok self -> in_half (snd_una self) s -> 0 < n <= Z.max 1 (max_segment_payload self) ->
  off (snd_una self) s + n <= RingBuffer.len (tx self) -> f = 0 \/ f = TcpFlags.PSH ->
  let dat := RingBuffer.peek (tx self) (off (snd_una self) s) n in
  exists adv r frame,
    let self1 := self <| delayed_ack_deadline := None |> <| unacked_segs := 0 |> <| rcv_adv := adv |> in
    build self s f dat = Some (self1, frame) /\ tcb_ok self1 /\ built self adv s f r /\
    0 <= distance adv (rcv_adv self) /\ frame_carries frame (local self) (remote self) r dat /\
    zlen dat = n /\ stream_segment self r dat.
Proof.
  intros Hok [Hs _] Hn Hin Hf dat. pose proof (off_range (snd_una self) s) as Ho.
  assert (Hz : zlen dat = n).
  { unfold dat. rewrite RingBuffer.peek_spec, zlen_ztake, zlen_zdrop. unfold RingBuffer.len in *. lia. }
  assert (Hb : bytes_ok dat).
  { unfold dat. rewrite RingBuffer.peek_spec. apply Forall_take, bytes_ok_zdrop, (ok_snd _ Hok). }
  destruct (build_ok self s f dat Hok Hs) as (adv & r & frame & H1 & H2 & H3 & H4 & H5); try done.
  - destruct Hf; [left|right; left]; done.
  - by destruct Hf as [->| ->].
  - lia.
  - exists adv, r, frame. split_and!; try done. split; [lia| |]; rewrite (bt_seq _ _ _ _ _ H3).
    + lia.
    + rewrite Hz. unfold dat. apply RingBuffer.peek_spec.
Qed.

(** *** Step 0: retransmission of the oldest segment *)

(** States whose segments come from [transmit_data_or_fin]. *)
Definition sending_state (st : State) : bool :=
  match st with Established | CloseWait | FinWait1 | FinWait2 | Closing | LastAck => true | _ => false end.

(** A retransmission is due, and what answers it: the oldest unacknowledged
    octet, which is data or the FIN. *)
Record resend_due (self : Tcb C) : Prop := {
  rs_flag : retransmit self = true;
  rs_out : snd_una self <> snd_nxt self;
  rs_state : sending_state (state self) = true;
  rs_mss : 0 < max_segment_payload self;
}.
Definition oldest_resent (self : Tcb C) (frame : list Z) : Prop :=
  exists r dat, frame_carries frame (local self) (remote self) r dat /\
    t_seq r = snd_una self /\ (dat <> [] \/ TcpFlags.fin (t_flags r) = true).

(** What is outstanding but not data is the FIN. *)
Lemma outstanding_fin (self : Tcb C) :
  tcb_ok self -> sending_state (state self) = true -> snd_una self <> snd_nxt self ->
  RingBuffer.len (tx self) = 0 -> fin_seq self = Some (snd_una self) /\ fin_acked self = false.
Proof.
  intros Hok Hst Hne Hlen. pose proof (ok_snd _ Hok) as [_ Hu Hn _ _ _ _ Hfl Hfin _ _ _ _].
  assert (Hp : 0 < off (snd_una self) (snd_nxt self)).
  { pose proof (off_range (snd_una self) (snd_nxt self)).
    destruct (Z.eq_dec (off (snd_una self) (snd_nxt self)) 0) as [E|]; [|lia].
    destruct Hne. symmetry. apply off_0; [done|apply Hn|done]. }
  destruct (fin_seq self) as [f|].
  - destruct (Hfin f eq_refl) as [Hf Hc]. destruct (fin_acked self).
    + by destruct Hc as [E _].
    + destruct Hc as [Ho _]. split; [|done]. f_equal. apply off_0; try done. lia.
  - destruct (Hfl eq_refl) as [_ [?|(_ & _ & Hs)]]; [lia|]. by destruct Hs as [E|[E|E]]; rewrite E in Hst.
Qed.

Lemma retransmit_oldest_ok (self : Tcb C) now :
  tcb_ok self ->
  exists self' out,
    retransmit_oldest self now (offset_from (snd_nxt self) (snd_una self)) (max_segment_payload self)
      = Some (self', out) /\ tcb_ok self' /\ outcome self self' out /\ state self' = state self /\
    (forall frame, out = Some frame -> oldest_resent self frame) /\
    (resend_due self -> is_some out = true).
Proof.
  intros Hok. pose proof (ok_snd _ Hok) as Hsnd. pose proof (si_una _ _ _ _ _ _ _ _ _ Hsnd) as Hu.
  unfold retransmit_oldest. change (offset_from (snd_nxt self) (snd_una self)) with (off (snd_una self) (snd_nxt self)).
  set (fl := off (snd_una self) (snd_nxt self)).
  assert (Hfl : snd_una self <> snd_nxt self -> 0 < fl).
  { intros Hne. pose proof (off_range (snd_una self) (snd_nxt self)).
    destruct (Z.eq_dec fl 0) as [E|]; [|unfold fl in *; lia].
    destruct Hne. symmetry. apply off_0; [done|apply Hsnd|done]. }
  destruct (retransmit self && (0 <? fl)) eqn:E.
  2:{ exists self, None. split_and!; try done. intros [Hf Ho _ _]. specialize (Hfl Ho). rewrite Hf in E. cbn [andb] in E. lia. }
  cbv zeta. set (self1 := self <| retransmit := false |>).
  assert (Hok1 : tcb_ok self1) by tcb_frame Hok.
  change (RingBuffer.len (tx self1)) with (RingBuffer.len (tx self)).
  set (n := Z.min _ (max_segment_payload self)).
  destruct (0 <? n) eqn:En.
  - destruct (build_stream self1 (snd_una self1)
      (if n =? RingBuffer.len (tx self) then TcpFlags.PSH else 0) n Hok1)
      as (adv & r & frame & Eb & Hok2 & Hb & Hm & Hc & Hz & Hst).
    + by apply in_half_self.
    + change (max_segment_payload self1) with (max_segment_payload self). lia.
    + change (snd_una self1) with (snd_una self). change (tx self1) with (tx self).
      rewrite off_self. lia.
    + case_ifs; tauto.
    + rewrite off_self in *. cbv zeta in Eb, Hok2. change (tx self1) with (tx self) in *.
      rewrite Eb. start_rtx_step.
      eexists _, _. split; [reflexivity|]. split; [by apply arm_rtx_ok|]. split; [|split; [done|split; [|done]]].
      * apply (outcome_from self self1); [reflexivity|]. eexists r, _. split; [exact Hc|].
        eapply (build_sent _ _ adv _ _ _ _ Hb); try exact Hm; try reflexivity.
        -- unfold caller_flag. case_ifs; tauto.
        -- right. exact Hst.
        -- by left.
        -- done.
        -- case_ifs; discriminate.
        -- case_ifs; discriminate.
      * intros f [= <-]. eexists r, _. split; [exact Hc|]. split; [apply Hb|].
        left. intros E0. rewrite E0 in Hz. change (zlen (@nil Z)) with 0 in Hz. lia.
  - change (fin_seq self1) with (fin_seq self). change (fin_acked self1) with (fin_acked self).
    change (snd_una self1) with (snd_una self).
    assert (Hlen : resend_due self -> RingBuffer.len (tx self) = 0).
    { intros [_ Ho _ Hmp]. specialize (Hfl Ho). pose proof (zlen_nonneg (buf (tx self)) : 0 <= RingBuffer.len _). lia. }
    assert (Hdue : resend_due self -> fin_seq self = Some (snd_una self) /\ fin_acked self = false).
    { intros Hd. apply outstanding_fin; try apply Hd; auto. }
    assert (Hnone : (resend_due self -> False) ->
      exists self' out, Some (self1, @None (list Z)) = Some (self', out) /\ tcb_ok self' /\
      outcome self self' out /\ state self' = state self /\
      (forall frame, out = Some frame -> oldest_resent self frame) /\
      (resend_due self -> is_some out = true)) by (intros Hx; exists self1, None; split_and!; done).
    destruct (fin_seq self) as [fs|] eqn:Ef; [|apply Hnone; intros Hd; by destruct (Hdue Hd)].
    destruct (negb (fin_acked self) && (snd_una self =? fs)) eqn:Ea.
    2:{ apply Hnone. intros Hd. destruct (Hdue Hd) as [E1 E2]. injection E1 as ->. rewrite E2 in Ea. lia. }
    destruct (si_fin _ _ _ _ _ _ _ _ _ Hsnd fs eq_refl) as [Hfs Hcase].
    destruct (fin_acked self) eqn:Efa; [done|]. destruct Hcase as [Eo _].
    destruct (build_ok self1 fs TcpFlags.FIN [] Hok1 Hfs) as (adv & r & frame & Eb & Hok2 & Hb & Hm & Hc).
    + right; right; left. done.
    + constructor.
    + done.
    + change (zlen (@nil Z)) with 0. lia.
    + cbv zeta in Eb, Hok2. rewrite Eb. start_rtx_step.
      assert (Hfin : caller_flag TcpFlags.FIN) by (right; right; left; done).
      eexists _, _. split; [reflexivity|]. split; [by apply arm_rtx_ok|]. split; [|split; [done|split; [|done]]].
      * apply (outcome_from self self1); [reflexivity|]. eexists r, _. split; [exact Hc|].
        eapply (build_sent _ _ adv _ _ _ _ Hb); try exact Hm; try exact Hfin; try reflexivity; try done; by left.
      * intros f [= <-]. exists r, []. split; [exact Hc|]. rewrite (bt_seq _ _ _ _ _ Hb). split; [lia|].
        right. by destruct (built_flags _ _ _ _ _ Hb Hfin) as (_ & -> & _).
Qed.

(** *** Step 0.5: selective retransmission *)

(** A hole chosen by [next_seg] is an unsacked octet in flight. *)
Lemma next_seg_unsacked una nxt b smss s rescue :
  sb_wf una nxt b -> next_seg b una nxt smss = Some (Some (s, rescue)) ->
  in_half una s /\ off una s < off una nxt /\ is_sacked b s = false /\ is_rexmit b s = false.
Proof.
  intros Hb E. destruct (next_seg_core una nxt b smss Hb) as (res & E' & H).
  rewrite E in E'. apply (inj Some) in E' as <-. destruct rescue.
  - destruct H as (_ & _ & high & _ & Hs & Hlt & Hh & _). split_and!; try done.
    all: unfold rescue_hole in Hh; by destruct (is_sacked b s), (is_rexmit b s).
  - destruct H as (Hs & Hlt & Hh & _). split_and!; try done.
    all: unfold lost_hole in Hh; by destruct (is_sacked b s), (is_rexmit b s).
Qed.

(** What a selective retransmission sends: in-flight octets the peer has not
    SACKed, while the pipe is below the window. *)
Definition fills_hole (self : Tcb C) (r : TcpRepr) (dat : list Z) : Prop :=
  off (snd_una self) (t_seq r) + zlen dat <= off (snd_una self) (snd_nxt self) /\
  (forall x, off (snd_una self) (t_seq r) <= x < off (snd_una self) (t_seq r) + zlen dat ->
     ~ covers (snd_una self) (sacked (scoreboard self)) x) /\
  exists p, pipe_estimate self = Some p /\ p < cc_cwnd (cc self).

Lemma selective_retransmit_ok (self : Tcb C) now :
  tcb_ok self ->
  exists self' out,
    selective_retransmit self now (max_segment_payload self) = Some (self', out) /\
    tcb_ok self' /\ outcome self self' out /\ state self' = state self /\
    (forall frame, out = Some frame -> snd_nxt self' = snd_nxt self /\
       exists r dat, frame_carries frame (local self) (remote self) r dat /\ fills_hole self r dat).
Proof.
  intros Hok. pose proof (ok_snd _ Hok) as Hsnd. pose proof (si_una _ _ _ _ _ _ _ _ _ Hsnd) as Hu.
  pose proof (si_sb _ _ _ _ _ _ _ _ _ Hsnd) as Hsb.
  assert (Hnone : exists self' out, Some (self, @None (list Z)) = Some (self', out) /\ tcb_ok self' /\
    outcome self self' out /\ state self' = state self /\
    (forall frame, out = Some frame -> snd_nxt self' = snd_nxt self /\
       exists r dat, frame_carries frame (local self) (remote self) r dat /\ fills_hole self r dat))
    by (by exists self, None).
  unfold selective_retransmit. destruct (sack_enabled self && in_recovery (scoreboard self)) eqn:E;
    [|exact Hnone].
  apply andb_true_iff in E as [Ese _].
  destruct (pipe_estimate_ok self Hsnd) as (p & Ep & _).
  pose proof Ep as Ep'. unfold pipe_estimate in Ep'. rewrite Ese in Ep'. cbv zeta. rewrite Ep'.
  destruct (p <? cc_cwnd (cc self)) eqn:Ew; [|exact Hnone].
  destruct (next_seg_core (snd_una self) (snd_nxt self) (scoreboard self) (snd_mss self) Hsb)
    as (res & En & _). rewrite En. destruct res as [[s rescue]|]; [|exact Hnone].
  destruct (next_seg_unsacked _ _ _ _ _ _ Hsb En) as (Hs & Hlt & Huns & _).
  destruct (unsacked_run_len_spec (snd_una self) (snd_nxt self) (scoreboard self) Hsb s (snd_nxt self))
    as (Hrun & Hfree & _); [done|apply Hsnd|lia|done|].
  change (offset_from s (snd_una self)) with (off (snd_una self) s).
  set (n := Z.min _ _). destruct (0 <? n) eqn:Epos; [|exact Hnone].
  assert (Hn : n <= unsacked_run_len (scoreboard self) s (snd_nxt self) /\
    n <= max_segment_payload self /\ off (snd_una self) s + n <= RingBuffer.len (tx self))
    by (unfold n, sat_sub in *; lia).
  destruct Hn as (Hn1 & Hn2 & Hn3).
  destruct (build_stream self s (if off (snd_una self) s + n =? RingBuffer.len (tx self) then TcpFlags.PSH else 0) n Hok)
    as (adv & r & frame & Eb & Hok2 & Hb & Hm & Hc & Hz & Hst); [done|lia|done|case_ifs; tauto|].
  rewrite Eb. cbv beta zeta iota in Hok2 |- *.
  pose proof (off_range (snd_una self) s). pose proof (si_len _ _ _ _ _ _ _ _ _ Hsnd) as Hlen.
  assert (He : in_half (snd_una self) (seq_add s (wrap32 n)) /\
    off (snd_una self) (seq_add s (wrap32 n)) = off (snd_una self) s + n).
  { unfold TX_BUFFER in Hlen. rewrite wrap32_small by (unfold is_u32; lia).
    split; [apply in_half_add; [done|lia|lia]|]. apply off_add; [apply Hs|lia]. }
  destruct He as [Heh Heo].
  destruct (sb_mark_core (snd_una self) (snd_nxt self) (scoreboard self) s (seq_add s (wrap32 n)) Hsb Hs Heh
    ltac:(lia)) as (sb' & Emk & Hsb' & Hsk & _).
  match goal with |- context [mark_rexmit ?b _ _] => change b with (scoreboard self) end.
  rewrite Emk.
  set (sb2 := if rescue then set_rescue_done sb' else sb').
  assert (Hsb2 : sb_wf (snd_una self) (snd_nxt self) sb2).
  { unfold sb2. destruct rescue; [|done]. exact (sb_wf_flags _ _ _ _ _ Hsb'). }
  set (self1 := self <| delayed_ack_deadline := None |> <| unacked_segs := 0 |> <| rcv_adv := adv |>) in *.
  set (self2 := self1 <| scoreboard := sb2 |> <| retransmitted := true |> <| rtt_sample := None |>).
  match goal with |- context [start_rtx ?t now] => replace t with self2 by (unfold self2, sb2; by destruct rescue) end.
  assert (Hok3 : tcb_ok self2).
  { destruct Hok2 as [Hrcv2 Hsnd2 Henv2 Htmr2 Hgap2 Hfresh2]. split; try assumption.
    destruct Hsnd2. split; try assumption.
    - intros Hop. destruct (si_opening Hop) as (_ & _ & Hb0 & _). exfalso.
      change (buf (tx self) = []) in Hb0. unfold RingBuffer.len in Hn3. rewrite Hb0 in Hn3.
      change (zlen (@nil Z)) with 0 in Hn3. lia.
    - change (sack_enabled self2) with (sack_enabled self). congruence. }
  start_rtx_step. eexists _, _. split; [reflexivity|]. split; [by apply arm_rtx_ok|].
  split_and!; [|done|].
  - eexists r, _. split; [exact Hc|].
    eapply (build_sent self _ adv); try exact Hb; try exact Hm; try reflexivity.
    + unfold caller_flag. case_ifs; tauto.
    + by right.
    + by left.
    + done.
    + case_ifs; discriminate.
    + case_ifs; discriminate.
  - intros f [= <-]. split; [done|]. eexists r, _. split; [exact Hc|].
    unfold fills_hole. rewrite (bt_seq _ _ _ _ _ Hb), Hz. split_and!; [lia| |].
    + intros x Hx. apply Hfree. lia.
    + exists p. split; [done|lia].
Qed.

(** *** Step 1: new data *)

Lemma snd_inv_advance st iss una nxt tx fs fa sack sb k :
  snd_inv st iss una nxt tx fs fa sack sb -> st <> SynSent -> st <> SynReceived ->
  0 < k -> off una nxt + k <= RingBuffer.len tx ->
  snd_inv st iss una (seq_add nxt k) tx fs fa sack sb /\
  off una (seq_add nxt k) = off una nxt + k.
Proof.
  intros [Hi Hu Hn Hc Hl Hb Hop Hfl Hfin Hsd Hfa Hsb Hns] Hs1 Hs2 Hk Hle.
  pose proof (off_range una nxt). unfold TX_BUFFER in Hl.
  assert (Hh : in_half una (seq_add nxt k)) by (apply in_half_add; [done|lia|lia]).
  assert (Ho : off una (seq_add nxt k) = off una nxt + k) by (apply off_add; [apply Hn|lia]).
  assert (Hfs : fs = None).
  { destruct fs as [f|]; [|done]. destruct (Hfin f eq_refl) as [_ Hcase]. exfalso. destruct fa.
    - destruct Hcase as [_ Ht]. unfold RingBuffer.len in Hle. rewrite Ht in Hle.
      change (zlen (@nil Z)) with 0 in Hle. lia.
    - lia. }
  subst fs. split; [|done]. split; try done.
  - intros [|]; done.
  - intros _. split; [by apply Hfl|]. left. lia.
  - eapply sb_wf_advance; [exact Hsb|done|lia].
Qed.

(** Pacing only shrinks the budget. *)
Lemma pacing_spec (self : Tcb C) now allowed unsent mp :
  exists tok la dl allowed',
    (match cc_pacing_rate (cc self) with
     | Some rate =>
         let self := self <| pace_deadline := None |> in
         let '(self, paced) := pace_allowance self now rate mp in
         let self := if (paced <? allowed) && (0 <? unsent) then arm_pace self now rate paced else self in
         (self, Z.min allowed paced)
     | None => (self, allowed)
     end) = (self <| pace_tokens := tok |> <| pace_last := la |> <| pace_deadline := dl |>, allowed') /\
    allowed' <= allowed.
Proof.
  destruct (cc_pacing_rate (cc self)) as [rate|].
  - unfold pace_allowance. cbv zeta. destruct ((_ <? allowed) && _).
    + unfold arm_pace. cbv zeta. eexists _, _, _, _. split; [reflexivity|lia].
    + eexists _, _, _, _. split; [reflexivity|lia].
  - exists (pace_tokens self), (pace_last self), (pace_deadline self), allowed.
    split; [by destruct self|lia].
Qed.

(** The zero-window probe's byte is the first of the stream. *)
Lemma probe_byte (t : RingBuffer) : 0 < RingBuffer.len t ->
  slice (RingBuffer.peek t 0 1 ++ zrepeat 0 1) 0 1 = Some (RingBuffer.peek t 0 1).
Proof.
  rewrite RingBuffer.peek_spec. unfold RingBuffer.len. destruct (buf t) as [|b l].
  - change (zlen (@nil Z)) with 0. lia.
  - done.
Qed.

Lemma cc_env (lo re : Endpoint) a m (c c' : C) r w1 w2 t1 t2 cep pd :
  cc_ok m c' -> env_inv lo re a m c r w1 w2 t1 t2 cep pd -> env_inv lo re a m c' r w1 w2 t1 t2 cep pd.
Proof. intros Hc []. by split. Qed.

(** The RTT sample and the pacing debit after a transmission. *)
Lemma note_sent (self : Tcb C) now n : exists rs tk,
  (let self :=
     if is_none (rtt_sample self) && negb (retransmitted self)
     then self <| rtt_sample := Some (now, snd_nxt self) |> else self in
   if is_some (cc_pacing_rate (cc self))
   then self <| pace_tokens := sat_sub (pace_tokens self) n |> else self)
  = self <| rtt_sample := rs |> <| pace_tokens := tk |>.
Proof.
  exists (if is_none (rtt_sample self) && negb (retransmitted self) then Some (now, snd_nxt self)
          else rtt_sample self),
    (if is_some (cc_pacing_rate (cc self)) then sat_sub (pace_tokens self) n else pace_tokens self).
  cbv zeta. destruct (is_none (rtt_sample self) && negb (retransmitted self));
    match goal with |- (if is_some (cc_pacing_rate ?c) then _ else _) = _ => change c with (cc self) end;
    destruct (is_some (cc_pacing_rate (cc self))); by destruct self.
Qed.

Lemma send_new_data_ok (self : Tcb C) now :
  tcb_ok self -> state self <> SynSent -> state self <> SynReceived ->
  let inflight := offset_from (snd_nxt self) (snd_una self) in
  let sent_data := Z.min inflight (RingBuffer.len (tx self)) in
  exists self' out,
    send_new_data self now inflight sent_data (RingBuffer.len (tx self) - sent_data)
      (max_segment_payload self) = Some (self', out) /\
    tcb_ok self' /\ outcome self self' out /\ state self' = state self.
Proof.
  intros Hok Hs1 Hs2 inflight sent_data. pose proof (ok_snd _ Hok) as Hsnd.
  pose proof (si_una _ _ _ _ _ _ _ _ _ Hsnd) as Hu. pose proof (si_len _ _ _ _ _ _ _ _ _ Hsnd) as Hlen.
  pose proof (off_range (snd_una self) (snd_nxt self)) as Hof. unfold TX_BUFFER in Hlen.
  change inflight with (off (snd_una self) (snd_nxt self)) in *. clear inflight.
  set (inflight := off (snd_una self) (snd_nxt self)) in *.
  unfold send_new_data. destruct (pipe_estimate_ok self Hsnd) as (p & Ep & Hp). rewrite Ep. cbv zeta.
  set (allowed0 := Z.min (sat_sub (cc_cwnd (cc self)) p) (sat_sub (snd_wnd self) inflight)).
  destruct (pacing_spec self now allowed0 (RingBuffer.len (tx self) - sent_data)
    (wrap32 (max_segment_payload self))) as (tok & la & dl & allowed & Epace & Hal).
  cbv zeta in Epace. rewrite Epace. clear Epace.
  set (self1 := self <| pace_tokens := tok |> <| pace_last := la |> <| pace_deadline := dl |>).
  assert (Hok1 : tcb_ok self1) by tcb_frame Hok.
  assert (Hv1 : out_view self1 = out_view self) by reflexivity.
  change (max_segment_payload self) with (max_segment_payload self1).
  assert (Hnone : exists self' out, Some (self1, @None (list Z)) = Some (self', out) /\ tcb_ok self' /\
    outcome self self' out /\ state self' = state self) by (by exists self1, None).
  destruct (0 <? allowed) eqn:Ea.
  - set (n := Z.min (Z.min allowed _) _). destruct (0 <? n) eqn:Epos; [|exact Hnone].
    assert (Hn : n <= RingBuffer.len (tx self) - sent_data /\ n <= max_segment_payload self1 /\
      n + p <= cc_cwnd (cc self) /\ inflight + n <= snd_wnd self /\ sent_data = inflight)
      by (unfold n, allowed0, sent_data, sat_sub in *; lia).
    destruct Hn as (Hn1 & Hn2 & Hn3 & Hn4 & Esd). rewrite Esd in *.
    destruct (build_stream self1 (snd_nxt self)
      (if inflight + n =? RingBuffer.len (tx self) then TcpFlags.PSH else 0) n Hok1)
      as (adv & r & frame & Eb & Hok2 & Hb & Hm & Hc & Hz & Hst).
    + apply Hsnd.
    + lia.
    + change (snd_una self1) with (snd_una self). change (tx self1) with (tx self). fold inflight. lia.
    + case_ifs; tauto.
    + change (off (snd_una self1) (snd_nxt self)) with inflight in *.
      change (snd_nxt self1) with (snd_nxt self). change (tx self1) with (tx self) in *.
      cbv zeta in Eb, Hok2. rewrite Eb. rewrite wrap32_small by (unfold is_u32; lia).
      set (self2 := self1 <| delayed_ack_deadline := None |> <| unacked_segs := 0 |> <| rcv_adv := adv |>) in *.
      change (snd_nxt self2) with (snd_nxt self).
      set (self3 := self2 <| snd_nxt := seq_add (snd_nxt self) n |>).
      destruct (snd_inv_advance _ _ _ _ _ _ _ _ _ n Hsnd Hs1 Hs2 ltac:(lia)
        ltac:(unfold inflight, sent_data in *; lia)) as [Hsnd' Hoff].
      destruct (note_sent self3 now n) as (rs & tk & E4). cbv zeta in E4. rewrite E4. clear E4.
      match goal with |- context [cc_on_transmit ?c ?a ?b ?d ?e ?g] =>
        destruct (cc_on_transmit_ok (snd_mss self) (cc self) a b d e g) as (c' & Ec & Hc') end.
      { apply (ei_cc _ _ _ _ _ _ _ _ _ _ _ _ (ok_env _ Hok)). }
      match goal with |- context [cc_on_transmit ?c _ _ _ _ _] => change c with (cc self) end.
      rewrite Ec. start_rtx_step. eexists _, _. split; [reflexivity|]. split; [|split; [|done]].
      { destruct Hok2 as [Hrcv2 Hsnd2 Henv2 Htmr2 Hgap2 Hfresh2].
        split; try assumption; [by eapply cc_env|done]. }
      apply (outcome_from self self1); [exact Hv1|]. eexists r, _. split; [exact Hc|].
      eapply (build_sent self1 _ adv); try exact Hb; try exact Hm; try reflexivity.
      * unfold caller_flag. case_ifs; tauto.
      * by right.
      * right. split; [done|]. rewrite Hz. case_ifs; cbn -[seq_add Z.add]; by rewrite !Z.add_0_r.
      * intros _ _. split; [exists p; split; [exact Ep|change (cc self1) with (cc self); lia]|].
        change (off (snd_una self) (seq_add (snd_nxt self) n) <= snd_wnd self). lia.
      * case_ifs; discriminate.
      * case_ifs; discriminate.
  - destruct ((0 <? RingBuffer.len (tx self) - sent_data) && (inflight =? 0) && _) eqn:Epr; [|exact Hnone].
    assert (Hpos : 0 < RingBuffer.len (tx self) /\ inflight = 0) by (unfold sent_data in Epr; lia).
    destruct Hpos as [Hpos Hz0].
    assert (Hap : exists pd pb, arm_persist self1 now = self1 <| persist_deadline := pd |> <| persist_backoff := pb |>).
    { unfold arm_persist. destruct (is_none (persist_deadline self1)); [by eexists _, _|].
      exists (persist_deadline self1), (persist_backoff self1). by destruct self. }
    destruct Hap as (pd & pb & ->).
    set (self2 := self1 <| persist_deadline := pd |> <| persist_backoff := pb |>).
    change (send_probe self2) with (send_probe self).
    destruct (send_probe self); [|exists self2, None; split; [done|]; split; [tcb_frame Hok1|done]].
    set (self3 := self2 <| send_probe := false |>).
    assert (Hok3 : tcb_ok self3) by tcb_frame Hok1.
    change (tx self3) with (tx self). change (snd_una self3) with (snd_una self).
    rewrite (probe_byte (tx self) Hpos).
    destruct (build_stream self3 (snd_una self) 0 1 Hok3)
      as (adv & r & frame & Eb & Hok4 & Hb & Hm & Hc & Hz & Hst).
    + by apply in_half_self.
    + lia.
    + change (snd_una self3) with (snd_una self). change (tx self3) with (tx self).
      rewrite off_self. lia.
    + by left.
    + change (snd_una self3) with (snd_una self) in *. change (tx self3) with (tx self) in *.
      rewrite off_self in *. cbv zeta in Eb, Hok4. rewrite Eb.
      eexists _, _. split; [reflexivity|]. split; [exact Hok4|]. split; [|done].
      apply (outcome_from self self3); [exact Hv1|]. eexists r, _. split; [exact Hc|].
      eapply (build_sent self3 _ adv); try exact Hb; try exact Hm; try reflexivity.
      * by left.
      * by right.
      * by left.
      * done.
      * done.
      * done.
Qed.

(** *** Step 2: the FIN *)

(** The FIN takes the number after the last byte, once all of them are sent. *)
Lemma snd_inv_fin st st' iss una nxt tx fs fa sack sb :
  snd_inv st iss una nxt tx fs fa sack sb -> st <> SynSent -> st <> SynReceived ->
  fa = false -> nxt = seq_add una (wrap32 (RingBuffer.len tx)) ->
  st' <> SynSent -> st' <> SynReceived -> st' <> Established -> st' <> CloseWait ->
  (st' = FinWait2 \/ st' = TimeWait -> st = FinWait2 \/ st = TimeWait) ->
  snd_inv st' iss una (seq_add nxt 1) tx (Some nxt) false sack sb /\
  off una nxt = RingBuffer.len tx /\ seq_ok nxt.
Proof.
  intros [Hi Hu Hn Hc Hl Hb Hop Hfl Hfin Hsd Hfa Hsb Hns] Hs1 Hs2 -> En N1 N2 N3 N4 Nf.
  pose proof (zlen_nonneg (buf tx) : 0 <= RingBuffer.len tx) as H0. unfold TX_BUFFER in *.
  assert (Ho : off una nxt = RingBuffer.len tx).
  { rewrite En, wrap32_small by (unfold is_u32; lia). apply off_add_base. lia. }
  assert (Hh : in_half una (seq_add nxt 1)) by (apply in_half_add; [done|lia|lia]).
  assert (Ho1 : off una (seq_add nxt 1) = RingBuffer.len tx + 1)
    by (rewrite off_add; [lia|apply Hn|lia]).
  split; [|split; [done|apply Hn]]. split; try done.
  - intros [|]; done.
  - intros f [= <-]. split; [apply Hn|]. by split.
  - intros Hf. discriminate (Hfa (Nf Hf)).
  - eapply sb_wf_advance; [exact Hsb|done|lia].
Qed.

Definition fin_state (st : State) : State :=
  match st with
  | Established => FinWait1 | CloseWait => LastAck
  | Closed => Closed | Listen => Listen | SynSent => SynSent | SynReceived => SynReceived
  | FinWait1 => FinWait1 | FinWait2 => FinWait2 | Closing => Closing | LastAck => LastAck
  | TimeWait => TimeWait
  end.

Lemma send_fin_ok (self : Tcb C) now :
  tcb_ok self -> state self <> SynSent -> state self <> SynReceived -> state self <> TimeWait ->
  exists self' out,
    send_fin self now (seq_add (snd_una self) (wrap32 (RingBuffer.len (tx self)))) = Some (self', out) /\
    tcb_ok self' /\ outcome self self' out /\
    state self' = (if is_some out then fin_state (state self) else state self).
Proof.
  intros Hok Hs1 Hs2 Hs3. pose proof (ok_snd _ Hok) as Hsnd.
  set (de := seq_add (snd_una self) (wrap32 (RingBuffer.len (tx self)))).
  unfold send_fin. destruct (fin_queued self && negb (fin_acked self) && (snd_nxt self =? de)) eqn:E;
    [|by exists self, None].
  assert (Hfa : fin_acked self = false) by (by destruct (fin_acked self), (fin_queued self)).
  assert (Hnxt : snd_nxt self = de) by lia.
  assert (Hs4 : state self <> FinWait2).
  { intros Hf. pose proof (si_finacked _ _ _ _ _ _ _ _ _ Hsnd (or_introl Hf)). congruence. }
  destruct (snd_inv_fin (state self) (fin_state (state self)) (iss self) (snd_una self) (snd_nxt self)
    (tx self) (fin_seq self) (fin_acked self) (sack_enabled self) (scoreboard self) Hsnd Hs1 Hs2 Hfa Hnxt)
    as (Hsnd' & Ho & Hsq); try (by destruct (state self)).
  { destruct (state self); cbn; intros [Hf|Hf]; (discriminate Hf || by auto). }
  rewrite <- Hnxt.
  destruct (build_ok self (snd_nxt self) TcpFlags.FIN [] Hok Hsq) as (adv & r & frame & Eb & Hok2 & Hb & Hm & Hc).
  - right; right; left. done.
  - constructor.
  - done.
  - change (zlen (@nil Z)) with 0. lia.
  - cbv zeta in Eb, Hok2. rewrite Eb.
    set (self1 := self <| delayed_ack_deadline := None |> <| unacked_segs := 0 |> <| rcv_adv := adv |>) in *.
    start_rtx_step. eexists _, _. split; [reflexivity|]. split; [|split; [|reflexivity]].
    + destruct Hok2 as [Hrcv2 Hsnd2 Henv2 Htmr2 Hgap2 Hfresh2]. split; try assumption.
      * rewrite <- Hfa in Hsnd'. exact Hsnd'.
      * done.
      * change (fin_state (state self) = SynSent -> buf (rx self) = [] /\ runs (reasm self) = [] /\
          peer_fin_seen self = false). by destruct (state self).
    + eexists r, _. split; [exact Hc|].
      eapply (build_sent self _ adv); try exact Hb; try exact Hm; try reflexivity.
      * right; right; left. done.
      * by left.
      * by right.
      * done.
      * done.
      * done.
Qed.

(** *** The whole of [transmit_data_or_fin], and the owed ACK *)

Definition out_fields (self : Tcb C) := (state self, out_view self).

Lemma out_view_max (self self1 : Tcb C) :
  out_view self1 = out_view self ->
  snd_una self1 = snd_una self /\ snd_nxt self1 = snd_nxt self /\ tx self1 = tx self /\
  state self1 = state self /\ max_segment_payload self1 = max_segment_payload self.
Proof.
  intros Hv. unfold out_view, snd_view, rcv_view, conn_view in Hv.
  assert (ts_enabled self1 = ts_enabled self /\ sack_enabled self1 = sack_enabled self /\
    snd_mss self1 = snd_mss self /\ reasm self1 = reasm self) as (E1 & E2 & E3 & E4)
    by (split_and!; congruence).
  split_and!; try congruence. unfold max_segment_payload. by rewrite E1, E2, E3, E4.
Qed.

Lemma transmit_data_or_fin_ok (self : Tcb C) now :
  tcb_ok self -> state self <> SynSent -> state self <> SynReceived -> state self <> TimeWait ->
  exists self' out,
    transmit_data_or_fin self now = Some (self', out) /\ tcb_ok self' /\ outcome self self' out /\
    (state self' = state self \/ is_some out = true /\ state self' = fin_state (state self)) /\
    (resend_due self -> exists frame, out = Some frame /\ oldest_resent self frame).
Proof.
  intros Hok Hs1 Hs2 Hs3. unfold transmit_data_or_fin. cbv zeta.
  destruct (retransmit_oldest_ok self now Hok) as (self1 & out1 & -> & Hok1 & Ho1 & Hst1 & Hres & Hdue).
  destruct out1 as [f1|]; cbn [is_some].
  { exists self1, (Some f1). split_and!; try done; [by left|]. intros _. exists f1. split; auto. }
  assert (Hnd : resend_due self -> exists frame, @None (list Z) = Some frame /\ oldest_resent self frame)
    by (intros Hd; discriminate (Hdue Hd)).
  destruct (out_view_max _ _ Ho1) as (Eu1 & En1 & Et1 & _ & Em1). rewrite <- Em1.
  destruct (selective_retransmit_ok self1 now Hok1) as (self2 & out2 & -> & Hok2 & Ho2 & Hst2 & _).
  destruct out2 as [f2|]; cbn [is_some].
  { exists self2, (Some f2). split_and!; [done|done|by eapply outcome_from|left; congruence|].
    intros Hd. by destruct (Hnd Hd) as (? & ? & _). }
  destruct (out_view_max _ _ Ho2) as (Eu2 & En2 & Et2 & _ & Em2). rewrite <- Em2.
  rewrite <- Eu1, <- En1, <- Et1, <- Eu2, <- En2, <- Et2.
  destruct (send_new_data_ok self2 now Hok2) as (self3 & out3 & -> & Hok3 & Ho3 & Hst3); [congruence..|].
  assert (Hv2 : out_view self2 = out_view self) by (cbn in Ho1, Ho2; congruence).
  destruct out3 as [f3|]; cbn [is_some].
  { exists self3, (Some f3). split_and!; [done|done|by eapply outcome_from|left; congruence|].
    intros Hd. by destruct (Hnd Hd) as (? & ? & _). }
  destruct (out_view_max _ _ Ho3) as (Eu3 & En3 & Et3 & _ & _). rewrite <- Eu3, <- Et3.
  destruct (send_fin_ok self3 now Hok3) as (self4 & out4 & -> & Hok4 & Ho4 & Hst4); [congruence..|].
  assert (Hv3 : out_view self3 = out_view self) by (cbn in Ho3; congruence).
  exists self4, out4. split_and!; [done|done|by eapply outcome_from| |].
  2:{ intros Hd. by destruct (Hnd Hd) as (? & ? & _). }
  rewrite Hst4. replace (state self3) with (state self) by congruence.
  destruct out4; [by right|by left].
Qed.

End transmit.
