(* ===== verification/TcbPoll.v ===== *)
(** [Tcb::poll_transmit] in [tcp-core/src/tcb.rs]: the transmit path whole. *)

From S2P Require Import Prelude Seq Time Buffers Rtt Checksum Ipv4 TcpWire Sack Reasm Congestion Endpoint Tcb TcbInv TcbRecv TcbOut TcbTransmit TcbDemo.
Import RingBuffer (RingBuffer, mkRing, buf, capacity).

Section poll.
Context {C : Type} `{CC : CongestionControl C} {CL : CongestionLaws C}.

(** *** Handshake segments and resets *)

(** The SYN's description, as [build_syn] fills it. *)
Definition syn_repr (self : Tcb C) : TcpRepr :=
  mkTcpRepr (ep_port (local self)) (ep_port (remote self)) (iss self) 0 TcpFlags.SYN
    (Z.min RX_BUFFER 0xFFFF) (Some (mss_advertise self)) true SackBlocks_default
    (Some RCV_WSCALE) (Some (cur_tsval self, 0)) false.

Lemma build_carries lo re r dat :
  tcp_repr_ok r -> endpoint_ok lo -> endpoint_ok re -> bytes_ok dat ->
  t_src_port r = ep_port lo -> t_dst_port r = ep_port re ->
  header_len r + zlen dat <= U16_MAX - Ipv4.HEADER_LEN ->
  exists frame, build_segment lo re r dat = Some frame /\ frame_carries frame lo re r dat.
Proof.
  intros Hr Hl Hm Hd Hsp Hdp Hfit.
  destruct (build_segment_spec lo re r dat Hr Hl Hm Hd Hsp Hdp Hfit) as (frame & H1 & _ & _ & H3).
  exists frame. split; [done|]. by apply frame_carries_core.
Qed.

Lemma build_syn_ok (self : Tcb C) :
  tcb_ok self ->
  exists frame, build_syn self = Some frame /\
    frame_carries frame (local self) (remote self) (syn_repr self) [].
Proof.
  intros Hok. pose proof (ok_env _ Hok) as He. pose proof (ok_snd _ Hok) as Hsnd.
  pose proof (ei_adv _ _ _ _ _ _ _ _ _ _ _ _ He) as Ha. unfold MSS_DEFAULT, MSS_MAX in Ha.
  assert (Hh : header_len (syn_repr self) = 44) by reflexivity.
  apply build_carries; try done; try apply He.
  - split; cbn [syn_repr t_src_port t_dst_port t_seq t_ack t_flags t_window t_mss t_sack
      t_window_scale t_timestamps]; try done.
    + apply (ei_local _ _ _ _ _ _ _ _ _ _ _ _ He).
    + apply (ei_remote _ _ _ _ _ _ _ _ _ _ _ _ He).
    + apply Hsnd.
    + intros m [= <-]. unfold is_u16. lia.
    + intros k [= <-]. by vm_compute.
    + intros v e [= <- <-]. split; [apply (ei_tsv _ _ _ _ _ _ _ _ _ _ _ _ He)|done].
    + split; [done|]. repeat apply List.Forall_cons; try apply List.Forall_nil; done.
  - constructor.
Qed.

Lemma build_rst_ok (self : Tcb C) s :
  tcb_ok self -> seq_ok s ->
  exists frame, build_rst self s = Some frame /\
    frame_carries frame (local self) (remote self)
      (bare_repr (local self) (remote self) s 0 TcpFlags.RST) [].
Proof.
  intros Hok Hs. pose proof (ok_env _ Hok) as He.
  destruct (bare_repr_ok (local self) (remote self) s 0 TcpFlags.RST) as [Hr Hh]; try done; try apply He.
  apply build_carries; try done; try apply He. constructor.
Qed.

Lemma snd_inv_syn st iss una tx fs fa sack sb nxt :
  st = SynSent \/ st = SynReceived -> snd_inv st iss una nxt tx fs fa sack sb ->
  snd_inv st iss una (seq_add iss 1) tx fs fa sack sb.
Proof.
  intros Hst [Hi Hu Hn Hc Hl Hb Hop Hfl Hfin Hsd Hfa Hsb Hns].
  destruct (Hop Hst) as (-> & _ & Ht & -> & Hsbe).
  assert (Ho : off iss (seq_add iss 1) = 1) by (apply off_add_base; lia).
  assert (Hh : in_half iss (seq_add iss 1)) by (split; [apply seq_add_ok|lia]).
  split; try done.
  - intros _. split_and!; try done. lia.
  - intros _. split; [by apply Hfl|]. right. split; [lia|]. split; [done|tauto].
  - destruct sb as [sk rx rp rd], Hsbe as [E1 E2]. cbn in E1, E2. subst.
    apply (sb_wf_flags _ _ scoreboard_new). by apply sb_wf_new.
Qed.

(** *** The owed ACK *)

Lemma transmit_ack_ok (self : Tcb C) :
  tcb_ok self ->
  exists self' out, transmit_ack self = Some (self', out) /\ tcb_ok self' /\
    outcome self self' out /\ state self' = state self /\ needs_ack self' = false /\
    (is_some out = needs_ack self).
Proof.
  intros Hok. unfold transmit_ack, take_needs_ack. destruct (needs_ack self) eqn:En.
  - set (self0 := self <| needs_ack := false |>). assert (Hok0 : tcb_ok self0) by tcb_frame Hok.
    destruct (build_ok self0 (snd_nxt self0) 0 [] Hok0) as (adv & r & frame & Eb & Hok2 & Hb & Hm & Hc).
    + apply (ok_snd _ Hok).
    + by left.
    + constructor.
    + done.
    + change (zlen (@nil Z)) with 0. lia.
    + cbv zeta in Eb, Hok2. rewrite Eb. eexists _, _. split; [reflexivity|]. split; [exact Hok2|].
      split; [|done]. exists r, []. split; [exact Hc|].
      assert (Hb' : built self adv (snd_nxt self) 0 r) by (destruct Hb; split; assumption).
      eapply (build_sent self _ adv _ _ _ _ Hb'); try reflexivity; try exact Hm.
      * by left.
      * by left.
      * by left.
      * done.
      * done.
      * done.
  - eexists _, None. split; [reflexivity|]. split; [tcb_frame Hok|]. split_and!; try done.
    unfold outcome, out_view. cbn. by rewrite En.
Qed.

(** *** The dispatcher *)

(** A segment outside the data path: the SYN of an active open or a reset. *)
Lemma bare_sent (self self' : Tcb C) r :
  TcpFlags.fin (t_flags r) = false -> TcpFlags.ack (t_flags r) = false ->
  (TcpFlags.syn (t_flags r) = true -> t_seq r = iss self) -> t_mss r <> Some 0 ->
  snd_una self' = snd_una self -> tx self' = tx self -> rcv_nxt self' = rcv_nxt self ->
  rx self' = rx self -> reasm self' = reasm self -> rcv_adv self' = rcv_adv self ->
  (snd_nxt self' = snd_nxt self \/
   t_seq r = snd_nxt self /\ snd_nxt self' = seq_add (snd_nxt self) (span r [])) ->
  sent self self' r [].
Proof.
  intros Hf Ha Hsyn Hmss E1 E2 E3 E4 E5 E6 Hn. split; try done.
  - by left.
  - rewrite E6. unfold distance. by rewrite Z.sub_diag.
  - congruence.
  - intros E. split; [done|by apply Hsyn].
  - congruence.
Qed.

Lemma syn_repr_mss (self : Tcb C) : tcb_ok self -> t_mss (syn_repr self) <> Some 0.
Proof.
  intros Hok [= E]. pose proof (ei_adv _ _ _ _ _ _ _ _ _ _ _ _ (ok_env _ Hok)).
  unfold MSS_DEFAULT in *. lia.
Qed.

Lemma opening_frame (self : Tcb C) s :
  state self = SynSent \/ state self = SynReceived -> tcb_ok self ->
  tcb_ok (self <| snd_nxt := seq_add (iss self) 1 |> <| rtx_deadline := Some s |>).
Proof.
  intros Hst [Hrcv Hsnd Henv Htmr Hgap Hfresh]. split; try assumption; [|done].
  eapply snd_inv_syn; [exact Hst|exact Hsnd].
Qed.

Lemma syn_sent_poll (self : Tcb C) now :
  tcb_ok self -> state self = SynSent ->
  exists self' out,
    (if snd_nxt self =? iss self then
       let? seg := build_syn self in
       let self := self <| snd_nxt := seq_add (iss self) 1 |> in Some (start_rtx self now, Some seg)
     else if retransmit self then
       let self := self <| retransmit := false |> in let? seg := build_syn self in Some (self, Some seg)
     else Some (self, None)) = Some (self', out) /\ tcb_ok self' /\ outcome self self' out /\
    state self' = state self.
Proof.
  intros Hok Hst. destruct (build_syn_ok self Hok) as (frame & Eb & Hc).
  destruct (snd_nxt self =? iss self) eqn:E.
  - rewrite Eb. cbv zeta. start_rtx_step. eexists _, _. split; [reflexivity|].
    split; [apply opening_frame; tauto|]. split; [|done]. exists (syn_repr self), []. split; [exact Hc|].
    apply bare_sent; try reflexivity; [by apply syn_repr_mss|]. right. cbn [syn_repr t_seq].
    assert (En : snd_nxt self = iss self) by lia. split; [by rewrite En|].
    change (seq_add (iss self) 1 = seq_add (snd_nxt self) 1). by rewrite En.
  - destruct (retransmit self).
    + cbv zeta. change (build_syn (self <| retransmit := false |>)) with (build_syn self). rewrite Eb.
      eexists _, _. split; [reflexivity|]. split; [tcb_frame Hok|]. split; [|done].
      exists (syn_repr self), []. split; [exact Hc|]. apply bare_sent; try reflexivity; [by apply syn_repr_mss|]. by left.
    + by exists self, None.
Qed.

Lemma syn_ack_build (self : Tcb C) :
  tcb_ok self -> exists adv r frame,
    let self1 := self <| delayed_ack_deadline := None |> <| unacked_segs := 0 |> <| rcv_adv := adv |> in
    build self (iss self) TcpFlags.SYN [] = Some (self1, frame) /\ tcb_ok self1 /\
    built self adv (iss self) TcpFlags.SYN r /\
    0 <= distance adv (rcv_adv self) /\ frame_carries frame (local self) (remote self) r [].
Proof.
  intros Hok. apply build_ok; try done.
  - apply (ok_snd _ Hok).
  - by right; right; right.
  - constructor.
  - change (zlen (@nil Z)) with 0. lia.
Qed.

Lemma syn_received_poll (self : Tcb C) now :
  tcb_ok self -> state self = SynReceived ->
  exists self' out,
    (if snd_nxt self =? iss self then
       let? (self, seg) := build self (iss self) TcpFlags.SYN [] in
       let self := self <| snd_nxt := seq_add (iss self) 1 |> in Some (start_rtx self now, Some seg)
     else if retransmit self then
       let self := self <| retransmit := false |> in
       let? (self, seg) := build self (iss self) TcpFlags.SYN [] in Some (self, Some seg)
     else transmit_ack self) = Some (self', out) /\ tcb_ok self' /\ outcome self self' out /\
    state self' = state self.
Proof.
  intros Hok Hst. destruct (snd_nxt self =? iss self) eqn:E.
  - destruct (syn_ack_build self Hok) as (adv & r & frame & Eb & Hok1 & Hb & Hm & Hc).
    cbv zeta in Eb, Hok1. rewrite Eb. cbv zeta. start_rtx_step. eexists _, _. split; [reflexivity|].
    split; [apply (opening_frame (self <| delayed_ack_deadline := None |> <| unacked_segs := 0 |>
      <| rcv_adv := adv |>)); [tauto|exact Hok1]|]. split; [|done].
    exists r, []. split; [exact Hc|].
    assert (En : snd_nxt self = iss self) by lia.
    eapply (build_sent self _ adv _ _ _ _ Hb); try reflexivity; try exact Hm; try done.
    + by right; right; right.
    + by left.
    + right. split; [done|]. change (seq_add (iss self) 1 = seq_add (snd_nxt self) 1). by rewrite En.
  - destruct (retransmit self).
    + set (self0 := self <| retransmit := false |>). assert (Hok0 : tcb_ok self0) by tcb_frame Hok.
      destruct (syn_ack_build self0 Hok0) as (adv & r & frame & Eb & Hok1 & Hb & Hm & Hc).
      cbv zeta in Eb, Hok1 |- *. rewrite Eb. eexists _, _. split; [reflexivity|]. split; [exact Hok1|].
      split; [|done]. apply (outcome_from self self0); [reflexivity|]. exists r, []. split; [exact Hc|].
      eapply (build_sent self0 _ adv _ _ _ _ Hb); try reflexivity; try exact Hm; try done.
      * by right; right; right.
      * by left.
      * by left.
    + destruct (transmit_ack_ok self Hok) as (self' & out & H1 & H2 & H3 & H4 & _). by exists self', out.
Qed.

(** The views decide whether a retransmission is due, up to the flag itself. *)
Lemma resend_due_view (self0 self : Tcb C) :
  out_view self0 = out_view self -> retransmit self0 = retransmit self ->
  resend_due self -> resend_due self0.
Proof.
  intros Hv Hr [H1 H2 H3 H4]. destruct (out_view_max _ _ Hv) as (E1 & E2 & _ & E4 & E5).
  split; congruence.
Qed.

Lemma oldest_resent_view (self0 self : Tcb C) frame :
  out_view self0 = out_view self -> oldest_resent self0 frame -> oldest_resent self frame.
Proof.
  intros Hv (r & dat & Hc & Hs). destruct (out_view_max _ _ Hv) as (E1 & _).
  exists r, dat. unfold out_view, conn_view in Hv.
  replace (local self) with (local self0) by congruence.
  replace (remote self) with (remote self0) by congruence. by rewrite <- E1.
Qed.

(** What one poll leaves and emits. *)
Definition polled (self self' : Tcb C) (out : option (list Z)) : Prop :=
  tcb_ok self' /\ outcome self self' out /\
  (state self' = state self \/ is_some out = true /\ state self' = fin_state (state self)) /\
  (pending_reset self = None -> resend_due self ->
   exists frame, out = Some frame /\ oldest_resent self frame).

Lemma sending_poll (self0 self : Tcb C) now st :
  out_view self0 = out_view self -> retransmit self0 = retransmit self ->
  tcb_ok self0 -> state self = st -> sending_state st = true ->
  exists self' out,
    (let? (self, out) := transmit_data_or_fin self0 now in
     if is_some out then Some (self, out) else transmit_ack self) = Some (self', out) /\
    polled self self' out.
Proof.
  intros Hv Hr Hok0 Hst Hsend. assert (Est : state self0 = state self) by (unfold out_view in Hv; congruence).
  destruct (transmit_data_or_fin_ok self0 now Hok0) as (self1 & out1 & -> & Hok1 & Ho1 & Hs1 & Hres);
    try (intros E; rewrite Est, Hst in E; rewrite E in Hsend; discriminate Hsend).
  rewrite Est in Hs1.
  assert (Hres' : resend_due self -> exists frame, out1 = Some frame /\ oldest_resent self frame).
  { intros Hd. destruct (Hres (resend_due_view _ _ Hv Hr Hd)) as (f & -> & Hf).
    exists f. split; [done|]. by eapply oldest_resent_view. }
  destruct out1 as [f|]; cbn [is_some].
  { exists self1, (Some f). unfold polled. split_and!; try done. by eapply outcome_from. }
  destruct (transmit_ack_ok self1 Hok1) as (self2 & out2 & -> & Hok2 & Ho2 & Hs2 & _).
  assert (Hv1 : out_view self1 = out_view self) by (cbn in Ho1; congruence).
  exists self2, out2. unfold polled. split_and!; [done|done|by eapply outcome_from| |].
  - left. destruct Hs1 as [Hs1|[? _]]; [congruence|done].
  - intros _ Hd. by destruct (Hres' Hd) as (? & ? & _).
Qed.

Lemma poll_transmit_core (self : Tcb C) now :
  tcb_ok self -> exists self' out, poll_transmit self now = Some (self', out) /\ polled self self' out.
Proof.
  intros Hok. unfold poll_transmit. cbv zeta.
  set (self0 := self <| cur_tsval := wrap32 (micros now) |>).
  assert (Hok0 : tcb_ok self0).
  { destruct Hok as [Hrcv Hsnd Henv Htmr Hgap Hfresh]. split; try assumption.
    destruct Henv. split; try assumption. apply wrap32_range. }
  assert (Hv : out_view self0 = out_view self) by reflexivity.
  assert (Hlift : forall self' out, tcb_ok self' -> outcome self0 self' out -> state self' = state self ->
    sending_state (state self) = false -> polled self self' out).
  { intros self' out H1 H2 H3 H4. unfold polled. split_and!; [done|by eapply outcome_from|by left|].
    intros _ [_ _ Hs _]. congruence. }
  change (pending_reset self0) with (pending_reset self). change (state self0) with (state self).
  destruct (pending_reset self) as [s|] eqn:Ep.
  { assert (Hs : seq_ok s) by (apply (ei_pend _ _ _ _ _ _ _ _ _ _ _ _ (ok_env _ Hok)); done).
    set (self1 := self0 <| pending_reset := None |>).
    assert (Hok1 : tcb_ok self1).
    { destruct Hok0 as [Hrcv Hsnd Henv Htmr Hgap Hfresh]. split; try assumption.
      destruct Henv. split; try assumption. done. }
    destruct (build_rst_ok self1 s Hok1 Hs) as (frame & -> & Hc).
    exists self1, (Some frame). unfold polled. rewrite Ep. split_and!; try done; [|by left].
    eexists _, []. split; [exact Hc|]. apply bare_sent; try reflexivity; [done|done|by left]. }
  destruct (state self) eqn:Est; try (by eapply sending_poll).
  1,2: exists self0, None; split; [done|]; by apply Hlift.
  - destruct (syn_sent_poll self0 now Hok0 Est) as (self' & out & H1 & H2 & H3 & H4).
    cbv zeta in H1. rewrite H1. exists self', out. split; [done|]. apply Hlift; try done. by rewrite H4.
  - destruct (syn_received_poll self0 now Hok0 Est) as (self' & out & H1 & H2 & H3 & H4).
    cbv zeta in H1. rewrite H1. exists self', out. split; [done|]. apply Hlift; try done. by rewrite H4.
  - destruct (transmit_ack_ok self0 Hok0) as (self' & out & H1 & H2 & H3 & H4 & _).
    exists self', out. split; [done|]. apply Hlift; try done. by rewrite H4.
Qed.

End poll.

(** *** Properties *)

Section properties.
Context {C : Type} `{CC : CongestionControl C} {CL : CongestionLaws C}.

(** C10 — refinement.  A transmit poll never panics, keeps the connection's
    invariant, and what it emits is the byte stream: any frame parses at the
    peer with valid checksums; its data are exactly the octets the application
    wrote at the sequence number it claims, at most a segment of them (or one
    octet probing a closed window); SND.NXT moves exactly past what is sent and
    never back; new data fits the congestion window above the pipe and the
    peer's window; a FIN follows the last octet; the acknowledgement number and
    the window are the receiver's, whose right edge does not shrink. *)
Theorem poll_transmit_sends_the_stream (self : Tcb C) now :
  tcb_ok self ->
  exists self' out, poll_transmit self now = Some (self', out) /\ tcb_ok self' /\
    match out with
    | None => out_view self' = out_view self
    | Some frame => exists r dat,
        frame_carries frame (local self) (remote self) r dat /\ sent self self' r dat
    end /\
    (state self' = state self \/ is_some out = true /\ state self' = fin_state (state self)).
Proof.
  intros Hok. destruct (poll_transmit_core self now Hok) as (self' & out & E & H1 & H2 & H3 & _).
  exists self', out. split_and!; done.
Qed.


(** C12 — bounds.  The window a segment advertises is computed without a panic or a
    wrap: its right edge never moves left, it covers exactly the larger of what
    was promised before and the free receive space (bounded by what the 16-bit
    field can express at the negotiated scale), and never exceeds RX_BUFFER. *)
Theorem advertised_window_never_shrinks (self : Tcb C) :
  tcb_ok self ->
  exists adv w, advertised_window self = (self <| rcv_adv := adv |>, w) /\
    0 <= distance adv (rcv_adv self) /\ w = distance adv (rcv_nxt self) /\ 0 <= w <= RX_BUFFER /\
    w = Z.max (distance (rcv_adv self) (rcv_nxt self))
          (Z.min (sat_sub RX_BUFFER (RingBuffer.len (rx self) + buffered (reasm self)))
                 (Z.shiftl 0xFFFF (rcv_wscale self))).
Proof.
  intros Hok. destruct (advertised_window_ok self Hok) as (adv & w & H1 & _ & H2 & H3 & H4 & H5).
  by exists adv, w.
Qed.

End properties.

Lemma poll_transmit_sends_the_stream_witness :
  exists self' frame r dat, poll_transmit demo_tcb 7 = Some (self', Some frame) /\ tcb_ok self' /\
    frame_carries frame demo_local demo_remote r dat /\ sent demo_tcb self' r dat.
Proof.
  destruct (poll_transmit_sends_the_stream demo_tcb 7 demo_tcb_ok) as (self' & out & E & Hok & Ho & _).
  destruct out as [frame|].
  - destruct Ho as (r & dat & Hf & Hs). exists self', frame, r, dat.
    split; [exact E|]. split; [exact Hok|]. split; [exact Hf|exact Hs].
  - exfalso. vm_compute in E. discriminate E.
Defined.


Lemma advertised_window_never_shrinks_witness :
  exists adv w, advertised_window demo_tcb = (demo_tcb <| rcv_adv := adv |>, w) /\ w = 65535.
Proof.
  destruct (advertised_window_never_shrinks demo_tcb demo_tcb_ok) as (adv & w & E & _ & _ & _ & Hw).
  exists adv, w. split; [exact E|]. rewrite Hw. reflexivity.
Defined.
