(* ===== verification/TcbLife.v ===== *)
(** The rest of a connection's life: the constructors, the application's calls
    and the timers of [tcp-core/src/tcb.rs], and the invariant over any
    interleaving of all operations. *)

From stdpp Require Import relations.
From S2P Require Import Prelude Seq Time Buffers Rtt Checksum Ipv4 TcpWire Sack Reasm Congestion Endpoint Tcb TcbInv TcbRecv TcbSegment TcbOut TcbTransmit TcbPoll TcbDemo.
Import RingBuffer (RingBuffer, mkRing, buf, capacity).

Section life.
Context {C : Type} `{CC : CongestionControl C} {CL : CongestionLaws C}.
Context (Cc_new : CcKind -> Z -> C).
Context (Cc_new_ok : forall k m, 0 < m <= U16_MAX -> cc_ok m (Cc_new k m)).

(** *** Constructors *)

Lemma mss_ok m adv : MSS_DEFAULT <= adv <= MSS_MAX -> m <> Some 0 ->
  (forall v, m = Some v -> is_u16 v) -> 0 < Z.min (default MSS_DEFAULT m) adv <= adv.
Proof.
  unfold MSS_DEFAULT, MSS_MAX. intros Ha Hm Hr. destruct m as [v|]; cbn [default from_option id]; [|lia].
  specialize (Hr v eq_refl). unfold is_u16 in Hr. assert (v <> 0) by congruence. lia.
Qed.

Lemma snd_inv_fresh st i sack :
  seq_ok i -> st = SynSent \/ st = SynReceived ->
  snd_inv st i i i (RingBuffer.with_capacity TX_BUFFER) None false sack scoreboard_new.
Proof.
  intros Hi Hst. split; try done.
  - by apply in_half_self.
  - constructor.
  - intros _. rewrite off_self. by split_and!.
  - intros _. rewrite off_self. split; [done|]. left. done.
  - intros [E|E]; destruct Hst as [H|H]; congruence.
  - apply sb_wf_new; [done|by apply in_half_self].
Qed.

Lemma rcv_inv_fresh n a sack :
  seq_ok n -> seq_ok a -> 0 <= distance a n <= RX_BUFFER ->
  rcv_inv n a (RingBuffer.with_capacity RX_BUFFER) reasm_new false sack.
Proof.
  intros Hn Ha Hd. split; try done; try apply List.Forall_nil.
  - cbn [Z.b2z]. lia.
  - change (RingBuffer.len (RingBuffer.with_capacity RX_BUFFER)) with 0. lia.
Qed.

Lemma new_syn_sent_ok lo re i now adv :
  endpoint_ok lo -> endpoint_ok re -> seq_ok i -> MSS_DEFAULT <= adv <= MSS_MAX ->
  tcb_ok (new_syn_sent Cc_new lo re i now adv).
Proof.
  intros Hl Hr Hi Ha. split; try done.
  - by apply snd_inv_fresh; [|left].
  - split; try done; try apply Rtt.rtt_new_wf;
      [change (0 < MSS_DEFAULT <= adv)|apply Cc_new_ok]; unfold MSS_DEFAULT, MSS_MAX in *; lia.
  - intros _ Hne. by destruct (Hne eq_refl).
Qed.

Lemma new_syn_received_ok lo re syn x i now adv :
  endpoint_ok lo -> endpoint_ok re -> seq_ok i -> MSS_DEFAULT <= adv <= MSS_MAX ->
  reads syn x -> a_mss x <> Some 0 ->
  exists self, new_syn_received Cc_new lo re syn i now adv = Some self /\ tcb_ok self /\
    state self = SynReceived /\ irs self = a_seq x /\ rcv_nxt self = seq_add (a_seq x) 1 /\
    rcv_adv self = seq_add (rcv_nxt self) 65535 /\ iss self = i /\ snd_nxt self = i /\
    snd_mss self = Z.min (default MSS_DEFAULT (a_mss x)) adv /\ snd_wnd self = a_window x /\
    sack_enabled self = a_sp x /\ ts_enabled self = is_some (a_ts x) /\
    window_scaling self = is_some (a_ws x) /\ snd_wscale self = default 0 (a_ws x) /\
    local self = lo /\ remote self = re.
Proof.
  intros Hl Hr Hi Ha Hx Hm. destruct (rd_mss _ _ Hx) as [Em Hmr]. destruct (rd_seq _ _ Hx) as [Es Hs].
  destruct (rd_ws _ _ Hx) as [Ew Hwr]. destruct (rd_ts _ _ Hx) as [Et Htr].
  destruct (rd_window _ _ Hx) as [Ewin _]. pose proof (rd_sp _ _ Hx) as Ep.
  pose proof (mss_ok (a_mss x) adv Ha Hm Hmr) as Hmss.
  unfold new_syn_received. rewrite Em, Es, Ep, Ew, Et, Ewin. cbv zeta.
  assert (Hrcv : forall sack, rcv_inv (seq_add (a_seq x) 1) (seq_add (seq_add (a_seq x) 1) (Z.min RX_BUFFER 65535))
    (RingBuffer.with_capacity RX_BUFFER) reasm_new false sack).
  { intros. apply rcv_inv_fresh; try apply seq_add_ok.
    change (Z.min RX_BUFFER 65535) with 65535. rewrite distance_plus; [done|apply seq_add_ok|lia]. }
  assert (Hcc : cc_ok (Z.min (default MSS_DEFAULT (a_mss x)) adv)
    (Cc_new CcReno (Z.min (default MSS_DEFAULT (a_mss x)) adv)))
    by (apply Cc_new_ok; unfold MSS_MAX in *; lia).
  destruct (a_ws x) as [w|], (a_ts x) as [[v e]|]; eexists; (split; [reflexivity|]); (split; [|by split_and!]);
    (split; [apply Hrcv|by apply snd_inv_fresh; [|right]|split; try done; try apply Rtt.rtt_new_wf
      |by intros _|done|done]).
  all: try (by apply Hwr); try (by apply (Htr v e)).
Qed.

(** *** The application's calls *)

Lemma bytes_ok_ztake n l : bytes_ok l -> bytes_ok (ztake n l).
Proof. apply Forall_take. Qed.

Lemma send_ok (self : Tcb C) dat :
  tcb_ok self -> bytes_ok dat ->
  exists self' n, send self dat = (self', n) /\ tcb_ok self' /\ 0 <= n <= zlen dat /\
    (if match state self with Established | CloseWait => true | _ => false end then
       n = Z.min (zlen dat) (tx_free self) /\ buf (tx self') = buf (tx self) ++ ztake n dat
     else self' = self /\ n = 0).
Proof.
  intros Hok Hd. pose proof (zlen_nonneg dat) as H0.
  assert (Hcase : forall st, state self = st -> st = Established \/ st = CloseWait ->
    exists self' n, (let '(tx', n) := RingBuffer.write (tx self) dat in (self <| tx := tx' |>, n)) = (self', n) /\
    tcb_ok self' /\ 0 <= n <= zlen dat /\ n = Z.min (zlen dat) (tx_free self) /\
    buf (tx self') = buf (tx self) ++ ztake n dat).
  { intros st Est Hst. pose proof (ok_snd _ Hok) as Hsnd. pose proof (si_len _ _ _ _ _ _ _ _ _ Hsnd) as Hl.
    pose proof (si_cap _ _ _ _ _ _ _ _ _ Hsnd) as Hcap.
    unfold RingBuffer.write. set (n := Z.min (zlen dat) (RingBuffer.free (tx self))).
    assert (Hn : 0 <= n <= zlen dat /\ RingBuffer.len (tx self) + n <= TX_BUFFER)
      by (unfold n, RingBuffer.free in *; lia).
    eexists _, _. split; [reflexivity|]. split; [|split; [lia|by split]].
    destruct Hok as [Hrcv [Hi Hu Hn' Hc _ Hb Hop Hfl Hfin Hsd Hfa Hsb Hns] Henv Htmr Hgap Hfresh].
    split; try assumption.
    assert (Hlen : zlen (buf (tx self) ++ ztake n dat) = RingBuffer.len (tx self) + n)
      by (rewrite zlen_app, zlen_ztake; unfold RingBuffer.len; lia).
    assert (Hfs : fin_seq self = None).
    { destruct (fin_seq self) eqn:E; [|done]. destruct Hsd as [? ?]; [done|]. destruct Hst; congruence. }
    change (snd_inv (state self) (iss self) (snd_una self) (snd_nxt self)
      (mkRing (buf (tx self) ++ ztake n dat) (capacity (tx self)))
      (fin_seq self) (fin_acked self) (sack_enabled self) (scoreboard self)).
    split; try done; unfold RingBuffer.len; cbn [buf capacity].
    - rewrite Hlen. lia.
    - apply Forall_app. split; [done|by apply bytes_ok_ztake].
    - intros [E|E]; destruct Hst; congruence.
    - intros E. split; [by apply Hfl|]. rewrite Hlen. destruct (Hfl E) as [_ [?|(_ & _ & Hx)]]; [left; lia|].
      destruct Hst, Hx as [?|[?|?]]; congruence.
    - intros f E. congruence. }
  unfold send. destruct (state self) eqn:Est.
  5: by apply (Hcase Established); [|left]. 7: by apply (Hcase CloseWait); [|right].
  all: exists self, 0; by split_and!.
Qed.

Lemma recv_ok (self : Tcb C) n :
  tcb_ok self -> 0 <= n ->
  exists self', recv self n = Some (self', ztake n (buf (rx self))) /\ tcb_ok self' /\
    buf (rx self') = zdrop n (buf (rx self)).
Proof.
  intros Hok Hn. unfold recv. rewrite RingBuffer.read_spec. eexists. split; [done|].
  assert (Hz : zdrop (Z.min n (RingBuffer.len (rx self))) (buf (rx self)) = zdrop n (buf (rx self))).
  { destruct (Z.le_gt_cases n (RingBuffer.len (rx self))); [by rewrite Z.min_l by lia|].
    rewrite Z.min_r by lia. unfold RingBuffer.len in *. by rewrite !zdrop_all by lia. }
  rewrite Hz. split; [|done].
  destruct Hok as [[Hr Ha Hcap Hwin Hbud Hwf Hin Hns] Hsnd Henv Htmr Hgap Hfresh].
  split; try assumption.
  - split; try assumption. unfold RingBuffer.len in *. cbn. rewrite zlen_zdrop. pose proof (zlen_nonneg (buf (rx self))). lia.
  - intros E. destruct (Hfresh E) as (E1 & E2 & E3). split_and!; try done.
    change (zdrop n (buf (rx self)) = []). rewrite E1. unfold zdrop. by rewrite drop_nil.
Qed.

Lemma close_ok (self : Tcb C) : tcb_ok self -> tcb_ok (close self).
Proof. intros H. tcb_frame H. Qed.

Lemma set_congestion_control_ok (self : Tcb C) k :
  tcb_ok self -> tcb_ok (set_congestion_control Cc_new self k).
Proof.
  intros H. unfold set_congestion_control. destruct (negb _); [|done]. cbv zeta.
  destruct H as [Hrcv Hsnd Henv Htmr Hgap Hfresh]. split; try assumption.
  eapply cc_env; [|exact Henv]. apply Cc_new_ok.
  pose proof (ei_mss _ _ _ _ _ _ _ _ _ _ _ _ Henv). pose proof (ei_adv _ _ _ _ _ _ _ _ _ _ _ _ Henv).
  change (snd_mss (self <| cc_kind := k |>)) with (snd_mss self). unfold MSS_MAX in *. lia.
Qed.

(** *** Timers *)

(** No more than 2^32 - 2 consecutive timeouts: at 200 ms or more each, 27 years. *)
Definition timeouts_left (self : Tcb C) : Prop := consecutive_timeouts (rtt self) < U32_MAX.

Lemma rtt_env (lo re : Endpoint) a m (c : C) r r' w1 w2 t1 t2 cep pd :
  Rtt.wf r' -> env_inv lo re a m c r w1 w2 t1 t2 cep pd -> env_inv lo re a m c r' w1 w2 t1 t2 cep pd.
Proof. intros Hr []. by split. Qed.

Lemma snd_inv_rto st iss una nxt tx fs fa sack sb :
  snd_inv st iss una nxt tx fs fa sack sb -> snd_inv st iss una nxt tx fs fa sack (sb_on_rto sb).
Proof.
  intros [Hi Hu Hn Hc Hl Hb Hop Hfl Hfin Hsd Hfa Hsb Hns]. assert (He : sb_empty sb -> sb_empty (sb_on_rto sb)) by (intros [E _]; split; [exact E|done]).
  split; try done.
  - intros Ho. destruct (Hop Ho) as (? & ? & ? & ? & ?). split_and!; auto.
  - exact (sb_wf_clear _ _ _ None false Hsb).
  - auto.
Qed.

(** What the retransmission timer does: a SYN is retried or given up; anything
    else collapses the window, backs the timer off and schedules the oldest
    octet, keeping the send space. *)
Definition rto_fired (self self' : Tcb C) : Prop :=
  snd_una self' = snd_una self /\ snd_nxt self' = snd_nxt self /\ tx self' = tx self /\
  rcv_view self' = rcv_view self /\ conn_view self' = conn_view self /\
  pending_reset self' = pending_reset self /\ time_wait_deadline self' = time_wait_deadline self /\
  (if state_eqb (state self) SynSent then
     if MAX_SYN_RETRIES <=? syn_retries self + 1 then state self' = Closed /\ rtx_deadline self' = None
     else state self' = SynSent /\ retransmit self' = true /\ syn_retries self' = syn_retries self + 1 /\
          rto (rtt self') = Z.min (rto (rtt self) * 2) MAX_RTO
   else state self' = state self /\ retransmit self' = true /\
        rto (rtt self') = Z.min (rto (rtt self) * 2) MAX_RTO /\
        gbn_recover self' = Some (snd_nxt self)).

Lemma fire_rtx_ok (self : Tcb C) now :
  tcb_ok self -> timeouts_left self ->
  exists self', fire_rtx self now = Some self' /\ tcb_ok self' /\
    if due now (rtx_deadline self) then rto_fired self self' else self' = self.
Proof.
  intros Hok Hleft. unfold fire_rtx. destruct (due now (rtx_deadline self)); cbn [andb]; [|by exists self].
  destruct (Rtt.on_timeout_spec (rtt self)) as (r & Er & Hr & Hrto & _);
    [apply (ei_rtt _ _ _ _ _ _ _ _ _ _ _ _ (ok_env _ Hok))|exact Hleft|].
  unfold rto_fired, state_eqb. case_bool_decide as Hst.
  - cbv zeta. change (syn_retries (self <| syn_retries := syn_retries self + 1 |>)) with (syn_retries self + 1).
    destruct (_ <=? _).
    + eexists. split; [done|]. split; [|by split_and!].
      apply tcb_ok_closed in Hok. destruct Hok as [Hrcv Hsnd Henv Htmr Hgap Hfresh].
      split; try assumption. intros Hcl. by destruct Hcl.
    + change (rtt (self <| syn_retries := syn_retries self + 1 |> <| retransmit := true |>)) with (rtt self).
      rewrite Er. eexists. split; [done|]. split; [|by split_and!].
      apply restart_rtx_ok. destruct Hok as [Hrcv Hsnd Henv Htmr Hgap Hfresh]. split; try assumption.
      by eapply rtt_env.
  - cbv zeta. pose proof (ei_cc _ _ _ _ _ _ _ _ _ _ _ _ (ok_env _ Hok)) as Hc.
    destruct (cc_on_rto_ok (snd_mss self) (cc self) now (offset_from (snd_nxt self) (snd_una self)))
      as (c & Ec & Hc'); [done|apply wrap32_range|].
    rewrite Ec. change (rtt (self <| cc := c |>)) with (rtt self). rewrite Er.
    set (self1 := self <| cc := c |> <| rtt := r |>).
    assert (Hok1 : tcb_ok self1).
    { destruct Hok as [Hrcv Hsnd Henv Htmr Hgap Hfresh]. split; try assumption.
      eapply cc_env; [exact Hc'|]. by eapply rtt_env. }
    eexists. split; [done|]. split.
    + apply restart_rtx_ok. destruct (sack_enabled self1); [|tcb_frame Hok1].
      destruct Hok1 as [Hrcv Hsnd Henv Htmr Hgap Hfresh]. split; try assumption. exact (snd_inv_rto _ _ _ _ _ _ _ _ _ Hsnd).
    + destruct (sack_enabled self1); by split_and!.
Qed.

(** The timers other than the retransmission timer. *)
Lemma on_timer_spec (self : Tcb C) now :
  tcb_ok self -> timeouts_left self ->
  exists self1 self', fire_rtx self now = Some self1 /\ on_timer self now = Some self' /\ tcb_ok self' /\
    retransmit self' = retransmit self1 /\ rtt self' = rtt self1 /\ snd_view self' = snd_view self1 /\
    rcv_view self' = rcv_view self1 /\ conn_view self' = conn_view self1 /\
    pending_reset self' = pending_reset self1 /\
    state self' = (if due now (time_wait_deadline self1) then Closed else state self1).
Proof.
  intros Hok Hleft. unfold on_timer.
  destruct (fire_rtx_ok self now Hok Hleft) as (self1 & -> & Hok1 & _). cbv zeta.
  exists self1. set (self2 := if due now (persist_deadline self1) then _ else self1).
  assert (H2 : tcb_ok self2 /\ retransmit self2 = retransmit self1 /\ rtt self2 = rtt self1 /\ snd_view self2 = snd_view self1 /\
    rcv_view self2 = rcv_view self1 /\ conn_view self2 = conn_view self1 /\
    pending_reset self2 = pending_reset self1 /\ state self2 = state self1 /\
    time_wait_deadline self2 = time_wait_deadline self1).
  { unfold self2. destruct (due now (persist_deadline self1)); [|done]. split; [tcb_frame Hok1|done]. }
  clearbody self2. destruct H2 as (Hok2 & E1 & E0 & E2 & E3 & E4 & E5 & E6 & ->).
  set (self3 := if due now (time_wait_deadline self1) then _ else self2).
  assert (H3 : tcb_ok self3 /\ retransmit self3 = retransmit self2 /\ rtt self3 = rtt self2 /\ snd_view self3 = snd_view self2 /\
    rcv_view self3 = rcv_view self2 /\ conn_view self3 = conn_view self2 /\
    pending_reset self3 = pending_reset self2 /\
    state self3 = if due now (time_wait_deadline self1) then Closed else state self2).
  { unfold self3. destruct (due now (time_wait_deadline self1)); [|done].
    split; [by apply tcb_ok_closed|done]. }
  clearbody self3. destruct H3 as (Hok3 & F1 & F0 & F2 & F3 & F4 & F5 & F6). rewrite E6 in F6.
  rewrite E1 in F1. rewrite E0 in F0. rewrite E2 in F2. rewrite E3 in F3. rewrite E4 in F4. rewrite E5 in F5.
  eexists. split; [done|]. split; [done|].
  destruct (due now (delayed_ack_deadline self3)).
  - split; [tcb_frame Hok3|]. repeat (split; [assumption|]). exact F6.
  - split; [exact Hok3|]. by split_and!.
Qed.

Lemma on_timer_ok (self : Tcb C) now :
  tcb_ok self -> timeouts_left self -> exists self', on_timer self now = Some self' /\ tcb_ok self'.
Proof.
  intros Hok Hleft. destruct (on_timer_spec self now Hok Hleft) as (_ & self' & _ & H1 & H2 & _).
  by exists self'.
Qed.

(** *** All operations, in any order *)

(** How a connection comes into being. *)
Inductive opened : Tcb C -> Prop :=
| opened_active lo re i now adv :
    endpoint_ok lo -> endpoint_ok re -> seq_ok i -> MSS_DEFAULT <= adv <= MSS_MAX ->
    opened (new_syn_sent Cc_new lo re i now adv)
| opened_passive lo re syn x i now adv self :
    endpoint_ok lo -> endpoint_ok re -> seq_ok i -> MSS_DEFAULT <= adv <= MSS_MAX ->
    reads syn x -> a_mss x <> Some 0 ->
    new_syn_received Cc_new lo re syn i now adv = Some self -> opened self.

(** One call on a connection: a segment that arrives ([honest]), a poll of the
    transmitter, a timer sweep, or a call of the application. *)
Inductive tcb_step : Tcb C -> Tcb C -> Prop :=
| step_segment self now tcp x ce self' :
    reads tcp x -> honest self x -> on_segment Cc_new self now tcp ce = Some self' -> tcb_step self self'
| step_transmit self now self' out : poll_transmit self now = Some (self', out) -> tcb_step self self'
| step_timer self now self' : timeouts_left self -> on_timer self now = Some self' -> tcb_step self self'
| step_send self dat self' n : bytes_ok dat -> send self dat = (self', n) -> tcb_step self self'
| step_recv self n self' out : 0 <= n -> recv self n = Some (self', out) -> tcb_step self self'
| step_close self : tcb_step self (close self)
| step_set_cc self k : tcb_step self (set_congestion_control Cc_new self k).

Lemma opened_ok self : opened self -> tcb_ok self.
Proof.
  intros [lo re i now adv Hl Hr Hi Ha|lo re syn x i now adv self' Hl Hr Hi Ha Hx Hm E].
  - by apply new_syn_sent_ok.
  - destruct (new_syn_received_ok lo re syn x i now adv Hl Hr Hi Ha Hx Hm) as (self1 & E1 & Hok & _).
    congruence.
Qed.

Lemma tcb_step_ok self self' : tcb_step self self' -> tcb_ok self -> tcb_ok self'.
Proof.
  intros [s now tcp x ce s' Hx Hh E|s now s' out E|s now s' Hl E|s dat s' n Hd E|s n s' out Hn E|s|s k] Hok.
  - destruct (on_segment_core Cc_new Cc_new_ok s now tcp x ce Hok Hx Hh) as (s1 & E1 & ?). congruence.
  - destruct (poll_transmit_core s now Hok) as (s1 & out1 & E1 & ? & _). congruence.
  - destruct (on_timer_ok s now Hok Hl) as (s1 & E1 & ?). congruence.
  - destruct (send_ok s dat Hok Hd) as (s1 & n1 & E1 & ? & _). congruence.
  - destruct (recv_ok s n Hok Hn) as (s1 & E1 & ? & _). congruence.
  - by apply close_ok.
  - by apply set_congestion_control_ok.
Qed.

Lemma reachable_ok self0 self : opened self0 -> rtc tcb_step self0 self -> tcb_ok self.
Proof.
  intros Ho Hs. apply opened_ok in Ho. induction Hs as [|a b c Hab _ IH]; [done|].
  apply IH. by eapply tcb_step_ok.
Qed.


(** *** Waking up *)

Lemma fold_min_spec ds d : 
  let m := fold_left Z.min ds d in (m = d \/ In m ds) /\ m <= d /\ forall x, In x ds -> m <= x.
Proof.
  revert d. induction ds as [|e ds IH]; intros d; cbn [fold_left].
  { split; [by left|]. split; [lia|done]. }
  destruct (IH (Z.min d e)) as (H1 & H2 & H3). cbv zeta. cbn [In]. split_and!.
  - destruct H1 as [->|H1]; [|tauto]. destruct (Z.min_spec d e) as [[_ ->]|[_ ->]]; tauto.
  - lia.
  - intros x [<-|Hx]; [lia|auto].
Qed.

Definition deadlines (self : Tcb C) : list (option Instant) :=
  [rtx_deadline self; persist_deadline self; time_wait_deadline self; delayed_ack_deadline self;
   pace_deadline self].

Lemma In_omap_id (ds : list (option Z)) x : In x (omap id ds) <-> In (Some x) ds.
Proof.
  induction ds as [|[y|] ds IH]; cbn; [done| |].
  - split; intros [H|H]; try (left; congruence); right; tauto.
  - split; [tauto|]. intros [|]; [congruence|tauto].
Qed.

(** C14 — liveness.  The backend that sleeps until [poll_at] never oversleeps: the
    answer is an armed deadline and none is earlier, it is [None] only when no
    timer is armed, and while anything is outstanding on a connection that is
    not closed there is an answer, at or before the retransmission timeout. *)
Theorem poll_at_never_oversleeps (self : Tcb C) :
  tcb_ok self ->
  match poll_at self with
  | Some d => In (Some d) (deadlines self) /\ forall e, In (Some e) (deadlines self) -> d <= e
  | None => forall e, ~ In (Some e) (deadlines self)
  end /\
  (state self <> Closed -> snd_una self <> snd_nxt self ->
   exists d r, poll_at self = Some d /\ rtx_deadline self = Some r /\ d <= r).
Proof.
  intros Hok. assert (H : match poll_at self with
    | Some d => In (Some d) (deadlines self) /\ forall e, In (Some e) (deadlines self) -> d <= e
    | None => forall e, ~ In (Some e) (deadlines self) end).
  { unfold poll_at. match goal with |- context [match ?l with [] => None | _ => _ end] =>
      assert (HI : forall x, In x l <-> In (Some x) (deadlines self)) by (exact (In_omap_id (deadlines self)));
      destruct l as [|d ds] end; [intros e He; by apply HI in He|].
    destruct (fold_min_spec ds d) as (H1 & H2 & H3). split.
    - apply HI. destruct H1 as [H1|H1]; [left; congruence|by right].
    - intros e He. apply HI in He as [<-|He]; [done|auto]. }
  split; [exact H|]. intros Hc Hne. pose proof (ok_tmr _ Hok Hc Hne) as Hr.
  destruct (rtx_deadline self) as [r|] eqn:Er; [|done].
  assert (Hin : In (Some r) (deadlines self)) by (left; congruence).
  destruct (poll_at self) as [d|]; [|by destruct (H r Hin)].
  destruct H as [_ H]. exists d, r. auto.
Qed.


End life.

(** *** Witnesses *)

Definition demo_syn_sent : Tcb Reno.Reno := new_syn_sent demo_cc_new demo_local demo_remote 7 0 1460.

Lemma demo_opened : opened demo_cc_new demo_syn_sent.
Proof. apply opened_active; [exact demo_local_ok|exact demo_remote_ok|done|done]. Defined.


Lemma poll_at_never_oversleeps_witness :
  poll_at demo_tcb = Some 1000000 /\
  (forall e, In (Some e) (deadlines demo_tcb) -> 1000000 <= e).
Proof.
  destruct (poll_at_never_oversleeps demo_tcb demo_tcb_ok) as [H _].
  split; [reflexivity|]. exact (proj2 H).
Defined.

