(* ===== verification/TcbWork.v ===== *)
(** The transmit loop ends: every segment [Tcb::poll_transmit] emits consumes
    work that nothing in the loop replenishes. *)

From S2P Require Import Prelude Seq Time Buffers Rtt Checksum Ipv4 TcpWire Sack Reasm Congestion Endpoint Tcb TcbInv TcbRecv TcbOut TcbTransmit TcbPoll.
Import RingBuffer (RingBuffer, mkRing, buf, capacity).

(** *** Counting *)

Lemma count_from_le P Q n x :
  (forall y, x <= y < x + Z.of_nat n -> Q y = true -> P y = true) -> count_from Q n x <= count_from P n x.
Proof.
  revert x. induction n as [|n IH]; intros x H; cbn [count_from]; [lia|].
  specialize (IH (x + 1) ltac:(intros y Hy; apply H; lia)).
  pose proof (H x ltac:(lia)) as Hx. destruct (Q x), (P x); cbn; lia.
Qed.

Lemma count_from_lt P Q n x z :
  (forall y, x <= y < x + Z.of_nat n -> Q y = true -> P y = true) ->
  x <= z < x + Z.of_nat n -> P z = true -> Q z = false -> count_from Q n x < count_from P n x.
Proof.
  revert x. induction n as [|n IH]; intros x H Hz HP HQ; [lia|]. cbn [count_from].
  assert (H' : forall y, x + 1 <= y < x + 1 + Z.of_nat n -> Q y = true -> P y = true)
    by (intros y Hy; apply H; lia).
  destruct (Z.eq_dec z x) as [->|Hne].
  - rewrite HP, HQ. cbn. pose proof (count_from_le P Q n (x + 1) H'). lia.
  - specialize (IH (x + 1) H' ltac:(lia) HP HQ).
    pose proof (H x ltac:(lia)) as Hx. destruct (Q x), (P x); cbn; lia.
Qed.

Section work.
Context {C : Type} `{CC : CongestionControl C} {CL : CongestionLaws C}.

(** Bytes queued and not yet sent. *)
Definition unsent (self : Tcb C) : Z :=
  RingBuffer.len (tx self) - Z.min (off (snd_una self) (snd_nxt self)) (RingBuffer.len (tx self)).

(** Octets in flight that selective repair has not resent. *)
Definition unmarked (una nxt : SeqNumber) (b : Scoreboard) : Z :=
  count_from (fun x => negb (is_rexmit b (seq_add una x))) (Z.to_nat (off una nxt)) 0.

Definition opening (st : State) : bool := match st with SynSent | SynReceived => true | _ => false end.

(** What is left to say: one-shot flags, the SYN, the FIN, unsent bytes, and holes. *)
Definition work (self : Tcb C) : Z :=
  Z.b2z (is_some (pending_reset self)) + Z.b2z (retransmit self) + Z.b2z (send_probe self) +
  Z.b2z (needs_ack self) + 2 * Z.b2z (is_none (fin_seq self)) +
  2 * Z.b2z (opening (state self) && (snd_nxt self =? iss self)) +
  2 * unsent self + unmarked (snd_una self) (snd_nxt self) (scoreboard self).

Lemma unmarked_bound una nxt b : 0 <= unmarked una nxt b <= off una nxt.
Proof.
  unfold unmarked. pose proof (off_range una nxt).
  pose proof (count_from_bound (fun x => negb (is_rexmit b (seq_add una x))) (Z.to_nat (off una nxt)) 0). lia.
Qed.

Lemma work_nonneg (self : Tcb C) : 0 <= work self.
Proof.
  unfold work, unsent. pose proof (unmarked_bound (snd_una self) (snd_nxt self) (scoreboard self)).
  pose proof (off_range (snd_una self) (snd_nxt self)).
  pose proof (zlen_nonneg (buf (tx self)) : 0 <= RingBuffer.len (tx self)).
  destruct (is_some _), (retransmit _), (send_probe _), (needs_ack _), (is_none _), (_ && _); cbn [Z.b2z]; lia.
Qed.

(** [build] changes nothing the work depends on. *)
Lemma build_shape (self : Tcb C) s f dat self' frame :
  build self s f dat = Some (self', frame) ->
  exists adv, self' = self <| delayed_ack_deadline := None |> <| unacked_segs := 0 |> <| rcv_adv := adv |>.
Proof.
  unfold build. destruct (build_repr self s f) as [[self1 r]|] eqn:Er; [|done].
  assert (H : exists adv, self1 = self <| delayed_ack_deadline := None |> <| unacked_segs := 0 |>
    <| rcv_adv := adv |>).
  { unfold build_repr, advertised_window in Er. cbv zeta in Er.
    match type of Er with (let '(_, _) := ?m in _) = _ => destruct m as [fl ae] end.
    match type of Er with match ?m with _ => _ end = _ => destruct m; [|done] end.
    injection Er as <- _. by eexists. }
  destruct H as [adv ->]. destruct (build_segment _ _ _ _) as [fr|]; [|done].
  destruct (_ && _); [destruct (set_ecn _ _); [|done]|]; intros [= <- _]; by exists adv.
Qed.

Ltac build_step H :=
  match type of H with context [build ?s ?q ?f ?d] =>
    let E := fresh "Ebuild" in destruct (build s q f d) as [[? ?]|] eqn:E; [|discriminate H];
    apply build_shape in E as [? ->] end.

Definition less_work (self self' : Tcb C) (out : option (list Z)) : Prop :=
  if is_some out then work self' < work self else work self' <= work self.

(** Work through the fields it reads. *)
Definition work_view (self : Tcb C) :=
  (pending_reset self, retransmit self, send_probe self, needs_ack self, fin_seq self, state self,
   iss self, tx self, snd_una self, snd_nxt self, scoreboard self).
Lemma work_same (self self' : Tcb C) : work_view self' = work_view self -> work self' = work self.
Proof.
  unfold work_view. intros H.
  assert (pending_reset self' = pending_reset self /\ retransmit self' = retransmit self /\
    send_probe self' = send_probe self /\ needs_ack self' = needs_ack self /\ fin_seq self' = fin_seq self /\
    state self' = state self /\ iss self' = iss self /\ tx self' = tx self /\
    snd_una self' = snd_una self /\ snd_nxt self' = snd_nxt self /\ scoreboard self' = scoreboard self)
    as (E1 & E2 & E3 & E4 & E5 & E6 & E7 & E8 & E9 & E10 & E11) by (split_and!; congruence).
  unfold work, unsent. by rewrite E1, E2, E3, E4, E5, E6, E7, E8, E9, E10, E11.
Qed.

Lemma work_start_rtx (self : Tcb C) now : work (start_rtx self now) = work self.
Proof. destruct (start_rtx_eq self now) as [d ->]. by apply work_same. Qed.

(** Clearing a one-shot flag. *)
Lemma work_retransmit (self : Tcb C) :
  work (self <| retransmit := false |>) = work self - Z.b2z (retransmit self).
Proof. unfold work, unsent. cbn. lia. Qed.
Lemma work_probe (self : Tcb C) :
  work (self <| send_probe := false |>) = work self - Z.b2z (send_probe self).
Proof. unfold work, unsent. cbn. lia. Qed.
Lemma work_ack (self : Tcb C) :
  work (self <| needs_ack := false |>) = work self - Z.b2z (needs_ack self).
Proof. unfold work, unsent. cbn. lia. Qed.
Lemma work_reset (self : Tcb C) :
  work (self <| pending_reset := None |>) = work self - Z.b2z (is_some (pending_reset self)).
Proof. unfold work, unsent. cbn. lia. Qed.

Lemma retransmit_oldest_work (self : Tcb C) now fl m self' out :
  retransmit_oldest self now fl m = Some (self', out) -> less_work self self' out.
Proof.
  unfold retransmit_oldest, less_work. destruct (retransmit self && (0 <? fl)) eqn:E.
  2:{ intros [= <- <-]. cbn. lia. }
  apply andb_true_iff in E as [Er _]. pose proof (work_retransmit self) as Hw. rewrite Er in Hw. cbn [Z.b2z] in Hw.
  cbv zeta. destruct (0 <? _).
  - intros H. build_step H. injection H as <- <-. rewrite work_start_rtx. cbn [is_some].
    rewrite (work_same (self <| retransmit := false |>)) by reflexivity. lia.
  - destruct (fin_seq _) as [fs|]; [|intros [= <- <-]; cbn [is_some]; lia].
    destruct (_ && _); [|intros [= <- <-]; cbn [is_some]; lia].
    intros H. build_step H. injection H as <- <-. rewrite work_start_rtx. cbn [is_some].
    rewrite (work_same (self <| retransmit := false |>)) by reflexivity. lia.
Qed.

(** A selective retransmission marks at least the octet it starts at. *)
Lemma mark_unmarked una nxt b s n b' :
  sb_wf una nxt b -> in_half una s -> off una s < off una nxt -> is_rexmit b s = false ->
  0 < n -> off una s + n <= off una nxt -> mark_rexmit b s (seq_add s n) = Some b' ->
  unmarked una nxt b' < unmarked una nxt b.
Proof.
  intros Hb Hs Hlt Hnr Hn Hle Em. pose proof (off_range una s) as H0. pose proof (sb_una _ _ _ Hb) as Hu.
  assert (Hnx : off una nxt < 2 ^ 31) by apply (sb_nxt _ _ _ Hb).
  assert (He : in_half una (seq_add s n)) by (apply in_half_add; [done|lia|lia]).
  assert (Ho : off una (seq_add s n) = off una s + n) by (apply off_add; [apply Hs|lia]).
  destruct (sb_mark_core una nxt b s (seq_add s n) Hb Hs He ltac:(lia)) as (b1 & E1 & Hb' & _ & _ & _ & Hcov).
  rewrite Em in E1. apply (inj Some) in E1 as <-.
  assert (Hat : forall x, 0 <= x < off una nxt -> in_half una (seq_add una x) /\ off una (seq_add una x) = x).
  { intros x Hx. assert (Ex : off una (seq_add una x) = x) by (apply off_add_base; lia).
    split; [split; [apply seq_add_ok|lia]|done]. }
  unfold unmarked. apply (count_from_lt _ _ _ _ (off una s)).
  - intros y Hy. destruct (Hat y ltac:(lia)) as [Hh Ey].
    destruct (is_rexmit b (seq_add una y)) eqn:E; [|done].
    apply (is_rexmit_spec una nxt b Hb _ Hh) in E. rewrite Ey in E.
    assert (E' : is_rexmit b' (seq_add una y) = true)
      by (apply (is_rexmit_spec una nxt b' Hb' _ Hh); rewrite Ey; apply Hcov; by left).
    by rewrite E'.
  - lia.
  - rewrite seq_add_off by (done || apply Hs). by rewrite Hnr.
  - rewrite seq_add_off by (done || apply Hs).
    assert (E' : is_rexmit b' s = true)
      by (apply (is_rexmit_spec una nxt b' Hb' _ Hs); apply Hcov; right; lia).
    by rewrite E'.
Qed.

Lemma selective_retransmit_work (self : Tcb C) now m self' out :
  tcb_ok self -> selective_retransmit self now m = Some (self', out) -> less_work self self' out.
Proof.
  intros Hok. pose proof (ok_snd _ Hok) as Hsnd. pose proof (si_sb _ _ _ _ _ _ _ _ _ Hsnd) as Hsb.
  pose proof (si_len _ _ _ _ _ _ _ _ _ Hsnd) as Hlen. unfold TX_BUFFER in Hlen.
  assert (Hnone : forall p : Tcb C * option (list Z), Some (self, None) = Some p -> less_work self p.1 p.2)
    by (intros p [= <-]; unfold less_work; cbn; lia).
  unfold selective_retransmit. destruct (_ && _); [|apply (Hnone (self', out))]. cbv zeta.
  destruct (pipe _ _ _ _) as [p|]; [|done]. destruct (p <? _); [|apply (Hnone (self', out))].
  destruct (next_seg _ _ _ _) as [[[s rescue]|]|] eqn:En; [|apply (Hnone (self', out))|done].
  destruct (next_seg_unsacked _ _ _ _ _ _ Hsb En) as (Hs & Hlt & Huns & Hnr).
  destruct (unsacked_run_len_spec (snd_una self) (snd_nxt self) (scoreboard self) Hsb s (snd_nxt self))
    as (Hrun & _); [done|apply Hsnd|lia|done|].
  change (offset_from s (snd_una self)) with (off (snd_una self) s). pose proof (off_range (snd_una self) s).
  set (n := Z.min _ _). destruct (0 <? n) eqn:Epos; [|apply (Hnone (self', out))].
  assert (Hn : off (snd_una self) s + n <= off (snd_una self) (snd_nxt self) /\ n <= 262144)
    by (unfold n, sat_sub in *; lia).
  intros H'. build_step H'. cbv beta iota in H'.
  match type of H' with context [mark_rexmit ?b _ _] => change b with (scoreboard self) in H' end.
  rewrite wrap32_small in H' by (unfold is_u32; lia).
  destruct (mark_rexmit (scoreboard self) s (seq_add s n)) as [sb|] eqn:Em; [|done].
  pose proof (mark_unmarked (snd_una self) (snd_nxt self) (scoreboard self) s n sb Hsb Hs Hlt Hnr ltac:(lia) ltac:(lia) Em) as Hlt'.
  injection H' as <- <-. unfold less_work. cbn [is_some]. rewrite work_start_rtx.
  set (sb2 := if rescue then set_rescue_done sb else sb).
  assert (Hsb2 : unmarked (snd_una self) (snd_nxt self) sb2 = unmarked (snd_una self) (snd_nxt self) sb)
    by (unfold sb2; by destruct rescue).
  rewrite (work_same (self <| scoreboard := sb2 |>)) by (unfold sb2; by destruct rescue).
  unfold work, unsent. cbn. rewrite Hsb2. lia.
Qed.

Lemma unmarked_advance una nxt n b :
  in_half una nxt -> 0 <= n -> off una nxt + n < 2 ^ 31 ->
  unmarked una (seq_add nxt n) b <= unmarked una nxt b + n.
Proof.
  intros Hn H0 Hlt. pose proof (off_range una nxt). unfold unmarked.
  rewrite off_add by (apply Hn || lia). rewrite Z2Nat.inj_add by lia. rewrite count_from_app.
  match goal with |- _ + ?c <= _ => assert (c <= n) by (etrans; [apply count_from_bound|lia]) end. lia.
Qed.

Lemma send_new_data_work (self : Tcb C) now self' out :
  tcb_ok self -> opening (state self) = false ->
  let inflight := offset_from (snd_nxt self) (snd_una self) in
  let sent_data := Z.min inflight (RingBuffer.len (tx self)) in
  send_new_data self now inflight sent_data (RingBuffer.len (tx self) - sent_data)
    (max_segment_payload self) = Some (self', out) -> less_work self self' out.
Proof.
  intros Hok Hop inflight sent_data. pose proof (ok_snd _ Hok) as Hsnd.
  pose proof (si_len _ _ _ _ _ _ _ _ _ Hsnd) as Hlen. unfold TX_BUFFER in Hlen.
  pose proof (zlen_nonneg (buf (tx self)) : 0 <= RingBuffer.len (tx self)) as Hl0.
  change inflight with (off (snd_una self) (snd_nxt self)) in *. clear inflight.
  set (inflight := off (snd_una self) (snd_nxt self)) in *.
  pose proof (off_range (snd_una self) (snd_nxt self)) as Hof.
  unfold send_new_data. destruct (pipe_estimate self) as [p|]; [|done]. cbv zeta.
  set (allowed0 := Z.min (sat_sub (cc_cwnd (cc self)) p) (sat_sub (snd_wnd self) inflight)).
  destruct (pacing_spec self now allowed0 (RingBuffer.len (tx self) - sent_data)
    (wrap32 (max_segment_payload self))) as (tok & la & dl & allowed & Epace & Hal).
  cbv zeta in Epace. rewrite Epace. clear Epace.
  set (self1 := self <| pace_tokens := tok |> <| pace_last := la |> <| pace_deadline := dl |>).
  assert (Ew1 : work self1 = work self) by (by apply work_same).
  assert (Hnone : forall q : Tcb C * option (list Z), Some (self1, None) = Some q -> less_work self q.1 q.2)
    by (intros q [= <-]; unfold less_work; cbn [is_some fst snd]; lia).
  destruct (0 <? allowed) eqn:Ea.
  - set (n := Z.min (Z.min allowed _) _). destruct (0 <? n) eqn:Epos; [|apply (Hnone (self', out))].
    intros H. build_step H. rewrite wrap32_small in H by (unfold is_u32, n; lia).
    match type of H with context [set snd_nxt (fun _ => ?x) ?s] =>
      change x with (seq_add (snd_nxt self) n) in H;
      set (self2 := set snd_nxt (fun _ => seq_add (snd_nxt self) n) s) in H end.
    destruct (note_sent self2 now n) as (rs & tk & E4). cbv zeta in E4. rewrite E4 in H. clear E4.
    destruct (cc_on_transmit _ _ _ _ _ _) as [c|]; [|done].
    injection H as <- <-. unfold less_work. cbn [is_some]. rewrite work_start_rtx.
    rewrite (work_same (self <| snd_nxt := seq_add (snd_nxt self) n |>)) by reflexivity.
    assert (Hn : 0 < n <= RingBuffer.len (tx self) - sent_data) by (unfold n in *; lia).
    assert (Es : sent_data = inflight) by (unfold sent_data in *; lia).
    pose proof (unmarked_advance (snd_una self) (snd_nxt self) n (scoreboard self)
      (si_nxt _ _ _ _ _ _ _ _ _ Hsnd) ltac:(lia) ltac:(fold inflight; lia)) as Hu.
    assert (Ho : off (snd_una self) (seq_add (snd_nxt self) n) = inflight + n)
      by (apply off_add; [apply Hsnd|fold inflight; lia]).
    unfold work, unsent. cbn. rewrite Hop, Ho. fold inflight. cbn. lia.
  - destruct (_ && _ && _); [|apply (Hnone (self', out))].
    assert (Hap : work (arm_persist self1 now) = work self1).
    { unfold arm_persist. cbv zeta. destruct (is_none _); [by apply work_same|done]. }
    destruct (send_probe (arm_persist self1 now)) eqn:Esp.
    + pose proof (work_probe (arm_persist self1 now)) as Hwp. rewrite Esp in Hwp. cbn [Z.b2z] in Hwp.
      destruct (slice _ _ _) as [byte|]; [|done]. intros H. build_step H. injection H as <- <-.
      unfold less_work. cbn [is_some].
      rewrite (work_same ((arm_persist self1 now) <| send_probe := false |>)) by reflexivity. lia.
    + intros [= <- <-]. unfold less_work. cbn [is_some]. lia.
Qed.

Lemma send_fin_work (self : Tcb C) now self' out :
  tcb_ok self -> opening (state self) = false ->
  send_fin self now (seq_add (snd_una self) (wrap32 (RingBuffer.len (tx self)))) = Some (self', out) ->
  less_work self self' out.
Proof.
  intros Hok Hop. pose proof (ok_snd _ Hok) as Hsnd.
  pose proof (si_len _ _ _ _ _ _ _ _ _ Hsnd) as Hlen. unfold TX_BUFFER in Hlen.
  pose proof (zlen_nonneg (buf (tx self)) : 0 <= RingBuffer.len (tx self)) as Hl0.
  set (de := seq_add (snd_una self) (wrap32 (RingBuffer.len (tx self)))).
  assert (Ede : off (snd_una self) de = RingBuffer.len (tx self)).
  { unfold de. rewrite wrap32_small by (unfold is_u32; lia). apply off_add_base. lia. }
  unfold send_fin. destruct (fin_queued self && negb (fin_acked self) && (snd_nxt self =? de)) eqn:E.
  2:{ intros [= <- <-]. unfold less_work. cbn [is_some]. lia. }
  assert (En : snd_nxt self = de) by lia.
  assert (Hfs : fin_seq self = None).
  { destruct (fin_seq self) as [f|]; [|done].
    destruct (si_fin _ _ _ _ _ _ _ _ _ Hsnd f eq_refl) as [_ Hc].
    destruct (fin_acked self); [by destruct (fin_queued self)|]. rewrite En, Ede in Hc. lia. }
  intros H. build_step H. injection H as <- <-.
  match goal with |- context [start_rtx ?t now] => destruct (start_rtx_eq t now) as [d ->] end.
  unfold less_work. cbn [is_some].
  rewrite (work_same (self <| fin_seq := Some de |> <| snd_nxt := seq_add de 1 |>
    <| state := fin_state (state self) |>)) by reflexivity.
  pose proof (unmarked_advance (snd_una self) (snd_nxt self) 1 (scoreboard self)
    (si_nxt _ _ _ _ _ _ _ _ _ Hsnd) ltac:(lia) ltac:(rewrite En, Ede; lia)) as Hu.
  assert (Ho : off (snd_una self) (seq_add de 1) = RingBuffer.len (tx self) + 1)
    by (rewrite off_add; [lia|apply seq_add_ok|lia]).
  assert (Hop' : opening (fin_state (state self)) = false) by (by destruct (state self)).
  unfold work, unsent. cbn. rewrite Hop, Hop', Hfs, Ho. rewrite En in *. rewrite Ede. cbn. lia.
Qed.

Lemma transmit_ack_work (self : Tcb C) self' out :
  transmit_ack self = Some (self', out) -> less_work self self' out.
Proof.
  unfold transmit_ack, take_needs_ack. pose proof (work_ack self) as Hw.
  destruct (needs_ack self) eqn:E; cbn [Z.b2z] in Hw.
  - intros H. build_step H. injection H as <- <-. unfold less_work. cbn [is_some].
    rewrite (work_same (self <| needs_ack := false |>)) by reflexivity. lia.
  - intros [= <- <-]. unfold less_work. cbn [is_some]. lia.
Qed.

Lemma transmit_data_or_fin_work (self : Tcb C) now self' out :
  tcb_ok self -> sending_state (state self) = true ->
  transmit_data_or_fin self now = Some (self', out) -> less_work self self' out.
Proof.
  intros Hok Hst. assert (Hop : opening (state self) = false) by (by destruct (state self)).
  unfold transmit_data_or_fin. cbv zeta.
  destruct (retransmit_oldest_ok self now Hok) as (self1 & out1 & E1 & Hok1 & Ho1 & Hst1 & _).
  pose proof (retransmit_oldest_work _ _ _ _ _ _ E1) as W1. rewrite E1.
  destruct out1 as [f1|]; cbn [is_some]; [intros [= <- <-]; exact W1|].
  destruct (out_view_max _ _ Ho1) as (Eu1 & En1 & Et1 & _ & Em1). rewrite <- Em1.
  destruct (selective_retransmit_ok self1 now Hok1) as (self2 & out2 & E2 & Hok2 & Ho2 & Hst2 & _).
  pose proof (selective_retransmit_work _ _ _ _ _ Hok1 E2) as W2. rewrite E2.
  unfold less_work in *. cbn [is_some] in W1.
  destruct out2 as [f2|]; cbn [is_some] in *; [intros [= <- <-]; cbn [is_some]; lia|].
  destruct (out_view_max _ _ Ho2) as (Eu2 & En2 & Et2 & _ & Em2). rewrite <- Em2.
  rewrite <- Eu1, <- En1, <- Et1, <- Eu2, <- En2, <- Et2.
  destruct (send_new_data_ok self2 now Hok2) as (self3 & out3 & E3 & Hok3 & Ho3 & Hst3);
    [intros E; rewrite Hst2, Hst1 in E; by rewrite E in Hst..|].
  pose proof (send_new_data_work self2 now self3 out3 Hok2 ltac:(congruence) E3) as W3. rewrite E3.
  unfold less_work in W3.
  destruct out3 as [f3|]; cbn [is_some] in *; [intros [= <- <-]; cbn [is_some]; lia|].
  destruct (out_view_max _ _ Ho3) as (Eu3 & _ & Et3 & _). rewrite <- Eu3, <- Et3. intros E4.
  pose proof (send_fin_work self3 now self' out Hok3 ltac:(congruence) E4) as W4. unfold less_work in W4.
  destruct (is_some out); lia.
Qed.

(** The sending states: data, or a FIN, or else an acknowledgment. *)
Lemma transmit_or_ack_work (self : Tcb C) now self' out :
  tcb_ok self -> sending_state (state self) = true ->
  (let? (self1, out1) := transmit_data_or_fin self now in
   if is_some out1 then Some (self1, out1) else transmit_ack self1) = Some (self', out) ->
  less_work self self' out.
Proof.
  intros Hok Hst. destruct (transmit_data_or_fin self now) as [[self1 out1]|] eqn:E; [|done].
  pose proof (transmit_data_or_fin_work _ _ _ _ Hok Hst E) as W1.
  destruct out1 as [f|]; cbn [is_some]; [by intros [= <- <-]|].
  intros E2. pose proof (transmit_ack_work _ _ _ E2) as W2.
  unfold less_work in *. cbn [is_some] in W1. destruct (is_some out); lia.
Qed.

(** Every emission consumes work. *)
Lemma poll_transmit_work (self : Tcb C) now self' out :
  tcb_ok self -> poll_transmit self now = Some (self', out) -> less_work self self' out.
Proof.
  intros Hok. unfold poll_transmit. cbv zeta.
  set (self0 := self <| cur_tsval := wrap32 (micros now) |>).
  assert (Hok0 : tcb_ok self0).
  { destruct Hok as [Hrcv Hsnd Henv Htmr Hgap Hfresh]. split; try assumption.
    destruct Henv. split; try assumption. apply wrap32_range. }
  assert (Ew0 : work self0 = work self) by (by apply work_same).
  assert (Hl : forall s o, less_work self0 s o -> less_work self s o)
    by (unfold less_work; intros s o; by rewrite Ew0).
  intros H. apply Hl. revert H. clear Hl Ew0.
  change (pending_reset self0) with (pending_reset self). change (state self0) with (state self).
  destruct (pending_reset self) as [s|] eqn:Ep.
  { destruct (build_rst _ _) as [seg|]; [|done]. intros [= <- <-]. unfold less_work. cbn [is_some].
    rewrite work_reset. change (pending_reset self0) with (pending_reset self). rewrite Ep. cbn [is_some Z.b2z]. lia. }
  assert (Hsyn : opening (state self) = true -> (snd_nxt self =? iss self) = true ->
    forall d, work (self0 <| snd_nxt := seq_add (iss self) 1 |> <| rtx_deadline := d |>) < work self0).
  { intros Hop He d. pose proof (ok_snd _ Hok) as Hsnd.
    destruct (si_opening _ _ _ _ _ _ _ _ _ Hsnd) as (Eu & _ & Ht & _);
      [destruct (state self); try done; [by left|by right]|].
    assert (En : snd_nxt self = iss self) by lia. unfold work, unsent. cbn.
    rewrite Hop, He, Eu, En, off_self. unfold RingBuffer.len. rewrite Ht. change (zlen (@nil Z)) with 0.
    assert (Hi : seq_ok (iss self)) by apply Hsnd.
    assert (E1 : off (iss self) (seq_add (iss self) 1) = 1) by (apply off_add_base; lia).
    assert (Hne : (seq_add (iss self) 1 =? iss self) = false).
    { apply Z.eqb_neq. intros E. rewrite E, off_self in E1. lia. }
    rewrite E1, Hne. pose proof (unmarked_bound (iss self) (seq_add (iss self) 1) (scoreboard self)).
    pose proof (unmarked_bound (iss self) (iss self) (scoreboard self)). rewrite E1 in *. cbn. lia. }
  assert (Hst0 : state self0 = state self) by done.
  destruct (state self) eqn:Est.
  - intros [= <- <-]. unfold less_work. cbn [is_some]. lia.
  - intros [= <- <-]. unfold less_work. cbn [is_some]. lia.
  - destruct (snd_nxt self0 =? iss self0) eqn:E.
    + destruct (build_syn self0) as [seg|]; [|done]. intros [= <- <-]. unfold less_work. cbn [is_some].
      match goal with |- context [start_rtx ?t now] => destruct (start_rtx_eq t now) as [d ->] end.
      by apply Hsyn.
    + destruct (retransmit self0) eqn:Er; [|intros [= <- <-]; unfold less_work; cbn [is_some]; lia].
      destruct (build_syn _) as [seg|]; [|done]. intros [= <- <-]. unfold less_work. cbn [is_some].
      rewrite work_retransmit, Er. cbn. lia.
  - destruct (snd_nxt self0 =? iss self0) eqn:E.
    + intros H. build_step H. injection H as <- <-. unfold less_work. cbn [is_some].
      match goal with |- context [start_rtx ?t now] => destruct (start_rtx_eq t now) as [d ->] end.
      rewrite (work_same (self0 <| snd_nxt := seq_add (iss self) 1 |> <| rtx_deadline := Some d |>)) by reflexivity.
      by apply Hsyn.
    + destruct (retransmit self0) eqn:Er; [|apply transmit_ack_work].
      intros H. build_step H. injection H as <- <-. unfold less_work. cbn [is_some].
      rewrite (work_same (self0 <| retransmit := false |>)) by reflexivity.
      rewrite work_retransmit, Er. cbn. lia.
  - apply transmit_or_ack_work; [done|by rewrite Hst0].
  - apply transmit_or_ack_work; [done|by rewrite Hst0].
  - apply transmit_or_ack_work; [done|by rewrite Hst0].
  - apply transmit_or_ack_work; [done|by rewrite Hst0].
  - apply transmit_or_ack_work; [done|by rewrite Hst0].
  - apply transmit_or_ack_work; [done|by rewrite Hst0].
  - apply transmit_ack_work.
Qed.

End work.
