(* ===== verification/TcbEnds.v ===== *)
(** What names a connection never changes: no operation of [tcp-core/src/tcb.rs]
    writes [local], [remote], [iss] or [mss_advertise] after the constructor; and
    [poll_transmit] leaves alone what the application can observe, but for the
    state a FIN moves ([emitted]). *)

From S2P Require Import Prelude Seq Time Buffers Rtt Checksum Ipv4 TcpWire Sack Reasm Congestion Endpoint Tcb TcbInv TcbOut TcbWork.
Import RingBuffer (RingBuffer, mkRing, buf, capacity).

(** Walk through a computation [H : e = Some r], one branch per outcome. *)
Ltac walk H :=
  repeat (cbv zeta in H; match type of H with
  | None = Some _ => discriminate H
  | Some _ = Some _ => first [injection H as <- <- <- | injection H as <- <- | injection H as <-]
  | (let '(_, _) := ?e in _) = _ => destruct e eqn:?
  | match ?e with _ => _ end = _ => destruct e eqn:?
  | (if ?e then _ else _) = _ => destruct e eqn:?
  end).

Section ends.
Context {C : Type} `{CC : CongestionControl C} {CL : CongestionLaws C}.
Context (Cc_new : CcKind -> Z -> C).

Definition ident (self : Tcb C) := (local self, remote self, iss self, mss_advertise self).

(** One case analysis on the conditions of a non-failing operation. *)
Ltac same := repeat case_match; done.

Lemma update_window_ident (self : Tcb C) s a w : ident (update_window self s a w) = ident self.
Proof. unfold update_window. case_ifs; done. Qed.
Lemma start_rtx_ident (self : Tcb C) now : ident (start_rtx self now) = ident self.
Proof. destruct (start_rtx_eq self now) as [d ->]. done. Qed.
Lemma challenge_ack_ident (self : Tcb C) now : ident (challenge_ack self now) = ident self.
Proof. unfold challenge_ack. case_ifs; done. Qed.
Lemma receive_fin_ident (self : Tcb C) s f body : ident (receive_fin self s f body) = ident self.
Proof.
  unfold receive_fin. cbv zeta. set (self1 := if TcpFlags.fin f then _ else self).
  assert (E : ident self1 = ident self) by (unfold self1; case_ifs; done).
  clearbody self1. destruct (pending_fin self1); [|done]. case_ifs; exact E.
Qed.
Lemma recompute_ident (self : Tcb C) now : ident (recompute_closing_state self now) = ident self.
Proof. unfold recompute_closing_state. cbv zeta. repeat case_match; done. Qed.

(** *** Inbound *)

Lemma sample_rtt_ident (self self' : Tcb C) a t now :
  sample_rtt self a t now = Some self' -> ident self' = ident self.
Proof. unfold sample_rtt. intros H. walk H; done. Qed.
Lemma account_ecn_ident (self self' : Tcb C) ace d b now :
  account_ecn self ace d b now = Some self' -> ident self' = ident self.
Proof. unfold account_ecn. intros H. walk H; done. Qed.
Lemma advance_scoreboard_ident (self self' : Tcb C) now :
  advance_scoreboard self now = Some self' -> ident self' = ident self.
Proof. unfold advance_scoreboard. intros H. walk H; done. Qed.

Lemma advance_una_ident (self self' : Tcb C) a t ace now :
  advance_una self a t ace now = Some self' -> ident self' = ident self.
Proof.
  unfold advance_una. cbv zeta. intros H.
  match type of H with match ?e with _ => _ end = _ => destruct e as [s1|] eqn:E1; [|done] end.
  assert (I1 : ident s1 = ident self) by (walk E1; done). clear E1.
  set (s2 := match fin_seq s1 with Some f => _ | None => s1 end) in H.
  assert (I2 : ident s2 = ident self) by (unfold s2; destruct (fin_seq s1); [case_ifs|]; exact I1). clearbody s2.
  destruct (pipe_estimate _); [|done]. destruct (cc_on_ack_sample _ _ _ _ _ _ _); [|done].
  match type of H with match ?e with _ => _ end = _ => destruct e as [s3|] eqn:E3; [|done] end.
  apply account_ecn_ident in E3.
  match type of H with match ?e with _ => _ end = _ => destruct e as [s4|] eqn:E4; [|done] end.
  apply advance_scoreboard_ident in E4.
  match type of H with match ?e with _ => _ end = _ => destruct e as [s5|] eqn:E5; [|done] end.
  apply sample_rtt_ident in E5.
  assert (I5 : ident s5 = ident self).
  { rewrite E5. transitivity (ident s4); [destruct (gbn_recover s4); [case_ifs|]; done|]. rewrite E4, E3. exact I2. }
  match type of H with match ?e with _ => _ end = _ => destruct e as [s6|] eqn:E6; [|done] end.
  assert (I6 : ident s6 = ident self) by (walk E6; exact I5).
  injection H as <-. case_ifs; exact I6.
Qed.

Lemma process_ack_ident (self self' : Tcb C) s a w t ace now b :
  process_ack self s a w t ace now = Some (self', b) -> ident self' = ident self.
Proof.
  unfold process_ack. destruct (seq_gt _ _); [by intros [= <- _]|].
  intros H. destruct (if seq_gt a (snd_una self) then _ else _) as [s1|] eqn:E; [|done].
  injection H as <- _. rewrite update_window_ident.
  case_ifs_in E; [by apply advance_una_ident in E|congruence].
Qed.

Lemma sack_recovery_ident (self self' : Tcb C) tcp d now :
  sack_recovery self tcp d now = Some self' -> ident self' = ident self.
Proof.
  unfold sack_recovery. cbv zeta. intros H.
  destruct (sack_blocks _ _) as [[bs n]|]; [|done]. destruct (slice _ _ _); [|done].
  destruct (sb_update _ _ _ _) as [sb|]; [|done].
  match type of H with (if ?b then _ else _) = _ => destruct b; [|by injection H as <-] end.
  match type of H with match ?e with _ => _ end = _ => destruct e as [[s1 d3]|] eqn:E1; [|done] end.
  assert (I1 : ident s1 = ident self) by (walk E1; done). clear E1.
  destruct (_ || _); [|congruence].
  match type of H with match ?e with _ => _ end = _ => destruct e as [s2|] eqn:E2; [|done] end.
  injection H as <-. transitivity (ident s2); [done|]. rewrite <- I1. walk E2; done.
Qed.
Lemma dup_ack_recovery_ident (self self' : Tcb C) d now :
  dup_ack_recovery self d now = Some self' -> ident self' = ident self.
Proof. unfold dup_ack_recovery. intros H. walk H; case_ifs; done. Qed.

Lemma ack_segment_ident (self self' : Tcb C) now tcp s a f body ts b :
  ack_segment self now tcp s a f body ts = Some (self', b) -> ident self' = ident self.
Proof.
  unfold ack_segment. destruct (window tcp); [|done]. destruct (state_eqb _ _).
  { intros [= H]. revert H. unfold ack_syn_received. destruct (_ && _); intros [= <- _]; [|done].
    exact (update_window_ident _ _ _ _). }
  cbv zeta. destruct (TcpWire.ae tcp); [|done]. destruct (process_ack _ _ _ _ _ _ _) as [[s1 ok]|] eqn:E; [|done].
  apply process_ack_ident in E. destruct (negb ok); [by intros [= <- _]|].
  intros H. destruct (if sack_enabled s1 then _ else _) as [s2|] eqn:E2; [|done].
  injection H as <- _. rewrite <- E.
  case_ifs_in E2; [by eapply sack_recovery_ident|by eapply dup_ack_recovery_ident].
Qed.

Lemma drain_ident fuel (self self' : Tcb C) : drain fuel self = Some self' -> ident self' = ident self.
Proof.
  revert self. induction fuel as [|fuel IH]; intros self; [done|]. cbn [drain].
  destruct (pop_contiguous _ _) as [[rs run]|]; [|done]. cbv zeta.
  destruct run; [by intros [= <-]|]. destruct (RingBuffer.write _ _) as [rx' w].
  destruct (_ <? _); [by intros [= <-]|]. intros H. by apply IH in H.
Qed.

Lemma accept_data_ident (self self' : Tcb C) s body b c :
  accept_data self s body = Some (self', b, c) -> ident self' = ident self.
Proof.
  unfold accept_data. cbv zeta. intros H.
  match type of H with match ?e with _ => _ end = _ => destruct e as [[ds d]|]; [|done] end.
  destruct (_ =? 0); [congruence|]. destruct (_ =? rcv_nxt self).
  - destruct (RingBuffer.write _ _) as [rx' n]. cbv zeta in H.
    match type of H with match ?e with _ => _ end = _ => destruct e as [s1|] eqn:E; [|done] end.
    injection H as <- _ _. case_ifs_in E; [|injection E as <-; done].
    destruct (discard_below _ _); [|done]. by apply drain_ident in E.
  - case_ifs_in H; [|congruence]. destruct (Reasm.insert _ _ _ _ _); [|done]. by injection H as <- _ _.
Qed.

Lemma receive_data_ident (self self' : Tcb C) now s body ce :
  receive_data self now s body ce = Some self' -> ident self' = ident self.
Proof.
  unfold receive_data, arm_delayed_ack. destruct (_ =? 0); [congruence|]. cbv zeta.
  destruct (accept_data _ _ _) as [[[s1 b] c]|] eqn:E; [|done]. apply accept_data_ident in E.
  intros [= <-]. rewrite <- E. set (s2 := if _ && _ then _ else s1).
  assert (I : ident s2 = ident s1) by (unfold s2; case_ifs; done). clearbody s2.
  rewrite <- I. case_ifs; done.
Qed.

Lemma on_segment_syn_sent_ident (self self' : Tcb C) tcp :
  on_segment_syn_sent Cc_new self tcp = Some self' -> ident self' = ident self.
Proof.
  unfold on_segment_syn_sent. destruct (flags tcp), (seq tcp), (ack tcp); try done. cbv zeta.
  destruct (_ && negb _); [intros [= <-]; case_ifs; done|]. destruct (TcpFlags.rst _); [intros [= <-]; case_ifs; done|].
  destruct (TcpFlags.syn _); [|congruence].
  destruct (mss_option tcp), (sack_permitted tcp), (window_scale tcp) as [[]|], (timestamps tcp) as [[[]|]|],
    (window tcp); try done; intros [= <-]; case_ifs; done.
Qed.

Lemma on_segment_ident (self self' : Tcb C) now tcp ce :
  on_segment Cc_new self now tcp ce = Some self' -> ident self' = ident self.
Proof.
  unfold on_segment. destruct (state_eqb _ SynSent); [apply on_segment_syn_sent_ident|].
  destruct (seq tcp) as [s|], (ack tcp) as [a|], (flags tcp) as [f|], (payload tcp) as [body|]; try done. cbv zeta.
  destruct (if ts_enabled self then _ else _) as [ts|]; [|done].
  destruct (TcpFlags.rst f).
  { intros [= <-]. case_ifs; try done. apply challenge_ack_ident. }
  destruct (state_eqb _ TimeWait); [by intros [= <-]|].
  destruct (TcpFlags.syn f).
  { intros [= <-]. case_ifs; try done. apply challenge_ack_ident. }
  match goal with |- (if ?b then _ else _) = _ -> _ => destruct b; [by intros [= <-]|] end.
  destruct (negb (segment_acceptable _ _ _)); [by intros [= <-]|].
  match goal with |- (if _ then Some ?t else _) = _ -> _ =>
    set (s1 := t); assert (I1 : ident s1 = ident self) by (unfold s1; repeat case_match; done); clearbody s1 end.
  destruct (negb (TcpFlags.ack f)); [by intros [= <-]|].
  destruct (ack_segment s1 _ _ _ _ _ _ _) as [[s2 ok]|] eqn:E2; [|done]. apply ack_segment_ident in E2.
  destruct (negb ok); [intros [= <-]; congruence|].
  destruct (receive_data s2 _ _ _ _) as [s3|] eqn:E3; [|done]. apply receive_data_ident in E3.
  intros [= <-]. rewrite recompute_ident, receive_fin_ident. congruence.
Qed.

(** *** Outbound *)

(** Emitting also leaves what the application sees alone: the queues, the peer's
    FIN and its reset. *)
Definition kept (self : Tcb C) :=
  (ident self, tx self, rx self, peer_fin_seen self, reset self, fin_acked self, pending_fin self).
Definition kept_all (self : Tcb C) := (kept self, state self, fin_seq self).

Lemma start_rtx_kept (self : Tcb C) now : kept_all (start_rtx self now) = kept_all self.
Proof. destruct (start_rtx_eq self now) as [d ->]. done. Qed.
Lemma build_kept (self : Tcb C) s f dat self' frame :
  build self s f dat = Some (self', frame) -> kept_all self' = kept_all self.
Proof. intros H. by apply build_shape in H as [adv ->]. Qed.

Ltac through H :=
  repeat (cbv zeta in H; match type of H with
  | None = Some _ => discriminate H
  | Some _ = Some _ => injection H as <- <-
  | match build ?s ?q ?f ?d with _ => _ end = _ =>
      let E := fresh in destruct (build s q f d) as [[? ?]|] eqn:E; [apply build_kept in E|discriminate H]
  | match ?e with _ => _ end = _ => destruct e eqn:?
  | (if ?e then _ else _) = _ => destruct e eqn:?
  end).

Lemma retransmit_oldest_kept (self self' : Tcb C) now i m out :
  retransmit_oldest self now i m = Some (self', out) -> kept_all self' = kept_all self.
Proof.
  unfold retransmit_oldest. intros H. through H; rewrite ?start_rtx_kept;
    match goal with E : kept_all _ = _ |- _ => exact E | _ => done end.
Qed.

Lemma selective_retransmit_kept (self self' : Tcb C) now m out :
  selective_retransmit self now m = Some (self', out) -> kept_all self' = kept_all self.
Proof.
  unfold selective_retransmit. intros H. through H; rewrite ?start_rtx_kept; try done.
  all: match goal with E : kept_all _ = _ |- _ => etransitivity; [|exact E] end; case_ifs; done.
Qed.

Lemma send_new_data_kept (self self' : Tcb C) now i s u m out :
  send_new_data self now i s u m = Some (self', out) -> kept_all self' = kept_all self.
Proof.
  unfold send_new_data, arm_persist, pace_allowance, arm_pace. intros H.
  destruct (pipe_estimate self) as [p|]; [|done]. cbv zeta in H.
  match type of H with (let '(_, _) := ?e in _) = _ => destruct e as [s1 al] eqn:E1 end.
  assert (I1 : kept_all s1 = kept_all self) by (destruct (cc_pacing_rate _); injection E1 as <- _; case_ifs; done).
  clear E1. rewrite <- I1. clear I1.
  destruct (0 <? al).
  - destruct (0 <? _); [|congruence].
    destruct (build s1 _ _ _) as [[s2 seg]|] eqn:E; [|done]. apply build_kept in E. cbv zeta in H.
    match type of H with match ?e with _ => _ end = _ => destruct e as [c|]; [|done] end.
    injection H as <- _. rewrite start_rtx_kept, <- E. case_ifs; done.
  - destruct (_ && _); [|congruence].
    set (s2 := if is_none _ then _ else s1) in H.
    assert (I2 : kept_all s2 = kept_all s1) by (unfold s2; case_ifs; done). clearbody s2. rewrite <- I2.
    destruct (send_probe s2); [|congruence]. destruct (slice _ _ _); [|done].
    destruct (build _ _ _ _) as [[s3 seg]|] eqn:E; [|done]. apply build_kept in E.
    injection H as <- _. exact E.
Qed.

Lemma transmit_ack_kept (self self' : Tcb C) out : transmit_ack self = Some (self', out) -> kept_all self' = kept_all self.
Proof. unfold transmit_ack, take_needs_ack. intros H. through H; [|done].
  match goal with E : kept_all _ = _ |- _ => exact E end.
Qed.

(** Only the FIN moves the state, and then it has a number. *)
Definition emitted (self self' : Tcb C) : Prop :=
  kept self' = kept self /\
  (state self' = state self /\ fin_seq self' = fin_seq self \/
   is_some (fin_seq self') = true /\ fin_acked self = false /\
   state self' = match state self with Established => FinWait1 | CloseWait => LastAck | other => other end).

Lemma emitted_all (self self' : Tcb C) : kept_all self' = kept_all self -> emitted self self'.
Proof. unfold kept_all. intros [= E1 E2 E3]. split; [unfold kept, ident; congruence|by left]. Qed.
Lemma emitted_after (self self1 self' : Tcb C) : kept_all self1 = kept_all self -> emitted self1 self' -> emitted self self'.
Proof. unfold kept_all, emitted. intros E [H1 H2]. injection E as E1 E2 E3 E4 E5 E6 E7 E8 E9 E10 E11 E12. split; [unfold kept, ident in *; congruence|].
  rewrite <- E9, <- E11, <- E12. exact H2.
Qed.
Lemma emitted_before (self self1 self' : Tcb C) : emitted self self1 -> kept_all self' = kept_all self1 -> emitted self self'.
Proof. unfold kept_all, emitted. intros [H1 H2] E. injection E as E1 E2 E3 E4 E5 E6 E7 E8 E9 E10 E11 E12. split; [unfold kept, ident in *; congruence|].
  rewrite E11, E12. exact H2.
Qed.

Lemma send_fin_emits (self self' : Tcb C) now e out :
  send_fin self now e = Some (self', out) -> emitted self self'.
Proof.
  unfold send_fin. intros H.
  destruct (fin_queued self && negb (fin_acked self) && _) eqn:Ef; [|injection H as <- _; by apply emitted_all].
  assert (Ea : fin_acked self = false) by (by destruct (fin_queued self), (fin_acked self)).
  destruct (build self _ _ _) as [[s1 seg]|] eqn:E; [|done]. apply build_kept in E. injection H as <- _.
  assert (Ea1 : fin_acked s1 = false) by (unfold kept_all, kept in E; congruence).
  eapply emitted_after; [exact E|]. set (s2 := s1 <| fin_seq := _ |> <| snd_nxt := _ |>).
  pose proof (start_rtx_kept s2 now) as E2. unfold kept_all in E2. injection E2 as E21 E22 E23 E24 E25 E26 E27 E28 E29 E30 E31 E32.
  split; [unfold kept, ident; cbn; congruence|]. right. cbn [set fin_seq state]. rewrite E31, E32. by split_and!.
Qed.

Lemma transmit_data_or_fin_emits (self self' : Tcb C) now out :
  transmit_data_or_fin self now = Some (self', out) -> emitted self self'.
Proof.
  unfold transmit_data_or_fin. cbv zeta.
  destruct (retransmit_oldest _ _ _ _) as [[s1 o1]|] eqn:E1; [|done]. apply retransmit_oldest_kept in E1.
  destruct (is_some o1); [intros [= <- _]; by apply emitted_all|].
  destruct (selective_retransmit _ _ _) as [[s2 o2]|] eqn:E2; [|done]. apply selective_retransmit_kept in E2.
  destruct (is_some o2); [intros [= <- _]; apply emitted_all; congruence|].
  destruct (send_new_data _ _ _ _ _ _) as [[s3 o3]|] eqn:E3; [|done]. apply send_new_data_kept in E3.
  destruct (is_some o3); [intros [= <- _]; apply emitted_all; congruence|]. intros H. apply send_fin_emits in H.
  eapply emitted_after; [|exact H]. congruence.
Qed.

Lemma poll_transmit_emits (self self' : Tcb C) now out :
  poll_transmit self now = Some (self', out) -> emitted self self'.
Proof.
  unfold poll_transmit. cbv zeta. set (self0 := self <| cur_tsval := _ |>).
  assert (E0 : kept_all self0 = kept_all self) by done. intros H. eapply emitted_after; [exact E0|]. clearbody self0. revert H. clear E0 self.
  destruct (pending_reset self0); [destruct (build_rst _ _); [intros [= <- _]; by apply emitted_all|done]|].
  assert (Hdata : (let? (s, o) := transmit_data_or_fin self0 now in
    if is_some o then Some (s, o) else transmit_ack s) = Some (self', out) -> emitted self0 self').
  { destruct (transmit_data_or_fin self0 now) as [[s o]|] eqn:E; [|done]. apply transmit_data_or_fin_emits in E.
    destruct (is_some o); [by intros [= <- _]|]. intros H. apply transmit_ack_kept in H. by eapply emitted_before. }
  destruct (state self0) eqn:Est; try exact Hdata; try (intros [= <- _]; by apply emitted_all).
  - destruct (_ =? _); [|destruct (retransmit self0); [|intros [= <- _]; by apply emitted_all]]; (destruct (build_syn _); [|done]);
      intros [= <- _]; apply emitted_all; rewrite ?start_rtx_kept; done.
  - destruct (_ =? _); [|destruct (retransmit self0); [|intros H; apply transmit_ack_kept in H; by apply emitted_all]];
      (destruct (build _ _ _ _) as [[s1 seg]|] eqn:E; [|done]); apply build_kept in E; intros [= <- _]; apply emitted_all;
      rewrite ?start_rtx_kept; exact E.
  - intros H. apply transmit_ack_kept in H. by apply emitted_all.
Qed.

Lemma poll_transmit_ident (self self' : Tcb C) now out :
  poll_transmit self now = Some (self', out) -> ident self' = ident self.
Proof. intros H. apply poll_transmit_emits in H as [E _]. unfold kept in E. congruence. Qed.

Lemma emitted_trans (self self1 self' : Tcb C) : emitted self self1 -> emitted self1 self' -> emitted self self'.
Proof.
  intros [K1 H1] [K2 H2]. split; [congruence|].
  assert (A : fin_acked self1 = fin_acked self) by (unfold kept in K1; congruence).
  destruct H1 as [[S1 F1]|(F1 & A1 & S1)], H2 as [[S2 F2]|(F2 & A2 & S2)]; [left; split; congruence|right..].
  - split_and!; [done|congruence|]. by rewrite S2, S1.
  - split_and!; [by rewrite F2|done|]. by rewrite S2, S1.
  - split_and!; [done|done|]. rewrite S2, S1. by destruct (state self).
Qed.

(** *** Timers *)

Lemma on_timer_ident (self self' : Tcb C) now : on_timer self now = Some self' -> ident self' = ident self.
Proof.
  unfold on_timer. destruct (fire_rtx self now) as [s1|] eqn:E; [|done].
  assert (I : ident s1 = ident self).
  { revert E. unfold fire_rtx. intros H. walk H; try done. case_ifs; done. }
  intros [= <-]. rewrite <- I. case_ifs; done.
Qed.

End ends.
