(* ===== verification/TcbPeer.v ===== *)
(** What the operations of [tcp-core/src/tcb.rs] mean to the peer: how a frame one
    connection says is read by the other, and what each operation leaves alone of
    the two byte streams.  [Transfer.v] puts two connections together. *)

From S2P Require Import Prelude Seq Time Buffers Rtt Checksum Ipv4 TcpWire Sack Reasm Congestion Endpoint Tcb TcbInv TcbRecv TcbSegment TcbInbound TcbOut TcbTransmit TcbPoll TcbLife TcbWork TcbEnds.
Import RingBuffer (RingBuffer, mkRing, buf, capacity).

(** *** From a frame to a segment *)

(** The segment in a datagram, if it parses. *)
Definition segment_of (frame : list Z) : option TcpPacket :=
  match Ipv4.new_checked frame with
  | Some (Ok ip) =>
      match Ipv4.payload ip with
      | Some seg => match TcpWire.new_checked seg with Some (Ok tcp) => Some tcp | _ => None end
      | None => None
      end
  | _ => None
  end.

(** [x] is what the receiver of [r] with [dat] reads. *)
Record read_as (r : TcpRepr) (dat : list Z) (x : Arrived) : Prop := {
  ra_seq : a_seq x = t_seq r;
  ra_ack : a_ack x = t_ack r;
  ra_flags : a_flags x = t_flags r;
  ra_body : a_body x = dat;
  ra_mss : a_mss x = t_mss r;
}.

Lemma carries_reads frame lo re r dat :
  frame_carries frame lo re r dat ->
  exists tcp x, segment_of frame = Some tcp /\ reads tcp x /\ read_as r dat x.
Proof.
  intros (p & seg & E1 & _ & _ & _ & _ & E2 & (tcp & E3 & _ & _ & Es & Ea & Ef & _ & _ & Ep & Em & _) & _ & Hb & Hl).
  unfold segment_of. rewrite E1, E2, E3. destruct (segment_reads seg tcp Hb Hl E3) as (x & Hx & _).
  exists tcp, x. split; [done|]. split; [done|].
  destruct (rd_seq _ _ Hx) as [Fs _], (rd_ack _ _ Hx) as [Fa _], (rd_flags _ _ Hx) as [Ff _],
    (rd_body _ _ Hx) as (Fp & _), (rd_mss _ _ Hx) as [Fm _].
  split; congruence.
Qed.

Section peer.
Context {C : Type} `{CC : CongestionControl C} {CL : CongestionLaws C}.
Context (Cc_new : CcKind -> Z -> C).

(** *** What each operation leaves alone *)

(** The two streams as a connection holds them, up to what is in flight. *)
Definition streams (self : Tcb C) :=
  (iss self, snd_una self, tx self, fin_seq self, fin_acked self, rcv_view self).

Lemma start_rtx_streams (self : Tcb C) now :
  streams (start_rtx self now) = streams self /\ state (start_rtx self now) = state self.
Proof. destruct (start_rtx_eq self now) as [d ->]. done. Qed.

(** A SYN-SENT connection takes from a segment only its numbers. *)
Definition opening_kept (self : Tcb C) :=
  (iss self, snd_nxt self, tx self, fin_seq self, fin_acked self, rx self, reasm self, peer_fin_seen self,
   pending_fin self).
Lemma syn_sent_kept (self self' : Tcb C) tcp :
  on_segment_syn_sent Cc_new self tcp = Some self' -> opening_kept self' = opening_kept self.
Proof.
  unfold on_segment_syn_sent. destruct (flags tcp), (TcpWire.seq tcp), (TcpWire.ack tcp); try done. cbv zeta.
  destruct (_ && negb _); [intros [= <-]; case_ifs; done|].
  destruct (TcpFlags.rst _); [intros [= <-]; case_ifs; done|].
  destruct (TcpFlags.syn _); [|congruence].
  destruct (mss_option tcp), (sack_permitted tcp), (window_scale tcp) as [[]|], (timestamps tcp) as [[[]|]|],
    (window tcp); try done; intros [= <-]; case_ifs; done.
Qed.

(** A passive open begins both directions. *)
Lemma new_syn_received_begins lo re syn i now adv (self : Tcb C) :
  new_syn_received Cc_new lo re syn i now adv = Some self ->
  snd_una self = i /\ fin_seq self = None /\ fin_acked self = false /\ peer_fin_seen self = false /\
  pending_fin self = None /\ buf (tx self) = [] /\ buf (rx self) = [] /\ runs (reasm self) = [].
Proof.
  unfold new_syn_received. destruct (mss_option syn), (TcpWire.seq syn), (sack_permitted syn),
    (window_scale syn) as [[?|]|], (timestamps syn) as [[[? ?]|]|], (window syn); try done; by intros [= <-].
Qed.

Lemma on_timer_streams (self self' : Tcb C) now :
  on_timer self now = Some self' ->
  streams self' = streams self /\ snd_nxt self' = snd_nxt self /\ (state self' = state self \/ state self' = Closed).
Proof.
  unfold on_timer. destruct (fire_rtx self now) as [s1|] eqn:E; [|done].
  assert (I : streams s1 = streams self /\ snd_nxt s1 = snd_nxt self /\ (state s1 = state self \/ state s1 = Closed)).
  { revert E. unfold fire_rtx. intros H. walk H; try (split_and!; first [done|by left|by right]).
    case_ifs; split_and!; first [done|by left]. }
  intros [= <-]. destruct I as (I1 & I2 & I3). rewrite <- I1, <- I2.
  split; [by case_ifs|]. split; [by case_ifs|]. case_ifs; first [exact I3|by right].
Qed.

(** Before the handshake and after the end a poll says a SYN or a reset, and
    nothing else moves. *)
Lemma quiet_poll (self : Tcb C) now :
  tcb_ok self -> state self = SynSent \/ state self = Closed ->
  exists self' out, poll_transmit self now = Some (self', out) /\ tcb_ok self' /\
    streams self' = streams self /\ state self' = state self /\
    (state self = Closed -> snd_nxt self' = snd_nxt self) /\
    forall frame, out = Some frame -> exists r, frame_carries frame (local self) (remote self) r [] /\
      t_mss r <> Some 0 /\ (TcpFlags.syn (t_flags r) = true -> t_seq r = iss self) /\
      TcpFlags.fin (t_flags r) = false /\ TcpFlags.ack (t_flags r) = false.
Proof.
  intros Hok Hst. destruct (poll_transmit_core self now Hok) as (self' & out & E & Hok' & _).
  exists self', out. split; [done|]. split; [done|]. revert E. unfold poll_transmit. cbv zeta.
  set (self0 := self <| cur_tsval := wrap32 (micros now) |>).
  assert (Hok0 : tcb_ok self0).
  { destruct Hok as [Hrcv Hsnd Henv Htmr Hgap Hfresh]. split; try assumption.
    destruct Henv. split; try assumption. apply wrap32_range. }
  change (pending_reset self0) with (pending_reset self). change (state self0) with (state self).
  destruct (pending_reset self) as [s|] eqn:Ep.
  { assert (Hs : seq_ok s) by (apply (ei_pend _ _ _ _ _ _ _ _ _ _ _ _ (ok_env _ Hok)); done).
    assert (Hok1 : tcb_ok (self0 <| pending_reset := None |>)).
    { destruct Hok0 as [Hrcv Hsnd Henv Htmr Hgap Hfresh]. split; try assumption.
      destruct Henv. split; try assumption. done. }
    destruct (build_rst_ok _ s Hok1 Hs) as (frame & -> & Hc). intros [= <- <-].
    split_and!; try done. intros f [= <-]. eexists. split; [exact Hc|]. by split_and!. }
  destruct (build_syn_ok self0 Hok0) as (frame & Eb & Hc).
  assert (Hsyn : forall f, Some frame = Some f -> exists r, frame_carries f (local self) (remote self) r [] /\
      t_mss r <> Some 0 /\ (TcpFlags.syn (t_flags r) = true -> t_seq r = iss self) /\
      TcpFlags.fin (t_flags r) = false /\ TcpFlags.ack (t_flags r) = false).
  { intros f [= <-]. exists (syn_repr self0). split; [exact Hc|]. split; [by apply syn_repr_mss|done]. }
  destruct Hst as [Hst|Hst]; rewrite Hst.
  - change (snd_nxt self0) with (snd_nxt self). change (iss self0) with (iss self).
    change (build_syn (self0 <| retransmit := false |>)) with (build_syn self0). rewrite Eb.
    case_ifs; intros [= <- <-]; try (split_and!; done).
    destruct (start_rtx_streams (self0 <| snd_nxt := seq_add (iss self) 1 |>) now) as [-> ->]. by split_and!.
  - intros [= <- <-]. by split_and!.
Qed.

End peer.
