(* ===== verification/TcbStream.v ===== *)
(** The byte streams behind a connection of [tcp-core/src/tcb.rs].  [stands] places
    the send side in the stream its application wrote, [hears] and [deaf] place
    the receive side in the stream its peer wrote, [speaks_for] says which frames
    speak for a stream.  Every operation keeps them. *)

From S2P Require Import Prelude Seq Time Buffers Rtt Checksum Ipv4 TcpWire Sack Reasm Congestion Endpoint Tcb TcbInv TcbRecv TcbSegment TcbInbound TcbOut TcbTransmit TcbPoll TcbLife TcbWork TcbEnds TcbPeer.
Import RingBuffer (RingBuffer, mkRing, buf, capacity).

(** Streams up to this long have no two octets whose numbers the serial order
    confuses, however old the segments the network holds back. *)
Definition STREAM_LIMIT : Z := 2 ^ 30.

Section send_side.
Context {C : Type} `{CC : CongestionControl C} {CL : CongestionLaws C}.

(** Nothing of the stream is numbered: the SYN is not acknowledged. *)
Definition at_start (o : SeqNumber) (W : list Z) (t : Tcb C) : Prop :=
  snd_una t = o /\ W = [] /\ fin_seq t = None /\
  (state t = SynSent \/ state t = SynReceived \/ state t = Closed).

(** [a] octets of the stream [W] (and the FIN, once [fin_acked]) are acknowledged. *)
Definition under_way (o : SeqNumber) (W : list Z) (t : Tcb C) (a : Z) : Prop :=
  off o (snd_una t) = 1 + a + Z.b2z (fin_acked t) /\ (fin_acked t = true -> a = zlen W) /\
  (fin_seq t = None -> off (snd_una t) (snd_nxt t) <= RingBuffer.len (tx t)).

(** The connection sends the stream [W] from the initial number [o]; the first [a]
    octets are acknowledged, the rest is queued. *)
Record stands (o : SeqNumber) (W : list Z) (t : Tcb C) (a : Z) : Prop := {
  sd_ok : tcb_ok t;
  sd_iss : iss t = o;
  sd_acked : 0 <= a <= zlen W;
  sd_tx : buf (tx t) = zdrop a W;
  sd_una : at_start o W t \/ under_way o W t a;
  sd_fin : forall f, fin_seq t = Some f -> off o f = 1 + zlen W;
}.

Lemma stands_len o W t a : stands o W t a -> RingBuffer.len (tx t) = zlen W - a.
Proof. intros H. unfold RingBuffer.len. rewrite (sd_tx _ _ _ _ H), zlen_zdrop. pose proof (sd_acked _ _ _ _ H). lia. Qed.

(** Under way the handshake is over. *)
Lemma under_way_open o W t a : stands o W t a -> under_way o W t a -> zlen W < STREAM_LIMIT ->
  state t <> SynSent /\ state t <> SynReceived.
Proof.
  intros H (Hu & _) HW. pose proof (sd_acked _ _ _ _ H). pose proof (si_opening _ _ _ _ _ _ _ _ _ (ok_snd _ (sd_ok _ _ _ _ H))) as Ho.
  rewrite (sd_iss _ _ _ _ H) in Ho.
  split; intros E; destruct Ho as [Eu _]; [tauto| |tauto|]; rewrite Eu, off_self in Hu; destruct (fin_acked t); cbn in Hu; lia.
Qed.

Lemma at_start_fin o W t a : stands o W t a -> at_start o W t -> fin_acked t = false /\ a = 0.
Proof.
  intros H (_ & EW & Ef & _). split.
  - by apply (si_flight _ _ _ _ _ _ _ _ _ (ok_snd _ (sd_ok _ _ _ _ H))).
  - pose proof (sd_acked _ _ _ _ H) as Ha. rewrite EW in Ha. change (zlen (@nil Z)) with 0 in Ha. lia.
Qed.

(** What moves neither the stream nor its acknowledged part keeps [stands]. *)
Lemma stands_streams o W t a t' :
  stands o W t a -> zlen W < STREAM_LIMIT -> tcb_ok t' ->
  (iss t', snd_una t', tx t', fin_seq t', fin_acked t') = (iss t, snd_una t, tx t, fin_seq t, fin_acked t) ->
  state t = SynSent \/ snd_nxt t' = snd_nxt t -> state t' = state t \/ state t' = Closed ->
  stands o W t' a.
Proof.
  intros H HW Hok' [= E1 E2 E3 E4 E5] Hn Hs. pose proof (under_way_open o W t a H) as Hop.
  destruct H as [Hok Hi Ha Ht Hu Hf].
  split; rewrite ?E1, ?E3, ?E4; try done. unfold at_start, under_way in *. rewrite E2, E3, E4, E5.
  destruct Hu as [(? & ? & ? & Hst)|Hu]; [left|right].
  - split_and!; try done. destruct Hs as [->| ->]; tauto.
  - destruct (Hop Hu HW) as [Hs1 _]. destruct Hn as [?|Hn]; [done|]. rewrite Hn. exact Hu.
Qed.

Lemma off_sum o u k : seq_ok u -> off o u + k < 2 ^ 32 -> 0 <= k -> off o (seq_add u k) = off o u + k.
Proof. intros Hu H Hk. apply off_add; [done|]. pose proof (off_range o u). lia. Qed.

(** A segment acknowledges a part of what is queued, the number it names. *)
Lemma stands_heard o W t a x t' :
  stands o W t a -> seq_ok o -> zlen W < STREAM_LIMIT -> state t <> SynSent -> heard t x t' -> tcb_ok t' -> iss t' = iss t ->
  exists a', stands o W t' a' /\
    (a' + Z.b2z (fin_acked t') = a + Z.b2z (fin_acked t) \/
     TcpFlags.ack (a_flags x) = true /\ off o (a_ack x) = 1 + a' + Z.b2z (fin_acked t')).
Proof.
  intros H Ho HW Hst Hhd Hok' Ei. pose proof (stands_len _ _ _ _ H) as Hlen.
  pose proof (under_way_open o W t a H) as Hop. pose proof (at_start_fin o W t a H) as Has.
  destruct H as [Hok Hi Ha Ht Hu Hf]. destruct (hd_una _ _ _ Hhd) as (k & Hk & Eu & Et & Eack).
  pose proof (ok_snd _ Hok) as Hsnd. pose proof (ok_snd _ Hok') as Hsnd'.
  pose proof (si_flight _ _ _ _ _ _ _ _ _ Hsnd) as Hfl. pose proof (si_flight _ _ _ _ _ _ _ _ _ Hsnd') as Hfl'.
  pose proof (si_una _ _ _ _ _ _ _ _ _ Hsnd) as Hua. pose proof (si_nxt _ _ _ _ _ _ _ _ _ Hsnd) as [Hna Hnh].
  pose proof (si_nxt _ _ _ _ _ _ _ _ _ Hsnd') as [_ Hnh'].
  pose proof (hd_fin _ _ _ Hhd) as Ef. rewrite Ef in Hfl'. pose proof (off_range (snd_una t) (snd_nxt t)) as Hr.
  unfold STREAM_LIMIT in *.
  assert (Hsub : k <= off (snd_una t) (snd_nxt t) -> off (seq_add (snd_una t) k) (snd_nxt t) = off (snd_una t) (snd_nxt t) - k).
  { intros Hle. rewrite (off_rebase (snd_una t)); [|apply seq_add_ok|]; rewrite off_add_base by lia; lia. }
  specialize (Hsub ltac:(lia)).
  assert (Hlen' : RingBuffer.len (tx t') = Z.max 0 (zlen W - a - k)).
  { unfold RingBuffer.len. rewrite Et, Ht, !zlen_zdrop. lia. }
  destruct Hu as [Hu|Hu].
  - destruct (Has Hu) as [Hfa ->]. destruct Hu as (Eo & EW & Efs & Hstate). subst W. change (zlen (@nil Z)) with 0 in *.
    destruct (Hfl' Efs) as [Hfa' Hfl2]. rewrite Hfa, Hfa'.
    assert (Hk1 : off (snd_una t) (snd_nxt t) <= 1).
    { destruct (Hfl Efs) as [_ [Hx|(Hx & _)]]; [|lia]. lia. }
    assert (Ht' : buf (tx t') = []) by (by rewrite Et, Ht; unfold zdrop; rewrite !drop_nil).
    exists 0. assert (k = 0 \/ k = 1) as [->| ->] by lia.
    + rewrite seq_add_0 in Eu by done. split; [|by left]. split; try done; [congruence|..].
      * left. split_and!; [congruence|done|congruence|].
        destruct Hstate as [?|[Es|Es]]; [done|destruct (hd_opening _ _ _ Hhd Es Eu); tauto|right; right; by apply Hhd].
      * by rewrite Ef, Efs.
    + specialize (Eack ltac:(lia)) as [Efl Ea]. split.
      2: { right. split; [done|]. rewrite Ea, Eu, <- Eo, off_add_base by lia. done. }
      split; try done; [congruence| |by rewrite Ef, Efs].
      right. unfold under_way. rewrite Eu, Hfa', <- Eo, off_add_base by lia. split; [done|]. split; [done|].
      intros _. destruct (hd_nxt _ _ _ Hhd) as [-> | [Es Ens]].
      * rewrite Hsub, Hlen'. lia.
      * exfalso. rewrite Eu, Ens in Hnh'. rewrite Hi, <- Eo in Hnh'.
        assert (E : off (seq_add (snd_una t) 1) (snd_una t) = 2 ^ 32 - 1) by (unfold off, offset_from, seq_add, seq_ok in *; width).
        lia.
  - destruct (Hop Hu HW) as [_ Hsr]. destruct Hu as (Eo & Hfa & Hfn).
    assert (Enx : snd_nxt t' = snd_nxt t) by (destruct (hd_nxt _ _ _ Hhd) as [?|[? _]]; done). rewrite Enx in *.
    assert (Hou : forall k0, 0 <= k0 <= zlen W - a + 1 -> off o (seq_add (snd_una t) k0) = 1 + a + Z.b2z (fin_acked t) + k0).
    { intros k0 Hk0. rewrite off_sum; destruct (fin_acked t); cbn in *; lia || done. }
    destruct (fin_seq t) as [f|] eqn:Efs.
    2: { destruct (Hfl eq_refl) as [Hfa0 _]. destruct (Hfl' eq_refl) as [Hfa0' _]. rewrite Hfa0, Hfa0' in *. cbn [Z.b2z] in *.
         specialize (Hfn eq_refl). exists (a + k). split.
         2: { destruct (Z.eq_dec k 0) as [->|]; [left; lia|right]. destruct Eack as [? Ea]; [lia|]. split; [done|].
              rewrite Ea, Eu, Hou by lia. lia. }
         split; try done; [congruence|lia| | |by rewrite Ef].
         - rewrite Et, Ht, zdrop_zdrop by lia. f_equal. lia.
         - right. unfold under_way. rewrite Eu, Hfa0', Hou, Ef, Enx by lia. cbn [Z.b2z]. split; [lia|]. split; [done|].
           intros _. rewrite Hsub, Hlen'. lia. }
    pose proof (Hf f eq_refl) as Hff. destruct (si_fin _ _ _ _ _ _ _ _ _ Hsnd f eq_refl) as [Hfok Hcase].
    destruct (si_fin _ _ _ _ _ _ _ _ _ Hsnd' f Ef) as [_ Hcase']. rewrite Eu, ?Enx in Hcase'.
    destruct (fin_acked t) eqn:Efa; cbn [Z.b2z] in *.
    { destruct Hcase as [Eun _]. rewrite <- Eun, off_self in *. assert (k = 0) as -> by lia.
      destruct (fin_acked t') eqn:Efa'; [|lia]. exists a. split; [|left; cbn; lia].
      split; try done; [congruence|rewrite Et, zdrop_0 by lia; done| |by rewrite Ef].
      right. unfold under_way. rewrite Eu, Hou, Efa' by lia. cbn [Z.b2z]. split; [lia|]. split; [auto|]. congruence. }
    destruct Hcase as [_ Hn1]. rewrite Hlen in Hn1.
    assert (Hack : 0 < k -> TcpFlags.ack (a_flags x) = true /\ off o (a_ack x) = 1 + a + 0 + k).
    { intros Hp. destruct (Eack Hp) as [? Ea]. split; [done|]. rewrite Ea, Eu. apply Hou. lia. }
    destruct (fin_acked t') eqn:Efa'.
    + destruct Hcase' as [Eun Htn]. assert (k = zlen W - a + 1).
      { rewrite <- Hn1, <- Eun. symmetry. apply off_add_base. lia. }
      exists (zlen W). split; [|right; cbn; destruct Hack; [lia|]; split; [done|lia]].
      split; try done; [congruence|lia|by rewrite Htn, zdrop_all| |by rewrite Ef].
      right. unfold under_way. rewrite Eu, Hou, Efa' by lia. cbn [Z.b2z]. split; [lia|]. split; [done|]. congruence.
    + destruct Hcase' as [_ Hn2]. rewrite Hsub, Hlen' in Hn2.
      exists (a + k). split.
      2: { destruct (Z.eq_dec k 0) as [->|]; [left; cbn; lia|right]. destruct Hack; [lia|]. split; [done|]. cbn. lia. }
      split; try done; [congruence|lia| | |by rewrite Ef].
      * rewrite Et, Ht, zdrop_zdrop by lia. f_equal. lia.
      * right. unfold under_way. rewrite Eu, Hou, Efa' by lia. cbn [Z.b2z]. split; [lia|]. split; [done|]. congruence.
Qed.

(** *** Frames *)

(** The segment [r] with [dat] speaks for the stream [W] from [o], [ended] or not;
    it acknowledges no more than [upto] numbers of the stream from [back]. *)
Record speaks_for (o : SeqNumber) (W : list Z) (ended : bool) (back : SeqNumber) (upto : Z)
    (r : TcpRepr) (dat : list Z) : Prop := {
  sf_mss : t_mss r <> Some 0;
  sf_syn : TcpFlags.syn (t_flags r) = true -> dat = [] /\ t_seq r = o;
  sf_dat : dat <> [] -> exists q, 0 <= q /\ off o (t_seq r) = 1 + q /\ q + zlen dat <= zlen W /\
    forall i b, at_ dat i = Some b -> at_ W (q + i) = Some b;
  sf_fin : TcpFlags.fin (t_flags r) = true -> dat = [] /\ off o (t_seq r) = 1 + zlen W /\ ended = true;
  sf_ack : TcpFlags.ack (t_flags r) = true -> exists m, 0 <= m <= upto /\ off back (t_ack r) = 1 + m;
}.

Lemma at_prefix {A} (l d : list A) i b : at_ l i = Some b -> at_ (l ++ d) i = Some b.
Proof. intros H. pose proof (at_range _ _ _ H). by rewrite at_app_l by lia. Qed.

(** What was said stays true as the streams grow. *)
Lemma speaks_for_later o W ended W' ended' back upto upto' r dat :
  W `prefix_of` W' -> (ended = true -> W' = W /\ ended' = true) -> upto <= upto' ->
  speaks_for o W ended back upto r dat -> speaks_for o W' ended' back upto' r dat.
Proof.
  intros [e ->] He Hu [H1 H2 H3 H4 H5]. pose proof (zlen_nonneg e). split; try done.
  - intros Hd. destruct (H3 Hd) as (q & Hq & Eq & Hl & Hb). exists q. rewrite zlen_app.
    split_and!; try done; [lia|]. intros i b Hi. by apply at_prefix, Hb.
  - intros Hf. destruct (H4 Hf) as (-> & Eq & Hen). destruct (He Hen) as [-> ->]. by split_and!.
  - intros Ha. destruct (H5 Ha) as (m & Hm & Em). exists m. split; [lia|done].
Qed.

Lemma carried_seq frame lo re r dat : frame_carries frame lo re r dat -> seq_ok (t_seq r).
Proof.
  intros H. destruct (carries_reads _ _ _ _ _ H) as (tcp & x & _ & Hx & Hr).
  rewrite <- (ra_seq _ _ _ Hr). by apply (rd_seq _ _ Hx).
Qed.

(** Between the handshake and the end a poll keeps the stream and speaks for it. *)
Lemma stands_polled o W t a t' out :
  stands o W t a -> zlen W < STREAM_LIMIT -> state t <> SynSent -> state t <> Closed ->
  polled t t' out -> emitted t t' ->
  stands o W t' a /\
  forall frame, out = Some frame -> exists r dat, frame_carries frame (local t) (remote t) r dat /\
    forall back upto m, off back (rcv_nxt t) = 1 + m -> 0 <= m <= upto ->
      speaks_for o W (is_some (fin_seq t')) back upto r dat.
Proof.
  intros H HW Hs1 Hs2 (Hok' & Hout & Hst & _) [K Hem]. pose proof (stands_len _ _ _ _ H) as Hlen.
  unfold kept, ident in K. injection K as _ _ Ki _ Ktx _ _ _ Kfa _.
  destruct out as [frame|]; cbn [outcome] in Hout.
  2: { split; [|done]. unfold out_view, snd_view in Hout.
       eapply stands_streams; [exact H|done|done| | |]; [f_equal; congruence|right; congruence|left; congruence]. }
  destruct Hout as (r & dat & Hc & Hsent). destruct (se_send _ _ _ _ Hsent) as [Eu Et].
  assert (Hstate : state t' = state t \/ state t' = fin_state (state t)) by (destruct Hst as [?|[_ ?]]; tauto).
  pose proof (ok_snd _ Hok') as Hsnd'.
  assert (H' : stands o W t' a).
  { pose proof (under_way_open o W t a H) as Hop. destruct H as [Hok Hi Ha Ht Hu Hf].
    split; try done; [congruence|by rewrite Et| |].
    - destruct Hu as [(Eo & EW & Ef & Hs)|Hu].
      + assert (Esr : state t = SynReceived) by tauto. assert (Esr' : state t' = SynReceived).
        { destruct Hstate as [E|E]; by rewrite E, Esr. }
        destruct (si_opening _ _ _ _ _ _ _ _ _ Hsnd') as (_ & _ & _ & Ef' & _); [by right|].
        left. split_and!; try done; [congruence|tauto].
      + destruct (Hop Hu HW) as [_ Hs3]. destruct Hu as (Eo & Hfa & Hfn). right. unfold under_way.
        rewrite Eu, Kfa, Et. split; [done|]. split; [done|]. intros Ef'.
        destruct (si_flight _ _ _ _ _ _ _ _ _ Hsnd' Ef') as [_ [Hx|(_ & _ & Hx)]]; [by rewrite Eu, Et in Hx|].
        exfalso. clear -Hs1 Hs2 Hs3 Hstate Hx. destruct (state t); try done; cbn in Hstate;
          destruct Hstate as [E|E]; rewrite E in Hx; by destruct Hx as [?|[?|?]].
    - intros f Ef'. destruct Hem as [[_ E]|(_ & Efa & _)]; [apply Hf; congruence|].
      destruct (si_fin _ _ _ _ _ _ _ _ _ Hsnd' f Ef') as [Hfok Hcase]. rewrite Kfa, Efa in Hcase.
      destruct Hcase as [Efl _]. rewrite Eu, Et, Hlen in Efl.
      destruct Hu as [(_ & _ & Ef & Hs)|(Eo & _)].
      + exfalso. destruct (si_opening _ _ _ _ _ _ _ _ _ Hsnd') as (_ & _ & _ & E & _); [|congruence].
        right. assert (state t = SynReceived) as Esr by tauto. destruct Hstate as [E|E]; by rewrite E, Esr.
      + rewrite Efa in Eo. cbn [Z.b2z] in Eo. unfold STREAM_LIMIT in HW.
        rewrite <- (seq_add_off (snd_una t) f) by (done || apply (ok_snd _ Hok)).
        rewrite Efl, off_sum; [lia|apply (ok_snd _ Hok)|lia|lia]. }
  split; [exact H'|]. intros f [= <-]. exists r, dat. split; [exact Hc|]. intros back upto m Hm Hmu.
  destruct H as [Hok Hi Ha Ht Hu Hf]. split.
  - apply (se_mss _ _ _ _ Hsent).
  - rewrite <- Hi. apply (se_syn _ _ _ _ Hsent).
  - intros Hd. destruct (se_stream _ _ _ _ Hsent) as [?|[Hpos Hin Hdat]]; [done|].
    pose proof (off_range (snd_una t) (t_seq r)) as Hr. destruct Hu as [Hu|(Eo & Hfa & _)].
    { destruct Hu as (_ & -> & _). change (zlen (@nil Z)) with 0 in *. lia. }
    destruct (fin_acked t); [specialize (Hfa eq_refl); lia|]. cbn [Z.b2z] in Eo. unfold STREAM_LIMIT in HW.
    exists (a + off (snd_una t) (t_seq r)). split; [lia|]. split; [|split; [lia|]].
    + rewrite <- (seq_add_off (snd_una t) (t_seq r)) at 1 by (eapply carried_seq, Hc || apply (ok_snd _ Hok)).
      rewrite off_sum; [lia|apply (ok_snd _ Hok)|lia|lia].
    + intros i b Hi'. pose proof (at_range _ _ _ Hi'). rewrite Hdat, at_ztake, at_zdrop, Ht, at_zdrop in Hi' by lia.
      rewrite <- Hi'. f_equal. lia.
  - intros Hfin. destruct (se_fin _ _ _ _ Hsent Hfin) as (-> & _ & _ & Ef'). split; [done|].
    split; [by apply (sd_fin _ _ _ _ H')|by rewrite Ef'].
  - intros Hack. destruct (se_ack _ _ _ _ Hsent Hack) as [-> _]. by exists m.
Qed.

(** The application writes: the stream grows, unless it has ended. *)
Lemma stands_send o W t a dat t' n :
  stands o W t a -> zlen W < STREAM_LIMIT -> bytes_ok dat -> send t dat = (t', n) ->
  stands o (W ++ ztake n dat) t' a /\ (fin_seq t <> None -> ztake n dat = []).
Proof.
  intros H HW Hd E. destruct (send_ok t dat (sd_ok _ _ _ _ H) Hd) as (t1 & n1 & E1 & Hok' & Hn & Hcase).
  rewrite E in E1. injection E1 as <- <-. pose proof (under_way_open o W t a H) as Hop.
  assert (Hfields : snd_una t' = snd_una t /\ snd_nxt t' = snd_nxt t /\ iss t' = iss t /\ fin_seq t' = fin_seq t /\
    fin_acked t' = fin_acked t).
  { revert E. unfold send. destruct (state t); try (intros [= <- _]; done);
      destruct (RingBuffer.write _ _); intros [= <- _]; done. }
  destruct Hfields as (F1 & F2 & F3 & F4 & F5). pose proof (stands_len _ _ _ _ H) as Hlen.
  assert (Hsame : t' = t /\ n = 0 -> stands o (W ++ ztake n dat) t' a /\ (fin_seq t <> None -> ztake n dat = [])).
  { intros [-> ->]. rewrite ztake_0, app_nil_r by lia. done. }
  destruct (match state t with Established | CloseWait => true | _ => false end) eqn:Est; [|by apply Hsame].
  destruct Hcase as [_ Htx].
  assert (Hs : state t = Established \/ state t = CloseWait) by (destruct (state t); try discriminate Est; auto).
  destruct H as [Hok Hi Ha Ht Hu Hf].
  assert (Hfs : fin_seq t = None).
  { destruct (fin_seq t) eqn:Ef; [|done]. destruct (si_sending _ _ _ _ _ _ _ _ _ (ok_snd _ Hok)) as [? ?]; [congruence|].
    by destruct Hs. }
  pose proof (zlen_nonneg (ztake n dat)). split; [|congruence]. split; try done.
  - congruence.
  - rewrite zlen_app. lia.
  - rewrite Htx, Ht. by rewrite zdrop_app_le by lia.
  - destruct Hu as [(_ & _ & _ & Hx)|(Eo & Hfa & Hfn)].
    { exfalso. destruct Hs as [Hs|Hs]; rewrite Hs in Hx; by destruct Hx as [?|[?|?]]. }
    right. destruct (si_flight _ _ _ _ _ _ _ _ _ (ok_snd _ Hok) Hfs) as [Efa _]. unfold under_way.
    rewrite F1, F2, F5, Efa in *. split; [done|]. split; [done|]. intros _. specialize (Hfn Hfs).
    assert (RingBuffer.len (tx t') = RingBuffer.len (tx t) + zlen (ztake n dat)) as ->; [|lia].
    unfold RingBuffer.len. by rewrite Htx, zlen_app.
  - congruence.
Qed.

End send_side.

Section receive_side.
Context {C : Type} `{CC : CongestionControl C} {CL : CongestionLaws C}.
Context (Cc_new : CcKind -> Z -> C).
Context (Cc_new_ok : forall k m, 0 < m <= U16_MAX -> cc_ok m (Cc_new k m)).

(** What the connection has of the peer's stream: [G] already read, and its queue. *)
Definition had (G : list Z) (t : Tcb C) : list Z := G ++ buf (rx t).
(** The numbers of the peer's stream it has consumed. *)
Definition consumed (G : list Z) (t : Tcb C) : Z := zlen (had G t) + Z.b2z (peer_fin_seen t).

(** The connection receives the stream [W] from the initial number [o], which has
    [ended] or not. *)
Record hears (o : SeqNumber) (W : list Z) (ended : bool) (G : list Z) (t : Tcb C) : Prop := {
  hr_state : state t <> SynSent;
  hr_data : had G t `prefix_of` W;
  hr_nxt : off o (rcv_nxt t) = 1 + consumed G t;
  hr_fin : peer_fin_seen t = true -> had G t = W /\ ended = true;
  hr_reasm : forall i b, 0 <= i -> content (rcv_nxt t) (runs (reasm t)) i = Some b ->
    at_ W (consumed G t + i) = Some b;
  hr_pend : forall p, pending_fin t = Some p -> off o p = 1 + zlen W /\ ended = true;
}.

(** The connection has not heard a SYN, and is not going to hear data. *)
Record deaf (G : list Z) (t : Tcb C) : Prop := {
  df_state : state t = SynSent \/ state t = Closed;
  df_window : rcv_adv t = rcv_nxt t;
  df_rx : buf (rx t) = [];
  df_reasm : forall i, 0 <= i -> content (rcv_nxt t) (runs (reasm t)) i = None;
  df_fin : peer_fin_seen t = false;
  df_pend : pending_fin t = None;
  df_got : G = [];
}.
Definition listens (o : SeqNumber) (W : list Z) (ended : bool) (G : list Z) (t : Tcb C) : Prop :=
  hears o W ended G t \/ deaf G t.

Lemma prefix_zlen {A} (l d : list A) : l `prefix_of` d -> zlen l <= zlen d.
Proof. intros [e ->]. rewrite zlen_app. pose proof (zlen_nonneg e). lia. Qed.

Lemma prefix_same {A} (l d : list A) : l `prefix_of` d -> zlen d <= zlen l -> l = d.
Proof. intros [e ->] H. rewrite zlen_app in H. rewrite (zlen_0_nil e), app_nil_r; [done|]. pose proof (zlen_nonneg e). lia. Qed.

Lemma prefix_more {A} (l d e : list A) :
  l `prefix_of` d -> (forall i b, at_ e i = Some b -> at_ d (zlen l + i) = Some b) -> l ++ e `prefix_of` d.
Proof.
  intros [k ->] H. apply prefix_app. pose proof (zlen_nonneg l).
  assert (E : forall i b, at_ e i = Some b -> at_ k i = Some b).
  { intros i b Hi. pose proof (at_range _ _ _ Hi). specialize (H i b Hi).
    rewrite at_app_r in H by lia. rewrite <- H. f_equal. lia. }
  clear H. exists (zdrop (zlen e) k). apply at_ext. intros i.
  destruct (Z.lt_ge_cases i (zlen e)) as [Hlt|Hge].
  - rewrite at_app_l by done. destruct (Z.lt_ge_cases i 0); [by rewrite !at_None by lia|].
    destruct (at_is_Some e i) as [b Hb]; [lia|]. rewrite Hb. by apply E.
  - pose proof (zlen_nonneg e). rewrite at_app_r, at_zdrop by lia. f_equal. lia.
Qed.

Lemma consumed_bound o W ended G t : hears o W ended G t -> 0 <= consumed G t <= zlen W + 1.
Proof.
  intros H. pose proof (prefix_zlen _ _ (hr_data _ _ _ _ _ H)). pose proof (zlen_nonneg (had G t)).
  unfold consumed. destruct (peer_fin_seen t); cbn [Z.b2z]; lia.
Qed.

Lemma deaf_consumed G t : deaf G t -> had G t = [] /\ consumed G t = 0.
Proof. intros H. unfold consumed, had. by rewrite (df_got _ _ H), (df_rx _ _ H), (df_fin _ _ H). Qed.

Lemma listens_later o W ended W' ended' G t :
  W `prefix_of` W' -> (ended = true -> W' = W /\ ended' = true) -> listens o W ended G t -> listens o W' ended' G t.
Proof.
  intros Hp He [[H1 H2 H3 H4 H5 H6]|H]; [left|by right]. split; try done.
  - by etransitivity.
  - intros Hf. destruct (H4 Hf) as [E Hen]. destruct (He Hen) as [-> ->]. done.
  - intros i b Hi Hb. destruct Hp as [e ->]. by apply at_prefix, H5.
  - intros p Hpend. destruct (H6 p Hpend) as [E Hen]. destruct (He Hen) as [-> ->]. done.
Qed.

(** What leaves the receive side alone. *)
Lemma listens_view o W ended G t t' :
  listens o W ended G t -> rcv_view t' = rcv_view t ->
  (state t <> SynSent -> state t' <> SynSent) -> (state t = SynSent \/ state t = Closed -> state t' = SynSent \/ state t' = Closed) ->
  listens o W ended G t' /\ consumed G t' = consumed G t.
Proof.
  intros H Hv Hs1 Hs2. unfold rcv_view in Hv. injection Hv as E1 E2 E3 E4 E5 E6 E7.
  assert (Hc : consumed G t' = consumed G t) by (unfold consumed, had; by rewrite E3, E5).
  split; [|done]. destruct H as [[H1 H2 H3 H4 H5 H6]|[H1 H2 H3 H4 H5 H6 H7]].
  - left. split; unfold had in *; rewrite ?Hc, ?E1, ?E3, ?E4, ?E5, ?E6; auto.
  - right. split; rewrite ?E1, ?E2, ?E3, ?E4, ?E5, ?E6; auto.
Qed.

(** A segment that speaks for a short stream is honest. *)
Lemma listens_honest o W ended G t tcp x back upto r dat :
  tcb_ok t -> seq_ok o -> zlen W < STREAM_LIMIT -> listens o W ended G t -> reads tcp x -> read_as r dat x ->
  speaks_for o W ended back upto r dat -> honest t x.
Proof.
  intros Hok Ho HW Hl Hx [Rs _ _ Rb Rm] Hsp. unfold STREAM_LIMIT in HW. split.
  - intros _ Hd Hwin. destruct Hl as [Hh|Hd']; [|by destruct Hwin; apply Hd'].
    rewrite Rb in Hd. destruct (sf_dat _ _ _ _ _ _ _ Hsp Hd) as (q & Hq & Eq & Hl & _).
    pose proof (consumed_bound _ _ _ _ _ Hh) as Hc. pose proof (zlen_nonneg dat). rewrite <- Rs in Eq.
    rewrite (distance_off o); [rewrite Eq, (hr_nxt _ _ _ _ _ Hh); lia|split; [apply (rd_seq _ _ Hx)|lia]|].
    split; [apply (ok_rcv _ Hok)|]. rewrite (hr_nxt _ _ _ _ _ Hh). lia.
  - intros _. rewrite Rm. apply (sf_mss _ _ _ _ _ _ _ Hsp).
Qed.

(** A connection that heard the SYN takes from a segment the next part of the stream. *)
Lemma hears_segment o W ended G t now tcp x ce back upto r dat :
  tcb_ok t -> seq_ok o -> zlen W < STREAM_LIMIT -> hears o W ended G t -> reads tcp x -> read_as r dat x ->
  speaks_for o W ended back upto r dat ->
  exists t', on_segment Cc_new t now tcp ce = Some t' /\ tcb_ok t' /\ heard t x t' /\
    hears o W ended G t' /\ consumed G t <= consumed G t'.
Proof.
  intros Hok Ho HW Hh Hx Hra Hsp.
  assert (Hhon : honest t x) by (eapply listens_honest; try done; by left).
  pose proof (hr_state _ _ _ _ _ Hh) as Hst.
  destruct (receive_effect Cc_new Cc_new_ok t now tcp x ce Hok Hx Hhon Hst)
    as (t' & new & nxt2 & E & Hok' & En & Hbuf & Hnew & Hkept & Hfin).
  destruct (segment_heard Cc_new t now tcp x ce Hok Hx Hhon Hst) as (t1 & E1 & Hhd).
  rewrite E in E1. apply (inj Some) in E1. subst t1. exists t'. split; [done|]. split; [done|]. split; [done|].
  pose proof (consumed_bound _ _ _ _ _ Hh) as Hc. destruct Hh as [_ H2 H3 H4 H5 H6].
  destruct Hra as [Rs _ Rf Rb _]. unfold STREAM_LIMIT in HW.
  pose proof (ri_nxt _ _ _ _ _ _ (ok_rcv _ Hok)) as Hnok. pose proof (zlen_nonneg new) as Hz.
  (* the octets a segment carries are the stream's *)
  assert (Hcar : forall i b, 0 <= i -> carried (rcv_nxt t) (a_seq x) (a_body x) i = Some b -> at_ W (consumed G t + i) = Some b).
  { intros i b Hi Hb. unfold carried in Hb. destruct (decide (a_body x = [])) as [Hn|Hn]; [by rewrite Hn, at_nil in Hb|].
    rewrite Rb in Hn, Hb. destruct (sf_dat _ _ _ _ _ _ _ Hsp Hn) as (q & Hq & Eq & Hl & Hat).
    pose proof (at_range _ _ _ Hb) as Hr. rewrite <- Rs in Eq. specialize (Hat _ _ Hb). rewrite <- Hat. f_equal.
    rewrite (distance_off o); [rewrite Eq, H3; lia|split; [apply (rd_seq _ _ Hx)|lia]|split; [done|lia]]. }
  assert (Hbytes : forall i b, at_ new i = Some b -> at_ W (consumed G t + i) = Some b).
  { intros i b Hi. pose proof (at_range _ _ _ Hi). destruct (Hnew i b Hi); [apply Hcar|apply H5]; done || lia. }
  assert (Hhad : had G t' = had G t ++ new) by (unfold had; by rewrite Hbuf, app_assoc).
  assert (Hp : had G t' `prefix_of` W).
  { rewrite Hhad. destruct (peer_fin_seen t) eqn:Ep; [|apply prefix_more; [done|]].
    - destruct (H4 eq_refl) as [Ew _]. assert (new = []) as ->; [|by rewrite app_nil_r].
      apply zlen_0_nil. destruct (Z.eq_dec (zlen new) 0) as [|Hne]; [done|].
      destruct (at_is_Some new 0) as [b Hb]; [lia|]. apply Hbytes, at_range in Hb.
      unfold consumed in Hb. rewrite Ep, Ew in Hb. cbn [Z.b2z] in Hb. lia.
    - intros i b Hi. apply Hbytes in Hi. unfold consumed in Hi. rewrite Ep in Hi. cbn [Z.b2z] in Hi.
      rewrite <- Hi. f_equal. lia. }
  pose proof (prefix_zlen _ _ Hp) as Hpl. rewrite Hhad, zlen_app in Hpl.
  assert (Hcn : consumed G t' = consumed G t + zlen new + (Z.b2z (peer_fin_seen t') - Z.b2z (peer_fin_seen t)))
    by (unfold consumed; rewrite Hhad, zlen_app; lia).
  assert (Hn2 : off o nxt2 = 1 + consumed G t + zlen new).
  { rewrite En, off_add; [lia|done|]. unfold consumed in *. destruct (peer_fin_seen t); cbn [Z.b2z] in *; lia. }
  assert (Hfinseg : TcpFlags.fin (a_flags x) = true ->
    off o (seq_add (a_seq x) (wrap32 (zlen (a_body x)))) = 1 + zlen W /\ ended = true).
  { rewrite Rf, Rb, Rs. intros Hf. destruct (sf_fin _ _ _ _ _ _ _ Hsp Hf) as (-> & Eq & Hen).
    change (wrap32 (zlen (@nil Z))) with 0. rewrite seq_add_0; [done|]. rewrite <- Rs. apply (rd_seq _ _ Hx). }
  assert (Hkept' : forall i b, 0 <= i -> content nxt2 (runs (reasm t')) i = Some b ->
    at_ W (consumed G t + zlen new + i) = Some b).
  { intros i b Hi Hb. replace (consumed G t + zlen new + i) with (consumed G t + (i + zlen new)) by lia.
    destruct (Hkept i b Hi Hb); [apply Hcar|apply H5]; done || lia. }
  assert (Hpend : forall p, pending_fin t' = Some p -> off o p = 1 + zlen W /\ ended = true).
  { intros p Ep. destruct (hd_pend _ _ _ Hhd p Ep) as [?|[Hf ->]]; [by apply H6|by apply Hfinseg]. }
  pose proof (hd_state _ _ _ Hhd) as Hst'.
  destruct (peer_fin_seen t' && negb (peer_fin_seen t)) eqn:Enew.
  - apply andb_true_iff in Enew as [Ep' Ep]. apply negb_true_iff in Ep. rewrite Ep, Ep' in Hcn. cbn [Z.b2z] in Hcn.
    destruct Hfin as [Enx Hsrc].
    assert (Hend : off o nxt2 = 1 + zlen W /\ ended = true).
    { destruct Hsrc as [[Hf <-]|Hpf]; [by apply Hfinseg|by apply H6]. }
    destruct Hend as [Hend Hen]. assert (Hcl : consumed G t = zlen (had G t)) by (unfold consumed; rewrite Ep; cbn; lia).
    split; [|lia]. split; try done.
    + assert (seq_ok nxt2) by (rewrite En; apply seq_add_ok). rewrite Enx, off_add by (done || lia). lia.
    + intros _. split; [|done]. apply prefix_same; [done|]. rewrite Hhad, zlen_app. lia.
    + intros i b Hi Hb. rewrite Enx in Hb. destruct (ok_rcv _ Hok') as [_ _ _ _ _ [_ Hr _ _] _ _]. rewrite Enx in Hr.
      rewrite <- (content_below _ _ _ _ Hr) in Hb. apply Hkept' in Hb; [|lia]. rewrite <- Hb. f_equal. lia.
  - destruct Hfin as [Enx Ep]. rewrite Ep, Z.sub_diag, Z.add_0_r in Hcn. split; [|lia]. split; try done.
    + rewrite Enx. lia.
    + rewrite Ep. intros Hf. destruct (H4 Hf) as [Ew Hen]. split; [|done]. apply prefix_same; [done|].
      rewrite Hhad, zlen_app, Ew. lia.
    + intros i b Hi Hb. rewrite Enx in Hb. rewrite Hcn. by apply Hkept'.
Qed.

(** A connection without a SYN takes nothing from a segment once it is closed. *)
Lemma deaf_segment G t now tcp x ce :
  tcb_ok t -> deaf G t -> state t = Closed -> reads tcp x -> honest t x ->
  exists t', on_segment Cc_new t now tcp ce = Some t' /\ tcb_ok t' /\ heard t x t' /\ deaf G t'.
Proof.
  intros Hok Hd Hst Hx Hhon. assert (Hns : state t <> SynSent) by (by rewrite Hst).
  destruct (receive_effect Cc_new Cc_new_ok t now tcp x ce Hok Hx Hhon Hns)
    as (t' & new & nxt2 & E & Hok' & En & Hbuf & Hnew & Hkept & Hfin).
  destruct (segment_heard Cc_new t now tcp x ce Hok Hx Hhon Hns) as (t1 & E1 & Hhd).
  rewrite E in E1. apply (inj Some) in E1. subst t1. exists t'. split; [done|]. split; [done|]. split; [done|].
  destruct Hd as [_ D2 D3 D4 D5 D6 D7]. pose proof (hd_closed _ _ _ Hhd Hst) as Hst'.
  destruct (hd_rcv _ _ _ Hhd) as [Hv|Hacc].
  { unfold rcv_view in Hv. injection Hv as F1 F2 F3 F4 F5 F6 F7.
    split; rewrite ?F1, ?F2, ?F3, ?F4, ?F5, ?F6; auto. }
  (* with the window closed only an empty segment is acceptable *)
  assert (Hlen : seg_len x = 0).
  { unfold segment_acceptable in Hacc. rewrite D2, Z.eqb_refl in Hacc. destruct (seg_len x =? 0) eqn:?; [lia|done]. }
  pose proof (zlen_nonneg (a_body x)). unfold seg_len in Hlen.
  assert (Hb : a_body x = []) by (apply zlen_0_nil; destruct (TcpFlags.syn _), (TcpFlags.fin _); cbn in Hlen; lia).
  assert (Hf : TcpFlags.fin (a_flags x) = false)
    by (destruct (TcpFlags.fin _); [|done]; destruct (TcpFlags.syn _); cbn in Hlen; lia).
  assert (Hnone : forall i, 0 <= i -> carried (rcv_nxt t) (a_seq x) (a_body x) i = None)
    by (intros i _; unfold carried; by rewrite Hb, at_nil).
  assert (Hnil : new = []).
  { apply zlen_0_nil. destruct (Z.eq_dec (zlen new) 0) as [|Hne]; [done|]. pose proof (zlen_nonneg new).
    destruct (at_is_Some new 0) as [b Hat]; [lia|].
    destruct (Hnew 0 b Hat) as [Hx0|Hx0]; [rewrite Hnone in Hx0 by lia|rewrite D4 in Hx0 by lia]; done. }
  subst new. change (zlen (@nil Z)) with 0 in *. rewrite seq_add_0 in En by apply (ok_rcv _ Hok). subst nxt2.
  rewrite app_nil_r in Hbuf.
  destruct (peer_fin_seen t' && negb (peer_fin_seen t)) eqn:Enew.
  { destruct Hfin as [_ [[Hf' _]|Hp]]; congruence. }
  destruct Hfin as [Enx Ep]. split; try congruence.
  - by right.
  - rewrite Enx, (hd_adv _ _ _ Hhd). done.
  - intros i Hi. rewrite Enx. destruct (content (rcv_nxt t) (runs (reasm t')) i) as [b|] eqn:Ec; [|done].
    destruct (Hkept i b Hi Ec) as [Hx0|Hx0]; [rewrite Hnone in Hx0 by lia|rewrite D4 in Hx0 by lia]; done.
  - destruct (pending_fin t') as [p|] eqn:Epf; [|done]. destruct (hd_pend _ _ _ Hhd p Epf) as [?|[? _]]; congruence.
Qed.

(** In SYN-SENT a segment opens both directions, or changes neither. *)
Lemma opening_segment oS WS a o W ended G t now tcp x ce back upto r dat :
  stands oS WS t a -> zlen WS < STREAM_LIMIT -> state t = SynSent -> deaf G t -> reads tcp x -> read_as r dat x ->
  speaks_for o W ended back upto r dat ->
  exists t', on_segment Cc_new t now tcp ce = Some t' /\ stands oS WS t' 0 /\ fin_acked t' = false /\
    fin_seq t' = fin_seq t /\ listens o W ended G t' /\ consumed G t' = 0.
Proof.
  intros H HWS Hst Hd Hx Hra Hsp. pose proof (sd_ok _ _ _ _ H) as Hok.
  assert (Hmss : a_mss x <> Some 0) by (rewrite (ra_mss _ _ _ Hra); apply (sf_mss _ _ _ _ _ _ _ Hsp)).
  assert (Has : at_start oS WS t).
  { destruct (sd_una _ _ _ _ H) as [?|Hu]; [done|]. by destruct (under_way_open oS WS t a H Hu HWS). }
  destruct (at_start_fin oS WS t a H Has) as [Hfa ->].
  destruct (on_segment_syn_sent_ok Cc_new Cc_new_ok t tcp x Hok Hst Hx Hmss) as (t' & E & Hok' & Hcase).
  pose proof (syn_sent_kept Cc_new t t' tcp E) as Hk. unfold opening_kept in Hk.
  injection Hk as K1 K2 K3 K4 K5 K6 K7 K8 K9.
  exists t'. split; [unfold on_segment, state_eqb; by rewrite bool_decide_true|].
  destruct (deaf_consumed _ _ Hd) as [Hh0 Hc0].
  assert (Hsame : snd_una t' = snd_una t -> rcv_view t' = rcv_view t -> state t' = state t \/ state t' = Closed ->
    stands oS WS t' 0 /\ fin_acked t' = false /\ fin_seq t' = fin_seq t /\ listens o W ended G t' /\ consumed G t' = 0).
  { intros Eu Ev Es. split; [eapply stands_streams; try done; [f_equal; congruence|by left]|].
    split; [congruence|]. split; [done|].
    destruct (listens_view o W ended G t t') as [Hl Hc]; [by right|done|congruence|rewrite Hst in Es; tauto|].
    split; [done|congruence]. }
  destruct (TcpFlags.ack (a_flags x) && negb (syn_acceptable t x)).
  { rewrite Hcase in *. apply Hsame; case_ifs; try done; by left. }
  destruct (TcpFlags.rst (a_flags x)).
  { rewrite Hcase in *. apply Hsame; case_ifs; try done; first [by left|by right]. }
  destruct (TcpFlags.syn (a_flags x)) eqn:Esyn; [|rewrite Hcase in *; apply Hsame; try done; by left].
  destruct Hcase as (_ & Enx & _ & _ & _ & _ & _ & _ & _ & _ & _ & _ & _ & Hcase).
  assert (Hhad : had G t' = []) by (unfold had in *; congruence).
  assert (Hcon : consumed G t' = 0) by (unfold consumed; rewrite Hhad, K8, (df_fin _ _ Hd); done).
  destruct Has as (Eo & EW & Ef & _). destruct (ok_fresh _ Hok Hst) as (_ & Hruns & _).
  assert (Hns : state t' <> SynSent) by (destruct (syn_acceptable t x); destruct Hcase as [-> _]; done).
  assert (Hhears : hears o W ended G t').
  { split; try done; rewrite ?Hhad, ?Hcon, ?K8, ?K9, ?(df_fin _ _ Hd), ?(df_pend _ _ Hd); try done.
    - apply prefix_nil.
    - rewrite Enx, (ra_seq _ _ _ Hra). rewrite (ra_flags _ _ _ Hra) in Esyn.
      destruct (sf_syn _ _ _ _ _ _ _ Hsp Esyn) as [_ ->]. by rewrite off_add_base by lia.
    - intros i b _. by rewrite K7, Hruns. }
  split; [|split; [congruence|split; [done|split; [by left|done]]]].
  pose proof (sd_tx _ _ _ _ H) as Htx. pose proof (sd_iss _ _ _ _ H) as Hi.
  split; [done|congruence|apply (sd_acked _ _ _ _ H)|congruence| |by rewrite K4, Ef].
  destruct (syn_acceptable t x) eqn:Eacc; destruct Hcase as [Es' Hcase].
  - right. destruct Hcase as (Eu & _). unfold under_way. rewrite Eu, K2, K4, K5, Hfa, off_self, Ef.
    split; [|split; [done|intros _; apply zlen_nonneg]]. cbn [Z.b2z].
    unfold syn_acceptable in Eacc. apply andb_true_iff in Eacc as [Eacc E2]. apply andb_true_iff in Eacc as [_ E1].
    pose proof (ok_snd _ Hok) as Hsnd. destruct (si_opening _ _ _ _ _ _ _ _ _ Hsnd) as (Hui & H1 & _); [by left|].
    rewrite <- Hui in E1. destruct (ack_offset (snd_una t) (snd_nxt t) (a_ack x)) as [_ Hk]; try done;
      [apply Hsnd|apply Hsnd|apply (rd_ack _ _ Hx)|by rewrite seq_gt_lt, E2|]. rewrite <- Eo. lia.
  - left. destruct Hcase as (Eu & _). split_and!; [congruence|done|congruence|by right; left].
Qed.

End receive_side.
