(* ===== verification/Transfer.v ===== *)
(** Two connections of [tcp-core/src/tcb.rs] over a network that may lose,
    duplicate, delay and reorder what they say: the octets one application writes
    are the octets the other reads. *)

From S2P Require Import Prelude Seq Time Buffers Rtt Checksum Ipv4 TcpWire Sack Reasm Congestion Endpoint Tcb TcbInv TcbRecv TcbSegment TcbDemo TcbInbound TcbOut TcbTransmit TcbPoll TcbLife TcbWork TcbEnds TcbPeer TcbStream.
Import RingBuffer (RingBuffer, mkRing, buf, capacity).

(** *** The system *)

(** One end: what its connection will be opened with, the connection, what its
    application has written and read, and every frame it has said.  The network
    is the frames said: any of them may arrive, any number of times, or never. *)
Record Host (C : Type) := mkHost {
  h_local : Endpoint;
  h_remote : Endpoint;
  h_isn : SeqNumber;
  h_mss : Z;
  h_tcb : option (Tcb C);
  h_wrote : list Z;
  h_got : list Z;
  h_said : list (list Z);
}.
Arguments mkHost {C}.
Arguments h_local {C}. Arguments h_remote {C}. Arguments h_isn {C}. Arguments h_mss {C}.
Arguments h_tcb {C}. Arguments h_wrote {C}. Arguments h_got {C}. Arguments h_said {C}.

#[export] Instance Host_settable {C} : Settable (Host C) := fun h =>
  mkHost (h_local h) (h_remote h) (h_isn h) (h_mss h) (h_tcb h) (h_wrote h) (h_got h) (h_said h).

(** What an end may do next; [Accept] and [Deliver] name a frame the peer said. *)
Inductive Action :=
| Connect (now : Instant)
| Accept (i : nat) (now : Instant)
| Deliver (i : nat) (ce : bool) (now : Instant)
| Transmit (now : Instant)
| Timer (now : Instant)
| Write (dat : list Z)
| Read (n : Z)
| Shutdown
| Control (k : CcKind).

Section transfer.
Context {C : Type} `{CC : CongestionControl C} {CL : CongestionLaws C}.
Context (Cc_new : CcKind -> Z -> C).
Context (Cc_new_ok : forall k m, 0 < m <= U16_MAX -> cc_ok m (Cc_new k m)).

Definition picked (peer : Host C) (i : nat) : option TcpPacket := h_said peer !! i ≫= segment_of.

Definition perform (peer h : Host C) (a : Action) : option (Host C) :=
  match a, h_tcb h with
  | Connect now, None =>
      Some (h <| h_tcb := Some (new_syn_sent Cc_new (h_local h) (h_remote h) (h_isn h) now (h_mss h)) |>)
  | Accept i now, None =>
      match picked peer i with
      | Some tcp =>
          let? f := flags tcp in
          if TcpFlags.syn f && negb (TcpFlags.ack f) && negb (TcpFlags.rst f) then
            let? t := new_syn_received Cc_new (h_local h) (h_remote h) tcp (h_isn h) now (h_mss h) in
            Some (h <| h_tcb := Some t |>)
          else Some h
      | None => Some h
      end
  | Deliver i ce now, Some t =>
      match picked peer i with
      | Some tcp => let? t := on_segment Cc_new t now tcp ce in Some (h <| h_tcb := Some t |>)
      | None => Some h
      end
  | Transmit now, Some t =>
      let? (t, out) := poll_transmit t now in
      Some (h <| h_tcb := Some t |> <| h_said := h_said h ++ option_list out |>)
  | Timer now, Some t => let? t := on_timer t now in Some (h <| h_tcb := Some t |>)
  | Write dat, Some t =>
      let '(t, n) := send t dat in
      Some (h <| h_tcb := Some t |> <| h_wrote := h_wrote h ++ ztake n dat |>)
  | Read n, Some t =>
      let? (t, out) := recv t n in
      Some (h <| h_tcb := Some t |> <| h_got := h_got h ++ out |>)
  | Shutdown, Some t => Some (h <| h_tcb := Some (close t) |>)
  | Control k, Some t => Some (h <| h_tcb := Some (set_congestion_control Cc_new t k) |>)
  | _, _ => Some h
  end.

(** What the theorems ask of an action: octets to write, a length to read, and not
    2^32 timeouts in a row. *)
Definition legal (h : Host C) (a : Action) : Prop :=
  match a with
  | Timer _ => match h_tcb h with Some t => timeouts_left t | None => True end
  | Write dat => bytes_ok dat
  | Read n => 0 <= n
  | _ => True
  end.

(** The two ends take turns in any order: [true] moves the first. *)
Definition World : Type := Host C * Host C.
Definition turn (w : World) (s : bool * Action) : option World :=
  let '(a, b) := w in
  if s.1 then let? a := perform b a s.2 in Some (a, b) else let? b := perform a b s.2 in Some (a, b).
Fixpoint run (w : World) (ss : list (bool * Action)) : option World :=
  match ss with [] => Some w | s :: ss => let? w := turn w s in run w ss end.

Fixpoint lawful (w : World) (ss : list (bool * Action)) : Prop :=
  match ss with
  | [] => True
  | s :: ss => legal (if s.1 then w.1 else w.2) s.2 /\ forall w', turn w s = Some w' -> lawful w' ss
  end.

(** The octets an end's application offers. *)
Definition offer (a : Action) : Z := match a with Write dat => zlen dat | _ => 0 end.
Fixpoint offered (who : bool) (ss : list (bool * Action)) : Z :=
  match ss with
  | [] => 0
  | s :: ss => (if eqb s.1 who then offer s.2 else 0) + offered who ss
  end.

Record configured (h : Host C) : Prop := {
  cf_local : endpoint_ok (h_local h);
  cf_remote : endpoint_ok (h_remote h);
  cf_isn : seq_ok (h_isn h);
  cf_mss : MSS_DEFAULT <= h_mss h <= MSS_MAX;
}.
Definition idle (h : Host C) : Prop :=
  h_tcb h = None /\ h_wrote h = [] /\ h_got h = [] /\ h_said h = [].

(** *** The invariant *)

Definition ended (h : Host C) : bool :=
  match h_tcb h with Some t => is_some (fin_seq t) | None => false end.
(** The numbers of its peer's stream an end has consumed. *)
Definition reached (h : Host C) : Z :=
  match h_tcb h with Some t => consumed (h_got h) t | None => 0 end.

(** One end against the other: it stands in its own stream, no further acknowledged
    than the peer has reached; it listens to the peer's; its frames speak for it. *)
Record half (h p : Host C) : Prop := {
  hf_config : configured h;
  hf_none : h_tcb h = None -> idle h;
  hf_send : forall t, h_tcb h = Some t -> exists a,
    stands (h_isn h) (h_wrote h) t a /\ a + Z.b2z (fin_acked t) <= reached p;
  hf_recv : forall t, h_tcb h = Some t -> listens (h_isn p) (h_wrote p) (ended p) (h_got h) t;
  hf_said : forall f, f ∈ h_said h -> exists lo re r dat, frame_carries f lo re r dat /\
    speaks_for (h_isn h) (h_wrote h) (ended h) (h_isn p) (reached h) r dat;
}.

(** How an end moves, as its peer sees it. *)
Record grows (h h' : Host C) : Prop := {
  gr_isn : h_isn h' = h_isn h;
  gr_wrote : h_wrote h `prefix_of` h_wrote h';
  gr_ended : ended h = true -> h_wrote h' = h_wrote h /\ ended h' = true;
  gr_reached : reached h <= reached h';
}.

Lemma half_peer h p p' : half h p -> grows p p' -> half h p'.
Proof.
  intros [H1 H2 H3 H4 H5] [G1 G2 G3 G4]. split; try done.
  - intros t E. destruct (H3 t E) as (a & Hs & Ha). exists a. split; [done|lia].
  - intros t E. rewrite G1. eapply listens_later; [exact G2|exact G3|by apply H4].
  - by rewrite G1.
Qed.

Lemma grows_refl h : grows h h.
Proof. by split. Qed.

(** A move that leaves the connection [t']. *)
Lemma half_moves h p h' t' a :
  half h p -> configured h' -> h_isn h' = h_isn h -> h_tcb h' = Some t' ->
  h_wrote h `prefix_of` h_wrote h' -> (ended h = true -> h_wrote h' = h_wrote h /\ ended h' = true) ->
  stands (h_isn h) (h_wrote h') t' a -> a + Z.b2z (fin_acked t') <= reached p ->
  listens (h_isn p) (h_wrote p) (ended p) (h_got h') t' -> reached h <= consumed (h_got h') t' ->
  (forall f, f ∈ h_said h' -> f ∈ h_said h \/ exists lo re r dat, frame_carries f lo re r dat /\
    speaks_for (h_isn h) (h_wrote h') (ended h') (h_isn p) (consumed (h_got h') t') r dat) ->
  half h' p /\ grows h h'.
Proof.
  intros [H1 H2 H3 H4 H5] Hc Ei Et Hw He Hs Ha Hl Hr Hf.
  assert (Hr' : reached h' = consumed (h_got h') t') by (unfold reached; by rewrite Et).
  assert (Hg : grows h h') by (split; try done; lia).
  split; [|done]. split; try done.
  - congruence.
  - intros t E. assert (t = t') as -> by congruence. exists a. by rewrite Ei.
  - intros t E. assert (t = t') as -> by congruence. done.
  - intros f Hin. rewrite Ei, Hr'. destruct (Hf f Hin) as [Hin'|?]; [|done].
    destruct (H5 f Hin') as (lo & re & r & dat & Hcar & Hsp). exists lo, re, r, dat. split; [done|].
    eapply speaks_for_later; try done.
Qed.

Lemma configured_same h h' :
  configured h -> h_local h' = h_local h -> h_remote h' = h_remote h -> h_isn h' = h_isn h -> h_mss h' = h_mss h ->
  configured h'.
Proof. intros [H1 H2 H3 H4] E1 E2 E3 E4. split; by rewrite ?E1, ?E2, ?E3, ?E4. Qed.

(** A move of the connection alone. *)
Lemma half_tcb h p t' a :
  half h p -> stands (h_isn h) (h_wrote h) t' a -> a + Z.b2z (fin_acked t') <= reached p ->
  listens (h_isn p) (h_wrote p) (ended p) (h_got h) t' -> reached h <= consumed (h_got h) t' ->
  (ended h = true -> is_some (fin_seq t') = true) ->
  half (h <| h_tcb := Some t' |>) p /\ grows h (h <| h_tcb := Some t' |>).
Proof.
  intros H Hs Ha Hl Hr He. eapply half_moves; try done; try (by left).
  - by apply (configured_same h); [apply H|..].
  - intros E. split; [done|by apply He].
Qed.

Lemma half_stream_limit h p t : half h p -> h_tcb h = Some t -> reached h = consumed (h_got h) t /\
  ended h = is_some (fin_seq t) /\ tcb_ok t.
Proof.
  intros H E. unfold reached, ended. rewrite E. split; [done|]. split; [done|].
  destruct (hf_send _ _ H t E) as (a & Hs & _). apply Hs.
Qed.

(** A move that leaves both streams alone. *)
Lemma half_still h p t t' :
  half h p -> zlen (h_wrote h) < STREAM_LIMIT -> h_tcb h = Some t -> tcb_ok t' ->
  streams t' = streams t -> state t = SynSent \/ snd_nxt t' = snd_nxt t -> state t' = state t \/ state t' = Closed ->
  half (h <| h_tcb := Some t' |>) p /\ grows h (h <| h_tcb := Some t' |>).
Proof.
  intros H HW E Hok' Hv Hn Hst. destruct (half_stream_limit h p t H E) as (Er & Ee & _).
  destruct (hf_send _ _ H t E) as (a & Hs & Ha). pose proof (hf_recv _ _ H t E) as Hl.
  assert (V : iss t' = iss t /\ snd_una t' = snd_una t /\ tx t' = tx t /\ fin_seq t' = fin_seq t /\
    fin_acked t' = fin_acked t /\ rcv_view t' = rcv_view t) by (unfold streams in Hv; split_and!; congruence).
  destruct V as (V1 & V2 & V3 & V4 & V5 & V6).
  destruct (listens_view _ _ _ _ t t' Hl V6) as [Hl' Hc].
  { destruct Hst as [->| ->]; done. }
  { destruct Hst as [->| ->]; tauto. }
  apply (half_tcb h p t' a); try done.
  - eapply stands_streams; try done. congruence.
  - by rewrite V5.
  - lia.
  - rewrite Ee. by rewrite V4.
Qed.

Lemma moved_timer h p t now :
  half h p -> zlen (h_wrote h) < STREAM_LIMIT -> h_tcb h = Some t -> timeouts_left t ->
  exists t', on_timer t now = Some t' /\ half (h <| h_tcb := Some t' |>) p /\ grows h (h <| h_tcb := Some t' |>).
Proof.
  intros H HW E Hl. destruct (half_stream_limit h p t H E) as (_ & _ & Hok).
  destruct (on_timer_ok t now Hok Hl) as (t' & Et & Hok'). exists t'. split; [done|].
  destruct (on_timer_streams t t' now Et) as (V & Hn & Hs). eapply half_still; try done. by right.
Qed.

Lemma moved_control h p t k :
  half h p -> zlen (h_wrote h) < STREAM_LIMIT -> h_tcb h = Some t ->
  let t' := set_congestion_control Cc_new t k in
  half (h <| h_tcb := Some t' |>) p /\ grows h (h <| h_tcb := Some t' |>).
Proof.
  intros H HW E t'. destruct (half_stream_limit h p t H E) as (_ & _ & Hok).
  eapply half_still; try done; unfold t'; [by apply set_congestion_control_ok|..]; unfold set_congestion_control;
    case_ifs; try done; first [by right|by left].
Qed.

Lemma moved_shutdown h p t :
  half h p -> zlen (h_wrote h) < STREAM_LIMIT -> h_tcb h = Some t ->
  half (h <| h_tcb := Some (close t) |>) p /\ grows h (h <| h_tcb := Some (close t) |>).
Proof.
  intros H HW E. destruct (half_stream_limit h p t H E) as (_ & _ & Hok).
  eapply half_still; try done; [by apply close_ok|by right|by left].
Qed.

Lemma moved_write h p t dat :
  half h p -> zlen (h_wrote h) < STREAM_LIMIT -> h_tcb h = Some t -> bytes_ok dat ->
  exists t' n, send t dat = (t', n) /\ zlen (ztake n dat) <= zlen dat /\
    let h' := h <| h_tcb := Some t' |> <| h_wrote := h_wrote h ++ ztake n dat |> in half h' p /\ grows h h'.
Proof.
  intros H HW E Hd. destruct (send t dat) as [t' n] eqn:Es. exists t', n. split; [done|].
  split; [rewrite zlen_ztake; pose proof (zlen_nonneg dat); lia|]. cbv zeta.
  destruct (half_stream_limit h p t H E) as (Er & Ee & _). destruct (hf_send _ _ H t E) as (a & Hs & Ha).
  destruct (stands_send _ _ t a dat t' n Hs HW Hd Es) as [Hs' Hend].
  assert (V : rcv_view t' = rcv_view t /\ state t' = state t /\ fin_seq t' = fin_seq t /\ fin_acked t' = fin_acked t).
  { revert Es. unfold send. destruct (state t) eqn:Est; try (intros [= <- _]; by rewrite Est);
      destruct (RingBuffer.write _ _); intros [= <- _]; by rewrite <- Est. }
  destruct V as (V1 & V2 & V3 & V4).
  destruct (listens_view _ _ _ _ t t' (hf_recv _ _ H t E) V1) as [Hl Hc]; [by rewrite V2|by rewrite V2|].
  eapply (half_moves h p _ t' a); try done.
  - by apply (configured_same h); [apply H|..].
  - by eexists.
  - rewrite Ee. intros Ef. cbn. unfold ended. cbn. rewrite V3. split; [|done].
    rewrite Hend, app_nil_r; [done|]. by destruct (fin_seq t).
  - by rewrite V4.
  - cbn. lia.
  - by left.
Qed.

Lemma moved_read h p t n :
  half h p -> zlen (h_wrote h) < STREAM_LIMIT -> h_tcb h = Some t -> 0 <= n ->
  exists t' out, recv t n = Some (t', out) /\
    let h' := h <| h_tcb := Some t' |> <| h_got := h_got h ++ out |> in half h' p /\ grows h h'.
Proof.
  intros H HW E Hn. destruct (half_stream_limit h p t H E) as (Er & Ee & Hok).
  destruct (hf_send _ _ H t E) as (a & Hs & Ha). destruct (recv_ok t n Hok Hn) as (t' & Et & Hok' & Hrest).
  assert (V : exists rx', t' = t <| rx := rx' |>).
  { revert Et. unfold recv. destruct (RingBuffer.read _ _) as [[rx' o]|]; [|done]. intros [= <- _]. by eexists. }
  destruct V as [rx' V]. exists t', (ztake n (buf (rx t))). split; [done|]. cbv zeta.
  assert (Hhad : had (h_got h ++ ztake n (buf (rx t))) t' = had (h_got h) t)
    by (unfold had; rewrite Hrest, <- app_assoc; by rewrite ztake_zdrop).
  assert (Hc : consumed (h_got h ++ ztake n (buf (rx t))) t' = consumed (h_got h) t)
    by (unfold consumed; rewrite Hhad; by rewrite V).
  eapply (half_moves h p _ t' a); try done.
  - by apply (configured_same h); [apply H|..].
  - rewrite Ee. intros Ef. split; [done|]. unfold ended. cbn. by rewrite V.
  - apply (stands_streams _ _ t); try done; rewrite V; [done|by right|by left].
  - by rewrite V.
  - cbn [h_got set]. destruct (hf_recv _ _ H t E) as [[R1 R2 R3 R4 R5 R6]|[R1 R2 R3 R4 R5 R6 R7]]; [left|right].
    + split; rewrite ?Hhad, ?Hc; try done; rewrite V; done.
    + split; try (rewrite V; done); [by rewrite Hrest, R3; unfold zdrop; rewrite drop_nil|].
      rewrite R7, R3. unfold ztake. by rewrite take_nil.
  - cbn [h_got set]. rewrite Hc. lia.
  - by left.
Qed.

(** What an end picks from the network speaks for its peer. *)
Lemma picked_speaks h p i tcp :
  half p h -> picked p i = Some tcp ->
  exists x r dat, reads tcp x /\ read_as r dat x /\
    speaks_for (h_isn p) (h_wrote p) (ended p) (h_isn h) (reached p) r dat.
Proof.
  intros Hp E. unfold picked in E. destruct (h_said p !! i) as [f|] eqn:Ef; [|done]. cbn in E.
  destruct (hf_said _ _ Hp f) as (lo & re & r & dat & Hc & Hs); [by eapply list_elem_of_lookup_2|].
  destruct (carries_reads _ _ _ _ _ Hc) as (tcp' & x & E' & Hx & Hr). assert (tcp' = tcp) as -> by congruence.
  by exists x, r, dat.
Qed.

Lemma moved_deliver h p t i tcp ce now :
  half h p -> half p h -> zlen (h_wrote h) < STREAM_LIMIT -> zlen (h_wrote p) < STREAM_LIMIT ->
  h_tcb h = Some t -> picked p i = Some tcp ->
  exists t', on_segment Cc_new t now tcp ce = Some t' /\
    half (h <| h_tcb := Some t' |>) p /\ grows h (h <| h_tcb := Some t' |>).
Proof.
  intros H Hp HW HWp E Epick. destruct (picked_speaks h p i tcp Hp Epick) as (x & r & dat & Hx & Hra & Hsp).
  destruct (half_stream_limit h p t H E) as (Er & Ee & Hok). destruct (hf_send _ _ H t E) as (a & Hs & Ha).
  pose proof (hf_recv _ _ H t E) as Hl. pose proof (cf_isn _ (hf_config _ _ H)) as Ho.
  pose proof (cf_isn _ (hf_config _ _ Hp)) as Hop.
  assert (Hhon : honest t x) by (by eapply listens_honest).
  destruct (decide (state t = SynSent)) as [Est|Est].
  { assert (Hd : deaf (h_got h) t) by (destruct Hl as [Hh|?]; [by destruct (hr_state _ _ _ _ _ Hh)|done]).
    destruct (opening_segment Cc_new Cc_new_ok (h_isn h) (h_wrote h) a (h_isn p) (h_wrote p) (ended p) (h_got h)
      t now tcp x ce _ _ r dat Hs HW Est Hd Hx Hra Hsp) as (t' & Et & Hs' & Hfa & Hfs & Hl' & Hc).
    exists t'. split; [done|]. apply (half_tcb h p t' 0); try done.
    - rewrite Hfa. destruct (deaf_consumed _ _ Hd) as [_ Hc0]. pose proof (sd_acked _ _ _ _ Hs).
      destruct (fin_acked t); cbn [Z.b2z] in *; lia.
    - rewrite Er. destruct (deaf_consumed _ _ Hd) as [_ ->]. lia.
    - by rewrite Ee, Hfs. }
  assert (Hrecv : exists t', on_segment Cc_new t now tcp ce = Some t' /\ tcb_ok t' /\ heard t x t' /\
    listens (h_isn p) (h_wrote p) (ended p) (h_got h) t' /\ consumed (h_got h) t <= consumed (h_got h) t').
  { destruct Hl as [Hh|Hd].
    - destruct (hears_segment Cc_new Cc_new_ok (h_isn p) (h_wrote p) (ended p) (h_got h) t now tcp x ce _ _ r dat
        Hok Hop HWp Hh Hx Hra Hsp) as (t' & ? & ? & ? & ? & ?). exists t'. split_and!; try done. by left.
    - assert (Ecl : state t = Closed) by (destruct (df_state _ _ Hd); done).
      destruct (deaf_segment Cc_new Cc_new_ok (h_got h) t now tcp x ce Hok Hd Ecl Hx Hhon) as (t' & ? & ? & ? & Hd').
      exists t'. split_and!; try done; [by right|]. destruct (deaf_consumed _ _ Hd) as [_ ->], (deaf_consumed _ _ Hd') as [_ ->]. lia. }
  destruct Hrecv as (t' & Et & Hok' & Hhd & Hl' & Hc). exists t'. split; [done|].
  pose proof (on_segment_ident Cc_new t t' now tcp ce Et) as Hid. unfold ident in Hid.
  destruct (stands_heard (h_isn h) (h_wrote h) t a x t' Hs Ho HW Est Hhd Hok' ltac:(congruence)) as (a' & Hs' & Ha').
  apply (half_tcb h p t' a'); try done; [|lia|by rewrite Ee, (hd_fin _ _ _ Hhd)].
  destruct Ha' as [->|[Hack Ea]]; [done|]. rewrite (ra_flags _ _ _ Hra) in Hack.
  destruct (sf_ack _ _ _ _ _ _ _ Hsp Hack) as (m & Hm & Em). rewrite <- (ra_ack _ _ _ Hra) in Em. lia.
Qed.

Lemma moved_transmit h p t now :
  half h p -> zlen (h_wrote h) < STREAM_LIMIT -> zlen (h_wrote p) < STREAM_LIMIT -> h_tcb h = Some t ->
  exists t' out, poll_transmit t now = Some (t', out) /\
    let h' := h <| h_tcb := Some t' |> <| h_said := h_said h ++ option_list out |> in half h' p /\ grows h h'.
Proof.
  intros H HW HWp E. destruct (half_stream_limit h p t H E) as (Er & Ee & Hok).
  destruct (hf_send _ _ H t E) as (a & Hs & Ha). pose proof (hf_recv _ _ H t E) as Hl.
  assert (Hcase : exists t' out, poll_transmit t now = Some (t', out) /\
    stands (h_isn h) (h_wrote h) t' a /\ fin_acked t' = fin_acked t /\ (is_some (fin_seq t) = true -> is_some (fin_seq t') = true) /\
    listens (h_isn p) (h_wrote p) (ended p) (h_got h) t' /\ consumed (h_got h) t' = consumed (h_got h) t /\
    forall f, out = Some f -> exists lo re r dat, frame_carries f lo re r dat /\
      speaks_for (h_isn h) (h_wrote h) (is_some (fin_seq t')) (h_isn p) (consumed (h_got h) t') r dat).
  { destruct (decide (state t = SynSent \/ state t = Closed)) as [Hq|Hq].
    - destruct (quiet_poll t now Hok Hq) as (t' & out & Et & Hok' & V & Es & En & Hout). exists t', out.
      assert (V' : iss t' = iss t /\ snd_una t' = snd_una t /\ tx t' = tx t /\ fin_seq t' = fin_seq t /\
        fin_acked t' = fin_acked t /\ rcv_view t' = rcv_view t) by (unfold streams in V; split_and!; congruence).
      destruct V' as (V1 & V2 & V3 & V4 & V5 & V6).
      destruct (listens_view _ _ _ _ t t' Hl V6) as [Hl' Hc]; [by rewrite Es|by rewrite Es|].
      split_and!; try done; [|by rewrite V4|].
      + eapply stands_streams; try done; [congruence|destruct Hq; [by left|right; auto]|by left].
      + intros f Ef. destruct (Hout f Ef) as (r & Hcar & Hm & Hsyn & Hfin & Hack).
        exists (local t), (remote t), r, []. split; [done|]. split; try done; try congruence.
        intros Hs'. split; [done|]. rewrite (Hsyn Hs'). apply (sd_iss _ _ _ _ Hs).
    - assert (Hq1 : state t <> SynSent) by tauto. assert (Hq2 : state t <> Closed) by tauto.
      destruct (poll_transmit_core t now Hok) as (t' & out & Et & Hpol). pose proof (poll_transmit_emits t t' now out Et) as Hem.
      destruct (stands_polled _ _ t a t' out Hs HW Hq1 Hq2 Hpol Hem) as [Hs' Hout]. exists t', out.
      destruct Hem as [K Hem]. unfold kept in K. destruct Hpol as (_ & Hoc & Hst & _).
      assert (Hv : rcv_nxt t' = rcv_nxt t /\ reasm t' = reasm t).
      { destruct out as [f|]; cbn [outcome] in Hoc.
        - destruct Hoc as (r & dat & _ & Hsent). by destruct (se_recv _ _ _ _ Hsent) as (? & _ & ?).
        - unfold out_view, rcv_view in Hoc. split; congruence. }
      destruct Hv as [Hv1 Hv2].
      assert (K' : rx t' = rx t /\ peer_fin_seen t' = peer_fin_seen t /\ fin_acked t' = fin_acked t /\ pending_fin t' = pending_fin t)
        by (split_and!; congruence).
      destruct K' as (K1 & K2 & K3 & K4).
      assert (Hc : consumed (h_got h) t' = consumed (h_got h) t) by (unfold consumed, had; by rewrite K1, K2).
      assert (Hh : hears (h_isn p) (h_wrote p) (ended p) (h_got h) t)
        by (destruct Hl as [?|Hd]; [done|by destruct (df_state _ _ Hd)]).
      split_and!; try done.
      + intros Ef. destruct Hem as [[_ ->]|[? _]]; done.
      + left. destruct Hh as [R1 R2 R3 R4 R5 R6].
        split; unfold had in *; rewrite ?Hc, ?K1, ?K2, ?K4, ?Hv1, ?Hv2; try done.
        destruct Hst as [->|[_ ->]]; [done|]. by destruct (state t).
      + intros f Ef. destruct (Hout f Ef) as (r & dat & Hcar & Hsp). exists (local t), (remote t), r, dat. split; [done|].
        apply (Hsp _ _ (consumed (h_got h) t)); [apply (hr_nxt _ _ _ _ _ Hh)|]. rewrite Hc.
        pose proof (consumed_bound _ _ _ _ _ Hh). lia. }
  destruct Hcase as (t' & out & Et & Hs' & Hfa & Hfs & Hl' & Hc & Hout). exists t', out. split; [done|]. cbv zeta.
  eapply (half_moves h p _ t' a); try done.
  - by apply (configured_same h); [apply H|..].
  - rewrite Ee. intros Ef. split; [done|]. by apply Hfs.
  - by rewrite Hfa.
  - cbn [h_got set]. lia.
  - intros f Hin. cbn [h_said set] in Hin. apply elem_of_app in Hin as [Hin|Hin]; [by left|right].
    destruct out as [f0|]; cbn in Hin; [|by apply elem_of_nil in Hin]. apply list_elem_of_singleton in Hin as ->.
    exact (Hout f0 eq_refl).
Qed.

(** *** Opening *)

Lemma half_opens h p t :
  half h p -> h_tcb h = None -> stands (h_isn h) [] t 0 -> fin_acked t = false ->
  listens (h_isn p) (h_wrote p) (ended p) [] t -> 0 <= reached p ->
  half (h <| h_tcb := Some t |>) p /\ grows h (h <| h_tcb := Some t |>).
Proof.
  intros H E Hs Hfa Hl Hp. destruct (hf_none _ _ H E) as (_ & Ew & Eg & _).
  assert (Er : reached h = 0 /\ ended h = false) by (unfold reached, ended; by rewrite E). destruct Er as [Er Ee].
  rewrite <- Ew in Hs. rewrite <- Eg in Hl.
  apply (half_tcb h p t 0); try done; [by rewrite Hfa| |by rewrite Ee].
  rewrite Er. unfold consumed. pose proof (zlen_nonneg (had (h_got h) t)). destruct (peer_fin_seen t); cbn; lia.
Qed.

Lemma reached_nonneg h : 0 <= reached h.
Proof.
  unfold reached, consumed. destruct (h_tcb h) as [t|]; [|done].
  pose proof (zlen_nonneg (had (h_got h) t)). destruct (peer_fin_seen t); cbn; lia.
Qed.

Lemma moved_connect h p now :
  half h p -> h_tcb h = None ->
  let t := new_syn_sent Cc_new (h_local h) (h_remote h) (h_isn h) now (h_mss h) in
  half (h <| h_tcb := Some t |>) p /\ grows h (h <| h_tcb := Some t |>).
Proof.
  intros H E t. destruct (hf_config _ _ H) as [C1 C2 C3 C4].
  pose proof (new_syn_sent_ok Cc_new Cc_new_ok (h_local h) (h_remote h) (h_isn h) now (h_mss h) C1 C2 C3 C4) as Hok.
  fold t in Hok. apply half_opens; try done.
  - split; try done. left. split_and!; try done. by left.
  - right. split; try done. by left.
  - apply reached_nonneg.
Qed.

Lemma moved_accept h p i tcp now :
  half h p -> half p h -> h_tcb h = None -> picked p i = Some tcp ->
  exists f, flags tcp = Some f /\ (TcpFlags.syn f = true ->
    exists t, new_syn_received Cc_new (h_local h) (h_remote h) tcp (h_isn h) now (h_mss h) = Some t /\
      half (h <| h_tcb := Some t |>) p /\ grows h (h <| h_tcb := Some t |>)).
Proof.
  intros H Hp E Epick. destruct (picked_speaks h p i tcp Hp Epick) as (x & r & dat & Hx & Hra & Hsp).
  destruct (rd_flags _ _ Hx) as [Ef _]. exists (a_flags x). split; [done|]. intros Hsyn.
  destruct (hf_config _ _ H) as [C1 C2 C3 C4].
  destruct (new_syn_received_ok Cc_new Cc_new_ok (h_local h) (h_remote h) tcp x (h_isn h) now (h_mss h) C1 C2 C3 C4 Hx)
    as (t & Et & Hok & Est & _ & Enx & _ & Eiss & _); [rewrite (ra_mss _ _ _ Hra); apply (sf_mss _ _ _ _ _ _ _ Hsp)|].
  exists t. split; [done|].
  destruct (new_syn_received_begins Cc_new _ _ _ _ _ _ t Et) as (B1 & B2 & B3 & B4 & B5 & B6 & B7 & B8).
  rewrite (ra_flags _ _ _ Hra) in Hsyn. destruct (sf_syn _ _ _ _ _ _ _ Hsp Hsyn) as [_ Eseq].
  rewrite <- (ra_seq _ _ _ Hra) in Eseq. rewrite Eseq in Enx.
  assert (Hc : had [] t = [] /\ consumed [] t = 0) by (unfold consumed, had; by rewrite B4, B7). destruct Hc as [Hc1 Hc2].
  apply half_opens; try done.
  - split; try done; [|by rewrite B2]. left. split_and!; try done. by right; left.
  - left. split; rewrite ?Hc1, ?Hc2, ?B4, ?B5; try done.
    + by rewrite Est.
    + apply prefix_nil.
    + rewrite Enx. by rewrite off_add_base by lia.
    + intros i0 b _. by rewrite B8.
  - apply reached_nonneg.
Qed.

(** *** Every action *)

Lemma performed h p a :
  half h p -> half p h -> zlen (h_wrote h) < STREAM_LIMIT -> zlen (h_wrote p) < STREAM_LIMIT -> legal h a ->
  exists h', perform p h a = Some h' /\ half h' p /\ grows h h' /\ zlen (h_wrote h') <= zlen (h_wrote h) + offer a.
Proof.
  intros H Hp HW HWp Hleg.
  assert (Hstill : 0 <= offer a -> exists h', Some h = Some h' /\ half h' p /\ grows h h' /\
    zlen (h_wrote h') <= zlen (h_wrote h) + offer a).
  { intros Ho. exists h. split; [done|]. split; [done|]. split; [apply grows_refl|lia]. }
  assert (Ho : 0 <= offer a) by (destruct a; try done; apply zlen_nonneg). specialize (Hstill Ho).
  destruct a as [now|i now|i ce now|now|now|dat|n| |k], (h_tcb h) as [t|] eqn:E;
    unfold perform; rewrite E; try exact Hstill; cbn [legal offer] in *; rewrite ?E in Hleg.
  - eexists. split; [done|]. destruct (moved_connect h p now H E). split_and!; try done. cbn. lia.
  - destruct (picked p i) as [tcp|] eqn:Ep; [|exact Hstill].
    destruct (moved_accept h p i tcp now H Hp E Ep) as (f & -> & Hacc).
    destruct (TcpFlags.syn f) eqn:Es; [|exact Hstill]. destruct (negb _); [|exact Hstill].
    destruct (negb _); [|exact Hstill]. destruct (Hacc eq_refl) as (t & -> & ? & ?).
    eexists. split; [done|]. split_and!; try done. cbn. lia.
  - destruct (picked p i) as [tcp|] eqn:Ep; [|exact Hstill].
    destruct (moved_deliver h p t i tcp ce now H Hp HW HWp E Ep) as (t' & -> & ? & ?).
    eexists. split; [done|]. split_and!; try done. cbn. lia.
  - destruct (moved_transmit h p t now H HW HWp E) as (t' & out & -> & ? & ?).
    eexists. split; [done|]. split_and!; try done. cbn. lia.
  - destruct (moved_timer h p t now H HW E Hleg) as (t' & -> & ? & ?).
    eexists. split; [done|]. split_and!; try done. cbn. lia.
  - destruct (moved_write h p t dat H HW E Hleg) as (t' & n & -> & Hn & ? & ?).
    eexists. split; [done|]. split_and!; try done. cbn. rewrite zlen_app. lia.
  - destruct (moved_read h p t n H HW E Hleg) as (t' & out & -> & ? & ?).
    eexists. split; [done|]. split_and!; try done. cbn. lia.
  - eexists. split; [done|]. destruct (moved_shutdown h p t H HW E). split_and!; try done. cbn. lia.
  - eexists. split; [done|]. destruct (moved_control h p t k H HW E). split_and!; try done. cbn. lia.
Qed.

Lemma run_halves ss : forall a b,
  half a b -> half b a -> lawful (a, b) ss ->
  zlen (h_wrote a) + offered true ss < STREAM_LIMIT -> zlen (h_wrote b) + offered false ss < STREAM_LIMIT ->
  exists a' b', run (a, b) ss = Some (a', b') /\ half a' b' /\ half b' a'.
Proof.
  assert (Hpos : forall who ss, 0 <= offered who ss).
  { intros who l. induction l as [|[m x] l IH]; [done|]. cbn [offered fst snd].
    assert (0 <= offer x) by (destruct x; try done; apply zlen_nonneg). case_ifs; lia. }
  induction ss as [|[who x] ss IH]; intros a b Ha Hb Hl Hwa Hwb; [by exists a, b|].
  destruct Hl as [Hleg Hl]. cbn [offered fst snd] in *. pose proof (Hpos true ss). pose proof (Hpos false ss).
  assert (0 <= offer x) by (destruct x; try done; apply zlen_nonneg).
  cbn [run]. unfold turn in *. destruct who; cbn [eqb fst snd] in *.
  - destruct (performed a b x Ha Hb) as (a' & E & Ha' & Hg & Hw); [lia|lia|done|].
    rewrite E in *. apply IH; try done; [by eapply half_peer|by apply Hl|lia].
  - destruct (performed b a x Hb Ha) as (b' & E & Hb' & Hg & Hw); [lia|lia|done|].
    rewrite E in *. apply IH; try done; [by eapply half_peer|by apply Hl|lia].
Qed.

Lemma lawful_always ss w : Forall (fun s => forall h, legal h s.2) ss -> lawful w ss.
Proof.
  intros H. revert w. induction H as [|s ss Hs _ IH]; intros w; [done|]. split; [apply Hs|]. intros w' _. apply IH.
Qed.

(** *** What the invariant says *)

(** The part of its peer's stream an end has, read or queued. *)
Definition received (p : Host C) : list Z :=
  match h_tcb p with Some t => had (h_got p) t | None => h_got p end.

(** [p] has of [h]'s stream what [h] and [p] believe it has. *)
Record delivered (h p : Host C) : Prop := {
  (* nothing is lost, repeated, reordered or invented *)
  dv_prefix : h_got p `prefix_of` h_wrote h;
  (* end of file means the whole stream *)
  dv_eof : forall t, h_tcb p = Some t -> recv_eof t = true -> h_got p = h_wrote h /\ ended h = true;
  (* what the send buffer let go has arrived *)
  dv_acked : forall t, h_tcb h = Some t -> exists freed,
    h_wrote h = freed ++ buf (tx t) /\ freed `prefix_of` received p;
  (* an acknowledged FIN was received, after everything else *)
  dv_fin : forall t, h_tcb h = Some t -> fin_acked t = true ->
    received p = h_wrote h /\ exists t', h_tcb p = Some t' /\ peer_fin_seen t' = true;
  dv_ok : forall t, h_tcb h = Some t -> tcb_ok t;
}.

Lemma ztake_prefix {A} (l d : list A) n : l `prefix_of` d -> n <= zlen l -> ztake n d `prefix_of` l.
Proof. intros [e ->] Hn. rewrite ztake_app_le by done. exists (zdrop n l). by rewrite ztake_zdrop. Qed.

Lemma half_received h p : half p h -> received p `prefix_of` h_wrote h /\
  exists fin, reached p = zlen (received p) + Z.b2z fin /\ (fin = true -> received p = h_wrote h /\
    exists t', h_tcb p = Some t' /\ peer_fin_seen t' = true).
Proof.
  intros Hp. unfold received, reached. destruct (h_tcb p) as [t|] eqn:E.
  - pose proof (hf_recv _ _ Hp t E) as [Hh|Hd].
    + split; [apply Hh|]. exists (peer_fin_seen t). split; [done|]. intros Hf. split; [by apply Hh|by exists t].
    + destruct (deaf_consumed _ _ Hd) as [E1 E2]. rewrite E1, E2. split; [apply prefix_nil|]. by exists false.
  - destruct (hf_none _ _ Hp E) as (_ & _ & -> & _). split; [apply prefix_nil|]. by exists false.
Qed.

Lemma half_delivered h p : half h p -> half p h -> delivered h p.
Proof.
  intros H Hp. destruct (half_received h p Hp) as (Hpre & fin & Er & Hfin).
  assert (Hleq : forall t a, stands (h_isn h) (h_wrote h) t a -> a + Z.b2z (fin_acked t) <= reached p ->
    a <= zlen (received p) /\ (fin_acked t = true -> fin = true)).
  { intros t a Hs Ha. pose proof (sd_acked _ _ _ _ Hs). pose proof (prefix_zlen _ _ Hpre).
    assert (Hfa : fin_acked t = true -> a = zlen (h_wrote h)).
    { destruct (sd_una _ _ _ _ Hs) as [Hu|Hu]; [|apply Hu].
      destruct (at_start_fin _ _ _ _ Hs Hu) as [-> _]. done. }
    destruct fin; [destruct (Hfin eq_refl) as [Eq _]; rewrite Eq; split; [lia|done]|].
    destruct (fin_acked t); [specialize (Hfa eq_refl)|]; cbn [Z.b2z] in *; split; lia || done. }
  split.
  - destruct (h_tcb p) as [t|] eqn:E; unfold received in Hpre; rewrite E in Hpre; [|done].
    etransitivity; [|exact Hpre]. unfold had. by eexists.
  - intros t E Heof. unfold recv_eof, RingBuffer.is_empty in Heof. apply andb_true_iff in Heof as [Hf He].
    destruct (hf_recv _ _ Hp t E) as [Hh|Hd]; [|by rewrite (df_fin _ _ Hd) in Hf].
    destruct (hr_fin _ _ _ _ _ Hh Hf) as [<- Hen]. split; [|done]. unfold had.
    rewrite (zlen_0_nil (buf (rx t))), app_nil_r; [done|]. unfold RingBuffer.len in *. lia.
  - intros t E. destruct (hf_send _ _ H t E) as (a & Hs & Ha). exists (ztake a (h_wrote h)).
    rewrite (sd_tx _ _ _ _ Hs), ztake_zdrop. split; [done|]. apply ztake_prefix; [done|]. by apply (Hleq t).
  - intros t E Hf. destruct (hf_send _ _ H t E) as (a & Hs & Ha). by apply Hfin, (Hleq t a Hs Ha).
  - intros t E. destruct (hf_send _ _ H t E) as (a & Hs & Ha). apply Hs.
Qed.

Lemma half_idle h p : configured h -> idle h -> half h p.
Proof.
  intros Hc Hi. pose proof Hi as (E1 & E2 & E3 & E4). split; try done; try (intros t E; congruence).
  rewrite E4. intros f Hf. by apply elem_of_nil in Hf.
Qed.

(** C1 — refinement.  A pair of connections is a pair of reliable byte streams.  Two
    ends open a connection in any way (either or both may begin), over a network
    that loses, duplicates, delays and reorders frames as it likes; applications
    write, read and close, timers fire and segments are sent, in any order.  If each
    side offers less than 2^30 octets, then: no operation panics and every invariant
    holds; what one side has read is a prefix of what the other wrote; at end of file
    it is all of it; octets leave the send buffer only when the peer has them; and a
    side that believes its FIN acknowledged has delivered everything. *)
Theorem transfer_is_faithful a b ss :
  configured a -> configured b -> idle a -> idle b -> lawful (a, b) ss ->
  offered true ss < STREAM_LIMIT -> offered false ss < STREAM_LIMIT ->
  exists a' b', run (a, b) ss = Some (a', b') /\ delivered a' b' /\ delivered b' a'.
Proof.
  intros Ca Cb Ia Ib Hl Hoa Hob. pose proof Ia as (_ & Wa & _). pose proof Ib as (_ & Wb & _).
  destruct (run_halves ss a b) as (a' & b' & E & Ha & Hb); try by apply half_idle.
  { done. } { by rewrite Wa. } { by rewrite Wb. }
  exists a', b'. split; [done|]. split; by apply half_delivered.
Qed.

End transfer.

(** *** Witness *)

(** The client's stream wraps around the sequence space; its FIN overtakes its
    data, which arrives twice. *)
Definition demo_client : Host Reno.Reno := mkHost demo_remote demo_local 4294967294 1460 None [] [] [].
Definition demo_server : Host Reno.Reno := mkHost demo_local demo_remote 7 1460 None [] [] [].
Definition demo_script : list (bool * Action) :=
  [(true, Connect 0); (true, Transmit 1); (false, Accept 0 2); (false, Transmit 3); (true, Deliver 0 false 4);
   (true, Write [71; 69; 84]); (true, Transmit 5); (true, Shutdown); (true, Transmit 6);
   (false, Deliver 2 false 7); (false, Transmit 8); (false, Deliver 1 false 9); (false, Deliver 1 false 10);
   (false, Read 100); (false, Transmit 11); (true, Deliver 2 false 12)].

Lemma transfer_is_faithful_witness :
  exists a b, run demo_cc_new (demo_client, demo_server) demo_script = Some (a, b) /\
    h_got b = [71; 69; 84] /\ h_wrote a = [71; 69; 84] /\
    (exists t, h_tcb b = Some t /\ recv_eof t = true) /\ (exists t, h_tcb a = Some t /\ fin_acked t = true).
Proof.
  destruct (transfer_is_faithful demo_cc_new demo_cc_new_ok demo_client demo_server demo_script)
    as (a & b & E & Hab & _).
  1,2: split; [exact demo_remote_ok || exact demo_local_ok|exact demo_local_ok || exact demo_remote_ok
              |split; vm_compute; done|split; vm_compute; done].
  1,2: repeat split.
  { apply lawful_always. unfold demo_script.
    repeat apply List.Forall_cons; try apply List.Forall_nil; intros h; cbn [legal snd];
      first [exact I|split_bytes; unfold is_u8; lia|lia]. }
  1,2: reflexivity.
  exists a, b. split; [exact E|].
  assert (G : option_map (fun w => (h_got w.2, h_wrote w.1, option_map recv_eof (h_tcb w.2), option_map fin_acked (h_tcb w.1)))
    (run demo_cc_new (demo_client, demo_server) demo_script) = Some ([71; 69; 84], [71; 69; 84], Some true, Some true))
    by (vm_compute; reflexivity).
  rewrite E in G. cbn [option_map fst snd] in G. injection G as G1 G2 G3 G4.
  split; [exact G1|]. split; [exact G2|].
  destruct (h_tcb a) as [ta|]; [|discriminate G4]. destruct (h_tcb b) as [tb|]; [|discriminate G3].
  injection G3 as G3. injection G4 as G4.
  split; [exists tb|exists ta]; (split; [reflexivity|assumption]).
Defined.
