(* ===== verification/Iface.v ===== *)
(** The connection driver [Stack] of [tcp-core/src/iface.rs]: the listening
    endpoint, the table of connections keyed by the remote endpoint, and the
    backend's loop (feed a datagram, fire timers, drain, sleep until).

    [HashMap] iteration visits every key once in an unspecified order: the
    operations that iterate take that order as an argument, and
    [drain_order_irrelevant] shows that it does not matter. *)

From stdpp Require Import gmap.
From S2P Require Import Prelude Seq Time Buffers Isn Checksum Ipv4 TcpWire Congestion Endpoint Tcb TcbWork.

Definition EPHEMERAL_MIN : Z := 49152.
Definition EPHEMERAL_MAX : Z := 65535.

Record Stack (C : Type) := mkStack {
  local : Endpoint;
  isn : IsnGenerator;
  conns : gmap Endpoint (Tcb C);
  pending : list (list Z);
  mss_advertise : Z;
  ephemeral_next : Z;
  cc_kind : CcKind;
}.
Arguments mkStack {C}. Arguments local {C}. Arguments isn {C}. Arguments conns {C}.
Arguments pending {C}. Arguments mss_advertise {C}. Arguments ephemeral_next {C}.
Arguments cc_kind {C}.

#[export] Instance Stack_settable {C} : Settable (Stack C) := fun s =>
  mkStack (local s) (isn s) (conns s) (pending s) (mss_advertise s) (ephemeral_next s) (cc_kind s).

Section stack.
Context {C : Type} `{!CongestionControl C} (Cc_new : CcKind -> Z -> C).

Definition stack_new (local : Endpoint) (isn_secret : list Z) (mss_advertise : Z)
  : option (Stack C) :=
  let? g := isn_new isn_secret in
  Some (mkStack local g ∅ [] mss_advertise EPHEMERAL_MIN CcReno).

Definition set_cc_kind (self : Stack C) (kind : CcKind) : Stack C := self <| cc_kind := kind |>.

(** [next_ephemeral_port]: [fuel] bounds the turns of the loop. *)
Fixpoint port_loop (fuel : nat) (self : Stack C) : option (Stack C * Z) :=
  match fuel with
  | O => None
  | S fuel =>
      let p := ephemeral_next self in
      let self := self <| ephemeral_next := if p =? EPHEMERAL_MAX then EPHEMERAL_MIN else wrap16 (p + 1) |> in
      if negb (p =? ep_port (local self)) then Some (self, p) else port_loop fuel self
  end.
Definition next_ephemeral_port (self : Stack C) : option (Stack C * Z) := port_loop 2 self.

Definition connect (self : Stack C) (remote : Endpoint) (now : Instant)
  : option (Stack C * Endpoint) :=
  let? (self, local_port) := next_ephemeral_port self in
  let lo := mkEndpoint (ep_ip (local self)) local_port in
  let iss := generate (isn self) (ep_ip lo) local_port (ep_ip remote) (ep_port remote) (micros now) in
  let tcb := new_syn_sent Cc_new lo remote iss now (mss_advertise self) in
  let tcb := set_congestion_control Cc_new tcb (cc_kind self) in
  Some (self <| conns := <[remote := tcb]> (conns self) |>, remote).

Definition connection_count (self : Stack C) : Z := Z.of_nat (size (conns self)).

(** [connection_mut]: the connection, and the stack once the borrow ends with
    the connection left as [t']. *)
Definition connection_mut (self : Stack C) (remote : Endpoint) : option (Tcb C * (Tcb C -> Stack C)) :=
  let? t := conns self !! remote in
  Some (t, fun t' => self <| conns := <[remote := t']> (conns self) |>).

(** [connections_mut]: every connection serviced by [f]. *)
Definition connections_mut (self : Stack C) (f : Endpoint -> Tcb C -> Tcb C) : Stack C :=
  self <| conns := map_imap (fun k t => Some (f k t)) (conns self) |>.

(** [on_recv] from the lookup on: an existing connection, a passive open, or a
    reset. *)
Definition demux (self : Stack C) (now : Instant) (ip : Ipv4.Ipv4Packet) (tcp : TcpPacket)
    (remote : Endpoint) : option (Stack C) :=
  match conns self !! remote with
  | Some tcb =>
      let? dport := dst_port tcp in
      if dport =? ep_port (Tcb.local tcb) then
        let? e := Ipv4.ecn ip in
        let? tcb := on_segment Cc_new tcb now tcp (e =? ECN_CE) in
        Some (self <| conns := <[remote := tcb]> (conns self) |>)
      else Some self
  | None =>
      let? dport := dst_port tcp in
      if negb (dport =? ep_port (local self)) then Some self
      else
        let? f := flags tcp in
        if TcpFlags.syn f && negb (TcpFlags.ack f) && negb (TcpFlags.rst f) then
          let iss := generate (isn self) (ep_ip (local self)) (ep_port (local self))
                       (ep_ip remote) (ep_port remote) (micros now) in
          let? tcb := new_syn_received Cc_new (local self) remote tcp iss now (mss_advertise self) in
          let tcb := set_congestion_control Cc_new tcb (cc_kind self) in
          Some (self <| conns := <[remote := tcb]> (conns self) |>)
        else if negb (TcpFlags.rst f) then
          let? frame := connectionless_reset (local self) remote tcp in
          Some (self <| pending := pending self ++ [frame] |>)
        else Some self
  end.

Definition on_recv (self : Stack C) (now : Instant) (ip : Ipv4.Ipv4Packet) : option (Stack C) :=
  let? proto := Ipv4.protocol ip in
  if negb (proto =? IPPROTO_TCP) then Some self
  else
    let? dst := Ipv4.dst ip in
    if negb (bool_decide (dst = ep_ip (local self))) then Some self
    else
      let? body := Ipv4.payload ip in
      let? parsed := new_checked body in
      match parsed with
      | Err _ => Some self
      | Ok tcp =>
          let? csum := checksum_field tcp in
          let? src := Ipv4.src ip in
          if negb (csum =? 0) && negb (tcp_checksum_valid src dst (as_bytes tcp)) then Some self
          else
            let? sport := src_port tcp in
            demux self now ip tcp (mkEndpoint src sport)
      end.

(** [for tcb in self.conns.values_mut()], in the order [keys]. *)
Fixpoint timer_sweep (keys : list Endpoint) (cs : gmap Endpoint (Tcb C)) (now : Instant)
  : option (gmap Endpoint (Tcb C)) :=
  match keys with
  | [] => Some cs
  | key :: keys =>
      match cs !! key with
      | Some tcb => let? tcb := Tcb.on_timer tcb now in timer_sweep keys (<[key := tcb]> cs) now
      | None => timer_sweep keys cs now
      end
  end.
Definition on_timer (self : Stack C) (keys : list Endpoint) (now : Instant) : option (Stack C) :=
  let? cs := timer_sweep keys (conns self) now in Some (self <| conns := cs |>).

(** [while let Some(seg) = tcb.poll_transmit(now) { out.push(seg) }] *)
Fixpoint transmit_loop (fuel : nat) (tcb : Tcb C) (now : Instant) (out : list (list Z))
  : option (Tcb C * list (list Z)) :=
  match fuel with
  | O => None
  | S fuel =>
      let? (tcb, seg) := Tcb.poll_transmit tcb now in
      match seg with
      | Some seg => transmit_loop fuel tcb now (out ++ [seg])
      | None => Some (tcb, out)
      end
  end.

(** Enough turns: each one consumes work. *)
Definition transmit_fuel (tcb : Tcb C) : nat := S (Z.to_nat (work tcb)).

Fixpoint transmit_sweep (keys : list Endpoint) (cs : gmap Endpoint (Tcb C)) (now : Instant)
    (out : list (list Z)) : option (gmap Endpoint (Tcb C) * list (list Z)) :=
  match keys with
  | [] => Some (cs, out)
  | key :: keys =>
      match cs !! key with
      | Some tcb =>
          let? (tcb, out) := transmit_loop (transmit_fuel tcb) tcb now out in
          let cs := <[key := tcb]> cs in
          let cs := if state_eqb (state tcb) Closed then delete key cs else cs in
          transmit_sweep keys cs now out
      | None => transmit_sweep keys cs now out
      end
  end.
Definition poll_transmit (self : Stack C) (keys : list Endpoint) (now : Instant) (out : list (list Z))
  : option (Stack C * list (list Z)) :=
  let out := out ++ pending self in
  let self := self <| pending := [] |> in
  let? (cs, out) := transmit_sweep keys (conns self) now out in
  Some (self <| conns := cs |>, out).

Definition poll_at (self : Stack C) : option Instant :=
  let deadlines := omap (fun kt => Tcb.poll_at kt.2) (map_to_list (conns self)) in
  match deadlines with [] => None | d :: ds => Some (fold_left Z.min ds d) end.

End stack.
