(* ===== verification/IfaceSafe.v ===== *)
(** The invariant of the driver of [Iface] ([stack_ok]: every entry of the table
    is a connection in its own invariant, under its own key) and what a datagram
    and [connect] do to it. *)

From stdpp Require Import gmap.
From S2P Require Import Prelude Seq Time Buffers Isn Checksum Ipv4 TcpWire Congestion Endpoint Tcb TcbInv TcbSegment TcbTransmit TcbPoll TcbLife TcbWork TcbEnds TcbDemo Iface.

(** *** What a parsed datagram holds *)

Lemma addr_at_ok b i : bytes_ok b -> 0 <= i -> i + 4 <= zlen b ->
  exists a, Ipv4.addr_at (Ipv4.mkPkt b) i = Some a /\ ip_ok a.
Proof.
  intros Hb H0 Hi. unfold Ipv4.addr_at; cbn [Ipv4.buf].
  destruct (byte_at b i) as (w & -> & ?); [done|lia|].
  destruct (byte_at b (i + 1)) as (x & -> & ?); [done|lia|].
  destruct (byte_at b (i + 2)) as (y & -> & ?); [done|lia|].
  destruct (byte_at b (i + 3)) as (z & -> & ?); [done|lia|].
  eexists. split; [done|]. unfold ip_ok, octets. by split_bytes.
Qed.

Lemma datagram_fields b ip :
  bytes_ok b -> Ipv4.new_checked b = Some (Ok ip) ->
  exists proto src dst e body,
    Ipv4.protocol ip = Some proto /\ Ipv4.src ip = Some src /\ Ipv4.dst ip = Some dst /\
    Ipv4.ecn ip = Some e /\ Ipv4.payload ip = Some body /\
    ip_ok src /\ ip_ok dst /\ bytes_ok body /\ zlen body <= U16_MAX.
Proof.
  intros Hb Hn. destruct (Ipv4.ipv4_new_checked_cases b) as (r & Hr & Hc).
  rewrite Hn in Hr. apply (inj Some) in Hr. subst r.
  destruct Hc as (Eb & [Hmin _ (ihl & Hi & Hir & total & Ht & Htr) _]).
  destruct ip as [b']. cbn in Eb. subst b'. cbn [Ipv4.buf] in *.
  unfold Ipv4.IPV4_MIN_HEADER_LEN, Ipv4.IPV4_MAX_HEADER_LEN in *.
  destruct (byte_at b 9) as (proto & Ep & _); [done|lia|].
  destruct (byte_at b 1) as (e & Ee & _); [done|lia|].
  destruct (addr_at_ok b 12) as (src & Es & Hs); [done|lia..|].
  destruct (addr_at_ok b 16) as (dst & Ed & Hd); [done|lia..|].
  destruct (u16_at_range b 2) as (t1 & t2 & Et1 & Et2 & Htot); [done|lia..|].
  assert (Hto : is_u16 total).
  { unfold Ipv4.total_len, Ipv4.u16_at in Ht. cbn [Ipv4.buf] in Ht. rewrite Et1, Et2 in Ht. congruence. }
  exists proto, src, dst, (Z.land e 3), (ztake (total - ihl) (zdrop ihl b)). split_and!; try done.
  - unfold Ipv4.ecn; cbn [Ipv4.buf]. by rewrite Ee.
  - unfold Ipv4.payload. rewrite Hi, Ht. apply slice_Some; cbn [Ipv4.buf]; lia.
  - by apply Forall_take, Forall_drop.
  - rewrite zlen_ztake, zlen_zdrop. unfold is_u16 in *. lia.
Qed.

Lemma segment_fields b tcp :
  bytes_ok b -> new_checked b = Some (Ok tcp) ->
  exists sport dport csum f, as_bytes tcp = b /\ src_port tcp = Some sport /\ is_u16 sport /\
    dst_port tcp = Some dport /\ checksum_field tcp = Some csum /\ flags tcp = Some f.
Proof.
  intros Hb Hn. destruct (new_checked_cases b) as (r & Hr & Hc).
  rewrite Hn in Hr. apply (inj Some) in Hr. subst r. destruct Hc as (Eb & hl & [_ Hr Hl]).
  unfold TCP_MIN_HEADER_LEN in Hr. rewrite Eb in Hl.
  destruct (u16_at_range b 0) as (s1 & s2 & E1 & E2 & Hs); [done|lia..|].
  destruct (u16_at_range b 2) as (d1 & d2 & E3 & E4 & _); [done|lia..|].
  destruct (u16_at_range b 16) as (c1 & c2 & E5 & E6 & _); [done|lia..|].
  destruct (byte_at b 13) as (f & E7 & _); [done|lia|].
  exists (be16 s1 s2), (be16 d1 d2), (be16 c1 c2), f.
  change (0 + 1) with 1 in E2. change (2 + 1) with 3 in E4. change (16 + 1) with 17 in E6.
  unfold src_port, dst_port, checksum_field, flags. rewrite Eb, E1, E2, E3, E4, E5, E6, E7. by split_and!.
Qed.

Section safe.
Context {C : Type} `{CC : CongestionControl C} {CL : CongestionLaws C}.
Context (Cc_new : CcKind -> Z -> C).
Context (Cc_new_ok : forall k m, 0 < m <= U16_MAX -> cc_ok m (Cc_new k m)).

(** An entry of the table: a sound connection, filed under its own peer. *)
Record entry_ok (self : Stack C) (k : Endpoint) (t : Tcb C) : Prop := {
  en_tcb : tcb_ok t;
  en_key : Tcb.remote t = k;
  en_ip : ep_ip (Tcb.local t) = ep_ip (local self);
}.

Record stack_ok (self : Stack C) : Prop := {
  sk_local : endpoint_ok (local self);
  sk_mss : MSS_DEFAULT <= mss_advertise self <= MSS_MAX;
  sk_eph : EPHEMERAL_MIN <= ephemeral_next self <= EPHEMERAL_MAX;
  sk_conns : map_Forall (entry_ok self) (conns self);
}.

(** Entries depend on the stack through its address only. *)
Lemma entries_same (self self' : Stack C) (cs : gmap Endpoint (Tcb C)) :
  local self' = local self -> map_Forall (entry_ok self) cs -> map_Forall (entry_ok self') cs.
Proof. intros E H k t Hk. destruct (H k t Hk) as [? ? ?]. split; congruence. Qed.

Lemma entry_step (self : Stack C) k t t' :
  entry_ok self k t -> tcb_ok t' -> ident t' = ident t -> entry_ok self k t'.
Proof. intros [_ Hk Hi] Hok E. unfold ident in E. split; congruence. Qed.

Lemma entries_insert (self : Stack C) k t :
  stack_ok self -> entry_ok self k t -> stack_ok (self <| conns := <[k := t]> (conns self) |>).
Proof.
  intros [Hl Hm He Hc] Ht. split; try assumption. cbn [set conns].
  eapply entries_same; [|by apply map_Forall_insert_2]. done.
Qed.

Lemma stack_ok_pending (self : Stack C) p : stack_ok self -> stack_ok (self <| pending := p |>).
Proof. intros [H1 H2 H3 H4]. split; try assumption. by eapply entries_same; [|exact H4]. Qed.
Lemma stack_ok_conns (self : Stack C) cs :
  stack_ok self -> map_Forall (entry_ok self) cs -> stack_ok (self <| conns := cs |>).
Proof. intros [H1 H2 H3 H4] H. split; try assumption. by eapply entries_same; [|exact H]. Qed.

(** *** Opening *)

Lemma stack_new_ok lo secret m :
  endpoint_ok lo -> zlen secret = 16 -> MSS_DEFAULT <= m <= MSS_MAX ->
  exists self, stack_new (C := C) lo secret m = Some self /\ stack_ok self /\ local self = lo /\ conns self = ∅.
Proof.
  intros Hl Hs Hm. unfold stack_new, isn_new. rewrite !slice_Some by lia.
  eexists. split; [done|]. split; [|done]. split; done.
Qed.

(** A port in the dynamic range, not the listen port; the cursor moves past it. *)
Lemma next_port_ok (self : Stack C) :
  EPHEMERAL_MIN <= ephemeral_next self <= EPHEMERAL_MAX ->
  exists p n, next_ephemeral_port self = Some (self <| ephemeral_next := n |>, p) /\
    EPHEMERAL_MIN <= p <= EPHEMERAL_MAX /\ EPHEMERAL_MIN <= n <= EPHEMERAL_MAX /\
    p <> ep_port (local self) /\ n = (if p =? EPHEMERAL_MAX then EPHEMERAL_MIN else p + 1).
Proof.
  unfold next_ephemeral_port, EPHEMERAL_MIN, EPHEMERAL_MAX. intros Hr.
  set (next := fun p => if p =? 65535 then 49152 else p + 1).
  assert (Hn : forall p, 49152 <= p <= 65535 ->
    (if p =? 65535 then 49152 else wrap16 (p + 1)) = next p /\ 49152 <= next p <= 65535 /\ next p <> p).
  { intros p Hp. unfold next. destruct (p =? 65535) eqn:E; [lia|]. rewrite wrap16_small by (unfold is_u16; lia). lia. }
  destruct (Hn _ Hr) as (E1 & Hr1 & Hne). destruct (Hn _ Hr1) as (E2 & Hr2 & _).
  cbn [port_loop]. unfold EPHEMERAL_MIN, EPHEMERAL_MAX.
  cbn [set ephemeral_next local]. rewrite E1. destruct (ephemeral_next self =? ep_port (local self)) eqn:E; cbn [negb].
  - rewrite E2. destruct (next (ephemeral_next self) =? ep_port (local self)) eqn:E'; cbn [negb]; [lia|].
    exists (next (ephemeral_next self)), (next (next (ephemeral_next self))).
    split; [done|]. split_and!; try done; lia.
  - exists (ephemeral_next self), (next (ephemeral_next self)). split; [done|]. split_and!; try done; lia.
Qed.

Lemma set_cc_ident (t : Tcb C) k : ident (set_congestion_control Cc_new t k) = ident t.
Proof. unfold set_congestion_control. by destruct (negb _). Qed.
Lemma set_cc_state (t : Tcb C) k : state (set_congestion_control Cc_new t k) = state t.
Proof. unfold set_congestion_control. by destruct (negb _). Qed.
Lemma set_cc_kind_is (t : Tcb C) k : Tcb.cc_kind (set_congestion_control Cc_new t k) = k.
Proof. unfold set_congestion_control. case_bool_decide as E; by cbn. Qed.

Lemma generate_ok g lip lport rip rport now : seq_ok (generate g lip lport rip rport now).
Proof. apply wrap32_range. Qed.

Lemma connect_ok (self : Stack C) remote now :
  stack_ok self -> endpoint_ok remote ->
  exists self' t p, connect Cc_new self remote now = Some (self', remote) /\ stack_ok self' /\
    local self' = local self /\ pending self' = pending self /\ cc_kind self' = cc_kind self /\
    EPHEMERAL_MIN <= p <= EPHEMERAL_MAX /\ p <> ep_port (local self) /\
    ephemeral_next self' = (if p =? EPHEMERAL_MAX then EPHEMERAL_MIN else p + 1) /\
    conns self' = <[remote := t]> (conns self) /\ state t = SynSent /\
    Tcb.local t = mkEndpoint (ep_ip (local self)) p /\ Tcb.cc_kind t = cc_kind self /\
    iss t = generate (isn self) (ep_ip (local self)) p (ep_ip remote) (ep_port remote) (micros now).
Proof.
  intros Hok Hr. destruct (next_port_ok self (sk_eph _ Hok)) as (p & n & E & Hp & Hn & Hne & En).
  unfold connect. rewrite E. cbv zeta. cbn [set local isn mss_advertise cc_kind conns].
  set (lo := mkEndpoint _ p). set (i := generate _ _ _ _ _ _).
  pose proof (new_syn_sent_ok Cc_new Cc_new_ok lo remote i now (mss_advertise self)) as Ht.
  assert (Hlo : endpoint_ok lo).
  { split; [apply (eo_ip _ (sk_local _ Hok))|]. unfold is_u16, lo, EPHEMERAL_MIN, EPHEMERAL_MAX in *. cbn. lia. }
  specialize (Ht Hlo Hr (generate_ok _ _ _ _ _ _) (sk_mss _ Hok)).
  set (t0 := new_syn_sent _ _ _ _ _ _) in *. set (t := set_congestion_control Cc_new t0 (cc_kind self)).
  assert (Hid : ident t = ident t0) by apply set_cc_ident.
  exists (self <| ephemeral_next := n |> <| conns := <[remote := t]> (conns self) |>), t, p.
  unfold ident in Hid. change (Tcb.local t0) with lo in Hid. change (Tcb.remote t0) with remote in Hid.
  change (iss t0) with i in Hid. injection Hid as Hid1 Hid2 Hid3 _.
  split; [done|]. split.
  - assert (Hs : stack_ok (self <| ephemeral_next := n |>)).
    { destruct Hok as [H1 H2 H3 H4]. split; try assumption. by eapply entries_same; [|exact H4]. }
    refine (entries_insert (self <| ephemeral_next := n |>) remote t Hs _).
    split; [by apply set_congestion_control_ok|done|]. by rewrite Hid1.
  - split_and!; try done; try assumption; try apply Hp.
    + exact (set_cc_state t0 (cc_kind self)).
    + apply set_cc_kind_is.
Qed.

(** *** Receiving *)

Lemma new_syn_received_reset lo re syn i now m (t : Tcb C) :
  new_syn_received Cc_new lo re syn i now m = Some t -> reset t = false.
Proof. unfold new_syn_received. intros H. walk H; done. Qed.

(** A datagram the stack acts on: TCP, for this host, well formed, with a good
    (or absent) checksum; [x] is what its segment says. *)
Record accepted (self : Stack C) (ip : Ipv4.Ipv4Packet) (remote : Endpoint) (dport : Z)
    (tcp : TcpPacket) (x : Arrived) : Prop := {
  ac_proto : Ipv4.protocol ip = Some IPPROTO_TCP;
  ac_dst : Ipv4.dst ip = Some (ep_ip (local self));
  ac_src : Ipv4.src ip = Some (ep_ip remote);
  ac_seg : exists body, Ipv4.payload ip = Some body /\ new_checked body = Some (Ok tcp);
  ac_sport : src_port tcp = Some (ep_port remote);
  ac_dport : dst_port tcp = Some dport;
  ac_sum : checksum_field tcp = Some 0 \/
    tcp_checksum_valid (ep_ip remote) (ep_ip (local self)) (as_bytes tcp) = true;
  ac_reads : reads tcp x;
}.

(** What the theorems ask of a datagram ([honest] says it of its segment): nothing
    of its place in the window. *)
Definition polite (self : Stack C) (ip : Ipv4.Ipv4Packet) : Prop :=
  forall remote dport tcp x, accepted self ip remote dport tcp x ->
  match conns self !! remote with Some t => honest t x | None => a_mss x <> Some 0 end.

(** A reset owed to [remote] for a segment that says [x]. *)
Definition refusal (self : Stack C) (remote : Endpoint) (x : Arrived) : TcpRepr :=
  if TcpFlags.ack (a_flags x) then bare_repr (local self) remote (a_ack x) 0 TcpFlags.RST
  else bare_repr (local self) remote 0 (seq_add (a_seq x) (seg_len x)) (Z.lor TcpFlags.RST TcpFlags.ACK).

Definition opens (x : Arrived) : bool :=
  TcpFlags.syn (a_flags x) && negb (TcpFlags.ack (a_flags x)) && negb (TcpFlags.rst (a_flags x)).

(** What becomes of an accepted datagram. *)
Definition demuxed (self self' : Stack C) (now : Instant) (remote : Endpoint) (dport : Z)
    (tcp : TcpPacket) (x : Arrived) (ce : bool) : Prop :=
  match conns self !! remote with
  | Some t =>
      if dport =? ep_port (Tcb.local t) then
        exists t', on_segment Cc_new t now tcp ce = Some t' /\
          self' = self <| conns := <[remote := t']> (conns self) |>
      else self' = self
  | None =>
      if negb (dport =? ep_port (local self)) then self' = self
      else if opens x then
        exists t, self' = self <| conns := <[remote := t]> (conns self) |> /\
          state t = SynReceived /\ reset t = false /\ Tcb.local t = local self /\ Tcb.cc_kind t = cc_kind self /\
          rcv_nxt t = seq_add (a_seq x) 1 /\
          iss t = generate (isn self) (ep_ip (local self)) (ep_port (local self)) (ep_ip remote)
                    (ep_port remote) (micros now)
      else if TcpFlags.rst (a_flags x) then self' = self
      else exists frame, self' = self <| pending := pending self ++ [frame] |> /\
        frame_carries frame (local self) remote (refusal self remote x) []
  end.

Lemma demux_ok (self : Stack C) now b ip remote dport tcp x :
  stack_ok self -> bytes_ok b -> Ipv4.new_checked b = Some (Ok ip) ->
  endpoint_ok remote -> accepted self ip remote dport tcp x ->
  match conns self !! remote with Some t => honest t x | None => a_mss x <> Some 0 end ->
  exists self' ce, demux Cc_new self now ip tcp remote = Some self' /\ stack_ok self' /\
    demuxed self self' now remote dport tcp x ce.
Proof.
  intros Hok Hb Hn Hr [Hp Hd Hs (body & Ebody & Hseg) Hsp Hdp Hsum Hx] Hpol.
  destruct (datagram_fields b ip Hb Hn) as (proto & src & dst & e & body' & _ & _ & _ & Ee & Eb' & _ & _ & Hbody & Hlen).
  rewrite Ebody in Eb'. apply (inj Some) in Eb'. subst body'.
  unfold demux, demuxed. destruct (conns self !! remote) as [t|] eqn:Et.
  - rewrite Hdp. destruct (dport =? _); [|by exists self, false].
    rewrite Ee. pose proof (sk_conns _ Hok _ _ Et) as Hent.
    destruct (on_segment_core Cc_new Cc_new_ok t now tcp x (e =? ECN_CE) (en_tcb _ _ _ Hent) Hx Hpol)
      as (t' & E & Hok').
    rewrite E. exists (self <| conns := <[remote := t']> (conns self) |>), (e =? ECN_CE).
    split; [done|]. split; [|by exists t']. apply entries_insert; [done|].
    eapply entry_step; [exact Hent|done|]. by eapply on_segment_ident.
  - rewrite Hdp. destruct (negb (dport =? _)); [by exists self, false|].
    destruct (rd_flags _ _ Hx) as [Ef _]. rewrite Ef. unfold opens.
    destruct (_ && _ && _) eqn:Hop.
    + set (i := generate _ _ _ _ _ _).
      destruct (new_syn_received_ok Cc_new Cc_new_ok (local self) remote tcp x i now (mss_advertise self))
        as (t0 & E & Hok0 & Est & _ & En & _ & Ei & _ & _ & _ & _ & _ & _ & _ & El & Er);
        try done; [apply Hok|apply generate_ok|apply Hok|].
      rewrite E. set (t := set_congestion_control Cc_new t0 (cc_kind self)). cbv zeta.
      pose proof (set_cc_ident t0 (cc_kind self)) as Hid. fold t in Hid.
      injection Hid as H1 H2 H3 _. rewrite El in H1. rewrite Er in H2. rewrite Ei in H3.
      exists (self <| conns := <[remote := t]> (conns self) |>), false. split; [done|]. split.
      * apply entries_insert; [done|]. split; [by apply set_congestion_control_ok|done|]. by rewrite H1.
      * exists t. split; [done|]. split; [by unfold t; rewrite set_cc_state|]. split.
        { unfold t, set_congestion_control. rewrite <- (new_syn_received_reset _ _ _ _ _ _ _ E). by case_ifs. }
        split; [done|].
        split; [apply set_cc_kind_is|]. split; [|done]. rewrite <- En. unfold t, set_congestion_control. by case_ifs.
    + destruct (TcpFlags.rst (a_flags x)); cbn [negb]; [by exists self, false|].
      destruct (reset_core (local self) remote tcp body (sk_local _ Hok) Hr Hbody Hseg)
        as (f & s & a & bd & frame & E1 & E2 & E3 & E4 & E5 & _ & E6).
      rewrite E5. exists (self <| pending := pending self ++ [frame] |>), false. split; [done|].
      split; [by apply stack_ok_pending|]. exists frame. split; [done|]. unfold refusal, seg_len.
      destruct (rd_seq _ _ Hx) as [E7 _], (rd_ack _ _ Hx) as [E8 _], (rd_body _ _ Hx) as [E9 Hb9].
      rewrite Ef in E1. injection E1 as <-. rewrite E7 in E2. injection E2 as <-.
      rewrite E8 in E3. injection E3 as <-. rewrite E9 in E4. injection E4 as <-.
      rewrite wrap32_small in E6; [exact E6|].
      pose proof (zlen_nonneg (a_body x)). unfold is_u32. destruct Hb9. lia.
Qed.

Lemma on_recv_core (self : Stack C) now b ip :
  stack_ok self -> bytes_ok b -> Ipv4.new_checked b = Some (Ok ip) -> polite self ip ->
  exists self', on_recv Cc_new self now ip = Some self' /\ stack_ok self' /\
    (self' = self /\ (forall remote dport tcp x, ~ accepted self ip remote dport tcp x) \/
     exists remote dport tcp x ce, accepted self ip remote dport tcp x /\
       demuxed self self' now remote dport tcp x ce).
Proof.
  intros Hok Hb Hn Hpol.
  destruct (datagram_fields b ip Hb Hn) as (proto & src & dst & e & body & Ep & Es & Ed & Ee & Ebody & Hs & _ & Hbody & Hlen).
  unfold on_recv. rewrite Ep.
  destruct (negb (proto =? IPPROTO_TCP)) eqn:Hproto.
  { exists self. split; [done|]. split; [done|]. left. split; [done|]. intros ???? [A _ _ _ _ _ _ _].
    rewrite Ep in A. injection A as ->. done. }
  rewrite Ed. case_bool_decide as Hdst; cbn [negb].
  2: { exists self. split; [done|]. split; [done|]. left. split; [done|]. intros ???? [_ A _ _ _ _ _ _]. congruence. }
  rewrite Ebody. destruct (new_checked_cases body) as (r & Er & _). rewrite Er.
  destruct r as [tcp|err].
  2: { exists self. split; [done|]. split; [done|]. left. split; [done|].
       intros ???? [_ _ _ (bd & A & B) _ _ _ _]. congruence. }
  destruct (segment_fields body tcp Hbody Er) as (sport & dport & csum & f & E1 & E2 & Hsp & E3 & E4 & E5).
  rewrite E4, Es. destruct (_ && _) eqn:Hbad.
  { exists self. split; [done|]. split; [done|]. left. split; [done|].
    intros ???? [_ A1 A2 (bd & A & B) _ _ A3 _]. rewrite Ebody in A. injection A as <-.
    rewrite Er in B. injection B as <-. rewrite E4, Ed, Es in *. injection A1 as A1. injection A2 as A2. subst src dst.
    apply andb_true_iff in Hbad as [B1 B2]. destruct A3 as [A3|A3].
    - injection A3 as ->. done.
    - by rewrite A3 in B2. }
  rewrite E2. set (remote := mkEndpoint src sport).
  destruct (segment_reads body tcp Hbody Hlen Er) as (x & Hx & _).
  assert (Hacc : accepted self ip remote dport tcp x).
  { split; try done; try congruence.
    - rewrite Ep. f_equal. apply negb_false_iff in Hproto. lia.
    - by exists body.
    - apply andb_false_iff in Hbad as [B|B]; apply negb_false_iff in B.
      + left. rewrite E4. f_equal. lia.
      + right. rewrite <- Hdst. exact B. }
  destruct (demux_ok self now b ip remote dport tcp x) as (self' & ce & E & Hok' & Hd'); try done.
  { by apply (Hpol remote dport tcp x). }
  exists self'. split; [done|]. split; [done|]. right. by exists remote, dport, tcp, x, ce.
Qed.

End safe.
