(* ===== verification/IfaceDrain.v ===== *)
(** The iterating operations of the driver: timers and the drain, for every
    order in which the table may be visited. *)

From stdpp Require Import gmap.
From S2P Require Import Prelude Seq Time Buffers Isn Checksum Ipv4 TcpWire Congestion Endpoint Tcb TcbInv TcbTransmit TcbPoll TcbLife TcbWork TcbEnds TcbDemo Iface IfaceSafe.

Section drain.
Context {C : Type} `{CC : CongestionControl C} {CL : CongestionLaws C}.
Context (Cc_new : CcKind -> Z -> C).
Context (Cc_new_ok : forall k m, 0 < m <= U16_MAX -> cc_ok m (Cc_new k m)).

(** [HashMap]'s iteration: every key of the table, once. *)
Definition iteration (keys : list Endpoint) (cs : gmap Endpoint (Tcb C)) : Prop :=
  NoDup keys /\ forall k, k ∈ keys <-> is_Some (cs !! k).

(** A frame that connection [t] may emit. *)
Definition speaks (t : Tcb C) (frame : list Z) : Prop :=
  exists r dat, frame_carries frame (Tcb.local t) (Tcb.remote t) r dat.

(** *** One connection *)

Lemma transmit_loop_app fuel (t : Tcb C) now out :
  transmit_loop fuel t now out =
  (let? (t', frames) := transmit_loop fuel t now [] in Some (t', out ++ frames)).
Proof.
  revert t out. induction fuel as [|fuel IH]; intros t out; [done|]. cbn [transmit_loop].
  destruct (Tcb.poll_transmit t now) as [[t1 [seg|]]|]; [| |done].
  - rewrite (IH t1 (out ++ [seg])), (IH t1 ([] ++ [seg])).
    destruct (transmit_loop fuel t1 now []) as [[t' fr]|]; [|done]. by rewrite <- !app_assoc.
  - by rewrite app_nil_r.
Qed.

Lemma transmit_loop_ok fuel (t : Tcb C) now :
  tcb_ok t -> (Z.to_nat (work t) < fuel)%nat ->
  exists t' frames, transmit_loop fuel t now [] = Some (t', frames) /\ tcb_ok t' /\ ident t' = ident t /\
    zlen frames <= work t /\ Forall (speaks t) frames.
Proof.
  revert t. induction fuel as [|fuel IH]; intros t Hok Hf; [lia|]. cbn [transmit_loop].
  destruct (poll_transmit_core t now Hok) as (t1 & o & E & Hok1 & Ho & _).
  pose proof (poll_transmit_work t now t1 o Hok E) as W. pose proof (poll_transmit_ident t t1 now o E) as I.
  pose proof (work_nonneg t) as H0. pose proof (work_nonneg t1) as H1.
  rewrite E. destruct o as [seg|]; unfold less_work in W; cbn [is_some] in W.
  - destruct (IH t1 Hok1 ltac:(lia)) as (t' & fr & E' & Hok' & I' & Hl & Hs).
    rewrite transmit_loop_app, E'. exists t', ([] ++ [seg] ++ fr). split; [done|]. split; [done|].
    split; [congruence|]. split; [cbn [app]; rewrite zlen_cons; lia|]. apply List.Forall_cons.
    + destruct Ho as (r & dat & Hc & _). by exists r, dat.
    + revert Hs. apply List.Forall_impl. intros f (r & dat & Hc). exists r, dat.
      unfold ident in I. injection I as I1 I2 _ _. by rewrite <- I1, <- I2.
  - exists t1, []. split; [done|]. split; [done|]. split; [done|]. split; [exact H0|]. constructor.
Qed.

(** What draining one connection says and leaves; a closed one is reaped. *)
Definition said (now : Instant) (t : Tcb C) : list (list Z) :=
  match transmit_loop (transmit_fuel t) t now [] with Some (_, fr) => fr | None => [] end.
Definition settled (now : Instant) (t : Tcb C) : option (Tcb C) :=
  match transmit_loop (transmit_fuel t) t now [] with
  | Some (t', _) => if state_eqb (state t') Closed then None else Some t'
  | None => None
  end.

Lemma drained_ok now (t : Tcb C) :
  tcb_ok t -> zlen (said now t) <= work t /\ Forall (speaks t) (said now t) /\
  forall t', settled now t = Some t' -> tcb_ok t' /\ ident t' = ident t /\ state t' <> Closed.
Proof.
  intros Hok. unfold said, settled.
  destruct (transmit_loop_ok (transmit_fuel t) t now Hok) as (t1 & fr & -> & Hok1 & I & Hl & Hs);
    [unfold transmit_fuel; lia|].
  split; [done|]. split; [done|]. intros t'. unfold state_eqb. case_bool_decide; [done|].
  by intros [= <-].
Qed.

Lemma transmit_loop_emits fuel (t t' : Tcb C) now out out' :
  transmit_loop fuel t now out = Some (t', out') -> emitted t t'.
Proof.
  revert t out. induction fuel as [|fuel IH]; intros t out; [done|]. cbn [transmit_loop].
  destruct (Tcb.poll_transmit t now) as [[t1 [seg|]]|] eqn:E; [| |done]; apply poll_transmit_emits in E.
  - intros H. eapply emitted_trans; [exact E|by eapply IH].
  - by intros [= <- _].
Qed.

(** Draining changes nothing the application can see but the state a FIN moves,
    and reaps the closed only. *)
Lemma settled_emits now (t : Tcb C) :
  tcb_ok t -> match settled now t with Some t' => emitted t t' | None => state t = Closed end.
Proof.
  intros Hok. unfold settled.
  destruct (transmit_loop_ok (transmit_fuel t) t now Hok) as (t1 & fr & E & _); [unfold transmit_fuel; lia|].
  rewrite E. apply transmit_loop_emits in E. unfold state_eqb. case_bool_decide as Hs; [|done].
  destruct E as [_ [[E _]|(_ & _ & E)]]; [congruence|]. rewrite Hs in E. by destruct (state t).
Qed.

(** *** The whole table *)

Definition said_by (now : Instant) (cs : gmap Endpoint (Tcb C)) (k : Endpoint) : list (list Z) :=
  match cs !! k with Some t => said now t | None => [] end.

Lemma transmit_sweep_spec keys (cs : gmap Endpoint (Tcb C)) now out :
  NoDup keys -> map_Forall (fun _ t => tcb_ok t) cs ->
  exists cs', transmit_sweep keys cs now out = Some (cs', out ++ concat (map (said_by now cs) keys)) /\
    forall k, cs' !! k = if bool_decide (k ∈ keys) then cs !! k ≫= settled now else cs !! k.
Proof.
  revert cs out. induction keys as [|key keys IH]; intros cs out Hnd Hok; cbn [transmit_sweep map concat].
  { exists cs. by rewrite app_nil_r. }
  apply list.NoDup_cons in Hnd as [Hnin Hnd].
  assert (Hrest : forall cs1, (forall k, k <> key -> cs1 !! k = cs !! k) ->
    map (said_by now cs1) keys = map (said_by now cs) keys).
  { intros cs1 H. apply map_ext_in. intros k Hk. unfold said_by. rewrite H; [done|].
    intros ->. apply Hnin. by apply list_elem_of_In. }
  unfold said_by at 1. destruct (cs !! key) as [t|] eqn:Et.
  - pose proof (Hok key t Et) as Ht.
    destruct (transmit_loop_ok (transmit_fuel t) t now Ht) as (t1 & fr & E & Hok1 & _);
      [unfold transmit_fuel; lia|].
    assert (Es : said now t = fr /\ settled now t = if state_eqb (state t1) Closed then None else Some t1)
      by (unfold said, settled; by rewrite E).
    destruct Es as [-> Es]. rewrite (transmit_loop_app (transmit_fuel t) t now out), E.
    set (cs1 := if state_eqb (state t1) Closed then _ else _).
    assert (Hk : cs1 !! key = if state_eqb (state t1) Closed then None else Some t1).
    { unfold cs1. destruct (state_eqb _ _); [apply lookup_delete_eq|apply lookup_insert_eq]. }
    assert (Hne : forall k, k <> key -> cs1 !! k = cs !! k).
    { intros k Hk'. unfold cs1. destruct (state_eqb _ _).
      - by rewrite lookup_delete_ne, lookup_insert_ne.
      - by rewrite lookup_insert_ne. }
    clearbody cs1. destruct (IH cs1 (out ++ fr)) as (cs' & E' & Hc'); [done| |].
    { intros k t' Hk'. destruct (decide (k = key)) as [->|Hn]; [|rewrite Hne in Hk' by done; by eapply Hok].
      rewrite Hk in Hk'. destruct (state_eqb _ _); [done|]. by injection Hk' as <-. }
    exists cs'. rewrite E', (Hrest cs1 Hne), <- app_assoc. split; [done|]. intros k. rewrite Hc'.
    destruct (decide (k = key)) as [->|Hn].
    + rewrite (bool_decide_false (key ∈ keys)), (bool_decide_true (key ∈ key :: keys)) by (done || by left).
      rewrite Hk, Et. cbn [mbind option_bind]. by rewrite Es.
    + rewrite Hne by done. assert (Hiff : k ∈ key :: keys <-> k ∈ keys) by (rewrite elem_of_cons; tauto).
      by rewrite (bool_decide_ext _ _ Hiff).
  - destruct (IH cs out Hnd Hok) as (cs' & E' & Hc'). exists cs'. split; [exact E'|]. intros k. rewrite Hc'.
    destruct (decide (k = key)) as [->|Hn].
    + rewrite (bool_decide_false (key ∈ keys)), (bool_decide_true (key ∈ key :: keys)) by (done || by left).
      by rewrite Et.
    + assert (Hiff : k ∈ key :: keys <-> k ∈ keys) by (rewrite elem_of_cons; tauto).
      by rewrite (bool_decide_ext _ _ Hiff).
Qed.

Lemma poll_transmit_stack_core (self : Stack C) keys now out :
  stack_ok self -> iteration keys (conns self) ->
  exists self', poll_transmit self keys now out
      = Some (self', (out ++ pending self) ++ concat (map (said_by now (conns self)) keys)) /\
    self' = self <| pending := [] |> <| conns := omap (settled now) (conns self) |> /\ stack_ok self'.
Proof.
  intros Hok [Hnd Hdom]. unfold poll_transmit. cbv zeta.
  change (conns (self <| pending := [] |>)) with (conns self).
  destruct (transmit_sweep_spec keys (conns self) now (out ++ pending self) Hnd) as (cs' & E & Hc).
  { intros k t Hk. apply (sk_conns _ Hok k t Hk). }
  rewrite E. assert (Ecs : cs' = omap (settled now) (conns self)).
  { apply map_eq. intros k. rewrite Hc, lookup_omap. case_bool_decide as Hin; [done|].
    destruct (conns self !! k) as [t|] eqn:Et; [|done]. exfalso. apply Hin, Hdom. by exists t. }
  subst cs'. eexists. split; [done|]. split; [done|].
  apply (stack_ok_conns (self <| pending := [] |>)); [by apply stack_ok_pending|].
  apply (entries_same self); [reflexivity|]. intros k t' Hk.
  apply lookup_omap_Some in Hk as (t & Ht & Hk). pose proof (sk_conns _ Hok _ _ Hk) as Hent.
  destruct (drained_ok now t (en_tcb _ _ _ Hent)) as (_ & _ & Hs). destruct (Hs t' Ht) as (Hok' & I & _).
  by eapply entry_step.
Qed.

(** *** Timers *)

Lemma timer_sweep_spec keys (cs : gmap Endpoint (Tcb C)) now :
  NoDup keys -> (forall k t, k ∈ keys -> cs !! k = Some t -> is_Some (Tcb.on_timer t now)) ->
  exists cs', timer_sweep keys cs now = Some cs' /\
    forall k, cs' !! k = if bool_decide (k ∈ keys) then cs !! k ≫= fun t => Tcb.on_timer t now else cs !! k.
Proof.
  revert cs. induction keys as [|key keys IH]; intros cs Hnd Hok; cbn [timer_sweep]; [by exists cs|].
  apply list.NoDup_cons in Hnd as [Hnin Hnd].
  assert (Hcase : forall k, k <> key -> bool_decide (k ∈ key :: keys) = bool_decide (k ∈ keys)).
  { intros k Hk. apply bool_decide_ext. rewrite elem_of_cons. tauto. }
  assert (Hhead : bool_decide (key ∈ keys) = false /\ bool_decide (key ∈ key :: keys) = true).
  { split; [by apply bool_decide_false|apply bool_decide_true; by left]. }
  destruct Hhead as [Hh1 Hh2].
  destruct (cs !! key) as [t|] eqn:Et.
  - destruct (Hok key t ltac:(by left) Et) as [t1 E]. rewrite E.
    destruct (IH (<[key:=t1]> cs) Hnd) as (cs' & E' & Hc').
    { intros k t' Hk Hk'. rewrite lookup_insert_ne in Hk' by (intros ->; done). apply (Hok k t'); [by right|done]. }
    exists cs'. split; [done|]. intros k. rewrite Hc'. destruct (decide (k = key)) as [->|Hn].
    + rewrite Hh1, Hh2, lookup_insert_eq, Et. cbn. by rewrite E.
    + by rewrite lookup_insert_ne, Hcase.
  - destruct (IH cs Hnd) as (cs' & E' & Hc').
    { intros k t' Hk Hk'. apply (Hok k t'); [by right|done]. }
    exists cs'. split; [done|]. intros k. rewrite Hc'. destruct (decide (k = key)) as [->|Hn].
    + by rewrite Hh1, Hh2, Et.
    + by rewrite Hcase.
Qed.

Lemma on_timer_stack_core (self : Stack C) keys now :
  stack_ok self -> iteration keys (conns self) ->
  map_Forall (fun _ t => timeouts_left t) (conns self) ->
  exists self', on_timer self keys now = Some self' /\ stack_ok self' /\
    self' = self <| conns := omap (fun t => Tcb.on_timer t now) (conns self) |> /\
    forall k, is_Some (conns self' !! k) <-> is_Some (conns self !! k).
Proof.
  intros Hok [Hnd Hdom] Hleft. unfold on_timer.
  assert (Htot : forall k t, conns self !! k = Some t -> exists t', Tcb.on_timer t now = Some t' /\ tcb_ok t').
  { intros k t Hk. apply on_timer_ok; [apply (sk_conns _ Hok k t Hk)|by eapply Hleft]. }
  destruct (timer_sweep_spec keys (conns self) now Hnd) as (cs' & E & Hc).
  { intros k t _ Hk. destruct (Htot k t Hk) as (t' & -> & _). done. }
  rewrite E. assert (Ecs : cs' = omap (fun t => Tcb.on_timer t now) (conns self)).
  { apply map_eq. intros k. rewrite Hc, lookup_omap. case_bool_decide as Hin; [done|].
    destruct (conns self !! k) as [t|] eqn:Et; [|done]. exfalso. apply Hin, Hdom. by exists t. }
  subst cs'. eexists. split; [done|]. split; [|split; [done|]].
  - apply stack_ok_conns; [done|]. intros k t' Hk. apply lookup_omap_Some in Hk as (t & Ht & Hk).
    pose proof (sk_conns _ Hok _ _ Hk) as Hent. destruct (Htot k t Hk) as (t1 & E1 & Hok1).
    rewrite E1 in Ht. injection Ht as <-. eapply entry_step; [exact Hent|done|]. by eapply on_timer_ident.
  - intros k. cbn [set conns]. rewrite lookup_omap. destruct (conns self !! k) as [t|] eqn:Et; cbn; [|done].
    destruct (Htot k t Et) as (t1 & -> & _). done.
Qed.

End drain.
