(* ===== verification/IfaceProps.v ===== *)
(** The theorems about the driver of [tcp-core/src/iface.rs]: the invariant of
    every reachable stack, one connection per datagram, the drain and [poll_at]. *)

From stdpp Require Import gmap relations.
From S2P Require Import Prelude Seq Time Buffers Isn Checksum Ipv4 TcpWire Congestion Endpoint Tcb TcbInv TcbSegment TcbTransmit TcbPoll TcbLife TcbWork TcbEnds TcbDemo Iface IfaceSafe IfaceDrain.

Section props.
Context {C : Type} `{CC : CongestionControl C} {CL : CongestionLaws C}.
Context (Cc_new : CcKind -> Z -> C).
Context (Cc_new_ok : forall k m, 0 < m <= U16_MAX -> cc_ok m (Cc_new k m)).

Lemma demuxed_others (self self' : Stack C) now remote dport tcp x ce k :
  demuxed Cc_new self self' now remote dport tcp x ce -> k <> remote ->
  local self' = local self /\ conns self' !! k = conns self !! k.
Proof.
  intros Hd Hk. unfold demuxed in Hd. destruct (conns self !! remote) as [t|].
  - destruct (_ =? _); [|by rewrite Hd]. destruct Hd as (t' & _ & ->). split; [done|].
    cbn. by rewrite lookup_insert_ne.
  - destruct (negb _); [by rewrite Hd|]. destruct (opens x).
    + destruct Hd as (t & -> & _). split; [done|]. cbn. by rewrite lookup_insert_ne.
    + destruct (TcpFlags.rst _); [by rewrite Hd|]. by destruct Hd as (f & -> & _).
Qed.


(** C17 — termination.  The drain ends.  Whatever order the table is visited in,
    every connection is polled until it is silent (each segment consumes the
    connection's finite [work]), the output is the pending resets followed by
    the connections' segments in that order, each one a well-formed frame from
    its connection's local to its remote endpoint, nothing stays pending, and a
    connection is gone exactly when draining left it Closed. *)
Theorem drain_ends_and_reaps (self : Stack C) keys now out :
  stack_ok self -> iteration keys (conns self) ->
  exists self' said_of,
    poll_transmit self keys now out = Some (self', out ++ pending self ++ concat (map said_of keys)) /\
    stack_ok self' /\ pending self' = [] /\
    forall k, match conns self !! k with
      | None => conns self' !! k = None
      | Some t => zlen (said_of k) <= work t /\ Forall (speaks t) (said_of k) /\
          exists t' fuel, transmit_loop fuel t now [] = Some (t', said_of k) /\
            conns self' !! k = if state_eqb (state t') Closed then None else Some t'
      end.
Proof.
  intros Hok Hit. destruct (poll_transmit_stack_core self keys now out Hok Hit) as (self' & E & Es & Hok').
  exists self', (said_by now (conns self)). rewrite <- app_assoc in E.
  split; [exact E|]. split; [exact Hok'|]. split; [by rewrite Es|]. intros k.
  assert (Ek : conns self' !! k = conns self !! k ≫= settled now) by (rewrite Es; cbn [set conns]; apply lookup_omap).
  rewrite Ek. destruct (conns self !! k) as [t|] eqn:Et; [|done]. cbn [mbind option_bind].
  pose proof (en_tcb _ _ _ (sk_conns _ Hok _ _ Et)) as Ht.
  destruct (drained_ok now t Ht) as (H1 & H2 & _).
  destruct (transmit_loop_ok (transmit_fuel t) t now Ht) as (t' & fr & El & _); [unfold transmit_fuel; lia|].
  unfold said_by. rewrite Et. split; [done|]. split; [done|]. exists t', (transmit_fuel t).
  unfold said, settled. rewrite El. by split.
Qed.

(** The order in which the hash table happens to be visited does
    not matter: two iterations of the same table leave the same stack and emit
    the same segments up to order, for the drain and for the timers. *)
Lemma drain_order_irrelevant (self : Stack C) keys1 keys2 now out :
  stack_ok self -> iteration keys1 (conns self) -> iteration keys2 (conns self) ->
  map_Forall (fun _ t => timeouts_left t) (conns self) ->
  (exists self' out1 out2, poll_transmit self keys1 now out = Some (self', out1) /\
    poll_transmit self keys2 now out = Some (self', out2) /\ out1 ≡ₚ out2) /\
  exists self', on_timer self keys1 now = Some self' /\ on_timer self keys2 now = Some self'.
Proof.
  intros Hok H1 H2 Hl.
  assert (Hp : keys1 ≡ₚ keys2).
  { apply NoDup_Permutation; [apply H1|apply H2|]. intros k. by rewrite (proj2 H1), (proj2 H2). }
  split.
  - destruct (poll_transmit_stack_core self keys1 now out Hok H1) as (s1 & E1 & -> & _).
    destruct (poll_transmit_stack_core self keys2 now out Hok H2) as (s2 & E2 & -> & _).
    eexists _, _, _. split; [exact E1|]. split; [exact E2|]. apply Permutation_app_head.
    rewrite <- !flat_map_concat_map. by apply Permutation_flat_map.
  - destruct (on_timer_stack_core self keys1 now Hok H1 Hl) as (s1 & E1 & _ & -> & _).
    destruct (on_timer_stack_core self keys2 now Hok H2 Hl) as (s2 & E2 & _ & -> & _). by eexists.
Qed.

(** An active open files one new SYN-SENT connection under the
    remote endpoint and touches nothing else: its port is in the dynamic range
    and not the listen port, its ISN is the generator's for the 4-tuple, it has
    the selected controller, the next port tried is the following one in the
    cycle. *)
Lemma connect_opens_one (self : Stack C) remote now :
  stack_ok self -> endpoint_ok remote ->
  exists self' t p, connect Cc_new self remote now = Some (self', remote) /\ stack_ok self' /\
    conns self' = <[remote := t]> (conns self) /\ local self' = local self /\ pending self' = pending self /\
    EPHEMERAL_MIN <= p <= EPHEMERAL_MAX /\ p <> ep_port (local self) /\
    ephemeral_next self' = (if p =? EPHEMERAL_MAX then EPHEMERAL_MIN else p + 1) /\
    state t = SynSent /\ Tcb.local t = mkEndpoint (ep_ip (local self)) p /\ Tcb.cc_kind t = cc_kind self /\
    iss t = generate (isn self) (ep_ip (local self)) p (ep_ip remote) (ep_port remote) (micros now).
Proof.
  intros Hok Hr. destruct (connect_ok Cc_new Cc_new_ok self remote now Hok Hr)
    as (self' & t & p & E & Hok' & E1 & E2 & _ & Hp & Hne & E3 & E4 & E5 & E6 & E7 & E8).
  by exists self', t, p.
Qed.

(** *** Any history *)

(** One call of the backend or of an application on the stack. *)
Inductive stack_step : Stack C -> Stack C -> Prop :=
| ss_recv self now b ip self' : bytes_ok b -> Ipv4.new_checked b = Some (Ok ip) -> polite self ip ->
    on_recv Cc_new self now ip = Some self' -> stack_step self self'
| ss_timer self keys now self' : iteration keys (conns self) ->
    map_Forall (fun _ t => timeouts_left t) (conns self) ->
    on_timer self keys now = Some self' -> stack_step self self'
| ss_transmit self keys now out self' out' : iteration keys (conns self) ->
    poll_transmit self keys now out = Some (self', out') -> stack_step self self'
| ss_connect self remote now self' key : endpoint_ok remote ->
    connect Cc_new self remote now = Some (self', key) -> stack_step self self'
| ss_app self remote t put t' : connection_mut self remote = Some (t, put) ->
    tcb_step Cc_new t t' -> stack_step self (put t')
| ss_cc self k : stack_step self (set_cc_kind self k).

(** The calls an application may make keep a connection's name. *)
Lemma tcb_step_ident (t t' : Tcb C) : tcb_step Cc_new t t' -> ident t' = ident t.
Proof.
  intros [s now tcp x ce s' _ _ E|s now s' out E|s now s' _ E|s dat s' n _ E|s n s' out _ E|s|s k].
  - by eapply on_segment_ident.
  - by eapply poll_transmit_ident.
  - by eapply on_timer_ident.
  - unfold send in E. destruct (RingBuffer.write (tx s) dat) as [tx' m].
    destruct (state s); by injection E as <- _.
  - unfold recv in E. destruct (RingBuffer.read _ _) as [[rx' o]|]; [|done]. by injection E as <- _.
  - done.
  - apply set_cc_ident.
Qed.

Lemma stack_step_ok (self self' : Stack C) : stack_step self self' -> stack_ok self -> stack_ok self'.
Proof.
  intros [s now b ip s' Hb Hn Hp E|s keys now s' Hi Hl E|s keys now out s' out' Hi E|s re now s' key Hr E
         |s re t put t' E Ht|s k] Hok.
  - destruct (on_recv_core Cc_new Cc_new_ok s now b ip Hok Hb Hn Hp) as (s1 & E1 & H & _). congruence.
  - destruct (on_timer_stack_core s keys now Hok Hi Hl) as (s1 & E1 & H & _). congruence.
  - destruct (poll_transmit_stack_core s keys now out Hok Hi) as (s1 & E1 & _ & H). congruence.
  - destruct (connect_ok Cc_new Cc_new_ok s re now Hok Hr) as (s1 & t & p & E1 & H & _). congruence.
  - unfold connection_mut in E. destruct (conns s !! re) as [t0|] eqn:Et; [|done].
    injection E as -> <-. pose proof (sk_conns _ Hok _ _ Et) as Hent. apply entries_insert; [done|].
    eapply entry_step; [exact Hent| |by apply tcb_step_ident].
    eapply tcb_step_ok; [exact Cc_new_ok|exact Ht|apply Hent].
  - destruct Hok as [H1 H2 H3 H4]. split; try assumption. by eapply entries_same; [|exact H4].
Qed.

Lemma stack_reachable_ok (self0 self : Stack C) : stack_ok self0 -> rtc stack_step self0 self -> stack_ok self.
Proof. intros H0 Hs. induction Hs as [|a b c Hab _ IH]; [done|]. apply IH. by eapply stack_step_ok. Qed.


(** The backend's sleep ends in time for every connection: the
    stack's [poll_at] is some connection's deadline and none is earlier; it is
    [None] only when no connection has one. *)
Lemma stack_wakes_for_every_connection (self : Stack C) :
  match poll_at self with
  | Some d => (exists k t, conns self !! k = Some t /\ Tcb.poll_at t = Some d) /\
      forall k t e, conns self !! k = Some t -> Tcb.poll_at t = Some e -> d <= e
  | None => forall k t, conns self !! k = Some t -> Tcb.poll_at t = None
  end.
Proof.
  unfold poll_at. set (ds := omap _ _).
  assert (HI : forall d, In d ds <-> exists k t, conns self !! k = Some t /\ Tcb.poll_at t = Some d).
  { intros d. unfold ds. rewrite <- list_elem_of_In, list_elem_of_omap. split.
    - intros ([k t] & Hk & Ht). apply elem_of_map_to_list in Hk. by exists k, t.
    - intros (k & t & Hk & Ht). exists (k, t). split; [by apply elem_of_map_to_list|done]. }
  clearbody ds. destruct ds as [|d ds].
  - intros k t Hk. destruct (Tcb.poll_at t) as [e|] eqn:E; [|done]. exfalso. apply (HI e). by exists k, t.
  - destruct (fold_min_spec ds d) as (H1 & H2 & H3). split.
    + apply HI. destruct H1 as [->|H1]; [by left|by right].
    + intros k t e Hk He. assert (Hin : In e (d :: ds)) by (apply HI; by exists k, t).
      destruct Hin as [<-|Hin]; [done|auto].
Qed.

End props.

(** *** Witnesses *)

Definition demo_stack : Stack Reno.Reno :=
  mkStack demo_local (mkIsn ref_k0 ref_k1) {[demo_remote := demo_tcb]} [] 1460 EPHEMERAL_MIN CcReno.

Lemma demo_stack_ok : stack_ok demo_stack.
Proof.
  split; [exact demo_local_ok|done|done|]. apply map_Forall_singleton.
  split; [exact demo_tcb_ok|done|done].
Defined.

Lemma demo_iteration : iteration [demo_remote] (conns demo_stack).
Proof.
  split; [apply NoDup_singleton|]. intros k. cbn [conns demo_stack]. rewrite list_elem_of_singleton, lookup_singleton_is_Some.
  split; congruence.
Defined.

(** The next in-order octet, from the peer. *)
Definition demo_datagram : list Z :=
  [0x45; 0; 0; 41; 0; 0; 0x40; 0; 64; 6; 0; 0; 10; 0; 0; 1; 10; 0; 0; 2] ++
  [195; 80; 1; 187; 0; 0; 3; 232; 255; 255; 255; 255; 0x50; 0x10; 1; 244; 0; 0; 0; 0; 9].

Lemma demo_datagram_ok : bytes_ok demo_datagram.
Proof. unfold demo_datagram. cbn [app]. split_bytes; unfold is_u8; lia. Defined.

Lemma demo_polite : polite demo_stack (Ipv4.mkPkt demo_datagram).
Proof.
  intros remote dport tcp x [_ _ Hs (body & Hp & Hn) Hsp _ _ Hx].
  vm_compute in Hp. injection Hp as <-. vm_compute in Hn. injection Hn as <-.
  assert (Er : remote = demo_remote).
  { destruct remote as [i p]. vm_compute in Hs. vm_compute in Hsp. cbn in Hs, Hsp. by simplify_eq. }
  subst remote. cbn [conns demo_stack]. rewrite lookup_singleton_eq.
  destruct (rd_seq _ _ Hx) as [E1 _].
  assert (F1 : Some (a_seq x) = Some 1000) by (rewrite <- E1; reflexivity).
  injection F1 as F1.
  split; [intros _; rewrite F1; reflexivity|discriminate].
Defined.


Lemma drain_ends_and_reaps_witness :
  exists self' said_of, poll_transmit demo_stack [demo_remote] 7 [] = Some (self', said_of demo_remote) /\
    zlen (said_of demo_remote) = 1 /\ stack_ok self'.
Proof.
  destruct (drain_ends_and_reaps demo_stack [demo_remote] 7 [] demo_stack_ok demo_iteration)
    as (self' & f & E & Hok & _).
  exists self', f. cbn [map concat app pending demo_stack] in E. rewrite app_nil_r in E.
  split; [exact E|]. split; [|exact Hok].
  assert (H : exists s o, poll_transmit demo_stack [demo_remote] 7 [] = Some (s, o) /\ zlen o = 1)
    by (eexists _, _; split; [vm_compute; reflexivity|reflexivity]).
  destruct H as (s & o & H1 & H2). rewrite H1 in E. injection E as _ <-. exact H2.
Defined.

Lemma drain_order_irrelevant_witness :
  exists self', on_timer demo_stack [demo_remote] 1000000 = Some self'.
Proof.
  destruct (drain_order_irrelevant demo_stack [demo_remote] [demo_remote] 1000000 [] demo_stack_ok
    demo_iteration demo_iteration) as [_ (self' & E & _)]; [apply map_Forall_singleton; reflexivity|].
  exists self'. exact E.
Defined.

Lemma connect_opens_one_witness :
  exists self' t, connect demo_cc_new demo_stack (mkEndpoint (ipv4 10 0 0 9) 80) 3
      = Some (self', mkEndpoint (ipv4 10 0 0 9) 80) /\ state t = SynSent /\
    conns self' = <[mkEndpoint (ipv4 10 0 0 9) 80 := t]> (conns demo_stack).
Proof.
  destruct (connect_opens_one demo_cc_new demo_cc_new_ok demo_stack (mkEndpoint (ipv4 10 0 0 9) 80) 3 demo_stack_ok)
    as (self' & t & p & E & _ & Ec & _ & _ & _ & _ & _ & Est & _).
  - split; [unfold ip_ok; cbn; split_bytes; unfold is_u8; lia|unfold is_u16; cbn; lia].
  - exists self', t. split; [exact E|]. split; [exact Est|exact Ec].
Defined.

