(* ===== verification/Executor.v ===== *)
(** The task executor: [tcp-core/src/runtime/executor.rs].

    A task is a suspended future: a value of a type [T], resumed by [poll], which
    acts on the state [W] it shares with the reactor and on the executor itself
    (spawning).  The program's tasks give [poll] in [Server.v]; here it is any.
    A [TaskWaker] is its task's id: the queue it pushes to is the executor's. *)

From stdpp Require Import gmap.
From S2P Require Import Prelude.

Abbreviation Waker := Z (only parsing).

Record Executor (T : Type) := mkExecutor {
  tasks : gmap Z T;
  next_id : Z;
  woken : list Waker;
}.
Arguments mkExecutor {T}. Arguments tasks {T}. Arguments next_id {T}. Arguments woken {T}.
#[export] Instance Executor_settable {T} : Settable (Executor T) := fun s =>
  mkExecutor (tasks s) (next_id s) (woken s).

(** [Poll<A>] *)
Inductive Poll (A : Type) := Ready (a : A) | Pending.
Arguments Ready {A}. Arguments Pending {A}.

Section executor.
Context {T : Type}.

Definition exec_new : Executor T := mkExecutor ∅ 0 [].

(** [TaskWaker::wake] *)
Definition wake (self : Executor T) (id : Waker) : Executor T := self <| woken := woken self ++ [id] |>.

(** [Spawner::spawn] on a live executor; the id is a [usize]. *)
Definition spawn (self : Executor T) (fut : T) : option (Executor T) :=
  let id := next_id self in
  if id =? U64_MAX then None
  else Some (wake (self <| next_id := id + 1 |> <| tasks := <[id := fut]> (tasks self) |>) id).

(** [Spawner::spawn]: its executor is behind a [Weak], which may be gone. *)
Definition spawner_spawn (inner : option (Executor T)) (fut : T) : option (option (Executor T)) :=
  match inner with
  | None => Some None
  | Some self => let? self := spawn self fut in Some (Some self)
  end.

Definition task_count (self : Executor T) : Z := Z.of_nat (size (tasks self)).

Section run.
Context {W : Type} (poll : T -> Waker -> W -> Executor T -> option (T * Poll unit * W * Executor T)).

(** [for id in ids]: the future is taken out while it runs. *)
Fixpoint poll_batch (ids : list Waker) (w : W) (self : Executor T) : option (W * Executor T) :=
  match ids with
  | [] => Some (w, self)
  | id :: ids =>
      match tasks self !! id with
      | None => poll_batch ids w self
      | Some fut =>
          let self := self <| tasks := delete id (tasks self) |> in
          let? (fut, p, w, self) := poll fut id w self in
          let self := match p with
                      | Pending => self <| tasks := <[id := fut]> (tasks self) |>
                      | Ready _ => self
                      end in
          poll_batch ids w self
      end
  end.

(** [loop]: [fuel] bounds its turns. *)
Fixpoint run_ready (fuel : nat) (w : W) (self : Executor T) : option (W * Executor T) :=
  match fuel with
  | O => None
  | S fuel =>
      let ids := woken self in
      let self := self <| woken := [] |> in
      match ids with
      | [] => Some (w, self)
      | _ => let? (w, self) := poll_batch ids w self in run_ready fuel w self
      end
  end.
End run.
End executor.

(** ** Ids *)

Section ids.
Context {T : Type}.

(** Stored tasks have ids already given out. *)
Definition exec_ok (self : Executor T) : Prop :=
  0 <= next_id self /\ map_Forall (fun id _ => 0 <= id < next_id self) (tasks self).

Lemma exec_new_ok : exec_ok (exec_new (T := T)).
Proof. split; [cbn; lia|]. intros id t H. cbn in H. by rewrite lookup_empty in H. Qed.

Lemma wake_ok (self : Executor T) id : exec_ok self -> exec_ok (wake self id).
Proof. intros [H1 H2]. by split. Qed.

(** A spawn disturbs no stored task, and schedules the new one. *)
Lemma spawn_spec (self self' : Executor T) fut :
  exec_ok self -> spawn self fut = Some self' ->
  exec_ok self' /\ tasks self !! next_id self = None /\
  tasks self' = <[next_id self := fut]> (tasks self) /\ woken self' = woken self ++ [next_id self] /\
  next_id self' = next_id self + 1.
Proof.
  intros [H1 H2]. unfold spawn. destruct (_ =? _); [done|]. intros [= <-].
  assert (Hn : tasks self !! next_id self = None).
  { destruct (tasks self !! next_id self) eqn:E; [|done]. specialize (H2 _ _ E). cbn in H2. lia. }
  split; [|done]. split; [cbn; lia|]. apply map_Forall_insert_2; [cbn; lia|].
  eapply map_Forall_impl; [exact H2|]. cbn. intros. lia.
Qed.

Lemma spawn_total (self : Executor T) fut : next_id self <> U64_MAX -> is_Some (spawn self fut).
Proof. intros H. unfold spawn. destruct (_ =? _) eqn:E; [lia|done]. Qed.

(** What a task may do to the executor while it is polled: spawn and wake. *)
Inductive exec_step : Executor T -> Executor T -> Prop :=
| xs_spawn self fut self' : spawn self fut = Some self' -> exec_step self self'
| xs_wake self id : exec_step self (wake self id).

Lemma exec_step_ok (self self' : Executor T) : exec_step self self' -> exec_ok self -> exec_ok self'.
Proof. intros [s f s' E|s i] H; [by eapply spawn_spec|by apply wake_ok]. Qed.

Lemma exec_step_keeps (self self' : Executor T) id fut :
  exec_ok self -> exec_step self self' -> tasks self !! id = Some fut ->
  tasks self' !! id = Some fut /\ (forall k, k ∈ woken self -> k ∈ woken self').
Proof.
  intros Hok Hs Hid. destruct Hs as [s f s' E|s i].
  - destruct (spawn_spec _ _ _ Hok E) as (_ & Hn & Et & Ew & _). rewrite Et, Ew. split; [|intros; apply elem_of_app; by left].
    rewrite lookup_insert_ne; [done|congruence].
  - split; [done|]. intros. apply elem_of_app. by left.
Qed.
End ids.

(** ** Running to quiescence *)

(** What one poll of task [id], suspended as [fut] and taken out of [self], must
    give: it returns, keeps [Inv] and the other tasks, pays for every wake-up it
    causes (its spawns included) from [credit], and leaves no task asleep that is
    not [parked]: itself when it stays, any other one, any new one. *)
Section promise.
Context {T W : Type}.
Record promise (Inv : W -> Executor T -> Prop) (credit : W -> nat) (parked : Waker -> T -> W -> Prop)
    (id : Waker) (w : W) (self : Executor T) (fut' : T) (p : Poll unit) (w' : W) (self' : Executor T) : Prop := {
  pm_inv : Inv w' (match p with Pending => self' <| tasks := <[id := fut']> (tasks self') |> | Ready _ => self' end);
  pm_credit : (credit w' + length (woken self') <= credit w + length (woken self))%nat;
  pm_woken : forall k, k ∈ woken self -> k ∈ woken self';
  pm_own : p = Pending -> parked id fut' w';
  pm_gone : tasks self' !! id = None;
  pm_others : forall k f, k <> id -> tasks self' !! k = Some f -> k ∈ woken self' \/
    tasks self !! k = Some f /\ (parked k f w -> parked k f w');
}.
End promise.

(** An application: how its tasks resume, over the shared state [W]. *)
Class Application (T W : Type) := app_poll : T -> Waker -> W -> Executor T -> option (T * Poll unit * W * Executor T).

Class ApplicationLaws (T W : Type) `{Application T W} := {
  app_inv : W -> Executor T -> Prop;
  app_credit : W -> nat;
  app_parked : Waker -> T -> W -> Prop;
  (* the invariant is not about who is scheduled *)
  app_inv_woken w self wk : app_inv w self -> app_inv w (self <| woken := wk |>);
  app_keeps fut id w self : app_inv w self -> tasks self !! id = Some fut ->
    let self0 := self <| tasks := delete id (tasks self) |> in
    exists fut' p w' self', app_poll fut id w self0 = Some (fut', p, w', self') /\
      promise app_inv app_credit app_parked id w self0 fut' p w' self';
}.

Section quiescence.
Context {T W : Type} `{AL : ApplicationLaws T W}.

(** Every stored task is parked, or has a poll coming. *)
Definition none_stranded (coming : list Waker) (w : W) (self : Executor T) : Prop :=
  forall k f, tasks self !! k = Some f -> k ∈ woken self \/ k ∈ coming \/ app_parked k f w.

Lemma poll_batch_ok ids w (self : Executor T) :
  app_inv w self -> none_stranded ids w self ->
  exists w' self', poll_batch app_poll ids w self = Some (w', self') /\ app_inv w' self' /\
    none_stranded [] w' self' /\
    (app_credit w' + length (woken self') <= app_credit w + length (woken self))%nat.
Proof.
  revert w self. induction ids as [|id ids IH]; intros w self Hi Hs; cbn [poll_batch].
  { exists w, self. split; [done|]. split; [done|]. split; [done|lia]. }
  destruct (tasks self !! id) as [fut|] eqn:Ef.
  2: { apply IH; [done|]. intros k f Hk. destruct (Hs k f Hk) as [?|[Hin|?]]; [by left| |by right; right].
       apply elem_of_cons in Hin as [->|?]; [congruence|by right; left]. }
  destruct (app_keeps fut id w self Hi Ef) as (fut' & p & w1 & s1 & -> & [H1 H2 H3 H4 H5 H6]).
  set (s2 := match p with Pending => _ | Ready _ => _ end) in *.
  assert (Ew : woken s2 = woken s1) by (unfold s2; by destruct p).
  destruct (IH w1 s2 H1) as (w' & self' & E & Hi' & Hs' & Hc).
  { intros k f Hk. rewrite Ew. destruct (decide (k = id)) as [->|Hn].
    - unfold s2 in Hk. destruct p; [by rewrite H5 in Hk|]. cbn in Hk. rewrite lookup_insert_eq in Hk.
      injection Hk as <-. right; right. by apply H4.
    - assert (Hk1 : tasks s1 !! k = Some f).
      { unfold s2 in Hk. destruct p; [done|]. cbn in Hk. by rewrite lookup_insert_ne in Hk. }
      destruct (H6 k f Hn Hk1) as [?|[Hold Hp]]; [by left|]. cbn in Hold. rewrite lookup_delete_ne in Hold by done.
      destruct (Hs k f Hold) as [Hw|[Hin|Hpk]]; [left; by apply H3| |right; right; by apply Hp].
      apply elem_of_cons in Hin as [->|?]; [done|by right; left]. }
  exists w', self'. split; [exact E|]. split; [done|]. split; [done|]. rewrite Ew in Hc. cbn in H2. lia.
Qed.

(** The executor runs to quiescence: with one turn of fuel for every
    wake-up that is pending or can still be paid for, it returns with the queue
    empty, and every task it still stores is parked. *)
Lemma run_ready_core fuel w (self : Executor T) :
  app_inv w self -> none_stranded [] w self ->
  (app_credit w + length (woken self) < fuel)%nat ->
  exists w' self', run_ready app_poll fuel w self = Some (w', self') /\ app_inv w' self' /\
    woken self' = [] /\ forall k f, tasks self' !! k = Some f -> app_parked k f w'.
Proof.
  revert w self. induction fuel as [|fuel IH]; intros w self Hi Hs Hf; [lia|]. cbn [run_ready].
  destruct (woken self) as [|id ids] eqn:Ew.
  - exists w, (self <| woken := [] |>). split; [done|]. split; [by apply app_inv_woken|]. split; [done|].
    intros k f Hk. destruct (Hs k f Hk) as [Hin|[Hin|?]]; [|by apply elem_of_nil in Hin|done].
    rewrite Ew in Hin. by apply elem_of_nil in Hin.
  - destruct (poll_batch_ok (id :: ids) w (self <| woken := [] |>)) as (w1 & s1 & -> & Hi1 & Hs1 & Hc1).
    + by apply app_inv_woken.
    + intros k f Hk. destruct (Hs k f Hk) as [Hin|[Hin|?]]; [|by apply elem_of_nil in Hin|by right; right].
      right; left. by rewrite <- Ew.
    + apply IH; [done|done|]. cbn in Hc1, Hf. lia.
Qed.
End quiescence.
