(* ===== verification/Socket.v ===== *)
(** Sockets and their futures: [tcp-core/src/runtime/socket.rs], over the state
    the reactor shares with them ([ReactorState] of [runtime/reactor.rs]).

    [Rc<RefCell<ReactorState>>] is the state passed through: a future borrows it
    for one [poll] and no other future runs meanwhile.  A stream is its remote
    endpoint; a future's own fields are arguments. *)

From stdpp Require Import gmap.
From S2P Require Import Prelude Seq Time Buffers Congestion Endpoint Tcb TcbWork Iface Executor.

(** The [io::ErrorKind]s the runtime produces. *)
Inductive IoErrorKind := TimedOut | ConnectionRefused | ConnectionReset | BrokenPipe | WriteZero.

Record ReactorState (C : Type) := mkReactor {
  stack : Stack C;
  read_wakers : gmap Endpoint Waker;
  write_wakers : gmap Endpoint Waker;
  connect_wakers : gmap Endpoint Waker;
  accept_waker : option Waker;
  accept_queue : list Endpoint;
  now : Instant;
  announced : gset Endpoint;
}.
Arguments mkReactor {C}. Arguments stack {C}. Arguments read_wakers {C}. Arguments write_wakers {C}.
Arguments connect_wakers {C}. Arguments accept_waker {C}. Arguments accept_queue {C}. Arguments now {C}.
Arguments announced {C}.
#[export] Instance ReactorState_settable {C} : Settable (ReactorState C) := fun s =>
  mkReactor (stack s) (read_wakers s) (write_wakers s) (connect_wakers s) (accept_waker s)
    (accept_queue s) (now s) (announced s).

Section socket.
Context {C : Type} `{!CongestionControl C} (Cc_new : CcKind -> Z -> C).

(** *** Accept *)

(** [while let Some(remote) = s.accept_queue.pop_front()] *)
Fixpoint accept_loop (queue : list Endpoint) (s : ReactorState C) : ReactorState C * option Endpoint :=
  match queue with
  | [] => (s <| accept_queue := [] |>, None)
  | remote :: queue =>
      let s := s <| accept_queue := queue |> in
      let usable := match connection_mut (stack s) remote with
                    | Some (t, _) => is_synchronized t || (0 <? rx_available t)
                    | None => false
                    end in
      if usable then (s, Some remote) else accept_loop queue s
  end.

Definition poll_accept (cx : Waker) (s : ReactorState C) : ReactorState C * Poll Endpoint :=
  match accept_loop (accept_queue s) s with
  | (s, Some remote) => (s, Ready remote)
  | (s, None) => (s <| accept_waker := Some cx |>, Pending)
  end.

(** *** Connect: the future's [initiated] flag comes back with the outcome. *)
Definition poll_connect (remote : Endpoint) (initiated : bool) (cx : Waker) (s : ReactorState C)
  : option (bool * ReactorState C * Poll (Result Endpoint IoErrorKind)) :=
  if negb initiated then
    let? (st, _) := connect Cc_new (stack s) remote (now s) in
    let s := s <| stack := st |> in
    Some (true, s <| connect_wakers := <[remote := cx]> (connect_wakers s) |>, Pending)
  else
    Some match connection_mut (stack s) remote with
    | None => (initiated, s, Ready (Err TimedOut))
    | Some (tcb, _) =>
        if is_synchronized tcb then (initiated, s, Ready (Ok remote))
        else if state_eqb (state tcb) Closed then
          (initiated, s, Ready (Err (if is_reset tcb then ConnectionRefused else TimedOut)))
        else (initiated, s <| connect_wakers := <[remote := cx]> (connect_wakers s) |>, Pending)
    end.

(** *** Read: the buffer's length goes in, what was copied into it comes out. *)
Definition poll_read (remote : Endpoint) (buf_len : Z) (cx : Waker) (s : ReactorState C)
  : option (ReactorState C * Poll (Result (list Z) IoErrorKind)) :=
  if buf_len =? 0 then Some (s, Ready (Ok []))
  else
    match connection_mut (stack s) remote with
    | None => Some (s, Ready (Ok []))
    | Some (tcb, put) =>
        if 0 <? rx_available tcb then
          let? (tcb, out) := recv tcb buf_len in Some (s <| stack := put tcb |>, Ready (Ok out))
        else if is_reset tcb then Some (s, Ready (Err ConnectionReset))
        else if recv_eof tcb || state_eqb (state tcb) Closed then Some (s, Ready (Ok []))
        else Some (s <| read_wakers := <[remote := cx]> (read_wakers s) |>, Pending)
    end.

(** *** Write *)
Definition writable (t : Tcb C) : bool := match state t with Established | CloseWait => true | _ => false end.

Definition poll_write (remote : Endpoint) (buf : list Z) (cx : Waker) (s : ReactorState C)
  : ReactorState C * Poll (Result Z IoErrorKind) :=
  match connection_mut (stack s) remote with
  | None => (s, Ready (Err BrokenPipe))
  | Some (tcb, put) =>
      if is_reset tcb then (s, Ready (Err ConnectionReset))
      else if negb (writable tcb) then (s, Ready (Err BrokenPipe))
      else
        let '(tcb, n) := send tcb buf in
        let s := s <| stack := put tcb |> in
        if 0 <? n then (s, Ready (Ok n))
        else (s <| write_wakers := <[remote := cx]> (write_wakers s) |>, Pending)
  end.

(** [write_all]: the loop around the write it awaits; [data] is what is left when
    it suspends.  Every turn but the last takes at least one octet. *)
Fixpoint write_all_loop (fuel : nat) (remote : Endpoint) (data : list Z) (cx : Waker) (s : ReactorState C)
  : option (list Z * ReactorState C * Poll (Result unit IoErrorKind)) :=
  match fuel with
  | O => None
  | S fuel =>
      if zlen data =? 0 then Some (data, s, Ready (Ok tt))
      else
        match poll_write remote data cx s with
        | (s, Pending) => Some (data, s, Pending)
        | (s, Ready (Err e)) => Some (data, s, Ready (Err e))
        | (s, Ready (Ok n)) =>
            if n =? 0 then Some (data, s, Ready (Err WriteZero))
            else let? rest := slice data n (zlen data) in write_all_loop fuel remote rest cx s
        end
  end.
Definition poll_write_all (remote : Endpoint) (data : list Z) (cx : Waker) (s : ReactorState C)
  : option (list Z * ReactorState C * Poll (Result unit IoErrorKind)) :=
  write_all_loop (S (length data)) remote data cx s.

(** [TcpStream::close] *)
Definition stream_close (remote : Endpoint) (s : ReactorState C) : ReactorState C :=
  match connection_mut (stack s) remote with
  | Some (tcb, put) => s <| stack := put (close tcb) |>
  | None => s
  end.
End socket.
