(* ===== verification/Reactor.v ===== *)
(** The reactor: [tcp-core/src/runtime/reactor.rs], with the [Device] trait and
    the mock device of [runtime/mod.rs].

    One [turn] fires timers, ingests every datagram the device has, wakes the
    futures whose socket became ready, runs the tasks and flushes the stack.
    [HashMap] iteration orders are arguments ([HashOrder]), as in [Iface.v]. *)

From stdpp Require Import gmap.
From S2P Require Import Prelude Seq Time Buffers Isn Checksum Ipv4 Icmp Congestion Endpoint Tcb TcbWork Iface Executor Socket.

(** ** The wire *)

(** [Device]; [E] is [std::io::Error].  [dev_recv] fills a prefix of the buffer. *)
Class Device (D E : Type) := {
  dev_poll_readable : D -> Z -> D * Result bool E;
  dev_recv : D -> list Z -> D * list Z * Result (option Z) E;
  dev_send : D -> list Z -> D * Result unit E;
  dev_mtu : D -> Z;
}.
Arguments dev_poll_readable {D E _}. Arguments dev_recv {D E _}. Arguments dev_send {D E _}.

Record MockDevice := mkMock { inbound : list (list Z); outbound : list (list Z) }.
#[export] Instance MockDevice_settable : Settable MockDevice := fun s => mkMock (inbound s) (outbound s).

Module Mock.
Definition new : MockDevice := mkMock [] [].
Definition inject (self : MockDevice) (frame : list Z) : MockDevice := self <| inbound := inbound self ++ [frame] |>.
Definition take_outbound (self : MockDevice) : MockDevice * list (list Z) := (self <| outbound := [] |>, outbound self).

Section mock.
Context {E : Type}.
Definition poll_readable (self : MockDevice) (_ : Z) : MockDevice * Result bool E :=
  (self, Ok (negb (bool_decide (inbound self = [])))).
(** [buf[..n].copy_from_slice(&frame[..n])] *)
Definition recv (self : MockDevice) (buf : list Z) : MockDevice * list Z * Result (option Z) E :=
  match inbound self with
  | frame :: rest =>
      let n := Z.min (zlen frame) (zlen buf) in
      (self <| inbound := rest |>, ztake n frame ++ zdrop n buf, Ok (Some n))
  | [] => (self, buf, Ok None)
  end.
Definition send (self : MockDevice) (pkt : list Z) : MockDevice * Result unit E :=
  (self <| outbound := outbound self ++ [pkt] |>, Ok tt).
Definition mtu (_ : MockDevice) : Z := 1500.
End mock.
End Mock.
#[export] Instance Mock_device {E} : Device MockDevice E :=
  {| dev_poll_readable := Mock.poll_readable; dev_recv := Mock.recv; dev_send := Mock.send; dev_mtu := Mock.mtu |}.

(** ** The runtime *)

(** The order each of a turn's table iterations happens to take. *)
Record HashOrder := mkOrder {
  ho_timer : gset Endpoint -> list Endpoint;
  ho_synced : gset Endpoint -> list Endpoint;
  ho_connect : gset Endpoint -> list Endpoint;
  ho_read : gset Endpoint -> list Endpoint;
  ho_write : gset Endpoint -> list Endpoint;
  ho_transmit : gset Endpoint -> list Endpoint;
}.

Record Runtime (D C T : Type) := mkRuntime {
  device : D;
  r_state : ReactorState C;
  r_exec : Executor T;
  r_rx : list Z;
  r_tx : list Z;
  egress : list (list Z);
}.
Arguments mkRuntime {D C T}. Arguments device {D C T}. Arguments r_state {D C T}. Arguments r_exec {D C T}.
Arguments r_rx {D C T}. Arguments r_tx {D C T}. Arguments egress {D C T}.
#[export] Instance Runtime_settable {D C T} : Settable (Runtime D C T) := fun s =>
  mkRuntime (device s) (r_state s) (r_exec s) (r_rx s) (r_tx s) (egress s).

Section reactor.
Context {D C T E : Type} `{!Device D E} `{!CongestionControl C} (Cc_new : CcKind -> Z -> C).

(** *** [dispatch_wakeups] *)

Definition read_ready (t : Tcb C) : bool := (0 <? rx_available t) || recv_eof t || state_eqb (state t) Closed.
Definition write_ready (t : Tcb C) : bool := negb (writable t) || (0 <? tx_free t).
Definition connect_ready (t : Tcb C) : bool := is_synchronized t || state_eqb (state t) Closed.

(** Connections past the handshake on the listen port, in iteration order. *)
Definition synced (keys : list Endpoint) (st : Stack C) : list Endpoint :=
  filter (fun ep => match conns st !! ep with
                    | Some t => is_synchronized t && (ep_port (Tcb.local t) =? ep_port (Iface.local st))
                    | None => false
                    end = true) keys.

Fixpoint announce (eps : list Endpoint) (s : ReactorState C) : ReactorState C :=
  match eps with
  | [] => s
  | ep :: eps =>
      let s := if decide (ep ∈ announced s) then s
               else s <| announced := {[ep]} ∪ announced s |> <| accept_queue := accept_queue s ++ [ep] |> in
      announce eps s
  end.

(** [accept_waker.take()], when a connection waits. *)
Definition wake_accept (s : ReactorState C) (ex : Executor T) : ReactorState C * Executor T :=
  match accept_queue s with
  | [] => (s, ex)
  | _ => match accept_waker s with
         | Some w => (s <| accept_waker := None |>, wake ex w)
         | None => (s, ex)
         end
  end.

(** One registry's sweep: wake and forget those whose connection is [ready] or
    gone. *)
Fixpoint sweep (ready : Tcb C -> bool) (keys : list Endpoint) (cs : gmap Endpoint (Tcb C))
    (ws : gmap Endpoint Waker) (ex : Executor T) : gmap Endpoint Waker * Executor T :=
  match keys with
  | [] => (ws, ex)
  | ep :: keys =>
      let is_ready := match cs !! ep with Some t => ready t | None => true end in
      if is_ready then
        match ws !! ep with
        | Some w => sweep ready keys cs (delete ep ws) (wake ex w)
        | None => sweep ready keys cs ws ex
        end
      else sweep ready keys cs ws ex
  end.

Definition prune (s : ReactorState C) : ReactorState C :=
  let live := dom (conns (stack s)) in
  s <| announced := announced s ∩ live |> <| accept_queue := filter (fun ep => ep ∈ live) (accept_queue s) |>.

Definition dispatch_wakeups (ho : HashOrder) (s : ReactorState C) (ex : Executor T) : ReactorState C * Executor T :=
  let s := announce (synced (ho_synced ho (dom (conns (stack s)))) (stack s)) s in
  let '(s, ex) := wake_accept s ex in
  let cs := conns (stack s) in
  let '(ws, ex) := sweep connect_ready (ho_connect ho (dom (connect_wakers s))) cs (connect_wakers s) ex in
  let s := s <| connect_wakers := ws |> in
  let '(ws, ex) := sweep read_ready (ho_read ho (dom (read_wakers s))) cs (read_wakers s) ex in
  let s := s <| read_wakers := ws |> in
  let '(ws, ex) := sweep write_ready (ho_write ho (dom (write_wakers s))) cs (write_wakers s) ex in
  let s := s <| write_wakers := ws |> in
  (prune s, ex).

(** *** [turn] *)

(** One received datagram: the body of the ingress loop. *)
Definition ingest (now : Instant) (b : list Z) (d : D) (tx : list Z) (st : Stack C) : option (D * list Z * Stack C) :=
  let? parsed := Ipv4.new_checked b in
  match parsed with
  | Err _ => Some (d, tx, st)
  | Ok ip =>
      let? proto := Ipv4.protocol ip in
      if proto =? IPPROTO_ICMP then
        let? reply := echo_reply ip tx in
        match reply with
        | Some (tx, len) => let? pkt := slice tx 0 len in Some (fst (dev_send (E := E) d pkt), tx, st)
        | None => Some (d, tx, st)
        end
      else if proto =? IPPROTO_TCP then let? st := on_recv Cc_new st now ip in Some (d, tx, st)
      else Some (d, tx, st)
  end.

(** [while let Some(n) = self.device.recv(..)?]; [fuel] bounds its turns. *)
Fixpoint ingress (fuel : nat) (now : Instant) (d : D) (rx tx : list Z) (st : Stack C)
  : option (D * list Z * list Z * Stack C * Result unit E) :=
  match fuel with
  | O => None
  | S fuel =>
      let '(d, rx, r) := dev_recv d rx in
      match r with
      | Err e => Some (d, rx, tx, st, Err e)
      | Ok None => Some (d, rx, tx, st, Ok tt)
      | Ok (Some n) =>
          let? b := slice rx 0 n in
          let? (d, tx, st) := ingest now b d tx st in ingress fuel now d rx tx st
      end
  end.

(** [for pkt in &self.egress]: a refused segment is dropped. *)
Definition flush (d : D) (pkts : list (list Z)) : D := fold_left (fun d pkt => fst (dev_send (E := E) d pkt)) pkts d.

Definition turn `{Application T (ReactorState C)} (fuel rfuel : nat) (ho : HashOrder) (now : Instant) (self : Runtime D C T)
  : option (Runtime D C T * Result unit E) :=
  let s := (r_state self) <| Socket.now := now |> in
  let? st := Iface.on_timer (stack s) (ho_timer ho (dom (conns (stack s)))) now in
  let? (d, rx, tx, st, r) := ingress fuel now (device self) (r_rx self) (r_tx self) st in
  let self := self <| device := d |> <| r_rx := rx |> <| r_tx := tx |> in
  let s := s <| stack := st |> in
  match r with
  | Err e => Some (self <| r_state := s |>, Err e)
  | Ok _ =>
      let '(s, ex) := dispatch_wakeups ho s (r_exec self) in
      let? (s, ex) := run_ready app_poll rfuel s ex in
      let? (st, out) := Iface.poll_transmit (stack s) (ho_transmit ho (dom (conns (stack s)))) now [] in
      let self := self <| r_state := s <| stack := st |> |> <| r_exec := ex |> <| egress := out |> in
      Some (self <| device := flush (device self) (egress self) |>, Ok tt)
  end.

(** *** Construction and the loop *)

Definition runtime_new (d : D) (local : Endpoint) (isn_secret : list Z) : option (Runtime D C T) :=
  let mtu := dev_mtu (E := E) d in
  let? st := stack_new local isn_secret (mss_for_mtu mtu) in
  Some (mkRuntime d (mkReactor st ∅ ∅ ∅ None [] 0 ∅) exec_new (zrepeat 0 (mtu + 64)) (zrepeat 0 (mtu + 64)) []).

Definition runtime_spawn (self : Runtime D C T) (fut : T) : option (Runtime D C T) :=
  let? ex := spawn (r_exec self) fut in Some (self <| r_exec := ex |>).
Definition runtime_set_cc (self : Runtime D C T) (kind : CcKind) : Runtime D C T :=
  self <| r_state := (r_state self) <| stack := set_cc_kind (stack (r_state self)) kind |> |>.
Definition runtime_poll_at (self : Runtime D C T) : option Instant := Iface.poll_at (stack (r_state self)).
Definition runtime_connection_count (self : Runtime D C T) : Z := connection_count (stack (r_state self)).

(** [run]'s sleep before the next turn, in the milliseconds of [poll(2)]. *)
Definition timeout_ms (deadline : option Instant) (now : Instant) : Z :=
  match deadline with
  | None => -1
  | Some deadline =>
      let micros := saturating_micros_since deadline now in
      Z.min ((micros + 999) / 1000) (2 ^ 31 - 1)
  end.

(** One turn of [run]'s loop; the clock reads [t1], then [t2]. *)
Definition run_step `{Application T (ReactorState C)} (fuel rfuel : nat) (ho : HashOrder) (t1 t2 : Instant) (self : Runtime D C T)
  : option (Runtime D C T * Result bool E) :=
  let? (self, r) := turn fuel rfuel ho t1 self in
  match r with
  | Err e => Some (self, Err e)
  | Ok _ =>
      let '(d, r) := dev_poll_readable (device self) (timeout_ms (runtime_poll_at self) t2) in
      Some (self <| device := d |>, r)
  end.
End reactor.
