(* ===== verification/ReactorSafe.v ===== *)
(** What the sockets and the reactor keep: the table's invariant, and that no
    registered waker belongs to a future that could already complete
    ([waiting]). *)

From stdpp Require Import gmap relations.
From S2P Require Import Prelude Seq Time Buffers Isn Checksum Ipv4 Icmp Congestion Endpoint Tcb TcbInv TcbSegment TcbStates TcbPoll TcbLife TcbWork TcbEnds Iface IfaceSafe IfaceDrain Executor Socket Reactor.
Import RingBuffer (RingBuffer, mkRing, buf, capacity).

Section safe.
Context {C : Type} `{CC : CongestionControl C} {CL : CongestionLaws C}.
Context (Cc_new : CcKind -> Z -> C).
Context (Cc_new_ok : forall k m, 0 < m <= U16_MAX -> cc_ok m (Cc_new k m)).

(** *** Invariants *)

Record reactor_ok (s : ReactorState C) : Prop := {
  ra_stack : stack_ok (stack s);
  ra_reset : map_Forall (fun _ t => reset_closed t) (conns (stack s));
}.

(** A writer that must wait: the queue is full, and either the connection still
    takes data or our FIN has just closed its sending side. *)
Definition write_waiting (t : Tcb C) : Prop :=
  tx_free t <= 0 /\ (writable t = true \/ (state t = FinWait1 \/ state t = LastAck) /\ is_some (fin_seq t) = true).

Record waiting (s : ReactorState C) : Prop := {
  wt_accept : accept_waker s = None \/ accept_queue s = [];
  wt_read : forall ep w, read_wakers s !! ep = Some w ->
    exists t, conns (stack s) !! ep = Some t /\ read_ready t = false;
  wt_write : forall ep w, write_wakers s !! ep = Some w ->
    exists t, conns (stack s) !! ep = Some t /\ write_waiting t;
  wt_connect : forall ep w, connect_wakers s !! ep = Some w ->
    exists t, conns (stack s) !! ep = Some t /\ connect_ready t = false;
}.

(** A change to a connection that makes no waiter ready. *)
Record quiet (t t' : Tcb C) : Prop := {
  qu_read : read_ready t = false -> read_ready t' = false;
  qu_write : write_waiting t -> write_waiting t';
  qu_connect : connect_ready t = false -> connect_ready t' = false;
}.

Definition put (s : ReactorState C) (remote : Endpoint) (t : Tcb C) : ReactorState C :=
  s <| stack := (stack s) <| conns := <[remote := t]> (conns (stack s)) |> |>.

Lemma put_ok s remote t t' :
  reactor_ok s -> conns (stack s) !! remote = Some t -> tcb_ok t' -> ident t' = ident t -> reset_closed t' ->
  reactor_ok (put s remote t').
Proof.
  intros [Hs Hr] Ht Hok Hi Hc. split; cbn.
  - apply entries_insert; [done|]. eapply entry_step; [|exact Hok|exact Hi]. exact (sk_conns _ Hs _ _ Ht).
  - by apply map_Forall_insert_2.
Qed.

Lemma put_lookup s remote t t' ep (P : Tcb C -> Prop) :
  conns (stack s) !! remote = Some t -> (P t -> P t') ->
  (exists u, conns (stack s) !! ep = Some u /\ P u) -> exists u, conns (stack (put s remote t')) !! ep = Some u /\ P u.
Proof.
  intros Ht HP (u & Hu & Pu). cbn. destruct (decide (ep = remote)) as [->|Hn].
  - exists t'. rewrite lookup_insert_eq. split; [done|]. apply HP. congruence.
  - exists u. by rewrite lookup_insert_ne.
Qed.

Lemma put_waiting s remote t t' :
  conns (stack s) !! remote = Some t -> quiet t t' -> waiting s -> waiting (put s remote t').
Proof.
  intros Ht [Q1 Q2 Q3] [W1 W2 W3 W4]. split; [done|intros ep w H..].
  - eapply put_lookup; [done|exact Q1|by eapply W2].
  - eapply put_lookup; [done|exact Q2|by eapply W3].
  - eapply put_lookup; [done|exact Q3|by eapply W4].
Qed.

(** A registration of a future that has to wait. *)
Lemma insert_waiter (ws : gmap Endpoint Waker) ep cx (P : Endpoint -> Prop) :
  P ep -> (forall k w, ws !! k = Some w -> P k) -> forall k w, <[ep := cx]> ws !! k = Some w -> P k.
Proof.
  intros He Hw k w. destruct (decide (k = ep)) as [->|Hn]; [done|]. rewrite lookup_insert_ne by done. apply Hw.
Qed.

(** *** Accept *)

(** What is left of the queue, and what was given. *)
Lemma accept_loop_spec queue (s : ReactorState C) :
  exists queue' pre, fst (accept_loop queue s) = s <| accept_queue := queue' |> /\
    match snd (accept_loop queue s) with
    | None => queue' = [] /\ pre = queue
    | Some remote => queue = pre ++ remote :: queue' /\
        exists t, conns (stack s) !! remote = Some t /\ is_synchronized t || (0 <? rx_available t) = true
    end.
Proof.
  revert s. induction queue as [|ep queue IH]; intros s; cbn [accept_loop]; [by exists [], []|].
  unfold connection_mut. cbn [set stack]. destruct (conns (stack s) !! ep) as [t|] eqn:Et.
  1: destruct (_ || _) eqn:Eu.
  1: { exists queue, []. cbn [fst snd]. split; [done|]. split; [done|]. by exists t. }
  all: destruct (IH (s <| accept_queue := queue |>)) as (q & pre & E & Hr); exists q, (ep :: pre); split; [exact E|];
    destruct (snd _); destruct Hr as [H1 H2]; (split; [done || by rewrite H1|done || by rewrite H2]).
Qed.

Lemma poll_accept_spec cx (s : ReactorState C) :
  match snd (poll_accept cx s) with
  | Pending => fst (poll_accept cx s) = s <| accept_queue := [] |> <| accept_waker := Some cx |>
  | Ready remote => exists queue' pre, fst (poll_accept cx s) = s <| accept_queue := queue' |> /\
      accept_queue s = pre ++ remote :: queue' /\
      exists t, conns (stack s) !! remote = Some t /\ is_synchronized t || (0 <? rx_available t) = true
  end.
Proof.
  unfold poll_accept. destruct (accept_loop_spec (accept_queue s) s) as (q & pre & E & Hr).
  destruct (accept_loop (accept_queue s) s) as [s1 [remote|]]; cbn [fst snd] in *; subst s1.
  - by exists q, pre.
  - by destruct Hr as [-> _].
Qed.

(** *** Connect *)

Lemma syn_sent_not_ready (t : Tcb C) : state t = SynSent -> connect_ready t = false.
Proof. intros E. unfold connect_ready, is_synchronized, state_eqb. by rewrite E. Qed.

Lemma connect_state (self self' : Stack C) remote now key :
  stack_ok self -> endpoint_ok remote -> connect Cc_new self remote now = Some (self', key) ->
  stack_ok self' /\ exists t, conns self' = <[remote := t]> (conns self) /\ state t = SynSent /\ reset t = false.
Proof.
  intros Hok Hr E. destruct (connect_ok Cc_new Cc_new_ok self remote now Hok Hr)
    as (s1 & t & p & E1 & Hok' & _ & _ & _ & _ & _ & _ & Ec & Es & _).
  rewrite E in E1. injection E1 as <- _. split; [done|]. exists t. split; [done|]. split; [done|].
  revert E. unfold connect. destruct (next_ephemeral_port self) as [[s2 q]|]; [|done]. cbv zeta. intros [= E].
  assert (Et : <[remote := t]> (conns self) !! remote = Some t) by apply lookup_insert_eq.
  rewrite <- Ec, <- E in Et. cbn [set conns] in Et. rewrite lookup_insert_eq in Et. injection Et as <-.
  unfold set_congestion_control. by case_ifs.
Qed.

(** A polled connect: it returns, and when it does not complete its waker is
    registered on a connection still opening. *)
Lemma poll_connect_spec remote i cx (s : ReactorState C) :
  reactor_ok s -> waiting s -> endpoint_ok remote -> (i = false -> conns (stack s) !! remote = None) ->
  exists i' s' r, poll_connect Cc_new remote i cx s = Some (i', s', r) /\ reactor_ok s' /\ waiting s' /\
    i' = true /\ accept_queue s' = accept_queue s /\
    (i = true -> stack s' = stack s /\
      (r = Pending <-> exists t, conns (stack s) !! remote = Some t /\ connect_ready t = false)) /\
    (r = Pending -> s' = s <| stack := stack s' |> <| connect_wakers := <[remote := cx]> (connect_wakers s) |>).
Proof.
  intros Hok Hw Hr Hnew. unfold poll_connect. destruct i; cbn [negb].
  - unfold connection_mut. destruct (conns (stack s) !! remote) as [t|] eqn:Et.
    2: { exists true, s, (Ready (Err TimedOut)). split_and!; try done. intros _. split; [done|]. split; [done|]. by intros (u & Hu & _). }
    unfold connect_ready. destruct (is_synchronized t) eqn:Esy.
    { exists true, s, (Ready (Ok remote)). split_and!; try done. intros _. split; [done|]. split; [done|].
      intros (u & [= <-] & Hu). by rewrite Esy in Hu. }
    destruct (state_eqb (state t) Closed) eqn:Ecl.
    { eexists true, s, (Ready _). split; [done|]. split_and!; try done. intros _. split; [done|]. split; [done|].
      intros (u & [= <-] & Hu). by rewrite Esy, Ecl in Hu. }
    exists true, (s <| connect_wakers := <[remote:=cx]> (connect_wakers s) |>), Pending. split; [done|].
    destruct Hok as [H1 H2], Hw as [W1 W2 W3 W4]. split; [by split|]. split.
    { split; [done..|]. apply insert_waiter; [|exact W4]. exists t. split; [done|]. unfold connect_ready. by rewrite Esy, Ecl. }
    split; [done|]. split; [done|]. split; [|by destruct s]. intros _. split; [done|]. split; [|done]. intros _. exists t. by rewrite Esy, Ecl.
  - specialize (Hnew eq_refl). destruct Hok as [H1 H2].
    destruct (connect_ok Cc_new Cc_new_ok (stack s) remote (Socket.now s) H1 Hr) as (st & t0 & p0 & E & _).
    destruct (connect_state _ _ _ _ _ H1 Hr E) as (Hok' & t & Ec & Est & Ert). rewrite E.
    eexists true, _, Pending. split; [done|]. split; [|split].
    + split; [done|]. cbn. rewrite Ec. apply map_Forall_insert_2; [|done]. intros Hres. congruence.
    + destruct Hw as [W1 W2 W3 W4].
      assert (Hk : forall ep (P : Tcb C -> Prop), (exists u, conns (stack s) !! ep = Some u /\ P u) ->
        exists u, conns st !! ep = Some u /\ P u).
      { intros ep P (u & Hu & Pu). exists u. rewrite Ec, lookup_insert_ne; [done|]. intros <-. congruence. }
      split; cbn; [done|intros ep w H; apply Hk; by eauto..|].
      apply (insert_waiter (connect_wakers s) remote cx (fun ep => exists u, conns st !! ep = Some u /\ connect_ready u = false)).
      * exists t. split; [rewrite Ec; apply lookup_insert_eq|by apply syn_sent_not_ready].
      * intros ep w H. apply Hk. by eauto.
    + split; [done|]. split; [done|]. split; [done|]. intros _. by destruct s.
Qed.

(** *** Read *)

Definition read_pends (t : Tcb C) : bool := negb (read_ready t) && negb (is_reset t).

Lemma reset_is_ready (t : Tcb C) : reset_closed t -> read_pends t = negb (read_ready t).
Proof.
  unfold read_pends, reset_closed, is_reset, read_ready, state_eqb. intros H. destruct (reset t); [|by rewrite andb_true_r].
  rewrite H by done. cbn. by rewrite !orb_true_r.
Qed.

(** A polled read returns; it takes the octets at the front of the receive queue,
    or reports the end, or registers its waker on a connection with nothing for it. *)
Lemma poll_read_spec remote n cx (s : ReactorState C) :
  reactor_ok s -> waiting s -> 0 <= n ->
  exists s' r, poll_read remote n cx s = Some (s', r) /\ reactor_ok s' /\ waiting s' /\
    accept_queue s' = accept_queue s /\
    (0 < n -> r = Pending <-> exists t, conns (stack s) !! remote = Some t /\ read_ready t = false) /\
    (r = Pending -> s' = s <| read_wakers := <[remote := cx]> (read_wakers s) |>) /\
    (forall data, r = Ready (Ok data) -> data <> [] ->
      exists t, conns (stack s) !! remote = Some t /\ data = ztake n (buf (rx t)) /\
        exists t', s' = put s remote t' /\ buf (rx t') = zdrop n (buf (rx t))).
Proof.
  intros Hok Hw Hn. unfold poll_read. destruct (n =? 0) eqn:E0.
  { exists s, (Ready (Ok [])). split_and!; try done; [lia|]. by intros d [= <-]. }
  unfold connection_mut. destruct (conns (stack s) !! remote) as [t|] eqn:Et.
  2: { exists s, (Ready (Ok [])). split_and!; try done; [intros _; split; [done|by intros (u & Hu & _)]|]. by intros d [= <-]. }
  pose proof (sk_conns _ (ra_stack _ Hok) _ _ Et) as Hent. pose proof (ra_reset _ Hok _ _ Et) as Hres. cbn in Hres.
  destruct (0 <? rx_available t) eqn:Ea.
  { destruct (recv_ok t n (en_tcb _ _ _ Hent) Hn) as (t' & E & Hok' & Hb). rewrite E.
    assert (Et' : exists rx', t' = t <| rx := rx' |>).
    { revert E. unfold recv. destruct (RingBuffer.read _ _) as [[rx' o]|]; [|done]. intros [= <- _]. by eexists. }
    destruct Et' as [rx' Et'].
    assert (Hrd : read_ready t = true) by (unfold read_ready; by rewrite Ea).
    exists (put s remote t'), (Ready (Ok (ztake n (buf (rx t))))). split; [done|].
    split. { eapply put_ok; [done|exact Et|done| |]; rewrite Et'; done. }
    split. { eapply put_waiting; [exact Et| |done]. rewrite Et'. split; [by rewrite Hrd|done|done]. }
    split; [done|]. split. { intros _. split; [done|]. intros (u & [= <-] & Hu). congruence. }
    split; [done|]. intros d [= <-] _. exists t. split; [done|]. split; [done|]. by exists t'. }
  assert (Hready : read_ready t = recv_eof t || state_eqb (state t) Closed) by (unfold read_ready; by rewrite Ea).
  destruct (is_reset t) eqn:Er.
  { exists s, (Ready (Err ConnectionReset)). split_and!; try done. intros _. split; [done|].
    intros (u & [= <-] & Hu). pose proof (reset_is_ready t Hres) as Hp. unfold read_pends in Hp. by rewrite Hu, Er in Hp. }
  destruct (recv_eof t || state_eqb (state t) Closed) eqn:Ee.
  { exists s, (Ready (Ok [])). split_and!; try done; [|by intros d [= <-]]. intros _. split; [done|]. intros (u & [= <-] & Hu). congruence. }
  exists (s <| read_wakers := <[remote:=cx]> (read_wakers s) |>), Pending. split; [done|].
  destruct Hok as [H1 H2], Hw as [W1 W2 W3 W4]. split; [by split|]. split.
  { split; [done| |done|done]. apply insert_waiter; [by exists t|exact W2]. }
  split_and!; try done. intros _. split; [|done]. intros _. by exists t.
Qed.

(** *** Write and close *)

Lemma send_shape (t t' : Tcb C) dat n : send t dat = (t', n) -> exists tx', t' = t <| tx := tx' |>.
Proof.
  unfold send. destruct (RingBuffer.write (tx t) dat) as [tx' m]. destruct (state t); intros [= <- _]; (by exists tx') || (exists (tx t); by destruct t).
Qed.

Definition write_pends (t : Tcb C) : bool := negb (write_ready t).

Lemma write_ready_waiting (t : Tcb C) : write_ready t = false -> write_waiting t.
Proof.
  unfold write_ready, write_waiting. intros E. apply orb_false_iff in E as [E1 E2].
  split; [lia|]. left. by destruct (writable t).
Qed.

(** A polled write of at least one octet queues as much as fits, or fails, or
    registers its waker on a connection whose queue is full. *)
Lemma poll_write_spec remote dat cx (s : ReactorState C) :
  reactor_ok s -> waiting s -> bytes_ok dat -> dat <> [] ->
  exists s' r, poll_write remote dat cx s = (s', r) /\ reactor_ok s' /\ waiting s' /\
    accept_queue s' = accept_queue s /\
    (r = Pending <-> exists t, conns (stack s) !! remote = Some t /\ write_ready t = false) /\
    (r = Pending -> write_wakers s' = <[remote := cx]> (write_wakers s) /\ read_wakers s' = read_wakers s /\
      connect_wakers s' = connect_wakers s /\ accept_waker s' = accept_waker s /\
      exists t t', conns (stack s) !! remote = Some t /\ conns (stack s') = <[remote := t']> (conns (stack s)) /\ quiet t t' /\
        buf (tx t') = buf (tx t)) /\
    (forall n, r = Ready (Ok n) -> 0 < n <= zlen dat /\
      exists t t', conns (stack s) !! remote = Some t /\ s' = put s remote t' /\ quiet t t' /\
        buf (tx t') = buf (tx t) ++ ztake n dat).
Proof.
  intros Hok Hw Hd Hne. assert (Hz : 0 < zlen dat) by (destruct dat; [done|rewrite zlen_cons; pose proof (zlen_nonneg dat); lia]).
  unfold poll_write, connection_mut. destruct (conns (stack s) !! remote) as [t|] eqn:Et.
  2: { exists s, (Ready (Err BrokenPipe)). split_and!; try done. split; [done|]. by intros (u & Hu & _). }
  pose proof (sk_conns _ (ra_stack _ Hok) _ _ Et) as Hent. pose proof (ra_reset _ Hok _ _ Et) as Hres. cbn in Hres.
  destruct (is_reset t) eqn:Er.
  { exists s, (Ready (Err ConnectionReset)). split_and!; try done. split; [done|]. intros (u & [= <-] & Hu).
    unfold write_ready, writable in Hu. rewrite (Hres Er) in Hu. done. }
  destruct (writable t) eqn:Ewr; cbn [negb].
  2: { exists s, (Ready (Err BrokenPipe)). split_and!; try done. split; [done|]. intros (u & [= <-] & Hu).
       unfold write_ready in Hu. by rewrite Ewr in Hu. }
  destruct (send_ok t dat (en_tcb _ _ _ Hent) Hd) as (t' & n & E & Hok' & Hn & Hb). rewrite E.
  fold (writable t) in Hb. rewrite Ewr in Hb. destruct Hb as [En Hb].
  destruct (send_shape _ _ _ _ E) as [tx' Et'].
  pose proof (ok_snd _ (en_tcb _ _ _ Hent)) as Hsnd. pose proof (si_len _ _ _ _ _ _ _ _ _ Hsnd) as Hl.
  pose proof (si_cap _ _ _ _ _ _ _ _ _ Hsnd) as Hcap.
  assert (Hfree : 0 <= tx_free t) by (unfold tx_free, RingBuffer.free; lia).
  assert (Hfr' : tx_free t <= 0 -> tx_free t' <= 0).
  { intros H0. pose proof (ok_snd _ Hok') as Hsnd'. pose proof (si_cap _ _ _ _ _ _ _ _ _ Hsnd') as Hcap'.
    unfold tx_free, RingBuffer.free, RingBuffer.len in *. rewrite Hb, zlen_app, Hcap', <- Hcap. pose proof (zlen_nonneg (ztake n dat)). lia. }
  assert (Hq : quiet t t').
  { split; [by rewrite Et'| |by rewrite Et']. intros [H1 H2]. split; [by apply Hfr'|by rewrite Et']. }
  assert (Hput : reactor_ok (put s remote t')) by (eapply put_ok; [done|exact Et|done| |]; rewrite Et'; done).
  assert (Hput' : waiting (put s remote t')) by (by eapply put_waiting; [exact Et|exact Hq|]).
  fold (put s remote t'). destruct (0 <? n) eqn:E0.
  - exists (put s remote t'), (Ready (Ok n)). split; [done|]. split; [done|]. split; [done|]. split; [done|].
    split. { split; [done|]. intros (u & [= <-] & Hu). destruct (write_ready_waiting t Hu) as [H0 _]. lia. }
    split; [done|]. intros m [= <-]. split; [lia|]. exists t, t'. by split_and!.
  - exists ((put s remote t') <| write_wakers := <[remote:=cx]> (write_wakers s) |>), Pending. split; [done|].
    assert (Hwr : write_ready t = false) by (unfold write_ready; rewrite Ewr; cbn [negb orb]; lia).
    destruct Hput as [P1 P2], Hput' as [W1 W2 W3 W4]. split; [by split|]. split.
    { split; [done|done| |done]. apply (insert_waiter (write_wakers s) remote cx (fun ep => exists u, conns (stack (put s remote t')) !! ep = Some u /\ write_waiting u)); [|exact W3].
      exists t'. split; [cbn; apply lookup_insert_eq|]. apply (qu_write _ _ Hq). by apply write_ready_waiting. }
    split; [done|]. split. { split; [|done]. intros _. by exists t. }
    split; [|done]. intros _. split_and!; try done. exists t, t'. split_and!; try done.
    rewrite Hb. assert (n = 0) as -> by lia. apply app_nil_r.
Qed.

Lemma close_quiet (t : Tcb C) : quiet t (close t).
Proof. by split. Qed.

Lemma stream_close_spec remote (s : ReactorState C) :
  reactor_ok s -> waiting s -> reactor_ok (stream_close remote s) /\ waiting (stream_close remote s) /\
    accept_queue (stream_close remote s) = accept_queue s.
Proof.
  intros Hok Hw. unfold stream_close, connection_mut. destruct (conns (stack s) !! remote) as [t|] eqn:Et; [|done].
  pose proof (sk_conns _ (ra_stack _ Hok) _ _ Et) as Hent. fold (put s remote (close t)). split; [|split; [|done]].
  - eapply put_ok; [done|exact Et|apply close_ok; apply Hent|done|exact (ra_reset _ Hok _ _ Et)].
  - eapply put_waiting; [exact Et|apply close_quiet|done].
Qed.

(** *** Write all *)

Lemma quiet_trans (t1 t2 t3 : Tcb C) : quiet t1 t2 -> quiet t2 t3 -> quiet t1 t3.
Proof. intros [A1 A2 A3] [B1 B2 B3]. split; auto. Qed.
Lemma quiet_refl (t : Tcb C) : quiet t t.
Proof. by split. Qed.

Lemma put_put s remote t1 t2 : put (put s remote t1) remote t2 = put s remote t2.
Proof. unfold put. destruct s as [st ? ? ? ? ? ? ?], st. cbn. by rewrite insert_insert_eq. Qed.

(** What [write_all] has handed to the connection so far is a prefix of what it
    was given; it completes exactly when nothing is left, waits exactly when the
    queue is full, and its loop always ends. *)
Definition wrote (s s' : ReactorState C) (remote : Endpoint) (written : list Z) : Prop :=
  written = [] /\ s' = s \/
  exists t t', conns (stack s) !! remote = Some t /\ s' = put s remote t' /\ quiet t t' /\
    buf (tx t') = buf (tx t) ++ written.

Lemma write_all_loop_spec fuel remote dat cx (s : ReactorState C) :
  reactor_ok s -> waiting s -> bytes_ok dat -> (length dat < fuel)%nat ->
  exists rest s' r written s1, write_all_loop fuel remote dat cx s = Some (rest, s', r) /\
    dat = written ++ rest /\ reactor_ok s' /\ waiting s' /\ accept_queue s' = accept_queue s /\
    wrote s s1 remote written /\
    match r with
    | Ready (Ok _) => rest = [] /\ s' = s1
    | Ready (Err _) => s' = s1
    | Pending => rest <> [] /\ (exists t', conns (stack s') !! remote = Some t' /\ write_waiting t') /\
        write_wakers s' = <[remote := cx]> (write_wakers s) /\ read_wakers s' = read_wakers s /\
        connect_wakers s' = connect_wakers s /\ accept_waker s' = accept_waker s /\
        exists t t', conns (stack s) !! remote = Some t /\ conns (stack s') = <[remote := t']> (conns (stack s)) /\ quiet t t' /\
          buf (tx t') = buf (tx t) ++ written
    end.
Proof.
  revert dat s. induction fuel as [|fuel IH]; intros dat s Hok Hw Hd Hf; [lia|]. cbn [write_all_loop].
  destruct (zlen dat =? 0) eqn:E0.
  { assert (dat = []) as -> by (destruct dat; [done|rewrite zlen_cons in E0; pose proof (zlen_nonneg dat); lia]).
    exists [], s, (Ready (Ok tt)), [], s. split_and!; try done. by left. }
  assert (Hne : dat <> []) by (intros ->; done).
  destruct (poll_write_spec remote dat cx s Hok Hw Hd Hne) as (s1 & r & E & Hok1 & Hw1 & Eq1 & Hp & Hpend & Hrdy).
  rewrite E. destruct r as [[n|e]|].
  - destruct (Hrdy n eq_refl) as (Hn & t & t' & Et & -> & Hq & Hb).
    destruct (n =? 0) eqn:En; [lia|]. rewrite slice_Some by lia.
    assert (Edrop : ztake (zlen dat - n) (zdrop n dat) = zdrop n dat) by (apply ztake_all; rewrite zlen_zdrop; lia).
    rewrite Edrop.
    assert (Hsplit : dat = ztake n dat ++ zdrop n dat) by (unfold ztake, zdrop; by rewrite take_drop).
    assert (Hlen : (length (zdrop n dat) < length dat)%nat).
    { unfold zdrop, zlen in *. rewrite length_drop. lia. }
    destruct (IH (zdrop n dat) (put s remote t') Hok1 Hw1) as (rest & s2 & r & wr & s3 & E2 & Ed & Hok2 & Hw2 & Eq2 & Hwr & Hres).
    { unfold zdrop. by apply Forall_drop. }
    { lia. }
    rewrite E2. exists rest, s2, r, (ztake n dat ++ wr), s3. split; [done|].
    split; [by rewrite <- app_assoc, <- Ed|]. split; [done|]. split; [done|]. split; [done|].
    assert (Hwrote : forall u, conns (stack (put s remote t')) !! remote = Some u -> u = t').
    { intros u Hu. cbn in Hu. rewrite lookup_insert_eq in Hu. congruence. }
    split.
    { right. destruct Hwr as [[-> ->]|(u & u' & Hu & -> & Hq' & Hb')].
      - exists t, t'. rewrite app_nil_r. by split_and!.
      - rewrite (Hwrote u Hu) in *. exists t, u'. rewrite put_put. split; [done|]. split; [done|].
        split; [by eapply quiet_trans|]. by rewrite Hb', Hb, app_assoc. }
    destruct r as [[]|]; [exact Hres..|]. destruct Hres as (H1 & H2 & H3 & H4 & H5 & H6 & u & u' & Hu & Hc & Hq' & Hb').
    rewrite (Hwrote u Hu) in *. split_and!; try done. exists t, u'. split; [done|].
    split; [rewrite Hc; cbn; by rewrite insert_insert_eq|]. split; [by eapply quiet_trans|]. by rewrite Hb', Hb, app_assoc.
  - exists dat, s1, (Ready (Err e)), [], s1. split; [done|]. split; [done|]. split; [done|]. split; [done|].
    split; [done|]. split; [|done]. left. split; [done|].
    revert E. unfold poll_write. destruct (connection_mut _ _) as [[t f]|]; [|by intros [= <- _]].
    case_ifs; [by intros [= <- _]..|]. destruct (send t dat) as [t' n]. by case_ifs.
  - destruct (Hpend eq_refl) as (H1 & H2 & H3 & H4 & t & t' & Et & Ec & Hq & Hb).
    exists dat, s1, Pending, [], s. split; [done|]. split; [done|]. split; [done|]. split; [done|]. split; [done|].
    split; [by left|]. destruct (proj1 Hp eq_refl) as (u & Hu & Hwr). rewrite Et in Hu. injection Hu as <-.
    split_and!; try done.
    + exists t'. rewrite Ec, lookup_insert_eq. split; [done|]. apply (qu_write _ _ Hq). by apply write_ready_waiting.
    + exists t, t'. rewrite app_nil_r. by split_and!.
Qed.
End safe.
