(* ===== verification/ReactorWake.v ===== *)
(** [dispatch_wakeups] of [tcp-core/src/runtime/reactor.rs]: it wakes exactly the
    futures that would complete, whatever order it visits the tables in, and
    announces each connection once. *)

From stdpp Require Import gmap relations.
From S2P Require Import Prelude Seq Time Buffers Congestion Endpoint Tcb TcbInv TcbStates TcbDemo TcbWork Iface IfaceSafe IfaceDrain IfaceProps Executor Socket Reactor ReactorSafe.

(** An iteration visits every key once. *)
Definition enumerates (f : gset Endpoint -> list Endpoint) : Prop :=
  forall X, NoDup (f X) /\ forall k, k ∈ f X <-> k ∈ X.
Record order_ok (ho : HashOrder) : Prop := {
  oo_timer : enumerates (ho_timer ho);
  oo_synced : enumerates (ho_synced ho);
  oo_connect : enumerates (ho_connect ho);
  oo_read : enumerates (ho_read ho);
  oo_write : enumerates (ho_write ho);
  oo_transmit : enumerates (ho_transmit ho);
}.

Definition some_order : HashOrder := mkOrder elements elements elements elements elements elements.
Lemma some_order_ok : order_ok some_order.
Proof.
  assert (H : enumerates elements) by (intros X; split; [apply NoDup_elements|intros k; apply elem_of_elements]).
  by split.
Qed.

Section wake.
Context {C T : Type} `{CC : CongestionControl C} {CL : CongestionLaws C}.

(** *** One registry *)

Definition is_ready (ready : Tcb C -> bool) (cs : gmap Endpoint (Tcb C)) (ep : Endpoint) : bool :=
  match cs !! ep with Some t => ready t | None => true end.

(** The wakers a sweep takes, in the order it wakes them. *)
Definition taken (ready : Tcb C -> bool) (cs : gmap Endpoint (Tcb C)) (ws : gmap Endpoint Waker)
    (keys : list Endpoint) : list Waker :=
  omap (fun ep => if is_ready ready cs ep then ws !! ep else None) keys.

Lemma taken_delete ready cs ws ep keys :
  ep ∉ keys -> taken ready cs (delete ep ws) keys = taken ready cs ws keys.
Proof.
  unfold taken. induction keys as [|k keys IH]; intros Hn; cbn; [done|].
  apply not_elem_of_cons in Hn as [Hk Hn]. rewrite lookup_delete_ne by done. rewrite IH by done. done.
Qed.

Lemma sweep_spec ready keys cs ws (ex : Executor T) :
  NoDup keys -> (forall ep, is_Some (ws !! ep) -> ep ∈ keys) ->
  exists ws', sweep ready keys cs ws ex = (ws', ex <| woken := woken ex ++ taken ready cs ws keys |>) /\
    forall ep, ws' !! ep = if is_ready ready cs ep then None else ws !! ep.
Proof.
  intros Hnd Hin.
  assert (Hgen : exists ws', sweep ready keys cs ws ex = (ws', ex <| woken := woken ex ++ taken ready cs ws keys |>) /\
    forall ep, ws' !! ep = if bool_decide (ep ∈ keys) && is_ready ready cs ep then None else ws !! ep).
  { clear Hin. revert ws ex Hnd. induction keys as [|k keys IH]; intros ws ex Hnd; cbn [sweep].
    { exists ws. split; [|done]. cbn. rewrite app_nil_r. by destruct ex. }
    apply list.NoDup_cons in Hnd as [Hk Hnd]. fold (is_ready ready cs k).
    assert (Hc : forall ep, ep <> k -> bool_decide (ep ∈ k :: keys) = bool_decide (ep ∈ keys)).
    { intros ep Hn. apply bool_decide_ext. rewrite elem_of_cons. tauto. }
    assert (Hh : bool_decide (k ∈ keys) = false /\ bool_decide (k ∈ k :: keys) = true).
    { split; [by apply bool_decide_false|apply bool_decide_true; by left]. }
    destruct Hh as [Hh1 Hh2].
    assert (Hskip : (if is_ready ready cs k then ws !! k else None) = None ->
      exists ws', sweep ready keys cs ws ex = (ws', ex <| woken := woken ex ++ taken ready cs ws (k :: keys) |>) /\
        forall ep, ws' !! ep = if bool_decide (ep ∈ k :: keys) && is_ready ready cs ep then None else ws !! ep).
    { intros Hnone. destruct (IH ws ex Hnd) as (ws' & E & H). exists ws'. split.
      - rewrite E. unfold taken at 2. cbn [omap list_omap]. by rewrite Hnone.
      - intros ep. rewrite H. destruct (decide (ep = k)) as [->|Hn]; [|by rewrite Hc].
        rewrite Hh1, Hh2. cbn [andb]. by destruct (is_ready ready cs k). }
    destruct (is_ready ready cs k) eqn:Er; [|by apply Hskip].
    destruct (ws !! k) as [w|] eqn:Ew; [|by apply Hskip].
    destruct (IH (delete k ws) (wake ex w) Hnd) as (ws' & E & H). exists ws'. split.
    - rewrite E, taken_delete by done. unfold taken at 2. cbn [omap list_omap]. rewrite Er, Ew. cbn.
      by rewrite <- app_assoc.
    - intros ep. rewrite H. destruct (decide (ep = k)) as [->|Hn].
      + rewrite Hh1, Hh2, Er. cbn. apply lookup_delete_eq.
      + by rewrite Hc, lookup_delete_ne. }
  destruct Hgen as (ws' & E & H). exists ws'. split; [done|]. intros ep. rewrite H.
  destruct (is_ready ready cs ep) eqn:Er; [|by rewrite andb_false_r]. rewrite andb_true_r.
  case_bool_decide as Hk; [done|]. destruct (ws !! ep) eqn:Ew; [|done]. exfalso. apply Hk, Hin. by eexists.
Qed.

Lemma taken_elem ready cs ws keys w :
  w ∈ taken ready cs ws keys <-> exists ep, ep ∈ keys /\ is_ready ready cs ep = true /\ ws !! ep = Some w.
Proof.
  unfold taken. rewrite list_elem_of_omap. split.
  - intros (ep & Hk & He). exists ep. by destruct (is_ready ready cs ep).
  - intros (ep & Hk & Hr & He). exists ep. by rewrite Hr.
Qed.

(** *** Announcing *)

Lemma synced_elem keys (st : Stack C) ep :
  ep ∈ synced keys st <-> ep ∈ keys /\ exists t, conns st !! ep = Some t /\
    is_synchronized t = true /\ ep_port (Tcb.local t) = ep_port (Iface.local st).
Proof.
  unfold synced. rewrite list_elem_of_filter. split.
  - intros [H Hk]. split; [done|]. destruct (conns st !! ep) as [t|]; [|done]. exists t.
    apply andb_true_iff in H as [H1 H2]. split; [done|]. split; [done|lia].
  - intros [Hk (t & -> & -> & E)]. split; [|done]. cbn [andb]. lia.
Qed.

(** Each key is queued at most once, and never twice while it stays announced. *)
Lemma announce_spec eps (s : ReactorState C) :
  NoDup eps ->
  announce eps s = s <| announced := list_to_set eps ∪ announced s |>
                     <| accept_queue := accept_queue s ++ filter (fun ep => ep ∉ announced s) eps |>.
Proof.
  revert s. induction eps as [|ep eps IH]; intros s Hnd; cbn [announce].
  { cbn. rewrite app_nil_r, union_empty_l_L. by destruct s. }
  apply list.NoDup_cons in Hnd as [Hk Hnd]. rewrite IH by done. cbn [list_to_set]. rewrite filter_cons.
  destruct (decide (ep ∈ announced s)) as [Hin|Hin].
  - rewrite decide_False by tauto.
    by replace ({[ep]} ∪ list_to_set eps ∪ announced s) with (list_to_set eps ∪ announced s) by set_solver.
  - rewrite decide_True by done. cbn [set announced accept_queue].
    replace (list_to_set eps ∪ ({[ep]} ∪ announced s)) with ({[ep]} ∪ list_to_set eps ∪ announced s) by set_solver.
    assert (Ef : filter (fun k => k ∉ {[ep]} ∪ announced s) eps = filter (fun k => k ∉ announced s) eps).
    { clear -Hk. induction eps as [|k eps IH]; [done|]. apply not_elem_of_cons in Hk as [Hn Hk]. rewrite !filter_cons.
      destruct (decide (k ∈ announced s)); [rewrite !decide_False by set_solver|rewrite !decide_True by set_solver]; by rewrite IH. }
    rewrite Ef, <- app_assoc. done.
Qed.

(** *** The dispatch *)

(** Past the handshake, on the listen port. *)
Definition accepted_here (st : Stack C) (ep : Endpoint) : Prop :=
  exists t, conns st !! ep = Some t /\ is_synchronized t = true /\ ep_port (Tcb.local t) = ep_port (Iface.local st).

Definition fresh (ho : HashOrder) (s : ReactorState C) : list Endpoint :=
  filter (fun ep => ep ∉ announced s) (synced (ho_synced ho (dom (conns (stack s)))) (stack s)).

Lemma fresh_elem ho s ep : order_ok ho -> ep ∈ fresh ho s <-> accepted_here (stack s) ep /\ ep ∉ announced s.
Proof.
  intros Hho. unfold fresh. rewrite list_elem_of_filter, synced_elem.
  destruct (oo_synced _ Hho (dom (conns (stack s)))) as [_ Hk]. rewrite Hk, elem_of_dom. unfold accepted_here.
  split; [intros (H1 & _ & H2); by split|intros [(t & Ht & H) H1]]. split; [done|]. split; [by eexists|by exists t].
Qed.
Lemma fresh_NoDup ho s : order_ok ho -> NoDup (fresh ho s).
Proof. intros Hho. unfold fresh, synced. by do 2 apply list.NoDup_filter; apply (oo_synced _ Hho). Qed.

Record dispatched (ho : HashOrder) (s s' : ReactorState C) (ex ex' : Executor T) : Prop := {
  di_stack : stack s' = stack s;
  di_now : Socket.now s' = Socket.now s;
  di_read ep : read_wakers s' !! ep = if is_ready read_ready (conns (stack s)) ep then None else read_wakers s !! ep;
  di_write ep : write_wakers s' !! ep = if is_ready write_ready (conns (stack s)) ep then None else write_wakers s !! ep;
  di_connect ep : connect_wakers s' !! ep = if is_ready connect_ready (conns (stack s)) ep then None else connect_wakers s !! ep;
  di_announced ep : ep ∈ announced s' <-> is_Some (conns (stack s) !! ep) /\ (ep ∈ announced s \/ accepted_here (stack s) ep);
  di_queue : accept_queue s' = filter (fun ep => ep ∈ dom (conns (stack s))) (accept_queue s ++ fresh ho s);
  di_accept : accept_waker s' = match accept_queue s ++ fresh ho s with [] => accept_waker s | _ => None end;
  di_exec : exists ws, ex' = ex <| woken := woken ex ++ ws |> /\ forall w, w ∈ ws <->
    accept_waker s = Some w /\ accept_queue s ++ fresh ho s <> [] \/
    (exists ep, is_ready connect_ready (conns (stack s)) ep = true /\ connect_wakers s !! ep = Some w) \/
    (exists ep, is_ready read_ready (conns (stack s)) ep = true /\ read_wakers s !! ep = Some w) \/
    (exists ep, is_ready write_ready (conns (stack s)) ep = true /\ write_wakers s !! ep = Some w);
}.

Lemma keys_cover (f : gset Endpoint -> list Endpoint) (ws : gmap Endpoint Waker) ep :
  enumerates f -> is_Some (ws !! ep) -> ep ∈ f (dom ws).
Proof. intros Hf Hs. apply (Hf (dom ws)). by apply elem_of_dom. Qed.

Lemma taken_all ready cs (f : gset Endpoint -> list Endpoint) ws w :
  enumerates f -> w ∈ taken ready cs ws (f (dom ws)) <-> exists ep, is_ready ready cs ep = true /\ ws !! ep = Some w.
Proof.
  intros Hf. rewrite taken_elem. split; [intros (ep & _ & H); by exists ep|]. intros (ep & H1 & H2).
  exists ep. split; [|done]. apply keys_cover; [done|by eexists].
Qed.

Lemma dispatch_spec ho (s : ReactorState C) (ex : Executor T) :
  order_ok ho -> exists s' ex', dispatch_wakeups ho s ex = (s', ex') /\ dispatched ho s s' ex ex'.
Proof.
  intros Hho. unfold dispatch_wakeups.
  set (eps := synced _ _). assert (Hnd : NoDup eps) by (unfold eps, synced; apply list.NoDup_filter, (oo_synced _ Hho)).
  assert (Heps : forall ep, ep ∈ eps <-> accepted_here (stack s) ep).
  { intros ep. unfold eps. rewrite synced_elem. destruct (oo_synced _ Hho (dom (conns (stack s)))) as [_ Hk].
    rewrite Hk, elem_of_dom. split; [by intros [_ H]|]. intros (t & Ht & H). split; [by eexists|by exists t]. }
  rewrite announce_spec by done. fold (fresh ho s).
  set (s1 := s <| announced := _ |> <| accept_queue := _ |>).
  set (aw := match accept_queue s ++ fresh ho s with [] => accept_waker s | _ => None end).
  assert (Ewake : exists aws, wake_accept s1 ex = (s1 <| accept_waker := aw |>, ex <| woken := woken ex ++ aws |>) /\
    forall w, w ∈ aws <-> accept_waker s = Some w /\ accept_queue s ++ fresh ho s <> []).
  { unfold wake_accept, aw. change (accept_queue s1) with (accept_queue s ++ fresh ho s).
    change (accept_waker s1) with (accept_waker s). destruct (accept_queue s ++ fresh ho s).
    - exists []. split; [rewrite app_nil_r; by destruct ex|]. intros w. rewrite elem_of_nil. tauto.
    - destruct (accept_waker s) as [w0|] eqn:E0.
      + exists [w0]. split; [done|]. intros w. rewrite list_elem_of_singleton. split; [intros ->; by split|]. by intros [[= ->] _].
      + exists []. split; [|intros w; rewrite elem_of_nil; split; [done|by intros [? _]]].
        rewrite app_nil_r. f_equal; [unfold s1; rewrite <- E0; by destruct s|by destruct ex]. }
  destruct Ewake as (aws & -> & Haws).
  change (stack (s1 <| accept_waker := aw |>)) with (stack s). cbn [set connect_wakers].
  destruct (sweep_spec connect_ready (ho_connect ho (dom (connect_wakers s))) (conns (stack s)) (connect_wakers s)
    (ex <| woken := woken ex ++ aws |>)) as (cw & Ec & Hc); [apply (oo_connect _ Hho)|intros; apply keys_cover; [apply Hho|done]|].
  change (connect_wakers s1) with (connect_wakers s). rewrite Ec. cbn [set read_wakers].
  change (read_wakers s1) with (read_wakers s).
  match goal with |- context [sweep read_ready _ _ _ ?e] =>
    destruct (sweep_spec read_ready (ho_read ho (dom (read_wakers s))) (conns (stack s)) (read_wakers s) e)
      as (rw & Er & Hr); [apply (oo_read _ Hho)|intros; apply keys_cover; [apply Hho|done]|] end.
  rewrite Er. cbn [set write_wakers]. change (write_wakers s1) with (write_wakers s).
  match goal with |- context [sweep write_ready _ _ _ ?e] =>
    destruct (sweep_spec write_ready (ho_write ho (dom (write_wakers s))) (conns (stack s)) (write_wakers s) e)
      as (ww & Ew & Hw); [apply (oo_write _ Hho)|intros; apply keys_cover; [apply Hho|done]|] end.
  rewrite Ew. eexists _, _. split; [reflexivity|]. split; try done.
  - intros ep. cbn. rewrite elem_of_intersection, elem_of_union, elem_of_list_to_set, Heps, elem_of_dom. tauto.
  - cbn [set woken]. eexists. split; [by rewrite <- !app_assoc|]. intros w.
    rewrite !elem_of_app, Haws, !taken_all by apply Hho. tauto.
Qed.

Lemma is_ready_false ready (cs : gmap Endpoint (Tcb C)) ep :
  is_ready ready cs ep = false <-> exists t, cs !! ep = Some t /\ ready t = false.
Proof.
  unfold is_ready. destruct (cs !! ep) as [t|]; [|split; [done|by intros (? & ? & _)]].
  split; [intros E; by exists t|]. by intros (u & [= <-] & E).
Qed.

(** After a dispatch no registered waker is late. *)
Lemma dispatched_waiting ho (s s' : ReactorState C) (ex ex' : Executor T) :
  dispatched ho s s' ex ex' -> waiting s'.
Proof.
  intros [H1 _ H3 H4 H5 _ H7 H8 _].
  assert (Hb : forall ready (ws ws' : gmap Endpoint Waker),
    (forall ep, ws' !! ep = if is_ready ready (conns (stack s)) ep then None else ws !! ep) ->
    forall ep w, ws' !! ep = Some w -> exists t, conns (stack s') !! ep = Some t /\ ready t = false).
  { intros ready ws ws' Hw ep w E. rewrite Hw in E. rewrite H1. apply is_ready_false.
    by destruct (is_ready ready (conns (stack s)) ep). }
  split.
  - rewrite H7, H8. destruct (accept_queue s ++ fresh ho s); [by right|by left].
  - by apply (Hb _ (read_wakers s)).
  - intros ep w E. destruct (Hb _ (write_wakers s) _ H4 ep w E) as (t & Ht & Hr). exists t. split; [done|].
    by apply write_ready_waiting.
  - by apply (Hb _ (connect_wakers s)).
Qed.

Context (Cc_new : CcKind -> Z -> C).
Context (Cc_new_ok : forall k m, 0 < m <= U16_MAX -> cc_ok m (Cc_new k m)).

(** What a dispatch does to one registered waker [w]: gone and woken if its
    future completes when polled now, kept if it does not. *)
Definition served {A} (r : Poll A) (kept : option Waker) (w : Waker) (ex' : Executor T) : Prop :=
  match r with Pending => kept = Some w | Ready _ => kept = None /\ w ∈ woken ex' end.

Lemma served_intro {A} (r : Poll A) (b : bool) (ws ws' : option Waker) w (ex' : Executor T) :
  ws = Some w -> ws' = (if b then None else ws) -> (r = Pending <-> b = false) -> (b = true -> w ∈ woken ex') ->
  served r ws' w ex'.
Proof. intros -> -> Hr Hw. destruct b, r; cbn; try done; [split; [done|by apply Hw]| |]; by destruct Hr; intuition. Qed.

End wake.

(** *** A concrete dispatch: a reader and a writer parked on the demo connection. *)
Definition demo_reactor : ReactorState Reno.Reno :=
  mkReactor demo_stack {[demo_remote := 7]} {[demo_remote := 8]} ∅ (Some 9) [] 5 ∅.

Lemma demo_reactor_ok : reactor_ok demo_reactor.
Proof. split; [exact demo_stack_ok|]. apply map_Forall_singleton. done. Defined.

