(* ===== verification/ReactorTurn.v ===== *)
(** One turn of the event loop ([Runtime::turn] of
    [tcp-core/src/runtime/reactor.rs]): it returns, keeps every invariant, and
    leaves no future asleep that could complete.  The device and the application
    are behind interfaces ([DeviceLaws], [ClientLaws]). *)

From stdpp Require Import gmap relations.
From S2P Require Import Prelude Seq Time Buffers Isn Checksum Ipv4 Icmp TcpWire Congestion Endpoint Tcb TcbInv TcbSegment TcbStates TcbPoll TcbLife TcbDemo TcbWork TcbEnds Iface IfaceSafe IfaceDrain IfaceProps Executor Socket Reactor ReactorSafe ReactorWake.
Import RingBuffer (RingBuffer, mkRing, buf, capacity).

(** ** Interfaces *)

(** What the reactor relies on in a device: a datagram fits the buffer it is
    read into, its octets are octets, and the device runs dry. *)
Class DeviceLaws (D E : Type) `{Device D E} := {
  dev_ok : D -> Prop;
  dev_backlog : D -> nat;
  dev_send_ok d pkt : dev_ok d ->
    dev_ok (fst (dev_send (E := E) d pkt)) /\ dev_backlog (fst (dev_send (E := E) d pkt)) = dev_backlog d;
  dev_recv_ok d rx d' rx' (r : Result (option Z) E) :
    dev_ok d -> bytes_ok rx -> dev_recv d rx = (d', rx', r) ->
    dev_ok d' /\ bytes_ok rx' /\ zlen rx' = zlen rx /\
    forall n, r = Ok (Some n) -> 0 <= n <= zlen rx /\ (dev_backlog d' < dev_backlog d)%nat;
}.

#[export] Instance Mock_laws {E} : DeviceLaws MockDevice E.
Proof.
  refine {| dev_ok := fun d => Forall bytes_ok (inbound d); dev_backlog := fun d => length (inbound d) |}.
  - done.
  - intros d rx d' rx' r Hd Hrx. cbn. unfold Mock.recv. destruct (inbound d) as [|frame rest] eqn:Ei.
    + intros [= <- <- <-]. rewrite Ei. by split_and!.
    + assert (Hf : bytes_ok frame /\ Forall bytes_ok rest) by (by inversion Hd; subst). destruct Hf as [Hf Hr]. intros [= <- <- <-]. pose proof (zlen_nonneg frame). pose proof (zlen_nonneg rx).
      split; [done|]. split.
      { apply Forall_app. split; [by apply Forall_take|by apply Forall_drop]. }
      split. { rewrite zlen_app, zlen_ztake, zlen_zdrop. lia. }
      intros n [= <-]. split; [lia|]. cbn. lia.
Defined.

(** What the reactor relies on in an application: its state between turns
    ([cl_idle]) does not speak of the stack, and a dispatch from there leaves the
    executor ready to run, nobody stranded, while task ids last ([cl_room]). *)
Class ClientLaws (C T : Type) `{CC : CongestionControl C} {CL : CongestionLaws C}
    {AP : Application T (ReactorState C)} {AL : ApplicationLaws T (ReactorState C)} := {
  cl_idle : ReactorState C -> Executor T -> Prop;
  cl_room : ReactorState C -> Executor T -> Prop;
  cl_sound s ex : app_inv s ex -> reactor_ok s /\ waiting s;
  cl_stack s ex st nw : cl_idle s ex -> cl_idle (s <| stack := st |> <| Socket.now := nw |>) ex;
  cl_wake ho s ex s' ex' : order_ok ho -> cl_idle s ex -> reactor_ok s -> dispatched ho s s' ex ex' ->
    cl_room s' ex' -> app_inv s' ex' /\ none_stranded [] s' ex';
  cl_sleep s ex : app_inv s ex -> (forall k f, tasks ex !! k = Some f -> app_parked k f s) -> cl_idle s ex;
}.

Section stack.
Context {C : Type} `{CC : CongestionControl C} {CL : CongestionLaws C}.
Context (Cc_new : CcKind -> Z -> C).
Context (Cc_new_ok : forall k m, 0 < m <= U16_MAX -> cc_ok m (Cc_new k m)).

(** *** The stack's steps keep closed what was reset *)

Lemma on_timer_reset_closed (t t' : Tcb C) now : Tcb.on_timer t now = Some t' -> reset_closed t -> reset_closed t'.
Proof.
  unfold Tcb.on_timer. destruct (fire_rtx t now) as [t1|] eqn:E; [|done].
  assert (H1 : reset t1 = reset t /\ (state t1 = state t \/ state t1 = Closed)).
  { revert E. unfold fire_rtx. intros H. walk H; try (by auto). case_ifs; auto. }
  destruct H1 as [H1 H2]. intros [= <-] Hr. unfold reset_closed in *.
  case_ifs; cbn; rewrite ?H1; intros Hx; try done; destruct H2 as [H2|H2]; rewrite H2; auto.
Qed.

Definition resets_closed (st : Stack C) : Prop := map_Forall (fun _ t => reset_closed t) (conns st).

Lemma on_timer_resets (st st' : Stack C) keys now :
  stack_ok st -> iteration keys (conns st) -> map_Forall (fun _ t => timeouts_left t) (conns st) ->
  Iface.on_timer st keys now = Some st' -> resets_closed st -> stack_ok st' /\ resets_closed st'.
Proof.
  intros Hok Hit Hl E Hr. destruct (on_timer_stack_core st keys now Hok Hit Hl) as (s1 & E1 & Hok1 & Es & _).
  rewrite E in E1. injection E1 as ->. split; [done|]. rewrite Es. intros k t' Hk. cbn in Hk.
  apply lookup_omap_Some in Hk as (t & Ht & Hk). eapply on_timer_reset_closed; [exact Ht|exact (Hr k t Hk)].
Qed.

Lemma on_recv_resets (st : Stack C) now b ip :
  stack_ok st -> bytes_ok b -> Ipv4.new_checked b = Some (Ok ip) -> polite st ip -> resets_closed st ->
  exists st', on_recv Cc_new st now ip = Some st' /\ stack_ok st' /\ resets_closed st'.
Proof.
  intros Hok Hb Hn Hp Hr.
  destruct (on_recv_core Cc_new Cc_new_ok st now b ip Hok Hb Hn Hp) as (st' & E & Hok' & Hres).
  exists st'. split; [done|]. split; [done|].
  destruct Hres as [[-> _]|(remote & dport & tcp & x & ce & Ha & Hd)]; [done|].
  specialize (Hp _ _ _ _ Ha). unfold demuxed in Hd. unfold resets_closed.
  destruct (conns st !! remote) as [t|] eqn:Et.
  - destruct (dport =? _); [|by subst]. destruct Hd as (t' & Es & ->). cbn. apply map_Forall_insert_2; [|done].
    eapply (on_segment_reset_closed Cc_new Cc_new_ok); [|exact (ac_reads _ _ _ _ _ _ Ha)|exact Hp|exact Es|exact (Hr _ _ Et)].
    exact (en_tcb _ _ _ (sk_conns _ Hok _ _ Et)).
  - destruct (negb _); [by subst|]. destruct (opens x).
    + destruct Hd as (t & -> & _ & Hres & _). cbn. apply map_Forall_insert_2; [|done]. intros Hx. congruence.
    + destruct (TcpFlags.rst _); [by subst|]. destruct Hd as (frame & -> & _). done.
Qed.

(** Draining keeps what every waiter waits for. *)
Lemma emitted_quiet (t t' : Tcb C) : emitted t t' ->
  (read_ready t = false -> read_ready t' = false) /\ (write_waiting t -> write_waiting t') /\
  (connect_ready t = false -> connect_ready t' = false) /\ (reset_closed t -> reset_closed t').
Proof.
  intros [K H]. unfold kept, ident in K. injection K as _ _ _ _ Ktx Krx Kp Kr _ _.
  unfold read_ready, rx_available, recv_eof, write_waiting, tx_free, writable, connect_ready, is_synchronized,
    reset_closed, state_eqb. rewrite Ktx, Krx, Kp, Kr.
  assert (Hcase : state t' = state t /\ (fin_seq t' = fin_seq t \/ is_some (fin_seq t') = true) \/
    is_some (fin_seq t') = true /\ (state t = Established /\ state t' = FinWait1 \/ state t = CloseWait /\ state t' = LastAck)).
  { destruct H as [[Hs Hf]|(Hf & _ & Hs)]; [left; by auto|]. destruct (state t); auto. }
  clear H. destruct Hcase as [[Hs Hf]|[Hf [[H1 H2]|[H1 H2]]]].
  - rewrite Hs. split; [done|]. split; [|done]. intros [Hz Hw]. split; [done|].
    destruct Hw as [?|[? Hw]]; [by left|right]. split; [done|]. destruct Hf as [Hf|Hf]; [by rewrite Hf|done].
  - rewrite H1, H2. split; [done|]. split; [|split; [done|intros Hc Hr; discriminate (Hc Hr)]].
    intros [Hz _]. split; [done|]. right. split; [by left|done].
  - rewrite H1, H2. split; [done|]. split; [|split; [done|intros Hc Hr; discriminate (Hc Hr)]].
    intros [Hz _]. split; [done|]. right. split; [by right|done].
Qed.

Lemma poll_transmit_waiting (s : ReactorState C) st keys now out out' :
  reactor_ok s -> waiting s -> iteration keys (conns (stack s)) ->
  Iface.poll_transmit (stack s) keys now out = Some (st, out') ->
  reactor_ok (s <| stack := st |>) /\ waiting (s <| stack := st |>).
Proof.
  intros [Hok Hr] [W1 W2 W3 W4] Hit E.
  destruct (poll_transmit_stack_core (stack s) keys now out Hok Hit) as (st1 & E1 & Es & Hok1).
  rewrite E in E1. injection E1 as -> _.
  assert (Hst : forall k t', conns st1 !! k = Some t' -> exists t, conns (stack s) !! k = Some t /\ emitted t t').
  { intros k t' Hk. rewrite Es in Hk. cbn in Hk. apply lookup_omap_Some in Hk as (t & Ht & Hk). exists t. split; [done|].
    pose proof (settled_emits now t (en_tcb _ _ _ (sk_conns _ Hok _ _ Hk))) as He. by rewrite Ht in He. }
  assert (Hlive : forall k t, conns (stack s) !! k = Some t -> state t <> Closed -> exists t', conns st1 !! k = Some t' /\ emitted t t').
  { intros k t Hk Hn. rewrite Es. cbn. rewrite lookup_omap, Hk. cbn.
    pose proof (settled_emits now t (en_tcb _ _ _ (sk_conns _ Hok _ _ Hk))) as He. destruct (settled now t) as [t'|]; [|done]. by exists t'. }
  assert (Hmove : forall (P : Tcb C -> Prop) k, (forall t t', emitted t t' -> P t -> P t') -> (forall t, P t -> state t <> Closed) ->
    (exists t, conns (stack s) !! k = Some t /\ P t) -> exists t, conns st1 !! k = Some t /\ P t).
  { intros P k Hq Hc (t & Hk & Ht). destruct (Hlive k t Hk (Hc t Ht)) as (t' & Hk' & He). exists t'. split; [done|]. by eapply Hq. }
  split; [split; [done|]|split; [done|..]].
  - intros k t' Hk. destruct (Hst k t' Hk) as (t & Hk0 & He). apply (emitted_quiet t t' He). exact (Hr k t Hk0).
  - intros ep w Hep. apply Hmove; [intros t t' He; apply (emitted_quiet t t' He)| |by eapply W2].
    intros t. unfold read_ready, state_eqb. intros Hf Hc. rewrite Hc, bool_decide_true, orb_true_r in Hf; done.
  - intros ep w Hep. apply Hmove; [intros t t' He; apply (emitted_quiet t t' He)| |by eapply W3].
    intros t [_ [Hw|[[Hw|Hw] _]]] Hc; [|congruence..]. unfold writable in Hw. by rewrite Hc in Hw.
  - intros ep w Hep. apply Hmove; [intros t t' He; apply (emitted_quiet t t' He)| |by eapply W4].
    intros t. unfold connect_ready, state_eqb. intros Hf Hc. rewrite Hc, bool_decide_true, orb_true_r in Hf; done.
Qed.
End stack.

Section turn.
Context {D C T E : Type} `{DV : Device D E} `{DL : !DeviceLaws D E}.
Context `{CC : CongestionControl C} {CL : CongestionLaws C}.
Context (Cc_new : CcKind -> Z -> C).
Context (Cc_new_ok : forall k m, 0 < m <= U16_MAX -> cc_ok m (Cc_new k m)).

(** *** Ingress *)

(** The datagrams are [polite], whatever the
    datagrams before did. *)
Definition polite_datagram (st : Stack C) (b : list Z) : Prop :=
  forall ip, Ipv4.new_checked b = Some (Ok ip) -> polite st ip.

Fixpoint polite_ingress (fuel : nat) (now : Instant) (d : D) (rx tx : list Z) (st : Stack C) : Prop :=
  match fuel with
  | O => True
  | S fuel =>
      let '(d, rx, r) := dev_recv (E := E) d rx in
      forall n b d' tx' st', r = Ok (Some n) -> slice rx 0 n = Some b -> polite_datagram st b /\
        (ingest (E := E) Cc_new now b d tx st = Some (d', tx', st') -> polite_ingress fuel now d' rx tx' st')
  end.

Lemma ingest_ok now b (d : D) tx (st : Stack C) :
  dev_ok d -> bytes_ok b -> polite_datagram st b -> stack_ok st -> resets_closed st ->
  exists d' tx' st', ingest (E := E) Cc_new now b d tx st = Some (d', tx', st') /\ dev_ok d' /\
    dev_backlog d' = dev_backlog d /\ zlen tx' = zlen tx /\ stack_ok st' /\ resets_closed st'.
Proof.
  intros Hd Hb Hp Hok Hr. unfold ingest. destruct (Ipv4.ipv4_new_checked_cases b) as (r & Er & _). rewrite Er.
  destruct r as [ip|e]; [|by exists d, tx, st].
  destruct (datagram_fields b ip Hb Er) as (proto & _ & _ & _ & body & Ep & _ & _ & _ & _). rewrite Ep.
  destruct (proto =? IPPROTO_ICMP).
  - destruct (echo_reply_spec b ip tx Hb Er) as (r & Ere & Hiff & Hyes). rewrite Ere.
    destruct r as [[tx' len]|]; [|by exists d, tx, st].
    destruct (proj1 Hiff ltac:(by eexists)) as [request Hreq].
    destruct (Hyes request Hreq) as (out' & p' & [= -> ->] & Hl & _). destruct Hreq as (_ & _ & H8 & _ & Hfit).
    rewrite slice_Some by (unfold Ipv4.HEADER_LEN, Ipv4.IPV4_MIN_HEADER_LEN, ICMP_ECHO_MIN_LEN in *; lia).
    match goal with |- context [dev_send d ?pkt] => destruct (dev_send_ok d pkt Hd) as [H1 H2]; exists (fst (dev_send (E := E) d pkt)) end.
    by exists out', st.
  - destruct (proto =? IPPROTO_TCP); [|by exists d, tx, st].
    destruct (on_recv_resets Cc_new Cc_new_ok st now b ip Hok Hb Er (Hp ip Er) Hr) as (st' & E1 & H1 & H2). rewrite E1.
    by exists d, tx, st'.
Qed.

Lemma ingress_ok fuel now (d : D) rx tx (st : Stack C) :
  dev_ok d -> bytes_ok rx -> stack_ok st -> resets_closed st -> (dev_backlog d < fuel)%nat ->
  polite_ingress fuel now d rx tx st ->
  exists d' rx' tx' st' r, ingress (E := E) Cc_new fuel now d rx tx st = Some (d', rx', tx', st', r) /\
    dev_ok d' /\ bytes_ok rx' /\ zlen rx' = zlen rx /\ zlen tx' = zlen tx /\ stack_ok st' /\ resets_closed st'.
Proof.
  revert d rx tx st. induction fuel as [|fuel IH]; intros d rx tx st Hd Hb Hok Hr Hf Hp; [lia|].
  cbn [ingress polite_ingress] in *. destruct (dev_recv d rx) as [[d1 rx1] r] eqn:E1.
  destruct (dev_recv_ok d rx d1 rx1 r Hd Hb E1) as (Hd1 & Hb1 & Hl1 & Hn).
  destruct r as [[n|]|e]; [|by eexists _, _, _, _, _|by eexists _, _, _, _, _].
  destruct (Hn n eq_refl) as [Hn1 Hn2]. rewrite slice_Some by lia.
  set (b := ztake _ _). assert (Hbb : bytes_ok b) by (unfold b, ztake, zdrop; by apply Forall_take, Forall_drop).
  assert (Hsl : slice rx1 0 n = Some b) by (by rewrite slice_Some by lia).
  assert (Hpol : polite_datagram st b).
  { by apply (Hp n b d tx st eq_refl Hsl). }
  destruct (ingest_ok now b d1 tx st Hd1 Hbb Hpol Hok Hr) as (d2 & tx2 & st2 & E2 & Hd2 & Hk2 & Hl2 & Hok2 & Hr2).
  rewrite E2. destruct (Hp n b d2 tx2 st2 eq_refl Hsl) as [_ Hnext].
  destruct (IH d2 rx1 tx2 st2 Hd2 Hb1 Hok2 Hr2) as (d' & rx' & tx' & st' & r & E3 & H1 & H2 & H3 & H4 & H5 & H6);
    [lia|by apply Hnext|].
  exists d', rx', tx', st', r. split; [done|]. split_and!; congruence || done.
Qed.

(** *** The turn *)

Context {AP : Application T (ReactorState C)} {AL : ApplicationLaws T (ReactorState C)} {CLI : ClientLaws C T}.

Record runtime_ok (self : Runtime D C T) : Prop := {
  rt_reactor : reactor_ok (r_state self);
  rt_client : cl_idle (r_state self) (r_exec self);
  rt_device : dev_ok (device self);
  rt_rx : bytes_ok (r_rx self);
}.

Lemma flush_ok pkts (d : D) : dev_ok d -> dev_ok (flush (E := E) d pkts).
Proof.
  unfold flush. revert d. induction pkts as [|pkt pkts IH]; intros d Hd; [done|]. cbn. apply IH. by apply dev_send_ok.
Qed.

Lemma order_iteration (f : gset Endpoint -> list Endpoint) (cs : gmap Endpoint (Tcb C)) :
  enumerates f -> iteration (f (dom cs)) cs.
Proof. intros Hf. destruct (Hf (dom cs)) as [H1 H2]. split; [done|]. intros k. by rewrite H2, elem_of_dom. Qed.

(** The shared state once timers have fired and every datagram is in. *)
Definition ingested (fuel : nat) (ho : HashOrder) (now : Instant) (self : Runtime D C T) (s' : ReactorState C) : Prop :=
  exists st d rx tx st' r,
    Iface.on_timer (stack (r_state self)) (ho_timer ho (dom (conns (stack (r_state self))))) now = Some st /\
    ingress (E := E) Cc_new fuel now (device self) (r_rx self) (r_tx self) st = Some (d, rx, tx, st', r) /\
    s' = (r_state self) <| Socket.now := now |> <| stack := st' |>.

(** A turn returns, with enough fuel for the datagrams
    that wait and for the wake-ups they cause, whatever [polite] datagrams the
    device delivers, whatever order the tables are visited in
    and whatever the tasks do: the table stays sound, the executor goes idle with
    nothing left to run, and no registered future could complete.  A device
    failure ends the turn early with everything still sound. *)
Lemma turn_strands_no_future (self : Runtime D C T) ho now fuel :
  runtime_ok self -> order_ok ho ->
  map_Forall (fun _ t => timeouts_left t) (conns (stack (r_state self))) ->
  (forall st, Iface.on_timer (stack (r_state self)) (ho_timer ho (dom (conns (stack (r_state self))))) now = Some st ->
    polite_ingress fuel now (device self) (r_rx self) (r_tx self) st) ->
  (dev_backlog (device self) < fuel)%nat ->
  (forall s s' ex', ingested fuel ho now self s -> dispatched ho s s' (r_exec self) ex' -> cl_room s' ex') ->
  exists rfuel, forall more, exists self' r,
    turn (E := E) Cc_new fuel (rfuel + more) ho now self = Some (self', r) /\ runtime_ok self' /\
    match r with
    | Ok _ => waiting (r_state self') /\ woken (r_exec self') = []
    | Err _ => r_exec self' = r_exec self
    end.
Proof.
  intros [[Hok Hr] Hid Hdev Hrx] Hho Hl Hp Hf Hroom. unfold turn. cbv zeta.
  destruct self as [d s ex rx tx eg]. cbn [device r_state r_exec r_rx r_tx egress] in *.
  change (stack (s <| Socket.now := now |>)) with (stack s).
  pose proof (order_iteration (ho_timer ho) (conns (stack s)) (oo_timer _ Hho)) as Hit.
  destruct (on_timer_stack_core (stack s) _ now Hok Hit Hl) as (st1 & E1 & _). rewrite E1.
  destruct (on_timer_resets _ _ _ _ Hok Hit Hl E1 Hr) as [Hok1 Hr1].
  destruct (ingress_ok fuel now d rx tx st1 Hdev Hrx Hok1 Hr1 Hf (Hp st1 E1))
    as (d2 & rx2 & tx2 & st2 & r & E2 & Hd2 & Hb2 & _ & _ & Hok2 & Hr2).
  rewrite E2. set (s2 := s <| Socket.now := now |> <| stack := st2 |>).
  assert (Hs2 : reactor_ok s2) by (by split).
  assert (Hid2 : cl_idle s2 ex).
  { replace s2 with (s <| stack := st2 |> <| Socket.now := now |>) by (by destruct s). by apply cl_stack. }
  destruct r as [[]|e].
  2: { exists O. intros more. eexists _, (Err e). split; [reflexivity|]. by split. }
  destruct (dispatch_spec ho s2 ex Hho) as (s3 & ex3 & E3 & Hd3). cbn [set r_exec].
  rewrite E3.
  destruct (cl_wake ho s2 ex s3 ex3 Hho Hid2 Hs2 Hd3) as [Hi3 Hn3].
  { eapply Hroom; [|exact Hd3]. by exists st1, d2, rx2, tx2, st2, (Ok tt). }
  exists (S (app_credit s3 + length (woken ex3))). intros more.
  destruct (run_ready_core (S (app_credit s3 + length (woken ex3)) + more) s3 ex3 Hi3 Hn3 ltac:(lia))
    as (s4 & ex4 & E4 & Hi4 & Hw4 & Hp4).
  rewrite E4. destruct (cl_sound _ _ Hi4) as [Hs4 Hwt4].
  pose proof (order_iteration (ho_transmit ho) (conns (stack s4)) (oo_transmit _ Hho)) as Hit4.
  destruct (poll_transmit_stack_core (stack s4) _ now [] (ra_stack _ Hs4) Hit4) as (st5 & E5 & _).
  destruct (poll_transmit_waiting s4 st5 _ now [] _ Hs4 Hwt4 Hit4 E5) as [Hs5 Hwt5]. rewrite E5.
  eexists _, (Ok tt). split; [reflexivity|]. split; [|split; [exact Hwt5|exact Hw4]].
  split; [exact Hs5| |by apply flush_ok|exact Hb2]. cbn.
  replace (s4 <| stack := st5 |>) with (s4 <| stack := st5 |> <| Socket.now := Socket.now s4 |>) by (by destruct s4).
  apply cl_stack. by apply cl_sleep.
Qed.
End turn.
