(* ===== verification/Http.v ===== *)
(** The HTTP responder's request parsing and responses: [tcp-tun/src/http.rs].

    Octets are numbers, as everywhere in the development; a literal is written
    as a string and read through [bytes]. *)

From Stdlib Require Import Ascii String.
From S2P Require Import Prelude.

Definition bytes (s : string) : list Z := map (fun c => Z.of_N (N_of_ascii c)) (list_ascii_of_string s).
Definition CRLF : list Z := [13; 10].
Definition QUOTE : list Z := [34].
Definition SPACE : Z := 32.

Definition MAX_REQUEST : Z := 64 * 1024.
Definition BENCH_DEFAULT_MIB : Z := 16.
Definition CHUNK : Z := 64 * 1024.

(** *** Slices: [windows], [position], [split], [starts_with] *)

(** [l.windows(k)], for [k] at least 1. *)
Fixpoint windows (k : nat) (l : list Z) : list (list Z) :=
  match l with
  | [] => []
  | _ :: rest => if (length l <? k)%nat then [] else take k l :: windows k rest
  end.

Fixpoint position {A} (p : A -> bool) (l : list A) : option Z :=
  match l with
  | [] => None
  | x :: rest => if p x then Some 0 else match position p rest with Some i => Some (i + 1) | None => None end
  end.

(** [l.split(|&b| b == sep)] *)
Fixpoint split (sep : Z) (l : list Z) : list (list Z) :=
  match l with
  | [] => [[]]
  | b :: rest =>
      if b =? sep then [] :: split sep rest
      else match split sep rest with
           | part :: parts => (b :: part) :: parts
           | [] => [[b]]
           end
  end.

Definition eqb_bytes (a b : list Z) : bool := bool_decide (a = b).

Definition strip_prefix (p l : list Z) : option (list Z) :=
  if eqb_bytes (take (length p) l) p then Some (drop (length p) l) else None.

(** [str::parse::<usize>]: an optional plus sign and decimal digits within range.
    Octets that are not UTF-8 are not digits either, so [str::from_utf8] changes
    no outcome. *)
Fixpoint parse_digits (acc : Z) (l : list Z) : option Z :=
  match l with
  | [] => Some acc
  | d :: rest =>
      if (48 <=? d) && (d <=? 57) then
        let acc := acc * 10 + (d - 48) in
        if acc <=? U64_MAX then parse_digits acc rest else None
      else None
  end.
Definition parse_usize (l : list Z) : option Z :=
  match l with
  | [] => None
  | 43 :: [] => None
  | 43 :: rest => parse_digits 0 rest
  | _ => parse_digits 0 l
  end.

(** [format!] of a [usize]; [fuel] is one turn per digit. *)
Fixpoint digits (fuel : nat) (n : Z) : list Z :=
  match fuel with
  | O => []
  | S fuel => (if n <? 10 then [] else digits fuel (n / 10)) ++ [48 + n mod 10]
  end.
Definition decimal (n : Z) : list Z := digits 20 n.

(** *** The request *)

Definition request_path (req : list Z) : option (list Z) :=
  let line_end := match position (eqb_bytes CRLF) (windows 2 req) with Some i => i | None => zlen req end in
  let? line := slice req 0 line_end in
  Some match split SPACE line with _ :: path :: _ => path | _ => bytes "/" end.

Definition clamp (lo hi n : Z) : Z := Z.min (Z.max n lo) hi.

Definition bench_size (path : list Z) : Z :=
  let suffix := default [] (strip_prefix (bytes "/bench/") path) in
  clamp 1 256 (default BENCH_DEFAULT_MIB (parse_usize suffix)).

Definition headers_complete (buf : list Z) : bool := existsb (eqb_bytes (CRLF ++ CRLF)) (windows 4 buf).

Definition is_bench (path : list Z) : bool :=
  eqb_bytes path (bytes "/bench") || is_some (strip_prefix (bytes "/bench/") path).

(** *** The responses *)

Definition index_body : list Z :=
  bytes "<!doctype html>" ++ [10] ++ bytes "<html><head><meta charset=" ++ QUOTE ++ bytes "utf-8" ++ QUOTE ++
  bytes "><title>ferrumnet</title></head>" ++ [10] ++ bytes "<body>" ++ [10] ++
  bytes "<h1>Hello from a userspace TCP/IP stack written in Rust.</h1>" ++ [10] ++
  bytes "<p>This page was served by a from-scratch TCP implementation &mdash; no kernel sockets, no smoltcp, no tokio, zero dependencies. <code>curl</code> believes it is talking to the kernel; it is talking to userspace code.</p>" ++ [10] ++
  bytes "<p>Try <code>/bench</code> for a throughput test.</p>" ++ [10] ++ bytes "</body></html>" ++ [10].

Definition header (content_type : list Z) (len : Z) : list Z :=
  bytes "HTTP/1.1 200 OK" ++ CRLF ++ bytes "Server: ferrumnet" ++ CRLF ++ bytes "Content-Type: " ++ content_type ++ CRLF ++
  bytes "Content-Length: " ++ decimal len ++ CRLF ++ bytes "Connection: close" ++ CRLF ++ CRLF.
Definition index_header : list Z := header (bytes "text/html; charset=utf-8") (zlen index_body).
Definition bench_header (total : Z) : list Z := header (bytes "application/octet-stream") total.
Definition bench_total (mib : Z) : Z := mib * 1024 * 1024.

(** [vec![b'x'; n]] *)
Definition xs (n : Z) : list Z := zrepeat 120 n.

Example index_page_length : zlen index_body = 442. Proof. vm_compute. reflexivity. Qed.
Example request_line : request_path (bytes "GET /bench/4 HTTP/1.1" ++ CRLF ++ CRLF) = Some (bytes "/bench/4").
Proof. reflexivity. Qed.
Example bench_of_path : bench_size (bytes "/bench/4") = 4 /\ bench_size (bytes "/bench/+999") = 256 /\
  bench_size (bytes "/bench/") = 16 /\ bench_size (bytes "/bench/0") = 1 /\ bench_size (bytes "/bench/1x") = 16.
Proof. by vm_compute. Qed.

Definition demo_request : list Z := bytes "GET / HTTP/1.1" ++ CRLF ++ CRLF.

(** ** What the parsing means *)

Lemma windows_spec k l w : (0 < k)%nat ->
  w ∈ windows k l <-> length w = k /\ exists pre post, l = pre ++ w ++ post.
Proof.
  intros Hk. induction l as [|b l IH]; cbn [windows].
  { rewrite elem_of_nil. split; [done|]. intros (Hl & pre & post & E). symmetry in E.
    apply app_eq_nil in E as [_ E]. apply app_eq_nil in E as [-> _]. cbn in Hl. lia. }
  destruct (length (b :: l) <? k)%nat eqn:El.
  { apply Nat.ltb_lt in El. rewrite elem_of_nil. split; [done|]. intros (Hl & pre & post & E).
    apply (f_equal length) in E. rewrite !length_app in E. lia. }
  apply Nat.ltb_ge in El. rewrite elem_of_cons, IH. split.
  - intros [->|(Hl & pre & post & ->)].
    + rewrite length_take. split; [lia|]. exists [], (drop k (b :: l)). by rewrite take_drop.
    + split; [done|]. by exists (b :: pre), post.
  - intros (Hl & pre & post & E). destruct pre as [|b' pre].
    + left. rewrite app_nil_l in E. rewrite E. symmetry. by apply take_app_length'.
    + right. injection E as _ ->. split; [done|]. by exists pre, post.
Qed.

(** The headers are complete exactly when an empty line has arrived, wherever the
    reads split it. *)
Lemma headers_complete_spec buf :
  headers_complete buf = true <-> exists pre post, buf = pre ++ (CRLF ++ CRLF) ++ post.
Proof.
  unfold headers_complete. rewrite existsb_exists. split.
  - intros (w & Hw & E). apply list_elem_of_In, windows_spec in Hw; [|lia]. unfold eqb_bytes in E.
    apply bool_decide_eq_true in E. subst w. apply Hw.
  - intros H. exists (CRLF ++ CRLF). split; [|by apply bool_decide_eq_true].
    apply list_elem_of_In, windows_spec; [lia|]. by split.
Qed.

Lemma position_first pre post :
  (forall a b, pre <> a ++ 13 :: b) -> position (eqb_bytes CRLF) (windows 2 (pre ++ CRLF ++ post)) = Some (zlen pre).
Proof.
  induction pre as [|c pre IH]; intros Hn; [done|].
  assert (Hc : c <> 13) by (intros ->; by apply (Hn [] pre)).
  cbn [app windows]. assert (El : (length (c :: pre ++ CRLF ++ post) <? 2)%nat = false).
  { apply Nat.ltb_ge. cbn. rewrite !length_app. cbn. lia. }
  rewrite El. cbn [position]. unfold eqb_bytes at 1. rewrite bool_decide_false.
  - rewrite IH; [by rewrite zlen_cons, Z.add_comm|]. intros a b E. apply (Hn (c :: a) b). by rewrite E.
  - cbn [take]. unfold CRLF. congruence.
Qed.

Lemma split_head part rest : SPACE ∉ part -> split SPACE (part ++ SPACE :: rest) = part :: split SPACE rest.
Proof.
  induction part as [|b part IH]; intros Hn; cbn [app split]; [by rewrite Z.eqb_refl|].
  apply not_elem_of_cons in Hn as [Hb Hn]. rewrite IH by done. assert (b =? SPACE = false) as -> by lia. done.
Qed.

(** The path is the second word of the first line. *)
Lemma request_path_spec method path version rest :
  SPACE ∉ method -> SPACE ∉ path -> 13 ∉ method ++ SPACE :: path ++ SPACE :: version ->
  request_path ((method ++ SPACE :: path ++ SPACE :: version) ++ CRLF ++ rest) = Some path.
Proof.
  intros Hm Hp Hc. unfold request_path. set (line := method ++ _) in *.
  rewrite position_first.
  2: { intros a b E. apply Hc. rewrite E. apply elem_of_app. right. by left. }
  pose proof (zlen_nonneg line). rewrite slice_Some.
  2: lia. 2: { rewrite zlen_app. pose proof (zlen_nonneg (CRLF ++ rest)). lia. }
  assert (E : ztake (zlen line - 0) (zdrop 0 (line ++ CRLF ++ rest)) = line).
  { rewrite Z.sub_0_r. unfold ztake, zdrop, zlen. cbn [Z.to_nat drop]. rewrite Nat2Z.id. apply take_app_length. }
  rewrite E. unfold line. rewrite split_head by done. rewrite split_head by done. done.
Qed.

Lemma request_path_total req : is_Some (request_path req).
Proof.
  unfold request_path.
  assert (Hp : forall l i, position (eqb_bytes CRLF) (windows 2 l) = Some i -> 0 <= i <= zlen l).
  { induction l as [|b l IH]; intros i; cbn [windows position]; [done|]. destruct (_ <? 2)%nat; [done|]. cbn [position].
    rewrite zlen_cons. pose proof (zlen_nonneg l). destruct (eqb_bytes _ _); [intros [= <-]; lia|].
    destruct (position _ _) as [j|] eqn:E; [|done]. intros [= <-]. specialize (IH j eq_refl). lia. }
  destruct (position _ _) as [i|] eqn:E; [apply Hp in E|]; rewrite slice_Some; try done; try lia.
  pose proof (zlen_nonneg req). lia.
Qed.

(** *** Numbers *)

Lemma parse_digits_app l d acc n :
  parse_digits acc l = Some n -> 0 <= d < 10 -> n * 10 + d <= U64_MAX -> 0 <= acc ->
  parse_digits acc (l ++ [48 + d]) = Some (n * 10 + d).
Proof.
  revert acc. induction l as [|c l IH]; intros acc; cbn [parse_digits app].
  - intros [= <-] Hd Hn Ha. assert ((48 <=? 48 + d) && (48 + d <=? 57) = true) as -> by lia.
    replace (48 + d - 48) with d by lia. by assert (acc * 10 + d <=? U64_MAX = true) as -> by lia.
  - destruct ((48 <=? c) && (c <=? 57)) eqn:Ec; [|done]. cbv zeta. destruct (_ <=? U64_MAX) eqn:El; [|done].
    intros E Hd Hn Ha. apply IH; try done. lia.
Qed.

Lemma digits_parse fuel n :
  0 <= n < 10 ^ Z.of_nat fuel -> n <= U64_MAX -> (0 < fuel)%nat ->
  parse_digits 0 (digits fuel n) = Some n /\ exists d rest, digits fuel n = (48 + d) :: rest /\ 0 <= d < 10.
Proof.
  revert n. induction fuel as [|fuel IH]; intros n Hn Hu Hf; [lia|]. cbn [digits].
  pose proof (Z.mod_pos_bound n 10 ltac:(lia)) as Hm. pose proof (Z.div_mod n 10 ltac:(lia)) as Hd.
  destruct (n <? 10) eqn:E.
  - rewrite app_nil_l. assert (n mod 10 = n) as -> by (apply Z.mod_small; lia). split; [|exists n, []; split; [done|lia]].
    apply (parse_digits_app [] n 0 0); try done; lia.
  - assert (Hs : 10 ^ Z.of_nat (S fuel) = 10 * 10 ^ Z.of_nat fuel).
    { rewrite Nat2Z.inj_succ, Z.pow_succ_r by lia. done. }
    assert (Hq : 1 <= n / 10 < 10 ^ Z.of_nat fuel) by (split; [apply Z.div_le_lower_bound; lia|apply Z.div_lt_upper_bound; lia]).
    assert (Hf' : (0 < fuel)%nat) by (destruct fuel; [cbn in Hq; lia|lia]).
    destruct (IH (n / 10) ltac:(lia) ltac:(lia) Hf') as (H1 & d & rest & H2 & H3). split.
    + rewrite (parse_digits_app _ (n mod 10) 0 (n / 10) H1); [f_equal; lia|lia|lia|lia].
    + exists d, (rest ++ [48 + n mod 10]). by rewrite H2.
Qed.

(** A printed length reads back as itself. *)
Lemma decimal_parse n : 0 <= n <= U64_MAX -> parse_usize (decimal n) = Some n.
Proof.
  intros Hn. destruct (digits_parse 20 n) as (H1 & d & rest & H2 & Hd); [|lia|lia|].
  { change (10 ^ Z.of_nat 20) with 100000000000000000000. lia. }
  unfold decimal. rewrite H2 in *. unfold parse_usize. assert (Hz : 48 + d <> 43) by lia.
  destruct (48 + d) as [|p|p] eqn:E; try lia. do 6 (destruct p as [p|p|]; try exact H1); by destruct Hz.
Qed.

Lemma bench_size_range path : 1 <= bench_size path <= 256.
Proof. unfold bench_size, clamp. lia. Qed.

(** The benchmark asked for is the benchmark given, within its range. *)
Lemma bench_size_spec n : 0 <= n <= U64_MAX -> bench_size (bytes "/bench/" ++ decimal n) = clamp 1 256 n.
Proof.
  intros Hn. unfold bench_size, strip_prefix. rewrite take_app_length, drop_app_length.
  unfold eqb_bytes. rewrite bool_decide_true by done. cbn [default]. unfold id. by rewrite decimal_parse.
Qed.
