(* ===== verification/Server.v ===== *)
(** The HTTP server's tasks: the accept loop of [run_server]
    ([tcp-tun/src/main.rs]) and [http::serve] ([tcp-tun/src/http.rs]).

    An [async fn] is the state machine of its suspension points: a constructor
    per [await], holding the variables live across it.  Resuming one runs to the
    next [await] that is pending; the loops have fuel. *)

From stdpp Require Import gmap.
From S2P Require Import Prelude Seq Time Buffers Congestion Endpoint Tcb TcbWork Iface Executor Socket Http.

(** Where [serve] is suspended. *)
Inductive Serving :=
  | Reading (request : list Z)
  | WritingIndexHeader (rest : list Z)
  | WritingIndexBody (rest : list Z)
  | WritingBenchHeader (rest : list Z) (total : Z)
  | WritingChunk (rest : list Z) (n sent total : Z).

Inductive Task :=
  | Acceptor
  | Serve (stream : Endpoint) (at_ : Serving).

Section server.
Context {C : Type} `{!CongestionControl C}.

(** *** [http::serve] *)

(** What a step of [serve] comes to: it goes on from a suspension point, waits at
    one, or has returned. *)
Inductive Step := Go (at_ : Serving) | Wait (at_ : Serving) | Done.

(** After the headers: choose the response. *)
Definition respond (request : list Z) : option Serving :=
  let? path := request_path request in
  Some (if is_bench path then
          let total := bench_total (bench_size path) in WritingBenchHeader (bench_header total) total
        else WritingIndexHeader index_header).

(** [while sent < total]: the next chunk, or the end. *)
Definition next_chunk (remote : Endpoint) (sent total : Z) (s : ReactorState C) : ReactorState C * Step :=
  if sent <? total then
    let n := Z.min (total - sent) CHUNK in (s, Go (WritingChunk (xs n) n sent total))
  else (stream_close remote s, Done).

Definition serve_step (remote : Endpoint) (cx : Waker) (at_ : Serving) (s : ReactorState C)
  : option (ReactorState C * Step) :=
  match at_ with
  | Reading request =>
      let? (s, r) := poll_read remote 2048 cx s in
      match r with
      | Pending => Some (s, Wait (Reading request))
      | Ready (Err _) => Some (s, Done)
      | Ready (Ok []) => Some (s, Done)
      | Ready (Ok data) =>
          let request := request ++ data in
          if headers_complete request || (MAX_REQUEST <? zlen request) then
            let? at_ := respond request in Some (s, Go at_)
          else Some (s, Go (Reading request))
      end
  | WritingIndexHeader rest =>
      let? (rest, s, r) := poll_write_all remote rest cx s in
      Some match r with
           | Pending => (s, Wait (WritingIndexHeader rest))
           | Ready (Err _) => (stream_close remote s, Done)
           | Ready (Ok _) => (s, Go (WritingIndexBody index_body))
           end
  | WritingIndexBody rest =>
      let? (rest, s, r) := poll_write_all remote rest cx s in
      Some match r with
           | Pending => (s, Wait (WritingIndexBody rest))
           | Ready _ => (stream_close remote s, Done)
           end
  | WritingBenchHeader rest total =>
      let? (rest, s, r) := poll_write_all remote rest cx s in
      Some match r with
           | Pending => (s, Wait (WritingBenchHeader rest total))
           | Ready (Err _) => (stream_close remote s, Done)
           | Ready (Ok _) => next_chunk remote 0 total s
           end
  | WritingChunk rest n sent total =>
      let? (rest, s, r) := poll_write_all remote rest cx s in
      Some match r with
           | Pending => (s, Wait (WritingChunk rest n sent total))
           | Ready (Err _) => (stream_close remote s, Done)
           | Ready (Ok _) => next_chunk remote (sent + n) total s
           end
  end.

Fixpoint serve_loop (fuel : nat) (remote : Endpoint) (cx : Waker) (at_ : Serving) (s : ReactorState C)
  : option (Serving * Poll unit * ReactorState C) :=
  match fuel with
  | O => None
  | S fuel =>
      let? (s, step) := serve_step remote cx at_ s in
      match step with
      | Go at_ => serve_loop fuel remote cx at_ s
      | Wait at_ => Some (at_, Pending, s)
      | Done => Some (at_, Ready tt, s)
      end
  end.

(** Enough turns for any poll: a read consumes an octet, a response has at most
    a header and 4096 chunks. *)
Definition to_read (remote : Endpoint) (s : ReactorState C) : Z :=
  match conns (stack s) !! remote with Some t => rx_available t | None => 0 end.
Definition turns_left (at_ : Serving) : Z :=
  match at_ with
  | Reading _ => 4100
  | WritingIndexHeader _ => 2
  | WritingIndexBody _ => 1
  | WritingBenchHeader _ total => 2 + (total + CHUNK - 1) / CHUNK
  | WritingChunk _ n sent total => 1 + (total - sent - n + CHUNK - 1) / CHUNK
  end.
Definition serve_fuel (remote : Endpoint) (at_ : Serving) (s : ReactorState C) : nat :=
  Z.to_nat (1 + turns_left at_ + match at_ with Reading _ => to_read remote s | _ => 0 end).

(** *** The accept loop *)

Fixpoint acceptor_loop (fuel : nat) (cx : Waker) (s : ReactorState C) (ex : Executor Task)
  : option (ReactorState C * Executor Task) :=
  match fuel with
  | O => None
  | S fuel =>
      match poll_accept cx s with
      | (s, Pending) => Some (s, ex)
      | (s, Ready stream) =>
          let? ex := spawn ex (Serve stream (Reading [])) in acceptor_loop fuel cx s ex
      end
  end.

Definition poll_task (task : Task) (cx : Waker) (s : ReactorState C) (ex : Executor Task)
  : option (Task * Poll unit * ReactorState C * Executor Task) :=
  match task with
  | Acceptor =>
      let? (s, ex) := acceptor_loop (S (length (accept_queue s))) cx s ex in
      Some (Acceptor, Pending, s, ex)
  | Serve remote at_ =>
      let? (at_, p, s) := serve_loop (serve_fuel remote at_ s) remote cx at_ s in
      Some (Serve remote at_, p, s, ex)
  end.
End server.

#[export] Instance Task_app {C} `{CongestionControl C} : Application Task (ReactorState C) := poll_task.
