(* ===== verification/ServerSafe.v ===== *)
(** The server's tasks against the reactor: every poll returns, keeps the
    invariants, touches its own stream only, and leaves its waker registered when
    it waits ([Task_laws], [Server_client]). *)

From stdpp Require Import gmap.
From S2P Require Import Prelude Seq Time Buffers Congestion Endpoint Tcb TcbInv TcbStates TcbLife TcbWork TcbEnds Iface IfaceSafe IfaceProps Executor Socket Reactor ReactorSafe ReactorWake ReactorTurn Http Server.
Import RingBuffer (RingBuffer, mkRing, buf, capacity).

Section streams.
Context {C : Type} `{CC : CongestionControl C} {CL : CongestionLaws C}.

(** *** One stream at a time *)

(** From [s] to [s'] only the stream of [ep] was used: other registrations stand,
    no connection came or went. *)
Record at_stream (ep : Endpoint) (s s' : ReactorState C) : Prop := {
  as_now : Socket.now s' = Socket.now s;
  as_queue : accept_queue s' = accept_queue s;
  as_accept : accept_waker s' = accept_waker s;
  as_announced : announced s' = announced s;
  as_read e : e <> ep -> read_wakers s' !! e = read_wakers s !! e;
  as_write e : e <> ep -> write_wakers s' !! e = write_wakers s !! e;
  as_live e : is_Some (conns (stack s') !! e) <-> is_Some (conns (stack s) !! e);
}.

Lemma at_stream_refl ep s : at_stream ep s s.
Proof. by split. Qed.
Lemma at_stream_trans ep s1 s2 s3 : at_stream ep s1 s2 -> at_stream ep s2 s3 -> at_stream ep s1 s3.
Proof.
  intros [A1 A2 A3 A4 A5 A6 A7] [B1 B2 B3 B4 B5 B6 B7]. split; try congruence.
  - intros e He. rewrite B5 by done. by apply A5.
  - intros e He. rewrite B6 by done. by apply A6.
  - intros e. by rewrite B7.
Qed.

Lemma put_at ep s t t' : conns (stack s) !! ep = Some t -> at_stream ep s (put s ep t').
Proof.
  intros Ht. split; try done. intros e. cbn. destruct (decide (e = ep)) as [->|Hn].
  - rewrite lookup_insert_eq, Ht. by split.
  - by rewrite lookup_insert_ne.
Qed.

Lemma register_read_at ep s cx : at_stream ep s (s <| read_wakers := <[ep := cx]> (read_wakers s) |>).
Proof. split; try done. intros e He. cbn. by rewrite lookup_insert_ne. Qed.
Lemma register_write_at ep s cx : at_stream ep s (s <| write_wakers := <[ep := cx]> (write_wakers s) |>).
Proof. split; try done. intros e He. cbn. by rewrite lookup_insert_ne. Qed.

Lemma poll_read_at ep n cx s s' r : poll_read ep n cx s = Some (s', r) -> at_stream ep s s'.
Proof.
  unfold poll_read, connection_mut. intros H.
  destruct (n =? 0); [injection H as <- _; apply at_stream_refl|].
  destruct (conns (stack s) !! ep) as [t|] eqn:Et; [|injection H as <- _; apply at_stream_refl].
  destruct (0 <? _).
  - destruct (recv t n) as [[t' out]|]; [|done]. injection H as <- _. by eapply put_at.
  - destruct (is_reset t); [injection H as <- _; apply at_stream_refl|].
    destruct (_ || _); injection H as <- _; [apply at_stream_refl|apply register_read_at].
Qed.

Lemma poll_write_at ep dat cx s s' r : poll_write ep dat cx s = (s', r) -> at_stream ep s s'.
Proof.
  unfold poll_write, connection_mut. intros H.
  destruct (conns (stack s) !! ep) as [t|] eqn:Et; [|injection H as <- _; apply at_stream_refl].
  destruct (is_reset t); [injection H as <- _; apply at_stream_refl|].
  destruct (negb _); [injection H as <- _; apply at_stream_refl|].
  destruct (send t dat) as [t' m]. fold (put s ep t') in H.
  pose proof (put_at ep s t t' Et) as Hp.
  destruct (0 <? m); injection H as <- _; [exact Hp|].
  eapply at_stream_trans; [exact Hp|]. apply (register_write_at ep (put s ep t')).
Qed.

Lemma write_all_at fuel ep dat cx s rest s' r :
  write_all_loop fuel ep dat cx s = Some (rest, s', r) -> at_stream ep s s'.
Proof.
  revert dat s. induction fuel as [|fuel IH]; intros dat s; [done|]. cbn [write_all_loop].
  destruct (zlen dat =? 0); [intros [= _ <- _]; apply at_stream_refl|].
  destruct (poll_write ep dat cx s) as [s1 [[n|e]|]] eqn:E; apply poll_write_at in E; try (by intros [= _ <- _]).
  destruct (n =? 0); [by intros [= _ <- _]|]. destruct (slice _ _ _); [|done].
  intros H. eapply at_stream_trans; [exact E|by eapply IH].
Qed.

Lemma stream_close_at ep s : at_stream ep s (stream_close ep s).
Proof.
  unfold stream_close, connection_mut. destruct (conns (stack s) !! ep) as [t|] eqn:Et; [|apply at_stream_refl].
  by eapply (put_at ep s t (close t)).
Qed.

(** *** What is queued on a stream *)

Definition queued (ep : Endpoint) (s s' : ReactorState C) (written : list Z) : Prop :=
  match conns (stack s) !! ep with
  | Some t => exists t', conns (stack s') !! ep = Some t' /\ buf (tx t') = buf (tx t) ++ written
  | None => written = [] /\ conns (stack s') !! ep = None
  end.

Lemma queued_same ep (s s' : ReactorState C) : conns (stack s') !! ep = conns (stack s) !! ep -> queued ep s s' [].
Proof. unfold queued. intros ->. destruct (conns (stack s) !! ep) as [t|]; [|done]. exists t. by rewrite app_nil_r. Qed.
Lemma queued_nil ep s : queued ep s s [].
Proof. by apply queued_same. Qed.
Lemma queued_put ep s t t' written :
  conns (stack s) !! ep = Some t -> buf (tx t') = buf (tx t) ++ written -> queued ep s (put s ep t') written.
Proof. intros Ht Hb. unfold queued. rewrite Ht. exists t'. cbn. by rewrite lookup_insert_eq. Qed.
Lemma queued_app ep s1 s2 s3 w1 w2 : queued ep s1 s2 w1 -> queued ep s2 s3 w2 -> queued ep s1 s3 (w1 ++ w2).
Proof.
  unfold queued. destruct (conns (stack s1) !! ep) as [t|].
  - intros (t1 & -> & E1) (t2 & Ht2 & E2). exists t2. split; [done|]. by rewrite E2, E1, app_assoc.
  - intros [-> ->] [-> H]. done.
Qed.
(** What was written can be read off the connection. *)
Lemma queued_unique ep s s' w1 w2 : queued ep s s' w1 -> queued ep s s' w2 -> w1 = w2.
Proof.
  unfold queued. destruct (conns (stack s) !! ep) as [t|].
  - intros (t1 & E1 & H1) (t2 & E2 & H2). rewrite E1 in E2. injection E2 as <-. rewrite H1 in H2. by apply app_inv_head in H2.
  - by intros [-> _] [-> _].
Qed.
Lemma queued_close ep s : queued ep s (stream_close ep s) [].
Proof.
  unfold stream_close, connection_mut. destruct (conns (stack s) !! ep) as [t|] eqn:Et; [|apply queued_nil].
  apply (queued_put ep s t (close t)); [done|]. by rewrite app_nil_r.
Qed.
Lemma queued_read ep n cx s s' r : poll_read ep n cx s = Some (s', r) -> queued ep s s' [].
Proof.
  unfold poll_read, connection_mut. intros H.
  destruct (n =? 0); [injection H as <- _; apply queued_nil|].
  destruct (conns (stack s) !! ep) as [t|] eqn:Et; [|injection H as <- _; apply queued_nil]. destruct (0 <? _).
  - unfold recv in H. destruct (RingBuffer.read _ _) as [[rx' o]|]; [|done]. injection H as <- _.
    apply (queued_put ep s t); [done|]. by rewrite app_nil_r.
  - destruct (is_reset t); [injection H as <- _; apply queued_nil|].
    destruct (_ || _); injection H as <- _; [apply queued_nil|by apply queued_same].
Qed.

(** A write fails only on a connection that takes no more data. *)
Definition broken (ep : Endpoint) (s : ReactorState C) : Prop :=
  forall t, conns (stack s) !! ep = Some t -> writable t = false.

Lemma write_all_broken fuel ep dat cx s rest s' e :
  reactor_ok s -> waiting s -> bytes_ok dat ->
  write_all_loop fuel ep dat cx s = Some (rest, s', Ready (Err e)) -> broken ep s'.
Proof.
  revert dat s. induction fuel as [|fuel IH]; intros dat s Hok Hw Hd; [done|]. cbn [write_all_loop].
  destruct (zlen dat =? 0) eqn:E0; [done|].
  assert (Hne : dat <> []) by (intros ->; done).
  destruct (poll_write_spec ep dat cx s Hok Hw Hd Hne) as (s1 & r & E & Hok1 & Hw1 & _ & _ & _ & Hr). rewrite E.
  destruct r as [[n|e']|]; [| |done].
  - destruct (Hr n eq_refl) as [Hn _]. destruct (n =? 0) eqn:En; [lia|]. rewrite slice_Some by lia.
    apply IH; [done|done|]. unfold ztake, zdrop. by apply Forall_take, Forall_drop.
  - intros [= _ <- _]. revert E. unfold poll_write, connection_mut, broken.
    destruct (conns (stack s) !! ep) as [t|] eqn:Et; [|intros [= <-]; congruence].
    destruct (is_reset t) eqn:Er.
    { intros [= <- _] u Hu. rewrite Et in Hu. injection Hu as <-. pose proof (ra_reset _ Hok _ _ Et Er) as Hc.
      unfold writable. by rewrite Hc. }
    destruct (writable t) eqn:Ew; cbn [negb]; [destruct (send t dat) as [t' m]; by case_ifs|].
    intros [= <- _] u Hu. congruence.
Qed.

(** The octets [write_all] hands over. *)
Lemma poll_write_all_spec ep dat cx (s : ReactorState C) :
  reactor_ok s -> waiting s -> bytes_ok dat ->
  exists rest s' r written, poll_write_all ep dat cx s = Some (rest, s', r) /\ dat = written ++ rest /\
    reactor_ok s' /\ waiting s' /\ at_stream ep s s' /\ queued ep s s' written /\
    match r with
    | Ready (Ok _) => rest = []
    | Ready (Err _) => broken ep s'
    | Pending => write_wakers s' !! ep = Some cx
    end.
Proof.
  intros Hok Hw Hd.
  destruct (write_all_loop_spec (S (length dat)) ep dat cx s Hok Hw Hd ltac:(lia))
    as (rest & s' & r & written & s1 & E & Ed & Hok' & Hw' & _ & Hwr & Hres).
  exists rest, s', r, written. split; [exact E|]. split; [done|]. split; [done|]. split; [done|].
  split; [by eapply write_all_at|].
  assert (Hq : s' = s1 -> queued ep s s' written).
  { intros ->. destruct Hwr as [[-> ->]|(t & t' & Ht & -> & _ & Hb)]; [apply queued_nil|by eapply queued_put]. }
  destruct r as [[[]|e]|].
  - destruct Hres as [-> ->]. split; [by apply Hq|done].
  - split; [by apply Hq|]. by eapply write_all_broken; [| | |exact E].
  - destruct Hres as (_ & _ & Ew & _ & _ & _ & t & t' & Ht & Hc & _ & Hb). split.
    + unfold queued. rewrite Ht. exists t'. by rewrite Hc, lookup_insert_eq.
    + by rewrite Ew, lookup_insert_eq.
Qed.
End streams.

Section serving.
Context {C : Type} `{CC : CongestionControl C} {CL : CongestionLaws C}.

(** *** [serve] *)

Definition bench_range (total : Z) : Prop := 0 <= total <= 256 * 1024 * 1024.
Definition serving_ok (a : Serving) : Prop :=
  match a with
  | Reading _ => True
  | WritingIndexHeader rest | WritingIndexBody rest => bytes_ok rest
  | WritingBenchHeader rest total => bytes_ok rest /\ bench_range total
  | WritingChunk rest n sent total => bytes_ok rest /\ bench_range total /\ 0 <= sent /\ 0 < n /\ sent + n <= total
  end.

(** What remains to be handed to the connection. *)
Definition todo (a : Serving) : list Z :=
  match a with
  | Reading _ => []
  | WritingIndexHeader rest => rest ++ index_body
  | WritingIndexBody rest => rest
  | WritingBenchHeader rest total => rest ++ xs total
  | WritingChunk rest n sent total => rest ++ xs (total - sent - n)
  end.
Definition writing (a : Serving) : bool := match a with Reading _ => false | _ => true end.

(** Whose registration a suspended [serve] holds. *)
Definition registered (id : Waker) (ep : Endpoint) (a : Serving) (s : ReactorState C) : Prop :=
  if writing a then write_wakers s !! ep = Some id else read_wakers s !! ep = Some id.

Lemma bytes_literal (s : String.string) : bytes_ok (bytes s).
Proof.
  unfold bytes. apply List.Forall_map. apply List.Forall_forall. intros c _.
  pose proof (Ascii.N_ascii_bounded c). unfold is_u8. change (2 ^ 8) with 256. lia.
Qed.
Lemma bytes_app a b : bytes_ok a -> bytes_ok b -> bytes_ok (a ++ b).
Proof. intros. by apply List.Forall_app. Qed.
Lemma bytes_decimal n : 0 <= n -> bytes_ok (decimal n).
Proof.
  unfold decimal. generalize 20%nat. intros fuel. revert n. induction fuel as [|fuel IH]; intros n Hn; cbn [digits]; [apply List.Forall_nil|].
  apply List.Forall_app. split; [case_ifs; [apply List.Forall_nil|]; apply IH; by apply Z.div_pos|].
  apply List.Forall_cons; [|apply List.Forall_nil]. pose proof (Z.mod_pos_bound n 10 ltac:(lia)). unfold is_u8. lia.
Qed.
Create HintDb octets.
#[local] Hint Resolve bytes_literal bytes_app bytes_decimal : octets.

(** A concatenation of literals is octets. *)
Ltac octets := repeat match goal with |- bytes_ok (_ ++ _) => apply bytes_app end; auto with octets.

Lemma bytes_xs n : bytes_ok (xs n).
Proof. unfold xs, zrepeat, bytes_ok. apply Forall_replicate. unfold is_u8. lia. Qed.
Lemma bytes_crlf : bytes_ok CRLF /\ bytes_ok QUOTE /\ bytes_ok [10].
Proof. unfold CRLF, QUOTE, bytes_ok. split_and!; split_bytes; unfold is_u8; lia. Qed.
Lemma bytes_header ct len : bytes_ok ct -> 0 <= len -> bytes_ok (header ct len).
Proof. intros Hc Hl. destruct bytes_crlf as (H1 & _ & _). unfold header. octets. Qed.
Lemma bytes_index : bytes_ok index_body.
Proof. destruct bytes_crlf as (_ & H2 & H3). unfold index_body. octets. Qed.

Lemma xs_split n m : 0 <= n -> 0 <= m -> xs (n + m) = xs n ++ xs m.
Proof. intros Hn Hm. unfold xs, zrepeat. rewrite Z2Nat.inj_add by lia. apply replicate_add. Qed.

(** The response that a complete request gets. *)
Lemma respond_ok request : exists a, respond request = Some a /\ serving_ok a /\ writing a = true /\ 0 <= turns_left a < 4100 /\
  exists path, request_path request = Some path /\
    todo a = if is_bench path then bench_header (bench_total (bench_size path)) ++ xs (bench_total (bench_size path))
             else index_header ++ index_body.
Proof.
  unfold respond. destruct (request_path_total request) as [path Hp]. rewrite Hp.
  pose proof (bench_size_range path) as Hr. set (total := bench_total (bench_size path)).
  assert (Ht : bench_range total) by (unfold total, bench_total, bench_range; lia).
  destruct (is_bench path) eqn:Eb; eexists; (split; [done|]).
  - split; [split; [apply bytes_header; [auto with octets|apply Ht]|done]|]. split; [done|]. split.
    + cbn [turns_left]. unfold CHUNK. pose proof (Z.div_pos (total + 64 * 1024 - 1) (64 * 1024)).
      assert ((total + 64 * 1024 - 1) / (64 * 1024) <= 4096).
      { change 4096 with ((256 * 1024 * 1024 + 64 * 1024 - 1) / (64 * 1024)). apply Z.div_le_mono; unfold bench_range in Ht; lia. }
      unfold bench_range in Ht. lia.
    + exists path. by rewrite Eb.
  - split; [apply bytes_header; [auto with octets|apply zlen_nonneg]|]. split; [done|]. split; [cbn; lia|]. exists path. by rewrite Eb.
Qed.

(** The next chunk is the next part of the body, and the loop is finite. *)
Lemma next_chunk_ok ep sent total (s : ReactorState C) :
  reactor_ok s -> waiting s -> bench_range total -> 0 <= sent <= total ->
  exists s' step, next_chunk ep sent total s = (s', step) /\ reactor_ok s' /\ waiting s' /\ at_stream ep s s' /\
    queued ep s s' [] /\
    match step with
    | Go a => serving_ok a /\ writing a = true /\ todo a = xs (total - sent) /\
        0 <= turns_left a < 1 + (total - sent + CHUNK - 1) / CHUNK
    | Wait _ => False
    | Done => xs (total - sent) = []
    end.
Proof.
  intros Hok Hw Ht Hs. unfold next_chunk. destruct (sent <? total) eqn:E.
  - eexists _, _. split; [done|]. split; [done|]. split; [done|]. split; [apply at_stream_refl|]. split; [apply queued_nil|].
    set (n := Z.min (total - sent) CHUNK). assert (Hn : 0 < n <= total - sent) by (unfold n, CHUNK; lia).
    split; [split; [apply bytes_xs|]; split; [done|lia]|]. split; [done|]. split.
    + cbn [todo]. rewrite <- xs_split by lia. f_equal. lia.
    + cbn [turns_left]. unfold n, CHUNK in *.
      destruct (Z.le_gt_cases (total - sent) (64 * 1024)) as [Hle|Hgt].
      * rewrite Z.min_l by lia. replace (total - sent - (total - sent) + 64 * 1024 - 1) with (64 * 1024 - 1) by lia.
        change ((64 * 1024 - 1) / (64 * 1024)) with 0. split; [lia|].
        assert (1 <= (total - sent + 64 * 1024 - 1) / (64 * 1024)) by (apply Z.div_le_lower_bound; lia). lia.
      * rewrite Z.min_r by lia. replace (total - sent + 64 * 1024 - 1) with (total - sent - 64 * 1024 + 64 * 1024 - 1 + 1 * (64 * 1024)) by lia.
        rewrite Z.div_add by lia. pose proof (Z.div_pos (total - sent - 64 * 1024 + 64 * 1024 - 1) (64 * 1024)). lia.
  - destruct (stream_close_spec ep s Hok Hw) as (H1 & H2 & _).
    eexists _, _. split; [done|]. split; [done|]. split; [done|]. split; [apply stream_close_at|]. split; [apply queued_close|].
    assert (total - sent = 0) as -> by lia. done.
Qed.

(** One step of [serve]: from [a] to [a'] it hands over [written], the next part
    of what was promised; a request that is complete promises its response. *)
Definition progress (a a' : Serving) (written : list Z) : Prop :=
  match a with
  | Reading request => written = [] /\ exists data,
      a' = Reading (request ++ data) /\ headers_complete (request ++ data) = false \/
      data <> [] /\ respond (request ++ data) = Some a' /\
      (headers_complete (request ++ data) = true \/ MAX_REQUEST < zlen (request ++ data))
  | _ => writing a' = true /\ todo a = written ++ todo a'
  end.

Definition turns (ep : Endpoint) (a : Serving) (s : ReactorState C) : Z :=
  turns_left a + if writing a then 0 else to_read ep s.

Record stepped (ep : Endpoint) (s s' : ReactorState C) (written : list Z) : Prop := {
  sp_ok : reactor_ok s';
  sp_waiting : waiting s';
  sp_at : at_stream ep s s';
  sp_queued : queued ep s s' written;
}.

(** A response state writes what it has left and goes on to [k]. *)
Lemma writing_step ep id rest (s : ReactorState C) :
  reactor_ok s -> waiting s -> bytes_ok rest ->
  exists rest' s' r written, poll_write_all ep rest id s = Some (rest', s', r) /\ rest = written ++ rest' /\
    bytes_ok rest' /\ stepped ep s s' written /\
    match r with
    | Ready (Ok _) => rest' = []
    | Ready (Err _) => broken ep s' /\ stepped ep s (stream_close ep s') written /\ broken ep (stream_close ep s')
    | Pending => write_wakers s' !! ep = Some id
    end.
Proof.
  intros Hok Hw Hb. destruct (poll_write_all_spec ep rest id s Hok Hw Hb)
    as (rest' & s' & r & written & E & Ed & Hok' & Hw' & Ha & Hq & Hr).
  exists rest', s', r, written. split; [done|]. split; [done|]. split.
  { rewrite Ed in Hb. by apply List.Forall_app in Hb as [_ ?]. }
  split; [by split|]. destruct r as [[?|e]|]; [done| |done]. split; [done|].
  destruct (stream_close_spec ep s' Hok' Hw') as (H1 & H2 & _). split.
  - split; [done|done|eapply at_stream_trans; [exact Ha|apply stream_close_at]|].
    rewrite <- (app_nil_r written). eapply queued_app; [exact Hq|apply queued_close].
  - intros t Ht. unfold stream_close, connection_mut in Ht.
    destruct (conns (stack s') !! ep) as [u|] eqn:Eu; [|congruence]. cbn in Ht. rewrite lookup_insert_eq in Ht.
    injection Ht as <-. exact (Hr u Eu).
Qed.

Lemma stepped_then ep s1 s2 s3 w1 w2 :
  stepped ep s1 s2 w1 -> stepped ep s2 s3 w2 -> stepped ep s1 s3 (w1 ++ w2).
Proof.
  intros [_ _ A1 A2] [B1 B2 B3 B4]. split; [done|done|by eapply at_stream_trans|by eapply queued_app].
Qed.

Definition step_result (id : Waker) (ep : Endpoint) (a : Serving) (s s' : ReactorState C) (written : list Z) (step : Step) : Prop :=
  match step with
  | Go a' => serving_ok a' /\ 0 <= turns ep a' s' < turns ep a s /\ progress a a' written
  | Wait a' => serving_ok a' /\ registered id ep a' s' /\ writing a' = writing a /\
      if writing a then todo a = written ++ todo a' else written = [] /\ a' = a
  | Done => if writing a then exists rest, todo a = written ++ rest /\ (rest = [] \/ broken ep s') else written = []
  end.

Lemma reading_step_ok id ep request (s : ReactorState C) :
  reactor_ok s -> waiting s ->
  exists s' step written, serve_step ep id (Reading request) s = Some (s', step) /\ stepped ep s s' written /\
    step_result id ep (Reading request) s s' written step.
Proof.
  intros Hok Hw. cbn [serve_step].
  destruct (poll_read_spec ep 2048 id s Hok Hw ltac:(lia)) as (s' & r & E & Hok' & Hw' & _ & _ & Hp & Hd).
  rewrite E. assert (Hs : stepped ep s s' []) by (split; [done|done|by eapply poll_read_at|by eapply queued_read]).
  destruct r as [[[|b dat]|e]|].
  - by exists s', Done, [].
  - destruct (Hd (b :: dat) eq_refl ltac:(done)) as (t & Ht & Edat & t' & -> & Erx). set (data := b :: dat) in *.
    assert (Hread : to_read ep (put s ep t') < to_read ep s).
    { unfold to_read. cbn. rewrite lookup_insert_eq, Ht. unfold rx_available, RingBuffer.len. rewrite Erx, zlen_zdrop.
      pose proof (zlen_nonneg dat). pose proof (zlen_nonneg (buf (rx t))). assert (Hl : zlen data <= zlen (buf (rx t))) by (rewrite Edat, zlen_ztake; lia).
      unfold data in Hl. rewrite zlen_cons in Hl. lia. }
    assert (Hz : 0 <= to_read ep (put s ep t')).
    { unfold to_read. cbn. rewrite lookup_insert_eq. unfold rx_available. apply zlen_nonneg. }
    destruct (_ || _) eqn:Ec.
    + destruct (respond_ok (request ++ data)) as (a & Ea & Ha & Hwa & Hta & _). rewrite Ea.
      exists (put s ep t'), (Go a), []. split; [done|]. split; [done|]. split; [done|]. split.
      { unfold turns. rewrite Hwa. cbn [writing turns_left]. lia. }
      split; [done|]. exists data. right. split; [done|]. split; [done|].
      apply orb_true_iff in Ec as [Ec|Ec]; [by left|right; lia].
    + exists (put s ep t'), (Go (Reading (request ++ data))), []. split; [done|]. split; [done|]. split; [done|]. split.
      { unfold turns. cbn [writing turns_left]. lia. }
      split; [done|]. exists data. left. apply orb_false_iff in Ec as [Ec _]. by split.
  - by exists s', Done, [].
  - exists s', (Wait (Reading request)), []. split; [done|]. split; [done|]. split; [done|]. split; [|done].
    cbn. rewrite (Hp eq_refl). cbn. by rewrite lookup_insert_eq.
Qed.

(** A state that writes [rest] and then, with [tail] still to come, does [k]. *)
Lemma write_then_ok id ep (mk : list Z -> Serving) rest tail k (s : ReactorState C) :
  (forall r, todo (mk r) = r ++ tail /\ writing (mk r) = true /\ turns_left (mk r) = turns_left (mk rest) /\
    (bytes_ok r -> serving_ok (mk r))) ->
  (forall s', reactor_ok s' -> waiting s' -> exists s2 step, k s' = (s2, step) /\ stepped ep s' s2 [] /\
    match step with
    | Go a => serving_ok a /\ writing a = true /\ todo a = tail /\ 0 <= turns_left a < turns_left (mk rest)
    | Wait _ => False
    | Done => tail = []
    end) ->
  reactor_ok s -> waiting s -> bytes_ok rest ->
  exists s' step written,
    (let? (rest, s, r) := poll_write_all ep rest id s in
     Some match r with
          | Pending => (s, Wait (mk rest))
          | Ready (Err _) => (stream_close ep s, Done)
          | Ready (Ok _) => k s
          end) = Some (s', step) /\ stepped ep s s' written /\ step_result id ep (mk rest) s s' written step.
Proof.
  intros Hmk Hk Hok Hw Hb.
  destruct (writing_step ep id rest s Hok Hw Hb) as (rest' & s' & r & w & -> & Ed & Hb' & Hs & Hr).
  destruct (Hmk rest) as (Ht & Hwr & _ & _). destruct (Hmk rest') as (Ht' & Hwr' & Htl' & Hok').
  destruct r as [[u|e]|].
  - destruct (Hk s' (sp_ok _ _ _ _ Hs) (sp_waiting _ _ _ _ Hs)) as (s2 & step & -> & Hs2 & Hst).
    exists s2, step, w. split; [done|]. split; [rewrite <- (app_nil_r w); by eapply stepped_then|].
    assert (Et : todo (mk rest) = w ++ tail) by (rewrite Ht, Ed, Hr, app_nil_r; done).
    destruct step as [a|a|]; [|done|]; unfold step_result.
    + destruct Hst as (Q1 & Q2 & Q3 & Q4). split; [done|]. split; [unfold turns; rewrite Q2, Hwr; lia|].
      rewrite <- Q3 in Et. destruct (mk rest); done.
    + rewrite Hwr. exists []. split; [by rewrite Et, Hst|by left].
  - destruct Hr as (_ & Hc & Hbk). exists (stream_close ep s'), Done, w. split; [done|]. split; [done|].
    unfold step_result. rewrite Hwr. exists (rest' ++ tail). split; [by rewrite Ht, Ed, <- app_assoc|by right].
  - exists s', (Wait (mk rest')), w. split; [done|]. split; [done|]. unfold step_result. rewrite Hwr.
    split; [by apply Hok'|]. split; [unfold registered; by rewrite Hwr'|]. split; [done|].
    by rewrite Ht, Ht', Ed, <- app_assoc.
Qed.

Lemma close_step ep (s : ReactorState C) : reactor_ok s -> waiting s -> stepped ep s (stream_close ep s) [].
Proof.
  intros Hok Hw. destruct (stream_close_spec ep s Hok Hw) as (H1 & H2 & _).
  split; [done|done|apply stream_close_at|apply queued_close].
Qed.

Lemma chunk_step ep sent total limit (s : ReactorState C) :
  reactor_ok s -> waiting s -> bench_range total -> 0 <= sent <= total ->
  1 + (total - sent + CHUNK - 1) / CHUNK <= limit ->
  exists s2 step, next_chunk ep sent total s = (s2, step) /\ stepped ep s s2 [] /\
    match step with
    | Go a => serving_ok a /\ writing a = true /\ todo a = xs (total - sent) /\ 0 <= turns_left a < limit
    | Wait _ => False
    | Done => xs (total - sent) = []
    end.
Proof.
  intros Hok Hw Ht Hs Hl. destruct (next_chunk_ok ep sent total s Hok Hw Ht Hs) as (s2 & step & E & H1 & H2 & H3 & H4 & H5).
  exists s2, step. split; [done|]. split; [by split|]. destruct step; [|done|done].
  destruct H5 as (Q1 & Q2 & Q3 & Q4). split_and!; try done; lia.
Qed.

Lemma serve_step_ok id ep a (s : ReactorState C) :
  reactor_ok s -> waiting s -> serving_ok a ->
  exists s' step written, serve_step ep id a s = Some (s', step) /\ stepped ep s s' written /\
    step_result id ep a s s' written step.
Proof.
  intros Hok Hw Ha. destruct a as [request|rest|rest|rest total|rest n sent total]; [by apply reading_step_ok|..].
  - apply (write_then_ok id ep WritingIndexHeader rest index_body (fun s => (s, Go (WritingIndexBody index_body)))); try done.
    intros s' H1 H2. eexists _, _. split; [done|]. split; [split; [done|done|apply at_stream_refl|apply queued_nil]|].
    split; [exact bytes_index|done].
  - destruct (write_then_ok id ep WritingIndexBody rest [] (fun s => (stream_close ep s, Done)) s) as (s' & step & w & E & H); try done.
    + intros r. cbn. by rewrite app_nil_r.
    + intros s' H1 H2. eexists _, _. split; [done|]. by split; [apply close_step|].
    + exists s', step, w. split; [|done]. cbn [serve_step]. rewrite <- E.
      destruct (poll_write_all ep rest id s) as [[[r s1] [[]|]]|]; done.
  - destruct Ha as [Ha Ht]. pose proof Ht as [? ?]. apply (write_then_ok id ep (fun r => WritingBenchHeader r total) rest (xs total) (next_chunk ep 0 total)); try done.
    intros s' H1 H2. destruct (chunk_step ep 0 total (turns_left (WritingBenchHeader rest total)) s' H1 H2 Ht) as (s2 & step & E & H3 & H4).
    { lia. } { cbn [turns_left]. rewrite Z.sub_0_r. lia. } rewrite Z.sub_0_r in H4. by exists s2, step.
  - destruct Ha as (Ha & Ht & H0 & Hn & Hle).
    apply (write_then_ok id ep (fun r => WritingChunk r n sent total) rest (xs (total - sent - n)) (next_chunk ep (sent + n) total)); try done.
    intros s' H1 H2. destruct (chunk_step ep (sent + n) total (turns_left (WritingChunk rest n sent total)) s' H1 H2 Ht) as (s2 & step & E & H3 & H4).
    { lia. } { cbn [turns_left]. by replace (total - (sent + n)) with (total - sent - n) by lia. }
    replace (total - (sent + n)) with (total - sent - n) in H4 by lia. by exists s2, step.
Qed.

(** *** A poll of [serve] *)

(** From a response state: what was written is the next part of it; it is over
    when the response is complete, or the connection takes no more. *)
Definition carried_on (ep : Endpoint) (a a' : Serving) (p : Poll unit) (s' : ReactorState C) (written : list Z) : Prop :=
  match p with
  | Pending => writing a' = true /\ todo a = written ++ todo a'
  | Ready _ => exists rest, todo a = written ++ rest /\ (rest = [] \/ broken ep s')
  end.

(** From a request state: nothing is written before the request is complete. *)
Definition served_on (ep : Endpoint) (a a' : Serving) (p : Poll unit) (s' : ReactorState C) (written : list Z) : Prop :=
  match a with
  | Reading request =>
      written = [] /\ (p = Pending -> exists data, a' = Reading (request ++ data)) \/
      exists data a1, respond (request ++ data) = Some a1 /\
        (headers_complete (request ++ data) = true \/ MAX_REQUEST < zlen (request ++ data)) /\
        carried_on ep a1 a' p s' written
  | _ => carried_on ep a a' p s' written
  end.

Lemma served_on_writing ep a a' p s' w : writing a = true -> served_on ep a a' p s' w <-> carried_on ep a a' p s' w.
Proof. by destruct a. Qed.

(** A step and then the rest of the poll. *)
Lemma served_on_step ep a a1 a' p s' w1 w2 :
  progress a a1 w1 -> served_on ep a1 a' p s' w2 -> served_on ep a a' p s' (w1 ++ w2).
Proof.
  assert (Hgo : writing a = true -> writing a1 = true -> todo a = w1 ++ todo a1 -> carried_on ep a1 a' p s' w2 ->
    served_on ep a a' p s' (w1 ++ w2)).
  { intros Hwa _ Ht H. apply served_on_writing; [done|]. unfold carried_on in *. destruct p.
    - destruct H as (rest & Hr & Hb). exists rest. split; [by rewrite Ht, Hr, app_assoc|done].
    - destruct H as [H1 H2]. split; [done|]. by rewrite Ht, H2, app_assoc. }
  destruct a as [request| | | | ]; cbn [progress].
  2-5: intros [H1 H2] H; apply Hgo; try done; by apply (served_on_writing ep a1).
  intros [-> (data & [[-> Hc]|(Hd & Hr & Hc)])]; rewrite app_nil_l.
  - cbn [served_on]. intros [[-> H]|(d2 & a2 & H1 & H2 & H3)].
    + left. split; [done|]. intros Hp. destruct (H Hp) as [d2 ->]. exists (data ++ d2). by rewrite app_assoc.
    + right. exists (data ++ d2), a2. by rewrite app_assoc.
  - intros H. right. exists data, a1. split; [done|]. split; [done|].
    destruct (respond_ok (request ++ data)) as (a2 & E2 & _ & Hw & _). rewrite Hr in E2. injection E2 as <-.
    by apply served_on_writing in H.
Qed.

Lemma turns_nonneg ep a (s : ReactorState C) : serving_ok a -> 0 <= turns_left a /\ 0 <= to_read ep s.
Proof.
  intros Ha. split; [|unfold to_read; destruct (conns (stack s) !! ep); [apply zlen_nonneg|lia]].
  destruct a; cbn; try lia; unfold serving_ok, bench_range in Ha; unfold CHUNK;
    match goal with |- 0 <= _ + ?q => assert (0 <= q) by (apply Z.div_pos; lia); lia end.
Qed.

Lemma serve_loop_ok fuel id ep a (s : ReactorState C) :
  reactor_ok s -> waiting s -> serving_ok a -> turns ep a s < Z.of_nat fuel ->
  exists a' p s' written, serve_loop fuel ep id a s = Some (a', p, s') /\ stepped ep s s' written /\ serving_ok a' /\
    (p = Pending -> registered id ep a' s') /\ served_on ep a a' p s' written.
Proof.
  revert a s. induction fuel as [|fuel IH]; intros a s Hok Hw Ha Hf.
  { exfalso. unfold turns in Hf. destruct (turns_nonneg ep a s Ha). destruct (writing a); lia. }
  cbn [serve_loop]. destruct (serve_step_ok id ep a s Hok Hw Ha) as (s1 & step & w1 & E1 & Hs1 & Hr1). rewrite E1.
  destruct step as [a1|a1|]; cbn [step_result] in Hr1.
  - destruct Hr1 as (Ha1 & Ht1 & Hp1).
    destruct (IH a1 s1 (sp_ok _ _ _ _ Hs1) (sp_waiting _ _ _ _ Hs1) Ha1 ltac:(lia)) as (a' & p & s' & w2 & E2 & Hs2 & Ha2 & Hreg & Hsv).
    exists a', p, s', (w1 ++ w2). split; [done|]. split; [by eapply stepped_then|]. split; [done|]. split; [done|].
    by eapply served_on_step.
  - destruct Hr1 as (Ha1 & Hreg & Hwr & Hx). exists a1, Pending, s1, w1. split; [done|]. split; [done|]. split; [done|].
    split; [done|]. destruct (writing a) eqn:Ewa.
    + apply served_on_writing; [done|]. by split.
    + destruct Hx as [-> ->]. destruct a; try done. left. split; [done|]. intros _. exists []. by rewrite app_nil_r.
  - exists a, (Ready tt), s1, w1. split; [done|]. split; [done|]. split; [done|]. split; [done|].
    destruct (writing a) eqn:Ewa; [by apply served_on_writing|]. destruct a; try done. by left.
Qed.

Lemma serve_fuel_enough ep a (s : ReactorState C) : serving_ok a -> turns ep a s < Z.of_nat (serve_fuel ep a s).
Proof.
  intros Ha. unfold serve_fuel, turns.
  destruct (turns_nonneg ep a s Ha).
  destruct a; cbn [writing]; lia.
Qed.

(** *** The server's invariant *)

(** One task per connection: no two serve the same one, none serves one that
    still waits to be accepted. *)
Record server_inv (s : ReactorState C) (ex : Executor Task) : Prop := {
  sv_exec : exec_ok ex;
  sv_room : next_id ex + Z.of_nat (length (accept_queue s)) < U64_MAX;
  sv_tasks k ep a : tasks ex !! k = Some (Serve ep a) ->
    serving_ok a /\ ep ∉ accept_queue s /\ (ep ∈ announced s \/ conns (stack s) !! ep = None);
  sv_apart k1 k2 ep a1 a2 : tasks ex !! k1 = Some (Serve ep a1) -> tasks ex !! k2 = Some (Serve ep a2) -> k1 = k2;
  sv_acceptor k1 k2 : tasks ex !! k1 = Some Acceptor -> tasks ex !! k2 = Some Acceptor -> k1 = k2;
  sv_queue : NoDup (accept_queue s);
  sv_queued ep : ep ∈ accept_queue s -> ep ∈ announced s;
}.

(** Handing a connection out: its task is the only one for it. *)
Lemma server_inv_spawn (s : ReactorState C) (ex : Executor Task) pre remote queue' :
  server_inv s ex -> accept_queue s = pre ++ remote :: queue' ->
  exists ex', spawn ex (Serve remote (Reading [])) = Some ex' /\ server_inv (s <| accept_queue := queue' |>) ex' /\
    tasks ex' = <[next_id ex := Serve remote (Reading [])]> (tasks ex) /\ woken ex' = woken ex ++ [next_id ex] /\
    next_id ex' = next_id ex + 1 /\ tasks ex !! next_id ex = None.
Proof.
  intros [H1 H2 H3 H4 H5 H6 H7] Eq.
  assert (Hlen : Z.of_nat (length (accept_queue s)) >= 1 + Z.of_nat (length queue')).
  { rewrite Eq, length_app. cbn. lia. }
  destruct (spawn_total ex (Serve remote (Reading [])) ltac:(lia)) as [ex' E].
  destruct (spawn_spec ex ex' _ H1 E) as (Hok & Hn & Ht & Hw & Hi). exists ex'. split; [done|]. split; [|by split_and!].
  assert (Hin : remote ∈ accept_queue s) by (rewrite Eq; apply elem_of_app; right; by left).
  rewrite Eq in H6. apply list.NoDup_app in H6 as (_ & _ & H6). apply list.NoDup_cons in H6 as [H6 H6'].
  assert (Hsub : forall ep, ep ∈ queue' -> ep ∈ accept_queue s) by (intros; rewrite Eq; apply elem_of_app; right; by right).
  split; cbn [set accept_queue announced stack]; rewrite ?Ht.
  - done.
  - lia.
  - intros k ep a. destruct (decide (k = next_id ex)) as [->|Hk].
    + rewrite lookup_insert_eq. intros [= <- <-]. split; [done|]. split; [done|]. left. by apply H7.
    + rewrite lookup_insert_ne by done. intros Hf. destruct (H3 k ep a Hf) as (Q1 & Q2 & Q3). split; [done|]. split; [|done]. auto.
  - assert (Hnew : forall k a, k <> next_id ex -> tasks ex !! k = Some (Serve remote a) -> False).
    { intros k a Hk Hf. by destruct (H3 k remote a Hf) as (_ & Q & _). }
    intros k1 k2 ep a1 a2. destruct (decide (k1 = next_id ex)) as [->|Hk1], (decide (k2 = next_id ex)) as [->|Hk2];
      rewrite ?lookup_insert_eq, ?(lookup_insert_ne (tasks ex)) by done; try done.
    + intros [= <- <-] Hf. by destruct (Hnew k2 a2).
    + intros Hf [= <- <-]. by destruct (Hnew k1 a1).
    + apply H4.
  - intros k1 k2. destruct (decide (k1 = next_id ex)) as [->|Hk1], (decide (k2 = next_id ex)) as [->|Hk2];
      rewrite ?lookup_insert_eq, ?(lookup_insert_ne (tasks ex)) by done; try done. apply H5.
  - done.
  - intros ep Hep. by apply H7, Hsub.
Qed.

Lemma server_inv_waker (s : ReactorState C) (ex : Executor Task) aw : server_inv s ex -> server_inv (s <| accept_waker := aw |>) ex.
Proof. intros []. by split. Qed.

(** *** The accept loop *)

Lemma acceptor_loop_ok fuel id (s : ReactorState C) (ex : Executor Task) :
  server_inv s ex -> (length (accept_queue s) < fuel)%nat ->
  exists s' ex', acceptor_loop fuel id s ex = Some (s', ex') /\
    s' = s <| accept_queue := [] |> <| accept_waker := Some id |> /\ server_inv s' ex' /\
    (length (woken ex') <= length (woken ex) + length (accept_queue s))%nat /\
    (forall k, k ∈ woken ex -> k ∈ woken ex') /\
    (forall k f, tasks ex' !! k = Some f -> tasks ex !! k = Some f \/ k ∈ woken ex' /\ f <> Acceptor) /\
    (forall k, k < next_id ex -> tasks ex' !! k = tasks ex !! k) /\ next_id ex <= next_id ex'.
Proof.
  revert s ex. induction fuel as [|fuel IH]; intros s ex Hsv Hf; [lia|]. cbn [acceptor_loop].
  pose proof (poll_accept_spec id s) as Hp. destruct (poll_accept id s) as [s1 [remote|]]; cbn [fst snd] in Hp.
  - destruct Hp as (queue' & pre & -> & Eq & _).
    destruct (server_inv_spawn s ex pre remote queue' Hsv Eq) as (ex1 & -> & Hsv1 & Et & Ew & En & Hnone).
    assert (Hlen : (length (accept_queue s) >= S (length queue'))%nat) by (rewrite Eq, length_app; cbn; lia).
    destruct (IH _ ex1 Hsv1 ltac:(cbn; lia)) as (s' & ex' & E & Es & Hsv' & Hl & Hw & Hts & Hold & Hnx).
    exists s', ex'. split; [done|]. split; [by rewrite Es; destruct s|]. split; [done|].
    split; [rewrite Ew, length_app in Hl; cbn in Hl; lia|]. split.
    { intros k Hk. apply Hw. rewrite Ew. apply elem_of_app. by left. }
    split.
    { intros k f Hk. destruct (Hts k f Hk) as [Hk1|?]; [|by right]. rewrite Et in Hk1.
      destruct (decide (k = next_id ex)) as [->|Hne].
      - rewrite lookup_insert_eq in Hk1. injection Hk1 as <-. right. split; [|done].
        apply Hw. rewrite Ew. apply elem_of_app. right. by apply list_elem_of_singleton.
      - rewrite lookup_insert_ne in Hk1 by done. by left. }
    split; [|lia]. intros k Hk. rewrite Hold by lia. rewrite Et, lookup_insert_ne; [done|lia].
  - subst s1. exists (s <| accept_queue := [] |> <| accept_waker := Some id |>), ex. split; [done|]. split; [done|]. split.
    { apply server_inv_waker. destruct Hsv as [H1 H2 H3 H4 H5 H6 H7]. split; try done.
      - cbn. lia.
      - intros k ep a Hk. destruct (H3 k ep a Hk) as (Q1 & Q2 & Q3). split; [done|]. split; [|done]. apply not_elem_of_nil.
      - apply NoDup_nil_2.
      - intros ep Hep. by apply elem_of_nil in Hep. }
    split; [lia|]. split; [done|]. split; [by left|]. split; [done|lia].
Qed.

(** *** The interfaces *)

Definition parked (id : Waker) (task : Task) (s : ReactorState C) : Prop :=
  match task with Acceptor => accept_waker s = Some id | Serve ep a => registered id ep a s end.

Definition running (s : ReactorState C) (ex : Executor Task) : Prop := reactor_ok s /\ waiting s /\ server_inv s ex.

Lemma server_inv_without (s : ReactorState C) (ex : Executor Task) id :
  server_inv s ex -> server_inv s (ex <| tasks := delete id (tasks ex) |>).
Proof.
  intros [H1 H2 H3 H4 H5 H6 H7].
  assert (Hd : forall k f, delete id (tasks ex) !! k = Some f -> tasks ex !! k = Some f)
    by (intros k f Hk; apply lookup_delete_Some in Hk; tauto).
  split; cbn; try done.
  - destruct H1 as [Hn Ht]. split; [done|]. intros k f Hk. exact (Ht k f (Hd k f Hk)).
  - intros k ep a Hk. eapply H3, Hd, Hk.
  - intros k1 k2 ep a1 a2 K1 K2. eapply H4; apply Hd; eassumption.
  - intros k1 k2 K1 K2. apply H5; by apply Hd.
Qed.

(** Putting a task that waits back. *)
Lemma server_inv_with (s : ReactorState C) (ex : Executor Task) id task :
  server_inv s ex -> 0 <= id < next_id ex -> tasks ex !! id = None ->
  match task with
  | Acceptor => forall k, tasks ex !! k <> Some Acceptor
  | Serve ep a => serving_ok a /\ ep ∉ accept_queue s /\ (ep ∈ announced s \/ conns (stack s) !! ep = None) /\
      forall k a', tasks ex !! k <> Some (Serve ep a')
  end -> server_inv s (ex <| tasks := <[id := task]> (tasks ex) |>).
Proof.
  intros [H1 H2 H3 H4 H5 H6 H7] Hid Hnone Ht. split; cbn; try done.
  - destruct H1 as [Hn Hts]. split; [done|]. by apply map_Forall_insert_2.
  - intros k ep a. destruct (decide (k = id)) as [->|Hk].
    + rewrite lookup_insert_eq. intros [= ->]. destruct Ht as (Q1 & Q2 & Q3 & _). by split_and!.
    + rewrite lookup_insert_ne by done. apply H3.
  - intros k1 k2 ep a1 a2. destruct (decide (k1 = id)) as [->|Hk1], (decide (k2 = id)) as [->|Hk2];
      rewrite ?lookup_insert_eq, ?(lookup_insert_ne (tasks ex)) by done; try done; [| |apply H4].
    + intros [= ->] K. destruct Ht as (_ & _ & _ & Ht). by destruct (Ht k2 a2).
    + intros K [= ->]. destruct Ht as (_ & _ & _ & Ht). by destruct (Ht k1 a1).
  - intros k1 k2. destruct (decide (k1 = id)) as [->|Hk1], (decide (k2 = id)) as [->|Hk2];
      rewrite ?lookup_insert_eq, ?(lookup_insert_ne (tasks ex)) by done; try done; [| |apply H5].
    + intros [= ->] K. by destruct (Ht k2).
    + intros K [= ->]. by destruct (Ht k1).
Qed.

Lemma server_inv_stream ep (s s' : ReactorState C) (ex : Executor Task) :
  server_inv s ex -> at_stream ep s s' -> server_inv s' ex.
Proof.
  intros [H1 H2 H3 H4 H5 H6 H7] [A1 A2 A3 A4 A5 A6 A7]. split; rewrite ?A2, ?A4; try done.
  intros k e a Hk. destruct (H3 k e a Hk) as (Q1 & Q2 & Q3). split; [done|]. split; [done|].
  destruct Q3 as [Q3|Q3]; [by left|right]. apply eq_None_not_Some. rewrite A7. by apply eq_None_not_Some.
Qed.

Lemma registered_stream ep e id a (s s' : ReactorState C) :
  at_stream ep s s' -> e <> ep -> registered id e a s -> registered id e a s'.
Proof. intros [] Hn. unfold registered. destruct (writing a); [rewrite as_write0 by done|rewrite as_read0 by done]; done. Qed.

(** A poll of the accept loop. *)
Lemma poll_acceptor_keeps id (s : ReactorState C) (ex : Executor Task) :
  running s ex -> tasks ex !! id = Some Acceptor ->
  let ex0 := ex <| tasks := delete id (tasks ex) |> in
  exists fut' p s' ex', poll_task Acceptor id s ex0 = Some (fut', p, s', ex') /\
    promise running (fun s => length (accept_queue s)) parked id s ex0 fut' p s' ex'.
Proof.
  intros (Hok & Hw & Hsv) Hid ex0. cbn [poll_task].
  pose proof (server_inv_without s ex id Hsv) as Hsv0. fold ex0 in Hsv0.
  assert (Hrange : 0 <= id < next_id ex) by exact (proj2 (sv_exec _ _ Hsv) _ _ Hid).
  assert (Hno : forall k, tasks ex0 !! k <> Some Acceptor).
  { intros k Hk. cbn in Hk. apply lookup_delete_Some in Hk as [Hn Hk]. apply Hn. exact (sv_acceptor _ _ Hsv _ _ Hid Hk). }
  destruct (acceptor_loop_ok (S (length (accept_queue s))) id s ex0 Hsv0 ltac:(lia))
    as (s' & ex' & E & Es & Hsv' & Hl & Hwk & Hts & Hold & Hnx). rewrite E.
  assert (Hgone : tasks ex' !! id = None).
  { rewrite Hold by (cbn; lia). cbn. apply lookup_delete_eq. }
  exists Acceptor, Pending, s', ex'. split; [done|]. split.
  - split; [|split]; [rewrite Es; by destruct Hok|rewrite Es; destruct Hw; split; try done; by right|].
    apply server_inv_with; [done|cbn in Hnx; lia|done|].
    intros k Hk. destruct (Hts k Acceptor Hk) as [Hk'|[_ Hk']]; [by apply (Hno k)|done].
  - rewrite Es. cbn in Hl |- *. lia.
  - done.
  - intros _. by rewrite Es.
  - done.
  - intros k f Hn Hk. destruct (Hts k f Hk) as [Hk'|[? _]]; [right|by left]. split; [done|].
    rewrite Es. destruct f as [|ep a]; [by apply Hno in Hk'|done].
Qed.

(** A poll of [serve]. *)
Lemma poll_serve_keeps id ep a (s : ReactorState C) (ex : Executor Task) :
  running s ex -> tasks ex !! id = Some (Serve ep a) ->
  let ex0 := ex <| tasks := delete id (tasks ex) |> in
  exists fut' p s' ex', poll_task (Serve ep a) id s ex0 = Some (fut', p, s', ex') /\
    promise running (fun s => length (accept_queue s)) parked id s ex0 fut' p s' ex'.
Proof.
  intros (Hok & Hw & Hsv) Hid ex0. cbn [poll_task]. destruct (sv_tasks _ _ Hsv _ _ _ Hid) as (Ha & Hq & Hann).
  pose proof (server_inv_without s ex id Hsv) as Hsv0. fold ex0 in Hsv0.
  assert (Hrange : 0 <= id < next_id ex) by exact (proj2 (sv_exec _ _ Hsv) _ _ Hid).
  assert (Hgone : tasks ex0 !! id = None) by (cbn; apply lookup_delete_eq).
  assert (Halone : forall k a', tasks ex0 !! k <> Some (Serve ep a')).
  { intros k a' Hk. cbn in Hk. apply lookup_delete_Some in Hk as [Hn Hk]. apply Hn. exact (sv_apart _ _ Hsv _ _ _ _ _ Hid Hk). }
  destruct (serve_loop_ok (serve_fuel ep a s) id ep a s Hok Hw Ha (serve_fuel_enough ep a s Ha))
    as (a' & p & s' & w & E & [S1 S2 S3 S4] & Ha' & Hreg & _). rewrite E.
  pose proof (server_inv_stream _ _ _ _ Hsv0 S3) as Hsv'.
  exists (Serve ep a'), p, s', ex0. split; [done|]. split.
  - split; [done|]. split; [done|]. destruct p; [done|].
    apply server_inv_with; [done|done|done|]. split; [done|]. rewrite (as_queue _ _ _ S3), (as_announced _ _ _ S3). split; [done|].
    split; [|done]. destruct Hann as [?|Hn]; [by left|right]. apply eq_None_not_Some. rewrite (as_live _ _ _ S3). by apply eq_None_not_Some.
  - by rewrite (as_queue _ _ _ S3).
  - done.
  - exact Hreg.
  - done.
  - intros k f Hn Hk. right. split; [done|]. destruct f as [|e ae]; cbn [parked].
    + by rewrite (as_accept _ _ _ S3).
    + eapply registered_stream; [exact S3|]. intros ->. by apply (Halone k ae).
Qed.
End serving.

#[export] Instance Task_laws {C} `{CC : CongestionControl C} {CL : CongestionLaws C} : ApplicationLaws Task (ReactorState C).
Proof.
  refine {| app_inv := running; app_credit := fun s => length (accept_queue s); app_parked := parked |}.
  - intros s ex wk (H1 & H2 & [H3 H4 H5 H6 H7 H8 H9]). by split_and!.
  - intros [|ep a] id s ex Hr Hid; [by apply poll_acceptor_keeps|by apply poll_serve_keeps].
Defined.

(** *** Between turns *)

Section client.
Context {C : Type} `{CC : CongestionControl C} {CL : CongestionLaws C}.

Record between_turns (s : ReactorState C) (ex : Executor Task) : Prop := {
  bt_exec : exec_ok ex;
  bt_tasks k ep a : tasks ex !! k = Some (Serve ep a) -> serving_ok a /\ ep ∉ accept_queue s /\ ep ∈ announced s;
  bt_apart k1 k2 ep a1 a2 : tasks ex !! k1 = Some (Serve ep a1) -> tasks ex !! k2 = Some (Serve ep a2) -> k1 = k2;
  bt_acceptor k1 k2 : tasks ex !! k1 = Some Acceptor -> tasks ex !! k2 = Some Acceptor -> k1 = k2;
  bt_queue : NoDup (accept_queue s);
  bt_queued ep : ep ∈ accept_queue s -> ep ∈ announced s;
  bt_parked k f : tasks ex !! k = Some f -> k ∈ woken ex \/ parked k f s;
}.

Lemma between_wake ho (s s' : ReactorState C) (ex ex' : Executor Task) :
  order_ok ho -> between_turns s ex -> reactor_ok s -> dispatched ho s s' ex ex' ->
  next_id ex' + Z.of_nat (length (accept_queue s')) < U64_MAX -> running s' ex' /\ none_stranded [] s' ex'.
Proof.
  intros Hho [B1 B2 B3 B4 B5 B6 B7] Hok Hd Hroom. pose proof (dispatched_waiting _ _ _ _ _ Hd) as Hw.
  destruct Hd as [D1 D2 D3 D4 D5 D6 D7 D8 (ws & -> & D9)].
  assert (Hq : forall ep, ep ∈ accept_queue s' <-> ep ∈ dom (conns (stack s)) /\ (ep ∈ accept_queue s \/ ep ∈ fresh ho s)).
  { intros ep. by rewrite D7, list_elem_of_filter, elem_of_app. }
  split; [split; [|split; [done|]]|].
  - destruct Hok. split; by rewrite D1.
  - split; [done|done| | |done|..]; try done.
    + intros k ep a Hk. destruct (B2 k ep a Hk) as (Q1 & Q2 & Q3). split; [done|]. split.
      { rewrite Hq, fresh_elem by done. intros [_ [?|[_ ?]]]; done. }
      rewrite D1, D6. destruct (conns (stack s) !! ep) eqn:Ec; [left|by right]. split; [by eexists|by left].
    + rewrite D7. apply list.NoDup_filter, list.NoDup_app. split; [done|]. split; [|by apply fresh_NoDup].
      intros ep Hep Hf. apply fresh_elem in Hf as [_ Hf]; [|done]. apply Hf. by apply B6.
    + intros ep Hep. apply Hq in Hep as [Hl Hep]. apply D6. split; [by apply elem_of_dom|].
      destruct Hep as [Hep|Hep]; [left; by apply B6|right]. by apply fresh_elem in Hep as [? _].
  - intros k f Hk. cbn [woken set]. destruct (B7 k f Hk) as [?|Hp]; [left; apply elem_of_app; by left|].
    assert (Hin : k ∈ ws -> k ∈ woken ex ++ ws) by (intros; apply elem_of_app; by right).
    destruct f as [|ep a]; cbn [parked] in Hp.
    + destruct (decide (accept_queue s ++ fresh ho s = [])) as [Hn|Hn].
      * right; right. cbn. by rewrite D8, Hn.
      * left. apply Hin, D9. left. by split.
    + unfold registered in Hp. destruct (writing a) eqn:Ewa.
      * destruct (is_ready write_ready (conns (stack s)) ep) eqn:Er.
        -- left. apply Hin, D9. right; right; right. by exists ep.
        -- right; right. cbn. unfold registered. by rewrite Ewa, D4, Er.
      * destruct (is_ready read_ready (conns (stack s)) ep) eqn:Er.
        -- left. apply Hin, D9. right; right; left. by exists ep.
        -- right; right. cbn. unfold registered. by rewrite Ewa, D3, Er.
Qed.

(** A parked task's connection is in the table, so it is still announced. *)
Lemma running_sleeps (s : ReactorState C) (ex : Executor Task) :
  running s ex -> (forall k f, tasks ex !! k = Some f -> parked k f s) -> between_turns s ex.
Proof.
  intros (Hok & [W1 W2 W3 W4] & [H1 H2 H3 H4 H5 H6 H7]) Hp. split; try done.
  - intros k ep a Hk. destruct (H3 k ep a Hk) as (Q1 & Q2 & Q3). split; [done|]. split; [done|].
    destruct Q3 as [?|Hn]; [done|]. exfalso. specialize (Hp _ _ Hk). cbn in Hp. unfold registered in Hp.
    destruct (writing a); [destruct (W3 _ _ Hp) as (t & Ht & _)|destruct (W2 _ _ Hp) as (t & Ht & _)]; congruence.
  - intros k f Hk. right. by apply Hp.
Qed.
End client.

#[export] Instance Server_client {C} `{CC : CongestionControl C} {CL : CongestionLaws C} : ClientLaws C Task.
Proof.
  refine {| cl_idle := between_turns;
            cl_room := fun s ex => next_id ex + Z.of_nat (length (accept_queue s)) < U64_MAX |}.
  - intros s ex (H1 & H2 & _). by split.
  - intros s ex st nw [B1 B2 B3 B4 B5 B6 B7]. split; try done.
  - intros ho s ex s' ex' Hho Hb Hok Hd Hr. by eapply between_wake.
  - intros s ex Hr Hp. by apply running_sleeps.
Defined.
