(* ===== verification/ServerProps.v ===== *)
(** The theorems about the running server: [tcp-tun/src/main.rs] and [http.rs]
    on the runtime of [tcp-core/src/runtime]. *)

From stdpp Require Import gmap relations.
From S2P Require Import Prelude Seq Time Buffers Isn Checksum Ipv4 TcpWire Congestion Endpoint Tcb TcbInv TcbRecv TcbSegment TcbStates TcbLife TcbDemo TcbWork TcbEnds Iface IfaceSafe IfaceDrain IfaceProps Executor Socket Reactor ReactorSafe ReactorWake ReactorTurn Http Server ServerSafe.
Import RingBuffer (RingBuffer, mkRing, buf, capacity).

(** *** The sleep between turns *)

(** The sleep is at most [poll(2)]'s, never negative but for the endless one, and
    ends within a millisecond after the deadline, not before. *)
Lemma sleep_reaches_the_deadline deadline now :
  match deadline with
  | None => timeout_ms deadline now = -1
  | Some d => 0 <= timeout_ms deadline now < 2 ^ 31 /\
      (timeout_ms deadline now < 2 ^ 31 - 1 -> now + timeout_ms deadline now * 1000 >= d) /\
      (now < d -> now + (timeout_ms deadline now - 1) * 1000 < d) /\ (d <= now -> timeout_ms deadline now = 0)
  end.
Proof.
  destruct deadline as [d|]; [|done]. unfold timeout_ms, saturating_micros_since.
  assert (Hm : sat_sub d now = Z.max 0 (d - now)) by (unfold sat_sub; lia). rewrite Hm. set (m := Z.max 0 (d - now)).
  pose proof (Z.div_mod (m + 999) 1000 ltac:(lia)). pose proof (Z.mod_pos_bound (m + 999) 1000 ltac:(lia)).
  assert (0 <= (m + 999) / 1000) by (apply Z.div_pos; lia).
  set (q := (m + 999) / 1000) in *. split_and!; lia.
Qed.

Section server.
Context {D C E : Type} `{DV : Device D E} `{DL : !DeviceLaws D E}.
Context `{CC : CongestionControl C} {CL : CongestionLaws C}.
Context (Cc_new : CcKind -> Z -> C).
Context (Cc_new_ok : forall k m, 0 < m <= U16_MAX -> cc_ok m (Cc_new k m)).

(** *** Nobody is stranded *)

(** A full queue in the FIN states is in flight, and its timer is armed. *)
Lemma fin_in_flight (t : Tcb C) :
  tcb_ok t -> tx_free t <= 0 -> is_some (fin_seq t) = true -> state t <> Closed -> is_some (rtx_deadline t) = true.
Proof.
  intros Hok Hf Hfin Hc. apply (ok_tmr _ Hok); [done|]. intros Heq.
  pose proof (ok_snd _ Hok) as Hsnd. destruct (fin_seq t) as [f|] eqn:Ef; [|done].
  destruct (si_fin _ _ _ _ _ _ _ _ _ Hsnd f eq_refl) as [_ H].
  pose proof (si_cap _ _ _ _ _ _ _ _ _ Hsnd) as Hcap. unfold tx_free, RingBuffer.free in Hf. rewrite Hcap in Hf.
  unfold TX_BUFFER in *. destruct (fin_acked t).
  - destruct H as [_ H]. unfold RingBuffer.len in Hf. rewrite H in Hf. by destruct Hf.
  - destruct H as [_ H]. rewrite Heq, off_self in H. unfold RingBuffer.len in H.
    pose proof (zlen_nonneg (buf (tx t))). lia.
Qed.

(** What a suspended task waits for: its waker is registered, and the event has
    not happened. *)
Definition sleeping (id : Waker) (task : Task) (s : ReactorState C) : Prop :=
  match task with
  | Acceptor => accept_waker s = Some id /\ accept_queue s = []
  | Serve ep a => exists t, conns (stack s) !! ep = Some t /\
      if writing a then write_wakers s !! ep = Some id /\ tx_free t <= 0 /\
        (writable t = true \/ (state t = FinWait1 \/ state t = LastAck) /\ is_some (rtx_deadline t) = true)
      else read_wakers s !! ep = Some id /\ rx_available t = 0 /\ recv_eof t = false /\ state t <> Closed
  end.

Lemma parked_sleeps id task (s : ReactorState C) :
  reactor_ok s -> waiting s -> parked id task s -> sleeping id task s.
Proof.
  intros Hok [W1 W2 W3 W4] Hp. destruct task as [|ep a]; cbn [parked sleeping] in *.
  { split; [done|]. destruct W1 as [W1|W1]; [congruence|done]. }
  unfold registered in Hp. destruct (writing a).
  - destruct (W3 _ _ Hp) as (t & Ht & Hf & Hw). exists t. split; [done|]. split; [done|]. split; [done|].
    destruct Hw as [?|[Hst Hfs]]; [by left|right]. split; [done|].
    apply fin_in_flight; try done; [exact (en_tcb _ _ _ (sk_conns _ (ra_stack _ Hok) _ _ Ht))|].
    by destruct Hst as [->| ->].
  - destruct (W2 _ _ Hp) as (t & Ht & Hr). exists t. split; [done|]. split; [done|].
    unfold read_ready, state_eqb in Hr. apply orb_false_iff in Hr as [Hr Hc]. apply orb_false_iff in Hr as [Ha He].
    apply bool_decide_eq_false in Hc. split; [|done]. pose proof (zlen_nonneg (buf (rx t))). unfold rx_available, RingBuffer.len in *. lia.
Qed.


End server.

Section response.
Context {C : Type} `{CC : CongestionControl C} {CL : CongestionLaws C}.

(** *** One response *)

(** The response a request is owed. *)
Definition response (request : list Z) : option (list Z) :=
  let? path := request_path request in
  Some (if is_bench path then
          let total := bench_total (bench_size path) in bench_header total ++ xs total
        else index_header ++ index_body).

(** One poll of a serving task, in any sound state of the reactor: from [a], it
    hands [written] to its connection; [left] is where it waits, if it does. *)
Definition one_poll (ep : Endpoint) (a : Serving) (written : list Z) (left : option Serving) (fin : Prop) : Prop :=
  exists (s s' : ReactorState C) (ex : Executor Task) id a' p,
    reactor_ok s /\ waiting s /\ poll_task (Serve ep a) id s ex = Some (Serve ep a', p, s', ex) /\
    queued ep s s' written /\ left = (match p with Pending => Some a' | Ready _ => None end) /\ fin = broken ep s'.

(** A task's life so far, poll after poll, whatever happens to the reactor in
    between. *)
Inductive life (ep : Endpoint) : Serving -> list Z -> option Serving -> Prop -> Prop :=
| life_start a : life ep a [] (Some a) False
| life_waits a w a' w' left fin' fin : one_poll ep a w (Some a') fin' -> life ep a' w' left fin -> life ep a (w ++ w') left fin
| life_ends a w fin : one_poll ep a w None fin -> life ep a w None fin.

Lemma one_poll_served ep a w left fin : serving_ok a -> one_poll ep a w left fin ->
  exists a' p (s' : ReactorState C), left = (match p with Pending => Some a' | Ready _ => None end) /\ (fin = broken ep s') /\
    serving_ok a' /\ served_on ep a a' p s' w.
Proof.
  intros Ha (s & s' & ex & id & a' & p & Hok & Hw & E & Hq & Hl & Hf). cbn [poll_task] in E.
  destruct (serve_loop_ok (serve_fuel ep a s) id ep a s Hok Hw Ha (serve_fuel_enough ep a s Ha))
    as (a2 & p2 & s2 & w2 & E2 & [S1 S2 S3 S4] & Ha' & _ & Hsv).
  rewrite E2 in E. injection E as <- <- <-. exists a2, p2, s2.
  rewrite (queued_unique _ _ _ _ _ Hq S4). by split_and!.
Qed.

(** Once the response is begun, what is written is its next part. *)
Lemma life_writing ep a w left fin : serving_ok a -> writing a = true -> life ep a w left fin ->
  exists rest, todo a = w ++ rest /\
    match left with Some a' => rest = todo a' /\ writing a' = true | None => rest = [] \/ fin end.
Proof.
  intros Ha Hwa H. induction H as [a|a w a' w' left fin' fin Hp _ IH|a w fin Hp].
  - exists (todo a). by split_and!.
  - destruct (one_poll_served _ _ _ _ _ Ha Hp) as (a2 & p & s' & E & _ & Ha' & Hsv). destruct p; [done|]. injection E as <-.
    apply served_on_writing in Hsv; [|done]. destruct Hsv as [Hw' Ht]. destruct (IH Ha' Hw') as (rest & Er & Hl).
    exists rest. split; [by rewrite Ht, Er, app_assoc|done].
  - destruct (one_poll_served _ _ _ _ _ Ha Hp) as (a2 & p & s' & E & -> & Ha' & Hsv). destruct p; [|done].
    apply served_on_writing in Hsv; [|done]. destruct Hsv as (rest & Et & Hr). by exists rest.
Qed.
(** The state that a complete request leads to has its response to write. *)
Lemma respond_response request a : respond request = Some a ->
  serving_ok a /\ writing a = true /\ response request = Some (todo a).
Proof.
  intros H. destruct (respond_ok request) as (a' & E & H1 & H2 & _ & path & Hp & Ht). rewrite H in E. injection E as <-.
  split; [done|]. split; [done|]. unfold response. by rewrite Hp, Ht.
Qed.

(** What a life from [Reading request] amounts to. *)
Definition answered (request w : list Z) (left : option Serving) (fin : Prop) : Prop :=
  (w = [] /\ (left = None \/ exists data, left = Some (Reading (request ++ data)))) \/
  exists data resp rest, let all := request ++ data in
    (headers_complete all = true \/ MAX_REQUEST < zlen all) /\ response all = Some resp /\ resp = w ++ rest /\
    match left with Some a => rest = todo a | None => rest = [] \/ fin end.

Lemma life_reading ep request w left fin : life ep (Reading request) w left fin -> answered request w left fin.
Proof.
  intros H. remember (Reading request) as a eqn:Ea. revert request Ea.
  induction H as [a|a w a' w' left fin' fin Hp Hl IH|a w fin Hp]; intros request ->.
  - left. split; [done|]. right. exists []. by rewrite app_nil_r.
  - destruct (one_poll_served ep (Reading request) _ _ _ I Hp) as (a2 & p & s' & E & _ & Ha' & Hsv). destruct p; [done|]. injection E as <-.
    destruct Hsv as [[-> Hr]|(data & a1 & Hr & Hc & Hw & Ht)].
    + destruct (Hr eq_refl) as [data ->]. rewrite app_nil_l. destruct (IH _ eq_refl) as [[-> Hx]|(d2 & resp & rest & Hx)].
      * left. split; [done|]. destruct Hx as [?|[d2 ->]]; [by left|right]. exists (data ++ d2). by rewrite app_assoc.
      * right. exists (data ++ d2), resp, rest. by rewrite app_assoc.
    + right. destruct (respond_response _ _ Hr) as (_ & _ & Hresp). destruct (life_writing _ _ _ _ _ Ha' Hw Hl) as (rest & Er & Hx).
      exists data, (todo a1), rest. split; [done|]. split; [done|]. split; [by rewrite Ht, Er, app_assoc|].
      destruct left; [apply Hx|done].
  - destruct (one_poll_served ep (Reading request) _ _ _ I Hp) as (a2 & p & s' & E & -> & _ & Hsv). destruct p; [|done].
    destruct Hsv as [[-> _]|(data & a1 & Hr & Hc & rest & Ht & Hx)]; [left; split; [done|by left]|].
    right. destruct (respond_response _ _ Hr) as (_ & _ & Hresp). exists data, (todo a1), rest. by split_and!.
Qed.

End response.

(** *** A concrete server: the acceptor and one reader, a datagram waiting *)

Definition demo_runtime : Runtime MockDevice Reno.Reno Task :=
  mkRuntime (mkMock [demo_datagram] []) (mkReactor demo_stack ∅ ∅ ∅ None [] 0 {[demo_remote]})
    (mkExecutor {[0 := Acceptor; 1 := Serve demo_remote (Reading [])]} 2 [0; 1])
    (zrepeat 0 64) (zrepeat 0 64) [].

Lemma demo_runtime_ok : runtime_ok (E := unit) demo_runtime.
Proof.
  assert (H0 : bytes_ok (zrepeat 0 64)) by (apply Forall_replicate; unfold is_u8; lia).
  split; [split; [exact demo_stack_ok|by apply map_Forall_singleton]| |apply list.Forall_singleton, demo_datagram_ok|done].
  split; cbn [demo_runtime r_state r_exec tasks woken accept_queue announced].
  - split; [done|]. intros k f. cbn. rewrite lookup_insert_Some, lookup_singleton_Some. cbn. intros [[<- _]|(_ & <- & _)]; lia.
  - intros k ep a. rewrite lookup_insert_Some, lookup_singleton_Some. intros [[_ [=]]|(_ & _ & [= <- <-])].
    split; [done|]. split; [apply not_elem_of_nil|by apply elem_of_singleton].
  - intros k1 k2 ep a1 a2. rewrite !lookup_insert_Some, !lookup_singleton_Some. intros [[_ [=]]|(_ & <- & _)] [[_ [=]]|(_ & <- & _)]. done.
  - intros k1 k2. rewrite !lookup_insert_Some, !lookup_singleton_Some. intros [[<- _]|(_ & _ & [=])] [[<- _]|(_ & _ & [=])]. done.
  - apply NoDup_nil_2.
  - intros ep Hep. by apply elem_of_nil in Hep.
  - intros k f. rewrite lookup_insert_Some, lookup_singleton_Some.
    intros [[<- _]|(_ & <- & _)]; left; [by left|right; by left].
Qed.


(** *** A concrete response: the request has arrived, in one piece *)

Definition demo_asked : ReactorState Reno.Reno :=
  mkReactor (demo_stack <| conns := {[demo_remote := demo_tcb <| rx := mkRing demo_request RX_BUFFER |>]} |>)
    ∅ ∅ ∅ None [] 5 {[demo_remote]}.

Lemma demo_asked_ok : reactor_ok demo_asked /\ waiting demo_asked.
Proof.
  split; [|split; [by left|..]; intros ep w Hep; cbn in Hep; by rewrite lookup_empty in Hep].
  split; [|by apply map_Forall_singleton]. split; [exact demo_local_ok|done|done|]. apply map_Forall_singleton.
  split; [|done|done]. destruct demo_tcb_ok as [[] H2 H3 H4 H5 H6]. by split.
Qed.

(** One poll reads the request, queues the header and the page, and closes. *)
Definition demo_answered : ReactorState Reno.Reno :=
  match poll_task (Serve demo_remote (Reading [])) 1 demo_asked exec_new with Some (_, _, s, _) => s | None => demo_asked end.

Lemma demo_poll : exists a, poll_task (Serve demo_remote (Reading [])) 1 demo_asked exec_new =
    Some (Serve demo_remote a, Ready tt, demo_answered, exec_new) /\
  queued demo_remote demo_asked demo_answered (index_header ++ index_body).
Proof.
  exists (WritingIndexBody index_body). split; [vm_compute; reflexivity|].
  unfold queued. cbn [demo_asked stack conns set]. rewrite lookup_singleton_eq.
  exists (match conns (stack demo_answered) !! demo_remote with Some t => t | None => demo_tcb end).
  split; vm_compute; reflexivity.
Qed.

