(* ===== verification/RuntimeGaps.v ===== *)
(** Where the runtime ([tcp-core/src/runtime]) and the HTTP server
    ([tcp-tun/src/http.rs]) fall short of what their comments say, on concrete
    runs and in general. *)

From stdpp Require Import gmap.
From S2P Require Import Prelude Seq Time Buffers Isn Checksum Ipv4 TcpWire Congestion Endpoint Tcb TcbInv TcbDemo Iface IfaceSafe IfaceProps Executor Socket Reactor ReactorSafe ReactorWake ReactorTurn Http Server ServerSafe ServerProps.
Import RingBuffer (RingBuffer, mkRing, buf, capacity).

Section gaps.
Context {C : Type} `{CC : CongestionControl C} {CL : CongestionLaws C}.

(** *** An announced endpoint is never announced again *)

(** [announced] forgets an endpoint only at a dispatch that finds it gone.  One
    whose connection was reaped and reopened between two dispatches keeps its
    mark, so its new connection is not queued for [accept]. *)
Lemma announced_is_not_queued {T} ho (s s' : ReactorState C) (ex ex' : Executor T) ep :
  order_ok ho -> dispatched ho s s' ex ex' -> ep ∈ announced s -> is_Some (conns (stack s) !! ep) ->
  ep ∉ accept_queue s -> ep ∈ announced s' /\ ep ∉ accept_queue s'.
Proof.
  intros Hho Hd Ha Hl Hq. split; [apply (di_announced _ _ _ _ _ Hd); by split; [|left]|].
  rewrite (di_queue _ _ _ _ _ Hd), list_elem_of_filter, elem_of_app, fresh_elem by done. naive_solver.
Qed.

(** *** Connections are named by their remote endpoint alone *)

(** A second [connect] to the same remote takes the first one's place in the table
    and its waker in the registry, although its local port is its own. *)
Lemma second_connect_takes_over (Cc_new : CcKind -> Z -> C)
    (Cc_new_ok : forall k m, 0 < m <= U16_MAX -> cc_ok m (Cc_new k m)) remote cx1 cx2 (s : ReactorState C) :
  reactor_ok s -> endpoint_ok remote ->
  exists s1 s2 t1 t2, poll_connect Cc_new remote false cx1 s = Some (true, s1, Pending) /\
    poll_connect Cc_new remote false cx2 s1 = Some (true, s2, Pending) /\
    conns (stack s1) = <[remote := t1]> (conns (stack s)) /\ conns (stack s2) = <[remote := t2]> (conns (stack s)) /\
    connect_wakers s2 = <[remote := cx2]> (connect_wakers s).
Proof.
  intros [Hok _] Hr. unfold poll_connect. cbn [negb].
  destruct (connect_ok Cc_new Cc_new_ok (stack s) remote (now s) Hok Hr) as (st1 & t1 & p1 & E1 & Hok1 & _ & _ & _ & _ & _ & _ & Hc1 & _).
  rewrite E1. destruct (connect_ok Cc_new Cc_new_ok st1 remote (now s) Hok1 Hr) as (st2 & t2 & p2 & E2 & _ & _ & _ & _ & _ & _ & _ & Hc2 & _).
  eexists _, _, t1, t2. split; [reflexivity|]. cbn. rewrite E2. split; [reflexivity|]. cbn.
  split; [done|]. by rewrite Hc2, Hc1, !insert_insert_eq.
Qed.

(** *** A write of nothing *)

(** [Read] answers an empty buffer at once; [Write] waits for space it does not
    need, and is woken to wait again. *)
Lemma empty_write_waits remote cx (s : ReactorState C) t :
  conns (stack s) !! remote = Some t -> is_reset t = false -> writable t = true -> 0 < tx_free t ->
  exists s', poll_write remote [] cx s = (s', Pending) /\ write_wakers s' !! remote = Some cx.
Proof.
  intros Ht Hr Hw Hf. unfold poll_write, connection_mut. rewrite Ht, Hr, Hw. cbn [negb].
  assert (Hn : exists t', send t [] = (t', 0)).
  { unfold send. destruct (state t); try (by eexists); unfold RingBuffer.write; eexists;
      change (zlen []) with 0; unfold tx_free in Hf;
      first [rewrite Z.min_l by lia|rewrite Z.min_r by lia]; done. }
  destruct Hn as [t' ->]. eexists. split; [reflexivity|]. cbn. by rewrite lookup_insert_eq.
Qed.

(** *** A request that never comes *)

(** When the peer closes before its request is complete, [serve] returns without
    closing its side, and nothing else does: the connection stays as it is. *)
Lemma early_eof_leaves_connection remote request cx (s : ReactorState C) t :
  conns (stack s) !! remote = Some t -> rx_available t = 0 -> is_reset t = false -> recv_eof t = true ->
  serve_step remote cx (Reading request) s = Some (s, Done).
Proof.
  intros Ht Ha Hr He. unfold serve_step, poll_read, connection_mut. cbn [Z.eqb]. rewrite Ht, Ha, Hr, He. done.
Qed.
End gaps.

(** *** A run: the peer resets, connects again from the same port, sends a request *)

Definition arrives (now : Instant) (repr : TcpRepr) (data : list Z) (self : Runtime MockDevice Reno.Reno Task)
  : option (Runtime MockDevice Reno.Reno Task) :=
  let? frame := build_segment demo_remote demo_local repr data in
  let? (self, r) := turn (E := unit) demo_cc_new 4 16 some_order now (self <| device := Mock.inject (device self) frame |>) in
  match r with Ok _ => Some self | Err _ => None end.

Definition iss_of (self : Runtime MockDevice Reno.Reno Task) : Z :=
  match conns (stack (r_state self)) !! demo_remote with Some t => iss t | None => 0 end.

Definition from_peer : Z -> Z -> Z -> TcpRepr := bare_repr demo_remote demo_local.

Definition reconnects : option (Runtime MockDevice Reno.Reno Task) :=
  let self := demo_runtime <| device := Mock.new |> <| r_rx := zrepeat 0 256 |> <| r_tx := zrepeat 0 256 |> in
  let? self := arrives 10 (from_peer 1000 0 TcpFlags.RST) [] self in
  let? self := arrives 20 (from_peer 5000 0 TcpFlags.SYN) [] self in
  let? self := arrives 30 (from_peer 5001 (wrap32 (iss_of self + 1)) TcpFlags.ACK) demo_request self in
  arrives 40 (from_peer 5019 (wrap32 (iss_of self + 1)) TcpFlags.ACK) [] self.

(** The new connection is established and its request is waiting, but it is not in
    the accept queue, no task serves it, and it is still marked as announced. *)
Example reconnection_is_never_accepted :
  (let? self := reconnects in
   let? t := conns (stack (r_state self)) !! demo_remote in
   Some (state t, buf (rx t), accept_queue (r_state self), map_to_list (tasks (r_exec self)),
         bool_decide (demo_remote ∈ announced (r_state self)))) =
  Some (Established, demo_request, [], [(0, Acceptor)], true).
Proof. vm_compute. reflexivity. Qed.
