(* ===== verification/SimLink.v ===== *)
(** The simulator's network: [tcp-core/src/sim.rs].

    The seeded generator, the faulty link of the DST harness, and the three
    congested links (one FIFO, two class queues, a varying rate).  A counter's
    [+= 1] is a checked [u64] addition: [None] is its overflow. *)

From stdpp Require Import sorting.
From S2P Require Import Prelude Time Checksum Ipv4 Iface Executor Socket Reactor.

Definition chk64 (z : Z) : option Z := if z <=? U64_MAX then Some z else None.

(** ** [Rng]: SplitMix64 *)

Module Rng.
Record Rng := mkRng { state : Z }.

Definition new (seed : Z) : Rng := mkRng seed.
Definition next_u64 (self : Rng) : Rng * Z :=
  let state := wrap64 (state self + 0x9E3779B97F4A7C15) in
  let z := state in
  let z := wrap64 (Z.lxor z (Z.shiftr z 30) * 0xBF58476D1CE4E5B9) in
  let z := wrap64 (Z.lxor z (Z.shiftr z 27) * 0x94D049BB133111EB) in
  (mkRng state, Z.lxor z (Z.shiftr z 31)).
Definition chance_ppm (self : Rng) (ppm : Z) : Rng * bool :=
  if ppm =? 0 then (self, false)
  else let '(self, z) := next_u64 self in (self, z mod 1000000 <? ppm).
Definition below (self : Rng) (n : Z) : Rng * Z :=
  if n =? 0 then (self, 0) else let '(self, z) := next_u64 self in (self, z mod n).
End Rng.


(** ** Frames in flight *)

Inductive Side := ToClient | ToServer.
#[export] Instance Side_eq_dec : EqDecision Side.
Proof. solve_decision. Defined.

(** A [[T; 2]] indexed by [side as usize], or by a flow number. *)
Record Two (A : Type) := mkTwo { two_0 : A; two_1 : A }.
Arguments mkTwo {A}. Arguments two_0 {A}. Arguments two_1 {A}.
Definition both {A} (a : A) : Two A := mkTwo a a.
Definition slot {A} (self : Two A) (i : Side) : A := match i with ToClient => two_0 self | ToServer => two_1 self end.
Definition set_slot {A} (self : Two A) (i : Side) (a : A) : Two A :=
  match i with ToClient => mkTwo a (two_1 self) | ToServer => mkTwo (two_0 self) a end.

Record InFlight := mkInFlight { deliver_at : Instant; side : Side; if_order : Z; frame : list Z }.

Definition min_deliver_at (inflight : list InFlight) : option Instant :=
  foldr (fun f m => Some (match m with Some t => Z.min (deliver_at f) t | None => deliver_at f end)) None inflight.

(** [sort_by_key(|f| (f.deliver_at, f.order))], a stable sort. *)
Section by_time.
Context {A : Type} (key : A -> Instant * Z).
Definition key_le (f g : A) : Prop :=
  (key f).1 < (key g).1 \/ (key f).1 = (key g).1 /\ (key f).2 <= (key g).2.
#[export] Instance key_le_dec : RelDecision key_le.
Proof. intros f g. unfold key_le. apply _. Defined.
Fixpoint insert_by_key (f : A) (l : list A) : list A :=
  match l with
  | [] => [f]
  | g :: l' => if decide (key_le f g) then f :: l else g :: insert_by_key f l'
  end.
Definition sort_by_key (l : list A) : list A := foldr insert_by_key [] l.
End by_time.

Definition if_key (f : InFlight) : Instant * Z := (deliver_at f, if_order f).

(** [for f in take(inflight)]: the due frames and the rest, each in order. *)
Definition split_due {A} (due_at : A -> Instant) (now : Instant) (l : list A) : list A * list A :=
  (filter (fun f => due_at f <= now) l, filter (fun f => ~ due_at f <= now) l).

Section flush.
Context {C T : Type}.
Abbreviation Host := (Runtime MockDevice C T) (only parsing).

Definition runtime_inject (self : Host) (frame : list Z) : Host := self <| device := Mock.inject (device self) frame |>.

(** [for f in due] *)
Definition inject_all (due : list InFlight) (client server : Host) : Host * Host :=
  fold_left (fun '(client, server) f =>
    match side f with
    | ToClient => (runtime_inject client (frame f), server)
    | ToServer => (client, runtime_inject server (frame f))
    end) due (client, server).

Definition flush_due (inflight : list InFlight) (now : Instant) (client server : Host) : list InFlight * Host * Host :=
  let '(due, keep) := split_due deliver_at now inflight in
  let '(client, server) := inject_all (sort_by_key if_key due) client server in
  (keep, client, server).
End flush.

(** ** [Link]: loss, duplication, jitter, bit flips *)

Record LinkConfig := mkLinkConfig {
  loss_ppm : Z; dup_ppm : Z; corrupt_ppm : Z; min_delay_us : Z; jitter_us : Z }.
#[export] Instance LinkConfig_settable : Settable LinkConfig := fun s =>
  mkLinkConfig (loss_ppm s) (dup_ppm s) (corrupt_ppm s) (min_delay_us s) (jitter_us s).

Definition PERFECT : LinkConfig := mkLinkConfig 0 0 0 5000 0.
(** [loss_percent * 10_000] is a [u32] product. *)
Definition lossy (loss_percent : Z) : option LinkConfig :=
  let? loss := checked_u32 (loss_percent * 10000) in Some (mkLinkConfig loss 10000 0 5000 4000).

Module Link.
Record Link := mkLink {
  rng : Rng.Rng; cfg : LinkConfig; inflight : list InFlight; order : Z;
  dropped : Z; duplicated : Z; corrupted : Z }.
#[export] Instance Link_settable : Settable Link := fun s =>
  mkLink (rng s) (cfg s) (inflight s) (order s) (dropped s) (duplicated s) (corrupted s).

Definition new (seed : Z) (cfg : LinkConfig) : Link := mkLink (Rng.new seed) cfg [] 0 0 0 0.

(** [frame[off] ^= 1 << bit] *)
Definition flip (frame : list Z) (off bit : Z) : option (list Z) :=
  let? b := at_ frame off in store frame off (Z.lxor b (Z.shiftl 1 bit)).

Definition schedule (self : Link) (now : Instant) (side : Side) (frame : list Z) (corrupt : bool) : option Link :=
  let? (self, frame) :=
    if corrupt && (20 <? zlen frame) then
      let '(r, k) := Rng.below (rng self) (zlen frame - 20) in
      let off := 20 + k in
      let '(r, bit) := Rng.below r 8 in
      let? frame := flip frame off bit in
      let? c := chk64 (corrupted self + 1) in
      Some (self <| rng := r |> <| corrupted := c |>, frame)
    else Some (self, frame) in
  let? span := chk64 (jitter_us (cfg self) + 1) in
  let '(r, j) := Rng.below (rng self) span in
  let? delay := chk64 (min_delay_us (cfg self) + j) in
  let o := order self in
  let? order' := chk64 (o + 1) in
  Some (self <| rng := r |> <| order := order' |>
             <| inflight := inflight self ++ [mkInFlight (plus_micros now delay) side o frame] |>).

Definition enqueue (self : Link) (now : Instant) (side : Side) (frame : list Z) : option Link :=
  let '(r, lost) := Rng.chance_ppm (rng self) (loss_ppm (cfg self)) in
  let self := self <| rng := r |> in
  if lost then let? d := chk64 (dropped self + 1) in Some (self <| dropped := d |>)
  else
    let '(r, corrupt) := Rng.chance_ppm (rng self) (corrupt_ppm (cfg self)) in
    let? self := schedule (self <| rng := r |>) now side frame corrupt in
    let '(r, dup) := Rng.chance_ppm (rng self) (dup_ppm (cfg self)) in
    let self := self <| rng := r |> in
    if dup then
      let? d := chk64 (duplicated self + 1) in schedule (self <| duplicated := d |>) now side frame false
    else Some self.

Definition next_deliver_at (self : Link) : option Instant := min_deliver_at (inflight self).

Definition deliver_due {C T} (self : Link) (now : Instant) (client server : Runtime MockDevice C T)
  : Link * Runtime MockDevice C T * Runtime MockDevice C T :=
  let '(keep, client, server) := flush_due (inflight self) now client server in
  (self <| inflight := keep |>, client, server).
End Link.

(** ** [BottleneckLink]: one rate-limited FIFO a direction *)

Inductive Aqm := TailDrop | CeMark (threshold_us : Z).

Definition frame_is_ect (frame : list Z) : option bool :=
  if 20 <=? zlen frame then
    let? b := at_ frame 1 in
    Some ((Z.land b 0x03 =? ECN_ECT0) || (Z.land b 0x03 =? ECN_ECT1))
  else Some false.

Record Bottleneck := mkBottleneck { rate_bytes_per_sec : Z; buffer_bytes : Z; base_delay_us : Z; aqm : Aqm }.

Record QueueStats := mkStats {
  st_max_queue_us : Z; st_mean_queue_us : Z; st_delivered : Z; st_dropped : Z; st_marked : Z }.

(** The marking step the three links share: CE, and one more in [marked]. *)
Definition ce_mark (on : bool) (frame : list Z) (marked : Z) : option (list Z * Z) :=
  if on then
    let? ect := frame_is_ect frame in
    if ect then let? f := set_ecn frame ECN_CE in let? m := chk64 (marked + 1) in Some (f, m) else Some (frame, marked)
  else Some (frame, marked).

Module Bn.
Record BottleneckLink := mkBn {
  cfg : Bottleneck; inflight : list InFlight; order : Z; next_free : Two Instant;
  sum_queue_us : Two Z; max_queue_us : Two Z; delivered : Two Z; dropped : Two Z; marked : Two Z }.
#[export] Instance Bn_settable : Settable BottleneckLink := fun s =>
  mkBn (cfg s) (inflight s) (order s) (next_free s) (sum_queue_us s) (max_queue_us s) (delivered s) (dropped s) (marked s).

Definition new (cfg : Bottleneck) : BottleneckLink := mkBn cfg [] 0 (both ZERO) (both 0) (both 0) (both 0) (both 0) (both 0).

Definition enqueue (self : BottleneckLink) (now : Instant) (i : Side) (frame : list Z) : option BottleneckLink :=
  let rate := Z.max (rate_bytes_per_sec (cfg self)) 1 in
  let free := slot (next_free self) i in
  let backlog_bytes := sat_mul64 (saturating_micros_since free now) rate / 1000000 in
  let? held := chk64 (backlog_bytes + zlen frame) in
  if buffer_bytes (cfg self) <? held then
    let? d := chk64 (slot (dropped self) i + 1) in Some (self <| dropped := set_slot (dropped self) i d |>)
  else
    let serialize_us := sat_mul64 (zlen frame) 1000000 / rate in
    let start := if now <? free then free else now in
    let queue_us := saturating_micros_since start now in
    let over := match aqm (cfg self) with CeMark threshold_us => threshold_us <? queue_us | TailDrop => false end in
    let? (frame, m) := ce_mark over frame (slot (marked self) i) in
    let depart := plus_micros start serialize_us in
    let? sum := chk64 (slot (sum_queue_us self) i + queue_us) in
    let? n := chk64 (slot (delivered self) i + 1) in
    let o := order self in
    let? order' := chk64 (o + 1) in
    Some (self <| marked := set_slot (marked self) i m |>
               <| next_free := set_slot (next_free self) i depart |>
               <| sum_queue_us := set_slot (sum_queue_us self) i sum |>
               <| max_queue_us := set_slot (max_queue_us self) i (Z.max (slot (max_queue_us self) i) queue_us) |>
               <| delivered := set_slot (delivered self) i n |>
               <| order := order' |>
               <| inflight := inflight self ++ [mkInFlight (plus_micros depart (base_delay_us (cfg self))) i o frame] |>).

Definition next_deliver_at (self : BottleneckLink) : option Instant := min_deliver_at (inflight self).

Definition deliver_due {C T} (self : BottleneckLink) (now : Instant) (client server : Runtime MockDevice C T)
  : BottleneckLink * Runtime MockDevice C T * Runtime MockDevice C T :=
  let '(keep, client, server) := flush_due (inflight self) now client server in
  (self <| inflight := keep |>, client, server).

Definition stats (self : BottleneckLink) (i : Side) : QueueStats :=
  mkStats (slot (max_queue_us self) i)
    (if 0 <? slot (delivered self) i then slot (sum_queue_us self) i / slot (delivered self) i else 0)
    (slot (delivered self) i) (slot (dropped self) i) (slot (marked self) i).
End Bn.

(** [BottleneckResult], and the goodput the three results compute. *)
Record BottleneckResult := mkBnResult { bn_completed : bool; bn_sim_time_us : Z; bn_bytes : Z; data_queue : QueueStats }.
Definition goodput (bytes sim_time_us : Z) : Z := if 0 <? sim_time_us then sat_mul64 bytes 1000000 / sim_time_us else 0.
Definition throughput_bytes_per_sec (self : BottleneckResult) : Z := goodput (bn_bytes self) (bn_sim_time_us self).

(** ** [DualQueueLink]: two class queues, one rate *)

Record DualQueue := mkDualQueue {
  dq_rate_bytes_per_sec : Z; dq_base_delay_us : Z; l4s_threshold_us : Z;
  classic_buffer_bytes : Z; l4s_buffer_bytes : Z }.

Record FlowResult := mkFlowResult {
  fl_completed : bool; fl_bytes : Z; fl_sim_time_us : Z; fl_mean_queue_us : Z; fl_max_queue_us : Z;
  fl_marked : Z; fl_dropped : Z }.
Definition flow_throughput (self : FlowResult) : Z := goodput (fl_bytes self) (fl_sim_time_us self).

(** A flow number is 0 or 1: the two senders' positions in [flows]. *)
Inductive Flow := Flow0 | Flow1.
#[export] Instance Flow_eq_dec : EqDecision Flow.
Proof. solve_decision. Defined.
Definition flow_slot (flow : Flow) : Side := match flow with Flow0 => ToClient | Flow1 => ToServer end.
Definition of_flow {A} (a : Two A) (flow : Flow) : A := slot a (flow_slot flow).
Definition set_flow {A} (a : Two A) (flow : Flow) (x : A) : Two A := set_slot a (flow_slot flow) x.

Module Dq.
Record DqQueued := mkQueued { arrival : Instant; flow : Flow; len : Z; q_frame : list Z }.
Record DqFlight := mkFlight { fl_deliver_at : Instant; fl_flow : Flow; fl_side : Side; fl_order : Z; fl_frame : list Z }.

Record DualQueueLink := mkDq {
  cfg : DualQueue; l4s : list DqQueued; classic : list DqQueued; l4s_bytes : Z; classic_bytes : Z;
  link_free_at : Instant; serve_l4s_next : bool; flight : list DqFlight; order : Z;
  sum_queue_us : Two Z; max_queue_us : Two Z; delivered : Two Z; marked : Two Z; dropped : Two Z }.
#[export] Instance Dq_settable : Settable DualQueueLink := fun s =>
  mkDq (cfg s) (l4s s) (classic s) (l4s_bytes s) (classic_bytes s) (link_free_at s) (serve_l4s_next s)
    (flight s) (order s) (sum_queue_us s) (max_queue_us s) (delivered s) (marked s) (dropped s).

Definition new (cfg : DualQueue) : DualQueueLink :=
  mkDq cfg [] [] 0 0 ZERO true [] 0 (both 0) (both 0) (both 0) (both 0) (both 0).

Definition enqueue_data (self : DualQueueLink) (now : Instant) (flow : Flow) (frame : list Z) : option DualQueueLink :=
  let len := zlen frame in
  let? ect := frame_is_ect frame in
  if ect then
    let? held := chk64 (l4s_bytes self + len) in
    if l4s_buffer_bytes (cfg self) <? held then
      let? d := chk64 (of_flow (dropped self) flow + 1) in Some (self <| dropped := set_flow (dropped self) flow d |>)
    else Some (self <| l4s_bytes := held |> <| l4s := l4s self ++ [mkQueued now flow len frame] |>)
  else
    let? held := chk64 (classic_bytes self + len) in
    if classic_buffer_bytes (cfg self) <? held then
      let? d := chk64 (of_flow (dropped self) flow + 1) in Some (self <| dropped := set_flow (dropped self) flow d |>)
    else Some (self <| classic_bytes := held |> <| classic := classic self ++ [mkQueued now flow len frame] |>).

Definition enqueue_ack (self : DualQueueLink) (now : Instant) (flow : Flow) (frame : list Z) : option DualQueueLink :=
  let o := order self in
  let? order' := chk64 (o + 1) in
  Some (self <| order := order' |>
             <| flight := flight self ++ [mkFlight (plus_micros now (dq_base_delay_us (cfg self))) flow ToClient o frame] |>).

(** The scheduler's choice: [None] when nothing is queued. *)
Definition choose (self : DualQueueLink) : option bool :=
  match l4s self, classic self with
  | [], [] => None
  | _ :: _, [] => Some true
  | [], _ :: _ => Some false
  | _ :: _, _ :: _ => Some (serve_l4s_next self)
  end.

(** Take the head of the chosen class. *)
Definition take_head (self : DualQueueLink) (serve_l4s : bool) : option (DualQueueLink * DqQueued) :=
  if serve_l4s then
    match l4s self with
    | f :: rest =>
        let? b := checked_sub (l4s_bytes self) (len f) in
        Some (self <| serve_l4s_next := false |> <| l4s_bytes := b |> <| l4s := rest |>, f)
    | [] => None
    end
  else
    match classic self with
    | f :: rest =>
        let? b := checked_sub (classic_bytes self) (len f) in
        Some (self <| serve_l4s_next := true |> <| classic_bytes := b |> <| classic := rest |>, f)
    | [] => None
    end.

(** Serialise one frame and schedule it onward. *)
Definition transmit (self : DualQueueLink) (serve_l4s : bool) (f : DqQueued) : option DualQueueLink :=
  let rate := Z.max (dq_rate_bytes_per_sec (cfg self)) 1 in
  let start := if arrival f <? link_free_at self then link_free_at self else arrival f in
  let queue_us := saturating_micros_since start (arrival f) in
  let serialize_us := sat_mul64 (len f) 1000000 / rate in
  let free := plus_micros start serialize_us in
  let i := flow f in
  let? (frame, m) :=
    ce_mark (serve_l4s && (l4s_threshold_us (cfg self) <? queue_us)) (q_frame f) (of_flow (marked self) i) in
  let? sum := chk64 (of_flow (sum_queue_us self) i + queue_us) in
  let? n := chk64 (of_flow (delivered self) i + 1) in
  let o := order self in
  let? order' := chk64 (o + 1) in
  Some (self <| link_free_at := free |>
             <| marked := set_flow (marked self) i m |>
             <| sum_queue_us := set_flow (sum_queue_us self) i sum |>
             <| max_queue_us := set_flow (max_queue_us self) i (Z.max (of_flow (max_queue_us self) i) queue_us) |>
             <| delivered := set_flow (delivered self) i n |>
             <| order := order' |>
             <| flight := flight self ++ [mkFlight (plus_micros free (dq_base_delay_us (cfg self))) i ToServer o frame] |>).

(** [while self.link_free_at <= now]: [fuel] bounds its turns. *)
Fixpoint service_loop (fuel : nat) (self : DualQueueLink) (now : Instant) : option DualQueueLink :=
  match fuel with
  | O => None
  | S fuel =>
      if link_free_at self <=? now then
        match choose self with
        | None => Some self
        | Some serve_l4s =>
            let? (self, f) := take_head self serve_l4s in
            let? self := transmit self serve_l4s f in service_loop fuel self now
        end
      else Some self
  end.
(** A turn takes a frame off a queue. *)
Definition service (self : DualQueueLink) (now : Instant) : option DualQueueLink :=
  service_loop (S (length (l4s self) + length (classic self))) self now.

Definition next_event_at (self : DualQueueLink) : option Instant :=
  let t := foldr (fun f m => Some (match m with Some t => Z.min (fl_deliver_at f) t | None => fl_deliver_at f end)) None (flight self) in
  match l4s self, classic self with
  | [], [] => t
  | _, _ => Some (match t with Some t => Z.min t (link_free_at self) | None => link_free_at self end)
  end.

Section deliver.
Context {C T : Type}.
Abbreviation Host := (Runtime MockDevice C T) (only parsing).
(** A flow's two stacks; [flows] holds two of them. *)
Definition inject_flight (flows : Two (Host * Host)) (f : DqFlight) : Two (Host * Host) :=
  let '(client, server) := of_flow flows (fl_flow f) in
  set_flow flows (fl_flow f)
    match fl_side f with
    | ToServer => (client, runtime_inject server (fl_frame f))
    | ToClient => (runtime_inject client (fl_frame f), server)
    end.
Definition deliver_due (self : DualQueueLink) (now : Instant) (flows : Two (Host * Host)) : DualQueueLink * Two (Host * Host) :=
  let '(due, keep) := split_due fl_deliver_at now (flight self) in
  (self <| flight := keep |>,
   fold_left inject_flight (sort_by_key (fun f => (fl_deliver_at f, fl_order f)) due) flows).
End deliver.

Definition flow_result (self : DualQueueLink) (i : Flow) (completed : bool) (bytes sim_time_us : Z) : FlowResult :=
  mkFlowResult completed bytes sim_time_us
    (if 0 <? of_flow (delivered self) i then of_flow (sum_queue_us self) i / of_flow (delivered self) i else 0)
    (of_flow (max_queue_us self) i) (of_flow (marked self) i) (of_flow (dropped self) i).
End Dq.

(** ** [AdvLink]: one FIFO at a rate that varies over time *)

Definition ADV_SLICES : Z := 16.
Definition ADV_MIN_PCT : Z := 30.
Definition ADV_MAX_PCT : Z := 150.

Record AdvEnv := mkAdvEnv {
  base_rate_bytes_per_sec : Z; env_buffer_bytes : Z; env_base_delay_us : Z; slice_us : Z; env_aqm : Aqm }.
(** [AdvTrace]: the schedule of [ADV_SLICES] percentages. *)
Definition AdvTrace : Type := list Z.
Definition FLAT : AdvTrace := zrepeat 100 ADV_SLICES.
Definition KNOWN_BBR_BREAKER : AdvTrace := [33; 33; 33; 94; 33; 105; 33; 33; 30; 42; 70; 33; 33; 33; 33; 33].
Definition is_varying (self : AdvTrace) : bool := existsb (fun p => negb (p =? 100)) self.
(** [iter().min() != iter().max()] *)
Definition time_varies (self : AdvTrace) : bool :=
  match self with [] => false | p :: l => negb (fold_left Z.min l p =? fold_left Z.max l p) end.
Definition rate_at (self : AdvTrace) (env : AdvEnv) (t : Instant) : option Z :=
  let slice := (micros t / Z.max (slice_us env) 1) mod ADV_SLICES in
  let? p := at_ self slice in
  Some (Z.max (sat_mul64 (base_rate_bytes_per_sec env) p / 100) 1).

Module Adv.
Record AdvQueued := mkQueued { arrival : Instant; len : Z; q_frame : list Z }.
Record AdvLink := mkAdv {
  env : AdvEnv; trace : AdvTrace; queue : list AdvQueued; queued_bytes : Z; link_free_at : Instant;
  inflight : list InFlight; order : Z; sum_queue_us : Z; max_queue_us : Z; delivered : Z; dropped : Z; marked : Z }.
#[export] Instance Adv_settable : Settable AdvLink := fun s =>
  mkAdv (env s) (trace s) (queue s) (queued_bytes s) (link_free_at s) (inflight s) (order s)
    (sum_queue_us s) (max_queue_us s) (delivered s) (dropped s) (marked s).

Definition new (env : AdvEnv) (trace : AdvTrace) : AdvLink := mkAdv env trace [] 0 ZERO [] 0 0 0 0 0 0.

Definition enqueue_data (self : AdvLink) (now : Instant) (frame : list Z) : option AdvLink :=
  let len := zlen frame in
  let? held := chk64 (queued_bytes self + len) in
  if env_buffer_bytes (env self) <? held then
    let? d := chk64 (dropped self + 1) in Some (self <| dropped := d |>)
  else Some (self <| queued_bytes := held |> <| queue := queue self ++ [mkQueued now len frame] |>).

Definition enqueue_ack (self : AdvLink) (now : Instant) (frame : list Z) : option AdvLink :=
  let o := order self in
  let? order' := chk64 (o + 1) in
  Some (self <| order := order' |>
             <| inflight := inflight self ++ [mkInFlight (plus_micros now (env_base_delay_us (env self))) ToClient o frame] |>).

Definition transmit (self : AdvLink) (f : AdvQueued) (rest : list AdvQueued) : option AdvLink :=
  let start := if arrival f <? link_free_at self then link_free_at self else arrival f in
  let queue_us := saturating_micros_since start (arrival f) in
  let? rate := rate_at (trace self) (env self) start in
  let? remain := checked_sub (queued_bytes self) (len f) in
  let serialize_us := sat_mul64 (len f) 1000000 / rate in
  let free := plus_micros start serialize_us in
  let over := match env_aqm (env self) with CeMark threshold_us => threshold_us <? queue_us | TailDrop => false end in
  let? (frame, m) := ce_mark over (q_frame f) (marked self) in
  let? sum := chk64 (sum_queue_us self + queue_us) in
  let? n := chk64 (delivered self + 1) in
  let o := order self in
  let? order' := chk64 (o + 1) in
  Some (self <| queue := rest |> <| queued_bytes := remain |> <| link_free_at := free |> <| marked := m |>
             <| sum_queue_us := sum |> <| max_queue_us := Z.max (max_queue_us self) queue_us |>
             <| delivered := n |> <| order := order' |>
             <| inflight := inflight self ++ [mkInFlight (plus_micros free (env_base_delay_us (env self))) ToServer o frame] |>).

Fixpoint service_loop (fuel : nat) (self : AdvLink) (now : Instant) : option AdvLink :=
  match fuel with
  | O => None
  | S fuel =>
      if link_free_at self <=? now then
        match queue self with
        | [] => Some self
        | f :: rest => let? self := transmit self f rest in service_loop fuel self now
        end
      else Some self
  end.
Definition service (self : AdvLink) (now : Instant) : option AdvLink := service_loop (S (length (queue self))) self now.

Definition next_event_at (self : AdvLink) : option Instant :=
  let t := min_deliver_at (inflight self) in
  match queue self with
  | [] => t
  | _ => Some (match t with Some t => Z.min t (link_free_at self) | None => link_free_at self end)
  end.

Definition deliver_due {C T} (self : AdvLink) (now : Instant) (client server : Runtime MockDevice C T)
  : AdvLink * Runtime MockDevice C T * Runtime MockDevice C T :=
  let '(keep, client, server) := flush_due (inflight self) now client server in
  (self <| inflight := keep |>, client, server).

Definition mean_queue_us (self : AdvLink) : Z := if 0 <? delivered self then sum_queue_us self / delivered self else 0.
End Adv.

Record AdvResult := mkAdvResult {
  ad_completed : bool; ad_sim_time_us : Z; ad_bytes : Z; ad_delivered_bytes : Z; ad_mean_queue_us : Z;
  ad_max_queue_us : Z; ad_dropped : Z; ad_marked : Z }.
Definition adv_throughput (self : AdvResult) : Z := goodput (ad_delivered_bytes self) (ad_sim_time_us self).
