(* ===== verification/SimLinkProps.v ===== *)
(** What the simulator's network does to the frames it is given: the generator
    repeats nothing, the faulty link is a lossy, duplicating, reordering,
    bit-flipping channel and no more, and the receiving stack drops what it flipped. *)

From stdpp Require Import gmap sorting.
From S2P Require Import Prelude Time Checksum Ipv4 TcpWire Congestion Endpoint Tcb TcbDemo Iface IfaceSafe IfaceProps Executor Socket Reactor SimLink.

(** ** Checked additions *)

#[local] Arguments chk64 : simpl never.
#[local] Arguments Rng.below : simpl never.
#[local] Arguments Rng.chance_ppm : simpl never.
#[local] Arguments Link.flip : simpl never.
#[local] Arguments Link.schedule : simpl never.
#[local] Arguments set_ecn : simpl never.
#[local] Arguments sat_mul64 : simpl never.
#[local] Arguments plus_micros : simpl never.
#[local] Arguments saturating_micros_since : simpl never.

Lemma chk64_Some z : z <= U64_MAX -> chk64 z = Some z.
Proof. unfold chk64. destruct (_ <=? _) eqn:?; [done|lia]. Qed.
Lemma chk64_inv z w : chk64 z = Some w -> w = z /\ z <= U64_MAX.
Proof. unfold chk64. destruct (_ <=? _) eqn:?; [|done]. intros [= <-]. lia. Qed.

(** ** The generator *)

Module RngFacts.
Import Rng.

Lemma lxor_u64 a b : is_u64 a -> is_u64 b -> is_u64 (Z.lxor a b).
Proof.
  unfold is_u64. intros Ha Hb. split; [by apply Z.lxor_nonneg; lia|].
  destruct (Z.eq_dec (Z.lxor a b) 0) as [->|Hn]; [lia|].
  assert (0 <= Z.lxor a b) by (apply Z.lxor_nonneg; lia).
  apply Z.log2_lt_pow2; [lia|].
  pose proof (Z.log2_lxor a b ltac:(lia) ltac:(lia)).
  assert (Hl : forall x, 0 <= x < 2 ^ 64 -> Z.log2 x < 64).
  { intros x Hx. destruct (Z.eq_dec x 0) as [->|]; [done|]. apply Z.log2_lt_pow2; lia. }
  pose proof (Hl a Ha). pose proof (Hl b Hb). lia.
Qed.
Lemma shiftr_u64 a k : is_u64 a -> 0 <= k -> is_u64 (Z.shiftr a k).
Proof.
  unfold is_u64. intros Ha Hk. rewrite Z.shiftr_div_pow2 by done.
  pose proof (Z.pow_pos_nonneg 2 k ltac:(lia) Hk). split; [by apply Z.div_pos; lia|].
  apply Z.div_lt_upper_bound; nia.
Qed.
Lemma wrap64_u64 z : is_u64 (wrap64 z).
Proof. apply Z.mod_pos_bound. lia. Qed.

(** Each stage of the mixer loses nothing: [x ^ (x >> k)] and a product with an
    odd constant are injective on [u64]. *)
Lemma xorshift_inj k a b : 0 < k -> is_u64 a -> is_u64 b ->
  Z.lxor a (Z.shiftr a k) = Z.lxor b (Z.shiftr b k) -> a = b.
Proof.
  intros Hk Ha Hb E. apply Z.lxor_eq. set (d := Z.lxor a b).
  assert (Hd : is_u64 d) by by apply lxor_u64. unfold is_u64 in Hd.
  assert (E' : d = Z.shiftr d k).
  { apply Z.lxor_eq. unfold d. rewrite Z.shiftr_lxor.
    transitivity (Z.lxor (Z.lxor a (Z.shiftr a k)) (Z.lxor b (Z.shiftr b k))).
    - rewrite !Z.lxor_assoc. f_equal. rewrite <- !Z.lxor_assoc. f_equal. apply Z.lxor_comm.
    - by rewrite E, Z.lxor_nilpotent. }
  rewrite Z.shiftr_div_pow2 in E' by lia.
  destruct (Z.eq_dec d 0) as [|Hn]; [done|]. exfalso.
  assert (2 <= 2 ^ k) by (change 2 with (2 ^ 1) at 1; apply Z.pow_le_mono_r; lia).
  pose proof (Z.div_lt d (2 ^ k) ltac:(lia) ltac:(lia)). lia.
Qed.

Lemma mul_inj m inv a b : (m * inv) mod 2 ^ 64 = 1 -> is_u64 a -> is_u64 b -> wrap64 (a * m) = wrap64 (b * m) -> a = b.
Proof.
  intros Hm Ha Hb E. unfold wrap64 in E.
  assert (Hi : forall x, is_u64 x -> (x * m) mod 2 ^ 64 * inv mod 2 ^ 64 = x).
  { intros x Hx. rewrite Z.mul_mod_idemp_l by lia. rewrite <- Z.mul_assoc, <- Z.mul_mod_idemp_r, Hm, Z.mul_1_r by lia.
    by apply Z.mod_small. }
  rewrite <- (Hi a Ha), <- (Hi b Hb). by rewrite E.
Qed.

Lemma next_u64_range self : is_u64 (next_u64 self).2 /\ is_u64 (state (next_u64 self).1).
Proof.
  split; [|apply wrap64_u64]. cbn. apply lxor_u64; [apply wrap64_u64|]. apply shiftr_u64; [apply wrap64_u64|lia].
Qed.

Lemma next_u64_inj s1 s2 :
  (next_u64 s1).2 = (next_u64 s2).2 -> state (next_u64 s1).1 = state (next_u64 s2).1.
Proof.
  cbn. set (z1 := wrap64 (state s1 + _)). set (z2 := wrap64 (state s2 + _)).
  assert (H1 : is_u64 z1) by apply wrap64_u64. assert (H2 : is_u64 z2) by apply wrap64_u64. clearbody z1 z2.
  intros E. apply xorshift_inj in E; [|lia|apply wrap64_u64..].
  apply (mul_inj _ 3573116690164977347) in E; [|done|apply lxor_u64; [apply wrap64_u64|apply shiftr_u64; [apply wrap64_u64|lia]]..].
  apply xorshift_inj in E; [|lia|apply wrap64_u64..].
  apply (mul_inj _ 10871156337175269513) in E; [|done|apply lxor_u64; [done|by apply shiftr_u64]..].
  by apply xorshift_inj in E.
Qed.

(** The generator after [n] draws, and the draw that comes next. *)
Fixpoint after (n : nat) (seed : Z) : Rng := match n with O => new seed | S n => (next_u64 (after n seed)).1 end.
Definition draw (seed : Z) (n : nat) : Z := (next_u64 (after n seed)).2.

Lemma state_after seed n :
  wrap64 (state (after n seed)) = wrap64 (seed + Z.of_nat n * 0x9E3779B97F4A7C15).
Proof.
  induction n as [|n IH]; [cbn [after]; unfold new; cbn [state]; f_equal; lia|].
  cbn [after]. unfold next_u64 at 1. cbn [fst state].
  rewrite (wrap64_small (wrap64 _)) by apply wrap64_u64. unfold wrap64 in *.
  rewrite <- Z.add_mod_idemp_l, IH, Z.add_mod_idemp_l by lia. f_equal. lia.
Qed.

Lemma draw_inj seed i j :
  Z.of_nat i < 2 ^ 64 -> Z.of_nat j < 2 ^ 64 -> draw seed i = draw seed j -> i = j.
Proof.
  intros Hi Hj E. apply next_u64_inj in E. unfold next_u64 in E. cbn [fst state] in E.
  assert (E' : wrap64 (Z.of_nat i * 0x9E3779B97F4A7C15) = wrap64 (Z.of_nat j * 0x9E3779B97F4A7C15)).
  { assert (Hs : forall n, wrap64 (state (after n seed) + 0x9E3779B97F4A7C15)
        = wrap64 (seed + 0x9E3779B97F4A7C15 + Z.of_nat n * 0x9E3779B97F4A7C15)).
    { intros n. pose proof (state_after seed n) as H. unfold wrap64 in *. rewrite <- Z.add_mod_idemp_l, H, Z.add_mod_idemp_l by lia. f_equal. lia. }
    rewrite !Hs in E. unfold wrap64 in *. set (c := seed + _) in E. clearbody c.
    apply (f_equal (fun z => (z - c) mod 2 ^ 64)) in E. rewrite !Zminus_mod_idemp_l in E.
    etransitivity; [|etransitivity; [exact E|]]; f_equal; lia. }
  apply (mul_inj _ 17428512612931826493) in E'; [lia|done|unfold is_u64; lia..].
Qed.

(** The generator has full period: from any seed, its first [n] draws
    are pairwise distinct as long as [n] is at most 2^64, so over a whole
    period every [u64] comes up exactly once; no seed traps a scenario in a short
    cycle. *)
Lemma splitmix_full_period seed n : Z.of_nat n <= 2 ^ 64 -> NoDup (map (draw seed) (List.seq 0 n)).
Proof.
  intros Hn. apply NoDup_fmap_2_strong; [|apply NoDup_seq].
  intros i j Hi%elem_of_seq Hj%elem_of_seq. apply draw_inj; lia.
Qed.
Lemma splitmix_full_period_witness : NoDup (map (draw 42) (List.seq 0 100)).
Proof. apply splitmix_full_period. cbn. lia. Defined.

Lemma below_range self n : 0 < n -> 0 <= (below self n).2 < n.
Proof.
  intros Hn. unfold below. destruct (n =? 0) eqn:E; [lia|]. destruct (next_u64 self) as [r z]. by apply Z.mod_pos_bound.
Qed.
Lemma chance_zero self : chance_ppm self 0 = (self, false).
Proof. done. Qed.
End RngFacts.

(** ** Sorting by delivery time *)

Lemma Forall_filter {A} (P Q : A -> Prop) `{forall x, Decision (P x)} l : Forall Q l -> Forall Q (filter P l).
Proof. induction 1 as [|x l Hx Hl IH]; [constructor|]. rewrite filter_cons. by destruct (decide _); [constructor|]. Qed.

Section sorted.
Context {A : Type} (key : A -> Instant * Z).
Local Abbreviation le := (key_le key).
Local Abbreviation sort := (sort_by_key key).

#[export] Instance key_le_total : Total le.
Proof. intros f g. unfold key_le. lia. Qed.
#[export] Instance key_le_trans : Transitive le.
Proof. intros f g h. unfold key_le. lia. Qed.

Lemma insert_perm f l : insert_by_key key f l ≡ₚ f :: l.
Proof.
  induction l as [|g l IH]; [done|]. cbn [insert_by_key]. destruct (decide _); [done|].
  rewrite IH. constructor.
Qed.
Lemma sort_perm l : sort l ≡ₚ l.
Proof. induction l as [|f l IH]; [done|]. cbn. by rewrite insert_perm, IH. Qed.

Lemma insert_sorted f l : StronglySorted le l -> StronglySorted le (insert_by_key key f l).
Proof.
  induction l as [|g l IH]; cbn [insert_by_key]; [intros _; repeat constructor|].
  intros Hs. inversion Hs as [|? ? Hl Hg]; subst. destruct (decide (le f g)) as [Hle|Hn].
  - constructor; [done|]. constructor; [done|]. eapply List.Forall_impl; [|exact Hg]. intros h Hh. by transitivity g.
  - constructor; [by apply IH|]. rewrite insert_perm. constructor; [by destruct (key_le_total f g)|done].
Qed.
Lemma sort_sorted l : StronglySorted le (sort l).
Proof. induction l as [|f l IH]; [constructor|by apply insert_sorted]. Qed.

(** Sorting what is in order already changes nothing: ties keep their place. *)
Lemma sort_id l : StronglySorted le l -> sort l = l.
Proof.
  induction 1 as [|f l Hs IH Hf]; [done|]. cbn. fold (sort l). rewrite IH. destruct l as [|g l]; [done|]. cbn.
  inversion Hf; subst. by rewrite decide_True.
Qed.

Lemma insert_head f l : Forall (le f) l -> insert_by_key key f l = f :: l.
Proof. destruct 1; [done|]. cbn. by rewrite decide_True. Qed.
Lemma filter_insert P `{forall x, Decision (P x)} f l : StronglySorted le l ->
  filter P (insert_by_key key f l) = if decide (P f) then insert_by_key key f (filter P l) else filter P l.
Proof.
  induction 1 as [|g l Hs IH Hg]; [cbn [insert_by_key]; by rewrite filter_cons|]. cbn [insert_by_key]. destruct (decide (le f g)) as [Hle|Hn].
  - rewrite filter_cons. destruct (decide (P f)); [|done]. symmetry. apply insert_head.
    apply Forall_filter. constructor; [done|]. eapply List.Forall_impl; [|exact Hg]. intros h Hh. by transitivity g.
  - rewrite !filter_cons, IH. destruct (decide (P g)), (decide (P f)); try done. cbn. by rewrite decide_False.
Qed.
Lemma filter_sort P `{forall x, Decision (P x)} l : filter P (sort l) = sort (filter P l).
Proof.
  induction l as [|f l IH]; [done|]. cbn [sort_by_key foldr]. fold (sort l). rewrite filter_insert, IH by apply sort_sorted.
  rewrite filter_cons. by destruct (decide _).
Qed.
Lemma filter_sorted P `{forall x, Decision (P x)} l : StronglySorted le l -> StronglySorted le (filter P l).
Proof.
  induction 1 as [|f l Hs IH Hf]; [constructor|]. rewrite filter_cons. destruct (decide _); [|done]. constructor; [done|].
  by apply Forall_filter.
Qed.
End sorted.

Lemma split_due_perm {A} (due_at : A -> Instant) now l :
  (split_due due_at now l).1 ++ (split_due due_at now l).2 ≡ₚ l.
Proof.
  cbn. induction l as [|f l IH]; [done|]. rewrite !filter_cons. destruct (decide (due_at f <= now)).
  - rewrite decide_False by tauto. cbn. by rewrite IH.
  - rewrite decide_True by done. by rewrite <- Permutation_middle, IH.
Qed.

Lemma min_deliver_at_spec l :
  match min_deliver_at l with
  | None => l = []
  | Some t => (exists f, f ∈ l /\ deliver_at f = t) /\ Forall (fun f => t <= deliver_at f) l
  end.
Proof.
  induction l as [|f l IH]; [done|]. cbn [min_deliver_at foldr]. fold (min_deliver_at l). destruct (min_deliver_at l) as [t|].
  - destruct IH as [(g & Hg & Ht) Hl]. split.
    + destruct (Z_le_gt_dec (deliver_at f) t); [exists f; split; [left|lia]|exists g; split; [by right|lia]].
    + constructor; [lia|]. eapply List.Forall_impl; [|exact Hl]. cbn. lia.
  - subst l. split; [exists f; split; [left|done]|]. repeat constructor; lia.
Qed.

(** What a flush leaves is not due yet: after it, the next delivery is later. *)
Lemma split_due_keep {A} (due_at : A -> Instant) now l : Forall (fun f => now < due_at f) (split_due due_at now l).2.
Proof.
  cbn. induction l as [|f l IH]; [constructor|]. rewrite filter_cons. destruct (decide _); [|done]. constructor; [lia|done].
Qed.
Lemma split_due_due {A} (due_at : A -> Instant) now l : Forall (fun f => due_at f <= now) (split_due due_at now l).1.
Proof.
  cbn. induction l as [|f l IH]; [constructor|]. rewrite filter_cons. by destruct (decide _); [constructor|].
Qed.

Lemma filter_swap {A} (P Q : A -> Prop) `{forall x, Decision (P x)} `{forall x, Decision (Q x)} (l : list A) :
  filter P (filter Q l) = filter Q (filter P l).
Proof.
  induction l as [|f l IH]; [done|]. rewrite !filter_cons.
  destruct (decide (P f)) eqn:E1, (decide (Q f)) eqn:E2; rewrite ?filter_cons, ?E1, ?E2, ?IH; done.
Qed.

(** On a direction whose frames were queued in order, the due ones come first. *)
Lemma sorted_split_due now l : StronglySorted (key_le if_key) l ->
  (split_due deliver_at now l).1 ++ (split_due deliver_at now l).2 = l.
Proof.
  unfold split_due. cbn [fst snd].
  induction 1 as [|f l Hs IH Hf]; [done|]. rewrite !filter_cons. destruct (decide (deliver_at f <= now)) as [Hd|Hd].
  - rewrite decide_False by tauto. cbn [app]. by rewrite IH.
  - rewrite decide_True by done.
    assert (Hn : filter (fun g => deliver_at g <= now) l = []); [|rewrite Hn in IH |- *; by rewrite <- IH at 2].
    clear -Hf Hd. induction Hf as [|g l Hg Hl IH]; [done|]. rewrite filter_cons, decide_False, IH; [done|].
    unfold key_le, if_key in Hg. cbn in Hg. lia.
Qed.

(** So a flush leaves that direction's sequence of frames, delivered and then in
    flight, as it was. *)
Lemma flush_keeps_order i now l :
  StronglySorted (key_le if_key) (filter (fun f => side f = i) l) ->
  filter (fun f => side f = i) (sort_by_key if_key (split_due deliver_at now l).1 ++ (split_due deliver_at now l).2) =
    filter (fun f => side f = i) l.
Proof.
  intros Hs. rewrite list.filter_app, filter_sort. unfold split_due in *. cbn [fst snd].
  rewrite !(filter_swap (fun f => side f = i)), sort_id by by apply filter_sorted.
  exact (sorted_split_due now _ Hs).
Qed.

(** ** Injection *)

Section inject.
Context {C T : Type}.

Definition frames_for (i : Side) (due : list InFlight) : list (list Z) :=
  map frame (filter (fun f => side f = i) due).

(** A flush appends to each host's device the frames for it, in delivery order,
    and touches nothing else. *)
Lemma inject_all_spec due (client server : Runtime MockDevice C T) :
  inject_all due client server =
    (client <| device := (device client) <| inbound := inbound (device client) ++ frames_for ToClient due |> |>,
     server <| device := (device server) <| inbound := inbound (device server) ++ frames_for ToServer due |> |>).
Proof.
  revert client server. induction due as [|f due IH]; intros client server.
  - destruct client as [[? ?] ? ? ? ? ?], server as [[? ?] ? ? ? ? ?]. cbn. by rewrite !app_nil_r.
  - unfold inject_all. cbn [fold_left]. unfold frames_for. rewrite !filter_cons.
    destruct (side f) eqn:E.
    + rewrite decide_True, decide_False by done. fold (inject_all due (runtime_inject client (frame f)) server).
      rewrite IH. unfold runtime_inject, Mock.inject, frames_for. cbn. by rewrite <- app_assoc.
    + rewrite decide_False, decide_True by done. fold (inject_all due client (runtime_inject server (frame f))).
      rewrite IH. unfold runtime_inject, Mock.inject, frames_for. cbn. by rewrite <- app_assoc.
Qed.
End inject.

(** ** The faulty link *)

Module LinkFacts.
Import Link.

(** The configurations the simulator runs. *)
Record config_ok (c : LinkConfig) : Prop := {
  co_min : 1 <= min_delay_us c;
  co_jitter : 0 <= jitter_us c;
  co_sum : min_delay_us c + jitter_us c <= U64_MAX;
}.

Definition flipped (f g : list Z) : Prop :=
  exists off bit, 20 <= off < zlen f /\ 0 <= bit < 8 /\ flip f off bit = Some g.

Lemma flip_split (f : list Z) off bit : 0 <= off < zlen f ->
  exists l1 b l2, f = l1 ++ b :: l2 /\ zlen l1 = off /\ flip f off bit = Some (l1 ++ Z.lxor b (Z.shiftl 1 bit) :: l2).
Proof.
  intros Ho. destruct (at_is_Some f off Ho) as [b Hb]. rewrite at_lookup in Hb by lia.
  apply list_elem_of_split_length in Hb as (l1 & l2 & -> & Hl).
  assert (E : zlen l1 = off) by (unfold zlen; lia).
  exists l1, b, l2. split; [done|]. split; [done|]. unfold flip, store.
  rewrite at_lookup by lia. rewrite list_lookup_middle by lia. rewrite <- E.
  unfold splice. rewrite zlen_app, !zlen_cons. pose proof (zlen_nonneg l1). pose proof (zlen_nonneg l2).
  change (zlen (@nil Z)) with 0. destruct (_ && _) eqn:?; [|lia]. f_equal.
  unfold ztake, zdrop. rewrite take_app_length' by (unfold zlen; lia). f_equal. cbn [app]. f_equal.
  replace (Z.to_nat (zlen l1 + (1 + 0))) with (length l1 + 1)%nat by (unfold zlen; lia).
  by rewrite drop_app_add.
Qed.

(** One frame handed to the link, and what may come of it. *)
Definition Sent : Type := Instant * Side * list Z.
Inductive Fate := Lost | Once (f : InFlight) (hit : bool) | Twice (f : InFlight) (hit : bool) (g : InFlight).
Definition copies (x : Fate) : list InFlight := match x with Lost => [] | Once f _ => [f] | Twice f _ g => [f; g] end.
Definition lost (x : Fate) : Z := match x with Lost => 1 | _ => 0 end.
Definition twice (x : Fate) : Z := match x with Twice _ _ _ => 1 | _ => 0 end.
Definition hit (x : Fate) : Z := match x with Once _ h | Twice _ h _ => Z.b2z h | Lost => 0 end.
Definition total (g : Fate -> Z) (fates : list Fate) : Z := foldr (fun x s => g x + s) 0 fates.

Lemma tally_app g l1 l2 : total g (l1 ++ l2) = total g l1 + total g l2.
Proof. induction l1 as [|x l1 IH]; [done|]. cbn. fold (total g (l1 ++ l2)) (total g l1). lia. Qed.
Lemma tally_le g l : (forall x, g x <= 1) -> total g l <= zlen l.
Proof.
  intros Hg. induction l as [|x l IH]; [done|]. rewrite zlen_cons. cbn. fold (total g l). specialize (Hg x). lia.
Qed.

(** A copy goes where the frame was going, after the link's delay, with a bit
    flipped if it was [hit] and only on a link that corrupts. *)
Record copy (c : LinkConfig) (s : Sent) (h : bool) (f : InFlight) : Prop := {
  cp_side : side f = s.1.2;
  cp_delay : exists d, min_delay_us c <= d <= min_delay_us c + jitter_us c /\ deliver_at f = plus_micros s.1.1 d;
  cp_frame : if h then corrupt_ppm c <> 0 /\ flipped s.2 (frame f) else frame f = s.2;
}.
Definition fate (c : LinkConfig) (s : Sent) (x : Fate) : Prop :=
  match x with
  | Lost => loss_ppm c <> 0
  | Once f h => copy c s h f
  | Twice f h g => dup_ppm c <> 0 /\ copy c s h f /\ copy c s false g
  end.

Lemma schedule_spec self now sd f corrupt :
  config_ok (cfg self) -> order self < U64_MAX -> (corrupt = true -> corrupted self < U64_MAX /\ corrupt_ppm (cfg self) <> 0) ->
  exists r g h, copy (cfg self) (now, sd, f) h g /\ if_order g = order self /\ (h = true -> corrupt = true) /\
    schedule self now sd f corrupt =
      Some (mkLink r (cfg self) (inflight self ++ [g]) (order self + 1) (dropped self) (duplicated self) (corrupted self + Z.b2z h)).
Proof.
  destruct self as [rn c fl o dr du co]. cbn. intros [Hm Hj Hs] Ho Hco. unfold schedule. cbn.
  assert (Hdelay : forall r0, exists r d, Rng.below r0 (jitter_us c + 1) = (r, d) /\ 0 <= d <= jitter_us c).
  { intros r0. pose proof (RngFacts.below_range r0 (jitter_us c + 1) ltac:(lia)) as H.
    destruct (Rng.below _ _) as [r d]. exists r, d. split; [done|]. cbn in H. lia. }
  destruct (corrupt && (20 <? zlen f)) eqn:E.
  - apply andb_true_iff in E as [-> E]. destruct (Hco eq_refl) as [Hc Hn].
    pose proof (RngFacts.below_range rn (zlen f - 20) ltac:(lia)) as Hk.
    destruct (Rng.below rn (zlen f - 20)) as [r1 k]. cbn in Hk.
    pose proof (RngFacts.below_range r1 8 ltac:(lia)) as Hb. destruct (Rng.below r1 8) as [r2 bit]. cbn in Hb.
    destruct (flip_split f (20 + k) bit ltac:(lia)) as (l1 & b & l2 & _ & _ & Ef). rewrite Ef, chk64_Some by lia.
    cbn. rewrite chk64_Some by lia. destruct (Hdelay r2) as (r3 & d & Ed & Hd). rewrite Ed, !chk64_Some by lia.
    exists r3, (mkInFlight (plus_micros now (min_delay_us c + d)) sd o (l1 ++ Z.lxor b (Z.shiftl 1 bit) :: l2)), true. split; [|split; [|split]]; [|reflexivity|done|].
    + split; cbn; [done|exists (min_delay_us c + d); split; [lia|done]|].
      split; [done|]. exists (20 + k), bit. split; [lia|]. by split.
    + reflexivity.
  - cbn. rewrite chk64_Some by lia. destruct (Hdelay rn) as (r3 & d & Ed & Hd). rewrite Ed, !chk64_Some by lia.
    exists r3, (mkInFlight (plus_micros now (min_delay_us c + d)) sd o f), false. split; [|split; [|split]]; [|reflexivity|done|].
    + split; cbn; [done|exists (min_delay_us c + d); split; [lia|done]|done].
    + cbn. by rewrite Z.add_0_r.
Qed.

Lemma chance_true r ppm r' : Rng.chance_ppm r ppm = (r', true) -> ppm <> 0.
Proof. intros H ->. done. Qed.

Lemma enqueue_spec self now sd f :
  config_ok (cfg self) -> order self + 1 < U64_MAX -> corrupted self < U64_MAX ->
  dropped self < U64_MAX -> duplicated self < U64_MAX ->
  exists r x, fate (cfg self) (now, sd, f) x /\
    map if_order (copies x) = match x with Lost => [] | Once _ _ => [order self] | Twice _ _ _ => [order self; order self + 1] end /\
    enqueue self now sd f =
      Some (mkLink r (cfg self) (inflight self ++ copies x) (order self + zlen (copies x))
              (dropped self + lost x) (duplicated self + twice x) (corrupted self + hit x)).
Proof.
  destruct self as [rn c fl o dr du co]. cbn. intros Hcfg Ho Hc Hd Hu. unfold enqueue, set. cbn.
  destruct (Rng.chance_ppm rn (loss_ppm c)) as [r1 b1] eqn:E1. destruct b1.
  { cbn. rewrite chk64_Some by lia. exists r1, Lost. split; [by eapply chance_true|]. split; [done|].
    unfold set; cbn. by rewrite app_nil_r, !Z.add_0_r. }
  destruct (Rng.chance_ppm r1 (corrupt_ppm c)) as [r2 b2] eqn:E2.
  destruct (schedule_spec (mkLink r2 c fl o dr du co) now sd f b2)
    as (r3 & g & h & Hg & Og & _ & ->); cbn; [done|lia|intros ->; split; [lia|by eapply chance_true]|].
  cbn in Hg, Og. destruct (Rng.chance_ppm r3 (dup_ppm c)) as [r4 b4] eqn:E4. destruct b4; cbn.
  - rewrite chk64_Some by lia.
    edestruct (schedule_spec (mkLink r4 c (fl ++ [g]) (o + 1) dr (du + 1)
      (co + Z.b2z h)) now sd f false) as (r5 & g' & h' & Hg' & Og' & Hh' & E5); cbn; [done|lia|done|].
    cbn in Hg', Og', E5. assert (h' = false) as -> by (destruct h'; [by specialize (Hh' eq_refl)|done]).
    exists r5, (Twice g h g'). split; [split; [by eapply chance_true|done]|]. split; [cbn; by rewrite Og, Og'|].
    rewrite E5. f_equal. f_equal; cbn; rewrite ?Z.add_0_r, <- ?app_assoc; try done; unfold zlen; cbn; lia.
  - exists r4, (Once g h). split; [done|]. split; [cbn; by rewrite Og|]. f_equal. f_equal; cbn; lia.
Qed.

Lemma NoDup_map_elem {A B} (g : A -> B) l x y : NoDup (map g l) -> x ∈ l -> y ∈ l -> g x = g y -> x = y.
Proof.
  induction l as [|z l IH]; [by intros _ ?%elem_of_nil|]. cbn. intros [Hz Hl]%list.NoDup_cons.
  assert (Hin : forall w, w ∈ l -> g w ∈ map g l) by (intros w Hw; by apply list_elem_of_fmap_2).
  intros [->|Hx]%elem_of_cons [->|Hy]%elem_of_cons E; [done|..|by apply IH].
  - rewrite E in Hz. by apply Hin in Hy.
  - rewrite <- E in Hz. by apply Hin in Hx.
Qed.

(** *** A history of the link *)

Inductive Event := Enqueue (now : Instant) (side : Side) (frame : list Z) | Deliver (now : Instant).
(** The frames a history hands over, and the flushes, each with what it delivered
    in order. *)
Definition sends (es : list Event) : list Sent :=
  omap (fun e => match e with Enqueue now side frame => Some (now, side, frame) | Deliver _ => None end) es.
Fixpoint carry (es : list Event) (self : Link) (out : list (Instant * list InFlight))
  : option (Link * list (Instant * list InFlight)) :=
  match es with
  | [] => Some (self, out)
  | Enqueue now side frame :: es => let? self := enqueue self now side frame in carry es self out
  | Deliver now :: es =>
      let '(due, keep) := split_due deliver_at now (inflight self) in
      carry es (self <| inflight := keep |>) (out ++ [(now, sort_by_key if_key due)])
  end.

(** [Deliver] is [deliver_due]: its batch goes to the two devices. *)
Lemma deliver_due_spec {C T} self now (client server : Runtime MockDevice C T) :
  exists batch, carry [Deliver now] self [] = Some (self <| inflight := (split_due deliver_at now (inflight self)).2 |>, [(now, batch)]) /\
    deliver_due self now client server =
      (self <| inflight := (split_due deliver_at now (inflight self)).2 |>,
       client <| device := (device client) <| inbound := inbound (device client) ++ frames_for ToClient batch |> |>,
       server <| device := (device server) <| inbound := inbound (device server) ++ frames_for ToServer batch |> |>).
Proof.
  eexists. split; [reflexivity|]. unfold deliver_due, flush_due.
  destruct (split_due _ _ _) as [due keep] eqn:E. cbn [snd]. rewrite inject_all_spec.
  assert (Ed : due = (split_due deliver_at now (inflight self)).1) by by rewrite E. by subst due.
Qed.

Definition on_time (b : Instant * list InFlight) : Prop :=
  StronglySorted (key_le if_key) b.2 /\ Forall (fun f => deliver_at f <= b.1) b.2.

(** What the link knows of its past. *)
Record ledger (c : LinkConfig) (sent : list Sent) (out : list (Instant * list InFlight)) (self : Link) : Prop := {
  lg_cfg : cfg self = c;
  lg_fates : exists fates, Forall2 (fate c) sent fates /\
    concat (map copies fates) ≡ₚ concat (map snd out) ++ inflight self /\
    dropped self = total lost fates /\ duplicated self = total twice fates /\ corrupted self = total hit fates;
  lg_order : 0 <= order self <= 2 * zlen sent;
  lg_orders : NoDup (map if_order (inflight self)) /\ Forall (fun f => if_order f < order self) (inflight self);
  lg_out : Forall on_time out;
}.

Lemma ledger_new seed c : ledger c [] [] (new seed c).
Proof.
  split; [done|exists []; by repeat split|cbn; unfold zlen; cbn; lia|split; [apply NoDup_nil_2|constructor]|constructor].
Qed.

Lemma lost_le x : lost x <= 1.
Proof. destruct x; cbn; lia. Qed.
Lemma twice_le x : twice x <= 1.
Proof. destruct x; cbn; lia. Qed.
Lemma hit_le x : hit x <= 1.
Proof. destruct x as [|f []|f [] g]; cbn; lia. Qed.
Lemma concat_snoc {A} (l : list (list A)) x : concat (l ++ [x]) = concat l ++ x.
Proof. rewrite concat_app. cbn. by rewrite app_nil_r. Qed.

Lemma ledger_enqueue c sent out self now sd f :
  config_ok c -> 2 * zlen sent + 1 < U64_MAX -> ledger c sent out self ->
  exists self', enqueue self now sd f = Some self' /\ ledger c (sent ++ [(now, sd, f)]) out self'.
Proof.
  intros Hc Hn [<- (fates & Hf & Hp & Ed & Eu & Ec) Ho [Hnd Hlt] Hout].
  assert (Hz : zlen fates = zlen sent) by (unfold zlen; by rewrite (list.Forall2_length _ _ _ Hf)).
  pose proof (tally_le lost fates lost_le). pose proof (tally_le twice fates twice_le). pose proof (tally_le hit fates hit_le).
  pose proof (zlen_nonneg sent).
  destruct (enqueue_spec self now sd f Hc) as (r & x & Hx & Hox & ->); [lia..|].
  eexists. split; [reflexivity|]. split; cbn; [done| | | |done].
  - exists (fates ++ [x]). split; [apply Forall2_app; [done|by repeat constructor]|].
    rewrite !tally_app, map_app, <- Ed, <- Eu, <- Ec. cbn [map]. rewrite concat_snoc, Hp, <- app_assoc.
    split; [done|]. unfold total. cbn. by rewrite !Z.add_0_r.
  - rewrite zlen_app, zlen_cons. change (zlen (@nil Sent)) with 0. unfold zlen in *; destruct x; cbn; lia.
  - rewrite map_app, Hox. split.
    + apply list.NoDup_app. split; [done|]. split.
      * intros k Hk. apply list_elem_of_fmap in Hk as (g & -> & Hg). rewrite list.Forall_forall in Hlt. specialize (Hlt _ Hg).
        cbn in Hlt. clear Hx Hox. intros Hin. destruct x; [by apply elem_of_nil in Hin|apply list_elem_of_singleton in Hin; lia|].
        apply elem_of_cons in Hin as [?|Hin%list_elem_of_singleton]; lia.
      * clear Hx Hox. destruct x; [apply NoDup_nil_2|apply NoDup_singleton|].
        apply list.NoDup_cons. split; [rewrite list_elem_of_singleton; lia|apply NoDup_singleton].
    + apply Forall_app. split; [eapply List.Forall_impl; [|exact Hlt]; cbn; destruct x; unfold zlen; cbn; lia|].
      destruct x as [|g h|g h g']; cbn in Hox |- *; repeat constructor; injection Hox; intros; unfold zlen; cbn; lia.
Qed.

Lemma ledger_deliver c sent out self now :
  ledger c sent out self ->
  ledger c sent (out ++ [(now, sort_by_key if_key (split_due deliver_at now (inflight self)).1)])
    (self <| inflight := (split_due deliver_at now (inflight self)).2 |>).
Proof.
  intros [Ec (fates & Hf & Hp & Hrest) Ho [Hnd Hlt] Hout].
  pose proof (split_due_perm deliver_at now (inflight self)) as Hs.
  split; cbn [cfg inflight order set]; [done| |done| |].
  - exists fates. split; [done|]. split; [|done].
    rewrite map_app. cbn [map snd]. rewrite concat_snoc, <- app_assoc, sort_perm, Hp. f_equiv. symmetry. exact Hs.
  - split.
    + rewrite <- Hs, map_app in Hnd. by apply list.NoDup_app in Hnd as (_ & _ & ?).
    + rewrite <- Hs in Hlt. by apply Forall_app in Hlt as [_ ?].
  - apply Forall_app. split; [done|]. constructor; [|constructor]. split; cbn [fst snd]; [apply sort_sorted|].
    rewrite sort_perm. apply split_due_due.
Qed.

Lemma carry_ledger c sent out es self :
  config_ok c -> 2 * zlen (sent ++ sends es) < U64_MAX -> ledger c sent out self ->
  exists self' out', carry es self out = Some (self', out') /\ ledger c (sent ++ sends es) out' self'.
Proof.
  intros Hc. revert sent out self. induction es as [|[now sd f|now] es IH]; intros sent out self Hn Hl.
  - exists self, out. cbn. by rewrite app_nil_r.
  - cbn in Hn. rewrite zlen_app, zlen_cons in Hn. fold (sends es) in Hn. pose proof (zlen_nonneg (sends es)).
    destruct (ledger_enqueue c sent out self now sd f Hc ltac:(lia) Hl) as (self1 & E & Hl1).
    cbn [carry]. rewrite E. destruct (IH (sent ++ [(now, sd, f)]) out self1) as (self2 & out2 & E2 & Hl2).
    + rewrite <- app_assoc, zlen_app. cbn [app]. rewrite zlen_cons. lia.
    + done.
    + exists self2, out2. split; [done|]. by rewrite <- app_assoc in Hl2.
  - cbn [carry]. cbn in Hn. fold (sends es) in Hn. pose proof (ledger_deliver _ _ _ _ now Hl) as Hl1.
    destruct (split_due _ _ _) as [due keep]. cbn [fst snd] in Hl1. by apply IH.
Qed.

(** C22 — refinement.  The faulty link is a lossy, duplicating, reordering,
    bit-flipping channel and nothing else.  Any history of enqueues and flushes
    runs; each frame it was given was lost, or is on its way or delivered once or
    twice, to the side it was sent to, its delay within the configured bounds, and
    unchanged but for at most one bit past octet 20 of one copy; nothing else is
    in flight or was ever delivered.  The three counters are exact, and a fault
    whose rate is zero never happens.  Each flush delivers in (time, order) order
    and nothing early, whatever order the in-flight vector has. *)
Theorem link_is_a_lossy_channel seed c es :
  config_ok c -> 2 * zlen (sends es) < U64_MAX ->
  exists self out fates, carry es (new seed c) [] = Some (self, out) /\
    Forall2 (fate c) (sends es) fates /\
    concat (map copies fates) ≡ₚ concat (map snd out) ++ inflight self /\
    dropped self = total lost fates /\ duplicated self = total twice fates /\ corrupted self = total hit fates /\
    Forall on_time out /\
    (forall now layout, layout ≡ₚ inflight self ->
       sort_by_key if_key (split_due deliver_at now layout).1 = sort_by_key if_key (split_due deliver_at now (inflight self)).1).
Proof.
  intros Hc Hn. destruct (carry_ledger c [] [] es (new seed c) Hc Hn (ledger_new seed c)) as (self & out & E & [_ Hf _ [Hnd _] Ho]).
  destruct Hf as (fates & Hf & Hp & E1 & E2 & E3). exists self, out, fates. do 7 (split; [done|]).
  intros now layout Hl. apply (StronglySorted_unique_strong (key_le if_key)); [|apply sort_sorted..|].
  - intros f g. rewrite !sort_perm. cbn. rewrite !list_elem_of_filter, Hl. intros [_ Hf1] [_ Hg1] H1 H2.
    apply (NoDup_map_elem if_order _ _ _ Hnd Hf1 Hg1). unfold key_le, if_key in *. cbn in *. lia.
  - rewrite !sort_perm. cbn. by rewrite Hl.
Qed.

Definition stormy : LinkConfig := mkLinkConfig 300000 300000 300000 5000 4000.
Definition storm : list Event := mjoin (replicate 6 [Enqueue 0 ToServer (zrepeat 7 40); Deliver 9000; Enqueue 9000 ToClient (zrepeat 9 24)]).
Lemma link_is_a_lossy_channel_witness : exists self out fates, carry storm (new 42 stormy) [] = Some (self, out) /\
  Forall2 (fate stormy) (sends storm) fates /\ concat (map copies fates) ≡ₚ concat (map snd out) ++ inflight self /\
  (dropped self, duplicated self, corrupted self) = (total lost fates, total twice fates, total hit fates) /\
  0 < dropped self /\ 0 < duplicated self /\ 0 < corrupted self.
Proof.
  destruct (link_is_a_lossy_channel 42 stormy storm) as (self & out & fates & E & Hf & Hp & E1 & E2 & E3 & _).
  - by split.
  - vm_compute. done.
  - exists self, out, fates. split; [exact E|]. split; [exact Hf|]. split; [exact Hp|].
    split; [by rewrite E1, E2, E3|].
    assert (Hc : match carry storm (new 42 stormy) [] with
                 | Some (self, _) => (0 <? dropped self) && (0 <? duplicated self) && (0 <? corrupted self) | None => true end = true)
      by (vm_compute; reflexivity).
    rewrite E in Hc. lia.
Defined.
End LinkFacts.

(** ** A flipped bit and the receiving stack *)

Section corruption.
Context {C : Type} `{CC : CongestionControl C} (Cc_new : CcKind -> Z -> C).

Lemma hdr_app_parses r seg : Ipv4.repr_ok r -> zlen seg = Ipv4.r_payload_len r ->
  exists p, Ipv4.new_checked (Ipv4.hdr r ++ seg) = Some (Ok p) /\ Ipv4.src p = Some (Ipv4.r_src r) /\
    Ipv4.dst p = Some (Ipv4.r_dst r) /\ Ipv4.protocol p = Some (Ipv4.r_protocol r) /\ Ipv4.payload p = Some seg.
Proof.
  intros Hr Hz. pose proof (zlen_nonneg seg).
  assert (Hd : zdrop Ipv4.HEADER_LEN (zrepeat 0 20 ++ seg) = seg) by exact (zdrop_app_exact (zrepeat 0 20) seg).
  assert (Hl : zlen (zrepeat 0 20 ++ seg) = Ipv4.repr_total_len r).
  { rewrite zlen_app. change (zlen (zrepeat 0 20)) with 20. unfold Ipv4.repr_total_len. rewrite Hz. done. }
  destruct (Ipv4.emit_parse_core r (zrepeat 0 20 ++ seg))
    as (b' & p & He & _ & Hn & _ & _ & Hs & Ht & Hp & _ & _ & _ & Hpay); [done|lia|].
  rewrite Ipv4.ipv4_emit_spec, Hd in He by (rewrite Hl; unfold Ipv4.repr_total_len; lia).
  apply (inj Some) in He. subst b'. rewrite Hd, ztake_all in Hpay by lia. by exists p.
Qed.

(** The wire's bit flips fall in the TCP segment: past the header. *)
Lemma flipped_segment hdr seg g : zlen hdr = 20 -> LinkFacts.flipped (hdr ++ seg) g ->
  exists l1 b l2 bit, seg = l1 ++ b :: l2 /\ 0 <= bit < 8 /\ g = hdr ++ l1 ++ Z.lxor b (Z.shiftl 1 bit) :: l2.
Proof.
  intros Hz (off & bit & Ho & Hb & E). destruct (LinkFacts.flip_split (hdr ++ seg) off bit ltac:(lia)) as (l1 & b & l2 & Es & Hl & E').
  rewrite E in E'. injection E' as ->.
  assert (Hpre : exists l, l1 = hdr ++ l).
  { exists (drop 20 l1). rewrite <- (take_drop 20 l1) at 1. f_equal.
    apply (f_equal (take 20)) in Es. rewrite !take_app_le in Es by (unfold zlen in *; lia).
    rewrite <- Es. apply firstn_all2. unfold zlen in Hz. lia. }
  destruct Hpre as [l ->]. exists l, b, l2, bit. rewrite <- app_assoc in Es. apply app_inv_head in Es.
  by rewrite <- app_assoc.
Qed.

Lemma flipped_byte b bit : is_u8 b -> 0 <= bit < 8 -> is_u8 (Z.lxor b (Z.shiftl 1 bit)) /\ Z.lxor b (Z.shiftl 1 bit) <> b.
Proof.
  intros Hb Hbit.
  assert (Hm : 0 < Z.shiftl 1 bit < 256).
  { rewrite Z.shiftl_1_l. split; [apply Z.pow_pos_nonneg; lia|]. change 256 with (2 ^ 8). apply Z.pow_lt_mono_r; lia. }
  unfold is_u8 in *. split.
  - assert (0 <= Z.lxor b (Z.shiftl 1 bit)) by (apply Z.lxor_nonneg; lia).
    destruct (Z.eq_dec (Z.lxor b (Z.shiftl 1 bit)) 0) as [->|Hn]; [lia|]. split; [done|]. apply Z.log2_lt_pow2; [lia|].
    pose proof (Z.log2_lxor b (Z.shiftl 1 bit) ltac:(lia) ltac:(lia)).
    assert (Hl : forall x, 0 <= x < 2 ^ 8 -> Z.log2 x < 8).
    { intros x Hx. destruct (Z.eq_dec x 0) as [->|]; [done|]. apply Z.log2_lt_pow2; lia. }
    pose proof (Hl b Hb). pose proof (Hl _ (conj (Z.lt_le_incl _ _ (proj1 Hm)) (proj2 Hm))). lia.
  - intros E. apply (f_equal (Z.lxor b)) in E. rewrite <- Z.lxor_assoc, Z.lxor_nilpotent, Z.lxor_0_l in E. lia.
Qed.

Lemma ztake_replace (l1 l2 : list Z) b b' n : n <= zlen l1 -> ztake n (l1 ++ b' :: l2) = ztake n (l1 ++ b :: l2).
Proof. intros Hn. unfold ztake. by rewrite !take_app_le by (unfold zlen in Hn; lia). Qed.
Lemma zdrop_replace (l1 l2 : list Z) b b' n : zlen l1 < n -> zdrop n (l1 ++ b' :: l2) = zdrop n (l1 ++ b :: l2).
Proof.
  intros Hn. unfold zdrop. rewrite !drop_app_ge by (unfold zlen in Hn; lia).
  destruct (Z.to_nat n - length l1)%nat as [|k] eqn:E; [unfold zlen in Hn; lia|done].
Qed.
Lemma slice_two (l : list Z) i x y : 0 <= i -> at_ l i = Some x -> at_ l (i + 1) = Some y -> slice l i (i + 2) = Some [x; y].
Proof.
  intros Hi Hx Hy. rewrite at_lookup in Hx, Hy by lia. replace (Z.to_nat (i + 1)) with (S (Z.to_nat i)) in Hy by lia.
  pose proof (lookup_lt_Some _ _ _ Hy). rewrite slice_Some by (unfold zlen; lia). unfold ztake, zdrop.
  rewrite (drop_S _ x) by done. rewrite (drop_S _ y) by done. replace (Z.to_nat (i + 2 - i)) with 2%nat by lia. done.
Qed.

(** C23 — error.  A bit the link flips never reaches the application.  Take any
    TCP datagram whose checksum holds and is not the all-zero one, as a stack emits
    it, and flip any bit of it past octet 20, as the link does.  The copy still
    parses as the same IPv4 packet, and every stack that receives it, in whatever
    state, is left exactly as it was; unless the flip itself made the checksum
    field zero, which the stack reads as "no checksum", and then the rest of the
    segment is the original's. *)
Theorem flipped_bit_is_harmless r seg g (self : Stack C) now :
  Ipv4.repr_ok r -> zlen seg = Ipv4.r_payload_len r -> Ipv4.r_protocol r = IPPROTO_TCP -> bytes_ok seg ->
  tcp_checksum_valid (Ipv4.r_src r) (Ipv4.r_dst r) seg = true -> slice seg 16 18 <> Some [0; 0] ->
  LinkFacts.flipped (Ipv4.hdr r ++ seg) g ->
  exists seg' ip, g = Ipv4.hdr r ++ seg' /\ Ipv4.new_checked g = Some (Ok ip) /\ Ipv4.payload ip = Some seg' /\
    (on_recv Cc_new self now ip = Some self \/
     slice seg' 16 18 = Some [0; 0] /\ ztake 16 seg' = ztake 16 seg /\ zdrop 18 seg' = zdrop 18 seg).
Proof.
  intros Hr Hz Hproto Hb Hv Hnz Hf.
  assert (Hzh : zlen (Ipv4.hdr r) = 20) by (by destruct r as [[] []]).
  destruct (flipped_segment _ _ _ Hzh Hf) as (l1 & b & l2 & bit & -> & Hbit & ->).
  set (b' := Z.lxor b _). exists (l1 ++ b' :: l2).
  assert (Hz' : zlen (l1 ++ b' :: l2) = Ipv4.r_payload_len r) by (rewrite <- Hz, !zlen_app, !zlen_cons; lia).
  destruct (hdr_app_parses r _ Hr Hz') as (ip & Hn & Hs & Hd & Hp & Hpay).
  exists ip. split; [done|]. split; [done|]. split; [done|].
  pose proof Hb as [Hb1 Hb2]%Forall_app. apply Forall_cons_1 in Hb2 as [Hb0 Hb2].
  destruct (flipped_byte b bit Hb0 Hbit) as [Hok Hne]. fold b' in Hok, Hne.
  assert (Hbad : tcp_checksum_valid (Ipv4.r_src r) (Ipv4.r_dst r) (l1 ++ b' :: l2) = false).
  { pose proof (Ipv4.ro_len _ Hr) as [_ Hlen]. unfold Ipv4.HEADER_LEN, IPV4_MIN_HEADER_LEN in Hlen.
    apply (single_byte_corruption_detected _ _ _ _ b); try done; [apply Hr|apply Hr|lia]. }
  unfold on_recv. rewrite Hp. destruct (negb (Ipv4.r_protocol r =? IPPROTO_TCP)); [by left|].
  rewrite Hd. destruct (negb (bool_decide _)) eqn:Edst; [by left|]. rewrite Hpay.
  assert (Hok' : bytes_ok (l1 ++ b' :: l2)) by (apply Forall_app; split; [done|by constructor]).
  destruct (new_checked_cases (l1 ++ b' :: l2)) as (res & Hres & Hc). rewrite Hres. destruct res as [tcp|e]; [|by left].
  destruct (segment_fields _ tcp Hok' Hres) as (sport & dport & csum & f & Eb & _ & _ & _ & Ec & _).
  rewrite Ec, Hs, Eb, Hbad. destruct (csum =? 0) eqn:E0; [|by left]. right.
  assert (Hfield : slice (l1 ++ b' :: l2) 16 18 = Some [0; 0]).
  { unfold checksum_field in Ec. rewrite Eb in Ec. destruct (at_ _ 16) as [x|] eqn:Ex; [|done]. destruct (at_ _ 17) as [y|] eqn:Ey; [|done].
    injection Ec as Ec. rewrite (slice_two _ 16 x y) by done.
    assert (Hbyte : forall i z, 0 <= i -> at_ (l1 ++ b' :: l2) i = Some z -> is_u8 z).
    { intros i z Hi Hat. rewrite at_lookup in Hat by done. by apply (Forall_lookup_1 _ _ _ _ Hok' Hat). }
    pose proof (Hbyte 16 x ltac:(lia) Ex). pose proof (Hbyte 17 y ltac:(lia) Ey). unfold is_u8, be16 in *.
    assert (x = 0) as -> by lia. assert (y = 0) as -> by lia. done. }
  split; [done|].
  assert (Hl : 18 <= zlen (l1 ++ b' :: l2)) by (unfold slice in Hfield; destruct (_ && _) eqn:?; [lia|done]).
  assert (Hl' : zlen (l1 ++ b :: l2) = zlen (l1 ++ b' :: l2)) by (rewrite !zlen_app, !zlen_cons; lia).
  destruct (Z.le_gt_cases 16 (zlen l1)) as [H16|H16], (Z.lt_ge_cases (zlen l1) 18) as [H18|H18].
  - by rewrite (ztake_replace _ _ b b'), (zdrop_replace _ _ b b').
  - exfalso. apply Hnz. rewrite <- Hfield, !slice_Some by lia. f_equal. unfold ztake, zdrop.
    rewrite !(drop_app_le l1), !take_app_le by (rewrite ?length_drop; unfold zlen in *; lia). done.
  - exfalso. apply Hnz. rewrite <- Hfield, !slice_Some by lia. by rewrite (zdrop_replace _ _ b b' 16).
  - lia.
Qed.
End corruption.

(** *** A datagram of the demo's peer, and one whose checksum comes out zero *)

Definition demo_repr : TcpRepr :=
  mkTcpRepr (ep_port demo_remote) (ep_port demo_local) 1000 4294967295 TcpFlags.ACK 500 None false SackBlocks_default None None false.
Definition demo_ip : Ipv4.Ipv4Repr := Ipv4.mkRepr (ep_ip demo_remote) (ep_ip demo_local) IPPROTO_TCP 22 64 0.
Definition demo_segment (data : list Z) : list Z := segment demo_repr (ep_ip demo_remote) (ep_ip demo_local) data.

Lemma demo_ip_ok : Ipv4.repr_ok demo_ip.
Proof. split; [apply demo_remote_ok|apply demo_local_ok|..]; repeat split; vm_compute; (discriminate || reflexivity). Qed.

Lemma flipped_bit_is_harmless_witness : exists g ip,
  Link.flip (Ipv4.hdr demo_ip ++ demo_segment [7; 8]) 41 3 = Some g /\ Ipv4.new_checked g = Some (Ok ip) /\
  on_recv demo_cc_new demo_stack 5 ip = Some demo_stack.
Proof.
  destruct (LinkFacts.flip_split (Ipv4.hdr demo_ip ++ demo_segment [7; 8]) 41 3) as (l1 & b & l2 & _ & _ & Eg).
  { split; [lia|]. vm_compute. reflexivity. }
  set (g := l1 ++ _) in Eg. clearbody g. exists g.
  destruct (flipped_bit_is_harmless demo_cc_new demo_ip (demo_segment [7; 8]) g demo_stack 5) as (seg' & ip & Es & En & _ & Hr).
  - exact demo_ip_ok.
  - vm_compute. reflexivity.
  - reflexivity.
  - vm_compute. repeat constructor; discriminate.
  - vm_compute. reflexivity.
  - vm_compute. discriminate.
  - exists 41, 3. split; [split; [lia|vm_compute; reflexivity]|]. split; [lia|exact Eg].
  - exists ip. split; [exact Eg|]. split; [exact En|]. destruct Hr as [Hr|[Hf _]]; [exact Hr|exfalso].
    assert (Hg : Some g = Some (Ipv4.hdr demo_ip ++ zdrop 20 (default [] (Link.flip (Ipv4.hdr demo_ip ++ demo_segment [7; 8]) 41 3)))).
    { rewrite Eg. cbn [default]. rewrite Es at 1. f_equal. f_equal. rewrite Es. symmetry. exact (zdrop_app_exact (Ipv4.hdr demo_ip) seg'). }
    apply (inj Some) in Hg. rewrite Es in Hg. apply app_inv_head in Hg. rewrite Hg in Hf. vm_compute in Hf. discriminate.
Defined.

(** A segment whose checksum comes out zero is sent with a zero field, which the
    receiver takes for "no checksum": a flipped bit of it is not noticed, and the
    application is given the wrong octet. *)
Lemma zero_checksum_admits_a_flip : exists frame g ip self t,
  build_segment demo_remote demo_local demo_repr [208; 232] = Some frame /\
  tcp_checksum_valid (ep_ip demo_remote) (ep_ip demo_local) (demo_segment [208; 232]) = true /\
  frame = Ipv4.hdr demo_ip ++ demo_segment [208; 232] /\ Link.flip frame 40 0 = Some g /\
  Ipv4.new_checked g = Some (Ok ip) /\ on_recv demo_cc_new demo_stack 5 ip = Some self /\
  conns self !! demo_remote = Some t /\ ztake 4 (Buffers.RingBuffer.buf (rx t)) = [1; 2; 209; 232].
Proof.
  eexists _, _, _, _, _. split; [vm_compute; reflexivity|]. split; [vm_compute; reflexivity|]. split; [vm_compute; reflexivity|].
  split; [vm_compute; reflexivity|]. split; [vm_compute; reflexivity|]. split; [vm_compute; reflexivity|].
  split; [vm_compute; reflexivity|]. vm_compute. reflexivity.
Qed.
