(* ===== verification/SimQueueProps.v ===== *)
(** The simulator's queues: the bottleneck is a FIFO server with a finite buffer,
    and the dual queue keeps its books, ends its services and shares the link. *)

From stdpp Require Import sorting.
From S2P Require Import Prelude Time Checksum Ipv4 Iface Executor Socket Reactor SimLink SimLinkProps.

#[local] Arguments chk64 : simpl never.
#[local] Arguments set_ecn : simpl never.
#[local] Arguments sat_mul64 : simpl never.
#[local] Arguments plus_micros : simpl never.
#[local] Arguments saturating_micros_since : simpl never.

(** ** The bottleneck *)

Lemma ect_total f : exists b, frame_is_ect f = Some b.
Proof.
  unfold frame_is_ect. destruct (20 <=? zlen f) eqn:E; [|by eexists]. destruct (at_is_Some f 1 ltac:(lia)) as [b ->]. by eexists.
Qed.

(** What the marking step may do: nothing, or CE on an ECN-capable frame. *)
Definition remarked (on ce : bool) (f g : list Z) : Prop :=
  if ce then on = true /\ frame_is_ect f = Some true /\ set_ecn f ECN_CE = Some g
  else g = f /\ (on = true -> frame_is_ect f = Some false).

Lemma ce_mark_spec on f m : bytes_ok f -> m < U64_MAX ->
  exists g ce, ce_mark on f m = Some (g, m + Z.b2z ce) /\ remarked on ce f g.
Proof.
  intros Hf Hm. unfold ce_mark. destruct on; [|exists f, false; rewrite Z.add_0_r; by repeat split].
  destruct (ect_total f) as [[] E]; rewrite E; [|exists f, false; rewrite Z.add_0_r; by repeat split].
  assert (Hl : IPV4_MIN_HEADER_LEN <= zlen f).
  { revert E. unfold frame_is_ect, IPV4_MIN_HEADER_LEN. destruct (20 <=? zlen f) eqn:?; [lia|done]. }
  destruct (set_ecn_spec f ECN_CE Hf Hl ltac:(unfold ECN_CE; lia)) as (g & Eg & _). rewrite Eg, chk64_Some by lia. exists g, true. by repeat split.
Qed.

(** Sums and maxima over a history. *)
Definition zsum (l : list Z) : Z := foldr Z.add 0 l.
Definition zmax (l : list Z) : Z := foldr Z.max 0 l.
Lemma zsum_snoc l x : zsum (l ++ [x]) = zsum l + x.
Proof. induction l as [|y l IH]; cbn; [lia|]. fold (zsum (l ++ [x])) (zsum l). lia. Qed.
Lemma zmax_snoc l x : 0 <= x -> zmax (l ++ [x]) = Z.max (zmax l) x.
Proof. intros Hx. induction l as [|y l IH]; cbn; [lia|]. fold (zmax (l ++ [x])) (zmax l). lia. Qed.
Lemma zmax_nonneg l : 0 <= zmax l.
Proof. destruct l as [|x l]; cbn; [done|]. induction l as [|y l IH]; cbn; lia. Qed.
Lemma zsum_le_zmax l : zsum l <= zmax l * zlen l.
Proof.
  assert (H : forall m, Forall (fun x => x <= m) l -> zsum l <= m * zlen l).
  { intros m. induction 1 as [|x l Hx Hl IH]; [cbn; change (zlen (@nil Z)) with 0; lia|]. cbn. fold (zsum l). rewrite zlen_cons. lia. }
  apply H. clear H. assert (G : forall m, zmax l <= m -> Forall (fun x => x <= m) l); [|by apply G].
  induction l as [|x l IH]; intros m Hm; [constructor|]. cbn in Hm. fold (zmax l) in Hm. constructor; [lia|apply IH; lia].
Qed.
Lemma zmax_lt l b : 0 < b -> Forall (fun x => x < b) l -> zmax l < b.
Proof. intros Hb. induction 1 as [|x l Hx Hl IH]; [done|]. cbn. fold (zmax l). lia. Qed.

Lemma slot_set_same {A} (t : Two A) i a : slot (set_slot t i a) i = a.
Proof. by destruct i. Qed.
Lemma slot_set_other {A} (t : Two A) i j a : i <> j -> slot (set_slot t i a) j = slot t j.
Proof. by destruct i, j. Qed.
Lemma slot_both {A} (a : A) i : slot (both a) i = a.
Proof. by destruct i. Qed.

Module BnFacts.
Import Bn.

Record config_ok (c : Bottleneck) : Prop := {
  co_rate : 0 <= rate_bytes_per_sec c;
  co_buffer : 0 <= buffer_bytes c < U64_MAX / 1000000;
  co_delay : 0 <= base_delay_us c;
}.
Definition rate (c : Bottleneck) : Z := Z.max (rate_bytes_per_sec c) 1.
Definition deep (c : Bottleneck) (queue_us : Z) : bool := match aqm c with CeMark t => t <? queue_us | TailDrop => false end.

(** A frame offered to the bottleneck is refused, or carried after [queue_us] of
    waiting. *)
Inductive Verdict := Refused (i : Side) | Carried (f : InFlight) (queue_us : Z) (ce : bool).

(** The reference: a FIFO server at the configured rate.  [free] is when each
    direction has sent what it holds; the octets still to send are the rate times
    the time left. *)
Inductive serves (c : Bottleneck) : Two Instant -> list LinkFacts.Sent -> list Verdict -> Two Instant -> Prop :=
| serves_nil free : serves c free [] [] free
| serves_refused free sent vs free' now i f :
    serves c free sent vs free' ->
    buffer_bytes c < sat_mul64 (Z.max (slot free' i - now) 0) (rate c) / 1000000 + zlen f ->
    serves c free (sent ++ [(now, i, f)]) (vs ++ [Refused i]) free'
| serves_carried free sent vs free' now i f g o q ce depart :
    serves c free sent vs free' ->
    q = Z.max (slot free' i - now) 0 -> q * rate c < (buffer_bytes c - zlen f + 1) * 1000000 ->
    depart = plus_micros (now + q) (sat_mul64 (zlen f) 1000000 / rate c) ->
    remarked (deep c q) ce f g ->
    serves c free (sent ++ [(now, i, f)])
      (vs ++ [Carried (mkInFlight (plus_micros depart (base_delay_us c)) i o g) q ce]) (set_slot free' i depart).

Definition carried (vs : list Verdict) : list InFlight :=
  omap (fun v => match v with Carried f _ _ => Some f | Refused _ => None end) vs.
Definition waits (i : Side) (vs : list Verdict) : list Z :=
  omap (fun v => match v with Carried f q _ => if decide (side f = i) then Some q else None | Refused _ => None end) vs.
Definition refusals (i : Side) (vs : list Verdict) : Z :=
  zlen (omap (fun v => match v with Refused j => if decide (j = i) then Some tt else None | Carried _ _ _ => None end) vs).
Definition marks (i : Side) (vs : list Verdict) : Z :=
  zlen (omap (fun v => match v with Carried f _ true => if decide (side f = i) then Some tt else None | _ => None end) vs).

Lemma mul_sat_bound q r b len : 0 <= q -> 1 <= r -> 0 <= b < U64_MAX / 1000000 -> 0 <= len ->
  sat_mul64 q r / 1000000 + len <= b -> q * r < (b - len + 1) * 1000000.
Proof.
  intros Hq Hr Hb Hl H. unfold sat_mul64 in H.
  assert (Hx : U64_MAX / 1000000 = 18446744073709) by reflexivity. rewrite Hx in Hb.
  destruct (Z.le_gt_cases (q * r) U64_MAX) as [Hle|Hgt].
  - rewrite Z.min_l in H by done. pose proof (Z.div_mod (q * r) 1000000 ltac:(lia)).
    pose proof (Z.mod_pos_bound (q * r) 1000000 ltac:(lia)). lia.
  - rewrite Z.min_r in H by lia. rewrite Hx in H. lia.
Qed.

(** *** A history *)

Fixpoint bn_carry (es : list LinkFacts.Event) (self : BottleneckLink) (out : list (Instant * list InFlight))
  : option (BottleneckLink * list (Instant * list InFlight)) :=
  match es with
  | [] => Some (self, out)
  | LinkFacts.Enqueue now side frame :: es => let? self := enqueue self now side frame in bn_carry es self out
  | LinkFacts.Deliver now :: es =>
      let '(due, keep) := split_due deliver_at now (inflight self) in
      bn_carry es (self <| inflight := keep |>) (out ++ [(now, sort_by_key if_key due)])
  end.

(** The frames of one direction, delivered and then in flight. *)
Definition passage (i : Side) (out : list (Instant * list InFlight)) (fl : list InFlight) : list InFlight :=
  filter (fun f => side f = i) (concat (map snd out) ++ fl).

Record books (c : Bottleneck) (sent : list LinkFacts.Sent) (out : list (Instant * list InFlight)) (vs : list Verdict)
    (self : BottleneckLink) : Prop := {
  bk_cfg : cfg self = c;
  bk_serves : serves c (both ZERO) sent vs (next_free self);
  bk_order : 0 <= order self <= zlen sent;
  bk_fifo i : passage i out (inflight self) = filter (fun f => side f = i) (carried vs);
  bk_sorted i : StronglySorted (key_le if_key) (filter (fun f => side f = i) (carried vs)) /\
    Forall (fun f => deliver_at f <= plus_micros (slot (next_free self) i) (base_delay_us c) /\ if_order f < order self)
      (filter (fun f => side f = i) (carried vs));
  bk_free i : is_u64 (slot (next_free self) i);
  bk_waits i : Forall (fun q => 0 <= q /\ q * rate c < (buffer_bytes c + 1) * 1000000) (waits i vs);
  bk_sum i : slot (sum_queue_us self) i = zsum (waits i vs);
  bk_max i : slot (max_queue_us self) i = zmax (waits i vs);
  bk_delivered i : slot (delivered self) i = zlen (waits i vs);
  bk_dropped i : slot (dropped self) i = refusals i vs;
  bk_marked i : slot (marked self) i = marks i vs;
}.

Lemma zlen_snoc {A} (l : list A) x : zlen (l ++ [x]) = zlen l + 1.
Proof. unfold zlen. rewrite length_app. cbn. lia. Qed.
Lemma omap_le {A B} (g : A -> option B) l : zlen (omap g l) <= zlen l.
Proof.
  induction l as [|x l IH]; [done|]. rewrite zlen_cons. cbn. destruct (g x); [rewrite zlen_cons|]; lia.
Qed.
Lemma omap_snoc {A B} (g : A -> option B) l x : omap g (l ++ [x]) = omap g l ++ match g x with Some y => [y] | None => [] end.
Proof. by rewrite omap_app. Qed.

Lemma serves_length c free sent vs free' : serves c free sent vs free' -> zlen vs = zlen sent.
Proof. unfold zlen. induction 1; rewrite ?length_app; cbn; lia. Qed.

Lemma books_new c : config_ok c -> books c [] [] [] (new c).
Proof.
  intros _. split; try done; try (by intros []); [apply serves_nil|intros i]. cbn. by split; constructor.
Qed.

Lemma plus_micros_le a b d : a <= b -> plus_micros a d <= plus_micros b d.
Proof. unfold plus_micros, sat_add64. lia. Qed.

Definition datagram (f : list Z) : Prop := bytes_ok f /\ zlen f <= U16_MAX.

(** How many frames fit before a counter can overflow. *)
Definition room (c : Bottleneck) (n : Z) : Prop := n * ((buffer_bytes c + 1) * 1000000) <= U64_MAX.

Lemma waits_sum c i vs : config_ok c -> Forall (fun q => 0 <= q /\ q * rate c < (buffer_bytes c + 1) * 1000000) (waits i vs) ->
  0 <= zsum (waits i vs) <= zlen vs * ((buffer_bytes c + 1) * 1000000).
Proof.
  intros [_ Hb _] Hw. assert (1 <= rate c) by (unfold rate; lia).
  pose proof (omap_le (fun v => match v with Carried f q _ => if decide (side f = i) then Some q else None | Refused _ => None end) vs) as Hle.
  fold (waits i vs) in Hle.
  assert (Hs : 0 <= zsum (waits i vs) <= zlen (waits i vs) * ((buffer_bytes c + 1) * 1000000)); [|nia].
  clear Hle. induction Hw as [|q l Hq Hl IH]; [done|]. cbn. fold (zsum l). rewrite zlen_cons. nia.
Qed.

Lemma books_refused c sent out vs self now i f :
  books c sent out vs self ->
  buffer_bytes c < sat_mul64 (Z.max (slot (next_free self) i - now) 0) (rate c) / 1000000 + zlen f ->
  books c (sent ++ [(now, i, f)]) out (vs ++ [Refused i])
    (self <| dropped := set_slot (dropped self) i (slot (dropped self) i + 1) |>).
Proof.
  intros [Ec Hs Ho Hfifo Hsort Hfree Hw Hsum Hmax Hdel Hdrop Hmark] Hfull. rewrite Hdrop.
  split; cbn [cfg inflight order next_free sum_queue_us max_queue_us delivered dropped marked set];
    unfold carried, waits, refusals, marks in *; rewrite ?omap_snoc, ?app_nil_r; try done.
  + apply serves_refused; [done|]. exact Hfull.
  + rewrite zlen_snoc. lia.
  + intros j. rewrite omap_snoc, app_nil_r. apply Hw.
  + intros j. rewrite omap_snoc, app_nil_r. apply Hsum.
  + intros j. rewrite omap_snoc, app_nil_r. apply Hmax.
  + intros j. rewrite omap_snoc, app_nil_r. apply Hdel.
  + intros j. rewrite omap_snoc. destruct (decide (i = j)) as [->|Hn].
    * by rewrite slot_set_same, zlen_snoc.
    * rewrite slot_set_other, app_nil_r by done. apply Hdrop.
  + intros j. rewrite omap_snoc, app_nil_r. apply Hmark.
Qed.

Lemma books_carried c sent out vs self now i f q g ce :
  config_ok c -> is_u64 now -> books c sent out vs self ->
  q = Z.max (slot (next_free self) i - now) 0 -> q * rate c < (buffer_bytes c - zlen f + 1) * 1000000 ->
  remarked (deep c q) ce f g ->
  let depart := plus_micros (now + q) (sat_mul64 (zlen f) 1000000 / rate c) in
  let fl := mkInFlight (plus_micros depart (base_delay_us c)) i (order self) g in
  books c (sent ++ [(now, i, f)]) out (vs ++ [Carried fl q ce])
    (self <| marked := set_slot (marked self) i (slot (marked self) i + Z.b2z ce) |>
          <| next_free := set_slot (next_free self) i depart |>
          <| sum_queue_us := set_slot (sum_queue_us self) i (slot (sum_queue_us self) i + q) |>
          <| max_queue_us := set_slot (max_queue_us self) i (Z.max (slot (max_queue_us self) i) q) |>
          <| delivered := set_slot (delivered self) i (slot (delivered self) i + 1) |>
          <| order := order self + 1 |>
          <| inflight := inflight self ++ [fl] |>).
Proof.
  intros Hc Hnow [Ec Hs Ho Hfifo Hsort Hfree Hw Hsum Hmax Hdel Hdrop Hmark] Eq Hq Hg depart fl.
  pose proof Hc as [Hr Hb Hd]. pose proof (Hfree i) as Hfr. pose proof (zlen_nonneg f).
  assert (Hr1 : 1 <= rate c) by (unfold rate; lia). rewrite Hsum, Hdel, Hmark.
  assert (Hfree' : forall j, is_u64 (slot (set_slot (next_free self) i depart) j) /\
                             slot (next_free self) j <= slot (set_slot (next_free self) i depart) j).
  { intros j. destruct (decide (i = j)) as [<-|Hn]; [|by rewrite slot_set_other by done; split; [apply Hfree|]].
    rewrite slot_set_same. assert (is_u64 (now + q) /\ slot (next_free self) i <= now + q) as [Hnq Hfq] by (unfold is_u64 in *; lia).
    assert (Hser : 0 <= sat_mul64 (zlen f) 1000000 / rate c) by (unfold sat_mul64; apply Z.div_pos; lia).
    split; [by apply plus_micros_ok|]. transitivity (now + q); [done|]. by apply plus_micros_mono. }
  split; cbn [cfg inflight order next_free sum_queue_us max_queue_us delivered dropped marked set].
  + done.
  + apply (serves_carried c _ _ _ (next_free self)); [done|done|apply Hq|done|done].
  + rewrite zlen_snoc. lia.
  + intros j. unfold passage, carried. rewrite omap_snoc, app_assoc, !(list.filter_app _ (_ ++ _)), (list.filter_app _ (omap _ _)). f_equal. apply Hfifo.
  + intros j. destruct (Hsort j) as [Hsj Hbj], (Hfree' j) as [_ Hge]. unfold carried. rewrite omap_snoc, list.filter_app.
    fold (carried vs). rewrite filter_cons, filter_nil. destruct (decide (side fl = j)) as [Hj|Hj].
    * change (i = j) in Hj. subst j. assert (Hfl : deliver_at fl = plus_micros (slot (set_slot (next_free self) i depart) i) (base_delay_us c))
        by by rewrite slot_set_same.
      assert (Hof : if_order fl = order self) by done.
      split.
      -- apply StronglySorted_app_2; [|done|repeat constructor]. intros x y Hx ->%list_elem_of_singleton.
         destruct (proj1 (list.Forall_forall _ _) Hbj x Hx) as [Hx1 Hx2]. pose proof (plus_micros_le _ _ (base_delay_us c) Hge).
         unfold key_le, if_key. cbn [fst snd]. rewrite Hof. lia.
      -- apply Forall_app. split; [|constructor; [split; [by rewrite Hfl|rewrite Hof; lia]|constructor]].
         eapply List.Forall_impl; [|exact Hbj]. cbn. intros x [Hx1 Hx2]. pose proof (plus_micros_le _ _ (base_delay_us c) Hge). lia.
    * rewrite app_nil_r. split; [done|]. eapply List.Forall_impl; [|exact Hbj]. cbn. intros x [Hx1 Hx2].
      pose proof (plus_micros_le _ _ (base_delay_us c) Hge). lia.
  + intros j. apply Hfree'.
  + intros j. unfold waits. rewrite omap_snoc. apply Forall_app. split; [apply Hw|]. cbn.
    destruct (decide _); constructor; [nia|constructor].
  + intros j. unfold waits. rewrite omap_snoc. cbn. destruct (decide (i = j)) as [<-|Hn].
    * by rewrite slot_set_same, zsum_snoc.
    * rewrite slot_set_other, app_nil_r by done. apply Hsum.
  + intros j. unfold waits. rewrite omap_snoc. cbn. destruct (decide (i = j)) as [<-|Hn].
    * rewrite slot_set_same, zmax_snoc, Hmax by lia. done.
    * rewrite slot_set_other, app_nil_r by done. apply Hmax.
  + intros j. unfold waits. rewrite omap_snoc. cbn. destruct (decide (i = j)) as [<-|Hn].
    * by rewrite slot_set_same, zlen_snoc.
    * rewrite slot_set_other, app_nil_r by done. apply Hdel.
  + intros j. unfold refusals. rewrite omap_snoc, app_nil_r. apply Hdrop.
  + intros j. unfold marks. rewrite omap_snoc. cbn. destruct (decide (i = j)) as [<-|Hn].
    * rewrite slot_set_same. destruct ce; [by rewrite zlen_snoc|by rewrite app_nil_r, Z.add_0_r].
    * rewrite slot_set_other by done. destruct ce; rewrite app_nil_r; apply Hmark.
Qed.

Lemma books_enqueue c sent out vs self now i f :
  config_ok c -> room c (zlen sent + 1) -> is_u64 now -> datagram f -> books c sent out vs self ->
  exists self' v, enqueue self now i f = Some self' /\ books c (sent ++ [(now, i, f)]) out (vs ++ [v]) self'.
Proof.
  intros Hc Hroom Hnow [Hf Hlen] [Ec Hs Ho Hfifo Hsort Hfree Hw Hsum Hmax Hdel Hdrop Hmark].
  pose proof Hc as [Hr Hb Hd]. pose proof (serves_length _ _ _ _ _ Hs) as Hzl. pose proof (zlen_nonneg sent). pose proof (zlen_nonneg f).
  unfold room in Hroom. assert (zlen sent + 1 <= U64_MAX) by nia.
  unfold enqueue. rewrite Ec. fold (rate c). assert (Hr1 : 1 <= rate c) by (unfold rate; lia).
  set (free := slot (next_free self) i). pose proof (Hfree i) as Hfr. fold free in Hfr.
  assert (Eq : saturating_micros_since free now = Z.max (free - now) 0) by done. rewrite Eq. set (q := Z.max (free - now) 0).
  assert (Hbk : 0 <= sat_mul64 q (rate c) / 1000000 <= U64_MAX / 1000000).
  { unfold sat_mul64. split; [apply Z.div_pos; nia|apply Z.div_le_mono; lia]. }
  change (U64_MAX / 1000000) with 18446744073709 in Hbk, Hb. rewrite chk64_Some by lia.
  destruct (buffer_bytes c <? _) eqn:Efull.
  - assert (Hrf : refusals i vs <= zlen vs) by apply omap_le. rewrite chk64_Some by (rewrite Hdrop; lia).
    eexists _, (Refused i). split; [reflexivity|]. apply books_refused; [done|]. fold free q. lia.
  - assert (Est : (if now <? free then free else now) = now + q) by (unfold q; destruct (now <? free) eqn:?; lia).
    rewrite Est.
    assert (Eq' : saturating_micros_since (now + q) now = q) by (unfold saturating_micros_since, sat_sub, q; lia). rewrite Eq'.
    fold (deep c q).
    assert (Hmk : marks i vs <= zlen vs) by apply omap_le.
    assert (Hwl : zlen (waits i vs) <= zlen vs) by apply omap_le.
    destruct (ce_mark_spec (deep c q) f (slot (marked self) i) Hf ltac:(rewrite Hmark; lia)) as (g & ce & Eg & Hg). rewrite Eg.
    assert (Hq : 0 <= q /\ q * rate c < (buffer_bytes c - zlen f + 1) * 1000000).
    { assert (0 <= q) by (unfold q; lia). split; [done|]. apply mul_sat_bound; [done|done|change (U64_MAX / 1000000) with 18446744073709; lia|done|lia]. }
    pose proof (waits_sum c i vs Hc (Hw i)) as Hws. rewrite Hzl in Hws.
    assert (Hqb : q < (buffer_bytes c + 1) * 1000000) by nia.
    rewrite (chk64_Some (_ + q)), (chk64_Some (slot (delivered self) i + 1)), chk64_Some by (rewrite ?Hsum, ?Hdel; lia).
    eexists _, _. split; [reflexivity|]. apply books_carried; try done; apply Hq.
Qed.

Lemma books_deliver c sent out vs self now :
  books c sent out vs self ->
  books c sent (out ++ [(now, sort_by_key if_key (split_due deliver_at now (inflight self)).1)]) vs
    (self <| inflight := (split_due deliver_at now (inflight self)).2 |>).
Proof.
  intros [Ec Hs Ho Hfifo Hsort Hfree Hw Hsum Hmax Hdel Hdrop Hmark].
  split; cbn [cfg inflight order next_free sum_queue_us max_queue_us delivered dropped marked set]; try done.
  intros i. rewrite <- Hfifo. unfold passage. rewrite map_app. cbn [map snd]. rewrite LinkFacts.concat_snoc, <- app_assoc, !(list.filter_app _ (concat _)).
  f_equal. apply flush_keeps_order. destruct (Hsort i) as [Hi _]. rewrite <- Hfifo in Hi. unfold passage in Hi.
  rewrite list.filter_app in Hi. by apply StronglySorted_app_1_r in Hi.
Qed.

Definition fits (c : Bottleneck) (sent : list LinkFacts.Sent) : Prop :=
  room c (zlen sent) /\ Forall (fun s => is_u64 s.1.1 /\ datagram s.2) sent.

Lemma bn_carry_books c sent out vs es self :
  config_ok c -> room c (zlen (sent ++ LinkFacts.sends es)) -> Forall (fun s => is_u64 s.1.1 /\ datagram s.2) (LinkFacts.sends es) ->
  books c sent out vs self ->
  exists self' out' vs', bn_carry es self out = Some (self', out') /\ books c (sent ++ LinkFacts.sends es) out' (vs ++ vs') self'.
Proof.
  intros Hc. revert sent out vs self. induction es as [|[now i f|now] es IH]; intros sent out vs self Hr Hd Hb.
  - exists self, out, []. cbn. by rewrite !app_nil_r.
  - cbn [LinkFacts.sends omap list_omap] in *. fold (LinkFacts.sends es) in *. apply Forall_cons_1 in Hd as [[Hn Hdg] Hd].
    assert (Hr1 : room c (zlen sent + 1)).
    { unfold room in *. rewrite zlen_app, zlen_cons in Hr. pose proof (zlen_nonneg (LinkFacts.sends es)). pose proof (co_buffer _ Hc). nia. }
    destruct (books_enqueue c sent out vs self now i f Hc Hr1 Hn Hdg Hb) as (self1 & v & E & Hb1). cbn [bn_carry]. rewrite E.
    destruct (IH (sent ++ [(now, i, f)]) out (vs ++ [v]) self1) as (self2 & out2 & vs2 & E2 & Hb2); [by rewrite <- app_assoc|done|done|].
    exists self2, out2, (v :: vs2). by rewrite <- !app_assoc in Hb2.
  - cbn [bn_carry]. pose proof (books_deliver _ _ _ _ _ now Hb) as Hb1. destruct (split_due _ _ _) as [due keep]. by apply IH.
Qed.

(** C36 — refinement.  The bottleneck is a FIFO server with a finite buffer.  Any
    history of enqueues and flushes that its counters have room for runs, and
    agrees with the reference server: a frame is refused exactly when the octets
    still to be sent leave no room for it, and otherwise leaves after those before
    it, unchanged but for a CE mark, which only an ECN-capable frame that
    waited past the threshold gets and then always gets.  In each direction the
    frames delivered and in flight are the accepted ones in the order they were
    offered, none missing.  The statistics are exact, and no accepted frame ever
    waited longer than the buffer takes to drain. *)
Theorem bottleneck_is_a_fifo_server c es :
  config_ok c -> fits c (LinkFacts.sends es) ->
  exists self out vs, bn_carry es (new c) [] = Some (self, out) /\
    serves c (both ZERO) (LinkFacts.sends es) vs (next_free self) /\
    forall i, passage i out (inflight self) = filter (fun f => side f = i) (carried vs) /\
      stats self i = mkStats (zmax (waits i vs)) (zsum (waits i vs) / zlen (waits i vs)) (zlen (waits i vs)) (refusals i vs) (marks i vs) /\
      st_max_queue_us (stats self i) * rate c < (buffer_bytes c + 1) * 1000000 /\
      st_mean_queue_us (stats self i) <= st_max_queue_us (stats self i).
Proof.
  intros Hc [Hr Hd].
  destruct (bn_carry_books c [] [] [] es (new c) Hc Hr Hd (books_new c Hc)) as (self & out & vs & E & [_ Hs _ Hf _ _ Hw Hsum Hmax Hdel Hdrop Hmark]).
  cbn [app] in *. exists self, out, vs. split; [done|]. split; [done|]. intros i. split; [apply Hf|].
  unfold stats. rewrite Hsum, Hmax, Hdel, Hdrop, Hmark.
  assert (Hmean : (if 0 <? zlen (waits i vs) then zsum (waits i vs) / zlen (waits i vs) else 0) = zsum (waits i vs) / zlen (waits i vs)).
  { pose proof (zlen_nonneg (waits i vs)). destruct (0 <? _) eqn:?; [done|]. replace (zlen (waits i vs)) with 0 by lia. by rewrite Z.div_0_r. }
  rewrite Hmean. split; [done|]. cbn [st_max_queue_us st_mean_queue_us].
  assert (1 <= rate c) by (unfold rate; lia). pose proof (co_buffer _ Hc).
  split.
  - pose proof (Hw i) as Hwi. clear -Hwi H H0. induction Hwi as [|q l Hq Hl IH]; cbn; [lia|]. fold (zmax l).
    destruct (Z.max_spec q (zmax l)) as [[_ ->]|[_ ->]]; lia.
  - pose proof (zsum_le_zmax (waits i vs)) as Hle. pose proof (zlen_nonneg (waits i vs)).
    destruct (Z.eq_dec (zlen (waits i vs)) 0) as [->|]; [rewrite Z.div_0_r; apply zmax_nonneg|].
    apply Z.div_le_upper_bound; lia.
Qed.
End BnFacts.

(** ** The dual queue *)

Module DqFacts.
Import Dq.

(** One frame served: its class, how long it waited, whether it was marked, and
    the frame sent on. *)
Record Service := mkService { sv_l4s : bool; sv_in : DqQueued; sv_wait : Z; sv_ce : bool; sv_out : DqFlight }.

Definition rate (c : DualQueue) : Z := Z.max (dq_rate_bytes_per_sec c) 1.

(** The reference scheduler: from a turn and a link free at [free], serve the two
    queues in order, alternating while both are backlogged, each frame from when
    the link is free and the frame there. *)
Inductive serves (c : DualQueue) : bool -> Instant -> list DqQueued -> list DqQueued -> list Service ->
    bool -> Instant -> list DqQueued -> list DqQueued -> Prop :=
| serves_done turn free l k : serves c turn free l k [] turn free l k
| serves_one turn free l4s classic v rest turn' free' l' k' l k f start depart o :
    (if sv_l4s v then l4s = f :: l /\ classic = k /\ (classic = [] \/ turn = true)
     else classic = f :: k /\ l4s = l /\ (l4s = [] \/ turn = false)) ->
    sv_in v = f -> start = Z.max free (arrival f) -> sv_wait v = start - arrival f ->
    depart = plus_micros start (sat_mul64 (len f) 1000000 / rate c) ->
    remarked (sv_l4s v && (l4s_threshold_us c <? sv_wait v)) (sv_ce v) (q_frame f) (fl_frame (sv_out v)) ->
    sv_out v = mkFlight (plus_micros depart (dq_base_delay_us c)) (flow f) ToServer o (fl_frame (sv_out v)) ->
    serves c (negb (sv_l4s v)) depart l k rest turn' free' l' k' ->
    serves c turn free l4s classic (v :: rest) turn' free' l' k'.

(** Each class leaves in the order it was queued. *)
Lemma serves_fifo c turn free l k vs turn' free' l' k' :
  serves c turn free l k vs turn' free' l' k' ->
  l = map sv_in (filter (fun v => sv_l4s v = true) vs) ++ l' /\ k = map sv_in (filter (fun v => sv_l4s v = false) vs) ++ k'.
Proof.
  induction 1 as [|turn free l4s classic v rest turn' free' l' k' l k f start depart o Hc Hf _ _ _ _ _ _ [IHl IHk]]; [done|].
  rewrite !filter_cons. destruct (sv_l4s v); cbn [decide].
  - destruct Hc as (-> & -> & _). rewrite decide_True, decide_False by done. cbn [map app]. rewrite Hf. split; [by f_equal|done].
  - destruct Hc as (-> & -> & _). rewrite decide_False, decide_True by done. cbn [map app]. rewrite Hf. split; [done|by f_equal].
Qed.

(** A class that stays backlogged is served at least every other time. *)
Definition served (b : bool) (vs : list Service) : Z := zlen (filter (fun v => sv_l4s v = b) vs).
Lemma serves_fair c turn free l k vs turn' free' l' k' :
  serves c turn free l k vs turn' free' l' k' ->
  (k' <> [] -> served true vs <= served false vs + Z.b2z turn) /\
  (l' <> [] -> served false vs <= served true vs + Z.b2z (negb turn)).
Proof.
  induction 1 as [turn free l k|turn free l4s classic v rest turn' free' l' k' l k f start depart o Hc Hf _ _ _ _ _ Hs [IHl IHk]].
  - unfold served. cbn. split; intros; destruct turn; cbn; lia.
  - apply serves_fifo in Hs as [El Ek]. unfold served in *. rewrite !filter_cons. destruct (sv_l4s v).
    + destruct Hc as (-> & -> & Ht). rewrite decide_True, decide_False, zlen_cons by done. cbn [negb Z.b2z] in *.
      split; intros Hn.
      * specialize (IHl Hn). destruct Ht as [->| ->]; [|cbn; lia]. symmetry in Ek. by apply app_nil in Ek as [_ ?].
      * specialize (IHk Hn). destruct turn; cbn; lia.
    + destruct Hc as (-> & -> & Ht). rewrite decide_False, decide_True, zlen_cons by done. cbn [negb Z.b2z] in *.
      split; intros Hn.
      * specialize (IHl Hn). destruct turn; cbn; lia.
      * specialize (IHk Hn). destruct Ht as [->| ->]; [|cbn; lia]. symmetry in El. by apply app_nil in El as [_ ?].
Qed.

Section inv.
Context (c : DualQueue) (T N : Z).

Record config_ok : Prop := {
  co_rate : 0 <= dq_rate_bytes_per_sec c;
  co_delay : 0 <= dq_base_delay_us c;
  co_time : 0 <= T;
  co_frames : 1 <= N;
  (** the clock and the counters have room for [N] frames by time [T] *)
  co_room : N * (T + N * (U16_MAX * 1000000)) <= U64_MAX;
  co_buffers : 0 <= l4s_buffer_bytes c <= U64_MAX - U16_MAX /\ 0 <= classic_buffer_bytes c <= U64_MAX - U16_MAX;
}.
Definition serialize_max : Z := U16_MAX * 1000000.

Definition queued_ok (b : bool) (f : DqQueued) : Prop :=
  0 <= arrival f <= T /\ len f = zlen (q_frame f) /\ BnFacts.datagram (q_frame f) /\ frame_is_ect (q_frame f) = Some b.

(** [n] frames have been handed to the link. *)
Record dq_ok (n : Z) (self : DualQueueLink) : Prop := {
  dk_cfg : cfg self = c;
  dk_l4s : Forall (queued_ok true) (l4s self);
  dk_classic : Forall (queued_ok false) (classic self);
  dk_l4s_bytes : l4s_bytes self = zsum (map len (l4s self)) /\ l4s_bytes self <= l4s_buffer_bytes c;
  dk_classic_bytes : classic_bytes self = zsum (map len (classic self)) /\ classic_bytes self <= classic_buffer_bytes c;
  dk_free : 0 <= link_free_at self <= T + order self * serialize_max;
  dk_order : 0 <= order self /\ order self + zlen (l4s self) + zlen (classic self) <= n;
  dk_sum i : 0 <= of_flow (sum_queue_us self) i <= order self * (T + N * serialize_max);
  dk_counts i : of_flow (delivered self) i <= order self /\ of_flow (marked self) i <= order self /\ of_flow (dropped self) i <= n;
}.

Lemma of_set_same {A} (a : Two A) i x : of_flow (set_flow a i x) i = x.
Proof. apply slot_set_same. Qed.
Lemma of_set_other {A} (a : Two A) i j x : i <> j -> of_flow (set_flow a i x) j = of_flow a j.
Proof. intros Hn. apply slot_set_other. by destruct i, j. Qed.
Lemma of_set_le (a : Two Z) i j x m : of_flow a j <= m -> x <= m -> of_flow (set_flow a i x) j <= m.
Proof. intros. destruct (decide (i = j)) as [->|Hn]; [by rewrite of_set_same|by rewrite of_set_other]. Qed.

Lemma dq_new_ok : config_ok -> dq_ok 0 (new c).
Proof.
  intros [? ? ? ? ? [? ?]]. split; try done; cbn; try (split; [done|lia]); try lia; try (intros []; cbn; lia). unfold ZERO. lia.
Qed.

Lemma ect_is f : exists b, frame_is_ect f = Some b.
Proof. apply ect_total. Qed.

Lemma dq_enqueue_data n self now i f : config_ok -> n < N -> dq_ok n self -> 0 <= now <= T -> BnFacts.datagram f ->
  exists self', enqueue_data self now i f = Some self' /\ dq_ok (n + 1) self'.
Proof.
  intros Hc Hn Hok Hnow Hf. pose proof Hc as [Hr Hd HT HN Hroom [Hb1 Hb2]]. destruct Hok as [Ec Hl Hk [El Hlb] [Ek Hkb] Hfr Ho Hs Hcn].
  pose proof (zlen_nonneg f). destruct Hf as [Hf Hlen].
  assert (HNU : N <= U64_MAX) by nia.
  unfold enqueue_data. destruct (ect_total f) as [b Eb]. rewrite Eb, Ec. destruct b; rewrite chk64_Some by lia; destruct (_ <? _) eqn:Efull.
  1,3: destruct (Hcn i) as (_ & _ & Hdr); rewrite chk64_Some by lia; eexists; split; [reflexivity|];
    split; cbn; try done; try lia; intros j; destruct (Hcn j) as (? & ? & ?); split; [done|]; split; [done|]; apply of_set_le; lia.
  all: eexists; split; [reflexivity|]; split; cbn; try done; try lia.
  1,5: apply Forall_app; split; [done|]; repeat constructor; cbn; try done; lia.
  1,4: rewrite map_app; cbn [map]; rewrite zsum_snoc; cbn [len]; lia.
  1,3: rewrite BnFacts.zlen_snoc; lia.
  all: intros j; destruct (Hcn j) as (? & ? & ?); lia.
Qed.

Lemma dq_enqueue_ack n self now i f : config_ok -> n < N -> dq_ok n self ->
  exists self', enqueue_ack self now i f = Some self' /\ dq_ok (n + 1) self'.
Proof.
  intros Hc Hn Hok. pose proof Hc as [Hr Hd HT HN Hroom _]. destruct Hok as [Ec Hl Hk Hlb Hkb Hfr Ho Hs Hcn].
  pose proof (zlen_nonneg (l4s self)). pose proof (zlen_nonneg (classic self)).
  assert (HNU : N <= U64_MAX) by nia. assert (0 <= serialize_max) by (unfold serialize_max; lia).
  unfold enqueue_ack. rewrite chk64_Some by lia. eexists. split; [reflexivity|].
  split; cbn; try done; try lia.
  - intros j. specialize (Hs j). assert (0 <= N * serialize_max) by (apply Z.mul_nonneg_nonneg; lia). lia.
  - intros j. destruct (Hcn j) as (? & ? & ?). lia.
Qed.

Lemma dq_deliver n self keep : dq_ok n self -> dq_ok n (self <| flight := keep |>).
Proof. by intros []. Qed.

Lemma chosen n self : dq_ok n self ->
  match choose self with
  | None => l4s self = [] /\ classic self = []
  | Some b => exists f rest, take_head self b = Some
        (if b then self <| serve_l4s_next := false |> <| l4s_bytes := l4s_bytes self - len f |> <| l4s := rest |>
         else self <| serve_l4s_next := true |> <| classic_bytes := classic_bytes self - len f |> <| classic := rest |>, f) /\
      if b then l4s self = f :: rest /\ (classic self = [] \/ serve_l4s_next self = true)
      else classic self = f :: rest /\ (l4s self = [] \/ serve_l4s_next self = false)
  end.
Proof.
  intros [_ Hl Hk [El _] [Ek _] _ _ _ _].
  assert (Hsub : forall (b : bool) f rest, Forall (queued_ok b) (f :: rest) -> checked_sub (zsum (map len (f :: rest))) (len f) =
    Some (zsum (map len (f :: rest)) - len f)).
  { intros b f rest Hf. unfold checked_sub. assert (0 <= zsum (map len rest)).
    { apply Forall_cons_1 in Hf as [_ Hf]. clear -Hf. induction Hf as [|g l (_ & Hg & _) Hl IH]; [done|]. cbn. fold (zsum (map len l)).
      rewrite Hg. pose proof (zlen_nonneg (q_frame g)). lia. }
    cbn. fold (zsum (map len rest)). destruct (_ <=? _) eqn:E; [done|lia]. }
  unfold choose, take_head. destruct (l4s self) as [|f l] eqn:E1, (classic self) as [|g k] eqn:E2; [done|..].
  - exists g, k. rewrite Ek, (Hsub _ _ _ Hk). split; [done|]. split; [done|by left].
  - exists f, l. rewrite El, (Hsub _ _ _ Hl). split; [done|]. split; [done|by left].
  - destruct (serve_l4s_next self) eqn:Et.
    + exists f, l. rewrite El, (Hsub _ _ _ Hl). split; [done|]. split; [done|by right].
    + exists g, k. rewrite Ek, (Hsub _ _ _ Hk). split; [done|]. split; [done|by right].
Qed.

(** Serving the head of a class, whichever the scheduler chose. *)
Lemma transmit_spec n self b f : config_ok -> queued_ok b f -> cfg self = c ->
  0 <= link_free_at self <= T + order self * serialize_max -> 0 <= order self < n -> n <= N ->
  (forall i, 0 <= of_flow (sum_queue_us self) i <= order self * (T + N * serialize_max)) ->
  (forall i, of_flow (delivered self) i <= order self /\ of_flow (marked self) i <= order self /\ of_flow (dropped self) i <= n) ->
  exists self' v, transmit self b f = Some self' /\
    sv_l4s v = b /\ sv_in v = f /\ sv_wait v = Z.max (link_free_at self) (arrival f) - arrival f /\
    link_free_at self' = plus_micros (Z.max (link_free_at self) (arrival f)) (sat_mul64 (len f) 1000000 / rate c) /\
    remarked (b && (l4s_threshold_us c <? sv_wait v)) (sv_ce v) (q_frame f) (fl_frame (sv_out v)) /\
    sv_out v = mkFlight (plus_micros (link_free_at self') (dq_base_delay_us c)) (flow f) ToServer (order self) (fl_frame (sv_out v)) /\
    flight self' = flight self ++ [sv_out v] /\
    cfg self' = c /\ l4s self' = l4s self /\ classic self' = classic self /\ l4s_bytes self' = l4s_bytes self /\
    classic_bytes self' = classic_bytes self /\ serve_l4s_next self' = serve_l4s_next self /\ order self' = order self + 1 /\
    0 <= link_free_at self' <= T + order self' * serialize_max /\
    (forall i, 0 <= of_flow (sum_queue_us self') i <= order self' * (T + N * serialize_max)) /\
    (forall i, of_flow (delivered self') i <= order self' /\ of_flow (marked self') i <= order self' /\ of_flow (dropped self') i <= n).
Proof.
  intros Hc (Ha & El & [Hf Hlen] & _) Ec Hfr Ho Hn Hs Hcn. pose proof Hc as [Hr Hd HT HN Hroom _].
  pose proof (zlen_nonneg (q_frame f)). assert (HNU : N <= U64_MAX) by nia.
  assert (Hr1 : 1 <= rate c) by (unfold rate; lia).
  unfold transmit. rewrite Ec. fold (rate c).
  set (start := if arrival f <? link_free_at self then _ else _).
  assert (Est : start = Z.max (link_free_at self) (arrival f)) by (unfold start; destruct (_ <? _) eqn:?; lia). clearbody start.
  set (q := saturating_micros_since start (arrival f)).
  assert (Eq : q = start - arrival f) by (unfold q, saturating_micros_since, sat_sub; lia). clearbody q.
  assert (Hq : 0 <= q <= T + order self * serialize_max) by lia.
  assert (Hser : 0 <= sat_mul64 (len f) 1000000 / rate c <= serialize_max).
  { unfold sat_mul64, serialize_max. split; [apply Z.div_pos; lia|]. apply Z.div_le_upper_bound; [lia|]. rewrite El. nia. }
  destruct (Hcn (flow f)) as (Hdl & Hmk & Hdr). pose proof (Hs (flow f)) as Hsf.
  destruct (ce_mark_spec (b && (l4s_threshold_us c <? q)) (q_frame f) (of_flow (marked self) (flow f)) Hf ltac:(lia)) as (g & ce & -> & Hg).
  assert (Hsm : 0 <= serialize_max) by (unfold serialize_max; lia).
  assert (Hos : order self * serialize_max <= N * serialize_max) by nia.
  set (W := T + N * serialize_max) in *. assert (HW : 0 <= W /\ q <= W) by lia.
  assert (Hsum : of_flow (sum_queue_us self) (flow f) + q <= (order self + 1) * W) by lia.
  assert (Hbig : (order self + 1) * W <= N * W) by (apply Z.mul_le_mono_nonneg_r; lia).
  assert (Hroom' : N * W <= U64_MAX) by exact Hroom. clearbody W.
  rewrite (chk64_Some (_ + q)) by lia. rewrite !chk64_Some by lia.
  set (depart := plus_micros start _).
  eexists _, (mkService b f q ce (mkFlight (plus_micros depart (dq_base_delay_us c)) (flow f) ToServer (order self) g)).
  split; [reflexivity|]. cbn [sv_l4s sv_in sv_wait sv_ce sv_out fl_frame].
  split; [done|]. split; [done|]. split; [lia|]. split; [by rewrite <- Est|]. do 10 (split; [done|]).
  split; [|split].
  - cbn. unfold depart, plus_micros, sat_add64. lia.
  - intros i. cbn. destruct (decide (flow f = i)) as [<-|Hi]; [rewrite of_set_same; lia|].
    rewrite of_set_other by done. specialize (Hs i). lia.
  - intros i. cbn. destruct (Hcn i) as (? & ? & ?). split; [apply of_set_le; lia|]. split; [|lia].
    apply of_set_le; [lia|]. destruct ce; cbn; lia.
Qed.

Lemma service_loop_spec fuel n self now : config_ok -> n <= N -> dq_ok n self ->
  (length (l4s self) + length (classic self) < fuel)%nat ->
  exists self' vs, service_loop fuel self now = Some self' /\ dq_ok n self' /\
    serves c (serve_l4s_next self) (link_free_at self) (l4s self) (classic self) vs
      (serve_l4s_next self') (link_free_at self') (l4s self') (classic self') /\
    flight self' = flight self ++ map sv_out vs /\
    (now < link_free_at self' \/ l4s self' = [] /\ classic self' = []).
Proof.
  intros Hc Hn. revert self. induction fuel as [|fuel IH]; intros self Hok Hfuel; [lia|]. cbn [service_loop].
  destruct (link_free_at self <=? now) eqn:Enow.
  2: { exists self, []. split; [done|]. split; [done|]. split; [constructor|]. rewrite app_nil_r. split; [done|]. left. lia. }
  pose proof (chosen n self Hok) as Hch. destruct (choose self) as [b|].
  2: { exists self, []. split; [done|]. split; [done|]. split; [constructor|]. rewrite app_nil_r. split; [done|]. by right. }
  destruct Hch as (f & rest & -> & Hch). pose proof Hok as [Ec Hl Hk [El Hlb] [Ek Hkb] Hfr [Ho1 Ho2] Hs Hcn].
  pose proof (zlen_nonneg (l4s self)). pose proof (zlen_nonneg (classic self)). pose proof (zlen_nonneg rest).
  assert (Hqf : queued_ok b f /\ Forall (queued_ok b) rest).
  { destruct b; destruct Hch as [Eh _]; rewrite Eh in *; [by apply Forall_cons_1 in Hl|by apply Forall_cons_1 in Hk]. }
  destruct Hqf as [Hqf Hrest]. set (self1 := if b then _ else _).
  assert (E1 : cfg self1 = c /\ link_free_at self1 = link_free_at self /\ order self1 = order self /\ sum_queue_us self1 = sum_queue_us self /\
    delivered self1 = delivered self /\ marked self1 = marked self /\ dropped self1 = dropped self /\ flight self1 = flight self /\
    serve_l4s_next self1 = negb b) by (by destruct b).
  destruct E1 as (E1 & E2 & E3 & E4 & E5 & E6 & E7 & E8 & E9).
  assert (Hlo : order self < n).
  { destruct b; destruct Hch as [Eh _]; rewrite Eh, zlen_cons in Ho2; lia. }
  destruct (transmit_spec n self1 b f Hc Hqf E1) as (self2 & v & Et & V1 & V2 & V3 & V4 & V5 & V6 & V7 & F1 & F2 & F3 & F4 & F5 & F6 & F7 & F8 & F9 & F10);
    rewrite ?E2, ?E3, ?E4, ?E5, ?E6, ?E7; try done; try lia.
  rewrite Et.
  assert (Hlf : 0 <= len f) by (destruct Hqf as (_ & -> & _); apply zlen_nonneg).
  assert (Hok2 : dq_ok n self2 /\ (length (l4s self2) + length (classic self2) < fuel)%nat).
  { split; [split|]; rewrite ?F2, ?F3, ?F4, ?F5; try done; try (rewrite F7, E3); unfold self1.
    all: destruct b; destruct Hch as [Eh _]; cbn; rewrite ?Eh in *; try done; cbn in *; rewrite ?zlen_cons in *.
    all: try (fold (zsum (map len rest)) in *); lia. }
  destruct Hok2 as [Hok2 Hfuel2]. destruct (IH self2 Hok2 Hfuel2) as (self3 & vs & E & Hok3 & Hsv & Hfl & Hend).
  exists self3, (v :: vs). split; [done|]. split; [done|].
  split; [|split; [rewrite Hfl, V7, E8, <- app_assoc; done|done]].
  rewrite E2 in V3. rewrite E2 in V4. rewrite E3 in V6.
  eapply (serves_one c _ _ _ _ v vs _ _ _ _ (l4s self2) (classic self2) f); [|done|reflexivity|exact V3|exact V4|by rewrite V1|exact V6|].
  - rewrite V1, F2, F3. unfold self1. destruct b; cbn; destruct Hch as [-> Ht]; by split_and!.
  - rewrite V1, <- E9, <- F6. exact Hsv.
Qed.

Lemma dq_service n self now : config_ok -> n <= N -> dq_ok n self ->
  exists self' vs, service self now = Some self' /\ dq_ok n self' /\
    serves c (serve_l4s_next self) (link_free_at self) (l4s self) (classic self) vs
      (serve_l4s_next self') (link_free_at self') (l4s self') (classic self') /\
    flight self' = flight self ++ map sv_out vs /\
    (now < link_free_at self' \/ l4s self' = [] /\ classic self' = []).
Proof. intros Hc Hn Hok. apply (service_loop_spec _ n self now Hc Hn Hok). lia. Qed.

(** *** A history *)

Inductive Event :=
  | Data (now : Instant) (flow : Flow) (frame : list Z) | Ack (now : Instant) (flow : Flow) (frame : list Z)
  | Serve (now : Instant) | Deliver (now : Instant).
Definition step (e : Event) (self : DualQueueLink) : option DualQueueLink :=
  match e with
  | Data now i f => enqueue_data self now i f
  | Ack now i f => enqueue_ack self now i f
  | Serve now => service self now
  | Deliver now => Some (self <| flight := (split_due fl_deliver_at now (flight self)).2 |>)
  end.
Fixpoint steps (es : list Event) (self : DualQueueLink) : option DualQueueLink :=
  match es with [] => Some self | e :: es => let? self := step e self in steps es self end.
Definition offers (e : Event) : Z := match e with Data _ _ _ | Ack _ _ _ => 1 | _ => 0 end.
Definition in_time (e : Event) : Prop := match e with Data now _ f => 0 <= now <= T /\ BnFacts.datagram f | _ => True end.

Lemma steps_ok es n self : config_ok -> n + zsum (map offers es) <= N -> Forall in_time es -> 0 <= n -> dq_ok n self ->
  exists self', steps es self = Some self' /\ dq_ok (n + zsum (map offers es)) self'.
Proof.
  intros Hc. revert n self. induction es as [|e es IH]; intros n self Hn Ht H0 Hok.
  { exists self. cbn. by rewrite Z.add_0_r. }
  apply Forall_cons_1 in Ht as [He Ht]. cbn [map zsum foldr] in *. fold (zsum (map offers es)) in *.
  assert (0 <= zsum (map offers es)) by (clear; induction es as [|[] es IH]; cbn; try fold (zsum (map offers es)); cbn in *; lia).
  assert (Hs : exists self', step e self = Some self' /\ dq_ok (n + offers e) self').
  { destruct e as [now i f|now i f|now|now]; cbn [step offers] in *.
    - destruct He. apply dq_enqueue_data; try done. lia.
    - apply dq_enqueue_ack; try done. lia.
    - destruct (dq_service n self now Hc ltac:(lia) Hok) as (self' & vs & E & Hok' & _). exists self'. by rewrite Z.add_0_r.
    - eexists. split; [reflexivity|]. rewrite Z.add_0_r. by apply dq_deliver. }
  destruct Hs as (self1 & E & Hok1). cbn [steps]. rewrite E.
  destruct (IH (n + offers e) self1) as (self2 & E2 & Hok2); [lia|done|destruct e; cbn; lia|done|].
  exists self2. split; [done|]. by rewrite Z.add_assoc.
Qed.

(** C37 — invariant.  The dual queue keeps its books, ends every service and shares the
    link.  After any history the counters have room for, every frame queued is in
    the queue of its ECN class, each byte counter is the sum of its queue and
    within its buffer; nothing has panicked.  A service then ends, with the link
    busy past [now] or both queues empty; it serves each class in order, as the
    reference scheduler does, and marks an L4S frame exactly when it waited past
    the threshold, a classic one never; and a class that is still backlogged
    after it was served at least every other time. *)
Theorem dual_queue_shares_the_link es now :
  config_ok -> zsum (map offers es) <= N -> Forall in_time es ->
  exists self, steps es (new c) = Some self /\
    Forall (queued_ok true) (l4s self) /\ Forall (queued_ok false) (classic self) /\
    l4s_bytes self = zsum (map len (l4s self)) /\ l4s_bytes self <= l4s_buffer_bytes c /\
    classic_bytes self = zsum (map len (classic self)) /\ classic_bytes self <= classic_buffer_bytes c /\
    exists self' vs, service self now = Some self' /\
      (now < link_free_at self' \/ l4s self' = [] /\ classic self' = []) /\
      serves c (serve_l4s_next self) (link_free_at self) (l4s self) (classic self) vs
        (serve_l4s_next self') (link_free_at self') (l4s self') (classic self') /\
      flight self' = flight self ++ map sv_out vs /\
      l4s self = map sv_in (filter (fun v => sv_l4s v = true) vs) ++ l4s self' /\
      classic self = map sv_in (filter (fun v => sv_l4s v = false) vs) ++ classic self' /\
      (classic self' <> [] -> served true vs <= served false vs + 1) /\
      (l4s self' <> [] -> served false vs <= served true vs + 1).
Proof.
  intros Hc Hn Ht. destruct (steps_ok es 0 (new c) Hc Hn Ht ltac:(done) (dq_new_ok Hc)) as (self & E & Hok).
  exists self. split; [done|]. pose proof Hok as [_ Hl Hk [El Hlb] [Ek Hkb] _ _ _ _]. do 6 (split; [done|]).
  destruct (dq_service (0 + zsum (map offers es)) self now Hc ltac:(lia) Hok) as (self' & vs & Es & _ & Hsv & Hfl & Hend).
  exists self', vs. do 4 (split; [done|]).
  destruct (serves_fifo _ _ _ _ _ _ _ _ _ _ Hsv) as [El' Ek']. destruct (serves_fair _ _ _ _ _ _ _ _ _ _ Hsv) as [Fl Fk].
  do 2 (split; [done|]). split; intros Hne.
  - specialize (Fl Hne). destruct (serve_l4s_next self); cbn in Fl; lia.
  - specialize (Fk Hne). destruct (serve_l4s_next self); cbn in Fk; lia.
Qed.
End inv.
End DqFacts.

(** ** Witnesses *)

Definition ect_frame : list Z := 69 :: 2 :: zrepeat 0 58.
Definition classic_frame : list Z := 69 :: 0 :: zrepeat 0 58.
Lemma demo_frames : BnFacts.datagram ect_frame /\ BnFacts.datagram classic_frame.
Proof. repeat split; try (vm_compute; discriminate); repeat (constructor; [unfold is_u8; lia|]); constructor. Qed.

Definition demo_bottleneck : Bottleneck := mkBottleneck 1000000 200 1000 (CeMark 50).
Definition demo_burst : list LinkFacts.Event :=
  replicate 5 (LinkFacts.Enqueue 7 ToServer ect_frame) ++ [LinkFacts.Deliver 1100; LinkFacts.Enqueue 1100 ToServer classic_frame].

Lemma bottleneck_is_a_fifo_server_witness : exists self out vs,
  BnFacts.bn_carry demo_burst (Bn.new demo_bottleneck) [] = Some (self, out) /\
  BnFacts.serves demo_bottleneck (both ZERO) (LinkFacts.sends demo_burst) vs (Bn.next_free self) /\
  BnFacts.passage ToServer out (Bn.inflight self) = filter (fun f => side f = ToServer) (BnFacts.carried vs) /\
  0 < st_dropped (Bn.stats self ToServer) /\ 0 < st_marked (Bn.stats self ToServer).
Proof.
  destruct (BnFacts.bottleneck_is_a_fifo_server demo_bottleneck demo_burst) as (self & out & vs & E & Hs & H).
  - split; cbn; try lia. vm_compute. by split.
  - split; [vm_compute; discriminate|]. destruct demo_frames. repeat constructor; cbn; unfold is_u64; try done; lia.
  - exists self, out, vs. split; [exact E|]. split; [exact Hs|]. split; [apply (H ToServer)|].
    assert (Hc : match BnFacts.bn_carry demo_burst (Bn.new demo_bottleneck) [] with
                 | Some (self, _) => (0 <? st_dropped (Bn.stats self ToServer)) && (0 <? st_marked (Bn.stats self ToServer))
                 | None => true end = true) by (vm_compute; reflexivity).
    rewrite E in Hc. lia.
Defined.

Definition demo_dualqueue : DualQueue := mkDualQueue 1000000 1000 20 1000 1000.
Definition demo_mix : list DqFacts.Event :=
  [DqFacts.Data 5 Flow0 ect_frame; DqFacts.Data 5 Flow1 classic_frame; DqFacts.Serve 5; DqFacts.Data 6 Flow0 ect_frame;
   DqFacts.Data 6 Flow1 classic_frame; DqFacts.Data 6 Flow0 ect_frame; DqFacts.Ack 6 Flow1 classic_frame; DqFacts.Deliver 9].

Lemma dual_queue_shares_the_link_witness : exists self self' vs,
  DqFacts.steps demo_mix (Dq.new demo_dualqueue) = Some self /\ Dq.service self 300 = Some self' /\
  Dq.l4s self = map DqFacts.sv_in (filter (fun v => DqFacts.sv_l4s v = true) vs) ++ Dq.l4s self' /\
  0 < of_flow (Dq.marked self') Flow0 /\ 0 < of_flow (Dq.delivered self') Flow1.
Proof.
  destruct (DqFacts.dual_queue_shares_the_link demo_dualqueue 1000000 1000 demo_mix 300)
    as (self & E & _ & _ & _ & _ & _ & _ & self' & vs & Es & _ & _ & _ & Hl & _).
  - split; vm_compute; try discriminate. repeat split; discriminate.
  - vm_compute. discriminate.
  - destruct demo_frames. repeat constructor; cbn; try done; lia.
  - exists self, self', vs. split; [exact E|]. split; [exact Es|]. split; [exact Hl|].
    assert (Hc : match DqFacts.steps demo_mix (Dq.new demo_dualqueue) with
                 | Some self => match Dq.service self 300 with
                                | Some self' => (0 <? of_flow (Dq.marked self') Flow0) && (0 <? of_flow (Dq.delivered self') Flow1)
                                | None => true end
                 | None => true end = true) by (vm_compute; reflexivity).
    rewrite E, Es in Hc. lia.
Defined.
