(* ===== verification/SimCov.v ===== *)
(** The simulator's coverage map, its wire observer, and the scenarios the fuzzer
    makes: [tcp-core/src/sim.rs]. *)

From stdpp Require Import list.
From S2P Require Import Prelude Seq Time Ipv4 TcpWire Congestion SimLink SimLinkProps.

(** ** Scenarios and outcomes *)

Record Scenario := mkScenario { seed : Z; link : LinkConfig; bytes : Z; cc : CcKind }.
#[export] Instance Scenario_settable : Settable Scenario := fun s => mkScenario (seed s) (link s) (bytes s) (cc s).

Inductive Outcome :=
  | Completed (steps sim_time_us dropped duplicated corrupted : Z)
  | IntegrityViolation (received : Z)
  | Stuck (steps received : Z)
  | Timeout (steps received : Z).
Definition is_completed (self : Outcome) : bool := match self with Completed _ _ _ _ _ => true | _ => false end.

(** ** [Coverage] *)

Definition COV_BITS : Z := 2048.
Definition COV_WORDS : Z := COV_BITS / 64.
Definition CC_ALL : list CcKind := [CcReno; CcCubic; CcBbr; CcDctcp].

Definition Coverage : Type := list Z.

(** [u64::count_ones] *)
Definition count_ones (w : Z) : Z := foldr (fun i s => Z.b2z (Z.testbit w i) + s) 0 (seqZ 0 64).
(** [!w] on a [u64] *)
Definition not64 (w : Z) : Z := Z.lxor w U64_MAX.

Module Coverage.
Definition new : Coverage := zrepeat 0 COV_WORDS.
Definition set (self : Coverage) (bucket : Z) : option Coverage :=
  let b := Z.land bucket (COV_BITS - 1) in
  let? w := at_ self (Z.shiftr b 6) in
  store self (Z.shiftr b 6) (Z.lor w (Z.shiftl 1 (Z.land b 63))).
Definition count (self : Coverage) : Z := foldr (fun w s => count_ones w + s) 0 self.
Fixpoint merge (self other : Coverage) : Coverage * Z :=
  match self, other with
  | a :: self, b :: other =>
      let '(rest, n) := merge self other in (Z.lor a b :: rest, count_ones (Z.land b (not64 a)) + n)
  | _, _ => (self, 0)
  end.
Fixpoint extra_over (self other : Coverage) : Z :=
  match self, other with
  | a :: self, b :: other => count_ones (Z.land a (not64 b)) + extra_over self other
  | _, _ => 0
  end.
End Coverage.

Definition cov_loc (id : Z) : Z := Z.land (wrap64 (id * 2654435761)) (COV_BITS - 1).
(** [64 - n.leading_zeros()] *)
Definition log_bucket (n : Z) : Z := if n =? 0 then 0 else Z.log2 n + 1.
Definition rotate_left1 (x : Z) : Z := Z.lor (wrap64 (Z.shiftl x 1)) (Z.shiftr x 63).

(** ** [CovCollector] *)

Record CovCollector := mkCollector {
  cov : Coverage; prev : Two Z; prev2 : Two Z; last_ack : Two (option SeqNumber); dup_run : Two Z;
  hi_seq_end : Two (option SeqNumber); rtx_streak : Two Z }.
#[export] Instance CovCollector_settable : Settable CovCollector := fun s =>
  mkCollector (cov s) (prev s) (prev2 s) (last_ack s) (dup_run s) (hi_seq_end s) (rtx_streak s).

(** The event class of a frame. *)
Definition event_class (f window sack_n payload_len : Z) (is_rtx is_dup_ack : bool) : Z :=
  if TcpFlags.rst f then 0
  else if TcpFlags.syn f && TcpFlags.ack f then 1
  else if TcpFlags.syn f then 2
  else if TcpFlags.fin f then 3
  else if 0 <? payload_len then (if is_rtx then 4 else if TcpFlags.psh f then 5 else 6)
  else if window =? 0 then 7
  else if 0 <? sack_n then 8
  else if is_dup_ack then 9
  else 10.

Definition FEAT : Z := 1600.
Definition BASE : Z := 1700.

Module CovCollector.
Definition new : CovCollector :=
  mkCollector Coverage.new (both 0) (both 0) (both None) (both 0) (both None) (both 0).

(** The buckets that stand alone, in the code's order. *)
Definition features (i : Z) (f window sack_n payload_len rtx dup : Z) (has_ts has_ws ect : bool) : list Z :=
  (if 0 <? sack_n then [FEAT + sack_n] else []) ++
  (if window =? 0 then [FEAT + 8] else []) ++
  (if TcpFlags.ece f then [FEAT + 9 + i] else []) ++
  (if has_ts then [FEAT + 12] else []) ++
  (if has_ws then [FEAT + 13] else []) ++
  (if ect then [FEAT + 14] else []) ++
  [FEAT + 16 + log_bucket rtx; FEAT + 30 + log_bucket dup] ++
  (if 0 <? payload_len then [FEAT + 44 + log_bucket payload_len] else []).

Fixpoint set_all (c : Coverage) (buckets : list Z) : option Coverage :=
  match buckets with
  | [] => Some c
  | b :: buckets => let? c := Coverage.set c b in set_all c buckets
  end.

Definition observe (self : CovCollector) (side : Side) (frame : list Z) : option CovCollector :=
  let i := match side with ToClient => 0 | ToServer => 1 end in
  let? ip := Ipv4.new_checked frame in
  match ip with
  | Err _ => Some self
  | Ok ip =>
      let? body := Ipv4.payload ip in
      let? tcp := new_checked body in
      match tcp with
      | Err _ => Some self
      | Ok tcp =>
          let? f := flags tcp in
          let? body := payload tcp in
          let payload_len := zlen body in
          let? s := seq tcp in
          let? a := ack tcp in
          let? w := window tcp in
          let? (_, sack_n) := sack_blocks tcp (zrepeat (0, 0) MAX_SACK_BLOCKS) in
          let is_rtx := (0 <? payload_len) && match slot (hi_seq_end self) side with Some hi => seq_lt s hi | None => false end in
          let pure := (payload_len =? 0) && negb (TcpFlags.syn f) && negb (TcpFlags.fin f) in
          let is_dup_ack := pure && bool_decide (slot (last_ack self) side = Some a) in
          let ev := event_class f w sack_n payload_len is_rtx is_dup_ack in
          let rtx := slot (rtx_streak self) side in
          let rtx := if is_rtx then sat_add32 rtx 1 else if 0 <? payload_len then 0 else rtx in
          let dup := slot (dup_run self) side in
          let dup := if is_dup_ack then sat_add32 dup 1 else if pure then 0 else dup in
          let depth := Z.lor (Z.shiftl (log_bucket rtx) 3) (log_bucket dup) in
          let cur := cov_loc (Z.lor (Z.lor ev (Z.shiftl depth 5)) (Z.shiftl i 12)) in
          let? c := Coverage.set (cov self)
            (Z.lxor (Z.lxor (rotate_left1 (slot (prev2 self) side)) (slot (prev self) side)) cur) in
          let? ts := timestamps tcp in
          let? ws := window_scale tcp in
          let? e := Ipv4.ecn ip in
          let? c := set_all c (features i f w sack_n payload_len rtx dup (is_some ts) (is_some ws)
                                ((e =? ECN_ECT0) || (e =? ECN_ECT1))) in
          let hi := slot (hi_seq_end self) side in
          let hi' := if 0 <? payload_len then
                       let seg_end := seq_add s (wrap32 payload_len) in
                       if match hi with Some hi => seq_lt hi seg_end | None => true end then Some seg_end else hi
                     else hi in
          Some (self <| cov := c |> <| prev2 := set_slot (prev2 self) side (slot (prev self) side) |>
                     <| prev := set_slot (prev self) side (Z.shiftr cur 1) |>
                     <| rtx_streak := set_slot (rtx_streak self) side rtx |>
                     <| dup_run := set_slot (dup_run self) side dup |>
                     <| last_ack := set_slot (last_ack self) side (if pure then Some a else slot (last_ack self) side) |>
                     <| hi_seq_end := set_slot (hi_seq_end self) side hi' |>)
      end
  end.

Definition outcome_buckets (outcome : Outcome) : list Z :=
  match outcome with
  | Completed steps sim_time_us dropped duplicated corrupted =>
      [BASE; BASE + 10 + log_bucket dropped; BASE + 30 + log_bucket duplicated; BASE + 50 + log_bucket corrupted;
       BASE + 70 + log_bucket steps; BASE + 90 + log_bucket (sim_time_us / 1000)]
  | IntegrityViolation _ => [BASE + 1]
  | Stuck _ _ => [BASE + 2]
  | Timeout _ _ => [BASE + 3]
  end.
Definition finish (self : CovCollector) (outcome : Outcome) : option Coverage := set_all (cov self) (outcome_buckets outcome).
End CovCollector.

(** ** The fuzzer *)

(** One of the 1 to 3 perturbations. *)
Definition perturb (rng : Rng.Rng) (s : Scenario) : option (Rng.Rng * Scenario) :=
  let '(rng, k) := Rng.below rng 6 in
  if k =? 0 then let '(rng, b) := Rng.below rng 64 in Some (rng, s <| seed := Z.lxor (seed s) (Z.shiftl 1 b) |>)
  else if k =? 1 then let '(rng, v) := Rng.below rng 120001 in Some (rng, s <| link := (link s) <| loss_ppm := v |> |>)
  else if k =? 2 then let '(rng, v) := Rng.below rng 80001 in Some (rng, s <| link := (link s) <| dup_ppm := v |> |>)
  else if k =? 3 then let '(rng, v) := Rng.below rng 20001 in Some (rng, s <| link := (link s) <| corrupt_ppm := v |> |>)
  else if k =? 4 then let '(rng, v) := Rng.below rng 6001 in Some (rng, s <| link := (link s) <| jitter_us := v |> |>)
  else if k =? 5 then let '(rng, v) := Rng.below rng 4 in let? k := at_ CC_ALL v in Some (rng, s <| cc := k |>)
  else None.
Fixpoint perturbs (n : nat) (rng : Rng.Rng) (s : Scenario) : option (Rng.Rng * Scenario) :=
  match n with
  | O => Some (rng, s)
  | S n => let? (rng, s) := perturb rng s in perturbs n rng s
  end.

Definition fuzz_mutate (rng : Rng.Rng) (s : Scenario) : option (Rng.Rng * Scenario) :=
  let '(rng, k) := Rng.below rng 3 in
  let? (rng, s) := perturbs (Z.to_nat (1 + k)) rng s in
  let '(rng, coin) := Rng.below rng 2 in
  let '(rng, s) := if coin =? 0 then let '(rng, b) := Rng.below rng 23001 in (rng, s <| bytes := 1000 + b |>) else (rng, s) in
  Some (rng, s <| link := (link s) <| min_delay_us := Z.max (min_delay_us (link s)) 1000 |> |>).

Definition fuzz_random_scenario (rng : Rng.Rng) : option (Rng.Rng * Scenario) :=
  let '(rng, sd) := Rng.next_u64 rng in
  let '(rng, loss) := Rng.below rng 120001 in
  let '(rng, dup) := Rng.below rng 80001 in
  let '(rng, corrupt) := Rng.below rng 20001 in
  let '(rng, jitter) := Rng.below rng 6001 in
  let '(rng, b) := Rng.below rng 23001 in
  let '(rng, k) := Rng.below rng 4 in
  let? k := at_ CC_ALL k in
  Some (rng, mkScenario sd (mkLinkConfig loss dup corrupt 5000 jitter) (1000 + b) k).

Definition fuzz_base : option Scenario := let? l := lossy 5 in Some (mkScenario 1 l 8000 CcReno).

Record FuzzReport := mkReport {
  iterations : Z; corpus_size : Z; edges : Z; findings : list Scenario; coverage : Coverage }.

Section fuzz.
(** [run_with_coverage] *)
Context (run_with_coverage : Scenario -> option (Outcome * Coverage)).

(** The corpus, the union coverage, the findings. *)
Record Campaign := mkCampaign { c_rng : Rng.Rng; global : Coverage; corpus : list Scenario; c_findings : list Scenario }.

Definition fuzz_step (self : Campaign) : option Campaign :=
  let? (rng, scn) :=
    match corpus self with
    | [] => let? scn := fuzz_base in Some (c_rng self, scn)
    | _ => let '(rng, idx) := Rng.below (c_rng self) (zlen (corpus self)) in
           let? m := at_ (corpus self) idx in fuzz_mutate rng m
    end in
  let? (o, c) := run_with_coverage scn in
  let '(g, new) := Coverage.merge (global self) c in
  Some (mkCampaign rng g (if 0 <? new then corpus self ++ [scn] else corpus self)
          (if negb (is_completed o) then c_findings self ++ [scn] else c_findings self)).
Fixpoint fuzz_loop (n : nat) (self : Campaign) : option Campaign :=
  match n with O => Some self | S n => let? self := fuzz_step self in fuzz_loop n self end.
Definition fuzz (fuzz_seed iterations : Z) : option FuzzReport :=
  let? c := fuzz_loop (Z.to_nat iterations) (mkCampaign (Rng.new (Z.lxor fuzz_seed 0xF1F2F3F4F5F6F7F8)) Coverage.new [] []) in
  Some (mkReport iterations (zlen (corpus c)) (Coverage.count (global c)) (c_findings c) (global c)).

Definition baseline_step (self : Campaign) : option Campaign :=
  let? (rng, scn) := fuzz_random_scenario (c_rng self) in
  let? (o, c) := run_with_coverage scn in
  let '(g, _) := Coverage.merge (global self) c in
  Some (mkCampaign rng g [] (if negb (is_completed o) then c_findings self ++ [scn] else c_findings self)).
Fixpoint baseline_loop (n : nat) (self : Campaign) : option Campaign :=
  match n with O => Some self | S n => let? self := baseline_step self in baseline_loop n self end.
Definition fuzz_random_baseline (fuzz_seed iterations : Z) : option FuzzReport :=
  let? c := baseline_loop (Z.to_nat iterations) (mkCampaign (Rng.new (Z.lxor fuzz_seed 0x0102030405060708)) Coverage.new [] []) in
  Some (mkReport iterations 0 (Coverage.count (global c)) (c_findings c) (global c)).
End fuzz.
