(* ===== verification/SimCovProps.v ===== *)
(** The coverage map counts what it is told, the observer never panics, and the
    fuzzer keeps exactly the scenarios that reach further, all of them survivable. *)

From stdpp Require Import list.
From S2P Require Import Prelude Seq Time Ipv4 TcpWire Congestion SimLink SimLinkProps SimQueueProps SimCov.

#[local] Arguments Z.testbit : simpl never.
#[local] Arguments not64 : simpl never.

(** ** Bits *)

Lemma not64_bit w i : 0 <= i < 64 -> Z.testbit (not64 w) i = negb (Z.testbit w i).
Proof.
  intros Hi. unfold not64. rewrite Z.lxor_spec. change U64_MAX with (Z.ones 64).
  rewrite Z.ones_spec_low by lia. by rewrite xorb_true_r.
Qed.

Lemma count_bits f g h :
  (forall i, 0 <= i < 64 -> Z.b2z (Z.testbit f i) = Z.b2z (Z.testbit g i) + Z.b2z (Z.testbit h i)) ->
  count_ones f = count_ones g + count_ones h.
Proof.
  intros H. unfold count_ones.
  assert (Hl : Forall (fun i => 0 <= i < 64) (seqZ 0 64)).
  { apply list.Forall_forall. intros i Hi%elem_of_seqZ. lia. }
  induction Hl as [|i l Hi Hl IH]; [done|]. cbn [foldr]. rewrite (H i Hi). lia.
Qed.

(** The novelty of [b] over [a] is what joining them adds. *)
Lemma count_lor a b : count_ones (Z.lor a b) = count_ones a + count_ones (Z.land b (not64 a)).
Proof.
  apply count_bits. intros i Hi. rewrite Z.lor_spec, Z.land_spec, not64_bit by done.
  by destruct (Z.testbit a i), (Z.testbit b i).
Qed.
Lemma count_range w : 0 <= count_ones w <= 64.
Proof.
  enough (H : forall l, 0 <= foldr (fun i s => Z.b2z (Z.testbit w i) + s) 0 l <= zlen l) by exact (H (seqZ 0 64)).
  intros l. induction l as [|i l IH]; [done|]. cbn [foldr]. rewrite zlen_cons. destruct (Z.testbit w i); cbn [Z.b2z]; lia.
Qed.

Definition cov_ok (c : Coverage) : Prop := zlen c = COV_WORDS.

Module CovFacts.
Import Coverage.

Lemma cov_new_ok : cov_ok new.
Proof. done. Qed.

(** Every bucket has a word: setting one never panics. *)
Lemma set_total c b : cov_ok c -> exists c', set c b = Some c' /\ cov_ok c'.
Proof.
  intros Hc. unfold set, cov_ok in *. change (COV_BITS - 1) with (Z.ones 11). rewrite Z.land_ones by lia.
  set (x := b mod 2 ^ 11). assert (Hx : 0 <= x < 2048) by (apply Z.mod_pos_bound; lia).
  rewrite Z.shiftr_div_pow2 by lia. change (2 ^ 6) with 64.
  assert (Hi : 0 <= x / 64 < zlen c).
  { rewrite Hc. change COV_WORDS with 32. split; [by apply Z.div_pos; lia|apply Z.div_lt_upper_bound; lia]. }
  destruct (at_is_Some c (x / 64) Hi) as [w ->]. unfold store.
  rewrite splice_Some by (change (zlen [?y]) with 1; lia). eexists. split; [reflexivity|].
  rewrite !zlen_app, zlen_ztake, zlen_zdrop. change (zlen [?y]) with 1. lia.
Qed.

Lemma set_all_total c bs : cov_ok c -> exists c', CovCollector.set_all c bs = Some c' /\ cov_ok c'.
Proof.
  revert c. induction bs as [|b bs IH]; intros c Hc; [by exists c|]. cbn.
  destruct (set_total c b Hc) as (c1 & -> & H1). by apply IH.
Qed.

Lemma merge_spec a b : length a = length b ->
  let '(m, n) := merge a b in length m = length a /\ count m = count a + n /\ n = extra_over b a /\ 0 <= n.
Proof.
  revert b. induction a as [|x a IH]; intros [|y b] H; try done. cbn. injection H as H. specialize (IH b H).
  destruct (merge a b) as [m n]. destruct IH as (Hl & Hc & Hn & H0). cbn. fold (count m) (count a).
  rewrite count_lor, Hc, Hl, <- Hn. pose proof (count_range (Z.land y (not64 x))). split; [done|]. split; [lia|]. split; [done|lia].
Qed.

Lemma count_le c : cov_ok c -> 0 <= count c <= COV_BITS.
Proof.
  intros Hc. assert (H : 0 <= count c <= 64 * zlen c); [|rewrite Hc in H; exact H].
  clear Hc. induction c as [|w c IH]; [done|]. cbn. fold (count c). rewrite zlen_cons. pose proof (count_range w). lia.
Qed.
End CovFacts.

(** [n]'s bucket is its bit length. *)
Lemma log_bucket_spec n : 0 <= n -> n < 2 ^ log_bucket n /\ (0 < n -> 2 ^ (log_bucket n - 1) <= n).
Proof.
  intros Hn. unfold log_bucket. destruct (n =? 0) eqn:E; [cbn; lia|].
  pose proof (Z.log2_spec n ltac:(lia)) as [H1 H2]. rewrite <- Z.add_1_r in H2.
  split; [done|]. intros _. by replace (Z.log2 n + 1 - 1) with (Z.log2 n) by lia.
Qed.

(** ** The observer *)

(** Whatever frame is on the wire, well formed or not, observing it returns. *)
Lemma observe_total self sd f : bytes_ok f -> cov_ok (cov self) ->
  exists self', CovCollector.observe self sd f = Some self' /\ cov_ok (cov self').
Proof.
  intros Hf Hc. unfold CovCollector.observe.
  destruct (Ipv4.accessors_core f) as (r & -> & Hr). destruct r as [ip|]; [|by exists self].
  destruct (Hr ip eq_refl) as (_ & _ & _ & _ & _ & [e Ee] & _ & _ & _ & _ & ihl & tot & body & _ & _ & -> & _).
  destruct (new_checked_cases body) as (r' & -> & Hc'). destruct r' as [tcp|]; [|by exists self].
  destruct Hc' as (Eb & off & Hv). pose proof Hv as [Ho Hrange Hl]. unfold TCP_MIN_HEADER_LEN, TCP_MAX_HEADER_LEN in *.
  assert (Hat : forall i, 0 <= i < 20 -> exists x, at_ (as_bytes tcp) i = Some x) by (intros i Hi; apply at_is_Some; lia).
  destruct (tlvs_of_exists _ (ztake (off - 20) (zdrop 20 (as_bytes tcp))) (Nat.le_refl _)) as [ts Hts].
  destruct (option_accessors_total tcp off ts (zrepeat (0, 0) 4) Hv Hts eq_refl) as (Hm & Ht & Hp & Hw & Hs).
  unfold flags, payload, seq, ack, window, u32_at. rewrite Ho, slice_Some by lia.
  destruct (Hat 13 ltac:(lia)) as [f13 ->], (Hat 4 ltac:(lia)) as [b4 ->], (Hat (4 + 1) ltac:(lia)) as [b5 ->],
    (Hat (4 + 2) ltac:(lia)) as [b6 ->], (Hat (4 + 3) ltac:(lia)) as [b7 ->], (Hat 8 ltac:(lia)) as [b8 ->],
    (Hat (8 + 1) ltac:(lia)) as [b9 ->], (Hat (8 + 2) ltac:(lia)) as [b10 ->], (Hat (8 + 3) ltac:(lia)) as [b11 ->],
    (Hat 14 ltac:(lia)) as [b14 ->], (Hat 15 ltac:(lia)) as [b15 ->].
  destruct Hs as (bs & n & Es & _). change MAX_SACK_BLOCKS with 4. rewrite Es.
  match goal with |- context [Coverage.set _ ?b] => destruct (CovFacts.set_total (cov self) b Hc) as (c1 & -> & H1) end.
  destruct Ht as [t ->], Hw as (ws & -> & _). rewrite Ee.
  match goal with |- context [CovCollector.set_all _ ?bs] => destruct (CovFacts.set_all_total c1 bs H1) as (c2 & -> & H2) end.
  eexists. split; [reflexivity|]. exact H2.
Qed.

(** ** The fuzzer *)

(** The envelope the mutator promises to stay in. *)
Record survivable (s : Scenario) : Prop := {
  su_loss : 0 <= loss_ppm (link s) <= 120000;
  su_dup : 0 <= dup_ppm (link s) <= 80000;
  su_corrupt : 0 <= corrupt_ppm (link s) <= 20000;
  su_jitter : 0 <= jitter_us (link s) <= 6000;
  su_delay : 1000 <= min_delay_us (link s) <= 5000;
  su_bytes : 1000 <= bytes s <= 24000;
  su_cc : cc s ∈ CC_ALL;
}.

Lemma base_survivable : exists s, fuzz_base = Some s /\ survivable s.
Proof. eexists. split; [reflexivity|]. split; cbn; try lia. unfold CC_ALL. left. Qed.

Ltac draw n := let H := fresh "Hd" in
  match goal with |- context [Rng.below ?r n] =>
    pose proof (RngFacts.below_range r n ltac:(lia)) as H; destruct (Rng.below r n) as [? ?]; cbn [fst snd] in H
  end.

Lemma cc_at i : 0 <= i < 4 -> exists k, at_ CC_ALL i = Some k /\ k ∈ CC_ALL.
Proof.
  intros Hi. destruct (at_is_Some CC_ALL i Hi) as [k Hk]. exists k. split; [done|]. rewrite at_lookup in Hk by lia.
  by eapply list_elem_of_lookup_2.
Qed.

Lemma perturb_ok rng s : survivable s -> exists rng' s', perturb rng s = Some (rng', s') /\ survivable s'.
Proof.
  intros [H1 H2 H3 H4 H5 H6 H7]. unfold perturb. draw 6.
  repeat match goal with |- context [if ?x =? ?y then _ else _] => destruct (x =? y) eqn:? end; try lia.
  6: { draw 4. destruct (cc_at z0 Hd0) as (k & -> & Hk). eexists _, _. split; [reflexivity|]. by split. }
  all: [> draw 64 | draw 120001 | draw 80001 | draw 20001 | draw 6001 ]; eexists _, _; (split; [reflexivity|]); split; cbn; try done; lia.
Qed.
Lemma perturbs_ok n rng s : survivable s -> exists rng' s', perturbs n rng s = Some (rng', s') /\ survivable s'.
Proof.
  revert rng s. induction n as [|n IH]; intros rng s Hs; [by exists rng, s|]. cbn [perturbs].
  destruct (perturb_ok rng s Hs) as (r1 & s1 & -> & H1). by apply IH.
Qed.
Lemma mutate_ok rng s : survivable s -> exists rng' s', fuzz_mutate rng s = Some (rng', s') /\ survivable s'.
Proof.
  intros Hs. unfold fuzz_mutate. draw 3. destruct (perturbs_ok (Z.to_nat (1 + z)) r s Hs) as (r1 & s1 & -> & H1).
  draw 2. destruct H1 as [H1 H2 H3 H4 H5 H6 H7]. destruct (_ =? 0).
  - draw 23001. eexists _, _. split; [reflexivity|]. split; cbn; try done; lia.
  - eexists _, _. split; [reflexivity|]. split; cbn; try done; lia.
Qed.
Lemma random_ok rng : exists rng' s', fuzz_random_scenario rng = Some (rng', s') /\ survivable s'.
Proof.
  unfold fuzz_random_scenario. destruct (Rng.next_u64 rng) as [r0 sd]. draw 120001. draw 80001. draw 20001. draw 6001. draw 23001. draw 4.
  match goal with |- context [at_ CC_ALL ?i] => destruct (cc_at i ltac:(lia)) as (k & -> & Hk) end.
  eexists _, _. split; [reflexivity|]. split; cbn; try done; lia.
Qed.

Section campaign.
Context (run : Scenario -> option (Outcome * Coverage)).
Context (run_ok : forall s, survivable s -> exists o c, run s = Some (o, c) /\ cov_ok c).

(** What a campaign has to show for the [n] scenarios it ran. *)
Record campaign_ok (n : Z) (self : Campaign) : Prop := {
  cp_global : cov_ok (global self);
  cp_corpus : Forall survivable (corpus self);
  cp_paid : zlen (corpus self) <= Coverage.count (global self);
  cp_length : zlen (corpus self) <= n;
  cp_findings : Forall (fun s => survivable s /\ exists o c, run s = Some (o, c) /\ is_completed o = false) (c_findings self);
  cp_found : zlen (c_findings self) <= n;
}.

(** Evaluating one survivable scenario and folding its coverage in. *)
Lemma fold_in n self rng scn kept : campaign_ok n self -> survivable scn ->
  (kept = corpus self \/ kept = []) ->
  exists o c, run scn = Some (o, c) /\ let '(g, new) := Coverage.merge (global self) c in
    0 <= new /\ campaign_ok (n + 1) (mkCampaign rng g (if 0 <? new then kept ++ [scn] else kept)
      (if negb (is_completed o) then c_findings self ++ [scn] else c_findings self)) /\
    campaign_ok (n + 1) (mkCampaign rng g [] (if negb (is_completed o) then c_findings self ++ [scn] else c_findings self)).
Proof.
  intros [Hg Hc Hp Hl Hf Hn] Hs Hk. destruct (run_ok scn Hs) as (o & c & E & Hcov). exists o, c. split; [done|].
  assert (Hlen : length (global self) = length c) by (unfold cov_ok, zlen in *; lia).
  pose proof (CovFacts.merge_spec (global self) c Hlen) as Hm. destruct (Coverage.merge (global self) c) as [g new].
  destruct Hm as (Hl' & Hcount & _ & H0). split; [done|].
  assert (Hg' : cov_ok g) by (unfold cov_ok, zlen in *; lia).
  assert (Hfind : Forall (fun s => survivable s /\ exists o c, run s = Some (o, c) /\ is_completed o = false)
      (if negb (is_completed o) then c_findings self ++ [scn] else c_findings self) /\
    zlen (if negb (is_completed o) then c_findings self ++ [scn] else c_findings self) <= n + 1).
  { destruct (is_completed o) eqn:Eo; cbn [negb]; [split; [done|lia]|]. rewrite BnFacts.zlen_snoc. split; [|lia].
    apply Forall_app. split; [done|]. constructor; [|constructor]. split; [done|]. by exists o, c. }
  pose proof (CovFacts.count_le g Hg') as [Hge _]. pose proof (zlen_nonneg (c_findings self)). pose proof (zlen_nonneg (corpus self)).
  assert (Hkept : Forall survivable kept /\ zlen kept <= zlen (corpus self)).
  { destruct Hk as [->| ->]; [split; [done|lia]|]. split; [apply List.Forall_nil|]. change (zlen (@nil Scenario)) with 0. lia. }
  destruct Hkept as [Hk1 Hk2]. destruct Hfind as [Hf1 Hf2].
  split; split; cbn [global corpus c_findings]; try done; try (change (zlen (@nil Scenario)) with 0; lia).
  - destruct (0 <? new); [|done]. apply Forall_app. split; [done|apply list.Forall_singleton, Hs].
  - destruct (0 <? new) eqn:En; [rewrite BnFacts.zlen_snoc|]; lia.
  - destruct (0 <? new) eqn:En; [rewrite BnFacts.zlen_snoc|]; lia.
Qed.

Lemma fuzz_step_ok n self : campaign_ok n self -> exists self', fuzz_step run self = Some self' /\ campaign_ok (n + 1) self'.
Proof.
  intros Hok. unfold fuzz_step.
  assert (Hpick : exists rng scn, match corpus self with
      | [] => let? scn := fuzz_base in Some (c_rng self, scn)
      | _ => let '(rng, idx) := Rng.below (c_rng self) (zlen (corpus self)) in
             let? m := at_ (corpus self) idx in fuzz_mutate rng m
      end = Some (rng, scn) /\ survivable scn).
  { pose proof (cp_corpus _ _ Hok) as Hc. destruct (corpus self) as [|s0 l] eqn:El.
    { destruct base_survivable as (s & -> & Hs). by exists (c_rng self), s. }
    assert (Hz : 0 < zlen (s0 :: l)) by (rewrite zlen_cons; pose proof (zlen_nonneg l); lia).
    draw (zlen (s0 :: l)). destruct (at_is_Some (s0 :: l) z Hd) as [m Hm]. rewrite Hm.
    apply mutate_ok. rewrite at_lookup in Hm by lia. by apply (Forall_lookup_1 _ _ _ _ Hc Hm). }
  destruct Hpick as (rng & scn & -> & Hs).
  destruct (fold_in n self rng scn (corpus self) Hok Hs ltac:(by left)) as (o & c & -> & Hm).
  destruct (Coverage.merge _ _) as [g new]. destruct Hm as (_ & H1 & _). by eexists.
Qed.
Lemma fuzz_loop_ok k n self : campaign_ok n self ->
  exists self', fuzz_loop run k self = Some self' /\ campaign_ok (n + Z.of_nat k) self'.
Proof.
  revert n self. induction k as [|k IH]; intros n self Hok; [exists self; by rewrite Z.add_0_r|]. cbn [fuzz_loop].
  destruct (fuzz_step_ok n self Hok) as (s1 & -> & H1). destruct (IH _ _ H1) as (s2 & E & H2). exists s2. split; [done|].
  by replace (n + Z.of_nat (S k)) with (n + 1 + Z.of_nat k) by lia.
Qed.
Lemma baseline_loop_ok k n self : campaign_ok n self ->
  exists self', baseline_loop run k self = Some self' /\ campaign_ok (n + Z.of_nat k) self'.
Proof.
  revert n self. induction k as [|k IH]; intros n self Hok; [exists self; by rewrite Z.add_0_r|]. cbn [baseline_loop].
  unfold baseline_step. destruct (random_ok (c_rng self)) as (rng & scn & -> & Hs).
  destruct (fold_in n self rng scn [] Hok Hs ltac:(by right)) as (o & c & -> & Hm).
  destruct (Coverage.merge _ _) as [g new]. destruct Hm as (_ & _ & H1). destruct (IH _ _ H1) as (s2 & E & H2). exists s2. split; [done|].
  by replace (n + Z.of_nat (S k)) with (n + 1 + Z.of_nat k) by lia.
Qed.

Lemma campaign_new_ok rng : campaign_ok 0 (mkCampaign rng Coverage.new [] []).
Proof. split; cbn; try constructor; try done. Qed.

(** The fuzzer keeps what reaches further, and reports no
    un-survivable link as a bug.  Over any runner that returns a coverage map for
    each scenario of the envelope, a campaign of [n] evaluations returns.  Its
    edges are the buckets of its union coverage, at most [COV_BITS]; every
    scenario it kept paid for itself with a bucket no earlier one had set, so its
    corpus never outgrows its edges; and each finding is a scenario of the
    envelope the mutator promises (loss, duplication, corruption, jitter and size
    capped, a positive delay) whose run did not complete.  The blind baseline
    reports under the same rules. *)
Lemma fuzz_keeps_what_reaches_further fuzz_seed n : 0 <= n ->
  exists r b, fuzz run fuzz_seed n = Some r /\ fuzz_random_baseline run fuzz_seed n = Some b /\
    corpus_size r <= edges r /\ edges r = Coverage.count (coverage r) /\ edges r <= COV_BITS /\ corpus_size r <= n /\
    edges b = Coverage.count (coverage b) /\ edges b <= COV_BITS /\ corpus_size b = 0 /\
    forall rep, rep = r \/ rep = b -> zlen (findings rep) <= n /\
      Forall (fun s => survivable s /\ exists o c, run s = Some (o, c) /\ is_completed o = false) (findings rep).
Proof.
  intros Hn. unfold fuzz, fuzz_random_baseline.
  destruct (fuzz_loop_ok (Z.to_nat n) 0 _ (campaign_new_ok (Rng.new (Z.lxor fuzz_seed 0xF1F2F3F4F5F6F7F8)))) as (c & -> & [G1 C1 P1 L1 F1 N1]).
  destruct (baseline_loop_ok (Z.to_nat n) 0 _ (campaign_new_ok (Rng.new (Z.lxor fuzz_seed 0x0102030405060708)))) as (d & -> & [G2 C2 P2 L2 F2 N2]).
  rewrite Z2Nat.id in * by done. eexists _, _. do 2 (split; [reflexivity|]). cbn [corpus_size edges coverage findings].
  pose proof (CovFacts.count_le _ G1). pose proof (CovFacts.count_le _ G2).
  do 7 (split; [done || lia|]). intros rep [->| ->]; cbn; (split; [lia|done]).
Qed.
End campaign.

(** A runner for the witness: every scenario completes, except on a link that
    corrupts. *)
Definition demo_run (s : Scenario) : option (Outcome * Coverage) :=
  let? c := Coverage.set Coverage.new (log_bucket (bytes s) + 64 * log_bucket (seed s)) in
  Some (if corrupt_ppm (link s) =? 0 then Completed 1 1 0 0 0 else Stuck 1 0, c).

Lemma fuzz_keeps_what_reaches_further_witness : exists r, fuzz demo_run 7 40 = Some r /\
  0 < corpus_size r <= edges r /\ Forall (fun s => survivable s /\ exists o c, demo_run s = Some (o, c) /\ is_completed o = false) (findings r) /\
  findings r <> [].
Proof.
  destruct (fuzz_keeps_what_reaches_further demo_run) with (fuzz_seed := 7) (n := 40) as (r & b & E & _ & H1 & _ & _ & _ & _ & _ & _ & H).
  - intros s _. unfold demo_run. destruct (CovFacts.set_total Coverage.new (log_bucket (bytes s) + 64 * log_bucket (seed s)) CovFacts.cov_new_ok)
      as (c & -> & Hc). by eexists _, c.
  - lia.
  - exists r. split; [exact E|].
    assert (Hc : match fuzz demo_run 7 40 with
                 | Some r => (0 <? corpus_size r) && (0 <? zlen (findings r)) | None => true end = true) by (vm_compute; reflexivity).
    rewrite E in Hc. split; [lia|]. split; [apply (H r); by left|]. intros Hnil. rewrite Hnil in Hc. change (zlen (@nil Scenario)) with 0 in Hc. lia.
Defined.
