(* ===== verification/Sim.v ===== *)
(** The simulator's runs: [tcp-core/src/sim.rs] from [build_pair] on.

    Two runtimes over mock devices carry one bulk transfer; a driver delivers
    what the link has made due, turns both, puts their output on the link and
    moves the clock to the next event.  The cells the workload shares with the
    driver ([received], [connected]) ride along with the reactor's state. *)

From stdpp Require Import gmap.
From S2P Require Import Prelude Seq Time Isn Ipv4 Congestion Endpoint Tcb TcbWork Iface Executor Socket Reactor SimLink SimCov.

Definition SERVER_IP : Ipv4Addr := ipv4 10 0 0 2.
Definition CLIENT_IP : Ipv4Addr := ipv4 10 0 0 1.
Definition MAX_STEPS : Z := 2000000.
Definition MAX_SIM_US : Z := 600000000.

(** [(i.wrapping_mul(2_654_435_761) >> 13) as u8] for [i] below [n] *)
Definition payload_of (n : Z) : list Z := map (fun i => wrap8 (Z.shiftr (wrap64 (i * 2654435761)) 13)) (seqZ 0 n).

(** [u64::to_le_bytes] *)
Definition to_le64 (v : Z) : list Z := map (fun i => v / 2 ^ (8 * i) mod 256) (seqZ 0 8).
Definition secret_from (seed salt : Z) : list Z := to_le64 seed ++ to_le64 (wrap64 (seed + salt)).

(** ** The workload *)

Record Cells := mkCells { received : list Z; connected : bool }.
#[export] Instance Cells_settable : Settable Cells := fun s => mkCells (received s) (connected s).

(** The two [async] blocks of [build_pair], at their suspension points. *)
Inductive SimTask :=
  | Accepting
  | Draining (stream : Endpoint)
  | Dialing (remote : Endpoint) (to_send : list Z) (initiated : bool)
  | Sending (stream : Endpoint) (rest : list Z).

Definition READ_BUF : Z := 16 * 1024.

Section workload.
Context {C : Type} `{!CongestionControl C} (Cc_new : CcKind -> Z -> C).

Definition World : Type := ReactorState C * Cells.

(** [loop { match stream.read(&mut buf).await .. }]: a turn that goes on has
    taken an octet. *)
Fixpoint drain_loop (fuel : nat) (ep : Endpoint) (cx : Waker) (w : World) : option (Poll unit * World) :=
  match fuel with
  | O => None
  | S fuel =>
      let '(s, cells) := w in
      let? (s, r) := poll_read ep READ_BUF cx s in
      match r with
      | Pending => Some (Pending, (s, cells))
      | Ready (Ok []) | Ready (Err _) => Some (Ready tt, (s, cells))
      | Ready (Ok data) => drain_loop fuel ep cx (s, cells <| received := received cells ++ data |>)
      end
  end.
Definition drain_fuel (ep : Endpoint) (s : ReactorState C) : nat :=
  S (S match conns (stack s) !! ep with Some t => Z.to_nat (rx_available t) | None => O end).

Definition send_all (ep : Endpoint) (rest : list Z) (cx : Waker) (w : World) : option (SimTask * Poll unit * World) :=
  let '(s, cells) := w in
  let? (rest, s, r) := poll_write_all ep rest cx s in
  Some match r with
       | Pending => (Sending ep rest, Pending, (s, cells))
       | Ready _ => (Sending ep rest, Ready tt, (stream_close ep s, cells))
       end.

Definition sim_poll (task : SimTask) (cx : Waker) (w : World) (ex : Executor SimTask)
  : option (SimTask * Poll unit * World * Executor SimTask) :=
  let '(s, cells) := w in
  match task with
  | Accepting =>
      match poll_accept cx s with
      | (s, Pending) => Some (Accepting, Pending, (s, cells), ex)
      | (s, Ready ep) =>
          let? (p, w) := drain_loop (drain_fuel ep s) ep cx (s, cells) in Some (Draining ep, p, w, ex)
      end
  | Draining ep => let? (p, w) := drain_loop (drain_fuel ep s) ep cx w in Some (Draining ep, p, w, ex)
  | Dialing remote to_send initiated =>
      let? (initiated, s, r) := poll_connect Cc_new remote initiated cx s in
      match r with
      | Pending => Some (Dialing remote to_send initiated, Pending, (s, cells), ex)
      | Ready (Err _) => Some (Dialing remote to_send initiated, Ready tt, (s, cells), ex)
      | Ready (Ok ep) =>
          let? (task, p, w) := send_all ep to_send cx (s, cells <| connected := true |>) in Some (task, p, w, ex)
      end
  | Sending ep rest => let? (task, p, w) := send_all ep rest cx w in Some (task, p, w, ex)
  end.

(** ** A host's turn

    [Runtime::turn] of [Reactor.v] with the cells passed to the tasks; the mock
    device returns no error. *)

Context {E : Type}.
Abbreviation Host := (Runtime MockDevice C SimTask) (only parsing).

Definition host_turn (fuel rfuel : nat) (ho : HashOrder) (now : Instant) (self : Host) (cells : Cells) : option (Host * Cells) :=
  let s := (r_state self) <| Socket.now := now |> in
  let? st := Iface.on_timer (stack s) (ho_timer ho (dom (conns (stack s)))) now in
  let? (d, rx, tx, st, r) := ingress (E := E) Cc_new fuel now (device self) (r_rx self) (r_tx self) st in
  let self := self <| device := d |> <| r_rx := rx |> <| r_tx := tx |> in
  let s := s <| stack := st |> in
  match r with
  | Err _ => None
  | Ok _ =>
      let '(s, ex) := dispatch_wakeups ho s (r_exec self) in
      let? ((s, cells), ex) := run_ready sim_poll rfuel (s, cells) ex in
      let? (st, out) := Iface.poll_transmit (stack s) (ho_transmit ho (dom (conns (stack s)))) now [] in
      let self := self <| r_state := s <| stack := st |> |> <| r_exec := ex |> <| egress := out |> in
      Some (self <| device := flush (E := E) (device self) (egress self) |>, cells)
  end.

(** ** [build_pair] *)

Record Pair := mkPair { client : Host; server : Host; payload : list Z; cells : Cells }.

Definition build_pair (seed n : Z) (kind : CcKind) : option Pair :=
  let server_ep := mkEndpoint SERVER_IP 8080 in
  let? server := runtime_new (E := E) Mock.new server_ep (secret_from seed 0xA5A5) in
  let? client := runtime_new (E := E) Mock.new (mkEndpoint CLIENT_IP 40000) (secret_from seed 0x5A5A) in
  let server := runtime_set_cc server kind in
  let client := runtime_set_cc client kind in
  let payload := payload_of n in
  let? server := runtime_spawn server Accepting in
  let? client := runtime_spawn client (Dialing server_ep payload false) in
  Some (mkPair client server payload (mkCells [] false)).

(** ** [run_collecting] *)

Record Drive := mkDrive { pair : Pair; wire : Link.Link; clock : Instant; steps : Z; collector : option CovCollector }.

(** [for f in device.take_outbound()]: observed, then enqueued. *)
Fixpoint offer (now : Instant) (side : Side) (out : list (list Z)) (link : Link.Link) (cov : option CovCollector)
  : option (Link.Link * option CovCollector) :=
  match out with
  | [] => Some (link, cov)
  | f :: out =>
      let? cov := match cov with
                  | Some c => let? c := CovCollector.observe c side f in Some (Some c)
                  | None => Some None
                  end in
      let? link := Link.enqueue link now side f in offer now side out link cov
  end.

Definition take_host (self : Host) : Host * list (list Z) :=
  let '(d, out) := Mock.take_outbound (device self) in (self <| device := d |>, out).

(** [[a, b, c].into_iter().flatten().min()] *)
Definition earliest (l : list (option Instant)) : option Instant :=
  foldr (fun o m => match o, m with Some a, Some b => Some (Z.min a b) | Some a, None => Some a | None, m => m end) None l.

(** Phases 1 and 2 of an iteration. *)
Definition exchange (fuel rfuel : nat) (hos : Two HashOrder) (self : Drive) : option Drive :=
  let now := clock self in
  let p := pair self in
  let '(link, client, server) := Link.deliver_due (wire self) now (client p) (server p) in
  let? (client, cells) := host_turn fuel rfuel (slot hos ToClient) now client (cells p) in
  let? (server, cells) := host_turn fuel rfuel (slot hos ToServer) now server cells in
  let '(client, out_c) := take_host client in
  let? (link, cov) := offer now ToServer out_c link (collector self) in
  let '(server, out_s) := take_host server in
  let? (link, cov) := offer now ToClient out_s link cov in
  Some (mkDrive (mkPair client server (payload p) cells) link now (steps self) cov).

(** Phases 3 to 5: the outcome, or the next instant. *)
Definition advance (scn : Scenario) (self : Drive) : Drive + Outcome :=
  let p := pair self in
  let got := zlen (received (cells p)) in
  if connected (cells p) && (bytes scn <=? got) then
    inr (if bool_decide (received (cells p) = payload p)
         then Completed (steps self) (micros (clock self)) (Link.dropped (wire self)) (Link.duplicated (wire self)) (Link.corrupted (wire self))
         else IntegrityViolation got)
  else
    let n := steps self + 1 in
    if (MAX_STEPS <? n) || (MAX_SIM_US <? micros (clock self)) then inr (Timeout n got)
    else
      match earliest [runtime_poll_at (client p); runtime_poll_at (server p); Link.next_deliver_at (wire self)] with
      | Some t => inl (mkDrive p (wire self) (if clock self <? t then t else plus_micros (clock self) 1) n (collector self))
      | None => inr (Stuck n got)
      end.

(** One iteration; the maps' orders may differ from turn to turn. *)
Definition sim_step (fuel rfuel : nat) (hos : Z -> Two HashOrder) (scn : Scenario) (self : Drive) : option (Drive * (Drive + Outcome)) :=
  let? self := exchange fuel rfuel (hos (steps self)) self in Some (self, advance scn self).

(** [loop]: [n] bounds its turns; [inl] is the state it has reached. *)
Fixpoint sim_loop (n : nat) (fuel rfuel : nat) (hos : Z -> Two HashOrder) (scn : Scenario) (self : Drive)
  : option (Drive * option Outcome) :=
  match n with
  | O => Some (self, None)
  | S n =>
      let? (self, r) := sim_step fuel rfuel hos scn self in
      match r with
      | inl next => sim_loop n fuel rfuel hos scn next
      | inr o => Some (self, Some o)
      end
  end.

Definition start (scn : Scenario) (cov : option CovCollector) : option Drive :=
  let? p := build_pair (seed scn) (bytes scn) (cc scn) in
  Some (mkDrive p (Link.new (seed scn) (link scn)) (from_micros 0) 0 cov).

Definition run_collecting (n fuel rfuel : nat) (hos : Z -> Two HashOrder) (scn : Scenario) (cov : option CovCollector)
  : option (Outcome * option CovCollector) :=
  let? d := start scn cov in
  let? (d, o) := sim_loop n fuel rfuel hos scn d in
  let? o := o in Some (o, collector d).
Definition run (n fuel rfuel : nat) (hos : Z -> Two HashOrder) (scn : Scenario) : option Outcome :=
  let? (o, _) := run_collecting n fuel rfuel hos scn None in Some o.
Definition run_with_coverage (n fuel rfuel : nat) (hos : Z -> Two HashOrder) (scn : Scenario) : option (Outcome * Coverage) :=
  let? (o, cov) := run_collecting n fuel rfuel hos scn (Some CovCollector.new) in
  let? c := cov in
  let? c := CovCollector.finish c o in Some (o, c).
End workload.
