(* ===== verification/SimProps.v ===== *)
(** A simulated run ends with a verdict that means what it says. *)

From stdpp Require Import gmap sorting.
From S2P Require Import Prelude Seq Time Isn Ipv4 Congestion Endpoint Tcb TcbDemo TcbWork Iface Executor Socket Reactor ReactorWake SimLink SimLinkProps SimCov Sim.

#[local] Arguments exchange : simpl never.

Section drive.
Context {C : Type} `{!CongestionControl C} (Cc_new : CcKind -> Z -> C) {E : Type}.
Context (fuel rfuel : nat) (hos : Z -> Two HashOrder) (scn : Scenario).
Local Abbreviation exchange := (exchange (E := E) Cc_new fuel rfuel).
Local Abbreviation sim_loop := (sim_loop (E := E) Cc_new) (only parsing).

(** *** One iteration *)

(** The link of a drive is the link of its history: what was flushed and what the
    hosts sent. *)
Definition history (d : Drive (C := C)) (es : list LinkFacts.Event) : Prop :=
  exists out, LinkFacts.carry es (Link.new (seed scn) (link scn)) [] = Some (wire d, out).

Lemma carry_app es1 es2 self out :
  LinkFacts.carry (es1 ++ es2) self out =
    match LinkFacts.carry es1 self out with Some (self, out) => LinkFacts.carry es2 self out | None => None end.
Proof.
  revert self out. induction es1 as [|[now sd f|now] es1 IH]; intros self out; [done|..]; cbn [app LinkFacts.carry].
  - destruct (Link.enqueue self now sd f); [apply IH|done].
  - destruct (split_due _ _ _). apply IH.
Qed.

Lemma offer_carries now sd fs l cov l' cov' out :
  offer now sd fs l cov = Some (l', cov') ->
  LinkFacts.carry (map (LinkFacts.Enqueue now sd) fs) l out = Some (l', out).
Proof.
  revert l cov. induction fs as [|f fs IH]; intros l cov; cbn [offer map LinkFacts.carry]; [by intros [= <- _]|].
  destruct cov as [c|]; [destruct (CovCollector.observe c sd f); [|done]|];
    destruct (Link.enqueue l now sd f); try done; intros H; by eapply IH.
Qed.

(** An iteration flushes the link, then sends what the client and the server
    put out; the step count, the clock and the payload are as they were. *)
Lemma exchange_spec ho d d' es : exchange ho d = Some d' -> history d es ->
  exists out_c out_s, steps d' = steps d /\ clock d' = clock d /\ payload (pair d') = payload (pair d) /\
    history d' (es ++ LinkFacts.Deliver (clock d) :: map (LinkFacts.Enqueue (clock d) ToServer) out_c ++
                 map (LinkFacts.Enqueue (clock d) ToClient) out_s).
Proof.
  unfold Sim.exchange. intros H [out Hh].
  destruct (LinkFacts.deliver_due_spec (wire d) (clock d) (client (pair d)) (server (pair d))) as (batch & _ & Ed). rewrite Ed in H. clear Ed.
  destruct (host_turn _ _ _ _ _ _ _) as [[c1 cells1]|]; [|done]. destruct (host_turn _ _ _ _ _ _ _) as [[s1 cells2]|]; [|done].
  destruct (take_host c1) as [c2 out_c]. destruct (offer _ _ out_c _ _) as [[l1 cov1]|] eqn:E1; [|done].
  destruct (take_host s1) as [s2 out_s]. destruct (offer _ _ out_s _ _) as [[l2 cov2]|] eqn:E2; [|done].
  injection H as <-. exists out_c, out_s. do 3 (split; [done|]).
  unfold history. cbn [wire]. rewrite carry_app, Hh. cbn [LinkFacts.carry].
  destruct (split_due deliver_at (clock d) (Link.inflight (wire d))) as [due keep]. cbn [snd] in E1. eexists.
  rewrite carry_app, (offer_carries _ _ _ _ _ _ _ _ E1). by apply offer_carries with (cov := cov1) (cov' := cov2).
Qed.

Lemma earliest_none l : earliest l = None -> Forall (fun o => o = None) l.
Proof.
  induction l as [|[t|] l IH]; [constructor|..]; cbn; [|intros H; constructor; [done|by apply IH]].
  fold (earliest l). by destruct (earliest l).
Qed.

(** *** What each verdict says of the state it was reached in *)

Definition done_ (d : Drive (C := C)) : bool := connected (cells (pair d)) && (bytes scn <=? zlen (received (cells (pair d)))).

Definition verdict (d : Drive (C := C)) (o : Outcome) : Prop :=
  let p := pair d in
  match o with
  | Completed st us dr du co =>
      connected (cells p) = true /\ received (cells p) = payload p /\ st = steps d /\ us = clock d /\
      dr = Link.dropped (wire d) /\ du = Link.duplicated (wire d) /\ co = Link.corrupted (wire d)
  | IntegrityViolation got => done_ d = true /\ received (cells p) <> payload p /\ got = zlen (received (cells p))
  | Stuck st got => done_ d = false /\ st = steps d + 1 /\ got = zlen (received (cells p)) /\
      runtime_poll_at (client p) = None /\ runtime_poll_at (server p) = None /\ Link.inflight (wire d) = []
  | Timeout st got => done_ d = false /\ st = steps d + 1 /\ got = zlen (received (cells p)) /\
      (steps d = MAX_STEPS \/ MAX_SIM_US < clock d)
  end.

Lemma advance_spec d : steps d <= MAX_STEPS ->
  match advance scn d with
  | inl d' => pair d' = pair d /\ wire d' = wire d /\ steps d' = steps d + 1 /\ steps d' <= MAX_STEPS /\
      clock d < clock d' /\ done_ d = false /\ clock d <= MAX_SIM_US
  | inr o => verdict d o
  end.
Proof.
  intros Hs. unfold advance. fold (done_ d). destruct (done_ d) eqn:Ed.
  { case_bool_decide; cbn; [|by split_and!]. unfold done_ in Ed. apply andb_true_iff in Ed as [-> _]. by split_and!. }
  destruct (_ || _) eqn:Eb.
  { cbn. split; [done|]. split; [done|]. split; [done|]. apply orb_true_iff in Eb as [Eb|Eb]; unfold micros in Eb; lia. }
  apply orb_false_iff in Eb as [Eb1 Eb2]. unfold micros in Eb2.
  destruct (earliest _) as [t|] eqn:Ee.
  - cbn. do 2 (split; [done|]). split; [done|]. split; [lia|]. split; [|split; [done|lia]].
    destruct (clock d <? t) eqn:?; [lia|]. unfold plus_micros, sat_add64, MAX_SIM_US in *. lia.
  - cbn. do 3 (split; [done|]). apply earliest_none in Ee. rewrite !List.Forall_cons_iff in Ee. destruct Ee as (-> & -> & Hl & _).
    do 2 (split; [done|]). pose proof (min_deliver_at_spec (Link.inflight (wire d))) as Hm.
    unfold Link.next_deliver_at in Hl. by rewrite Hl in Hm.
Qed.

(** *** The loop *)

(** A reached state: its step count and clock, and the link's history. *)
Record reached (d : Drive (C := C)) : Prop := {
  re_steps : 0 <= steps d <= MAX_STEPS;
  re_clock : steps d <= clock d;
  re_payload : payload (pair d) = payload_of (bytes scn);
  re_history : exists es, history d es;
}.

Lemma start_reached cov d : start (E := E) scn cov = Some d -> reached d.
Proof.
  unfold start. destruct (build_pair _ _ _) as [p|] eqn:Ep; [|done]. intros [= <-]. split; cbn; [done|done| |by exists [], []].
  unfold build_pair in Ep. repeat (destruct (runtime_new _ _ _) as [?|]; [|done]). 
  repeat (destruct (runtime_spawn _ _) as [?|]; [|done]). by injection Ep as <-.
Qed.

Lemma exchange_reached ho d d' : reached d -> exchange ho d = Some d' -> reached d'.
Proof.
  intros [H1 H2 H3 [es Hh]] Ex. destruct (exchange_spec _ _ _ _ Ex Hh) as (oc & os & Es & Ec & Ep & Hh').
  split; rewrite ?Es, ?Ec, ?Ep; try done. by eexists.
Qed.

Lemma loop_ends n d : reached d -> MAX_STEPS < steps d + Z.of_nat n ->
  match sim_loop n fuel rfuel hos scn d with
  | None => exists k d1, sim_loop k fuel rfuel hos scn d = Some (d1, None) /\ reached d1 /\ exchange (hos (steps d1)) d1 = None
  | Some (_, None) => False
  | Some (d', Some o) => reached d' /\ verdict d' o
  end.
Proof.
  revert d. induction n as [|n IH]; intros d Hr Hn; [pose proof (re_steps _ Hr); lia|]. cbn [Sim.sim_loop]. unfold sim_step.
  destruct (exchange (hos (steps d)) d) as [d1|] eqn:Ex; [|by exists O, d].
  pose proof (exchange_reached _ _ _ Hr Ex) as Hr1. pose proof (re_steps _ Hr1) as [Hs0 Hs1].
  pose proof (advance_spec d1 Hs1) as Ha. destruct (advance scn d1) as [d2|o] eqn:Ea; [|done].
  destruct Ha as (Ep & Ew & Es & Hle & Hc & _ & _).
  assert (Est : steps d1 = steps d).
  { destruct (re_history _ Hr) as [es Hh]. by destruct (exchange_spec _ _ _ _ Ex Hh) as (? & ? & ? & _). }
  assert (Hr2 : reached d2).
  { destruct Hr1 as [R1 R2 R3 [es Hh]]. split; [lia|lia|by rewrite Ep|]. exists es. unfold history in *. by rewrite Ew. }
  specialize (IH d2 Hr2 ltac:(lia)).
  destruct (Sim.sim_loop _ n _ _ _ _ d2) as [[d3 [o|]]|]; [done|done|].
  destruct IH as (k & d3 & E3 & H3 & H3'). exists (S k), d3. split; [|done]. cbn [Sim.sim_loop]. unfold sim_step. by rewrite Ex, Ea.
Qed.

(** More turns change nothing once the loop has ended. *)
Lemma loop_more n m d d' o : sim_loop n fuel rfuel hos scn d = Some (d', Some o) -> sim_loop (n + m) fuel rfuel hos scn d = Some (d', Some o).
Proof.
  revert d. induction n as [|n IH]; intros d; [done|]. cbn [Sim.sim_loop Nat.add].
  destruct (sim_step _ _ _ _ _ _) as [[d1 [d2|o']]|]; [apply IH|done|done].
Qed.

End drive.

(** *** A concrete run: two losses and a duplicate, repaired by timeouts *)

Definition demo_scn : Scenario := mkScenario 3 (mkLinkConfig 200000 200000 0 5000 4000) 5 CcReno.
Definition demo_hos (_ : Z) : Two HashOrder := both some_order.

