(* ===== verification/SimRuns.v ===== *)
(** The congestion testbeds' runs: [run_bottleneck], [run_dualqueue] and
    [run_adversarial] of [tcp-core/src/sim.rs], over the hosts of [Sim.v] and the
    links of [SimLink.v]. *)

From stdpp Require Import gmap.
From S2P Require Import Prelude Seq Time Isn Ipv4 Congestion Endpoint Tcb TcbDemo TcbWork Iface Executor Socket Reactor ReactorWake SimLink SimCov Sim SimProps.

(** [loop]: [n] bounds its turns; [inl] goes on. *)
Fixpoint spin {S R : Type} (step : S -> option (S + R)) (n : nat) (s : S) : option (S + R) :=
  match n with
  | O => Some (inl s)
  | Datatypes.S n => let? r := step s in match r with inl s => spin step n s | inr r => Some (inr r) end
  end.

(** [for f in frames] *)
Fixpoint for_frames {L : Type} (f : L -> list Z -> option L) (frames : list (list Z)) (l : L) : option L :=
  match frames with [] => Some l | x :: frames => let? l := f l x in for_frames f frames l end.

Definition ADV_RUN_SEED : Z := 0xADAC5EEDADAC5EED.

Section runs.
Context {C : Type} `{!CongestionControl C} (Cc_new : CcKind -> Z -> C) {E : Type}.
Context (fuel rfuel : nat).
Local Abbreviation Host := (Runtime MockDevice C SimTask) (only parsing).
Local Abbreviation host_turn := (host_turn (E := E) Cc_new fuel rfuel).

(** The clock's next value, in the three loops. *)
Definition next_clock (now : Instant) (l : list (option Instant)) : option Instant :=
  let? t := earliest l in Some (if now <? t then t else plus_micros now 1).
Definition over_budget (steps : Z) (now : Instant) : bool := (MAX_STEPS <? steps) || (MAX_SIM_US <? micros now).
Definition intact (p : Pair (C := C)) : bool := bool_decide (received (cells p) = payload p).
Definition arrived (n : Z) (p : Pair (C := C)) : bool := connected (cells p) && (n <=? zlen (received (cells p))).

(** Both stacks of a pair at [now]. *)
Definition turn_pair (hos : Two HashOrder) (now : Instant) (p : Pair) : option Pair :=
  let? (client, cells) := host_turn (slot hos ToClient) now (client p) (cells p) in
  let? (server, cells) := host_turn (slot hos ToServer) now (server p) cells in
  Some (mkPair client server (payload p) cells).
(** What the two put out. *)
Definition take_pair (p : Pair (C := C)) : Pair * list (list Z) * list (list Z) :=
  let '(client, out_c) := take_host (client p) in
  let '(server, out_s) := take_host (server p) in
  (mkPair client server (payload p) (cells p), out_c, out_s).

(** *** [run_bottleneck] *)

Record BnDrive := mkBnDrive { bd_pair : Pair (C := C); bd_link : Bn.BottleneckLink; bd_now : Instant; bd_steps : Z }.

Definition bn_result (n : Z) (completed : bool) (d : BnDrive) : BottleneckResult :=
  mkBnResult completed (micros (bd_now d)) n (Bn.stats (bd_link d) ToServer).

Definition bn_step (hos : Z -> Two HashOrder) (n : Z) (d : BnDrive) : option (BnDrive + BottleneckResult) :=
  let now := bd_now d in
  let p := bd_pair d in
  let '(link, hc, hs) := Bn.deliver_due (bd_link d) now (client p) (server p) in
  let? p := turn_pair (hos (bd_steps d)) now (mkPair hc hs (payload p) (cells p)) in
  let '(p, out_c, out_s) := take_pair p in
  let? link := for_frames (fun l f => Bn.enqueue l now ToServer f) out_c link in
  let? link := for_frames (fun l f => Bn.enqueue l now ToClient f) out_s link in
  let d := mkBnDrive p link now (bd_steps d) in
  if arrived n p then Some (inr (bn_result n (intact p) d))
  else
    let steps := bd_steps d + 1 in
    if over_budget steps now then Some (inr (bn_result n false d))
    else match next_clock now [runtime_poll_at (client p); runtime_poll_at (server p); Bn.next_deliver_at link] with
         | Some t => Some (inl (mkBnDrive p link t steps))
         | None => Some (inr (bn_result n false d))
         end.

Definition run_bottleneck (turns : nat) (hos : Z -> Two HashOrder) (seed : Z) (cfg : Bottleneck) (n : Z) (kind : CcKind)
  : option (BnDrive + BottleneckResult) :=
  let? p := build_pair (E := E) seed n kind in
  spin (bn_step hos n) turns (mkBnDrive p (Bn.new cfg) (from_micros 0) 0).

(** *** [run_adversarial] *)

Record AdvDrive := mkAdvDrive { ad_pair : Pair (C := C); ad_link : Adv.AdvLink; ad_now : Instant; ad_steps : Z }.

Definition adv_result (n : Z) (completed : bool) (d : AdvDrive) : AdvResult :=
  let link := ad_link d in
  mkAdvResult completed (micros (ad_now d)) n (zlen (received (cells (ad_pair d))))
    (Adv.mean_queue_us link) (Adv.max_queue_us link) (Adv.dropped link) (Adv.marked link).

Definition adv_step (hos : Z -> Two HashOrder) (n : Z) (d : AdvDrive) : option (AdvDrive + AdvResult) :=
  let now := ad_now d in
  let p := ad_pair d in
  let? link := Adv.service (ad_link d) now in
  let '(link, hc, hs) := Adv.deliver_due link now (client p) (server p) in
  let? p := turn_pair (hos (ad_steps d)) now (mkPair hc hs (payload p) (cells p)) in
  let '(p, out_c, out_s) := take_pair p in
  let? link := for_frames (fun l f => Adv.enqueue_data l now f) out_c link in
  let? link := for_frames (fun l f => Adv.enqueue_ack l now f) out_s link in
  let? link := Adv.service link now in
  let d := mkAdvDrive p link now (ad_steps d) in
  if arrived n p then Some (inr (adv_result n (intact p) d))
  else
    let steps := ad_steps d + 1 in
    if over_budget steps now then Some (inr (adv_result n false d))
    else match next_clock now [runtime_poll_at (client p); runtime_poll_at (server p); Adv.next_event_at link] with
         | Some t => Some (inl (mkAdvDrive p link t steps))
         | None => Some (inr (adv_result n false d))
         end.

Definition run_adversarial (turns : nat) (hos : Z -> Two HashOrder) (env : AdvEnv) (trace : AdvTrace) (n : Z) (kind : CcKind)
  : option (AdvDrive + AdvResult) :=
  let? p := build_pair (E := E) ADV_RUN_SEED n kind in
  spin (adv_step hos n) turns (mkAdvDrive p (Adv.new env trace) (from_micros 0) 0).

(** *** [run_dualqueue] *)

Record DqDrive := mkDqDrive {
  dd_flows : Two (Pair (C := C)); dd_link : Dq.DualQueueLink; dd_now : Instant; dd_steps : Z; done_at : Two (option Z) }.

Definition flow_outcome (link : Dq.DualQueueLink) (i : Flow) (p : Pair) (done : option Z) (now : Instant) : FlowResult :=
  Dq.flow_result link i (intact p) (zlen (received (cells p))) (match done with Some t => t | None => micros now end).
Definition dq_result (d : DqDrive) : FlowResult * FlowResult :=
  let r i := flow_outcome (dd_link d) i (of_flow (dd_flows d) i) (of_flow (done_at d) i) (dd_now d) in (r Flow0, r Flow1).

(** One flow's output: its data through the dual queue, its ACKs around it. *)
Definition offer_flow (now : Instant) (i : Flow) (p : Pair) (link : Dq.DualQueueLink) : option (Pair * Dq.DualQueueLink) :=
  let '(p, out_c, out_s) := take_pair p in
  let? link := for_frames (fun l f => Dq.enqueue_data l now i f) out_c link in
  let? link := for_frames (fun l f => Dq.enqueue_ack l now i f) out_s link in
  Some (p, link).

Definition note_done (n : Z) (now : Instant) (p : Pair (C := C)) (done : option Z) : option Z :=
  match done with
  | Some t => Some t
  | None => if arrived n p then Some (micros now) else None
  end.

Definition dq_step (hos : Z -> Flow -> Two HashOrder) (n : Z) (d : DqDrive) : option (DqDrive + FlowResult * FlowResult) :=
  let now := dd_now d in
  let hosts p := (client p, server p) in
  let put p (cs : Host * Host) := mkPair cs.1 cs.2 (payload p) (cells p) in
  let '(p0, p1) := (of_flow (dd_flows d) Flow0, of_flow (dd_flows d) Flow1) in
  let? link := Dq.service (dd_link d) now in
  let '(link, fl) := Dq.deliver_due link now (mkTwo (hosts p0) (hosts p1)) in
  let? p0 := turn_pair (hos (dd_steps d) Flow0) now (put p0 (of_flow fl Flow0)) in
  let? p1 := turn_pair (hos (dd_steps d) Flow1) now (put p1 (of_flow fl Flow1)) in
  let? (p0, link) := offer_flow now Flow0 p0 link in
  let? (p1, link) := offer_flow now Flow1 p1 link in
  let? link := Dq.service link now in
  let done := mkTwo (note_done n now p0 (of_flow (done_at d) Flow0)) (note_done n now p1 (of_flow (done_at d) Flow1)) in
  let d := mkDqDrive (mkTwo p0 p1) link now (dd_steps d) done in
  if is_some (of_flow done Flow0) && is_some (of_flow done Flow1) then Some (inr (dq_result d))
  else
    let steps := dd_steps d + 1 in
    if over_budget steps now then Some (inr (dq_result d))
    else match next_clock now [Dq.next_event_at link; runtime_poll_at (client p0); runtime_poll_at (server p0);
                               runtime_poll_at (client p1); runtime_poll_at (server p1)] with
         | Some t => Some (inl (mkDqDrive (mkTwo p0 p1) link t steps done))
         | None => Some (inr (dq_result d))
         end.

Definition run_dualqueue (turns : nat) (hos : Z -> Flow -> Two HashOrder) (seed : Z) (cfg : DualQueue) (n : Z) (l4s_cc classic_cc : CcKind)
  : option (DqDrive + FlowResult * FlowResult) :=
  let? p0 := build_pair (E := E) seed n l4s_cc in
  let? p1 := build_pair (E := E) (wrap64 (seed + 0x9E3779B9)) n classic_cc in
  spin (dq_step hos n) turns (mkDqDrive (mkTwo p0 p1) (Dq.new cfg) (from_micros 0) 0 (both None)).
End runs.

(** ** The runs end, and [completed] means intact *)

Lemma spin_ends {S R} (step : S -> option (S + R)) (m : S -> Z) (P : S -> Prop) (Q : R -> Prop) n s :
  (forall s, P s -> 0 <= m s <= MAX_STEPS ->
     match step s with
     | Some (inl s') => P s' /\ m s' = m s + 1 /\ m s' <= MAX_STEPS
     | Some (inr r) => Q r
     | None => True
     end) ->
  P s -> 0 <= m s <= MAX_STEPS -> MAX_STEPS < m s + Z.of_nat n ->
  match spin step n s with Some (inl _) => False | Some (inr r) => Q r | None => True end.
Proof.
  intros Hstep. revert s. induction n as [|n IH]; intros s Hp Hm Hn; [lia|]. cbn [spin].
  pose proof (Hstep s Hp Hm) as H. destruct (step s) as [[s'|r]|]; [|done|done].
  destruct H as (Hp' & E & Hle). apply IH; [done|lia|lia].
Qed.

(** Enough turns for any of them. *)
Definition enough_turns : nat := Z.to_nat (MAX_STEPS + 1).

Section ends.
Context {C : Type} `{!CongestionControl C} (Cc_new : CcKind -> Z -> C) {E : Type}.
Context (fuel rfuel : nat) (n : Z).

Lemma build_pair_payload sd kind p : build_pair (E := E) (C := C) sd n kind = Some p -> payload p = payload_of n.
Proof.
  unfold build_pair. destruct (runtime_new _ _ _); [|done]. destruct (runtime_new _ _ _); [|done].
  destruct (runtime_spawn _ _); [|done]. destruct (runtime_spawn _ _); [|done]. by intros [= <-].
Qed.
Lemma turn_pair_payload hos now p p' : turn_pair (E := E) Cc_new fuel rfuel hos now p = Some p' -> payload p' = payload p.
Proof. unfold turn_pair. destruct (host_turn _ _ _ _ _ _ _) as [[? ?]|]; [|done]. destruct (host_turn _ _ _ _ _ _ _) as [[? ?]|]; [|done]. by intros [= <-]. Qed.
Lemma take_pair_same (p p' : Pair (C := C)) oc os : take_pair p = (p', oc, os) -> payload p' = payload p /\ cells p' = cells p.
Proof. unfold take_pair. destruct (take_host _), (take_host _). by intros [= <- _ _]. Qed.
Lemma next_clock_some now l t : next_clock now l = Some t -> now <= MAX_SIM_US -> now < t.
Proof.
  unfold next_clock. destruct (earliest l) as [e|]; [|done]. intros [= <-] H. destruct (now <? e) eqn:?; [lia|].
  unfold plus_micros, sat_add64, MAX_SIM_US in *. lia.
Qed.
Lemma within_budget steps now : over_budget steps now = false -> steps <= MAX_STEPS /\ now <= MAX_SIM_US.
Proof. unfold over_budget, micros. intros H%orb_false_iff. lia. Qed.

(** Goods delivered: all of the payload, in order. *)
Definition delivered_all (p : Pair (C := C)) : Prop := received (cells p) = payload_of n /\ connected (cells p) = true.
Lemma intact_all p : payload p = payload_of n -> arrived n p = true -> intact p = true -> delivered_all p.
Proof. unfold intact, arrived. intros Hp [Hc _]%andb_true_iff Hi%bool_decide_eq_true. split; [by rewrite Hi|done]. Qed.

Definition bn_honest (r : BottleneckResult) : Prop := exists d : BnDrive (C := C), r = bn_result n (bn_completed r) d /\
  0 <= bd_steps d <= MAX_STEPS /\ bd_steps d <= bd_now d /\ (bn_completed r = true -> delivered_all (bd_pair d)).
Definition bn_going (d : BnDrive (C := C)) : Prop := payload (bd_pair d) = payload_of n /\ bd_steps d <= bd_now d.

Lemma bn_step_ok hos d : bn_going d -> 0 <= bd_steps d <= MAX_STEPS ->
  match bn_step (E := E) Cc_new fuel rfuel hos n d with
  | Some (inl d') => bn_going d' /\ bd_steps d' = bd_steps d + 1 /\ bd_steps d' <= MAX_STEPS
  | Some (inr r) => bn_honest r
  | None => True
  end.
Proof.
  intros [Hp Hc] Hm. unfold bn_step. destruct (Bn.deliver_due _ _ _ _) as [[l hc] hs].
  destruct (turn_pair _ _ _ _ _ _) as [p1|] eqn:E1; [|done]. apply turn_pair_payload in E1.
  destruct (take_pair p1) as [[p2 oc] os] eqn:E2. apply take_pair_same in E2 as [E2 _].
  assert (Hp2 : payload p2 = payload_of n) by (rewrite E2, E1; exact Hp).
  destruct (for_frames _ oc l) as [l1|]; [|done]. destruct (for_frames _ os l1) as [l2|]; [|done].
  set (d1 := mkBnDrive p2 l2 (bd_now d) (bd_steps d)).
  assert (Hbad : bn_honest (bn_result n false d1)) by (exists d1; do 3 (split; [done|]); discriminate).
  destruct (arrived n p2) eqn:Ea.
  { exists d1. split; [done|]. split; [done|]. split; [done|]. intros Hi. by apply intact_all. }
  destruct (over_budget _ _) eqn:Eb; [exact Hbad|]. apply within_budget in Eb as [Eb1 Eb2].
  destruct (next_clock _ _) as [t|] eqn:En; [|exact Hbad]. apply next_clock_some in En; [|done].
  split; [split; cbn; [done|lia]|]. by split.
Qed.

Definition adv_honest (r : AdvResult) : Prop := exists d : AdvDrive (C := C), r = adv_result n (ad_completed r) d /\
  0 <= ad_steps d <= MAX_STEPS /\ ad_steps d <= ad_now d /\ (ad_completed r = true -> delivered_all (ad_pair d)).
Definition adv_going (d : AdvDrive (C := C)) : Prop := payload (ad_pair d) = payload_of n /\ ad_steps d <= ad_now d.

Lemma adv_step_ok hos d : adv_going d -> 0 <= ad_steps d <= MAX_STEPS ->
  match adv_step (E := E) Cc_new fuel rfuel hos n d with
  | Some (inl d') => adv_going d' /\ ad_steps d' = ad_steps d + 1 /\ ad_steps d' <= MAX_STEPS
  | Some (inr r) => adv_honest r
  | None => True
  end.
Proof.
  intros [Hp Hc] Hm. unfold adv_step. destruct (Adv.service _ _) as [l|]; [|done].
  destruct (Adv.deliver_due _ _ _ _) as [[l0 hc] hs].
  destruct (turn_pair _ _ _ _ _ _) as [p1|] eqn:E1; [|done]. apply turn_pair_payload in E1.
  destruct (take_pair p1) as [[p2 oc] os] eqn:E2. apply take_pair_same in E2 as [E2 _].
  assert (Hp2 : payload p2 = payload_of n) by (rewrite E2, E1; exact Hp).
  destruct (for_frames _ oc l0) as [l1|]; [|done]. destruct (for_frames _ os l1) as [l2|]; [|done].
  destruct (Adv.service l2 _) as [l3|]; [|done].
  set (d1 := mkAdvDrive p2 l3 (ad_now d) (ad_steps d)).
  assert (Hbad : adv_honest (adv_result n false d1)) by (exists d1; do 3 (split; [done|]); discriminate).
  destruct (arrived n p2) eqn:Ea.
  { exists d1. split; [done|]. split; [done|]. split; [done|]. intros Hi. by apply intact_all. }
  destruct (over_budget _ _) eqn:Eb; [exact Hbad|]. apply within_budget in Eb as [Eb1 Eb2].
  destruct (next_clock _ _) as [t|] eqn:En; [|exact Hbad]. apply next_clock_some in En; [|done].
  split; [split; cbn; [done|lia]|]. by split.
Qed.

(** Each flow's result stands by itself. *)
Definition dq_honest (r : FlowResult * FlowResult) : Prop := exists d : DqDrive (C := C), r = dq_result d /\
  0 <= dd_steps d <= MAX_STEPS /\ dd_steps d <= dd_now d /\
  (fl_completed r.1 = true -> received (cells (of_flow (dd_flows d) Flow0)) = payload_of n) /\
  (fl_completed r.2 = true -> received (cells (of_flow (dd_flows d) Flow1)) = payload_of n).
Definition dq_going (d : DqDrive (C := C)) : Prop :=
  payload (of_flow (dd_flows d) Flow0) = payload_of n /\ payload (of_flow (dd_flows d) Flow1) = payload_of n /\ dd_steps d <= dd_now d.

Lemma offer_flow_payload now i (p p' : Pair (C := C)) l l' : offer_flow now i p l = Some (p', l') -> payload p' = payload p.
Proof.
  unfold offer_flow. destruct (take_pair p) as [[p1 oc] os] eqn:E1. apply take_pair_same in E1 as [E1 _].
  destruct (for_frames _ oc l) as [l1|]; [|done]. destruct (for_frames _ os l1) as [l2|]; [|done]. by intros [= <- _].
Qed.

Lemma dq_step_ok hos d : dq_going d -> 0 <= dd_steps d <= MAX_STEPS ->
  match dq_step (E := E) Cc_new fuel rfuel hos n d with
  | Some (inl d') => dq_going d' /\ dd_steps d' = dd_steps d + 1 /\ dd_steps d' <= MAX_STEPS
  | Some (inr r) => dq_honest r
  | None => True
  end.
Proof.
  intros (Hp0 & Hp1 & Hc) Hm. unfold dq_step. destruct (Dq.service _ _) as [l|]; [|done].
  destruct (Dq.deliver_due _ _ _) as [l0 fl].
  destruct (turn_pair _ _ _ _ _ _) as [q0|] eqn:E0; [|done]. apply turn_pair_payload in E0.
  destruct (turn_pair _ _ _ _ _ (mkPair _ _ (payload (of_flow (dd_flows d) Flow1)) _)) as [q1|] eqn:E1; [|done]. apply turn_pair_payload in E1.
  destruct (offer_flow _ _ q0 _) as [[r0 l1]|] eqn:F0; [|done]. apply offer_flow_payload in F0.
  destruct (offer_flow _ _ q1 _) as [[r1 l2]|] eqn:F1; [|done]. apply offer_flow_payload in F1.
  destruct (Dq.service l2 _) as [l3|]; [|done].
  assert (H0 : payload r0 = payload_of n) by (rewrite F0, E0; exact Hp0).
  assert (H1 : payload r1 = payload_of n) by (rewrite F1, E1; exact Hp1).
  set (done := mkTwo _ _). set (d1 := mkDqDrive (mkTwo r0 r1) l3 (dd_now d) (dd_steps d) done).
  assert (Hres : dq_honest (dq_result d1)).
  { exists d1. split; [done|]. split; [done|]. split; [done|]. unfold intact in *. cbn. split.
    - intros Hi%bool_decide_eq_true. by rewrite Hi.
    - intros Hi%bool_decide_eq_true. by rewrite Hi. }
  destruct (_ && _); [exact Hres|]. destruct (over_budget _ _) eqn:Eb; [exact Hres|]. apply within_budget in Eb as [Eb1 Eb2].
  destruct (next_clock _ _) as [t|] eqn:En; [|exact Hres]. apply next_clock_some in En; [|done].
  split; [split; [exact H0|split; [exact H1|cbn; lia]]|]. by split.
Qed.

(** The three testbeds' runs end within [MAX_STEPS + 1] iterations, unless one
    panics, and never call a transfer complete that is not: what
    the result reports is read off the state the run ended in, where every octet
    of the payload has been received in order. *)
Lemma testbeds_end hos hosf sd cfg env trace dq kind kind' :
  match run_bottleneck (E := E) Cc_new fuel rfuel enough_turns hos sd cfg n kind with
  | Some (inl _) => False | Some (inr r) => bn_honest r | None => True end /\
  match run_adversarial (E := E) Cc_new fuel rfuel enough_turns hos env trace n kind with
  | Some (inl _) => False | Some (inr r) => adv_honest r | None => True end /\
  match run_dualqueue (E := E) Cc_new fuel rfuel enough_turns hosf sd dq n kind kind' with
  | Some (inl _) => False | Some (inr r) => dq_honest r | None => True end.
Proof.
  assert (Hn : MAX_STEPS < 0 + Z.of_nat enough_turns) by (unfold enough_turns; rewrite Z2Nat.id by done; lia).
  generalize dependent enough_turns. intros turns Hn. split; [|split].
  - unfold run_bottleneck. destruct (build_pair _ _ _) as [p|] eqn:Ep; [|done]. apply build_pair_payload in Ep.
    apply (spin_ends _ bd_steps bn_going); [intros s Hs Hm; by apply bn_step_ok|by split|done|exact Hn].
  - unfold run_adversarial. destruct (build_pair _ _ _) as [p|] eqn:Ep; [|done]. apply build_pair_payload in Ep.
    apply (spin_ends _ ad_steps adv_going); [intros s Hs Hm; by apply adv_step_ok|by split|done|exact Hn].
  - unfold run_dualqueue. destruct (build_pair _ _ kind) as [p|] eqn:Ep; [|done]. apply build_pair_payload in Ep.
    destruct (build_pair _ _ kind') as [p'|] eqn:Ep'; [|done]. apply build_pair_payload in Ep'.
    apply (spin_ends _ dd_steps dq_going); [intros s Hs Hm; by apply dq_step_ok|by split_and!|done|exact Hn].
Qed.
End ends.
